(* ===== verification/_CoqProject ===== *)
-Q . S2P
Prelude.v
Regex.v
Crypto.v
Calendar.v
WebPolicy.v
DomainTypes.v
ApplySchedule.v
Presence.v
TelemtTypes.v
Json.v
Capabilities.v
Node.v
NodeLogic.v
AgentFiles.v
Upgrade.v
TelemtClient.v
UpdateState.v
UpdateJournal.v
TelemtUpdate.v
UpdateSpecs.v
UpdateSafety.v
UpdateRecovery.v
UpdateSim.v
UpgradeRun.v
UpgradeSafety.v
Reliability.v
Url.v
Upstream.v
TelemtConfig.v
Patches.v
AgentProto.v
Users.v
UsersState.v
Accounts.v
UsersSafety.v
UsersQuota.v
UsersSim.v
Recovery.v
RecoverySafety.v
RecoveryEgress.v
RecoverySim.v
RateLimit.v
AdminTables.v
Routes.v
Auth.v
AuthLogic.v
AuthSafety.v
AuthAccounts.v
AuthLogin.v
AuthSim.v
Findings.v
Notify.v
NotifySafety.v
Incidents.v
FleetUpdate.v
Tables.v
Keys.v
Desired.v
Convert.v
Gateway.v
GatewaySafety.v
GatewayRegistry.v
SiteFiles.v
SiteSafety.v
RelayApply.v
RelayEnv.v
RelaySafety.v
Toml.v
MasterKey.v
DecoyCheck.v
TelemtApply.v
Settings.v
ApplyUndo.v
WebPath.v
KeyInvariants.v
Apply.v
ApplySafety.v
KeySafety.v
ApplySim.v
Delivery.v
