(* ===== verification/Prelude.v ===== *)
(** * A verification development for the panel and the agent of tgproxy

    The repository holds a panel (a Go service with a Postgres database) that
    manages access keys and proxy nodes, and an agent on each node that brings
    the node to the state the panel wants: the users and settings of a telemt
    server, or the profiles of an older relay, and a website in front of it.
    The development models the logic of both as executable definitions and
    proves what they promise.  This file is the root: the map of the whole,
    then the Go runtime every other file relies on.

    ** The program and its parts

    A change of a key ([Keys], internal/keys) marks its nodes dirty in the
    tables ([Tables], internal/store/db).  The apply worker
    ([ApplySchedule], [Apply], internal/worker/apply.go and applyschedule.go)
    takes dirty nodes, builds the request from the rows ([Desired],
    internal/worker/desired.go) and hands it to the driver, which turns it into
    a message ([Convert], internal/nodedriver) the agent reads ([AgentProto],
    [Users]).  The agent applies it ([TelemtApply] on a telemt node,
    [RelayApply] on a relay; internal/agent/telemt.go and apply.go) and answers
    whether it did, or rolled back.  The
    message travels over the session the agent keeps open to the panel
    ([Gateway]).  Next to that path the agent updates and
    upgrades the software of its node ([TelemtUpdate], [UpdateJournal],
    [UpgradeRun]), recovers its connectivity by itself ([Recovery]) and reports
    its health; the panel follows updates ([FleetUpdate]), turns reports into
    findings, alerts and notifications ([Findings], [Incidents], [Notify]),
    counts people ([Presence]) and limits callers ([RateLimit]).  People who run
    the panel sign in with a password and a second factor, and scripts come with
    an API token ([Auth], internal/api, over the tables of [AdminTables]); what
    each may call is a table of routes ([Routes]).

    ** Which file models what

    Runtime.  [Prelude] (results, byte strings, integers, instants), [Regex]
    (package regexp by derivatives, with its language), [Crypto]
    (SHA-256, HMAC, base64; the signed values and password hashes of
    internal/crypto), [Calendar] (with RFC 3339), [Json] (the text of package
    encoding/json and its values), [Url], [Toml].

    Domain.  [WebPolicy] and [DomainTypes] (internal/domain): entity types,
    validation, presets, quota periods.  [Reliability] (the contract of
    internal/reliability).

    The node.  [Node] is the operating system as a state monad over a [world]:
    files, clock, the agent's variables, and everything outside behind the
    class [Outside].  [NodeLogic] is the logic of runs (which files a run
    touches at any instant, which questions it puts).  [AgentFiles] (files.go,
    parts of upgraderun.go and updatejournal.go), [TelemtTypes],
    [Capabilities], [TelemtClient] (internal/telemt).

    Software of a node.  [UpdateState], [UpdateJournal], [TelemtUpdate]
    (telemtupdate.go, updatejournal.go), [UpdateSpecs], [UpdateSafety],
    [UpdateRecovery], [UpdateSim]; [Upgrade], [UpgradeRun], [UpgradeSafety]
    (upgrade.go, upgraderun.go).

    Applies on a node.  [TelemtConfig], [Patches] (the merge patches telemt
    takes), [AgentProto], [Users], [UsersState], [Accounts], [UsersSafety],
    [UsersQuota], [UsersSim]; [Upstream], [SiteFiles], [SiteSafety],
    [DecoyCheck], [TelemtApply], [Settings], [ApplyUndo], [WebPath];
    [RelayApply], [RelayEnv], [RelaySafety].

    Recovery.  [Recovery], [RecoverySafety], [RecoveryEgress], [RecoverySim]
    (recovery.go and internal/reliability).

    Signing in.  [AdminTables]
    (internal/store/db), [Routes] (server.go, rbac.go, api_token_policy.go and
    the mount functions), [Auth] (auth.go, session.go, totp.go, known_device.go,
    csrf.go, api_tokens.go; internal/totp), [AuthLogic] (what a request has done
    before a statement), [AuthSafety], [AuthAccounts], [AuthLogin], [AuthSim].

    Between them.  [Gateway] (internal/gateway and the hooks of
    internal/nodesvc/presence.go) is every goroutine of the agent sessions and
    of the calls through them, [GatewaySafety], [GatewayRegistry].

    Secrets at rest.  [MasterKey] (box.go, rotate.go, the keys of config.go and
    the command [panel keys rotate] of cmd/panel/main.go).

    The panel.  [RateLimit], [Findings], [Notify], [NotifySafety],
    [Incidents], [FleetUpdate], [Presence], [ApplySchedule], [Tables], [Keys],
    [KeyInvariants], [KeySafety], [Desired], [Apply], [ApplySafety],
    [ApplySim], [Convert], [Delivery].

    A file named after a component holds its data and operations under the
    names of the source; the files named ...Safety, ...Recovery, ...Egress,
    ...Quota, ...Undo, ...Path hold its theorems, and the files and modules
    named ...Sim concrete worlds with the runs that witness them.

    ** How state and effects are modelled

    On the node an operation is a function in the monad [Node.M]; a system call
    or a request is one question to [Outside], whose answer is arbitrary: a
    call may fail, an answer may be lost after its effect, the process may die
    between any two of them ([events] is the history the crash theorems
    quantify over).  In the panel an operation of the key service is one
    transaction over [Tables.Store], and transactions run one after another; an
    apply and the updater, which are many transactions, are cut where another
    can fall between ([Apply.advance], [FleetUpdate]), and the theorems hold for
    every interleaving of these.  The code runs the transactions of the key
    service READ COMMITTED without locking the node, so the statements of two
    can interleave; the theorems of [ApplySafety] and [KeySafety] do not cover
    that, and [ApplySim] runs what it does: a node over its limit
    ([two_bindings_one_place]), a clean node with a withdrawn secret
    ([deleted_after_listing]), a binding with the old secret
    ([bound_with_the_old_secret]).  A request of the API is a program of statements
    ([Auth.prog]); [AuthSafety.step] runs any number of them, one statement of
    one of them after another, where a statement may fail or its answer be lost.  The gateway is a
    transition system of goroutines over a heap of connections and channels
    ([Gateway.step]); a run is a list of actions and the theorems hold for every
    run.  Maps ranged over in Go come in any order ([MapOrder]).

    ** What the theorems show

    Each under the conditions its note gives; where the code does less without
    one of them, a run shows it.

    From a key to a node: tables fit together in every interleaving, a node
    that was applied to and is not dirty has what the tables say, a synced
    profile is served and activation is earned unless a key changes while an
    apply is being closed ([ApplySafety]); an expiry pass marks the keys that
    are due and their nodes and nothing else ([KeySafety]); the request the
    panel builds is understood by the agent as the rows it came from
    ([Delivery]); retries of an apply, from a record that is right about the
    users, converge to them ([UsersSafety]) and a quota is reset once a period
    ([UsersQuota]).
    At the door: a session was earned by password and second factor
    ([AuthSafety]), an owner stays and a change of the password withdraws
    sessions and tokens for good ([AuthAccounts]), a refused sign-in tells
    nothing and a recovery code works once ([AuthLogin]), an API token stays
    within its scopes ([Routes]).  A rotation of the master key keeps every
    stored secret readable or changes nothing ([MasterKey]).
    In between: answers and requests stay with their node ([GatewaySafety]), the
    registry names the newest session while it is up and a call does not
    outlast its session ([GatewayRegistry]).
    On the node: an apply that keeps the capacity and reports a roll-back left
    telemt as it was, unless an answer was lost ([ApplyUndo]); an acknowledged
    path was loaded by a reload or was on record as served before the apply
    acknowledged it ([WebPath]); a website is replaced whole ([SiteSafety]), a
    relay has what it was asked for, or the content of its files is restored
    ([RelaySafety]).  An update or upgrade leaves something runnable at every
    instant and its recovery restores it ([UpdateSafety], [UpdateRecovery],
    [UpgradeSafety]).  Recovery keeps its pace and changes routes all or
    nothing ([RecoverySafety], [RecoveryEgress]).
    Around it: alerts refine a declarative account ([Incidents]), deliveries
    are answered where they are recorded ([NotifySafety]), following an update ends ([FleetUpdate]),
    the limiter holds its limit ([RateLimit]), formats round trip ([Toml],
    [RelayEnv], [Convert], [Upstream]).

    ** Interfaces

    Code outside the repository is a class with the documented property the
    sources rely on: [Outside] (kernel, telemt, systemd, network), [Archive]
    (gzip and tar), [HtmlTokenizer], [Jsonb] (Postgres keeps its own output),
    [Argon2], [Uuid] and [Otp] (x/crypto, google/uuid and pquerna/otp),
    [Aead] (AES-256-GCM of crypto/cipher), [FloatText] (numbers of
    encoding/json as float64),
    and codecs of JSON structures ([JournalCodec], [RecoveryCodec],
    [DesiredCodec], [LimitsJson], [HealthCodec]) whose round trip is their law.
    What one part promises another is a class too: [Accounts] (what telemt's
    answers say about users), [Settings] (about settings), [Quiet] (calls that
    change neither).  The Sim files give an instance of each.

    ** Bounds and fuel

    Recursion is structural or on fuel that a lemma shows to be enough:
    polling loops take one step per interval left to their deadline
    ([NodeLogic.poll_enough], [UpdateState.waitTelemtReady_terminates],
    [WebPath.reload_ends], [FleetUpdate.follow_ends]), digits of a number their
    logarithm ([Dec.fuel]), a JSON text its length ([Json.marshal_fits]).
    Integers that cross a message keep their width ([Convert], Module Int);
    elsewhere an [int] is unbounded where the source's values cannot reach the
    bounds.

    ** Not modelled

    Logs and metrics of the panel itself; HTTP, TLS, gRPC and SQL as such (a
    statement is a function on finite maps, a request one question); generated
    code (protoc) beyond the messages; the web frontend; HTML rewriting of
    imported websites, which is the tokenizer's; rendering of installation
    scripts, subscription pages and QR codes; the interactive set-up of a node;
    backups, which run pg_dump; the firewall's nftables text; readings of /proc
    and of Prometheus text; the address of a caller behind proxies; that nobody
    else can make a signature is assumed where a challenge is presented
    ([AuthSafety.honest]); [chown] by owner name, whose effect the files of
    the model do not record.  An empty directory is known to the outside alone.
    Findings of the modelling are in the notes of the theorems that show them.

    ** Conventions of this file

    Shared by every file of the development: results of fallible calls, Go
    byte strings with the functions of package [strings] and [strconv] the
    sources call, 64-bit integers, instants and durations, the scope of
    notations, the tactics and the hint databases.  A Go [string] is a byte
    string, so it is Stdlib's [string] (a list of 8-bit [ascii]).  An [int] or
    [int64] is a [Z].  A [time.Time] is the number of nanoseconds since the
    Unix epoch, a [time.Duration] a number of nanoseconds.  An [error] is its
    text; [None] is the nil error.  White space and case folding are those of
    ASCII. *)

From Stdlib Require Export ZArith Lia Ascii String.
From stdpp Require Export prelude gmap strings fin_maps.
#[global] Open Scope list_scope.

#[global] Open Scope Z_scope.

Declare Scope go_scope.
Delimit Scope go_scope with go.

(** ** Errors and results *)

Abbreviation error := string.

Inductive result (A : Type) : Type :=
| Ok (a : A)
| Err (e : error).
Arguments Ok {A} _.
Arguments Err {A} _.

Definition rbind {A B : Type} (r : result A) (k : A -> result B) : result B :=
  match r with
  | Ok a => k a
  | Err e => Err e
  end.

Notation "'let?' x ':=' r 'in' k" := (rbind r (fun x => k))
  (at level 10, x pattern, r at level 100, k at level 200) : go_scope.

(** A check that yields the nil error lets the next one run: the Go idiom
    [if err := f(); err != nil { return err }]. *)
Definition or_else (a b : option error) : option error :=
  match a with
  | Some e => Some e
  | None => b
  end.

Notation "a ';;?' b" := (or_else a b) (at level 62, right associativity) : go_scope.

(** [if bad { return e }] *)
Definition fail_if (bad : bool) (e : error) : option error :=
  if bad then Some e else None.

Lemma or_else_None a b : or_else a b = None <-> a = None /\ b = None.
Proof. destruct a; cbn; intuition congruence. Qed.

Lemma fail_if_None bad e : fail_if bad e = None <-> bad = false.
Proof. destruct bad; cbn; intuition congruence. Qed.

(** The first failing check of a loop over a slice. *)
Fixpoint first_error {A : Type} (f : A -> option error) (l : list A) : option error :=
  match l with
  | [] => None
  | x :: l => match f x with Some e => Some e | None => first_error f l end
  end.

Lemma first_error_None {A} (f : A -> option error) l :
  first_error f l = None <-> Forall (fun x => f x = None) l.
Proof.
  induction l as [|x l IH]; cbn; [by split; [constructor|]|].
  rewrite Forall_cons_iff. destruct (f x); intuition congruence.
Qed.

(** ** Byte strings *)

Module Str.

Definition app (a b : string) : string := String.append a b.

Fixpoint drop (n : nat) (s : string) : string :=
  match n, s with
  | O, _ => s
  | S n, String _ s => drop n s
  | S _, EmptyString => EmptyString
  end.

Fixpoint take (n : nat) (s : string) : string :=
  match n, s with
  | O, _ => EmptyString
  | S n, String c s => String c (take n s)
  | S _, EmptyString => EmptyString
  end.

Definition has_prefix (s p : string) : bool := String.prefix p s.

Definition trim_prefix (s p : string) : string :=
  if has_prefix s p then drop (String.length p) s else s.

Definition cut_prefix (s p : string) : option string :=
  if has_prefix s p then Some (drop (String.length p) s) else None.

Definition has_suffix (s p : string) : bool :=
  (String.length p <=? String.length s)%nat &&
  String.eqb (drop (String.length s - String.length p) s) p.

Definition trim_suffix (s p : string) : string :=
  if has_suffix s p then take (String.length s - String.length p) s else s.

(** [strings.Split] with a one-byte separator. *)
Fixpoint split (sep : ascii) (s : string) : list string :=
  match s with
  | EmptyString => [EmptyString]
  | String c s =>
      if Ascii.eqb c sep then EmptyString :: split sep s
      else match split sep s with
           | [] => [String c EmptyString]
           | w :: ws => String c w :: ws
           end
  end.

(** [strings.IndexByte] *)
Fixpoint index_byte (s : string) (b : ascii) : option nat :=
  match s with
  | EmptyString => None
  | String c s => if Ascii.eqb c b then Some O else S <$> index_byte s b
  end.

(** [strings.Cut] with a one-byte separator. *)
Definition cut (s : string) (sep : ascii) : string * string * bool :=
  match index_byte s sep with
  | Some i => (take i s, drop (S i) s, true)
  | None => (s, EmptyString, false)
  end.

Definition contains_byte (s : string) (b : ascii) : bool :=
  match index_byte s b with Some _ => true | None => false end.

(** [strings.Contains] *)
Fixpoint contains (s sub : string) : bool :=
  has_prefix s sub || match s with EmptyString => false | String _ s => contains s sub end.

Definition is_space (c : ascii) : bool :=
  let n := nat_of_ascii c in (n =? 32)%nat || ((9 <=? n)%nat && (n <=? 13)%nat).

Fixpoint trim_left (s : string) : string :=
  match s with
  | String c s' => if is_space c then trim_left s' else s
  | EmptyString => EmptyString
  end.

Fixpoint trim_right (s : string) : string :=
  match s with
  | EmptyString => EmptyString
  | String c s =>
      match trim_right s with
      | EmptyString => if is_space c then EmptyString else String c EmptyString
      | t => String c t
      end
  end.

(** [strings.TrimSpace] *)
Definition trim_space (s : string) : string := trim_right (trim_left s).

(** [strings.TrimRight] with a one-byte cutset. *)
Fixpoint trim_right_byte (s : string) (b : ascii) : string :=
  match s with
  | EmptyString => EmptyString
  | String c s =>
      match trim_right_byte s b with
      | EmptyString => if Ascii.eqb c b then EmptyString else String c EmptyString
      | t => String c t
      end
  end.

(** [strings.Fields] *)
Fixpoint fields_aux (s : string) (word : string) : list string :=
  match s with
  | EmptyString => match word with EmptyString => [] | _ => [word] end
  | String c s =>
      if is_space c then
        match word with EmptyString => fields_aux s EmptyString | _ => word :: fields_aux s EmptyString end
      else fields_aux s (String.append word (String c EmptyString))
  end.

Definition fields (s : string) : list string := fields_aux s EmptyString.

Definition lower_byte (c : ascii) : ascii :=
  let n := nat_of_ascii c in
  if ((65 <=? n)%nat && (n <=? 90)%nat) then ascii_of_nat (n + 32) else c.

Fixpoint to_lower (s : string) : string :=
  match s with
  | EmptyString => EmptyString
  | String c s => String (lower_byte c) (to_lower s)
  end.

Definition equal_fold (a b : string) : bool := String.eqb (to_lower a) (to_lower b).

(** The verb %q: [strconv.Quote] on ASCII text; bytes from 128 up are kept. *)
Definition hex_digit (n : nat) : ascii :=
  if (n <? 10)%nat then ascii_of_nat (48 + n) else ascii_of_nat (87 + n).

Definition quote_byte (c : ascii) : string :=
  let n := nat_of_ascii c in
  let esc b := String "\"%char (String b EmptyString) in
  if (n =? 34)%nat || (n =? 92)%nat then esc c
  else match n with
  | 7%nat => esc "a"%char
  | 8%nat => esc "b"%char
  | 9%nat => esc "t"%char
  | 10%nat => esc "n"%char
  | 11%nat => esc "v"%char
  | 12%nat => esc "f"%char
  | 13%nat => esc "r"%char
  | _ => if (n <? 32)%nat || (n =? 127)%nat
         then String "\"%char (String "x"%char
                (String (hex_digit (n / 16)) (String (hex_digit (n mod 16)) EmptyString)))
         else String c EmptyString
  end.

Fixpoint quote_bytes (s : string) : string :=
  match s with
  | EmptyString => EmptyString
  | String c s => String.append (quote_byte c) (quote_bytes s)
  end.

Definition quote (s : string) : string :=
  String (ascii_of_nat 34) (String.append (quote_bytes s) (String (ascii_of_nat 34) EmptyString)).

(** The bytes of a string, in order. *)
Fixpoint bytes (s : string) : list ascii :=
  match s with
  | EmptyString => []
  | String c s => c :: bytes s
  end.

(** [strings.Join] *)
Fixpoint join (sep : string) (l : list string) : string :=
  match l with
  | [] => EmptyString
  | [w] => w
  | w :: l => String.append w (String.append sep (join sep l))
  end.

Lemma append_cons c p s : String.append (String c p) s = String c (String.append p s).
Proof. done. Qed.

Lemma append_nil_l s : String.append EmptyString s = s.
Proof. done. Qed.

Lemma append_assoc a b c : String.append (String.append a b) c = String.append a (String.append b c).
Proof. induction a as [|x a IH]; [done|]. by rewrite !append_cons, IH. Qed.

Lemma append_nil_r a : String.append a EmptyString = a.
Proof. induction a as [|x a IH]; [done|]. by rewrite append_cons, IH. Qed.

Lemma drop_length_append p s : drop (String.length p) (String.append p s) = s.
Proof. induction p as [|c p IH]; [done|]. by rewrite append_cons. Qed.

Lemma take_drop n s : String.append (take n s) (drop n s) = s.
Proof. revert s. induction n; intros [|c s]; cbn; try done. by rewrite append_cons, IHn. Qed.

Lemma has_prefix_append p s : has_prefix (String.append p s) p = true.
Proof.
  unfold has_prefix. induction p as [|c p IH]; [by destruct s|].
  rewrite append_cons; cbn. destruct (ascii_dec c c) as [_|n]; [exact IH|by destruct n].
Qed.

Lemma cut_prefix_append p s : cut_prefix (String.append p s) p = Some s.
Proof. unfold cut_prefix. by rewrite has_prefix_append, drop_length_append. Qed.

Lemma has_prefix_spec s p :
  has_prefix s p = true <-> exists t, s = String.append p t.
Proof.
  unfold has_prefix. split.
  - revert s. induction p as [|c p IH]; intros s; cbn; [by exists s|].
    destruct s as [|d s]; [done|]. cbn. destruct (ascii_dec c d) as [->|n]; [|intros [=]].
    intros [t ->]%IH. by exists t.
  - intros [t ->]. apply has_prefix_append.
Qed.

Lemma split_nonempty sep s : split sep s <> [].
Proof.
  destruct s as [|c s]; cbn; [done|].
  destruct (Ascii.eqb c sep); [done|]. by destruct (split sep s).
Qed.

Lemma length_append a b : String.length (String.append a b) = (String.length a + String.length b)%nat.
Proof. induction a as [|c a IH]; [done|]. rewrite append_cons; cbn. by rewrite IH. Qed.

Lemma bytes_append a b : bytes (String.append a b) = bytes a ++ bytes b.
Proof. induction a as [|c a IH]; [done|]. rewrite append_cons; cbn. by rewrite IH. Qed.

End Str.

(** ** Decimal integers *)

Module Dec.

Definition digit (d : Z) : ascii := ascii_of_nat (Z.to_nat (48 + d)).

(** The digits of a non-negative integer, most significant first; [fuel]
    bounds the number of digits. *)
Fixpoint digits (fuel : nat) (n : Z) (acc : string) : string :=
  match fuel with
  | O => acc
  | S fuel =>
      let acc := String (digit (n mod 10)) acc in
      if n <? 10 then acc else digits fuel (n / 10) acc
  end.

Definition fuel (n : Z) : nat := S (Z.to_nat (Z.log2 n)).

(** [strconv.Itoa] and the verb %d. *)
Definition itoa (n : Z) : string :=
  if n <? 0 then String "-"%char (digits (fuel (- n)) (- n) EmptyString)
  else digits (fuel n) n EmptyString.

Definition is_digit (c : ascii) : bool :=
  let n := nat_of_ascii c in (48 <=? n)%nat && (n <=? 57)%nat.

Definition digit_value (c : ascii) : Z := Z.of_nat (nat_of_ascii c) - 48.

Fixpoint parse_digits (s : string) (acc : Z) : option Z :=
  match s with
  | EmptyString => Some acc
  | String c s => if is_digit c then parse_digits s (10 * acc + digit_value c) else None
  end.

Definition parse_nonempty (s : string) : option Z :=
  match s with EmptyString => None | _ => parse_digits s 0 end.

Definition min_int64 : Z := - 2 ^ 63.
Definition max_int64 : Z := 2 ^ 63 - 1.

(** [strconv.Atoi] on a 64-bit platform: an optional sign, at least one
    digit, and the range of [int64]. *)
Definition atoi (s : string) : option Z :=
  let v := match s with
           | String c t =>
               if Ascii.eqb c "-" then Z.opp <$> parse_nonempty t
               else if Ascii.eqb c "+" then parse_nonempty t
               else parse_nonempty s
           | EmptyString => None
           end in
  match v with
  | Some n => if (min_int64 <=? n) && (n <=? max_int64) then Some n else None
  | None => None
  end.

End Dec.

(** ** Instants and durations *)

Module Tm.

Definition microsecond : Z := 1000.
Definition millisecond : Z := 1000 * microsecond.
Definition second : Z := 1000 * millisecond.
Definition minute : Z := 60 * second.
Definition hour : Z := 60 * minute.
Definition day : Z := 24 * hour.

(** The zero [time.Time]: 1 January of the year 1, UTC. *)
Definition zero : Z := - 62135596800 * second.
Definition is_zero (t : Z) : bool := t =? zero.

(** [t.Sub(u)] saturates at the range of a [time.Duration]. *)
Definition sub (t u : Z) : Z := Z.max Dec.min_int64 (Z.min Dec.max_int64 (t - u)).

(** The saturation does not matter to a comparison with a duration. *)
Lemma sub_ltb t u d : Dec.min_int64 < d <= Dec.max_int64 -> (sub t u <? d) = (t - u <? d).
Proof.
  intros Hd. unfold sub. destruct (Z.ltb_spec (t - u) d), (Z.ltb_spec (Z.max Dec.min_int64 (Z.min Dec.max_int64 (t - u))) d); lia.
Qed.

Definition add (t d : Z) : Z := t + d.
Definition before (t u : Z) : bool := t <? u.
Definition after (t u : Z) : bool := u <? t.

End Tm.

(** [lia] with the durations and the saturating subtraction unfolded. *)
Ltac unfold_time :=
  unfold Tm.sub, Tm.add, Tm.before, Tm.after, Tm.is_zero, Tm.zero, Tm.day, Tm.hour,
    Tm.minute, Tm.second, Tm.millisecond, Tm.microsecond, Dec.min_int64, Dec.max_int64 in *.
Ltac time_lia := unfold_time; lia.

(** ** Maps

    [for k, v := range m] visits the entries of a Go map in an order the
    language leaves open.  A definition that ranges over a map takes the
    order from this interface; its theorems hold for every such order. *)
Class MapOrder := {
  range_order : forall A : Type, list A -> list A;
  range_order_perm : forall A (l : list A), Permutation (range_order A l) l
}.
Arguments range_order {_} {A} _.

(** The order in which the entries were written. *)
Definition written_order : MapOrder :=
  {| range_order := fun A l => l; range_order_perm := fun A l => Permutation_refl l |}.

Lemma Forall_range_order `{MapOrder} {A} (P : A -> Prop) (l : list A) :
  Forall P (range_order l) <-> Forall P l.
Proof.
  split; intros HF; (eapply Permutation_Forall; [|exact HF]).
  - apply range_order_perm.
  - apply Permutation_sym, range_order_perm.
Qed.

Lemma first_error_range `{MapOrder} {A} (f : A -> option error) (l : list A) :
  first_error f (range_order l) = None <-> Forall (fun x => f x = None) l.
Proof. by rewrite first_error_None, Forall_range_order. Qed.

(** ** Sums over the entries of a map *)

(** The sum of [f] over a list. *)
Fixpoint lsum {A} (f : A -> Z) (l : list A) : Z :=
  match l with [] => 0 | x :: l => f x + lsum f l end.

Definition msum {K V} `{Countable K} (f : V -> Z) (m : gmap K V) : Z :=
  lsum (fun e => f e.2) (map_to_list m).

Lemma lsum_Permutation {A} (f : A -> Z) l l' : Permutation l l' -> lsum f l = lsum f l'.
Proof. induction 1; cbn; lia. Qed.

Lemma lsum_app {A} (f : A -> Z) l l' : lsum f (l ++ l') = lsum f l + lsum f l'.
Proof. induction l; cbn; lia. Qed.

Lemma lsum_fold_left {A} (f : A -> Z) l acc :
  fold_left (fun acc x => acc + f x) l acc = acc + lsum f l.
Proof. revert acc. induction l as [|x l IH]; intros acc; cbn; [lia|]. rewrite IH. lia. Qed.

Section Sums.
Context {K : Type} `{Countable K}.

Lemma msum_empty {V} (f : V -> Z) : msum f (∅ : gmap K V) = 0.
Proof. unfold msum. by rewrite map_to_list_empty. Qed.

Lemma msum_insert {V} (f : V -> Z) (m : gmap K V) k v : m !! k = None -> msum f (<[k := v]> m) = f v + msum f m.
Proof.
  intros Hk. unfold msum. by rewrite (lsum_Permutation _ _ _ (map_to_list_insert _ _ _ Hk)).
Qed.

Lemma msum_delete {V} (f : V -> Z) (m : gmap K V) k v : m !! k = Some v -> msum f m = f v + msum f (delete k m).
Proof.
  intros Hk. rewrite <- (insert_delete_id m k v) at 1 by done.
  by rewrite msum_insert by apply lookup_delete_eq.
Qed.

Lemma msum_nonneg {V} (f : V -> Z) (m : gmap K V) : (forall k v, m !! k = Some v -> 0 <= f v) -> 0 <= msum f m.
Proof.
  induction m as [|k v m Hk IH] using map_ind; intros Hf; [by rewrite msum_empty|].
  rewrite msum_insert by done.
  assert (0 <= f v) by (by apply (Hf k); rewrite lookup_insert_eq).
  enough (0 <= msum f m) by lia. apply IH. intros k' v' Hk'. apply (Hf k').
  rewrite lookup_insert_ne; [done|]. intros <-. congruence.
Qed.

(** A map dominated entry by entry has the smaller sum. *)
Lemma msum_le {V W} (f : V -> Z) (g : W -> Z) (m : gmap K V) (m' : gmap K W) :
  (forall k v, m !! k = Some v -> exists w, m' !! k = Some w /\ f v <= g w) ->
  (forall k w, m' !! k = Some w -> 0 <= g w) ->
  msum f m <= msum g m'.
Proof.
  revert m'. induction m as [|k v m Hk IH] using map_ind; intros m' Hle Hg.
  - rewrite msum_empty. induction m' as [|k w m' Hk IH] using map_ind; [by rewrite msum_empty|].
    rewrite msum_insert by done.
    assert (0 <= g w) by (by apply (Hg k); rewrite lookup_insert_eq).
    enough (0 <= msum g m') by lia. apply IH; [by intros ? ? ?%lookup_empty_Some|].
    intros k' w' Hk'. apply (Hg k'). rewrite lookup_insert_ne; [done|]. intros <-. congruence.
  - rewrite msum_insert by done.
    destruct (Hle k v) as (w & Hw & Hfw); [by rewrite lookup_insert_eq|].
    rewrite (msum_delete g m' k w Hw).
    enough (msum f m <= msum g (delete k m')) by lia. apply IH.
    + intros k' v' Hk'. assert (k <> k') by (intros <-; congruence).
      rewrite lookup_delete_ne by done. apply Hle. by rewrite lookup_insert_ne.
    + intros k' w' Hk'. apply lookup_delete_Some in Hk' as [_ Hk']. by eapply Hg.
Qed.

(** Adding up in any iteration order gives the sum. *)
Lemma msum_range `{MapOrder} {V} (f : V -> Z) (m : gmap K V) :
  lsum (fun e => f e.2) (range_order (map_to_list m)) = msum f m.
Proof. apply lsum_Permutation, range_order_perm. Qed.

End Sums.

(** ** Booleans to propositions *)

Lemma Zgtb_true a b : (a >? b) = true <-> b < a.
Proof. rewrite Z.gtb_lt. lia. Qed.
Lemma Zgtb_false a b : (a >? b) = false <-> a <= b.
Proof. rewrite Z.gtb_ltb, Z.ltb_ge. lia. Qed.

(** Turn the boolean tests of the code into the facts they decide. *)
Ltac bprop :=
  repeat match goal with
  | H : _ && _ = true |- _ => apply andb_true_iff in H; destruct H
  | H : _ || _ = false |- _ => apply orb_false_iff in H; destruct H
  | H : _ || _ = true |- _ => apply orb_true_iff in H
  | H : _ && _ = false |- _ => apply andb_false_iff in H
  | H : negb _ = true |- _ => apply negb_true_iff in H
  | H : negb _ = false |- _ => apply negb_false_iff in H
  | H : String.eqb _ _ = false |- _ => apply String.eqb_neq in H
  | H : String.eqb _ _ = true |- _ => apply String.eqb_eq in H
  | H : (_ <? _) = true |- _ => apply Z.ltb_lt in H
  | H : (_ <? _) = false |- _ => apply Z.ltb_ge in H
  | H : (_ <=? _) = true |- _ => apply Z.leb_le in H
  | H : (_ <=? _) = false |- _ => apply Z.leb_gt in H
  | H : (_ >? _) = true |- _ => apply Zgtb_true in H
  | H : (_ >? _) = false |- _ => apply Zgtb_false in H
  | H : (_ =? _) = true |- _ => apply Z.eqb_eq in H
  | H : (_ =? _) = false |- _ => apply Z.eqb_neq in H
  | H : bool_decide _ = true |- _ => apply bool_decide_eq_true in H
  | H : bool_decide _ = false |- _ => apply bool_decide_eq_false in H
  end.

(** Split a validation that returned the nil error into its tests. *)
Ltac checks :=
  repeat match goal with
  | H : or_else _ _ = None |- _ => apply or_else_None in H; destruct H
  | H : fail_if _ _ = None |- _ => apply fail_if_None in H
  | H : first_error _ _ = None |- _ => apply first_error_None in H
  end.

Create HintDb go discriminated.
#[export] Hint Resolve or_else_None fail_if_None first_error_None : go.
#[export] Hint Rewrite or_else_None fail_if_None @first_error_None : go.
#[export] Hint Rewrite Z.ltb_lt Z.ltb_ge Z.leb_le Z.leb_gt Zgtb_true Zgtb_false
  Z.eqb_eq Z.eqb_neq andb_true_iff orb_false_iff negb_true_iff negb_false_iff
  String.eqb_eq String.eqb_neq : gobool.
