(* ===== verification/Regex.v ===== *)
(** * Regular expressions

    The sources compile a handful of patterns with package [regexp]
    ([regexp.MustCompile] in internal/domain/types.go,
    internal/domain/webpolicy.go, internal/reliability/probe.go and
    internal/agent/upgrade.go).  A pattern is written here as a term of [re]
    and run by Brzozowski derivatives; [accepts_spec] states that the matcher
    decides the language of the pattern.  All character classes of those
    patterns are ASCII, so bytes and runes give the same answers. *)

From S2P Require Import Prelude.

(** A character class is a list of inclusive ranges. *)
Abbreviation class := (list (ascii * ascii)).

Definition in_range (c : ascii) (r : ascii * ascii) : bool :=
  let n := nat_of_ascii c in
  (nat_of_ascii r.1 <=? n)%nat && (n <=? nat_of_ascii r.2)%nat.

Definition in_class (c : ascii) (k : class) : bool := existsb (in_range c) k.

Inductive re : Type :=
| Nothing
| Eps
| Cls (k : class)
| Seq (a b : re)
| Alt (a b : re)
| Star (a : re).

#[export] Instance re_eq_dec : EqDecision re.
Proof. solve_decision. Defined.

(** The language of a pattern. *)
Inductive lang : re -> list ascii -> Prop :=
| lang_eps : lang Eps []
| lang_cls k c : in_class c k = true -> lang (Cls k) [c]
| lang_seq a b u v : lang a u -> lang b v -> lang (Seq a b) (u ++ v)
| lang_alt_l a b u : lang a u -> lang (Alt a b) u
| lang_alt_r a b u : lang b u -> lang (Alt a b) u
| lang_star_nil a : lang (Star a) []
| lang_star_app a u v : lang a u -> lang (Star a) v -> lang (Star a) (u ++ v).

#[export] Hint Constructors lang : go.

(** Derived forms: r?, r+, r{n}, r{0,n}. *)
Definition opt (r : re) : re := Alt Eps r.
Definition plus (r : re) : re := Seq r (Star r).

Fixpoint exactly (n : nat) (r : re) : re :=
  match n with O => Eps | S n => Seq r (exactly n r) end.

Fixpoint upto (n : nat) (r : re) : re :=
  match n with O => Eps | S n => opt (Seq r (upto n r)) end.

(** Constructors that simplify, so that derivatives stay small. *)
Definition seq' (a b : re) : re :=
  match a, b with
  | Nothing, _ => Nothing
  | _, Nothing => Nothing
  | Eps, _ => b
  | _, Eps => a
  | _, _ => Seq a b
  end.

Definition alt' (a b : re) : re :=
  match a, b with
  | Nothing, _ => b
  | _, Nothing => a
  | _, _ => if decide (a = b) then a else Alt a b
  end.

Fixpoint nullable (r : re) : bool :=
  match r with
  | Nothing | Cls _ => false
  | Eps | Star _ => true
  | Seq a b => nullable a && nullable b
  | Alt a b => nullable a || nullable b
  end.

Fixpoint deriv (c : ascii) (r : re) : re :=
  match r with
  | Nothing | Eps => Nothing
  | Cls k => if in_class c k then Eps else Nothing
  | Seq a b =>
      if nullable a then alt' (seq' (deriv c a) b) (deriv c b) else seq' (deriv c a) b
  | Alt a b => alt' (deriv c a) (deriv c b)
  | Star a => seq' (deriv c a) (Star a)
  end.

(** [re.MatchString] for a pattern anchored at both ends. *)
Fixpoint accepts (r : re) (s : string) : bool :=
  match s with
  | EmptyString => nullable r
  | String c s => accepts (deriv c r) s
  end.

(** The longest prefix of [s] in the language of [r]; [n] bytes are already
    consumed and [best] is the best length so far. *)
Fixpoint longest (r : re) (s : string) (n : nat) (best : option nat) : option nat :=
  let best := if nullable r then Some n else best in
  match s with
  | EmptyString => best
  | String c s => match deriv c r with Nothing => best | r' => longest r' s (S n) best end
  end.

(** [re.FindString]: the leftmost match, the longest one from there. *)
Fixpoint find_string (r : re) (s : string) : string :=
  match longest r s 0 None with
  | Some n => Str.take n s
  | None => match s with EmptyString => EmptyString | String _ s => find_string r s end
  end.

(** ** The matcher decides the language *)

Lemma lang_Nothing u : ~ lang Nothing u.
Proof. intros H; inversion H. Qed.

Lemma lang_Eps_inv u : lang Eps u <-> u = [].
Proof. split; [by inversion 1|intros ->; constructor]. Qed.

Lemma lang_Cls_inv k u : lang (Cls k) u <-> exists c, u = [c] /\ in_class c k = true.
Proof. split; [inversion 1; eauto|intros (c & -> & H); by constructor]. Qed.

Lemma lang_Seq_inv a b u : lang (Seq a b) u <-> exists v w, u = v ++ w /\ lang a v /\ lang b w.
Proof. split; [inversion 1; subst; eauto|intros (v & w & -> & Ha & Hb); by constructor]. Qed.

Lemma lang_Alt_inv a b u : lang (Alt a b) u <-> lang a u \/ lang b u.
Proof. split; [inversion 1; auto|intros [H|H]; eauto with go]. Qed.

Lemma lang_seq' a b u : lang (seq' a b) u <-> lang (Seq a b) u.
Proof.
  assert (Hn1 : forall x u, lang (Seq Nothing x) u <-> lang Nothing u).
  { intros x w. rewrite lang_Seq_inv. split; [intros (?&?&_&H&_)|intros H]; by apply lang_Nothing in H. }
  assert (Hn2 : forall x u, lang (Seq x Nothing) u <-> lang Nothing u).
  { intros x w. rewrite lang_Seq_inv. split; [intros (?&?&_&_&H)|intros H]; by apply lang_Nothing in H. }
  assert (He1 : forall x u, lang (Seq Eps x) u <-> lang x u).
  { intros x w. rewrite lang_Seq_inv. split.
    - by intros (v & t & -> & ->%lang_Eps_inv & H).
    - intros H. exists [], w. eauto with go. }
  assert (He2 : forall x u, lang (Seq x Eps) u <-> lang x u).
  { intros x w. rewrite lang_Seq_inv. split.
    - intros (v & t & -> & H & ->%lang_Eps_inv). by rewrite app_nil_r.
    - intros H. exists w, []. rewrite app_nil_r. eauto with go. }
  destruct a, b; cbn [seq']; rewrite ?Hn1, ?Hn2, ?He1, ?He2; done.
Qed.

Lemma lang_alt' a b u : lang (alt' a b) u <-> lang (Alt a b) u.
Proof.
  assert (Hl : forall x, lang (Alt Nothing x) u <-> lang x u).
  { intros x. rewrite lang_Alt_inv. pose proof (lang_Nothing u). tauto. }
  assert (Hr : forall x, lang (Alt x Nothing) u <-> lang x u).
  { intros x. rewrite lang_Alt_inv. pose proof (lang_Nothing u). tauto. }
  assert (Hd : forall x y, lang (if decide (x = y) then x else Alt x y) u <-> lang (Alt x y) u).
  { intros x y. case_decide as H; [|done]. subst. rewrite lang_Alt_inv. tauto. }
  destruct a, b; cbn [alt']; rewrite ?Hl, ?Hr; first [done|apply Hd].
Qed.

Lemma nullable_spec r : nullable r = true <-> lang r [].
Proof.
  induction r; cbn.
  - split; [done|intros H; by apply lang_Nothing in H].
  - split; [constructor|done].
  - split; [done|]. rewrite lang_Cls_inv. by intros (c & [=] & _).
  - rewrite andb_true_iff, IHr1, IHr2, lang_Seq_inv. split.
    + intros [Ha Hb]. by exists [], [].
    + intros (v & w & E & Ha & Hb). symmetry in E. apply app_eq_nil in E as [-> ->]. done.
  - rewrite orb_true_iff, IHr1, IHr2, lang_Alt_inv. done.
  - split; [constructor|done].
Qed.

(** A non-empty word of [r*] starts with a non-empty word of [r]. *)
Lemma lang_Star_cons a c u :
  lang (Star a) (c :: u) ->
  exists v w, u = v ++ w /\ lang a (c :: v) /\ lang (Star a) w.
Proof.
  remember (Star a) as r eqn:Er. remember (c :: u) as s eqn:Es. intros H.
  revert c u Er Es. induction H as [| | | | | |b v w Hb _ Hw IH]; intros c' u' Er Es; try done.
  injection Er as ->. destruct v as [|d v]; cbn in Es.
  - by eapply IH.
  - injection Es as -> <-. by exists v, w.
Qed.

Lemma deriv_spec c r u : lang (deriv c r) u <-> lang r (c :: u).
Proof.
  revert u. induction r as [| |k|a IHa b IHb|a IHa b IHb|a IHa]; intros u; cbn [deriv].
  - split; intros H; by apply lang_Nothing in H.
  - split; intros H; [by apply lang_Nothing in H|by apply lang_Eps_inv in H].
  - rewrite lang_Cls_inv. destruct (in_class c k) eqn:E.
    + rewrite lang_Eps_inv. split; [intros ->; eauto|by intros (d & [= <- ->] & _)].
    + split; [intros H; by apply lang_Nothing in H|]. intros (d & [= <- ->] & H). congruence.
  - assert (Hs : lang (seq' (deriv c a) b) u <->
                 exists v w, u = v ++ w /\ lang a (c :: v) /\ lang b w).
    { rewrite lang_seq', lang_Seq_inv. by setoid_rewrite IHa. }
    assert (Hc : lang (Seq a b) (c :: u) <->
                 (exists v w, u = v ++ w /\ lang a (c :: v) /\ lang b w) \/
                 (lang a [] /\ lang b (c :: u))).
    { rewrite lang_Seq_inv. split.
      - intros (v & w & E & Ha & Hb). destruct v as [|d v]; cbn in E.
        + right. by subst.
        + injection E as <- ->. left. by exists v, w.
      - intros [(v & w & -> & Ha & Hb)|[Ha Hb]]; [by exists (c :: v), w|by exists [], (c :: u)]. }
    rewrite Hc. destruct (nullable a) eqn:E.
    + rewrite lang_alt', lang_Alt_inv, Hs, IHb. apply nullable_spec in E. tauto.
    + rewrite Hs. split; [auto|intros [H|[H _]]; [done|]]. apply nullable_spec in H. congruence.
  - by rewrite lang_alt', !lang_Alt_inv, IHa, IHb.
  - rewrite lang_seq', lang_Seq_inv. split.
    + intros (v & w & -> & Hv & Hw). apply IHa in Hv. by apply (lang_star_app a (c :: v) w).
    + intros (v & w & -> & Hv & Hw)%lang_Star_cons. exists v, w. by rewrite IHa.
Qed.

Lemma accepts_spec r s : accepts r s = true <-> lang r (Str.bytes s).
Proof.
  revert r. induction s as [|c s IH]; intros r; cbn.
  - apply nullable_spec.
  - by rewrite IH, deriv_spec.
Qed.

(** ** Closed forms of the shapes the sources use *)

Lemma lang_Star_Cls k u : lang (Star (Cls k)) u <-> Forall (fun c => in_class c k = true) u.
Proof.
  split.
  - induction u as [|c u IH]; [constructor|].
    intros (v & w & -> & (d & E & Hc)%lang_Cls_inv & Hw)%lang_Star_cons.
    injection E as <- ->. constructor; auto.
  - induction 1 as [|c u Hc _ IH]; [constructor|].
    apply (lang_star_app (Cls k) [c] u); [by constructor|done].
Qed.

Lemma lang_exactly_Cls n k u :
  lang (exactly n (Cls k)) u <-> length u = n /\ Forall (fun c => in_class c k = true) u.
Proof.
  revert u. induction n as [|n IH]; intros u; cbn.
  - rewrite lang_Eps_inv, length_zero_iff_nil. split; [intros ->; auto|tauto].
  - rewrite lang_Seq_inv. split.
    + intros (v & w & -> & (c & -> & Hc)%lang_Cls_inv & [<- Hw]%IH).
      split; [done|by constructor].
    + destruct u as [|c u]; intros [Hlen H]; [done|]. injection Hlen as Hlen. apply Forall_cons_iff in H as [Hc Hu].
      exists [c], u. split_and!; [done|by constructor|by apply IH].
Qed.

Lemma lang_upto_Cls n k u :
  lang (upto n (Cls k)) u <-> (length u <= n)%nat /\ Forall (fun c => in_class c k = true) u.
Proof.
  revert u. induction n as [|n IH]; intros u; cbn.
  - rewrite lang_Eps_inv. split; [intros ->; auto|]. destruct u; cbn; [done|lia].
  - unfold opt. rewrite lang_Alt_inv, lang_Eps_inv, lang_Seq_inv. split.
    + intros [->|(v & w & -> & (c & -> & Hc)%lang_Cls_inv & [Hl Hw]%IH)]; cbn; (split; [lia|by repeat constructor]).
    + destruct u as [|c u]; intros [Hl H]; [by left|right].
      apply Forall_cons_iff in H as [Hc Hu]. exists [c], u.
      split_and!; [done|by constructor|apply IH; cbn in Hl; split; [lia|done]].
Qed.

Lemma lang_plus_Cls k u :
  lang (plus (Cls k)) u <-> u <> [] /\ Forall (fun c => in_class c k = true) u.
Proof.
  unfold plus. rewrite lang_Seq_inv. split.
  - intros (v & w & -> & (c & -> & Hc)%lang_Cls_inv & Hw%lang_Star_Cls).
    split; [done|by constructor].
  - destruct u as [|c u]; [tauto|]. intros [_ H]. apply Forall_cons_iff in H as [Hc Hu].
    exists [c], u. split_and!; [done|by constructor|by apply lang_Star_Cls].
Qed.

(** ** The bytes of a language *)

Fixpoint classes (r : re) : list class :=
  match r with
  | Nothing | Eps => []
  | Cls k => [k]
  | Seq a b | Alt a b => classes a ++ classes b
  | Star a => classes a
  end.

(** Every byte of a word is in one of the pattern's classes. *)
Lemma lang_bytes r u : lang r u -> Forall (fun c => existsb (in_class c) (classes r) = true) u.
Proof.
  assert (forall l k c, existsb (in_class c) l = true \/ existsb (in_class c) k = true -> existsb (in_class c) (l ++ k) = true) as Hor.
  { intros l k c H. rewrite existsb_app. by apply orb_true_iff. }
  induction 1; cbn; try constructor.
  - rewrite H. done.
  - constructor.
  - apply Forall_app. split; (eapply Forall_impl; [eassumption|]); cbn; auto.
  - eapply Forall_impl; [eassumption|]. cbn. auto.
  - eapply Forall_impl; [eassumption|]. cbn. auto.
  - by apply Forall_app.
Qed.

#[export] Hint Rewrite lang_Eps_inv lang_Cls_inv lang_Seq_inv lang_Alt_inv lang_Star_Cls
  lang_exactly_Cls lang_upto_Cls lang_plus_Cls : regex.
