(* ===== verification/Crypto.v ===== *)
(** * Hashes, base64, signed values and passwords

    internal/crypto: signer.go, token.go and password.go over the packages of
    the standard library they use, crypto/sha256, crypto/hmac, encoding/hex and
    encoding/base64, which are written out. *)

From S2P Require Import Prelude.

(** ** SHA-256 and hexadecimal text

    The functions of packages [crypto/sha256] and [encoding/hex] the update
    code calls, on byte strings; 32-bit words are [Z] modulo 2^32. *)

Module Hex.

Definition encode_byte (c : ascii) : string :=
  let n := nat_of_ascii c in
  String (Str.hex_digit (n / 16)) (String (Str.hex_digit (n mod 16)) EmptyString).

(** [hex.EncodeToString] *)
Fixpoint encode (s : string) : string :=
  match s with
  | EmptyString => EmptyString
  | String c s => encode_byte c +:+ encode s
  end.

Definition digit_value (c : ascii) : option nat :=
  let n := nat_of_ascii c in
  if ((48 <=? n) && (n <=? 57))%nat then Some (n - 48)%nat
  else if ((97 <=? n) && (n <=? 102))%nat then Some (n - 87)%nat
  else if ((65 <=? n) && (n <=? 70))%nat then Some (n - 55)%nat
  else None.

(** [hex.DecodeString]; [None] for an odd length or a byte that is no digit. *)
Fixpoint decode (s : string) : option string :=
  match s with
  | EmptyString => Some EmptyString
  | String _ EmptyString => None
  | String a (String b s) =>
      match digit_value a, digit_value b, decode s with
      | Some x, Some y, Some t => Some (String (ascii_of_nat (16 * x + y)) t)
      | _, _, _ => None
      end
  end.

Lemma digit_value_hex n : (n < 16)%nat -> digit_value (Str.hex_digit n) = Some n.
Proof. intros Hn. do 16 (destruct n as [|n]; [done|]). lia. Qed.

Lemma encode_cons c s : encode (String c s) =
  String (Str.hex_digit (nat_of_ascii c / 16)) (String (Str.hex_digit (nat_of_ascii c mod 16)) (encode s)).
Proof. done. Qed.

Lemma decode_encode s : decode (encode s) = Some s.
Proof.
  induction s as [|c s IH]; [done|]. rewrite encode_cons. cbn [decode].
  assert (Hc : (nat_of_ascii c < 256)%nat) by apply nat_ascii_bounded.
  pose proof (Nat.div_mod_eq (nat_of_ascii c) 16) as E.
  assert ((nat_of_ascii c / 16 < 16)%nat) by (apply Nat.Div0.div_lt_upper_bound; lia).
  assert ((nat_of_ascii c mod 16 < 16)%nat) by (apply Nat.mod_upper_bound; lia).
  rewrite !digit_value_hex, IH by done. by rewrite <- E, ascii_nat_embedding.
Qed.

Lemma length_encode s : String.length (encode s) = (2 * String.length s)%nat.
Proof. induction s as [|c s IH]; [done|]. rewrite encode_cons. cbn [String.length]. lia. Qed.

End Hex.

Module Sha.

Definition w32 (x : Z) : Z := Z.land x 4294967295.

Definition rotr (x n : Z) : Z := w32 (Z.lor (Z.shiftr x n) (Z.shiftl x (32 - n))).

(** The first [n] primes from [m] on, found within [fuel] numbers. *)
Fixpoint primes (fuel n : nat) (m : Z) (found : list Z) : list Z :=
  match fuel, n with
  | S fuel, S n' =>
      if forallb (fun p => negb (m mod p =? 0)) found then primes fuel n' (m + 1) (found ++ [m])
      else primes fuel n (m + 1) found
  | _, _ => found
  end.

(** The integer cube root, one bit at a time from bit [b] down. *)
Fixpoint cube_root (b : nat) (x r : Z) : Z :=
  match b with
  | O => r
  | S b => let s := r + 2 ^ Z.of_nat b in cube_root b x (if s * s * s <=? x then s else r)
  end.

(** The constants: 32 bits of the fractions of the cube roots of the first 64
    primes and of the square roots of the first eight. *)
Definition K : list Z :=
  Eval vm_compute in map (fun p => w32 (cube_root 36 (p * 2 ^ 96) 0)) (primes 400 64 2 []).
Definition H0 : list Z :=
  Eval vm_compute in map (fun p => w32 (Z.sqrt (p * 2 ^ 64))) (primes 400 8 2 []).

(** The [n] big-endian bytes of [x]. *)
Fixpoint be_bytes (n : nat) (x : Z) : list Z :=
  match n with
  | O => []
  | S n => be_bytes n (Z.shiftr x 8) ++ [Z.land x 255]
  end.

(** The message, a one bit, zeros up to 56 modulo 64, and its length in bits. *)
Definition pad (l : list Z) : list Z :=
  let n := Z.of_nat (length l) in
  l ++ [128] ++ repeat 0 (Z.to_nat ((55 - n) mod 64)) ++ be_bytes 8 (8 * n).

Fixpoint words (fuel : nat) (l : list Z) : list Z :=
  match fuel, l with
  | S fuel, a :: b :: c :: d :: l =>
      Z.lor (Z.shiftl a 24) (Z.lor (Z.shiftl b 16) (Z.lor (Z.shiftl c 8) d)) :: words fuel l
  | _, _ => []
  end.

(** The schedule, the latest word first. *)
Fixpoint schedule (n : nat) (w : list Z) : list Z :=
  match n with
  | O => w
  | S n =>
      let at_ i := nth i w 0 in
      let s0 := Z.lxor (rotr (at_ 14%nat) 7) (Z.lxor (rotr (at_ 14%nat) 18) (Z.shiftr (at_ 14%nat) 3)) in
      let s1 := Z.lxor (rotr (at_ 1%nat) 17) (Z.lxor (rotr (at_ 1%nat) 19) (Z.shiftr (at_ 1%nat) 10)) in
      schedule n (w32 (at_ 15%nat + s0 + at_ 6%nat + s1) :: w)
  end.

Fixpoint rounds (kw : list (Z * Z)) (a b c d e f g h : Z) : list Z :=
  match kw with
  | [] => [a; b; c; d; e; f; g; h]
  | (k, w) :: kw =>
      let s1 := Z.lxor (rotr e 6) (Z.lxor (rotr e 11) (rotr e 25)) in
      let ch := Z.lxor (Z.land e f) (Z.land (Z.lxor e 4294967295) g) in
      let t1 := h + s1 + ch + k + w in
      let s0 := Z.lxor (rotr a 2) (Z.lxor (rotr a 13) (rotr a 22)) in
      let maj := Z.lxor (Z.land a b) (Z.lxor (Z.land a c) (Z.land b c)) in
      rounds kw (w32 (t1 + s0 + maj)) a b c (w32 (d + t1)) e f g
  end.

Definition block (hs w : list Z) : list Z :=
  match hs with
  | [a; b; c; d; e; f; g; h] =>
      zip_with (fun x y => w32 (x + y)) hs
        (rounds (combine K (rev (schedule 48 (rev w)))) a b c d e f g h)
  | _ => hs
  end.

Fixpoint blocks (fuel : nat) (hs ws : list Z) : list Z :=
  match fuel with
  | O => hs
  | S fuel => match ws with [] => hs | _ => blocks fuel (block hs (firstn 16 ws)) (skipn 16 ws) end
  end.

(** [sha256.Sum256]: one block per 64 bytes of the padded message. *)
Definition Sum256 (s : string) : string :=
  let bytes := pad (map (fun c => Z.of_nat (nat_of_ascii c)) (Str.bytes s)) in
  let hs := blocks (length bytes) H0 (words (length bytes) bytes) in
  fold_right String EmptyString
    (map (fun x => ascii_of_nat (Z.to_nat x)) (hs ≫= be_bytes 4)).

(** [hex.EncodeToString(sha256.Sum256(s))] *)
Definition hex (s : string) : string := Hex.encode (Sum256 s).

(** The test vector of FIPS 180-4. *)
Example hex_abc : hex "abc" = "ba7816bf8f01cfea414140de5dae2223b00361a396177a9cb410ff61f20015ad"%string.
Proof. by vm_compute. Qed.

End Sha.

(** ** Base64 text

    The two encodings without padding the panel uses, [base64.RawURLEncoding]
    and [base64.RawStdEncoding] of package [encoding/base64], on byte strings:
    three bytes make four digits, and one or two bytes left over make two or
    three.  Decoding passes over line ends; [Strict] refuses digits whose
    unused bits are not zero. *)

Definition byte_of (c : ascii) : Z := Z.of_nat (nat_of_ascii c).
Definition of_byte (n : Z) : ascii := ascii_of_nat (Z.to_nat n).

Lemma byte_bounds c : 0 <= byte_of c < 256.
Proof. unfold byte_of. pose proof (nat_ascii_bounded c). lia. Qed.

(** Arithmetic on bytes. *)
Ltac byte_range := repeat match goal with |- context [byte_of ?c] => lazymatch goal with H : 0 <= byte_of c < 256 |- _ => fail | _ => pose proof (byte_bounds c) end end;
  Z.to_euclidean_division_equations; lia.

Lemma of_byte_of c : of_byte (byte_of c) = c.
Proof. unfold of_byte, byte_of. by rewrite Nat2Z.id, ascii_nat_embedding. Qed.

(** The digits after the letters and the numerals: 62 and 63. *)
Record alphabet := { digit62 : ascii; digit63 : ascii }.
Definition url_alphabet : alphabet := {| digit62 := "-"; digit63 := "_" |}.
Definition std_alphabet : alphabet := {| digit62 := "+"; digit63 := "/" |}.

Definition sound_alphabet (a : alphabet) : Prop :=
  digit62 a <> digit63 a /\
  Forall (fun c => Dec.is_digit c = false /\ (nat_of_ascii c < 65)%nat \/ c = "_"%char) [digit62 a; digit63 a] /\
  Forall (fun c => (32 <= nat_of_ascii c)%nat) [digit62 a; digit63 a].

Section Alphabet.
Context (a : alphabet).

Definition digit (v : Z) : ascii :=
  if v <? 26 then of_byte (65 + v) else if v <? 52 then of_byte (71 + v) else if v <? 62 then of_byte (v - 4)
  else if v =? 62 then digit62 a else digit63 a.

Definition digit_value (c : ascii) : option Z :=
  let n := byte_of c in
  if (65 <=? n) && (n <=? 90) then Some (n - 65)
  else if (97 <=? n) && (n <=? 122) then Some (n - 71)
  else if (48 <=? n) && (n <=? 57) then Some (n + 4)
  else if Ascii.eqb c (digit62 a) then Some 62
  else if Ascii.eqb c (digit63 a) then Some 63
  else None.

(** [EncodeToString] *)
Fixpoint encode (s : string) : string :=
  match s with
  | EmptyString => EmptyString
  | String x EmptyString =>
      let x := byte_of x in String (digit (x / 4)) (String (digit (x mod 4 * 16)) EmptyString)
  | String x (String y EmptyString) =>
      let x := byte_of x in let y := byte_of y in
      String (digit (x / 4)) (String (digit (x mod 4 * 16 + y / 16)) (String (digit (y mod 16 * 4)) EmptyString))
  | String x (String y (String z s)) =>
      let x := byte_of x in let y := byte_of y in let z := byte_of z in
      String (digit (x / 4)) (String (digit (x mod 4 * 16 + y / 16))
        (String (digit (y mod 16 * 4 + z / 64)) (String (digit (z mod 64)) (encode s))))
  end.

Fixpoint without_line_ends (s : string) : string :=
  match s with
  | EmptyString => EmptyString
  | String c s => if (byte_of c =? 10) || (byte_of c =? 13) then without_line_ends s else String c (without_line_ends s)
  end.

(** The bytes of digits already read from [s]. *)
Fixpoint quanta (strict : bool) (s : string) : option string :=
  match s with
  | EmptyString => Some EmptyString
  | String p (String q EmptyString) =>
      match digit_value p, digit_value q with
      | Some p, Some q => if strict && negb (q mod 16 =? 0) then None else Some (String (of_byte (p * 4 + q / 16)) EmptyString)
      | _, _ => None
      end
  | String p (String q (String r EmptyString)) =>
      match digit_value p, digit_value q, digit_value r with
      | Some p, Some q, Some r =>
          if strict && negb (r mod 4 =? 0) then None
          else Some (String (of_byte (p * 4 + q / 16)) (String (of_byte (q mod 16 * 16 + r / 4)) EmptyString))
      | _, _, _ => None
      end
  | String p (String q (String r (String t s))) =>
      match digit_value p, digit_value q, digit_value r, digit_value t, quanta strict s with
      | Some p, Some q, Some r, Some t, Some s =>
          Some (String (of_byte (p * 4 + q / 16)) (String (of_byte (q mod 16 * 16 + r / 4)) (String (of_byte (r mod 4 * 64 + t)) s)))
      | _, _, _, _, _ => None
      end
  | String _ EmptyString => None
  end.

(** [DecodeString] *)
Definition decode (strict : bool) (s : string) : option string := quanta strict (without_line_ends s).

(** ** Encoding and back *)

Context (Ha : sound_alphabet a).

Lemma digit_back v : 0 <= v < 64 -> digit_value (digit v) = Some v.
Proof.
  intros Hv. destruct Ha as (Hne & Hd & _). rewrite !Forall_cons in Hd. destruct Hd as (H62 & H63 & _).
  assert (Hs : forall c, Dec.is_digit c = false /\ (nat_of_ascii c < 65)%nat \/ c = "_"%char ->
    (65 <=? byte_of c) && (byte_of c <=? 90) = false /\ (97 <=? byte_of c) && (byte_of c <=? 122) = false /\
    (48 <=? byte_of c) && (byte_of c <=? 57) = false).
  { intros c [[Hn Hl]| ->]; [|by vm_compute]. unfold Dec.is_digit, byte_of in *. destruct (Nat.leb_spec 48 (nat_of_ascii c)), (Nat.leb_spec (nat_of_ascii c) 57); cbn in Hn; split_and!; lia. }
  assert (Hb : forall n, 0 <= n < 256 -> byte_of (of_byte n) = n).
  { intros n Hn. unfold byte_of, of_byte. rewrite nat_ascii_embedding; lia. }
  unfold digit, digit_value. destruct (Z.ltb_spec v 26); [|destruct (Z.ltb_spec v 52); [|destruct (Z.ltb_spec v 62)]].
  - rewrite Hb by lia. destruct (Z.leb_spec 65 (65 + v)), (Z.leb_spec (65 + v) 90); cbn; try lia. f_equal. lia.
  - rewrite Hb by lia. destruct (Z.leb_spec 65 (71 + v)), (Z.leb_spec (71 + v) 90), (Z.leb_spec 97 (71 + v)), (Z.leb_spec (71 + v) 122); cbn; try lia. f_equal. lia.
  - rewrite Hb by lia. destruct (Z.leb_spec 65 (v - 4)), (Z.leb_spec 97 (v - 4)), (Z.leb_spec 48 (v - 4)), (Z.leb_spec (v - 4) 57); cbn; try lia. f_equal. lia.
  - destruct (Z.eqb_spec v 62) as [->|Hn].
    + destruct (Hs _ H62) as (-> & -> & ->). by rewrite Ascii.eqb_refl.
    + destruct (Hs _ H63) as (-> & -> & ->). rewrite (proj2 (Ascii.eqb_neq _ _)) by congruence. rewrite Ascii.eqb_refl. f_equal. lia.
Qed.

Lemma digit_visible v : 0 <= v < 64 -> 32 <= byte_of (digit v).
Proof.
  intros Hv. destruct Ha as (_ & _ & Hd). rewrite !Forall_cons in Hd. destruct Hd as (H62 & H63 & _).
  assert (Hb : forall n, 0 <= n < 256 -> byte_of (of_byte n) = n).
  { intros n Hn. unfold byte_of, of_byte. rewrite nat_ascii_embedding; lia. }
  unfold digit. destruct (Z.ltb_spec v 26); [rewrite Hb; lia|destruct (Z.ltb_spec v 52); [rewrite Hb; lia|destruct (Z.ltb_spec v 62); [rewrite Hb; lia|]]].
  unfold byte_of. destruct (v =? 62); lia.
Qed.

(** By three bytes at a time. *)
Lemma string_ind3 (P : string -> Prop) :
  P EmptyString -> (forall x, P (String x EmptyString)) -> (forall x y, P (String x (String y EmptyString))) ->
  (forall x y z s, P s -> P (String x (String y (String z s)))) -> forall s, P s.
Proof. intros H0 H1 H2 H3. fix IH 1. intros [|x [|y [|z s]]]; [apply H0|apply H1|apply H2|apply H3, IH]. Qed.

Lemma encode_lines s : without_line_ends (encode s) = encode s.
Proof.
  assert (Hd : forall v s, 0 <= v < 64 -> without_line_ends (String (digit v) s) = String (digit v) (without_line_ends s)).
  { intros v s' Hv. cbn [without_line_ends]. pose proof (digit_visible v Hv). destruct (Z.eqb_spec (byte_of (digit v)) 10), (Z.eqb_spec (byte_of (digit v)) 13); cbn; done || lia. }
  induction s as [|x|x y|x y z s IH] using string_ind3; cbn [encode]; rewrite ?Hd by byte_range; [done..|by rewrite IH].
Qed.

Lemma quanta_encode strict s : quanta strict (encode s) = Some s.
Proof.
  induction s as [|x|x y|x y z s IH] using string_ind3; cbn [encode quanta]; rewrite ?digit_back by byte_range.
  - done.
  - assert (E1 : byte_of x mod 4 * 16 mod 16 = 0) by byte_range. assert (E2 : byte_of x / 4 * 4 + byte_of x mod 4 * 16 / 16 = byte_of x) by byte_range.
    by rewrite E1, E2, of_byte_of, Z.eqb_refl, andb_false_r.
  - assert (E1 : byte_of y mod 16 * 4 mod 4 = 0) by byte_range.
    assert (E2 : byte_of x / 4 * 4 + (byte_of x mod 4 * 16 + byte_of y / 16) / 16 = byte_of x) by byte_range.
    assert (E3 : (byte_of x mod 4 * 16 + byte_of y / 16) mod 16 * 16 + byte_of y mod 16 * 4 / 4 = byte_of y) by byte_range.
    by rewrite E1, E2, E3, !of_byte_of, Z.eqb_refl, andb_false_r.
  - assert (E2 : byte_of x / 4 * 4 + (byte_of x mod 4 * 16 + byte_of y / 16) / 16 = byte_of x) by byte_range.
    assert (E3 : (byte_of x mod 4 * 16 + byte_of y / 16) mod 16 * 16 + (byte_of y mod 16 * 4 + byte_of z / 64) / 4 = byte_of y) by byte_range.
    assert (E4 : (byte_of y mod 16 * 4 + byte_of z / 64) mod 4 * 64 + byte_of z mod 64 = byte_of z) by byte_range.
    by rewrite IH, E2, E3, E4, !of_byte_of.
Qed.

Lemma base64_back strict s : decode strict (encode s) = Some s.
Proof. unfold decode. by rewrite encode_lines, quanta_encode. Qed.

End Alphabet.

(** No byte of an encoding is one the alphabet does not have. *)
Lemma encode_free a c s : (forall v, 0 <= v < 64 -> digit a v <> c) -> Str.index_byte (encode a s) c = None.
Proof.
  intros Hc. assert (Hd : forall v s, 0 <= v < 64 -> Str.index_byte s c = None -> Str.index_byte (String (digit a v) s) c = None).
  { intros v s' Hv E. cbn. by rewrite (proj2 (Ascii.eqb_neq _ _) (Hc v Hv)), E. }
  induction s as [|x|x y|x y z s IH] using string_ind3; cbn [encode]; [done|..].
  all: repeat first [done | apply Hd; [byte_range|]].
Qed.

Lemma url_no_dot v : 0 <= v < 64 -> digit url_alphabet v <> "."%char.
Proof.
  intros Hv E. assert (H : forallb (fun v => negb (Ascii.eqb (digit url_alphabet v) ".")) (seqZ 0 64) = true) by by vm_compute.
  rewrite forallb_forall in H. assert (Hin : v ∈ seqZ 0 64) by (apply elem_of_seqZ; lia). apply list_elem_of_In in Hin. apply H in Hin. by rewrite E in Hin.
Qed.

Lemma url_sound : sound_alphabet url_alphabet.
Proof. split_and!; [done|repeat constructor; by vm_compute; auto with arith|]; repeat constructor; vm_compute; lia. Qed.

Lemma std_sound : sound_alphabet std_alphabet.
Proof. split_and!; [done|repeat constructor; by vm_compute; auto with arith|]; repeat constructor; vm_compute; lia. Qed.

Module RawURL.
Definition EncodeToString : string -> string := encode url_alphabet.
Definition DecodeString : string -> option string := decode url_alphabet false.
Definition DecodeStrict : string -> option string := decode url_alphabet true.
End RawURL.

Module RawStd.
Definition EncodeToString : string -> string := encode std_alphabet.
Definition DecodeString : string -> option string := decode std_alphabet false.
End RawStd.

(** ** Signed values and random tokens

    internal/crypto/signer.go and token.go: a value followed by its HMAC, which
    the panel puts into cookies and sign-in challenges and takes back, and the
    hash under which tokens are stored.  HMAC is package [crypto/hmac] over
    SHA-256. *)

(** [hmac.New(sha256.New, key)] on one message. *)
Module Hmac.

Definition block_size : nat := 64.

Definition xor_byte (k : Z) (c : ascii) : ascii := of_byte (Z.lxor k (byte_of c)).

Fixpoint map_bytes (f : ascii -> ascii) (s : string) : string :=
  match s with EmptyString => EmptyString | String c s => String (f c) (map_bytes f s) end.

Fixpoint zeros (n : nat) : string := match n with O => EmptyString | S n => String Ascii.zero (zeros n) end.

Definition padded_key (key : string) : string :=
  let key := if (block_size <? String.length key)%nat then Sha.Sum256 key else key in
  key +:+ zeros (block_size - String.length key).

Definition sum (key msg : string) : string :=
  let k := padded_key key in
  Sha.Sum256 (map_bytes (xor_byte 92) k +:+ Sha.Sum256 (map_bytes (xor_byte 54) k +:+ msg)).

(** A test vector of RFC 4231. *)
Example sum_jefe : Hex.encode (sum "Jefe" "what do ya want for nothing?") =
  "5bdcc146bf60754e6a042426089575c75a003f089d2739839dec58b964ec3843"%string.
Proof. by vm_compute. Qed.

End Hmac.

(** [strings.LastIndexByte] *)
Fixpoint last_index_byte (s : string) (b : ascii) : option nat :=
  match s with
  | EmptyString => None
  | String c s =>
      match last_index_byte s b with
      | Some i => Some (S i)
      | None => if Ascii.eqb c b then Some O else None
      end
  end.

Lemma last_index_None s b : last_index_byte s b = None <-> Str.index_byte s b = None.
Proof.
  induction s as [|c s IH]; [done|]. cbn. destruct (last_index_byte s b), (Ascii.eqb c b), (Str.index_byte s b); cbn; intuition congruence.
Qed.

Lemma last_index_here a b t : Str.index_byte t b = None -> last_index_byte (a +:+ String b t) b = Some (String.length a).
Proof.
  intros Ht. apply last_index_None in Ht. induction a as [|c a IH].
  - change (EmptyString +:+ String b t) with (String b t). cbn [last_index_byte]. by rewrite Ht, Ascii.eqb_refl.
  - rewrite Str.append_cons. cbn [last_index_byte]. by rewrite IH.
Qed.

Lemma last_index_split s b i : last_index_byte s b = Some i -> s = Str.take i s +:+ String b (Str.drop (S i) s).
Proof.
  revert i. induction s as [|c s IH]; intros i; cbn [last_index_byte]; [done|]. destruct (last_index_byte s b) as [j|].
  - intros [= <-]. change (Str.take (S j) (String c s)) with (String c (Str.take j s)). rewrite Str.append_cons. f_equal. by apply IH.
  - destruct (Ascii.eqb c b) eqn:E; [|done]. intros [= <-]. apply Ascii.eqb_eq in E as ->. by destruct s.
Qed.

Record Signer := { signer_key : string }.

Section Signer.
Context (s : Signer).

Definition mac (value : string) : string := RawURL.EncodeToString (Hmac.sum (signer_key s) value).

Definition Sign (value : string) : string := value +:+ "." +:+ mac value.

Definition Verify (signed : string) : option string :=
  match last_index_byte signed "." with
  | Some (S _ as i) =>
      let value := Str.take i signed in
      if String.eqb (Str.drop (S i) signed) (mac value) then Some value else None
  | _ => None
  end.

Lemma take_length_append a b : Str.take (String.length a) (a +:+ b) = a.
Proof. induction a as [|c a IH]; [by destruct b|]. rewrite Str.append_cons. cbn. f_equal. exact IH. Qed.

Lemma Verify_Sign value : value <> EmptyString -> Verify (Sign value) = Some value.
Proof.
  intros Hv. unfold Verify, Sign. change ("." +:+ mac value) with (String "." (mac value)).
  rewrite last_index_here by (apply encode_free, url_no_dot). destruct (String.length value) as [|n] eqn:E; [by destruct value|]. rewrite <- E, take_length_append.
  assert (D : Str.drop (S (String.length value)) (value +:+ String "." (mac value)) = mac value).
  { clear. change (String "." (mac value)) with ("." +:+ mac value). rewrite <- Str.append_assoc.
    replace (S (String.length value)) with (String.length (value +:+ ".")) by (rewrite Str.length_append; cbn; lia). apply Str.drop_length_append. }
  by rewrite D, String.eqb_refl.
Qed.

Lemma Verify_empty : Verify (Sign EmptyString) = None.
Proof.
  unfold Verify, Sign. change (EmptyString +:+ "." +:+ mac EmptyString) with (EmptyString +:+ String "." (mac EmptyString)).
  by rewrite last_index_here by (apply encode_free, url_no_dot).
Qed.

(** Two values with the same signed text are the same. *)
Lemma Sign_inj v v' : v <> EmptyString -> Sign v = Sign v' -> v = v'.
Proof.
  intros Hv E. pose proof (Verify_Sign v Hv) as Hs. rewrite E in Hs. destruct v' as [|c v']; [by rewrite Verify_empty in Hs|].
  rewrite Verify_Sign in Hs by done. by injection Hs as <-.
Qed.

Lemma Verify_inv signed value : Verify signed = Some value -> signed = Sign value /\ value <> EmptyString.
Proof.
  unfold Verify. destruct (last_index_byte signed ".") as [[|i]|] eqn:E; [done| |done]. apply last_index_split in E.
  destruct (String.eqb _ _) eqn:Em; [|done]. apply String.eqb_eq in Em. intros Hv. assert (value = Str.take (S i) signed) as -> by congruence. split.
  - unfold Sign. change ("." +:+ mac (Str.take (S i) signed)) with (String "." (mac (Str.take (S i) signed))). by rewrite <- Em.
  - intros Et. rewrite Et in E. destruct signed; [done|]. by cbn in Et.
Qed.

End Signer.

(** What [NewToken(n)] makes of the bytes it drew. *)
Definition token_of (bytes : string) : string := RawURL.EncodeToString bytes.

Definition HashToken (token : string) : string := Sha.hex token.

(** ** Passwords

    internal/crypto/password.go: a password is stored as the text of its
    argon2id key with the parameters and the salt it was derived with, and
    checked by deriving the key again.  The derivation is golang.org/x/crypto,
    the class [Argon2]; that the queue for it is full, or that the caller went
    away while waiting, is an answer of the outside ([Auth.CheckPassword]). *)

Local Open Scope go_scope.

Class Argon2 := {
  (** password, salt, time, memory, threads, length of the key *)
  IDKey : string -> string -> Z -> Z -> Z -> Z -> string;
  IDKey_length : forall pw salt t m p n, 0 <= n -> Z.of_nat (String.length (IDKey pw salt t m p n)) = n
}.

Definition argonTime : Z := 3.
Definition argonMemory : Z := 64 * 1024.
Definition argonThreads : Z := 2.
Definition argonKeyLen : Z := 32.
Definition maxArgonMemoryKiB : Z := 2 ^ 20.
Definition maxArgonTime : Z := 64.
Definition maxArgonThreads : Z := 64.

(** ** Reading the parameters *)

(** The literal text of a format. *)
Definition scan_literal (p s : string) : result string :=
  match Str.cut_prefix s p with Some s => Ok s | None => Err "input does not match format" end.

Fixpoint span_digits (s : string) : string * string :=
  match s with
  | String c t => if Dec.is_digit c then let '(d, r) := span_digits t in (String c d, r) else (EmptyString, s)
  | EmptyString => (EmptyString, EmptyString)
  end.

(** White space before a number; a line end is refused. *)
Fixpoint scan_space (s : string) : result string :=
  match s with
  | String c t =>
      if (byte_of c =? 10) || (byte_of c =? 13) then Err "unexpected newline"
      else if Str.is_space c then scan_space t else Ok s
  | EmptyString => Ok s
  end.

(** The verb %d of [fmt.Sscanf] for an unsigned integer of [w] bits. *)
Definition scan_uint (w : Z) (s : string) : result (Z * string) :=
  let? s := scan_space s in
  let '(d, s) := span_digits s in
  match Dec.parse_nonempty d with
  | None => Err "expected integer"
  | Some n => if n <? 2 ^ w then Ok (n, s) else Err "unsigned integer overflow on token"
  end.

(** [fmt.Sscanf(s, "m=%d,t=%d,p=%d", ...)]; what follows is not looked at. *)
Definition scan_params (s : string) : result (Z * Z * Z) :=
  let? s := scan_literal "m=" s in
  let? (m, s) := scan_uint 32 s in
  let? s := scan_literal ",t=" s in
  let? (t, s) := scan_uint 32 s in
  let? s := scan_literal ",p=" s in
  let? (p, _) := scan_uint 8 s in
  Ok (m, t, p).

Definition of_base64 (s : string) : result string :=
  match RawStd.DecodeString s with Some b => Ok b | None => Err "illegal base64 data" end.

Definition out_of_range (v max : Z) : bool := (v =? 0) || (v >? max).

Section Passwords.
Context `{Argon2}.

(** [HashPassword] with the salt it drew. *)
Definition HashPassword (salt password : string) : string :=
  let hash := IDKey password salt argonTime argonMemory argonThreads argonKeyLen in
  "$argon2id$v=19$m=" +:+ Dec.itoa argonMemory +:+ ",t=" +:+ Dec.itoa argonTime +:+ ",p=" +:+ Dec.itoa argonThreads +:+
  "$" +:+ RawStd.EncodeToString salt +:+ "$" +:+ RawStd.EncodeToString hash.

Definition VerifyPassword (password phc : string) : result bool :=
  match Str.split "$" phc with
  | [_; kind; _; params; salt; want] =>
      if negb (String.eqb kind "argon2id") then Err "unsupported hash format"
      else
        let? (mt, p) := scan_params params in
        let '(m, t) := mt in
        if out_of_range m maxArgonMemoryKiB then Err "argon2 memory parameter out of range"
        else if out_of_range t maxArgonTime then Err "argon2 time parameter out of range"
        else if out_of_range p maxArgonThreads then Err "argon2 parallelism parameter out of range"
        else
          let? salt := of_base64 salt in
          let? want := of_base64 want in
          let got := IDKey password salt t m p (Z.of_nat (String.length want)) in
          Ok (String.eqb got want)
  | _ => Err "unsupported hash format"
  end.

(** ** A password and its hash *)

Lemma split_here sep a b : Str.index_byte a sep = None -> Str.split sep (a +:+ String sep b) = a :: Str.split sep b.
Proof.
  induction a as [|c a IH]; intros Ha.
  - change (EmptyString +:+ String sep b) with (String sep b). cbn. by rewrite Ascii.eqb_refl.
  - rewrite Str.append_cons. cbn in Ha |- *. destruct (Ascii.eqb c sep); [done|]. destruct (Str.index_byte a sep); [done|]. by rewrite IH.
Qed.

Lemma split_last sep a : Str.index_byte a sep = None -> Str.split sep a = [a].
Proof.
  induction a as [|c a IH]; [done|]. cbn. destruct (Ascii.eqb c sep); [done|]. destruct (Str.index_byte a sep); [done|]. intros _. by rewrite IH.
Qed.

Lemma std_no_dollar v : 0 <= v < 64 -> digit std_alphabet v <> "$"%char.
Proof.
  intros Hv E. assert (H' : forallb (fun v => negb (Ascii.eqb (digit std_alphabet v) "$")) (seqZ 0 64) = true) by by vm_compute.
  rewrite forallb_forall in H'. assert (Hin : v ∈ seqZ 0 64) by (apply elem_of_seqZ; lia). apply list_elem_of_In in Hin. apply H' in Hin. by rewrite E in Hin.
Qed.

(** A stored hash accepts exactly the passwords whose argon2id key is the
    one of the password it was made from, with the salt it was made with, and
    whatever bytes the salt has it is read back without an error. *)
Theorem hash_verifies salt password given :
  VerifyPassword given (HashPassword salt password) =
  Ok (String.eqb (IDKey given salt argonTime argonMemory argonThreads argonKeyLen)
                 (IDKey password salt argonTime argonMemory argonThreads argonKeyLen)).
Proof.
  set (key := IDKey password salt argonTime argonMemory argonThreads argonKeyLen).
  assert (E : Str.split "$" (HashPassword salt password) =
    [EmptyString; "argon2id"; "v=19"; "m=65536,t=3,p=2"; RawStd.EncodeToString salt; RawStd.EncodeToString key]%string).
  { change (HashPassword salt password) with
      ("" +:+ String "$" ("argon2id" +:+ String "$" ("v=19" +:+ String "$" ("m=65536,t=3,p=2" +:+ String "$"
        (RawStd.EncodeToString salt +:+ String "$" (RawStd.EncodeToString key)))))).
    rewrite !split_here by (done || apply encode_free, std_no_dollar). by rewrite split_last by (apply encode_free, std_no_dollar). }
  unfold VerifyPassword. rewrite E. cbn [String.eqb Ascii.eqb Bool.eqb negb].
  assert (Es : scan_params "m=65536,t=3,p=2" = Ok (65536, 3, 2)) by by vm_compute. rewrite Es. cbn [rbind].
  assert (Hd : forall b, of_base64 (RawStd.EncodeToString b) = Ok b).
  { intros b. unfold of_base64, RawStd.DecodeString, RawStd.EncodeToString. by rewrite base64_back by apply std_sound. }
  change (negb (String.eqb "argon2id" "argon2id")) with false. cbv iota.
  change (out_of_range 65536 maxArgonMemoryKiB) with false. change (out_of_range 3 maxArgonTime) with false. change (out_of_range 2 maxArgonThreads) with false.
  cbv iota. rewrite !Hd. cbn [rbind]. unfold key at 1. rewrite IDKey_length by done. done.
Qed.


End Passwords.
