(* ===== verification/Calendar.v ===== *)
(** * The Gregorian calendar of package [time]

    [t.Year()], [t.Month()], [t.Day()], [t.Weekday()], [time.Date] and
    [t.AddDate] in UTC, as internal/domain/types.go uses them.  A day is
    counted from 1 January 1970; an instant is a number of nanoseconds since
    then.  The conversions work in eras of 400 years (146097 days) that start
    on 1 March; the 400 years of an era are evaluated, the rest is arithmetic. *)

From S2P Require Import Prelude.

Module Cal.

Definition era_days : Z := 146097.

(** The day number of a civil date with a month in 1..12; the day may be any
    number, as [time.Date] normalises it. *)
Definition day_number (y m d : Z) : Z :=
  let y := if m <=? 2 then y - 1 else y in
  let era := y / 400 in
  let yoe := y mod 400 in
  let mp := (m + 9) mod 12 in
  let doy := (153 * mp + 2) / 5 + d - 1 in
  let doe := yoe * 365 + yoe / 4 - yoe / 100 + doy in
  era * era_days + doe - 719468.

(** The civil date of a day of the era that starts on 1 March of the year 0. *)
Definition civil_of_doe (doe : Z) : Z * Z * Z :=
  let yoe := (doe - doe / 1460 + doe / 36524 - doe / 146096) / 365 in
  let doy := doe - (365 * yoe + yoe / 4 - yoe / 100) in
  let mp := (5 * doy + 2) / 153 in
  let d := doy - (153 * mp + 2) / 5 + 1 in
  let m := if mp <? 10 then mp + 3 else mp - 9 in
  ((if m <=? 2 then yoe + 1 else yoe), m, d).

Definition civil (z : Z) : Z * Z * Z :=
  let z := z + 719468 in
  let '(y, m, d) := civil_of_doe (z mod era_days) in
  (y + 400 * (z / era_days), m, d).

(** Sunday is 0; 1 January 1970 was a Thursday. *)
Definition weekday (z : Z) : Z := (z + 4) mod 7.

Definition day_of (t : Z) : Z := t / Tm.day.

(** [time.Date(y, m, d, 0, 0, 0, 0, time.UTC)]: months and days out of range
    are carried. *)
Definition date (y m d : Z) : Z :=
  day_number (y + (m - 1) / 12) ((m - 1) mod 12 + 1) d * Tm.day.

(** [t.AddDate(years, months, days)] of an instant at midnight. *)
Definition add_date (t years months days : Z) : Z :=
  let '(y, m, d) := civil (day_of t) in
  date (y + years) (m + months) (d + days).

(** The first day of the month of a day, and of the month after it. *)
Definition month_start (z : Z) : Z :=
  let '(y, m, _) := civil z in day_number y m 1.
Definition next_month (z : Z) : Z :=
  let '(y, m, _) := civil z in day_number (y + m / 12) (m mod 12 + 1) 1.

(** ** The years of an era *)

(** The first day of year [a] of an era, and the day-to-year formula of [civil_of_doe]. *)
Definition year_start (a : Z) : Z := 365 * a + a / 4 - a / 100 + a / 400.
Definition scaled (doe : Z) : Z := doe - doe / 1460 + doe / 36524 - doe / 146096.

Definition year_check (a : Z) : bool :=
  (scaled (year_start a) / 365 =? a) && (scaled (year_start (a + 1) - 1) / 365 =? a) &&
  (0 <=? year_start a) && (year_start a <=? era_days) &&
  (year_start a + 365 <=? year_start (a + 1)) && (year_start (a + 1) <=? year_start a + 366).

(** All of [f lo, ..., f (lo + n - 1)]. *)
Fixpoint all_from (f : Z -> bool) (lo : Z) (n : nat) : bool :=
  match n with O => true | S n => f lo && all_from f (lo + 1) n end.

Lemma all_from_spec f lo n : all_from f lo n = true -> forall z, lo <= z < lo + Z.of_nat n -> f z = true.
Proof.
  revert lo. induction n as [|n IH]; intros lo H z Hz; cbn in *; [lia|].
  apply andb_true_iff in H as [H1 H2].
  destruct (Z.eq_dec z lo) as [->|]; [done|]. apply (IH (lo + 1)); [done|lia].
Qed.

Lemma years_checked : all_from year_check 0 400 = true.
Proof. by vm_compute. Qed.

Lemma year_checked a : 0 <= a < 400 ->
  scaled (year_start a) / 365 = a /\ scaled (year_start (a + 1) - 1) / 365 = a /\
  0 <= year_start a <= era_days /\
  year_start a + 365 <= year_start (a + 1) <= year_start a + 366.
Proof.
  intros Ha. pose proof (all_from_spec _ _ _ years_checked a) as H.
  specialize (H ltac:(lia)). unfold year_check in H. bprop. lia.
Qed.

Lemma scaled_mono x y : 0 <= x <= y -> y < era_days -> scaled x <= scaled y.
Proof.
  intros Hx Hy. assert (Hmono : forall u v, u <= v -> u - u / 1460 <= v - v / 1460)
    by (intros u v Huv; Z.div_mod_to_equations; lia).
  assert (H2 : x / 36524 <= y / 36524) by (apply Z.div_le_mono; lia).
  pose proof (Hmono x y ltac:(lia)). unfold scaled, era_days in *.
  destruct (Z.eq_dec y 146096) as [->|Hne].
  - destruct (Z.eq_dec x 146096) as [->|]; [done|].
    pose proof (Hmono x 146095 ltac:(lia)). rewrite (Z.div_small x 146096) by lia.
    assert (x / 36524 <= 3) by (apply Z.lt_succ_r, Z.div_lt_upper_bound; lia).
    change (146095 / 1460) with 100 in *. change (146096 / 1460) with 100.
    change (146096 / 36524) with 4. change (146096 / 146096) with 1. lia.
  - rewrite (Z.div_small x 146096), (Z.div_small y 146096) by lia. lia.
Qed.

Lemma year_start_bounds a : 0 <= a <= 400 -> 0 <= year_start a <= era_days.
Proof.
  intros Ha. destruct (Z.eq_dec a 400) as [->|]; [by vm_compute|].
  by destruct (year_checked a ltac:(lia)) as (_ & _ & ? & _).
Qed.

Lemma year_start_lt a : 0 <= a < 400 -> year_start a + 365 <= year_start (a + 1) <= year_start a + 366.
Proof. intros Ha. by destruct (year_checked a Ha) as (_ & _ & _ & ?). Qed.

(** The year of a day: the one whose days contain it. *)
Lemma year_of_doe a doe :
  0 <= a < 400 -> year_start a <= doe < year_start (a + 1) -> scaled doe / 365 = a.
Proof.
  intros Ha Hd. destruct (year_checked a Ha) as (E1 & E2 & _).
  pose proof (year_start_bounds a). pose proof (year_start_bounds (a + 1)).
  assert (scaled (year_start a) <= scaled doe) by (apply scaled_mono; lia).
  assert (scaled doe <= scaled (year_start (a + 1) - 1)) by (apply scaled_mono; lia).
  assert (a <= scaled doe / 365) by (rewrite <- E1 at 1; apply Z.div_le_mono; lia).
  assert (scaled doe / 365 <= a) by (rewrite <- E2; apply Z.div_le_mono; lia). lia.
Qed.

Lemma doe_in_year doe : 0 <= doe < era_days ->
  exists a, 0 <= a < 400 /\ year_start a <= doe < year_start (a + 1).
Proof.
  intros Hd.
  assert (H : forall n : nat, (n <= 400)%nat -> doe < year_start (Z.of_nat n) ->
            exists a, 0 <= a < Z.of_nat n /\ year_start a <= doe < year_start (a + 1)).
  { induction n as [|n IH]; intros Hn Hlt; [change (year_start (Z.of_nat 0)) with 0 in Hlt; lia|].
    replace (Z.of_nat (S n)) with (Z.of_nat n + 1) in * by lia.
    destruct (Z_lt_ge_dec doe (year_start (Z.of_nat n))) as [Hl|Hge].
    - destruct (IH ltac:(lia) Hl) as (a & Ha & Hy). exists a. split; [lia|done].
    - exists (Z.of_nat n). split; [lia|]. lia. }
  destruct (H 400%nat) as (a & Ha & Hy); [lia| |by exists a].
  change (year_start (Z.of_nat 400)) with era_days. lia.
Qed.

(** ** Days as era, year, month from March and day *)

(** The first day of month [mp] (0 is March) in the year. *)
Definition month_offset (mp : Z) : Z := (153 * mp + 2) / 5.
Definition march_day (era a mp d : Z) : Z :=
  era * era_days + year_start a + month_offset mp + d - 1 - 719468.

(** The month of the calendar, and the year it is counted in. *)
Definition month_of (mp : Z) : Z := if mp <? 10 then mp + 3 else mp - 9.
Definition year_of (era a mp : Z) : Z := a + 400 * era + (if mp <? 10 then 0 else 1).

(** [d] is a day of month [mp] of year [a]: the next month, or the next year,
    has not started. *)
Definition in_month (a mp d : Z) : Prop :=
  0 <= a < 400 /\ 0 <= mp < 12 /\ 1 <= d /\
  month_offset mp + d - 1 < (if mp =? 11 then year_start (a + 1) - year_start a else month_offset (mp + 1)).

Lemma month_of_range mp : 0 <= mp < 12 -> 1 <= month_of mp <= 12.
Proof. unfold month_of. destruct (Z.ltb_spec mp 10); lia. Qed.

Lemma day_number_march era a mp d :
  0 <= a < 400 -> 0 <= mp < 12 ->
  day_number (year_of era a mp) (month_of mp) d = march_day era a mp d.
Proof.
  intros Ha Hm. unfold day_number, march_day, month_offset, year_start.
  assert (E : (if month_of mp <=? 2 then year_of era a mp - 1 else year_of era a mp) = a + era * 400).
  { unfold month_of, year_of. destruct (Z.ltb_spec mp 10).
    - destruct (Z.leb_spec (mp + 3) 2); lia.
    - destruct (Z.leb_spec (mp - 9) 2); lia. }
  assert (Em : (month_of mp + 9) mod 12 = mp).
  { unfold month_of. destruct (Z.ltb_spec mp 10).
    - replace (mp + 3 + 9) with (mp + 1 * 12) by lia. rewrite Z.mod_add, Z.mod_small; lia.
    - replace (mp - 9 + 9) with mp by lia. rewrite Z.mod_small; lia. }
  rewrite E, Em, Z.div_add, Z.mod_add, Z.div_small, Z.mod_small by lia.
  replace (a / 400) with 0 by (symmetry; apply Z.div_small; lia). lia.
Qed.

Lemma month_offset_range mp doy :
  0 <= mp < 12 -> month_offset mp <= doy -> doy < (if mp =? 11 then 366 else month_offset (mp + 1)) ->
  (5 * doy + 2) / 153 = mp.
Proof.
  unfold month_offset. intros Hm. destruct (Z.eqb_spec mp 11) as [->|];
    intros; Z.to_euclidean_division_equations; lia.
Qed.

Lemma civil_march era a mp d :
  in_month a mp d -> civil (march_day era a mp d) = (year_of era a mp, month_of mp, d).
Proof.
  intros (Ha & Hm & Hd & Hlt).
  pose proof (year_start_lt a ltac:(lia)) as Hys. pose proof (year_start_bounds a ltac:(lia)).
  pose proof (year_start_bounds (a + 1) ltac:(lia)).
  set (doy := month_offset mp + d - 1) in *.
  assert (Hoff : 0 <= month_offset mp) by (unfold month_offset; apply Z.div_pos; lia).
  assert (Hdoy : 0 <= doy < year_start (a + 1) - year_start a).
  { split; [unfold doy; lia|]. destruct (mp =? 11) eqn:E; [done|]. bprop.
    enough (month_offset (mp + 1) <= 337) by lia.
    unfold month_offset. apply Z.div_le_upper_bound; lia. }
  unfold civil, march_day. fold doy.
  replace (era * era_days + year_start a + month_offset mp + d - 1 - 719468 + 719468)
    with (year_start a + doy + era * era_days) by (unfold doy; lia).
  rewrite Z.mod_add, Z.div_add, Z.mod_small, Z.div_small by (unfold era_days in *; lia).
  unfold civil_of_doe. fold (scaled (year_start a + doy)).
  rewrite (year_of_doe a) by lia.
  assert (E0 : year_start a + doy - (365 * a + a / 4 - a / 100) = doy).
  { unfold year_start. rewrite (Z.div_small a 400) by lia. lia. }
  rewrite E0, (month_offset_range mp doy); [|done|unfold doy; lia|].
  2:{ destruct (mp =? 11) eqn:E; [lia|done]. }
  fold (month_offset mp). unfold doy, month_of, year_of.
  destruct (Z.ltb_spec mp 10).
  - destruct (Z.leb_spec (mp + 3) 2); [lia|]. f_equal; [f_equal|]; lia.
  - destruct (Z.leb_spec (mp - 9) 2); [|lia]. f_equal; [f_equal|]; lia.
Qed.

(** Every day is such a day. *)
Lemma march_day_of z : exists era a mp d, in_month a mp d /\ z = march_day era a mp d.
Proof.
  set (doe := (z + 719468) mod era_days). set (era := (z + 719468) / era_days).
  assert (Hpos : 0 < era_days) by (unfold era_days; lia).
  assert (Hdoe : 0 <= doe < era_days) by (apply Z.mod_pos_bound; done).
  assert (Hz : z = era * era_days + doe - 719468)
    by (pose proof (Z.div_mod (z + 719468) era_days); unfold doe, era; lia).
  destruct (doe_in_year doe Hdoe) as (a & Ha & Hy).
  pose proof (year_start_lt a ltac:(lia)) as Hys.
  set (doy := doe - year_start a) in *. set (mp := (5 * doy + 2) / 153).
  assert (Hmp : 0 <= mp < 12 /\ month_offset mp <= doy /\ (mp <> 11 -> doy < month_offset (mp + 1))).
  { unfold mp, month_offset. assert (0 <= doy <= 365) as Hr by (unfold doy; lia). clearbody doy.
    clear -Hr. Z.to_euclidean_division_equations. lia. }
  exists era, a, mp, (doy - month_offset mp + 1). split.
  - unfold in_month. split_and!; [lia..|]. destruct (Z.eqb_spec mp 11); unfold doy in *; lia.
  - unfold march_day. unfold doy. lia.
Qed.

(** ** Months *)

Definition next_march_day (era a mp : Z) : Z :=
  if mp =? 11 then era * era_days + year_start (a + 1) - 719468 else march_day era a (mp + 1) 1.

Lemma month_start_march era a mp d :
  in_month a mp d -> month_start (march_day era a mp d) = march_day era a mp 1.
Proof.
  intros H. unfold month_start. rewrite civil_march by done. destruct H as (? & ? & _).
  by apply day_number_march.
Qed.

Lemma next_month_march era a mp d :
  in_month a mp d -> next_month (march_day era a mp d) = next_march_day era a mp.
Proof.
  intros H. unfold next_month, next_march_day. rewrite civil_march by done. destruct H as (Ha & Hm & _).
  destruct (Z.eqb_spec mp 11) as [->|Hne].
  - change (month_of 11) with 2. change (2 / 12) with 0. change (2 mod 12 + 1) with 3.
    unfold day_number. change (3 <=? 2) with false. change ((3 + 9) mod 12) with 0.
    change ((153 * 0 + 2) / 5) with 0. unfold year_of. change (11 <? 10) with false. cbv iota.
    replace (a + 400 * era + 1 + 0) with (a + 1 + era * 400) by lia.
    rewrite Z.div_add, Z.mod_add by lia. unfold year_start, era_days.
    destruct (Z.eq_dec a 399) as [->|]; [|].
    { change (399 + 1) with 400. change (400 / 400) with 1. change (400 mod 400) with 0.
      change (400 / 4) with 100. change (400 / 100) with 4. change (0 / 4) with 0.
      change (0 / 100) with 0. lia. }
    rewrite (Z.div_small (a + 1) 400), (Z.mod_small (a + 1) 400) by lia. lia.
  - rewrite <- (day_number_march era a (mp + 1) 1) by lia. f_equal.
    + unfold year_of, month_of. destruct (Z.ltb_spec mp 10), (Z.ltb_spec (mp + 1) 10); try lia.
      * replace ((mp + 3) / 12) with 0 by (symmetry; apply Z.div_small; lia). lia.
      * assert (mp = 9) as -> by lia. change ((9 + 3) / 12) with 1. lia.
      * replace ((mp - 9) / 12) with 0 by (symmetry; apply Z.div_small; lia). lia.
    + unfold month_of. destruct (Z.ltb_spec mp 10), (Z.ltb_spec (mp + 1) 10); try lia.
      * rewrite Z.mod_small by lia. lia.
      * assert (mp = 9) as -> by lia. done.
      * rewrite Z.mod_small by lia. lia.
Qed.

(** A day is a day of its month, and the days of the month are consecutive. *)
Lemma in_month_iff era a mp d u :
  in_month a mp d ->
  march_day era a mp 1 <= u < next_march_day era a mp ->
  in_month a mp (u - march_day era a mp 1 + 1) /\ u = march_day era a mp (u - march_day era a mp 1 + 1).
Proof.
  intros (Ha & Hm & Hd & _) Hu. split.
  - unfold in_month. split_and!; [lia..|].
    unfold next_march_day in Hu. destruct (mp =? 11); unfold march_day in *; lia.
  - unfold march_day. lia.
Qed.

Lemma month_bounds z : month_start z <= z < next_month z.
Proof.
  destruct (march_day_of z) as (era & a & mp & d & H & ->).
  rewrite month_start_march, next_month_march by done. destruct H as (Ha & Hm & Hd & Hlt).
  unfold next_march_day. destruct (mp =? 11); unfold march_day; lia.
Qed.

(** All days of a month agree on where it starts and where the next one starts. *)
Lemma month_const z u :
  month_start z <= u < next_month z -> month_start u = month_start z /\ next_month u = next_month z.
Proof.
  destruct (march_day_of z) as (era & a & mp & d & H & ->).
  rewrite month_start_march, next_month_march by done. intros Hu.
  destruct (in_month_iff era a mp d u H Hu) as [Hi E]. rewrite E at 1 2.
  by rewrite month_start_march, next_month_march.
Qed.

(** The first of the next month starts a month. *)
Lemma month_start_next z : month_start (next_month z) = next_month z.
Proof.
  destruct (march_day_of z) as (era & a & mp & d & H & ->). rewrite next_month_march by done.
  destruct H as (Ha & Hm & Hd & Hlt). unfold next_march_day. destruct (Z.eqb_spec mp 11) as [->|Hne].
  - assert (E : exists era' a', 0 <= a' < 400 /\
        era * era_days + year_start (a + 1) - 719468 = march_day era' a' 0 1).
    { destruct (Z.eq_dec a 399) as [->|].
      - exists (era + 1), 0. split; [lia|]. unfold march_day. change (year_start (399 + 1)) with era_days.
        change (year_start 0) with 0. change (month_offset 0) with 0. lia.
      - exists era, (a + 1). split; [lia|]. unfold march_day. change (month_offset 0) with 0. lia. }
    destruct E as (era' & a' & Ha' & ->). apply month_start_march.
    unfold in_month. change (month_offset 0) with 0. change (0 =? 11) with false.
    change (month_offset (0 + 1)) with 31. lia.
  - apply month_start_march. unfold in_month. split_and!; [lia..|].
    destruct (Z.eqb_spec (mp + 1) 11) as [E|E].
    + pose proof (year_start_lt a ltac:(lia)). rewrite E. change (month_offset 11) with 337. lia.
    + unfold month_offset. Z.to_euclidean_division_equations. lia.
Qed.

Lemma civil_valid z :
  let '(y, m, d) := civil z in 1 <= m <= 12 /\ 1 <= d /\ day_number y m d = z.
Proof.
  destruct (march_day_of z) as (era & a & mp & d & H & ->). rewrite civil_march by done.
  destruct H as (Ha & Hm & Hd & Hlt). split_and!; try lia.
  - by apply month_of_range.
  - by apply month_of_range.
  - by apply day_number_march.
Qed.

End Cal.

(** ** Instants as text

    [t.UTC().Format(time.RFC3339)] and [time.Parse(time.RFC3339, s)] of
    package [time], as internal/agent/telemt.go writes and compares the
    expiry of a user.  [Parse] follows the reader of package [time]: an hour
    of one digit and a fraction of a second are accepted, a date outside its
    month is not. *)

Module Rfc3339.

(** ** Writing *)

(** A number with at least two digits. *)
Definition two (n : Z) : string := String (Dec.digit (n / 10 mod 10)) (String (Dec.digit (n mod 10)) EmptyString).

(** The year: at least four digits. *)
Definition year (y : Z) : string :=
  let n := Z.abs y in
  (if y <? 0 then "-" else EmptyString) +:+
  (if n <? 10000 then two (n / 100) +:+ two (n mod 100) else Dec.itoa n).

Definition clock_text (s : Z) : string :=
  two (s / 3600) +:+ ":" +:+ two (s / 60 mod 60) +:+ ":" +:+ two (s mod 60).

(** [time.Unix(v, 0).UTC().Format(time.RFC3339)] *)
Definition Format (v : Z) : string :=
  let '(y, m, d) := Cal.civil (v / 86400) in
  year y +:+ "-" +:+ two m +:+ "-" +:+ two d +:+ "T" +:+ clock_text (v mod 86400) +:+ "Z".

(** ** Reading *)

Definition take_digit (s : string) : option (Z * string) :=
  match s with String c t => if Dec.is_digit c then Some (Dec.digit_value c, t) else None | EmptyString => None end.

Definition take_two (s : string) : option (Z * string) :=
  match take_digit s with
  | Some (a, t) => match take_digit t with Some (b, u) => Some (10 * a + b, u) | None => None end
  | None => None
  end.

(** The hour: a second digit may be missing. *)
Definition take_hour (s : string) : option (Z * string) :=
  match take_two s with Some r => Some r | None => take_digit s end.

Definition take_char (c : ascii) (s : string) : option string :=
  match s with String d t => if Ascii.eqb d c then Some t else None | EmptyString => None end.

(** The digits of a fraction, of which nine count. *)
Fixpoint fraction (room : nat) (acc : Z) (s : string) : Z * string :=
  match s with
  | String c t =>
      if Dec.is_digit c then
        match room with
        | O => fraction O acc t
        | S room => fraction room (10 * acc + Dec.digit_value c) t
        end
      else (acc * 10 ^ Z.of_nat room, s)
  | EmptyString => (acc * 10 ^ Z.of_nat room, s)
  end.

(** A fraction is a point or comma with a digit after it. *)
Definition take_fraction (s : string) : Z * string :=
  match s with
  | String c (String d _ as t) =>
      if (Ascii.eqb c "."%char || Ascii.eqb c ","%char) && Dec.is_digit d then fraction 9 0 t else (0, s)
  | _ => (0, s)
  end.

Notation "'let*' x ':=' a 'in' k" := (match a with Some x => k | None => None end)
  (at level 200, x pattern, a at level 100, k at level 200).

(** The offset of the zone, in seconds east of UTC. *)
Definition take_zone (s : string) : option (Z * string) :=
  match s with
  | EmptyString => None
  | String c t =>
      if Ascii.eqb c "Z"%char then Some (0, t)
      else if Ascii.eqb c "+"%char || Ascii.eqb c "-"%char then
        let* (h, t) := take_two t in
        let* t := take_char ":"%char t in
        let* (m, t) := take_two t in
        if (h <=? 24) && (m <=? 60) then Some ((if Ascii.eqb c "-"%char then -1 else 1) * (h * 3600 + m * 60), t) else None
      else None
  end.

(** The days of a month. *)
Definition month_days (y m : Z) : Z := Cal.day_number (y + m / 12) (m mod 12 + 1) 1 - Cal.day_number y m 1.

Definition valid (y m d h mi s : Z) : bool :=
  (1 <=? m) && (m <=? 12) && (1 <=? d) && (d <=? month_days y m) && (h <? 24) && (mi <? 60) && (s <? 60).

(** [time.Parse(time.RFC3339, s)], in nanoseconds since 1970. *)
Definition Parse (s : string) : option Z :=
  let* (y1, s) := take_two s in
  let* (y2, s) := take_two s in
  let* s := take_char "-"%char s in
  let* (m, s) := take_two s in
  let* s := take_char "-"%char s in
  let* (d, s) := take_two s in
  let* s := take_char "T"%char s in
  let* (h, s) := take_hour s in
  let* s := take_char ":"%char s in
  let* (mi, s) := take_two s in
  let* s := take_char ":"%char s in
  let* (sec, s) := take_two s in
  let '(nsec, s) := take_fraction s in
  let* (off, s) := take_zone s in
  let y := 100 * y1 + y2 in
  if valid y m d h mi sec && String.eqb s EmptyString
  then Some ((Cal.day_number y m d * 86400 + h * 3600 + mi * 60 + sec - off) * Tm.second + nsec)
  else None.

(** ** Reading what was written *)

Lemma take_digit_digit n s : 0 <= n < 10 -> take_digit (String (Dec.digit n) s) = Some (n, s).
Proof.
  intros H. assert (In n [0;1;2;3;4;5;6;7;8;9]) as Hin by (cbn; lia). clear H.
  cbn in Hin. by repeat destruct Hin as [<-|Hin].
Qed.

Lemma take_two_two n s : 0 <= n < 100 -> take_two (two n +:+ s) = Some (n, s).
Proof.
  intros H. unfold two. rewrite !Str.append_cons, Str.append_nil_l. unfold take_two.
  rewrite !take_digit_digit by (Z.to_euclidean_division_equations; lia).
  do 2 f_equal. Z.to_euclidean_division_equations; lia.
Qed.

Lemma civil_days z : let '(y, m, d) := Cal.civil z in 1 <= m <= 12 /\ 1 <= d <= month_days y m /\ Cal.day_number y m d = z.
Proof.
  pose proof (Cal.civil_valid z) as V. pose proof (Cal.month_bounds z) as B.
  unfold Cal.month_start, Cal.next_month in B. destruct (Cal.civil z) as [[y m] d].
  destruct V as (Hm & Hd & Hz). split_and!; try lia. unfold month_days.
  assert (Cal.day_number y m d = Cal.day_number y m 1 + d - 1) as E by (unfold Cal.day_number; lia). lia.
Qed.

Lemma take_hour_two n s : 0 <= n < 100 -> take_hour (two n +:+ s) = Some (n, s).
Proof. intros H. unfold take_hour. by rewrite take_two_two. Qed.

Lemma clock_split t : 0 <= t < 86400 ->
  0 <= t / 3600 < 24 /\ 0 <= t / 60 mod 60 < 60 /\ 0 <= t mod 60 < 60 /\
  forall a, a + t / 3600 * 3600 + t / 60 mod 60 * 60 + t mod 60 - 0 = a + t.
Proof. intros H. repeat apply conj; intros; Z.to_euclidean_division_equations; lia. Qed.

Lemma take_char_here c s : take_char c (String c s) = Some s.
Proof. cbn. by rewrite Ascii.eqb_refl. Qed.

Lemma month_days_le y m : 1 <= m <= 12 -> month_days y m <= 31.
Proof.
  intros H. assert (In m [1;2;3;4;5;6;7;8;9;10;11;12]) as Hin by (cbn; lia). clear H. cbn in Hin. unfold month_days, Cal.day_number.
  repeat destruct Hin as [<-|Hin]; try done.
  all: repeat match goal with
       | |- context [?a mod 12] => let b := eval vm_compute in (a mod 12) in change (a mod 12) with b
       | |- context [?a / 12] => let b := eval vm_compute in (a / 12) in change (a / 12) with b
       | |- context [?a <=? 2] => let b := eval vm_compute in (a <=? 2) in change (a <=? 2) with b
       end; cbv iota; rewrite ?Z.add_0_r; try replace (y + 1 - 1) with y by lia;
    unfold Cal.era_days; Z.to_euclidean_division_equations; lia.
Qed.

(** An instant is read back as it was written, for the years of four digits. *)
Lemma Parse_Format v : (let '(y, _, _) := Cal.civil (v / 86400) in 0 <= y < 10000) ->
  Parse (Format v) = Some (v * Tm.second).
Proof.
  unfold Format. pose proof (civil_days (v / 86400)) as V. destruct (Cal.civil (v / 86400)) as [[y m] d].
  destruct V as (Hm & Hd & Hz). intros Hy. unfold year. replace (y <? 0) with false by lia.
  rewrite Z.abs_eq by lia. replace (y <? 10000) with true by lia.
  assert (Hmd : month_days y m <= 31).
  { by apply month_days_le. }
  set (t := v mod 86400). assert (0 <= t < 86400) as Ht by (unfold t; apply Z.mod_pos_bound; lia).
  unfold clock_text. rewrite !Str.append_assoc, Str.append_nil_l. unfold Parse.
  repeat first
    [ rewrite take_two_two by (Z.to_euclidean_division_equations; lia)
    | rewrite take_hour_two by (Z.to_euclidean_division_equations; lia)
    | rewrite Str.append_cons, Str.append_nil_l, take_char_here ].
  change (take_fraction "Z") with (0, "Z"%string). cbv iota beta. change (take_zone "Z") with (Some (0, EmptyString)). cbv iota beta.
  rewrite <- (Z.div_mod y 100) by lia.
  destruct (clock_split t Ht) as (Hh & Hmi & Hs & Et).
  replace (valid _ _ _ _ _ _) with true.
  - cbn [andb String.eqb]. rewrite Hz, Et. unfold t. do 2 f_equal. pose proof (Z.div_mod v 86400). lia.
  - symmetry. unfold valid. rewrite !andb_true_iff, !Z.leb_le, !Z.ltb_lt. lia.
Qed.

End Rfc3339.
