(* ===== verification/WebPolicy.v ===== *)
(** * WEB carrier policy and capacity presets

    internal/domain/webpolicy.go: the WEB policy of a node, its defaults and
    its validation ([Module Policy]); the node-wide and per-profile WEB
    limits ([Module Limits]).  internal/domain/webcapacity.go: the capacity
    presets an operator can pick ([Module Capacity]).

    The typed strings of the source ([Carrier], [Aggressiveness], ...) admit
    any text, so they are [string]s here and their [Valid] methods are
    boolean functions.  A nil slice or pointer is [None]. *)

From S2P Require Import Prelude Regex.

Module Policy.

Definition CarrierHTTPS : string := "https".
Definition CarrierHTTPSLanes : string := "https-lanes".
Definition CarrierWebSocket : string := "websocket".
Definition CarrierWebSocketLanes : string := "websocket-lanes".

Definition carrier_valid (c : string) : bool :=
  String.eqb c CarrierHTTPS || String.eqb c CarrierHTTPSLanes ||
  String.eqb c CarrierWebSocket || String.eqb c CarrierWebSocketLanes.

Definition aggressiveness_valid (a : string) : bool :=
  String.eqb a "conservative" || String.eqb a "balanced" || String.eqb a "aggressive".

Definition capacity_action_valid (a : string) : bool :=
  String.eqb a "drop" || String.eqb a "wait" || String.eqb a "respond".

Record WebOverloadPolicy := {
  overload_preset : string;
  connection_capacity_action : string
}.

Record WebTimeouts := {
  NegotiationDeadlinesSecs : list Z;
  CarrierHealthSecs : Z;
  CarrierLearningSecs : Z;
  BridgeRequestSecs : Z;
  BridgeRetrySecs : Z;
  ProbeCoalesceMs : Z
}.

Record WebPolicy := {
  CarrierMethod : option string;
  Conveyor : option bool;
  BasePath : option string;
  DecoyResolve : option string;
  Preset : string;
  Carrier : string;
  Carriers : option (list string);
  CarrierLearning : bool;
  Aggressiveness : string;
  Overload : WebOverloadPolicy;
  Timeouts : WebTimeouts
}.

Definition DefaultWebPolicy : WebPolicy := {|
  CarrierMethod := None; Conveyor := None; BasePath := None; DecoyResolve := None;
  Preset := "automatic";
  Carrier := CarrierHTTPS;
  Carriers := Some [CarrierWebSocketLanes; CarrierWebSocket; CarrierHTTPSLanes];
  CarrierLearning := true;
  Aggressiveness := "conservative";
  Overload := {| overload_preset := "balanced"; connection_capacity_action := "wait" |};
  Timeouts := {|
    NegotiationDeadlinesSecs := [3; 5; 8; 12];
    CarrierHealthSecs := 30;
    CarrierLearningSecs := 600;
    BridgeRequestSecs := 10;
    BridgeRetrySecs := 90;
    ProbeCoalesceMs := 0
  |}
|}.

Definition negotiationDeadlines : Z := 4.

(** The loop over the deadlines: [prev] is the value at [i-1], if any. *)
Fixpoint validate_deadlines (prev : option Z) (l : list Z) : option error :=
  match l with
  | [] => None
  | d :: l =>
      if d <? 1 then Some "carrier_negotiation_deadlines_secs: values must be positive"
      else if match prev with Some p => d <=? p | None => false end
      then Some "carrier_negotiation_deadlines_secs: values must strictly increase"
      else validate_deadlines (Some d) l
  end.

Local Open Scope go_scope.

Definition validate_timeouts (t : WebTimeouts) : option error :=
  let n := Z.of_nat (length (NegotiationDeadlinesSecs t)) in
  fail_if (negb (n =? negotiationDeadlines))
    ("carrier_negotiation_deadlines_secs: " +:+ Dec.itoa n +:+ " values, telemt takes exactly "
       +:+ Dec.itoa negotiationDeadlines)
  ;;? validate_deadlines None (NegotiationDeadlinesSecs t)
  ;;? fail_if (CarrierHealthSecs t <? 1) "carrier_health_secs: must be positive"
  ;;? fail_if ((CarrierLearningSecs t <? 2) || (CarrierLearningSecs t >? 86400))
        ("carrier_learning_secs: " +:+ Dec.itoa (CarrierLearningSecs t) +:+ " out of 2..86400")
  ;;? fail_if ((BridgeRequestSecs t <? 1) || (BridgeRequestSecs t >? 60))
        ("bridge_request_secs: " +:+ Dec.itoa (BridgeRequestSecs t) +:+ " out of 1..60")
  ;;? fail_if ((BridgeRetrySecs t <? 1) || (BridgeRetrySecs t >? 300))
        ("bridge_retry_secs: " +:+ Dec.itoa (BridgeRetrySecs t) +:+ " out of 1..300")
  ;;? fail_if (BridgeRetrySecs t <? BridgeRequestSecs t)
        "bridge_retry_secs: must not be below bridge_request_secs"
  ;;? fail_if ((ProbeCoalesceMs t <? 0) || (ProbeCoalesceMs t >? 10))
        ("carrier_probe_coalesce_ms: " +:+ Dec.itoa (ProbeCoalesceMs t) +:+ " out of 0..10").

(** An alphanumeric byte, then alphanumerics, underscores and hyphens; segments joined by slashes. *)
Definition alnum_class : class :=
  [("A", "Z"); ("a", "z"); ("0", "9")]%char.
Definition path_class : class :=
  [("A", "Z"); ("a", "z"); ("0", "9"); ("_", "_"); ("-", "-")]%char.
Definition path_segment : re := Seq (Cls alnum_class) (Star (Cls path_class)).
Definition webBasePathPattern : re :=
  Seq path_segment (Star (Seq (Cls [("/", "/")]%char) path_segment)).

Definition ValidateWebBasePath (path : string) : option error :=
  if negb (String.eqb path EmptyString) &&
     ((Z.of_nat (String.length path) >? 128) || negb (accepts webBasePathPattern path))
  then Some "base_path: must be empty or at most 128 ASCII bytes in slash-separated alphanumeric, underscore or hyphen segments without surrounding slashes"
  else None.

Definition HasAdvancedOptions (p : WebPolicy) : bool :=
  match CarrierMethod p, Conveyor p, BasePath p, DecoyResolve p with
  | None, None, None, None => false
  | _, _, _, _ => true
  end.

(** The loop over [p.Carriers] with the set [seen]. *)
Fixpoint validate_carriers (seen : gset string) (l : list string) : option error :=
  match l with
  | [] => None
  | c :: l =>
      if negb (carrier_valid c) then Some ("carriers: " +:+ Str.quote c +:+ " is not a carrier telemt knows")
      else if bool_decide (c ∈ seen) then Some ("carriers: " +:+ Str.quote c +:+ " listed twice")
      else validate_carriers ({[c]} ∪ seen) l
  end.

Definition one_of (o : option string) (a b : string) : bool :=
  match o with
  | None => true
  | Some s => String.eqb s a || String.eqb s b
  end.

Definition Validate (p : WebPolicy) : option error :=
  fail_if (negb (one_of (CarrierMethod p) "post" "put")) "carrier_method: must be post or put"
  ;;? fail_if (negb (one_of (DecoyResolve p) "never" "startup")) "decoy_resolve: must be never or startup"
  ;;? match BasePath p with Some b => ValidateWebBasePath b | None => None end
  ;;? fail_if (negb (carrier_valid (Carrier p)))
        ("carrier " +:+ Str.quote (Carrier p) +:+ " is not one of https, https-lanes, websocket, websocket-lanes")
  ;;? fail_if (negb (aggressiveness_valid (Aggressiveness p)))
        ("carrier_negotiation_aggressiveness " +:+ Str.quote (Aggressiveness p)
           +:+ " is not one of conservative, balanced, aggressive")
  ;;? fail_if (let o := overload_preset (Overload p) in
               negb (String.eqb o "balanced" || String.eqb o "high_load" || String.eqb o "custom"))
        ("overload.preset: " +:+ Str.quote (overload_preset (Overload p))
           +:+ " is not one of balanced, high_load, custom")
  ;;? fail_if (negb (capacity_action_valid (connection_capacity_action (Overload p))))
        ("overload.connection_capacity_action: "
           +:+ Str.quote (connection_capacity_action (Overload p)) +:+ " is not one of drop, wait, respond")
  ;;? fail_if (match Carriers p with Some [] => true | _ => false end)
        "carriers: must not be empty; disable negotiation instead of sending an empty list"
  ;;? validate_carriers ∅ (default [] (Carriers p))
  ;;? validate_timeouts (Timeouts p).

(** ** What validation accepts *)

(** The deadlines increase strictly from a positive first value. *)
Fixpoint increasing_from (lo : Z) (l : list Z) : Prop :=
  match l with
  | [] => True
  | d :: l => lo < d /\ increasing_from d l
  end.

Lemma validate_deadlines_spec prev l :
  0 <= default 0 prev ->
  validate_deadlines prev l = None <-> increasing_from (default 0 prev) l.
Proof.
  revert prev. induction l as [|d l IH]; intros prev Hp; cbn; [done|].
  destruct (Z.ltb_spec d 1) as [H|H].
  - split; [done|]. destruct prev; cbn in *; lia.
  - destruct prev as [p|]; cbn in *.
    + destruct (Z.leb_spec d p); [split; [done|lia]|].
      rewrite IH by (cbn; lia). cbn. split; [|tauto]. split; [lia|done].
    + rewrite IH by (cbn; lia). cbn. split; [|tauto]. split; [lia|done].
Qed.

(** What telemt accepts of [web.timeouts]. *)
Record timeouts_ok (t : WebTimeouts) : Prop := {
  ok_four : length (NegotiationDeadlinesSecs t) = 4%nat;
  ok_deadlines : increasing_from 0 (NegotiationDeadlinesSecs t);
  ok_health : 1 <= CarrierHealthSecs t;
  ok_learning : 2 <= CarrierLearningSecs t <= 86400;
  ok_request : 1 <= BridgeRequestSecs t <= 60;
  ok_retry : BridgeRequestSecs t <= BridgeRetrySecs t <= 300;
  ok_coalesce : 0 <= ProbeCoalesceMs t <= 10
}.

Lemma validate_timeouts_ok t : validate_timeouts t = None <-> timeouts_ok t.
Proof.
  unfold validate_timeouts, negotiationDeadlines.
  rewrite !or_else_None, !fail_if_None, (validate_deadlines_spec None) by (cbn; lia).
  autorewrite with gobool. cbn. split.
  - intros (?&?&?&[? ?]&[? ?]&[? ?]&?&?&?). constructor; try done; lia.
  - intros []. split_and!; try done; lia.
Qed.

Lemma validate_carriers_spec seen l :
  validate_carriers seen l = None <->
  Forall (fun c => carrier_valid c = true) l /\ NoDup l /\ Forall (fun c => c ∉ seen) l.
Proof.
  revert seen. induction l as [|c l IH]; intros seen; cbn.
  { split; [intros _; split_and!; constructor|done]. }
  rewrite !Forall_cons_iff, NoDup_cons.
  destruct (carrier_valid c); cbn; [|split; [done|intros ([] & _); done]].
  case_bool_decide as Hin; [split; [done|tauto]|].
  rewrite IH. split.
  - intros (Hv & Hn & Hs). rewrite Forall_forall in Hs. split_and!; try done.
    + intros Hc. specialize (Hs _ Hc). set_solver.
    + apply Forall_forall. intros x Hx. specialize (Hs _ Hx). set_solver.
  - intros ((_ & Hv) & (Hc & Hn) & (_ & Hs)). split_and!; try done.
    rewrite Forall_forall in *. intros x Hx. specialize (Hs _ Hx). set_solver.
Qed.

Lemma ValidateWebBasePath_spec path :
  ValidateWebBasePath path = None <->
  path = EmptyString \/
  ((String.length path <= 128)%nat /\ lang webBasePathPattern (Str.bytes path)).
Proof.
  unfold ValidateWebBasePath. rewrite <- accepts_spec.
  destruct (String.eqb_spec path EmptyString) as [->|Hne]; cbn [negb andb]; [tauto|].
  destruct (Z.of_nat (String.length path) >? 128) eqn:Hl; cbn.
  - bprop. split; [done|]. intros [?|[? _]]; [done|lia].
  - bprop. destruct (accepts webBasePathPattern path); cbn; [|by split; [|intros [?|[_ ?]]]].
    split; [|done]. intros _. right. split; [lia|done].
Qed.

(** ** Base paths: the pattern, segment by segment *)

Definition segment_ok (w : string) : Prop :=
  match Str.bytes w with
  | [] => False
  | c :: u => in_class c alnum_class = true /\ Forall (fun d => in_class d path_class = true) u
  end.

Lemma lang_path_segment u :
  lang path_segment u <->
  match u with
  | [] => False
  | c :: v => in_class c alnum_class = true /\ Forall (fun d => in_class d path_class = true) v
  end.
Proof.
  unfold path_segment. rewrite lang_Seq_inv. split.
  - intros (v & w & -> & (c & -> & Hc)%lang_Cls_inv & Hw%lang_Star_Cls). done.
  - destruct u as [|c v]; [done|]. intros [Hc Hv]. exists [c], v.
    split_and!; [done|by constructor|by apply lang_Star_Cls].
Qed.

(** The pattern after its first segment: nothing, or a slash and the pattern again. *)
Lemma lang_path_tail u :
  lang (Star (Seq (Cls [("/", "/")]%char) path_segment)) u <->
  u = [] \/ exists v, u = "/"%char :: v /\ lang webBasePathPattern v.
Proof.
  split.
  - destruct u as [|c u]; [by left|].
    intros (v & w & -> & Hv & Hw)%lang_Star_cons. right.
    apply lang_Seq_inv in Hv as (a & b & E & (d & -> & Hd)%lang_Cls_inv & Hb).
    injection E as -> ->. exists (b ++ w). split.
    + f_equal. unfold in_class, in_range in Hd. cbn in Hd. rewrite orb_false_r in Hd. bprop.
      rewrite !Nat.leb_le in *. change (nat_of_ascii "/") with 47%nat in *.
      rewrite <- (ascii_nat_embedding d). by replace (nat_of_ascii d) with 47%nat by lia.
    + unfold webBasePathPattern. apply lang_Seq_inv. by exists b, w.
  - intros [->|(v & -> & H)]; [constructor|].
    unfold webBasePathPattern in H. apply lang_Seq_inv in H as (a & b & -> & Ha & Hb).
    apply (lang_star_app _ ("/"%char :: a) b); [|done].
    apply (lang_seq _ _ ["/"%char] a); [|done]. by constructor.
Qed.

Lemma path_class_no_slash c : in_class c path_class = true -> c <> "/"%char.
Proof. by intros H ->. Qed.

Lemma segment_no_slash u : lang path_segment u -> "/"%char ∉ u.
Proof.
  rewrite lang_path_segment. destruct u as [|c u]; [done|]. intros [Hc Hu] Hin.
  apply elem_of_cons in Hin as [<-|Hin]; [done|].
  rewrite Forall_forall in Hu. by apply (path_class_no_slash "/"%char); [apply Hu|].
Qed.

(** [strings.Split] cuts at the first slash. *)
Lemma split_first_slash s :
  (Str.split "/" s = [s] /\ "/"%char ∉ Str.bytes s) \/
  (exists w t, Str.bytes s = Str.bytes w ++ "/"%char :: Str.bytes t /\
               "/"%char ∉ Str.bytes w /\ Str.split "/" s = w :: Str.split "/" t).
Proof.
  induction s as [|c s IH]; cbn; [left; by split; [|apply not_elem_of_nil]|].
  destruct (Ascii.eqb_spec c "/") as [->|Hc].
  - right. exists EmptyString, s. cbn. split_and!; [done|apply not_elem_of_nil|done].
  - destruct IH as [[E Hs]|(w & t & E & Hw & Hsp)].
    + left. rewrite E. split; [done|]. rewrite not_elem_of_cons. naive_solver.
    + right. exists (String c w), t. rewrite Hsp. cbn.
      rewrite E, not_elem_of_cons. naive_solver.
Qed.

(** Two ways to cut a word at its first slash agree. *)
Lemma cut_at_slash_unique (a b u v : list ascii) :
  "/"%char ∉ a -> "/"%char ∉ b -> a ++ "/"%char :: u = b ++ "/"%char :: v -> a = b /\ u = v.
Proof.
  revert b. induction a as [|c a IH]; intros [|d b] Ha Hb E; cbn in E.
  - by injection E.
  - injection E as <- _. by apply not_elem_of_cons in Hb as [? _].
  - injection E as -> _. by apply not_elem_of_cons in Ha as [? _].
  - apply not_elem_of_cons in Ha as [_ Ha], Hb as [_ Hb].
    injection E as -> E. by apply IH in E as [-> ->].
Qed.

Lemma webBasePathPattern_segments s :
  lang webBasePathPattern (Str.bytes s) <-> Forall segment_ok (Str.split "/" s).
Proof.
  remember (String.length s) as n eqn:En. revert s En.
  induction n as [n IH] using lt_wf_ind. intros s ->.
  unfold webBasePathPattern at 1. rewrite lang_Seq_inv.
  destruct (split_first_slash s) as [[E Hs]|(w & t & E & Hw & Hsp)].
  - rewrite E, Forall_singleton. unfold segment_ok. rewrite <- lang_path_segment. split.
    + intros (u & v & Eu & Hu & Hv). apply lang_path_tail in Hv as [->|(v' & -> & _)].
      * by rewrite Eu, app_nil_r.
      * rewrite Eu in Hs. destruct Hs. apply elem_of_app. right. constructor.
    + intros H. exists (Str.bytes s), []. rewrite app_nil_r. split_and!; [done|done|constructor].
  - rewrite Hsp, Forall_cons. unfold segment_ok at 1. rewrite <- lang_path_segment.
    assert (Ht : lang webBasePathPattern (Str.bytes t) <-> Forall segment_ok (Str.split "/" t)).
    { apply (IH (String.length t)); [|done].
      assert (Hlen : forall x, length (Str.bytes x) = String.length x)
        by (intros x; induction x; cbn; auto).
      rewrite <- !Hlen, E, length_app. cbn. lia. }
    rewrite <- Ht. split.
    + intros (u & v & Eu & Hu & Hv). rewrite E in Eu.
      pose proof (segment_no_slash _ Hu) as Hsu.
      apply lang_path_tail in Hv as [->|(v' & -> & Hv')].
      * rewrite app_nil_r in Eu. subst u. destruct Hsu. apply elem_of_app. right. constructor.
      * by apply cut_at_slash_unique in Eu as [-> ->].
    + intros [H1 H2]. exists (Str.bytes w), ("/"%char :: Str.bytes t).
      split_and!; [done|done|]. apply lang_path_tail. right. eauto.
Qed.

(** ** The contract of a policy *)

(** What a node can be sent: the rules telemt enforces on its config. *)
Record policy_ok (p : WebPolicy) : Prop := {
  ok_method : CarrierMethod p ∈ [None; Some "post"; Some "put"];
  ok_decoy : DecoyResolve p ∈ [None; Some "never"; Some "startup"];
  ok_base_path : forall b, BasePath p = Some b ->
    b = EmptyString \/
    ((String.length b <= 128)%nat /\ Forall segment_ok (Str.split "/" b));
  ok_carrier : carrier_valid (Carrier p) = true;
  ok_aggressiveness : Aggressiveness p ∈ ["conservative"; "balanced"; "aggressive"];
  ok_overload : overload_preset (Overload p) ∈ ["balanced"; "high_load"; "custom"];
  ok_capacity_action : connection_capacity_action (Overload p) ∈ ["drop"; "wait"; "respond"];
  ok_carriers : forall l, Carriers p = Some l ->
    l <> [] /\ NoDup l /\ Forall (fun c => carrier_valid c = true) l;
  ok_timeouts : timeouts_ok (Timeouts p)
}.

Lemma one_of_spec o a b : one_of o a b = true <-> o ∈ [None; Some a; Some b].
Proof.
  rewrite !elem_of_cons, elem_of_nil. destruct o as [s|]; cbn; [|tauto].
  rewrite orb_true_iff, !String.eqb_eq. split; [intros [->| ->]; tauto|naive_solver].
Qed.

Lemma eqb3_spec s a b c :
  (String.eqb s a || String.eqb s b || String.eqb s c)%bool = true <-> s ∈ [a; b; c].
Proof. rewrite !elem_of_cons, elem_of_nil, !orb_true_iff, !String.eqb_eq. tauto. Qed.

Lemma base_path_check o :
  match o with Some b => ValidateWebBasePath b | None => None end = None <->
  forall b, o = Some b -> b = EmptyString \/
    ((String.length b <= 128)%nat /\ Forall segment_ok (Str.split "/" b)).
Proof.
  destruct o as [b|]; [|naive_solver].
  rewrite ValidateWebBasePath_spec, webBasePathPattern_segments. naive_solver.
Qed.

Lemma carriers_check o :
  (match o with Some [] => true | _ => false end = false /\
   validate_carriers ∅ (default [] o) = None) <->
  forall l, o = Some l -> l <> [] /\ NoDup l /\ Forall (fun c => carrier_valid c = true) l.
Proof.
  rewrite validate_carriers_spec. destruct o as [[|c l]|]; cbn.
  - split; [by intros [[=] _]|]. intros H. by destruct (H [] eq_refl).
  - split.
    + intros (_ & Hv & Hn & _) ? [= <-]. done.
    + intros H. destruct (H _ eq_refl) as (_ & Hn & Hv). split_and!; try done.
      apply Forall_forall. set_solver.
  - split; [naive_solver|]. intros _. split_and!; constructor.
Qed.

(** [Validate] accepts exactly the policies telemt would take. *)
Theorem Validate_iff_policy_ok p : Validate p = None <-> policy_ok p.
Proof.
  unfold Validate. rewrite !or_else_None, !fail_if_None, !negb_false_iff, base_path_check,
    validate_timeouts_ok, !one_of_spec.
  unfold aggressiveness_valid, capacity_action_valid. rewrite !eqb3_spec.
  pose proof (carriers_check (Carriers p)) as Hc. split.
  - intros (?&?&?&?&?&?&?&?&?&?). constructor; try done. by apply Hc.
  - intros []. apply Hc in ok_carriers0 as [? ?]. by split_and!.
Qed.

(** The defaults a new node starts with are accepted. *)
Lemma DefaultWebPolicy_valid : Validate DefaultWebPolicy = None.
Proof. by vm_compute. Qed.

End Policy.

Module Limits.

(** Node-wide ceilings of [web.limits]; they change only with a restart. *)
Record WebGlobalLimits := {
  g_MaxSessions : Z;
  g_MaxStreams : Z;
  g_MaxStreamsPerSession : Z
}.

Definition DefaultWebGlobalLimits : WebGlobalLimits :=
  {| g_MaxSessions := 128; g_MaxStreams := 4096; g_MaxStreamsPerSession := 128 |}.

(** Per-profile limits; zero means not set. *)
Record WebProfileLimits := {
  MaxSessions : Z;
  MaxStreams : Z;
  MaxStreamsPerSession : Z
}.

Local Open Scope go_scope.

Definition check (name : string) (v ceiling : Z) : option error :=
  if v <? 0 then Some (name +:+ ": must not be negative")
  else if (v >? 0) && (ceiling >? 0) && (v >? ceiling)
  then Some (name +:+ ": " +:+ Dec.itoa v +:+ " is above the node's ceiling of " +:+ Dec.itoa ceiling
               +:+ "; raise the node limit first, which needs a restart")
  else None.

Definition Validate (l : WebProfileLimits) (g : WebGlobalLimits) : option error :=
  check "max_sessions" (MaxSessions l) (g_MaxSessions g)
  ;;? check "max_streams" (MaxStreams l) (g_MaxStreams g)
  ;;? check "max_streams_per_session" (MaxStreamsPerSession l) (g_MaxStreamsPerSession g).

(** A limit is within a ceiling: not negative, and not above a ceiling that is set. *)
Definition within (v ceiling : Z) : Prop := 0 <= v /\ (0 < ceiling -> v <= ceiling).

Lemma check_None name v ceiling : check name v ceiling = None <-> within v ceiling.
Proof.
  unfold check, within. destruct (Z.ltb_spec v 0) as [H|H]; [split; [done|lia]|].
  destruct ((v >? 0) && (ceiling >? 0) && (v >? ceiling)) eqn:E; bprop.
  - split; [done|lia].
  - split; [|done]. intros _. split; [done|]. intros Hc.
    destruct E as [E|E]; bprop; [destruct E as [E|E]; bprop|]; lia.
Qed.

(** A profile's limits are accepted exactly when none is negative and none
    exceeds a ceiling the node is running with. *)
Theorem Validate_iff_within l g :
  Validate l g = None <->
  within (MaxSessions l) (g_MaxSessions g) /\
  within (MaxStreams l) (g_MaxStreams g) /\
  within (MaxStreamsPerSession l) (g_MaxStreamsPerSession g).
Proof. unfold Validate. by rewrite !or_else_None, !check_None. Qed.

End Limits.

Module Capacity.

Definition WebCapacityStandard : Z := 128.
Definition WebCapacityPresets : list Z := [128; 256; 512; 1024; 2048].
Definition MaxNodeProfiles : Z := 1024.
Definition TelemtDefaultMaxProfiles : Z := 32.
Definition WebServiceProfiles : Z := 1.

Definition WebMaxProfiles (maxProfiles : Z) : Z := maxProfiles + WebServiceProfiles.

Record WebLimits := {
  MaxSessionsGlobal : Z;
  MaxSessionsPerIP : Z;
  MaxStreamsGlobal : Z;
  MaxHTTPConnections : Z;
  MaxHTTPHandlers : Z;
  MaxHTTPOverloadConnections : Z;
  MaxBootstrapsGlobal : Z;
  MaxBootstrapsPerIP : Z;
  NewBootstrapsPerMinute : Z;
  NewBootstrapsBurst : Z;
  NewSessionsPerMinute : Z;
  NewSessionsBurst : Z;
  NewStreamsPerMinute : Z;
  NewStreamsBurst : Z;
  MaxStreamHandshakes : Z;
  MaxBodyReaders : Z;
  MaxBodyBytesGlobal : Z;
  MaxTombstonesPerSession : Z;
  ControlBytesGlobal : Z;
  PendingBytesGlobal : Z;
  PendingItemsGlobal : Z;
  WebsocketBytesGlobal : Z;
  MemoryEnvelopeBytes : Z
}.

Record WebCapacity := {
  cap_Limits : WebLimits;
  MaxConnections : Z
}.

Definition mib : Z := 1024 * 1024.

Definition webCapacityPresets : gmap Z WebCapacity := list_to_map [
  (128, {| MaxConnections := 10000; cap_Limits := {|
    MaxSessionsGlobal := 128; MaxSessionsPerIP := 16; MaxStreamsGlobal := 4096;
    MaxHTTPConnections := 1024; MaxHTTPHandlers := 512; MaxHTTPOverloadConnections := 64;
    MaxBootstrapsGlobal := 512; MaxBootstrapsPerIP := 64;
    NewBootstrapsPerMinute := 1200; NewBootstrapsBurst := 256;
    NewSessionsPerMinute := 600; NewSessionsBurst := 128;
    NewStreamsPerMinute := 6000; NewStreamsBurst := 512;
    MaxStreamHandshakes := 256; MaxTombstonesPerSession := 4096; MaxBodyReaders := 32; MaxBodyBytesGlobal := 64 * mib;
    ControlBytesGlobal := 16 * mib; PendingBytesGlobal := 512 * mib; PendingItemsGlobal := 256 * 1024;
    WebsocketBytesGlobal := 256 * mib; MemoryEnvelopeBytes := 1280 * mib |} |});
  (256, {| MaxConnections := 15000; cap_Limits := {|
    MaxSessionsGlobal := 256; MaxSessionsPerIP := 32; MaxStreamsGlobal := 8192;
    MaxHTTPConnections := 2048; MaxHTTPHandlers := 1024; MaxHTTPOverloadConnections := 128;
    MaxBootstrapsGlobal := 1024; MaxBootstrapsPerIP := 128;
    NewBootstrapsPerMinute := 2400; NewBootstrapsBurst := 512;
    NewSessionsPerMinute := 1200; NewSessionsBurst := 256;
    NewStreamsPerMinute := 12000; NewStreamsBurst := 1024;
    MaxStreamHandshakes := 512; MaxTombstonesPerSession := 2048; MaxBodyReaders := 64; MaxBodyBytesGlobal := 128 * mib;
    ControlBytesGlobal := 32 * mib; PendingBytesGlobal := 640 * mib; PendingItemsGlobal := 512 * 1024;
    WebsocketBytesGlobal := 320 * mib; MemoryEnvelopeBytes := 1536 * mib |} |});
  (512, {| MaxConnections := 20000; cap_Limits := {|
    MaxSessionsGlobal := 512; MaxSessionsPerIP := 48; MaxStreamsGlobal := 16384;
    MaxHTTPConnections := 4096; MaxHTTPHandlers := 2048; MaxHTTPOverloadConnections := 256;
    MaxBootstrapsGlobal := 2048; MaxBootstrapsPerIP := 192;
    NewBootstrapsPerMinute := 4800; NewBootstrapsBurst := 1024;
    NewSessionsPerMinute := 2400; NewSessionsBurst := 512;
    NewStreamsPerMinute := 24000; NewStreamsBurst := 2048;
    MaxStreamHandshakes := 1024; MaxTombstonesPerSession := 1024; MaxBodyReaders := 128; MaxBodyBytesGlobal := 256 * mib;
    ControlBytesGlobal := 64 * mib; PendingBytesGlobal := 768 * mib; PendingItemsGlobal := 1024 * 1024;
    WebsocketBytesGlobal := 384 * mib; MemoryEnvelopeBytes := 2048 * mib |} |});
  (1024, {| MaxConnections := 40000; cap_Limits := {|
    MaxSessionsGlobal := 1024; MaxSessionsPerIP := 64; MaxStreamsGlobal := 32768;
    MaxHTTPConnections := 8192; MaxHTTPHandlers := 4096; MaxHTTPOverloadConnections := 512;
    MaxBootstrapsGlobal := 4096; MaxBootstrapsPerIP := 256;
    NewBootstrapsPerMinute := 9600; NewBootstrapsBurst := 2048;
    NewSessionsPerMinute := 4800; NewSessionsBurst := 1024;
    NewStreamsPerMinute := 48000; NewStreamsBurst := 4096;
    MaxStreamHandshakes := 2048; MaxTombstonesPerSession := 512; MaxBodyReaders := 256; MaxBodyBytesGlobal := 512 * mib;
    ControlBytesGlobal := 128 * mib; PendingBytesGlobal := 1024 * mib; PendingItemsGlobal := 2048 * 1024;
    WebsocketBytesGlobal := 512 * mib; MemoryEnvelopeBytes := 2560 * mib |} |});
  (2048, {| MaxConnections := 80000; cap_Limits := {|
    MaxSessionsGlobal := 2048; MaxSessionsPerIP := 96; MaxStreamsGlobal := 65536;
    MaxHTTPConnections := 16384; MaxHTTPHandlers := 8192; MaxHTTPOverloadConnections := 1024;
    MaxBootstrapsGlobal := 8192; MaxBootstrapsPerIP := 384;
    NewBootstrapsPerMinute := 19200; NewBootstrapsBurst := 4096;
    NewSessionsPerMinute := 9600; NewSessionsBurst := 2048;
    NewStreamsPerMinute := 96000; NewStreamsBurst := 8192;
    MaxStreamHandshakes := 4096; MaxTombstonesPerSession := 256; MaxBodyReaders := 512; MaxBodyBytesGlobal := 1024 * mib;
    ControlBytesGlobal := 256 * mib; PendingBytesGlobal := 1536 * mib; PendingItemsGlobal := 4096 * 1024;
    WebsocketBytesGlobal := 768 * mib; MemoryEnvelopeBytes := 4032 * mib |} |})
].

Definition ValidWebCapacity (n : Z) : bool :=
  match webCapacityPresets !! n with Some _ => true | None => false end.

Definition WebCapacityPreset (n : Z) : option WebCapacity := webCapacityPresets !! n.

(** The limits as telemt keys, in a stable order. *)
Definition Fields (l : WebLimits) : list (string * Z) := [
  ("max_sessions_global", MaxSessionsGlobal l);
  ("max_sessions_per_ip", MaxSessionsPerIP l);
  ("max_streams_global", MaxStreamsGlobal l);
  ("max_http_connections", MaxHTTPConnections l);
  ("max_http_handlers", MaxHTTPHandlers l);
  ("max_http_overload_connections", MaxHTTPOverloadConnections l);
  ("max_bootstraps_global", MaxBootstrapsGlobal l);
  ("max_bootstraps_per_ip", MaxBootstrapsPerIP l);
  ("new_bootstraps_per_minute", NewBootstrapsPerMinute l);
  ("new_bootstraps_burst", NewBootstrapsBurst l);
  ("new_sessions_per_minute", NewSessionsPerMinute l);
  ("new_sessions_burst", NewSessionsBurst l);
  ("new_streams_per_minute", NewStreamsPerMinute l);
  ("new_streams_burst", NewStreamsBurst l);
  ("max_stream_handshakes", MaxStreamHandshakes l);
  ("max_body_readers", MaxBodyReaders l);
  ("max_body_bytes_global", MaxBodyBytesGlobal l);
  ("max_tombstones_per_session", MaxTombstonesPerSession l);
  ("control_bytes_global", ControlBytesGlobal l);
  ("pending_bytes_global", PendingBytesGlobal l);
  ("pending_items_global", PendingItemsGlobal l);
  ("websocket_bytes_global", WebsocketBytesGlobal l);
  ("memory_envelope_bytes", MemoryEnvelopeBytes l)
]%string.

(** ** Coherence of the presets *)

(** The sizing rules every preset obeys.  The largest preset stays below
    telemt's 4 GiB memory envelope, and the envelope of each preset covers
    the byte budgets it hands out. *)
Definition coherent (n : Z) (c : WebCapacity) : bool :=
  let l := cap_Limits c in
  (MaxSessionsGlobal l =? n) &&
  (MaxStreamsGlobal l =? 32 * n) &&
  (MaxSessionsPerIP l <=? MaxSessionsGlobal l) &&
  (MaxBootstrapsPerIP l <=? MaxBootstrapsGlobal l) &&
  (MaxHTTPHandlers l <=? MaxHTTPConnections l) &&
  (MaxHTTPConnections l <=? MaxConnections c) &&
  (MaxTombstonesPerSession l * MaxSessionsGlobal l =? 4096 * 128) &&
  (MaxBodyReaders l * (2 * mib) =? MaxBodyBytesGlobal l) &&
  (ControlBytesGlobal l + PendingBytesGlobal l + WebsocketBytesGlobal l <=? MemoryEnvelopeBytes l) &&
  (MemoryEnvelopeBytes l <? 4096 * mib) &&
  forallb (fun f => (0 <? f.2) && (f.2 <=? Dec.max_int64)) (Fields l).

(** The limits that may only grow from one preset to the next: all but the
    tombstones, which shrink so that their total stays constant. *)
Definition grows (a b : WebCapacity) : bool :=
  (MaxConnections a <? MaxConnections b) &&
  forallb (fun '((k, x), (_, y)) =>
             if String.eqb k "max_tombstones_per_session" then y <? x else x <? y)
    (zip (Fields (cap_Limits a)) (Fields (cap_Limits b))).

Lemma preset_cases n c :
  webCapacityPresets !! n = Some c -> n = 128 \/ n = 256 \/ n = 512 \/ n = 1024 \/ n = 2048.
Proof.
  unfold webCapacityPresets. cbn [list_to_map foldr fst snd uncurry].
  rewrite !lookup_insert. repeat case_decide; subst; try tauto. by rewrite lookup_empty.
Qed.

Lemma preset_in_table n : ValidWebCapacity n = true <-> n ∈ WebCapacityPresets.
Proof.
  unfold ValidWebCapacity, WebCapacityPresets. rewrite !elem_of_cons, elem_of_nil. split.
  - destruct (webCapacityPresets !! n) eqn:E; [|done]. apply preset_cases in E. tauto.
  - intros [->|[->|[->|[->|[->|[]]]]]]; by vm_compute.
Qed.

(** The table is closed, so its properties are evaluated entry by entry. *)
Lemma table_coherent :
  forallb (fun n => match webCapacityPresets !! n with Some c => coherent n c | None => false end)
    WebCapacityPresets = true.
Proof. by vm_compute. Qed.

Lemma table_grows :
  forallb (fun m => forallb (fun n =>
      match webCapacityPresets !! m, webCapacityPresets !! n with
      | Some a, Some b => implb (m <? n) (grows a b)
      | _, _ => false
      end) WebCapacityPresets) WebCapacityPresets = true.
Proof. by vm_compute. Qed.

Lemma preset_listed n c : webCapacityPresets !! n = Some c -> In n WebCapacityPresets.
Proof. intros H. apply preset_cases in H. cbn. naive_solver. Qed.

(** Exactly the sizes offered to the operator have a preset, and each
    preset is coherent: its ceilings are consistent with each other, its byte
    budgets fit its memory envelope, and every limit is a positive 64-bit value. *)
Theorem presets_coherent n :
  (ValidWebCapacity n = true <-> n ∈ WebCapacityPresets) /\
  (forall c, WebCapacityPreset n = Some c -> coherent n c = true).
Proof.
  split; [apply preset_in_table|]. unfold WebCapacityPreset. intros c H.
  pose proof (proj1 (forallb_forall _ _) table_coherent n (preset_listed n c H)) as Hc.
  cbv beta in Hc. by rewrite H in Hc.
Qed.

(** A larger preset has strictly larger limits, so raising the capacity of
    a node never lowers one of its ceilings other than the tombstones. *)
Theorem presets_grow m n a b :
  WebCapacityPreset m = Some a -> WebCapacityPreset n = Some b -> m < n -> grows a b = true.
Proof.
  unfold WebCapacityPreset. intros Ha Hb Hlt.
  pose proof (proj1 (forallb_forall _ _) table_grows m (preset_listed m a Ha)) as H.
  cbv beta in H. rewrite forallb_forall in H. specialize (H n (preset_listed n b Hb)).
  rewrite Ha, Hb in H. rewrite (proj2 (Z.ltb_lt m n) Hlt) in H. exact H.
Qed.

Lemma presets_grow_witness :
  exists a b, WebCapacityPreset 128 = Some a /\ WebCapacityPreset 2048 = Some b /\ grows a b = true.
Proof.
  eexists _, _. split; [by vm_compute|]. split; [by vm_compute|].
  apply (presets_grow 128 2048); [by vm_compute|by vm_compute|lia].
Defined.

End Capacity.
