(* ===== verification/DomainTypes.v ===== *)
(** * Entity types and validation rules

    internal/domain/types.go: key, node and limit types with their validation
    ([Module Types]), hostnames and secrets ([Module Names]) and the calendar
    periods of a traffic quota ([Module Quota]).
    internal/domain/diagnostics.go: the tally of a diagnostics run
    ([Module Diagnostics]). *)

From S2P Require Import Prelude Regex Calendar.

Module Types.

Definition AllCarrierModes : list string := ["https"; "https-lanes"; "websocket"; "websocket-lanes"]%string.

Definition carrier_mode_valid (c : string) : bool := existsb (String.eqb c) AllCarrierModes.

Definition engine_valid (e : string) : bool := String.eqb e "tproxy" || String.eqb e "telemt".

(** Per-profile limits of the relay; zero means inherit. *)
Record ProfileLimits := {
  MaxSessions : Z;
  MaxStreams : Z;
  MaxBackendDialsInFlight : Z;
  NewSessionsPerMinute : Z;
  NewSessionsBurst : Z;
  NewStreamsPerMinute : Z;
  NewStreamsBurst : Z;
  MaxStreamsPerSession : Z;
  MaxPendingPerSession : Z
}.

Definition MaxTelemtQuotaBytes : Z := 100 * 1024 * 1024 * 1024 * 1024.
Definition MaxTelemtCounter : Z := 1000000.
Definition MaxTelemtRateBps : Z := 100000000000.

Definition QuotaPeriodNone : string := EmptyString.
Definition QuotaPeriodWeek : string := "week".
Definition QuotaPeriodMonth : string := "month".

Definition quota_period_valid (p : string) : bool :=
  String.eqb p QuotaPeriodNone || String.eqb p QuotaPeriodWeek || String.eqb p QuotaPeriodMonth.

(** Per-user limits of telemt. *)
Record TelemtLimits := {
  DataQuotaBytes : Z;
  RateLimitUpBps : Z;
  RateLimitDownBps : Z;
  MaxUniqueIPs : Z;
  MaxTCPConns : Z;
  DataQuotaPeriod : string
}.

Local Open Scope go_scope.

Section Validate.
Context `{MapOrder}.

Definition validate_profile_limits (l : ProfileLimits) : option error :=
  first_error (fun '(name, v) => fail_if (v <? 0) (name +:+ " must be >= 0"))
    (range_order [
      ("max_sessions", MaxSessions l); ("max_streams", MaxStreams l);
      ("max_backend_dials_in_flight", MaxBackendDialsInFlight l);
      ("new_sessions_per_minute", NewSessionsPerMinute l); ("new_sessions_burst", NewSessionsBurst l);
      ("new_streams_per_minute", NewStreamsPerMinute l); ("new_streams_burst", NewStreamsBurst l);
      ("max_streams_per_session", MaxStreamsPerSession l);
      ("max_pending_per_session", MaxPendingPerSession l)]%string)
  ;;? fail_if ((MaxStreams l >? 0) && (MaxStreamsPerSession l >? MaxStreams l))
        "max_streams_per_session must not exceed max_streams"
  ;;? fail_if ((MaxStreams l >? 0) && (MaxBackendDialsInFlight l >? MaxStreams l))
        "max_backend_dials_in_flight must not exceed max_streams".

Definition validate_telemt_limits (l : TelemtLimits) : option error :=
  first_error (fun '(name, v) => fail_if (v <? 0) (name +:+ " must be >= 0"))
    (range_order [
      ("data_quota_bytes", DataQuotaBytes l); ("rate_limit_up_bps", RateLimitUpBps l);
      ("rate_limit_down_bps", RateLimitDownBps l); ("max_unique_ips", MaxUniqueIPs l);
      ("max_tcp_conns", MaxTCPConns l)]%string)
  ;;? fail_if (DataQuotaBytes l >? MaxTelemtQuotaBytes)
        ("data_quota_bytes must not exceed " +:+ Dec.itoa MaxTelemtQuotaBytes +:+ " (100 TB)")
  ;;? first_error (fun '(name, v) => fail_if (v >? MaxTelemtRateBps)
        (name +:+ " must not exceed " +:+ Dec.itoa MaxTelemtRateBps +:+ " (100 Gbit/s)"))
      (range_order [("rate_limit_up_bps", RateLimitUpBps l);
                    ("rate_limit_down_bps", RateLimitDownBps l)]%string)
  ;;? first_error (fun '(name, v) => fail_if (v >? MaxTelemtCounter)
        (name +:+ " must not exceed " +:+ Dec.itoa MaxTelemtCounter))
      (range_order [("max_unique_ips", MaxUniqueIPs l); ("max_tcp_conns", MaxTCPConns l)]%string)
  ;;? fail_if (negb (quota_period_valid (DataQuotaPeriod l)))
        "data_quota_period must be empty, week or month"
  ;;? fail_if (negb (String.eqb (DataQuotaPeriod l) QuotaPeriodNone) && (DataQuotaBytes l =? 0))
        "data_quota_period needs data_quota_bytes".

(** Whatever order the limits are visited in, the relay's per-profile
    limits are accepted exactly when none is negative and the per-session
    streams and the backend dials fit under a stream ceiling that is set. *)
Theorem validate_profile_limits_iff l :
  validate_profile_limits l = None <->
  Forall (fun v => 0 <= v) [MaxSessions l; MaxStreams l; MaxBackendDialsInFlight l;
    NewSessionsPerMinute l; NewSessionsBurst l; NewStreamsPerMinute l; NewStreamsBurst l;
    MaxStreamsPerSession l; MaxPendingPerSession l] /\
  (0 < MaxStreams l -> MaxStreamsPerSession l <= MaxStreams l /\ MaxBackendDialsInFlight l <= MaxStreams l).
Proof.
  unfold validate_profile_limits.
  rewrite !or_else_None, first_error_range, !Forall_cons, !Forall_nil, !fail_if_None, !Z.ltb_ge,
    !andb_false_iff, !Zgtb_false.
  lia.
Qed.

(** Whatever order the limits are visited in, a user's telemt limits are
    accepted exactly when every one is within telemt's range and a reset period
    comes with a quota to reset. *)
Theorem validate_telemt_limits_iff l :
  validate_telemt_limits l = None <->
  0 <= DataQuotaBytes l <= MaxTelemtQuotaBytes /\
  0 <= RateLimitUpBps l <= MaxTelemtRateBps /\
  0 <= RateLimitDownBps l <= MaxTelemtRateBps /\
  0 <= MaxUniqueIPs l <= MaxTelemtCounter /\
  0 <= MaxTCPConns l <= MaxTelemtCounter /\
  quota_period_valid (DataQuotaPeriod l) = true /\
  (DataQuotaPeriod l <> QuotaPeriodNone -> DataQuotaBytes l <> 0).
Proof.
  unfold validate_telemt_limits.
  rewrite !or_else_None, !first_error_range, !Forall_cons, !Forall_nil, !fail_if_None, !Z.ltb_ge,
    !Zgtb_false, andb_false_iff, !negb_false_iff, String.eqb_eq, Z.eqb_neq.
  destruct (String.eqb_spec (DataQuotaPeriod l) QuotaPeriodNone); intuition (try congruence; lia).
Qed.

End Validate.
End Types.

Module Names.

(** The pattern of 32 lowercase hexadecimal characters. *)
Definition hex_class : class := [("0", "9"); ("a", "f")]%char.
Definition secretRe : re := exactly 32 (Cls hex_class).

Definition ValidateSecretHex (s : string) : option error :=
  if negb (accepts secretRe s) then Some "secret must be 32 lowercase hex characters" else None.

(** One DNS label: alphanumeric at both ends, hyphens only in between. *)
Definition edge_class : class := [("a", "z"); ("0", "9")]%char.
Definition inner_class : class := [("a", "z"); ("0", "9"); ("-", "-")]%char.
Definition labelRe : re :=
  Seq (Cls edge_class) (opt (Seq (upto 61 (Cls inner_class)) (Cls edge_class))).

Definition errHostname : string := "hostname must be a lowercase DNS name with a dot, labels of 1-63 chars starting and ending alphanumeric, no scheme or path".

Definition ValidateHostname (h : string) : option error :=
  if (Z.of_nat (String.length h) =? 0) || (Z.of_nat (String.length h) >? 253) ||
     negb (Str.contains_byte h ".")
  then Some errHostname
  else first_error (fun label => fail_if (negb (accepts labelRe label)) errHostname) (Str.split "." h).

(** The profile name of a key, from the text of its UUID: a k and the first
    twelve characters that are not hyphens. *)
Fixpoint remove_byte (b : ascii) (s : string) : string :=
  match s with
  | EmptyString => EmptyString
  | String c s => if Ascii.eqb c b then remove_byte b s else String c (remove_byte b s)
  end.

Definition ProfileName (keyID : string) : string :=
  String "k" (Str.take 12 (remove_byte "-" keyID)).

(** ** What the patterns accept *)

Definition edge (c : ascii) : Prop := in_class c edge_class = true.
Definition inner (c : ascii) : Prop := in_class c inner_class = true.

(** A DNS label in the words of the rule. *)
Definition label_ok (w : list ascii) : Prop :=
  (1 <= length w <= 63)%nat /\ Forall inner w /\
  (exists c, head w = Some c /\ edge c) /\ (exists c, last w = Some c /\ edge c).

Lemma edge_inner c : edge c -> inner c.
Proof.
  unfold edge, inner, in_class, edge_class, inner_class. cbn [existsb].
  destruct (in_range c ("a", "z")%char), (in_range c ("0", "9")%char); done.
Qed.

Lemma labelRe_spec w : lang labelRe w <-> label_ok w.
Proof.
  unfold labelRe, opt. rewrite lang_Seq_inv. split.
  - intros (u & v & -> & (c & -> & Hc)%lang_Cls_inv & Hv). rewrite lang_Alt_inv in Hv.
    destruct Hv as [->%lang_Eps_inv|(m & e & -> & [Hl Hm]%lang_upto_Cls & (d & -> & Hd)%lang_Cls_inv)%lang_Seq_inv].
    + unfold label_ok. cbn. split_and!; [lia..| |by exists c|by exists c].
      constructor; [by apply edge_inner|constructor].
    + unfold label_ok. rewrite !length_app. cbn [length]. split_and!; [lia..| |by exists c|].
      * apply Forall_app. split; [by repeat constructor; apply edge_inner|].
        apply Forall_app. split; [done|]. by repeat constructor; apply edge_inner.
      * exists d. by rewrite app_assoc, last_snoc.
  - intros ([Hlo Hhi] & Hin & (c & Hh & Hc) & (d & Hd & Hed)).
    destruct w as [|c' w]; [done|]. injection Hh as ->. exists [c], w.
    split; [done|]. split; [by constructor|]. rewrite lang_Alt_inv.
    destruct w as [|x w] using rev_ind; [left; constructor|right].
    rewrite app_comm_cons, last_snoc in Hd. injection Hd as ->.
    apply Forall_cons in Hin as [_ [Hm _]%Forall_app].
    cbn in Hhi. rewrite length_app in Hhi. cbn in Hhi.
    apply lang_Seq_inv. exists w, [d]. split; [done|]. split; [|by constructor].
    apply lang_upto_Cls. split; [lia|done].
Qed.

(** A hostname is accepted exactly when it is at most 253 bytes, has a dot
    and every dot-separated label is a lowercase DNS label of 1 to 63 bytes
    that starts and ends alphanumeric. *)
Theorem ValidateHostname_iff h :
  ValidateHostname h = None <->
  (1 <= String.length h <= 253)%nat /\ Str.contains_byte h "." = true /\
  Forall (fun label => label_ok (Str.bytes label)) (Str.split "." h).
Proof.
  unfold ValidateHostname.
  destruct (Z.eqb_spec (Z.of_nat (String.length h)) 0); cbn [orb]; [split; [done|lia]|].
  destruct (Z.of_nat (String.length h) >? 253) eqn:E; cbn [orb]; bprop; [split; [done|lia]|].
  destruct (Str.contains_byte h "."); cbn [negb]; [|split; [done|by intros (_ & ? & _)]].
  rewrite first_error_None.
  assert (Hf : Forall (fun l => fail_if (negb (accepts labelRe l)) errHostname = None) (Str.split "." h) <->
               Forall (fun label => label_ok (Str.bytes label)) (Str.split "." h)).
  { apply Forall_iff. intros l. by rewrite fail_if_None, negb_false_iff, accepts_spec, labelRe_spec. }
  rewrite Hf. split; [|tauto]. intros HF. split_and!; [lia..|done|done].
Qed.

(** A secret is accepted exactly when it is 32 lowercase hexadecimal characters. *)
Theorem ValidateSecretHex_iff s :
  ValidateSecretHex s = None <->
  String.length s = 32%nat /\ Forall (fun c => in_class c hex_class = true) (Str.bytes s).
Proof.
  unfold ValidateSecretHex.
  assert (Hlen : length (Str.bytes s) = String.length s) by (induction s; cbn; auto).
  rewrite <- Hlen, <- lang_exactly_Cls. fold secretRe. rewrite <- accepts_spec.
  by destruct (accepts secretRe s).
Qed.

End Names.

Module Quota.
Import Types.

(** The beginning of the period containing [t]; the zero time when the period
    never resets. *)
Definition Start (p : string) (t : Z) : Z :=
  let '(y, m, d) := Cal.civil (Cal.day_of t) in
  let day := Cal.date y m d in
  if String.eqb p QuotaPeriodWeek
  then Cal.add_date day 0 0 (- ((Cal.weekday (Cal.day_of day) + 6) mod 7))
  else if String.eqb p QuotaPeriodMonth then Cal.date y m 1
  else Tm.zero.

(** The start of the period after the one containing [t]. *)
Definition Next (p : string) (t : Z) : Z :=
  let start := Start p t in
  if String.eqb p QuotaPeriodWeek then Cal.add_date start 0 0 7
  else if String.eqb p QuotaPeriodMonth then Cal.add_date start 0 1 0
  else Tm.zero.

Lemma day_pos : 0 < Tm.day.
Proof. time_lia. Qed.

Lemma date_days y m d k : Cal.date y m (d + k) = Cal.date y m d + k * Tm.day.
Proof.
  unfold Cal.date, Cal.day_number. rewrite <- Z.mul_add_distr_r. f_equal.
  destruct (_ <=? _); lia.
Qed.

Lemma date_civil z : let '(y, m, d) := Cal.civil z in Cal.date y m d = z * Tm.day.
Proof.
  pose proof (Cal.civil_valid z) as H. destruct (Cal.civil z) as [[y m] d].
  destruct H as (Hm & _ & Hz). unfold Cal.date. rewrite <- Hz. f_equal.
  rewrite Z.div_small, Z.mod_small by lia. f_equal; lia.
Qed.

Lemma day_of_day z : Cal.day_of (z * Tm.day) = z.
Proof. unfold Cal.day_of. apply Z.div_mul. pose proof day_pos. lia. Qed.

Lemma add_days z k : Cal.add_date (z * Tm.day) 0 0 k = (z + k) * Tm.day.
Proof.
  unfold Cal.add_date. rewrite day_of_day. pose proof (date_civil z) as H.
  destruct (Cal.civil z) as [[y m] d]. rewrite !Z.add_0_r, date_days, H. ring.
Qed.

Definition monday (z : Z) : Z := z - (Cal.weekday z + 6) mod 7.

Lemma Start_week t : Start QuotaPeriodWeek t = monday (Cal.day_of t) * Tm.day.
Proof.
  unfold Start, monday. pose proof (date_civil (Cal.day_of t)) as H.
  destruct (Cal.civil (Cal.day_of t)) as [[y m] d]. rewrite H, day_of_day. cbn [String.eqb].
  change (String.eqb QuotaPeriodWeek QuotaPeriodWeek) with true. cbv iota. by rewrite add_days.
Qed.

Lemma Start_month t : Start QuotaPeriodMonth t = Cal.month_start (Cal.day_of t) * Tm.day.
Proof.
  unfold Start, Cal.month_start. pose proof (Cal.civil_valid (Cal.day_of t)) as H.
  destruct (Cal.civil (Cal.day_of t)) as [[y m] d].
  change (String.eqb QuotaPeriodMonth QuotaPeriodWeek) with false.
  change (String.eqb QuotaPeriodMonth QuotaPeriodMonth) with true. cbv iota.
  unfold Cal.date. rewrite Z.div_small, Z.mod_small by lia. f_equal. f_equal; lia.
Qed.

Lemma Next_week t : Next QuotaPeriodWeek t = (monday (Cal.day_of t) + 7) * Tm.day.
Proof. unfold Next. rewrite Start_week. apply add_days. Qed.

Lemma Next_month t : Next QuotaPeriodMonth t = Cal.next_month (Cal.day_of t) * Tm.day.
Proof.
  unfold Next. change (String.eqb QuotaPeriodMonth QuotaPeriodWeek) with false.
  change (String.eqb QuotaPeriodMonth QuotaPeriodMonth) with true. cbv iota.
  rewrite Start_month. unfold Cal.add_date. rewrite day_of_day.
  destruct (Cal.march_day_of (Cal.day_of t)) as (era & a & mp & d & H & E). rewrite E.
  rewrite Cal.month_start_march by done.
  assert (H1 : Cal.in_month a mp 1).
  { destruct H as (? & ? & ? & ?). unfold Cal.in_month. split_and!; [lia..|]. destruct (mp =? 11); lia. }
  rewrite Cal.civil_march by done. rewrite Cal.next_month_march with (d := d) by done.
  rewrite <- (Cal.next_month_march era a mp 1) by done.
  unfold Cal.next_month. rewrite Cal.civil_march by done. unfold Cal.date.
  f_equal. f_equal; try lia.
  - rewrite Z.add_0_r. f_equal. f_equal. lia.
  - f_equal. f_equal. lia.
Qed.

Lemma monday_bounds z : monday z <= z < monday z + 7.
Proof. unfold monday. pose proof (Z.mod_pos_bound (Cal.weekday z + 6) 7). lia. Qed.

Lemma monday_const z u : monday z <= u < monday z + 7 -> monday u = monday z.
Proof. unfold monday, Cal.weekday. intros. Z.to_euclidean_division_equations. lia. Qed.

Lemma day_of_bounds t : Cal.day_of t * Tm.day <= t < (Cal.day_of t + 1) * Tm.day.
Proof.
  unfold Cal.day_of. pose proof day_pos as Hd. pose proof (Z.div_mod t Tm.day) as E.
  pose proof (Z.mod_pos_bound t Tm.day Hd). lia.
Qed.

(** Days and instants: an instant of a whole-day interval has its day in it. *)
Lemma day_of_range a b t : a * Tm.day <= t < b * Tm.day <-> a <= Cal.day_of t < b.
Proof. pose proof (day_of_bounds t). pose proof day_pos. split; nia. Qed.

(** The weekly and monthly periods tile time: an instant lies in its own
    period, every instant of the period agrees on where it starts and ends, and
    the end of a period is the start of the next one, so a quota is reset
    exactly once per period. *)
Theorem periods_tile p t :
  p = QuotaPeriodWeek \/ p = QuotaPeriodMonth ->
  Start p t <= t < Next p t /\
  (forall u, Start p t <= u < Next p t -> Start p u = Start p t /\ Next p u = Next p t) /\
  Start p (Next p t) = Next p t.
Proof.
  intros [->| ->].
  - rewrite Start_week, Next_week. split; [apply day_of_range, monday_bounds|split].
    + intros u Hu%day_of_range. by rewrite Start_week, Next_week, (monday_const (Cal.day_of t)).
    + rewrite Start_week, day_of_day. f_equal.
      unfold monday, Cal.weekday. Z.to_euclidean_division_equations. lia.
  - rewrite Start_month, Next_month. split; [apply day_of_range, Cal.month_bounds|split].
    + intros u Hu%day_of_range. rewrite Start_month, Next_month.
      by destruct (Cal.month_const _ _ Hu) as [-> ->].
    + by rewrite Start_month, day_of_day, Cal.month_start_next.
Qed.

(** 15 February 2024, 12:00 UTC lies in the month that ends on 1 March. *)
Lemma periods_tile_witness :
  let t := 19768 * Tm.day + 12 * Tm.hour in
  Next QuotaPeriodMonth t = 19783 * Tm.day /\
  (Start QuotaPeriodMonth t <= t < Next QuotaPeriodMonth t /\
   (forall u, Start QuotaPeriodMonth t <= u < Next QuotaPeriodMonth t ->
      Start QuotaPeriodMonth u = Start QuotaPeriodMonth t /\ Next QuotaPeriodMonth u = Next QuotaPeriodMonth t) /\
   Start QuotaPeriodMonth (Next QuotaPeriodMonth t) = Next QuotaPeriodMonth t).
Proof.
  split; [by vm_compute|]. apply (periods_tile QuotaPeriodMonth (19768 * Tm.day + 12 * Tm.hour)). by right.
Defined.

End Quota.

Module Diagnostics.

Definition CheckOK : string := "ok".
Definition CheckWarn : string := "warn".
Definition CheckFail : string := "fail".
Definition CheckNotAvailable : string := "not_available".

Record DiagnosticCheck := {
  c_Key : string;
  c_Status : string;
  c_Value : option string;
  c_Detail : option string
}.

Record DiagnosticGroup := { g_Key : string; g_Checks : list DiagnosticCheck }.

Record DiagnosticsRun := {
  Status : string;
  Groups : list DiagnosticGroup;
  Passed : Z;
  Total : Z;
  NotRun : Z
}.

(** The counters of the loop. *)
Record counts := { passed : Z; total : Z; not_run : Z; warned : Z; failed : Z }.

Definition count_check (n : counts) (c : DiagnosticCheck) : counts :=
  if String.eqb (c_Status c) CheckNotAvailable
  then {| passed := passed n; total := total n; not_run := not_run n + 1; warned := warned n; failed := failed n |}
  else {| passed := passed n + (if String.eqb (c_Status c) CheckOK then 1 else 0);
          total := total n + 1; not_run := not_run n;
          warned := warned n + (if String.eqb (c_Status c) CheckWarn then 1 else 0);
          failed := failed n + (if String.eqb (c_Status c) CheckFail then 1 else 0) |}.

Definition Tally (r : DiagnosticsRun) : DiagnosticsRun :=
  let n := fold_left (fun n g => fold_left count_check (g_Checks g) n) (Groups r)
             {| passed := 0; total := 0; not_run := 0; warned := 0; failed := 0 |} in
  {| Status := if total n =? 0 then "unknown"
               else if (failed n >? 0) || (warned n >? 0) then "degraded" else "healthy";
     Groups := Groups r; Passed := passed n; Total := total n; NotRun := not_run n |}.

Definition all_checks (r : DiagnosticsRun) : list DiagnosticCheck := Groups r ≫= g_Checks.

Definition has_status (s : string) (c : DiagnosticCheck) : bool := String.eqb (c_Status c) s.

Definition count (s : string) (l : list DiagnosticCheck) : Z :=
  Z.of_nat (length (List.filter (has_status s) l)).

Lemma count_cons s c l :
  count s (c :: l) = (if String.eqb (c_Status c) s then 1 else 0) + count s l.
Proof. unfold count. cbn [List.filter]. unfold has_status at 1. destruct (String.eqb _ _); cbn [length]; lia. Qed.

Lemma count_checks_spec l n :
  let n' := fold_left count_check l n in
  passed n' = passed n + count CheckOK l /\
  not_run n' = not_run n + count CheckNotAvailable l /\
  total n' = total n + (Z.of_nat (length l) - count CheckNotAvailable l) /\
  warned n' = warned n + count CheckWarn l /\
  failed n' = failed n + count CheckFail l.
Proof.
  cbv zeta. revert n. induction l as [|c l IH]; intros n; cbn [fold_left]; [unfold count; cbn [List.filter length]; split_and!; lia|].
  destruct (IH (count_check n c)) as (-> & -> & -> & -> & ->). clear IH.
  rewrite !count_cons. unfold count_check. cbn [length].
  destruct (String.eqb_spec (c_Status c) CheckNotAvailable) as [->|_].
  - change (String.eqb CheckNotAvailable CheckOK) with false.
    change (String.eqb CheckNotAvailable CheckWarn) with false.
    change (String.eqb CheckNotAvailable CheckFail) with false. cbn [passed not_run total warned failed]. lia.
  - cbn [passed not_run total warned failed]. lia.
Qed.

Lemma fold_groups gs n :
  fold_left (fun n g => fold_left count_check (g_Checks g) n) gs n =
  fold_left count_check (gs ≫= g_Checks) n.
Proof.
  revert n. induction gs as [|g gs IH]; intros n; cbn [fold_left]; [done|].
  by rewrite bind_cons, fold_left_app, IH.
Qed.

Lemma count_zero s l : count s l = 0 <-> Forall (fun c => c_Status c <> s) l.
Proof.
  induction l as [|c l IH]; [split; [constructor|done]|].
  rewrite Forall_cons, count_cons. assert (0 <= count s l) by (unfold count; lia).
  destruct (String.eqb_spec (c_Status c) s); [split; [lia|tauto]|rewrite Z.add_0_l; tauto].
Qed.

(** A tally counts each check once, as passed, otherwise run or not run;
    the run is unknown exactly when no check ran, healthy exactly when some ran
    and none warned or failed, so a check the panel could not perform never
    degrades a run and never makes one healthy. *)
Theorem Tally_spec r :
  let t := Tally r in let l := all_checks r in
  Passed t = count CheckOK l /\
  NotRun t = count CheckNotAvailable l /\
  Total t + NotRun t = Z.of_nat (length l) /\
  (Status t = "unknown"%string <-> Forall (fun c => c_Status c = CheckNotAvailable) l) /\
  (Status t = "healthy"%string <->
     Exists (fun c => c_Status c <> CheckNotAvailable) l /\
     Forall (fun c => c_Status c <> CheckWarn /\ c_Status c <> CheckFail) l).
Proof.
  cbv zeta. unfold Tally. rewrite fold_groups. fold (all_checks r). set (l := all_checks r).
  pose proof (count_checks_spec l {| passed := 0; total := 0; not_run := 0; warned := 0; failed := 0 |})
    as (Hp & Hn & Ht & Hw & Hf).
  set (n := fold_left count_check l _) in *. cbn in Hp, Hn, Ht, Hw, Hf. cbn [Passed NotRun Total Status].
  assert (Hall : total n = 0 <-> Forall (fun c => c_Status c = CheckNotAvailable) l).
  { rewrite Ht. clear. induction l as [|c l IH]; [split; [constructor|done]|].
    rewrite Forall_cons, count_cons. cbn [length].
    assert (count CheckNotAvailable l <= Z.of_nat (length l))
      by (unfold count; pose proof (List.filter_length_le (has_status CheckNotAvailable) l); lia).
    destruct (String.eqb_spec (c_Status c) CheckNotAvailable); [rewrite <- IH|];
      (split; [intros; try split; try done; lia|intros [? ?]; try done; lia]). }
  assert (Hsome : total n <> 0 <-> Exists (fun c => c_Status c <> CheckNotAvailable) l).
  { rewrite Hall. split; [apply not_Forall_Exists; intros c; apply String.string_dec|].
    intros He Hl. rewrite Exists_exists in He. rewrite Forall_forall in Hl. naive_solver. }
  assert (Hbad : failed n = 0 /\ warned n = 0 <->
                 Forall (fun c => c_Status c <> CheckWarn /\ c_Status c <> CheckFail) l).
  { rewrite Hf, Hw, !Z.add_0_l, !count_zero, Forall_and. tauto. }
  assert (Hpos : 0 <= failed n /\ 0 <= warned n) by (rewrite Hf, Hw; unfold count; lia).
  split_and!; [done|lia|lia|..].
  - rewrite <- Hall. destruct (Z.eqb_spec (total n) 0); [done|]. split; [|done]. by destruct (_ || _).
  - rewrite <- Hsome, <- Hbad. destruct (Z.eqb_spec (total n) 0); [split; [done|tauto]|].
    destruct (_ || _) eqn:E; bprop.
    + split; [done|]. destruct E; bprop; lia.
    + split; [|done]. intros _. lia.
Qed.

End Diagnostics.
