(* ===== verification/ApplySchedule.v ===== *)
(** * The background apply schedule

    internal/worker/applyschedule.go: which nodes have an apply running, and
    when a node whose apply failed may be tried again; the loop of
    internal/worker/apply.go that claims a slot, runs [ApplyNode] in a
    goroutine and gives the slot back ([Apply.spawn]).

    Every method of [applySchedule] holds the schedule's mutex from its first
    line to its last, so an execution is a sequence of whole method calls:
    [step] is the relation between the states before and after one of them,
    together with the goroutines that hold a slot. *)

From S2P Require Import Prelude.

Abbreviation uuid := N.

Definition maxBackgroundApplies : nat := 4.

Record applyRetry := {
  revision : Z;
  attempts : Z;
  after : Z
}.

Record applySchedule := {
  running : gmap uuid bool;
  retries : gmap uuid applyRetry
}.

(** The zero value: nil maps, read as empty. *)
Definition empty_schedule : applySchedule := {| running := ∅; retries := ∅ |}.

Definition claim (s : applySchedule) (id : uuid) (rev now : Z) : bool * applySchedule :=
  if default false (running s !! id) || (maxBackgroundApplies <=? size (running s))%nat
  then (false, s)
  else
    match retries s !! id with
    | Some retry =>
        if (revision retry =? rev) && Tm.before now (after retry) then (false, s)
        else
          let kept := if negb (revision retry =? rev) then delete id (retries s) else retries s in
          (true, {| running := <[id := true]> (running s); retries := kept |})
    | None => (true, {| running := <[id := true]> (running s); retries := retries s |})
    end.

(** The loop [for i := 1; i < attempt && ceiling < 15*time.Minute; i++]. *)
Fixpoint double_ceiling (n : nat) (ceiling : Z) : Z :=
  match n with
  | O => ceiling
  | S n => if ceiling <? 15 * Tm.minute then double_ceiling n (ceiling * 2) else ceiling
  end.

(** [draw n] is the outcome of [rand.Int64N(n)]. *)
Definition applyRetryDelay (draw : Z -> Z) (attempt : Z) : Z :=
  let ceiling := double_ceiling (Z.to_nat (attempt - 1)) (45 * Tm.second) in
  let ceiling := Z.min ceiling (15 * Tm.minute) in
  let floor := Z.max (45 * Tm.second) (ceiling / 2) in
  if floor =? ceiling then floor else floor + draw (ceiling - floor).

Definition finish (draw : Z -> Z) (s : applySchedule) (id : uuid) (rev now : Z) (failed : bool)
    : applySchedule :=
  let running' := delete id (running s) in
  if negb failed then {| running := running'; retries := delete id (retries s) |}
  else
    let retry := default {| revision := 0; attempts := 0; after := Tm.zero |} (retries s !! id) in
    let retry := if negb (revision retry =? rev)
                 then {| revision := rev; attempts := 0; after := Tm.zero |} else retry in
    let n := if attempts retry <? 10 then attempts retry + 1 else attempts retry in
    {| running := running';
       retries := <[id := {| revision := revision retry; attempts := n;
                             after := Tm.add now (applyRetryDelay draw n) |}]> (retries s) |}.

Definition forget (s : applySchedule) (id : uuid) : applySchedule :=
  {| running := running s; retries := delete id (retries s) |}.

(** ** The delay between attempts *)

Section Delay.
Context (draw : Z -> Z).

(** [rand.Int64N(n)] is in [0, n). *)
Hypothesis draw_range : forall n, 0 < n -> 0 <= draw n < n.

Lemma double_ceiling_bounds n c :
  45 * Tm.second <= c -> 45 * Tm.second <= double_ceiling n c.
Proof.
  revert c. induction n as [|n IH]; intros c Hc; cbn; [done|].
  destruct (c <? _); [|done]. apply IH. unfold_time. lia.
Qed.

(** The closed form of the loop: the ceiling doubles per attempt up to the first value past 15 minutes. *)
Lemma double_ceiling_closed n c :
  0 < c ->
  Z.min (double_ceiling n c) (15 * Tm.minute) = Z.min (c * 2 ^ Z.of_nat n) (15 * Tm.minute).
Proof.
  revert c. induction n as [|n IH]; intros c Hc; cbn [double_ceiling].
  - by rewrite Z.pow_0_r, Z.mul_1_r.
  - destruct (Z.ltb_spec c (15 * Tm.minute)).
    + rewrite IH by lia. rewrite Nat2Z.inj_succ, Z.pow_succ_r by lia. f_equal. ring.
    + assert (1 <= 2 ^ Z.of_nat (S n)) by (apply Z.pow_le_mono_r with (b := 0); lia). nia.
Qed.

(** The delay before retry number [attempt] is at least 45 seconds and at
    most 15 minutes, and it lies in the upper half of an interval that doubles
    with every attempt: between half of min(45s * 2^(attempt-1), 15min) and
    the whole of it. *)
Theorem applyRetryDelay_bounds attempt :
  1 <= attempt ->
  let ceiling := Z.min (45 * Tm.second * 2 ^ (attempt - 1)) (15 * Tm.minute) in
  45 * Tm.second <= applyRetryDelay draw attempt <= 15 * Tm.minute /\
  ceiling / 2 <= applyRetryDelay draw attempt <= ceiling.
Proof.
  intros Ha ceiling. unfold applyRetryDelay.
  rewrite double_ceiling_closed by (unfold_time; lia). rewrite Z2Nat.id by lia.
  fold ceiling.
  assert (45 * Tm.second <= ceiling <= 15 * Tm.minute) as Hc.
  { unfold ceiling. assert (1 <= 2 ^ (attempt - 1)) by (apply Z.pow_le_mono_r with (b := 0); lia).
    unfold_time. lia. }
  pose proof (Z.div_mod ceiling 2). pose proof (Z.mod_pos_bound ceiling 2).
  set (floor := Z.max (45 * Tm.second) (ceiling / 2)).
  destruct (Z.eqb_spec floor ceiling) as [E|E]; unfold floor in *.
  - unfold_time. lia.
  - pose proof (draw_range (ceiling - Z.max (45 * Tm.second) (ceiling / 2))) as Hd.
    unfold_time. lia.
Qed.

End Delay.

Lemma applyRetryDelay_bounds_witness :
  45 * Tm.second <= applyRetryDelay (fun _ => 0) 3 <= 15 * Tm.minute /\
  Z.min (45 * Tm.second * 2 ^ (3 - 1)) (15 * Tm.minute) / 2 <= applyRetryDelay (fun _ => 0) 3
    <= Z.min (45 * Tm.second * 2 ^ (3 - 1)) (15 * Tm.minute).
Proof. apply (applyRetryDelay_bounds (fun _ => 0)); lia. Defined.

(** ** What one call does *)

Lemma claim_granted s id rev now s' :
  claim s id rev now = (true, s') ->
  default false (running s !! id) = false /\
  (size (running s) < maxBackgroundApplies)%nat /\
  running s' = <[id := true]> (running s).
Proof.
  unfold claim. destruct (_ || _) eqn:E; [done|].
  apply orb_false_iff in E as [E1 E2]. apply Nat.leb_gt in E2.
  destruct (retries s !! id) as [r|]; [destruct (_ && _); [done|]|]; by intros [= <-].
Qed.

Lemma claim_refused s id rev now s' : claim s id rev now = (false, s') -> s' = s.
Proof.
  unfold claim. destruct (_ || _); [by intros [=]|].
  destruct (retries s !! id) as [r|]; [destruct (_ && _)|]; by intros [=].
Qed.

(** A claim is granted exactly when the node has no apply running, a slot is
    free, and no retry of the same revision is still waiting. *)
Lemma claim_iff s id rev now :
  (claim s id rev now).1 = true <->
  default false (running s !! id) = false /\
  (size (running s) < maxBackgroundApplies)%nat /\
  (forall r, retries s !! id = Some r -> revision r = rev -> after r <= now).
Proof.
  unfold claim.
  destruct (default false (running s !! id)); cbn [orb fst]; [by split; [|intros [? _]]|].
  destruct (Nat.leb_spec maxBackgroundApplies (size (running s))) as [H|H]; cbn [fst].
  { split; [done|lia]. }
  destruct (retries s !! id) as [r|]; cbn [fst].
  - destruct (Z.eqb_spec (revision r) rev) as [E|E]; cbn [andb fst].
    + unfold Tm.before. destruct (Z.ltb_spec now (after r)); cbn [fst].
      * split; [done|]. intros (_ & _ & Hr). specialize (Hr _ eq_refl E). lia.
      * split; [|done]. intros _. split_and!; [done|done|]. by intros ? [= <-].
    + split; [|done]. intros _. split_and!; [done|done|]. by intros ? [= <-].
  - split; [|done]. intros _. by split_and!.
Qed.

(** After a failed apply of one revision, a claim for the same revision is
    refused until the delay has passed, while a newer revision of the same node
    does not inherit the delay: it is granted as soon as a slot is free. *)
Theorem failed_apply_delays_only_its_revision draw s id rev now later rev' :
  (forall n, 0 < n -> 0 <= draw n < n) ->
  (forall r, retries s !! id = Some r -> 0 <= attempts r) ->
  (size (delete id (running s)) < maxBackgroundApplies)%nat ->
  let s' := finish draw s id rev now true in
  (later < now + 45 * Tm.second -> (claim s' id rev later).1 = false) /\
  (now + 15 * Tm.minute <= later -> (claim s' id rev later).1 = true) /\
  (rev' <> rev -> (claim s' id rev' later).1 = true).
Proof.
  intros Hd Hatt Hsize s'.
  assert (Hr : exists d n, retries s' !! id = Some {| revision := rev; attempts := n; after := now + d |} /\
                45 * Tm.second <= d <= 15 * Tm.minute).
  { unfold s', finish. cbn [negb retries]. rewrite lookup_insert_eq.
    set (r0 := default _ (retries s !! id)).
    assert (0 <= attempts r0) as H0.
    { unfold r0. destruct (retries s !! id) eqn:E; cbn; [by apply (Hatt a)|lia]. }
    destruct (Z.eqb_spec (revision r0) rev) as [E|E]; cbn [negb attempts revision].
    - do 2 eexists. rewrite E. split; [done|].
      apply applyRetryDelay_bounds; [done|]. destruct (Z.ltb_spec (attempts r0) 10); lia.
    - do 2 eexists. split; [done|]. apply applyRetryDelay_bounds; [done|]. cbn. lia. }
  destruct Hr as (d & n & Hr & Hb).
  assert (Hrun : running s' = delete id (running s)) by done.
  assert (Hfree : default false (running s' !! id) = false).
  { rewrite Hrun, lookup_delete_eq. done. }
  split_and!.
  - intros Hl. apply not_true_is_false. rewrite claim_iff. intros (_ & _ & H).
    specialize (H _ Hr eq_refl). cbn in H. lia.
  - intros Hl. apply claim_iff. rewrite Hrun at 2. split_and!; [done|done|].
    intros r Er _. rewrite Hr in Er. injection Er as <-. cbn. lia.
  - intros Hne. apply claim_iff. rewrite Hrun at 2. split_and!; [done|done|].
    intros r Er Erev. rewrite Hr in Er. injection Er as <-. by destruct Hne.
Qed.

Lemma failed_apply_delays_only_its_revision_witness :
  let s' := finish (fun _ => 0) empty_schedule 7%N 1 0 true in
  (3 < 0 + 45 * Tm.second -> (claim s' 7%N 1 3).1 = false) /\
  (0 + 15 * Tm.minute <= 3 -> (claim s' 7%N 1 3).1 = true) /\
  (2 <> 1 -> (claim s' 7%N 2 3).1 = true).
Proof.
  apply (failed_apply_delays_only_its_revision (fun _ => 0) empty_schedule 7%N 1 0 3 2).
  - intros n Hn. lia.
  - intros r H. cbn in H. by rewrite lookup_empty in H.
  - vm_compute. lia.
Defined.

(** ** Executions *)

(** The schedule and the goroutines that were started and have not finished,
    each with the node and the revision it was given. *)
Record system := {
  sched : applySchedule;
  workers : list (uuid * Z)
}.

Definition init : system := {| sched := empty_schedule; workers := [] |}.

(** [Apply.spawn]: nothing happens when the node is offline or the claim is refused. *)
Definition spawn (sys : system) (online : bool) (id : uuid) (rev now : Z) : system :=
  if negb online then sys
  else match claim (sched sys) id rev now with
       | (false, s) => {| sched := s; workers := workers sys |}
       | (true, s) => {| sched := s; workers := (id, rev) :: workers sys |}
       end.

Inductive step (draw : Z -> Z) : system -> system -> Prop :=
| step_spawn sys online id rev now : step draw sys (spawn sys online id rev now)
| step_finish sys w1 id rev w2 now failed :
    workers sys = w1 ++ (id, rev) :: w2 ->
    step draw sys {| sched := finish draw (sched sys) id rev now failed; workers := w1 ++ w2 |}
| step_forget sys id : step draw sys {| sched := forget (sched sys) id; workers := workers sys |}.

Inductive reachable (draw : Z -> Z) : system -> Prop :=
| reach_init : reachable draw init
| reach_step sys sys' : reachable draw sys -> step draw sys sys' -> reachable draw sys'.

(** [running] is the set of nodes of the live goroutines, and they are distinct. *)
Record inv (sys : system) : Prop := {
  inv_nodup : NoDup (fst <$> workers sys);
  inv_running : forall id, running (sched sys) !! id = Some true <-> id ∈ fst <$> workers sys;
  inv_true : forall id b, running (sched sys) !! id = Some b -> b = true;
  inv_size : size (running (sched sys)) = length (workers sys);
  inv_bound : (length (workers sys) <= maxBackgroundApplies)%nat
}.

Lemma inv_spawn sys online id rev now : inv sys -> inv (spawn sys online id rev now).
Proof.
  intros I. unfold spawn. destruct online; cbn [negb]; [|done].
  destruct (claim (sched sys) id rev now) as [[] s'] eqn:E.
  2:{ apply claim_refused in E as ->. by destruct sys, I; constructor. }
  apply claim_granted in E as (Hfree & Hsize & Hrun). destruct I.
  assert (Hnone : running (sched sys) !! id = None).
  { destruct (running (sched sys) !! id) as [b|] eqn:Hb; [|done].
    pose proof (inv_true0 _ _ Hb) as ->. by cbn in Hfree. }
  constructor; cbn; rewrite ?Hrun.
  - apply NoDup_cons. split; [|done]. intros Hin. apply inv_running0 in Hin. congruence.
  - intros x. rewrite elem_of_cons, <- inv_running0.
    destruct (decide (x = id)) as [->|Hne]; [rewrite lookup_insert_eq|rewrite lookup_insert_ne by done]; naive_solver.
  - intros x b. rewrite lookup_insert_Some. naive_solver.
  - by rewrite map_size_insert_None, inv_size0.
  - unfold maxBackgroundApplies in *. lia.
Qed.

Lemma inv_finish draw sys w1 id rev w2 now failed :
  workers sys = w1 ++ (id, rev) :: w2 -> inv sys ->
  inv {| sched := finish draw (sched sys) id rev now failed; workers := w1 ++ w2 |}.
Proof.
  intros Hw I. destruct I. rewrite Hw in *.
  assert (Hrun : running (finish draw (sched sys) id rev now failed) = delete id (running (sched sys)))
    by (unfold finish; by destruct failed).
  rewrite fmap_app, fmap_cons in inv_nodup0, inv_running0. cbn [fst] in *.
  pose proof inv_nodup0 as Hnd. rewrite <- Permutation_middle in Hnd.
  apply NoDup_cons in Hnd as [Hnotin Hnd]. rewrite <- fmap_app in Hnotin, Hnd.
  assert (Hin : running (sched sys) !! id = Some true)
    by (apply inv_running0; set_solver).
  constructor; cbn [workers sched]; rewrite ?Hrun; [done| | | |].
  - intros x. destruct (decide (x = id)) as [->|Hne].
    + rewrite lookup_delete_eq. split; [done|]. intros H. by destruct Hnotin.
    + rewrite lookup_delete_ne, inv_running0, fmap_app by done. set_solver.
  - intros x b. rewrite lookup_delete_Some. naive_solver.
  - rewrite map_size_delete, Hin, inv_size0, !length_app. cbn. lia.
  - rewrite !length_app in *. cbn in *. lia.
Qed.

Lemma inv_reachable draw sys : reachable draw sys -> inv sys.
Proof.
  induction 1 as [|sys sys' _ IH Hstep].
  - constructor; cbn; [constructor| |by intros ? ? ?%lookup_empty_Some|by rewrite map_size_empty|lia].
    intros id. rewrite lookup_empty. set_solver.
  - inversion Hstep; subst.
    + by apply inv_spawn.
    + by eapply inv_finish.
    + by destruct IH; constructor.
Qed.

(** C30: however claims, completions and forgotten retries interleave, at most
    four applies run at once and no node ever has two of them: the goroutines
    holding a slot are for distinct nodes and are exactly the nodes the
    schedule marks as running, so a second claim for one of them is refused. *)
Theorem at_most_one_apply_per_node draw sys :
  reachable draw sys ->
  (length (workers sys) <= maxBackgroundApplies)%nat /\
  NoDup (fst <$> workers sys) /\
  forall id rev rev' now, (id, rev) ∈ workers sys -> (claim (sched sys) id rev' now).1 = false.
Proof.
  intros I%inv_reachable. destruct I. split_and!; [done|done|].
  intros id rev rev' now Hin. apply not_true_is_false. rewrite claim_iff. intros (Hf & _).
  assert (running (sched sys) !! id = Some true) as E.
  { apply inv_running0, list_elem_of_fmap. by exists (id, rev). }
  by rewrite E in Hf.
Qed.

Lemma at_most_one_apply_per_node_witness :
  let sys := spawn init true 3%N 1 0 in
  (length (workers sys) <= maxBackgroundApplies)%nat /\
  NoDup (fst <$> workers sys) /\
  forall id rev rev' now, (id, rev) ∈ workers sys -> (claim (sched sys) id rev' now).1 = false.
Proof.
  apply (at_most_one_apply_per_node (fun _ => 0)).
  eapply reach_step; [apply reach_init|apply step_spawn].
Defined.
