(* ===== verification/Presence.v ===== *)
(** * Counting the people online

    internal/worker/presence.go.  A sweep is one reading of every node; the
    head count of the fleet is computed over a window of sweeps whose last
    element is now ([computePresence]), and the window itself is the ring of
    the last quarter of an hour of sweeps ([presenceRing.add]).

    The accumulators the source mutates through pointers ([*sweepKey],
    [*windowKey]) are looked up, updated and stored back here; no pointer is
    shared between two entries.  Loops over a map take their order from
    [MapOrder]. *)

From S2P Require Import Prelude.

Abbreviation uuid := N.

Record keyReading := {
  KeyID : uuid;
  Shared : bool;
  Connections : Z;
  IPCount : Z;
  IPs : list string
}.

Record nodeReading := {
  NodeID : uuid;
  n_Connections : Z;
  Keys : list keyReading;
  Sessions : Z
}.

Record nodeKeyPresence := { np_People : Z; np_Connections : Z }.

Record keyPresence := {
  kp_Shared : bool;
  kp_Connections : Z;
  Devices : Z;
  Devices15m : Z;
  Nodes : gmap uuid nodeKeyPresence
}.

Definition zero_keyPresence : keyPresence :=
  {| kp_Shared := false; kp_Connections := 0; Devices := 0; Devices15m := 0; Nodes := ∅ |}.

Record presence := {
  People : Z;
  People15m : Z;
  p_Connections : Z;
  p_Keys : gmap uuid keyPresence
}.

(** ** Distinct addresses *)

Record addrTally := { named : gset string; unnamed : Z }.

Definition empty_tally : addrTally := {| named := ∅; unnamed := 0 |}.

Definition tally_add (a : addrTally) (k : keyReading) : addrTally := {|
  named := list_to_set (IPs k) ∪ named a;
  unnamed := unnamed a + Z.max 0 (IPCount k - Z.of_nat (length (IPs k)))
|}.

Definition devices (a : addrTally) : Z := Z.max 1 (Z.of_nat (size (named a)) + unnamed a).

(** The head count of one node. *)
Definition nodePeople (n : nodeReading) : Z :=
  fold_left (fun people k =>
    if Connections k <=? 0 then people
    else if Shared k then people + devices (tally_add empty_tally k)
    else people + 1) (Keys n) (Sessions n).

(** ** One sweep *)

Record nodeKey := { nk_connections : Z; nk_addrs : addrTally }.

Record sweepKey := {
  sk_shared : bool;
  sk_connections : Z;
  sk_addrs : addrTally;
  sk_nodes : gmap uuid nodeKey
}.

Record windowKey := { wk_shared : bool; wk_named : gset string; wk_peak : Z }.

Definition new_nodeKey : nodeKey := {| nk_connections := 0; nk_addrs := empty_tally |}.
Definition new_sweepKey : sweepKey :=
  {| sk_shared := false; sk_connections := 0; sk_addrs := empty_tally; sk_nodes := ∅ |}.
Definition new_windowKey : windowKey := {| wk_shared := false; wk_named := ∅; wk_peak := 0 |}.

(** The body of the loop over [n.Keys]. *)
Definition collect_reading (node : uuid) (keys : gmap uuid sweepKey) (k : keyReading)
    : gmap uuid sweepKey :=
  if Connections k <=? 0 then keys
  else
    let sk := default new_sweepKey (keys !! KeyID k) in
    let nk := default new_nodeKey (sk_nodes sk !! node) in
    let nk := {| nk_connections := nk_connections nk + Connections k;
                 nk_addrs := tally_add (nk_addrs nk) k |} in
    <[KeyID k := {| sk_shared := Shared k;
                    sk_connections := sk_connections sk + Connections k;
                    sk_addrs := tally_add (sk_addrs sk) k;
                    sk_nodes := <[node := nk]> (sk_nodes sk) |}]> keys.

(** What the loops of [computePresence] update. *)
Record acc := {
  out : presence;
  seen : gmap uuid windowKey;
  sessions : gmap uuid Z
}.

(** The body of the loop over [sweep]. *)
Definition collect_node (is_last : bool) (st : acc * gmap uuid sweepKey) (n : nodeReading)
    : acc * gmap uuid sweepKey :=
  let '(a, keys) := st in
  let sessions' := <[NodeID n := Z.max (default 0 (sessions a !! NodeID n)) (Sessions n)]> (sessions a) in
  let out' := if is_last
              then {| People := People (out a) + Sessions n; People15m := People15m (out a);
                      p_Connections := p_Connections (out a) + n_Connections n; p_Keys := p_Keys (out a) |}
              else out a in
  ({| out := out'; seen := seen a; sessions := sessions' |},
   fold_left (collect_reading (NodeID n)) (Keys n) keys).

(** The body of the loop over [keys]. *)
Definition record_key (is_last : bool) (a : acc) (e : uuid * sweepKey) : acc :=
  let '(id, sk) := e in
  let wk := default new_windowKey (seen a !! id) in
  let wk := {| wk_shared := sk_shared sk;
               wk_named := named (sk_addrs sk) ∪ wk_named wk;
               wk_peak := Z.max (wk_peak wk) (unnamed (sk_addrs sk)) |} in
  let a := {| out := out a; seen := <[id := wk]> (seen a); sessions := sessions a |} in
  if negb is_last then a
  else
    let dev := devices (sk_addrs sk) in
    let nodes := (fun nk => {| np_People := if sk_shared sk then devices (nk_addrs nk) else 1;
                               np_Connections := nk_connections nk |}) <$> sk_nodes sk in
    let kp := {| kp_Shared := sk_shared sk; kp_Connections := sk_connections sk;
                 Devices := dev; Devices15m := 0; Nodes := nodes |} in
    {| out := {| People := People (out a) + (if sk_shared sk then dev else 1);
                 People15m := People15m (out a);
                 p_Connections := p_Connections (out a);
                 p_Keys := <[id := kp]> (p_Keys (out a)) |};
       seen := seen a; sessions := sessions a |}.

Section Compute.
Context `{MapOrder}.

Definition do_sweep (is_last : bool) (a : acc) (sweep : list nodeReading) : acc :=
  let '(a, keys) := fold_left (collect_node is_last) sweep (a, ∅) in
  fold_left (record_key is_last) (range_order (map_to_list keys)) a.

(** The loop over the window; the last sweep is now. *)
Fixpoint do_sweeps (a : acc) (window : list (list nodeReading)) : acc :=
  match window with
  | [] => a
  | sweep :: rest => do_sweeps (do_sweep (match rest with [] => true | _ => false end) a sweep) rest
  end.

(** The body of the loop over [seen]. *)
Definition record_window (o : presence) (e : uuid * windowKey) : presence :=
  let '(id, wk) := e in
  let dev := Z.max 1 (Z.of_nat (size (wk_named wk)) + wk_peak wk) in
  let kp := default zero_keyPresence (p_Keys o !! id) in
  let kp := {| kp_Shared := wk_shared wk; kp_Connections := kp_Connections kp;
               Devices := Devices kp; Devices15m := dev; Nodes := Nodes kp |} in
  {| People := People o;
     People15m := People15m o + (if wk_shared wk then dev else 1);
     p_Connections := p_Connections o;
     p_Keys := <[id := kp]> (p_Keys o) |}.

Definition init_acc : acc :=
  {| out := {| People := 0; People15m := 0; p_Connections := 0; p_Keys := ∅ |};
     seen := ∅; sessions := ∅ |}.

Definition computePresence (window : list (list nodeReading)) : presence :=
  let a := do_sweeps init_acc window in
  let o := fold_left (fun o e => {| People := People o; People15m := People15m o + e.2;
                                    p_Connections := p_Connections o; p_Keys := p_Keys o |})
             (range_order (map_to_list (sessions a))) (out a) in
  fold_left record_window (range_order (map_to_list (seen a))) o.

End Compute.

(** ** The ring of sweeps *)

Definition presenceWindow : Z := 15 * Tm.minute.
Definition presenceSweeps : nat := 15.
Definition presenceCarry : Z := 3 * Tm.minute.

Record pastSweep := { at_ : Z; ps_nodes : list nodeReading }.

(** The first node of a sweep with this id. *)
Definition find_node (id : uuid) (nodes : list nodeReading) : option nodeReading :=
  find (fun n => N.eqb (NodeID n) id) nodes.

(** [lastReading] scans from the newest sweep; the argument is newest first. *)
Fixpoint last_reading_rev (sweeps : list pastSweep) (id : uuid) (at0 : Z) : option nodeReading :=
  match sweeps with
  | [] => None
  | s :: older =>
      if Tm.sub at0 (at_ s) <=? presenceCarry then
        match find_node id (ps_nodes s) with
        | Some n => Some n
        | None => last_reading_rev older id at0
        end
      else None
  end.

Definition lastReading (sweeps : list pastSweep) (id : uuid) (at0 : Z) : option nodeReading :=
  last_reading_rev (reverse sweeps) id at0.

(** Replace the last element: [out[len(out)-1] = now]. *)
Fixpoint set_last {A} (l : list A) (x : A) : list A :=
  match l with
  | [] => []
  | [_] => [x]
  | y :: l => y :: set_last l x
  end.

(** [presenceRing.add]: the new ring and the window it returns. *)
Definition ring_add (r : list pastSweep) (at0 : Z) (due : list uuid) (nodes : list nodeReading)
    : list pastSweep * list (list nodeReading) :=
  let kept := List.filter (fun s => Tm.sub at0 (at_ s) <? presenceWindow) r in
  let read : gset uuid := list_to_set (NodeID <$> nodes) in
  let now := fold_left (fun now id =>
      if bool_decide (id ∈ read) then now
      else match lastReading kept id at0 with
           | Some n => now ++ [n]
           | None => now
           end) due nodes in
  let kept := kept ++ [{| at_ := at0; ps_nodes := nodes |}] in
  let kept := if (presenceSweeps <? length kept)%nat
              then drop (length kept - presenceSweeps) kept else kept in
  (kept, set_last (ps_nodes <$> kept) now).

(** ** The head count in closed form *)

(** The people one key stands for in a sweep, and over the window. *)
Definition sweep_people (sk : sweepKey) : Z :=
  if sk_shared sk then devices (sk_addrs sk) else 1.
Definition window_people (wk : windowKey) : Z :=
  if wk_shared wk then Z.max 1 (Z.of_nat (size (wk_named wk)) + wk_peak wk) else 1.

(** The keys with a live connection in a sweep. *)
Definition sweep_keys (sweep : list nodeReading) : gmap uuid sweepKey :=
  fold_left (fun keys n => fold_left (collect_reading (NodeID n)) (Keys n) keys) sweep ∅.

Definition session_step (m : gmap uuid Z) (n : nodeReading) : gmap uuid Z :=
  <[NodeID n := Z.max (default 0 (m !! NodeID n)) (Sessions n)]> m.

Lemma collect_nodes_spec is_last sweep a keys :
  let '(a', keys') := fold_left (collect_node is_last) sweep (a, keys) in
  keys' = fold_left (fun keys n => fold_left (collect_reading (NodeID n)) (Keys n) keys) sweep keys /\
  sessions a' = fold_left session_step sweep (sessions a) /\
  seen a' = seen a /\
  People (out a') = People (out a) + (if is_last then lsum Sessions sweep else 0) /\
  People15m (out a') = People15m (out a).
Proof.
  revert a keys. induction sweep as [|n sweep IH]; intros a keys; cbn [fold_left].
  - destruct is_last; cbn; rewrite Z.add_0_r; done.
  - cbn [collect_node].
    match goal with |- context [fold_left (collect_node is_last) sweep (?a1, ?k1)] =>
      specialize (IH a1 k1); destruct (fold_left (collect_node is_last) sweep (a1, k1)) as [a' keys'] end.
    destruct IH as (-> & -> & -> & -> & ->). destruct is_last; cbn; repeat split; lia.
Qed.

Lemma record_keys_spec is_last l a :
  let a' := fold_left (record_key is_last) l a in
  sessions a' = sessions a /\
  People15m (out a') = People15m (out a) /\
  People (out a') = People (out a) + (if is_last then lsum (fun e => sweep_people e.2) l else 0).
Proof.
  cbv zeta. revert a. induction l as [|[id sk] l IH]; intros a; cbn [fold_left lsum snd].
  - destruct is_last; repeat split; lia.
  - destruct (IH (record_key is_last a (id, sk))) as (-> & -> & ->). clear IH.
    unfold record_key, sweep_people. destruct is_last; cbn; repeat split; lia.
Qed.

(** [seen] covers a key of a sweep: it has the key's last sharing mode, its
    addresses and at least its unlisted ones. *)
Definition covers (sk : sweepKey) (wk : windowKey) : Prop :=
  wk_shared wk = sk_shared sk /\ named (sk_addrs sk) ⊆ wk_named wk /\ unnamed (sk_addrs sk) <= wk_peak wk.

Lemma record_keys_covers is_last l a :
  NoDup (fst <$> l) ->
  forall id sk, (id, sk) ∈ l ->
  exists wk, seen (fold_left (record_key is_last) l a) !! id = Some wk /\ covers sk wk.
Proof.
  intros Hnd id sk Hin. apply list_elem_of_split in Hin as (l1 & l2 & ->).
  rewrite fmap_app, fmap_cons in Hnd. apply NoDup_app in Hnd as (_ & _ & [Hid _]%NoDup_cons).
  rewrite fold_left_app. cbn [fold_left]. set (a1 := fold_left (record_key is_last) l1 a).
  assert (Hkeep : forall l a2, id ∉ fst <$> l ->
            seen (fold_left (record_key is_last) l a2) !! id = seen a2 !! id).
  { clear. intros l. induction l as [|[id' sk'] l IH]; intros a2 Hni; [done|].
    cbn in Hni. apply not_elem_of_cons in Hni as [Hne Hni]. cbn [fold_left].
    rewrite IH by done. unfold record_key. destruct is_last; cbn; by rewrite lookup_insert_ne. }
  rewrite Hkeep by done.
  assert (Hseen : forall s, seen (record_key is_last a1 (id, sk)) !! id = Some s -> covers sk s).
  { intros s. unfold record_key. destruct is_last; cbn; rewrite lookup_insert_eq;
      intros [= <-]; unfold covers; cbn; split_and!; [done|set_solver|lia|done|set_solver|lia]. }
  assert (Hsome : is_Some (seen (record_key is_last a1 (id, sk)) !! id)).
  { unfold record_key. destruct is_last; cbn; rewrite lookup_insert_eq; eauto. }
  destruct Hsome as [s Hs]. eauto.
Qed.

Section HeadCount.
Context `{MapOrder}.

Lemma do_sweep_spec is_last a sweep :
  let a' := do_sweep is_last a sweep in
  sessions a' = fold_left session_step sweep (sessions a) /\
  People15m (out a') = People15m (out a) /\
  People (out a') = People (out a) +
    (if is_last then lsum Sessions sweep + msum sweep_people (sweep_keys sweep) else 0) /\
  forall id sk, sweep_keys sweep !! id = Some sk ->
    exists wk, seen a' !! id = Some wk /\ covers sk wk.
Proof.
  unfold do_sweep. pose proof (collect_nodes_spec is_last sweep a ∅) as Hc.
  destruct (fold_left (collect_node is_last) sweep (a, ∅)) as [a1 keys].
  destruct Hc as (-> & Hs & _ & Hp & H15). fold (sweep_keys sweep).
  pose proof (record_keys_spec is_last (range_order (map_to_list (sweep_keys sweep))) a1)
    as (Hs' & H15' & Hp'). cbv zeta.
  rewrite Hs', H15', Hp', Hs, H15, Hp, msum_range. split_and!; [done|done|destruct is_last; lia|].
  intros id sk Hid. apply record_keys_covers.
  - rewrite (range_order_perm _ (map_to_list (sweep_keys sweep))). apply NoDup_fst_map_to_list.
  - rewrite (range_order_perm _ (map_to_list (sweep_keys sweep))). by apply elem_of_map_to_list.
Qed.

Lemma do_sweeps_last a window sweep :
  exists a0, People (out a0) = People (out a) /\ People15m (out a0) = People15m (out a) /\
    sessions a0 = fold_left (fun m sw => fold_left session_step sw m) window (sessions a) /\
    do_sweeps a (window ++ [sweep]) = do_sweep true a0 sweep.
Proof.
  revert a. induction window as [|sw window IH]; intros a; [by exists a|].
  cbn [app do_sweeps]. assert (Hl : match window ++ [sweep] with [] => true | _ => false end = false)
    by (by destruct window). rewrite Hl.
  destruct (do_sweep_spec false a sw) as (Hs & H15 & Hp & _).
  destruct (IH (do_sweep false a sw)) as (a0 & E1 & E2 & E3 & E4).
  exists a0. rewrite E1, E2, E3, E4, Hs, H15, Hp. cbn. split_and!; [lia|done..].
Qed.

Lemma record_windows_spec l o :
  People (fold_left record_window l o) = People o /\
  People15m (fold_left record_window l o) = People15m o + lsum (fun e => window_people e.2) l.
Proof.
  revert o. induction l as [|[id wk] l IH]; intros o; cbn [fold_left lsum snd]; [lia|].
  destruct (IH (record_window o (id, wk))) as [-> ->]. unfold record_window, window_people; cbn.
  split; lia.
Qed.

Lemma record_sessions_spec l o :
  let o' := fold_left (fun o (e : uuid * Z) => {| People := People o; People15m := People15m o + e.2;
              p_Connections := p_Connections o; p_Keys := p_Keys o |}) l o in
  People o' = People o /\ People15m o' = People15m o + lsum snd l.
Proof.
  cbv zeta. revert o. induction l as [|e l IH]; intros o; cbn [fold_left lsum snd]; [lia|].
  match goal with |- context [fold_left _ l ?o1] => destruct (IH o1) as [-> ->] end. cbn. split; lia.
Qed.

Lemma computePresence_sums window :
  let a := do_sweeps init_acc window in
  People (computePresence window) = People (out a) /\
  People15m (computePresence window) =
    People15m (out a) + msum (fun s => s) (sessions a) + msum window_people (seen a).
Proof.
  cbv zeta. unfold computePresence.
  match goal with |- context [fold_left record_window ?l ?o] =>
    destruct (record_windows_spec l o) as [-> ->] end.
  match goal with |- context [fold_left _ (range_order (map_to_list (sessions ?a))) ?o] =>
    destruct (record_sessions_spec (range_order (map_to_list (sessions a))) o) as [-> ->] end.
  by rewrite !(msum_range (fun s => s)), msum_range.
Qed.

(** The number of people online is the sessions of the nodes in the last
    sweep plus, for every key with a live connection in it, the distinct
    devices of a shared key or one for a personal key; earlier sweeps and the
    iteration order of the maps do not change it. *)
Theorem computePresence_people window sweep :
  People (computePresence (window ++ [sweep])) =
  lsum Sessions sweep + msum sweep_people (sweep_keys sweep).
Proof.
  destruct (computePresence_sums (window ++ [sweep])) as [-> _].
  destruct (do_sweeps_last init_acc window sweep) as (a0 & E1 & _ & _ & ->).
  destruct (do_sweep_spec true a0 sweep) as (_ & _ & -> & _). rewrite E1. cbn. lia.
Qed.

(** The sessions of a node never decrease over the window. *)
Lemma session_steps_spec sweep m :
  (forall id s, m !! id = Some s -> 0 <= s) ->
  (forall id s, fold_left session_step sweep m !! id = Some s -> 0 <= s) /\
  (forall id s, m !! id = Some s ->
     exists s', fold_left session_step sweep m !! id = Some s' /\ s <= s') /\
  (forall n, n ∈ sweep ->
     exists s', fold_left session_step sweep m !! NodeID n = Some s' /\ Sessions n <= s').
Proof.
  revert m. induction sweep as [|n sweep IH]; intros m Hm; cbn [fold_left].
  { split_and!; [done|naive_solver|]. intros n Hn. by apply elem_of_nil in Hn. }
  assert (Hd : 0 <= default 0 (m !! NodeID n)).
  { destruct (m !! NodeID n) eqn:E; cbn; [by eapply Hm|lia]. }
  destruct (IH (session_step m n)) as (H1 & H2 & H3).
  { intros id s. unfold session_step. rewrite lookup_insert. case_decide; [|by apply Hm].
    intros [= <-]. lia. }
  split_and!; [done| |].
  - intros id s Hs. destruct (decide (NodeID n = id)) as [<-|Hne].
    + destruct (H2 (NodeID n) (Z.max (default 0 (m !! NodeID n)) (Sessions n))) as (s' & E & Hle).
      { unfold session_step. by rewrite lookup_insert_eq. }
      exists s'. split; [done|]. rewrite Hs in Hle. cbn in Hle. lia.
    + destruct (H2 id s) as (s' & E & Hle); [by unfold session_step; rewrite lookup_insert_ne|eauto].
  - intros n' Hn'. apply elem_of_cons in Hn' as [->|Hn']; [|by apply H3].
    destruct (H2 (NodeID n) (Z.max (default 0 (m !! NodeID n)) (Sessions n))) as (s' & E & Hle).
    { unfold session_step. by rewrite lookup_insert_eq. }
    exists s'. split; [done|lia].
Qed.

Lemma window_sessions_nonneg window m :
  (forall id s, m !! id = Some s -> 0 <= s) ->
  forall id s, fold_left (fun m sw => fold_left session_step sw m) window m !! id = Some s -> 0 <= s.
Proof.
  revert m. induction window as [|sw window IH]; intros m Hm; cbn [fold_left]; [done|].
  apply IH. by apply session_steps_spec.
Qed.

Lemma lsum_as_msum (sweep : list nodeReading) :
  NoDup (NodeID <$> sweep) ->
  lsum Sessions sweep = msum (fun s => s) (list_to_map ((fun n => (NodeID n, Sessions n)) <$> sweep) : gmap uuid Z).
Proof.
  induction sweep as [|n sweep IH]; intros Hnd; cbn; [by rewrite msum_empty|].
  apply NoDup_cons in Hnd as [Hni Hnd]. rewrite IH, msum_insert; [done| |done].
  apply not_elem_of_list_to_map_1. rewrite <- list_fmap_compose. done.
Qed.

Lemma tally_unnamed_nonneg a k : 0 <= unnamed a -> 0 <= unnamed (tally_add a k).
Proof. cbn. lia. Qed.

Lemma covers_people sk wk : covers sk wk -> sweep_people sk <= window_people wk.
Proof.
  intros (Hs & Hn & Hu). unfold sweep_people, window_people, devices. rewrite Hs.
  destruct (sk_shared sk); [|lia].
  pose proof (subseteq_size _ _ Hn). lia.
Qed.

Lemma window_people_nonneg wk : 0 <= window_people wk.
Proof. unfold window_people. destruct (wk_shared wk); lia. Qed.

(** The people online now never outnumber the people of the last quarter of
    an hour, whatever was read earlier: the window only adds to the current
    sweep. *)
Theorem people_within_window window sweep :
  NoDup (NodeID <$> sweep) ->
  let p := computePresence (window ++ [sweep]) in
  People p <= People15m p.
Proof.
  intros Hnd p. subst p. rewrite computePresence_people.
  destruct (computePresence_sums (window ++ [sweep])) as [_ ->].
  destruct (do_sweeps_last init_acc window sweep) as (a0 & _ & E15 & Es & ->).
  destruct (do_sweep_spec true a0 sweep) as (-> & -> & _ & Hcov). rewrite E15. cbn [init_acc out People15m].
  assert (H0 : forall id s, sessions a0 !! id = Some s -> 0 <= s).
  { rewrite Es. apply window_sessions_nonneg. intros id s Hs. cbn in Hs. by rewrite lookup_empty in Hs. }
  destruct (session_steps_spec sweep _ H0) as (Hpos & _ & Hge).
  assert (lsum Sessions sweep <= msum (fun s => s) (fold_left session_step sweep (sessions a0))).
  { rewrite lsum_as_msum by done. apply msum_le; [|done].
    intros id s Hid. apply elem_of_list_to_map_2, list_elem_of_fmap in Hid as (n & [= -> ->] & Hn).
    by apply Hge. }
  assert (msum sweep_people (sweep_keys sweep) <=
          msum window_people (seen (do_sweep true a0 sweep))).
  { apply msum_le; [|intros; apply window_people_nonneg].
    intros id sk Hid. destruct (Hcov id sk Hid) as (wk & E & Hc). exists wk.
    split; [done|by apply covers_people]. }
  lia.
Qed.

End HeadCount.

Definition reading_ex : keyReading :=
  {| KeyID := 5%N; Shared := true; Connections := 3; IPCount := 3; IPs := ["10.0.0.1"; "10.0.0.2"]%string |}.
Definition node_ex : nodeReading :=
  {| NodeID := 1%N; n_Connections := 3; Keys := [reading_ex]; Sessions := 2 |}.

Lemma people_within_window_witness :
  let p := @computePresence written_order ([[node_ex]] ++ [[node_ex]]) in
  People p = 5 /\ People p <= People15m p.
Proof.
  split; [by vm_compute|]. apply (@people_within_window written_order [[node_ex]] [node_ex]).
  cbn. repeat constructor. set_solver.
Defined.

(** ** Who is online *)

Definition live_ids (sweep : list nodeReading) : gset uuid :=
  list_to_set (KeyID <$> List.filter (fun k => 0 <? Connections k) (sweep ≫= Keys)).

Lemma collect_readings_dom node l keys :
  dom (fold_left (collect_reading node) l keys) =
  list_to_set (KeyID <$> List.filter (fun k => 0 <? Connections k) l) ∪ dom keys.
Proof.
  revert keys. induction l as [|k l IH]; intros keys; cbn [fold_left List.filter]; [set_solver|].
  rewrite IH. unfold collect_reading.
  destruct (Z.leb_spec (Connections k) 0), (Z.ltb_spec 0 (Connections k)); try lia; [done|].
  rewrite dom_insert_L. cbn. set_solver.
Qed.

Lemma sweep_keys_dom sweep : dom (sweep_keys sweep) = live_ids sweep.
Proof.
  unfold sweep_keys, live_ids. set (m := ∅ : gmap uuid sweepKey).
  assert (E : forall m : gmap uuid sweepKey,
            dom (fold_left (fun keys n => fold_left (collect_reading (NodeID n)) (Keys n) keys) sweep m) =
            list_to_set (KeyID <$> List.filter (fun k => 0 <? Connections k) (sweep ≫= Keys)) ∪ dom m).
  { induction sweep as [|n sweep IH]; intros m'; cbn [fold_left]; [set_solver|].
    rewrite IH, collect_readings_dom, bind_cons, List.filter_app, fmap_app, list_to_set_app_L. set_solver. }
  rewrite E. unfold m. set_solver.
Qed.

Lemma collect_personal node l keys :
  Forall (fun k => Shared k = false) l ->
  (forall id sk, keys !! id = Some sk -> sk_shared sk = false) ->
  forall id sk, fold_left (collect_reading node) l keys !! id = Some sk -> sk_shared sk = false.
Proof.
  revert keys. induction l as [|k l IH]; intros keys Hl Hk; cbn [fold_left]; [done|].
  apply Forall_cons in Hl as [Hs Hl]. apply IH; [done|]. unfold collect_reading.
  destruct (_ <=? _); [done|]. intros id sk [[<- <-]|[_ H]]%lookup_insert_Some; [done|by eapply Hk].
Qed.

Lemma sweep_keys_personal sweep :
  Forall (fun n => Forall (fun k => Shared k = false) (Keys n)) sweep ->
  forall id sk, sweep_keys sweep !! id = Some sk -> sk_shared sk = false.
Proof.
  unfold sweep_keys. set (m := ∅ : gmap uuid sweepKey).
  assert (Hm : forall id sk, m !! id = Some sk -> sk_shared sk = false) by (by intros ? ? ?%lookup_empty_Some).
  clearbody m. revert m Hm. induction sweep as [|n sweep IH]; intros m Hm Hs; cbn [fold_left]; [done|].
  apply Forall_cons in Hs as [Hn Hs]. apply IH; [|done]. by apply collect_personal.
Qed.

Lemma msum_const {V} (m : gmap uuid V) (f : V -> Z) :
  (forall k v, m !! k = Some v -> f v = 1) -> msum f m = Z.of_nat (size (dom m)).
Proof.
  rewrite size_dom. induction m as [|k v m Hk IH] using map_ind; intros Hf; [done|].
  rewrite msum_insert, map_size_insert_None by done.
  rewrite (Hf k v), IH; [lia| |by rewrite lookup_insert_eq].
  intros k' v' Hk'. apply (Hf k'). rewrite lookup_insert_ne; [done|]. intros <-. congruence.
Qed.

(** A personal key is one person however many nodes, connections and
    addresses it is seen with: when no key of the sweep is shared, the people
    online are the sessions plus the number of distinct keys that have a live
    connection on some node. *)
Theorem personal_keys_count_once `{MapOrder} window sweep :
  Forall (fun n => Forall (fun k => Shared k = false) (Keys n)) sweep ->
  People (computePresence (window ++ [sweep])) =
  lsum Sessions sweep + Z.of_nat (size (live_ids sweep)).
Proof.
  intros Hs. rewrite computePresence_people, <- sweep_keys_dom. f_equal. apply msum_const.
  intros id sk Hid. unfold sweep_people. by rewrite (sweep_keys_personal sweep Hs id sk Hid).
Qed.

Definition personal_ex (node conns : Z) : nodeReading :=
  {| NodeID := Z.to_N node; n_Connections := conns; Sessions := 0;
     Keys := [{| KeyID := 9%N; Shared := false; Connections := conns; IPCount := 4; IPs := [] |}] |}.

Lemma personal_keys_count_once_witness :
  People (@computePresence written_order ([] ++ [[personal_ex 1 2; personal_ex 2 7]])) = 1.
Proof.
  rewrite (@personal_keys_count_once written_order [] [personal_ex 1 2; personal_ex 2 7]); [by vm_compute|].
  repeat constructor.
Defined.

(** ** The ring keeps a bounded, recent window *)

(** A reading carried over: the newest reading of the node, not older than [presenceCarry]. *)
Definition carried_from (ring : list pastSweep) (at0 : Z) (id : uuid) (n : nodeReading) : Prop :=
  NodeID n = id /\
  exists older s newer, ring = older ++ s :: newer /\
    n ∈ ps_nodes s /\ Tm.sub at0 (at_ s) <= presenceCarry /\
    Forall (fun s' => id ∉ NodeID <$> ps_nodes s') newer.

Lemma find_node_Some id l n : find_node id l = Some n -> n ∈ l /\ NodeID n = id.
Proof.
  unfold find_node. intros H. apply find_some in H as [Hin E].
  apply N.eqb_eq in E. split; [by apply list_elem_of_In|done].
Qed.

Lemma find_node_None id l : find_node id l = None -> id ∉ NodeID <$> l.
Proof.
  unfold find_node. intros H Hin. apply list_elem_of_fmap in Hin as (n & -> & Hn).
  apply list_elem_of_In in Hn. pose proof (find_none _ _ H _ Hn) as E.
  cbv beta in E. rewrite N.eqb_refl in E. done.
Qed.

Lemma lastReading_Some ring id at0 n :
  lastReading ring id at0 = Some n -> carried_from ring at0 id n.
Proof.
  unfold lastReading. rewrite <- (reverse_involutive ring) at 2.
  generalize (reverse ring) as l. clear ring. induction l as [|s l IH]; cbn [last_reading_rev]; [done|].
  destruct (_ <=? _) eqn:Hc; [|done]. destruct (find_node id (ps_nodes s)) as [m|] eqn:Hf.
  - intros [= ->]. apply find_node_Some in Hf as [Hin Hid]. split; [done|].
    exists (reverse l), s, []. rewrite reverse_cons. bprop. split_and!; [done|done|done|constructor].
  - intros (Hid & older & s' & newer & E & Hin & Hage & Hnew)%IH. split; [done|].
    exists older, s', (newer ++ [s]). rewrite reverse_cons, E, <- app_assoc. cbn.
    split_and!; [done|done|done|]. apply Forall_app. split; [done|].
    apply Forall_singleton. by apply find_node_None.
Qed.

Lemma length_set_last {A} (l : list A) x : length (set_last l x) = length l.
Proof. induction l as [|y [|z l] IH]; cbn in *; auto. Qed.

Lemma last_set_last {A} (l : list A) x : l <> [] -> last (set_last l x) = Some x.
Proof.
  induction l as [|y [|z l] IH]; intros Hl; [done|done|].
  specialize (IH ltac:(done)). cbn [set_last] in *. rewrite last_cons, IH. done.
Qed.

Section RingProofs.
Context (r : list pastSweep) (at0 : Z) (due : list uuid) (nodes : list nodeReading).

Let kept := List.filter (fun s => Tm.sub at0 (at_ s) <? presenceWindow) r.
Let pushed := kept ++ [{| at_ := at0; ps_nodes := nodes |}].

Lemma ring_add_fst :
  (ring_add r at0 due nodes).1 = drop (length pushed - presenceSweeps) pushed.
Proof.
  unfold ring_add. fold kept pushed. cbn [fst]. destruct (Nat.ltb_spec presenceSweeps (length pushed)); [done|].
  by replace (length pushed - presenceSweeps)%nat with O by lia.
Qed.

Lemma carry_loop due' now :
  exists extra, fold_left (fun now id =>
      if bool_decide (id ∈ (list_to_set (NodeID <$> nodes) : gset uuid)) then now
      else match lastReading kept id at0 with Some n => now ++ [n] | None => now end) due' now
    = now ++ extra /\
  Forall (fun n => NodeID n ∈ due' /\ NodeID n ∉ NodeID <$> nodes /\ carried_from kept at0 (NodeID n) n) extra.
Proof.
  revert now. induction due' as [|id due' IH]; intros now; cbn [fold_left].
  { exists []. by rewrite app_nil_r. }
  assert (Hmono : forall l, Forall (fun n => NodeID n ∈ due' /\ NodeID n ∉ NodeID <$> nodes /\
             carried_from kept at0 (NodeID n) n) l ->
           Forall (fun n => NodeID n ∈ id :: due' /\ NodeID n ∉ NodeID <$> nodes /\
             carried_from kept at0 (NodeID n) n) l).
  { intros l Hl. eapply Forall_impl; [exact Hl|]. intros n (? & ? & ?). rewrite elem_of_cons. auto. }
  case_bool_decide as Hr; [destruct (IH now) as (extra & -> & He); eauto|].
  destruct (lastReading kept id at0) as [n|] eqn:Hl; [|destruct (IH now) as (extra & -> & He); eauto].
  destruct (IH (now ++ [n])) as (extra & -> & He). exists (n :: extra). rewrite <- app_assoc. split; [done|].
  apply lastReading_Some in Hl. apply Forall_cons. split; [|by apply Hmono].
  pose proof Hl as [-> _]. rewrite elem_of_list_to_set in Hr. rewrite elem_of_cons. auto.
Qed.

Lemma pushed_recent : Forall (fun s => Tm.sub at0 (at_ s) < presenceWindow) pushed.
Proof.
  apply Forall_app. split.
  - apply Forall_forall. intros s Hs. apply list_elem_of_In, List.filter_In in Hs as [_ Hs]. by bprop.
  - apply Forall_singleton. unfold presenceWindow. cbn. time_lia.
Qed.

End RingProofs.

(** After every sweep the ring holds at most fifteen sweeps, all of them
    younger than a quarter of an hour, the newest one last; the window handed
    to the count has one reading list per kept sweep, and the last of them is
    the new readings followed only by readings carried over for nodes that were
    due but not read, each of them the node's newest and at most three minutes
    old. *)
Theorem ring_add_window r at0 due nodes :
  let '(ring, window) := ring_add r at0 due nodes in
  (length ring <= presenceSweeps)%nat /\
  Forall (fun s => Tm.sub at0 (at_ s) < presenceWindow) ring /\
  last ring = Some {| at_ := at0; ps_nodes := nodes |} /\
  length window = length ring /\
  exists extra, last window = Some (nodes ++ extra) /\
    Forall (fun n => NodeID n ∈ due /\ NodeID n ∉ NodeID <$> nodes /\
                     carried_from (List.filter (fun s => Tm.sub at0 (at_ s) <? presenceWindow) r)
                       at0 (NodeID n) n) extra.
Proof.
  pose proof (ring_add_fst r at0 due nodes) as E.
  pose proof (carry_loop r at0 nodes due nodes) as (extra & Hcarry & Hextra).
  pose proof (pushed_recent r at0 nodes) as Hrec.
  unfold ring_add in *. cbn [fst] in E. cbv zeta. rewrite Hcarry, E.
  set (kept := List.filter _ r) in *. set (pushed := kept ++ [_]) in *.
  assert (Hp : (0 < length pushed)%nat) by (unfold pushed; rewrite length_app; cbn; lia).
  set (k := (length pushed - presenceSweeps)%nat).
  assert (Hk : (k < length pushed)%nat) by (unfold k, presenceSweeps; lia).
  split_and!.
  - rewrite length_drop. unfold k. lia.
  - by apply Forall_drop.
  - unfold pushed in *. rewrite length_app in Hk. cbn in Hk.
    rewrite drop_app_le by lia. by rewrite last_snoc.
  - by rewrite length_set_last, length_fmap.
  - exists extra. split; [|done]. apply last_set_last.
    intros Hnil. apply (f_equal length) in Hnil. rewrite length_fmap, length_drop in Hnil. cbn in Hnil. lia.
Qed.
