(* ===== verification/TelemtTypes.v ===== *)
(** * Data of telemt's control API

    internal/telemt/types.go and internal/telemt/capabilities.go: the answers
    of the control API the agent reads, the errors it tells apart, and the
    messages of internal/agent/telemtupdate.go in which an update reports its
    progress to the panel. *)

From S2P Require Import Prelude.
Set Warnings "-register-all".

(** A decoded JSON value; the keys of an object are distinct. *)
Inductive json :=
| JNull
| JBool (b : bool)
| JNumber (text : string)
| JString (s : string)
| JArray (l : list json)
| JObject (o : list (string * json)).

Definition object := list (string * json).

(** [m[k]] of a [map[string]any]. *)
Fixpoint member (o : object) (k : string) : option json :=
  match o with
  | [] => None
  | (k', v) :: o => if String.eqb k' k then Some v else member o k
  end.

(** The type assertions [v.(map[string]any)], [v.([]any)] and [v.(string)]. *)
Definition as_object (v : option json) : option object :=
  match v with Some (JObject o) => Some o | _ => None end.
Definition as_array (v : option json) : option (list json) :=
  match v with Some (JArray l) => Some l | _ => None end.
Definition as_string (v : option json) : option string :=
  match v with Some (JString s) => Some s | _ => None end.

(** A telemt error envelope or a non-envelope HTTP failure, or a failure of
    the transport. *)
Inductive apierror :=
| APIError (status : Z) (code message : string)
| Transport (text : error).

Definition api_text (e : apierror) : error :=
  match e with
  | APIError status code message => "telemt api " +:+ Dec.itoa status +:+ " " +:+ code +:+ ": " +:+ message
  | Transport text => text
  end.

Definition ErrCodeRuntimeMismatch : string := "web_runtime_mismatch".

Definition IsCode (e : apierror) (code : string) : bool :=
  match e with APIError _ c _ => String.eqb c code | Transport _ => false end.

Definition IsNotFound (e : apierror) : bool :=
  match e with APIError status _ _ => status =? 404 | Transport _ => false end.

Record SystemInfo := { Version : string }.

Record ReadyData := { Ready : bool; Reason : string }.

Definition WebLifecycleDrained : string := "drained".

Record WebDrainProcess := {
  drain_State : string;
  RemainingSessions : Z;
  RemainingStreams : Z;
  RemainingWebsockets : Z
}.

Record WebLifecycle := {
  lifecycle_State : string;
  AdmissionOpen : bool;
  Drain : option WebDrainProcess
}.

(** [Learning] and [CarrierNegotiation] are kept as whether they are there. *)
Record WebStatus := {
  top_RuntimeInstance : string;
  OperatorLifecycle : option WebLifecycle;
  runtime_RuntimeInstance : string;
  HasLearning : bool;
  HasCarrierNegotiation : bool
}.

(** [Upstream] and [UpstreamsStats], as far as the recovery code reads them. *)
Record Upstream := { us_Healthy : bool; LastCheckAgeSecs : Z }.
Record UpstreamsStats := { us_Enabled : bool; Upstreams : list Upstream }.

Record PatchConfigResult := {
  RestartRequired : bool;
  RuntimeReloadRequired : bool;
  ProcessRestartRequired : bool;
  DeferredProcessFields : list string
}.

(** A user as telemt lists it: what the agent owns of it, and its counters. *)
Record User := {
  u_Username : string;
  u_Enabled : bool;
  u_ExpirationRFC3339 : string;
  u_DataQuotaBytes : Z;
  u_RateLimitUpBps : Z;
  u_RateLimitDownBps : Z;
  u_MaxUniqueIPs : Z;
  u_MaxTCPConns : Z;
  u_UserAdTag : string;
  u_CurrentConnections : Z;
  u_ActiveUniqueIPs : Z;
  u_ActiveUniqueIPsList : option (list string);
  u_TotalOctets : Z
}.

Record CreateUserRequest := {
  cu_Username : string;
  cu_Secret : string;
  cu_MaxTCPConns : option Z;
  cu_ExpirationRFC3339 : option string;
  cu_DataQuotaBytes : option Z;
  cu_RateLimitUpBps : option Z;
  cu_RateLimitDownBps : option Z;
  cu_MaxUniqueIPs : option Z;
  cu_Enabled : option bool;
  cu_UserAdTag : option string
}.

(** [pu_Clear]: the fields sent as an explicit null. *)
Record PatchUserRequest := {
  pu_Secret : option string;
  pu_MaxTCPConns : option Z;
  pu_ExpirationRFC3339 : option string;
  pu_DataQuotaBytes : option Z;
  pu_RateLimitUpBps : option Z;
  pu_RateLimitDownBps : option Z;
  pu_MaxUniqueIPs : option Z;
  pu_Enabled : option bool;
  pu_UserAdTag : option string;
  pu_Clear : list string
}.

Record ReloadAccepted := { ReloadID : Z; ConfigRevision : string }.

Record ReloadStatusData := {
  rs_State : string;
  rs_Error : string;
  rs_DeferredProcessFields : list string
}.

Definition Terminal (r : ReloadStatusData) : bool :=
  existsb (String.eqb (rs_State r)) ["succeeded"; "failed"; "rolled_back"]%string.

(** The requests of the control API the agent makes, by the type of their
    answer; [GetConfig] answers with the revision of the configuration. *)
Inductive call : Type -> Type :=
| GetSystemInfo : call SystemInfo
| GetReady : call ReadyData
| GetConfig : call (object * string)
| GetWebStatus : call WebStatus
| GetUpstreams : call UpstreamsStats
| PatchConfig (patch : object) (reload : bool) : call PatchConfigResult
| PostPause (instance : string) : call unit
| PostResume (instance : string) : call unit
| PostDrain (instance : string) (timeout_secs : Z) : call unit
| ListUsers : call (list User)
| CreateUser (req : CreateUserRequest) : call unit
| PatchUser (username : string) (req : PatchUserRequest) : call unit
| DeleteUser (username : string) : call unit
| ResetQuota (username : string) : call unit
| Reload : call ReloadAccepted
| ReloadStatus (id : Z) : call ReloadStatusData.

(** The requests that change nothing on the node. *)
Definition read_only {A} (c : call A) : bool :=
  match c with
  | GetSystemInfo | GetReady | GetConfig | GetWebStatus | GetUpstreams | ListUsers | ReloadStatus _ => true
  | PatchConfig _ _ | PostPause _ | PostResume _ | PostDrain _ _ | CreateUser _ | PatchUser _ _
  | DeleteUser _ | ResetQuota _ | Reload => false
  end.

(** One step of an update, and the update as the panel reads it. *)
Record UpdateStep := {
  Key : string;
  StepState : string;
  Message : string;
  StepStartedUnixMs : Z;
  StepFinishedUnixMs : Z;
  StepSessions : Z;
  StepStreams : Z
}.

Record TelemtUpdate := {
  JobId : string;
  Phase : string;
  Outcome : string;
  UpdOk : bool;
  RolledBack : bool;
  FromVersion : string;
  ToVersion : string;
  StartedUnixMs : Z;
  FinishedUnixMs : Z;
  UpdError : string;
  Drained : bool;
  Steps : list UpdateStep
}.
