(* ===== verification/Json.v ===== *)
(** * JSON text

    Package [encoding/json] as the agent uses it on its own files: the compact
    text [json.Marshal] writes ([Json.marshal]) and the grammar
    [json.Unmarshal] reads ([Json.unmarshal]), with the round trip between
    them; what a decoded number is, and [reflect.DeepEqual] on decoded values.

    A number keeps its text.  Its value is taken exactly ([Json.number]): two
    texts of at most fifteen digits have the same [float64] value when they
    have the same value here.  A byte from 128 up is written as it is, which
    is what Go does with valid UTF-8 text. *)

From S2P Require Import Prelude TelemtTypes.

(** ** Structural induction on values *)

Section Ind.
Variable P : json -> Prop.
Hypothesis Pnull : P JNull.
Hypothesis Pbool : forall b, P (JBool b).
Hypothesis Pnumber : forall t, P (JNumber t).
Hypothesis Pstring : forall s, P (JString s).
Hypothesis Parray : forall l, Forall P l -> P (JArray l).
Hypothesis Pobject : forall o, Forall (fun e => P e.2) o -> P (JObject o).

Fixpoint json_induction (j : json) : P j :=
  match j with
  | JNull => Pnull
  | JBool b => Pbool b
  | JNumber t => Pnumber t
  | JString s => Pstring s
  | JArray l => Parray l ((fix go (l : list json) : Forall P l :=
      match l with [] => Forall_nil_2 _ | j :: l => Forall_cons_2 _ _ _ (json_induction j) (go l) end) l)
  | JObject o => Pobject o ((fix go (o : object) : Forall (fun e => P e.2) o :=
      match o with [] => Forall_nil_2 _ | e :: o => Forall_cons_2 _ e _ (json_induction e.2) (go o) end) o)
  end.

End Ind.

Module Json.

(** ** Numbers *)

Definition is_number_char (c : ascii) : bool :=
  Dec.is_digit c || existsb (Ascii.eqb c) ["-"; "+"; "."; "e"; "E"]%char.

(** The longest prefix of characters [f] accepts, and what follows it. *)
Fixpoint span (f : ascii -> bool) (s : string) : string * string :=
  match s with
  | EmptyString => (EmptyString, EmptyString)
  | String c t => if f c then let '(a, b) := span f t in (String c a, b) else (EmptyString, s)
  end.

(** A run of digits that is not empty. *)
Definition digits (s : string) : option (Z * nat * string) :=
  let '(d, rest) := span Dec.is_digit s in
  match Dec.parse_nonempty d with Some n => Some (n, String.length d, rest) | None => None end.

Definition exponent (s : string) : option Z :=
  match s with
  | EmptyString => Some 0
  | String c t =>
      if Ascii.eqb c "e"%char || Ascii.eqb c "E"%char then
        let '(neg, t) := match t with
                         | String "-" u => (true, u)
                         | String "+" u => (false, u)
                         | _ => (false, t)
                         end%char in
        match digits t with
        | Some (n, _, EmptyString) => Some (if neg then - n else n)
        | _ => None
        end
      else None
  end.

(** The value of the text of a number: [(m, e)] is m * 10^e. [None] when the
    text is not in the grammar. *)
Definition number (s : string) : option (Z * Z) :=
  let '(neg, s) := match s with String "-" t => (true, t) | _ => (false, s) end%char in
  let sign n := if (neg : bool) then - n else n in
  match digits s with
  | None => None
  | Some (n, len, rest) =>
      if (1 <? len)%nat && match s with String "0" _ => true | _ => false end%char then None
      else match rest with
           | String "." t =>
               match digits t with
               | Some (f, k, rest) =>
                   (fun e => (sign (n * 10 ^ Z.of_nat k + f), e - Z.of_nat k)) <$> exponent rest
               | None => None
               end
           | _ => (fun e => (sign n, e)) <$> exponent rest
           end%char
  end.

(** Equality of m * 10^e. *)
Definition same_number (a b : Z * Z) : bool :=
  let low := Z.min a.2 b.2 in
  a.1 * 10 ^ (a.2 - low) =? b.1 * 10 ^ (b.2 - low).

(** [v > n] for an integer [n] *)
Definition greater (v : Z * Z) (n : Z) : bool :=
  let low := Z.min v.2 0 in v.1 * 10 ^ (v.2 - low) >? n * 10 ^ (- low).

(** [int(v)] of a [float64]: towards zero. *)
Definition truncate (v : Z * Z) : Z := if v.2 <? 0 then Z.quot v.1 (10 ^ (- v.2)) else v.1 * 10 ^ v.2.

(** The decoded number: 0 for a text outside the grammar, which is not one. *)
Definition value (text : string) : Z * Z := match number text with Some v => v | None => (0, 0) end.

(** ** [reflect.DeepEqual] of decoded values *)

Fixpoint DeepEqual (a b : json) {struct a} : bool :=
  match a, b with
  | JNull, JNull => true
  | JBool x, JBool y => Bool.eqb x y
  | JNumber x, JNumber y => same_number (value x) (value y)
  | JString x, JString y => String.eqb x y
  | JArray x, JArray y =>
      (fix go (x y : list json) : bool :=
         match x, y with
         | [], [] => true
         | a :: x, b :: y => DeepEqual a b && go x y
         | _, _ => false
         end) x y
  | JObject x, JObject y =>
      (List.length x =? List.length y)%nat &&
      (fix go (x : object) : bool :=
         match x with
         | [] => true
         | (k, a) :: x => match member y k with Some b => DeepEqual a b && go x | None => false end
         end) x
  | _, _ => false
  end.

(** ** Writing *)

Definition dquote : ascii := ascii_of_nat 34.

Definition control_escape (n : nat) : string :=
  String "\"%char (String "u"%char (String "0"%char (String "0"%char
    (String (Str.hex_digit (n / 16)) (String (Str.hex_digit (n mod 16)) EmptyString))))).

(** Escaping of a byte of a string; the characters of HTML are escaped too. *)
Definition escape (c : ascii) : string :=
  let n := nat_of_ascii c in
  let short b := String "\"%char (String b EmptyString) in
  match n with
  | 34%nat => short dquote
  | 92%nat => short "\"%char
  | 8%nat => short "b"%char
  | 9%nat => short "t"%char
  | 10%nat => short "n"%char
  | 12%nat => short "f"%char
  | 13%nat => short "r"%char
  | _ => if (n <? 32)%nat || (n =? 38)%nat || (n =? 60)%nat || (n =? 62)%nat
         then control_escape n else String c EmptyString
  end.

Fixpoint escape_all (s : string) : string :=
  match s with EmptyString => EmptyString | String c s => escape c +:+ escape_all s end.

Definition quoted (s : string) : string := String dquote (escape_all s +:+ String dquote EmptyString).

(** [json.Marshal] of a value; the entries of an object in the order given. *)
Fixpoint marshal (j : json) : string :=
  match j with
  | JNull => "null"
  | JBool true => "true"
  | JBool false => "false"
  | JNumber t => t
  | JString s => quoted s
  | JArray l => "[" +:+ Str.join "," (map marshal l) +:+ "]"
  | JObject o => "{" +:+ Str.join "," (map (fun e => quoted e.1 +:+ ":" +:+ marshal e.2) o) +:+ "}"
  end.

(** ** Reading *)

Definition hex_value (c : ascii) : option Z :=
  let n := Z.of_nat (nat_of_ascii c) in
  if (48 <=? n) && (n <=? 57) then Some (n - 48)
  else if (97 <=? n) && (n <=? 102) then Some (n - 87)
  else if (65 <=? n) && (n <=? 70) then Some (n - 55)
  else None.

Definition hex4 (a b c d : ascii) : option Z :=
  match hex_value a, hex_value b, hex_value c, hex_value d with
  | Some a, Some b, Some c, Some d => Some (((a * 16 + b) * 16 + c) * 16 + d)
  | _, _, _, _ => None
  end.

Definition byte (n : Z) : ascii := ascii_of_nat (Z.to_nat n).

(** The UTF-8 text of a code point. *)
Definition utf8 (n : Z) : string :=
  if n <? 128 then String (byte n) EmptyString
  else if n <? 2048 then String (byte (192 + n / 64)) (String (byte (128 + n mod 64)) EmptyString)
  else if n <? 65536 then
    String (byte (224 + n / 4096)) (String (byte (128 + n / 64 mod 64)) (String (byte (128 + n mod 64)) EmptyString))
  else String (byte (240 + n / 262144)) (String (byte (128 + n / 4096 mod 64))
         (String (byte (128 + n / 64 mod 64)) (String (byte (128 + n mod 64)) EmptyString))).

Definition surrogate (n : Z) : bool := (55296 <=? n) && (n <? 57344).

(** The character of two surrogates. *)
Definition pair_of (hi lo : Z) : option Z :=
  if (55296 <=? hi) && (hi <? 56320) && (56320 <=? lo) && (lo <? 57344)
  then Some (65536 + (hi - 55296) * 1024 + (lo - 56320)) else None.

Definition replacement : Z := 65533.

Definition unescape (c : ascii) : option ascii :=
  match nat_of_ascii c with
  | 34%nat => Some dquote
  | 92%nat => Some "\"%char
  | 47%nat => Some "/"%char
  | 98%nat => Some (ascii_of_nat 8)
  | 102%nat => Some (ascii_of_nat 12)
  | 110%nat => Some (ascii_of_nat 10)
  | 114%nat => Some (ascii_of_nat 13)
  | 116%nat => Some (ascii_of_nat 9)
  | _ => None
  end.

Definition prepend (s : string) (r : option (string * string)) : option (string * string) :=
  match r with Some (t, rest) => Some (s +:+ t, rest) | None => None end.

(** The rest of a string after its opening quote, and what follows it. *)
Fixpoint parse_string (s : string) : option (string * string) :=
  match s with
  | EmptyString => None
  | String c s =>
      if Ascii.eqb c dquote then Some (EmptyString, s)
      else if Ascii.eqb c "\"%char then
        match s with
        | EmptyString => None
        | String e s1 =>
            if Ascii.eqb e "u"%char then
              match s1 with
              | String a (String b (String c (String d s2))) =>
                  match hex4 a b c d with
                  | None => None
                  | Some n =>
                      if negb (surrogate n) then prepend (utf8 n) (parse_string s2)
                      else match s2 with
                           | String "\" (String "u" (String a (String b (String c (String d s3))))) =>
                               match hex4 a b c d with
                               | None => None
                               | Some m =>
                                   match pair_of n m with
                                   | Some p => prepend (utf8 p) (parse_string s3)
                                   | None => prepend (utf8 replacement) (parse_string s2)
                                   end
                               end
                           | _ => prepend (utf8 replacement) (parse_string s2)
                           end%char
                  end
              | _ => None
              end
            else match unescape e with
                 | Some x => prepend (String x EmptyString) (parse_string s1)
                 | None => None
                 end
        end
      else if (nat_of_ascii c <? 32)%nat then None
      else prepend (String c EmptyString) (parse_string s)
  end.

Definition is_space (c : ascii) : bool := existsb (Nat.eqb (nat_of_ascii c)) [32; 9; 10; 13]%nat.

Definition skip (s : string) : string := (span is_space s).2.

Definition literal (word : string) (j : json) (s : string) : option (json * string) :=
  match Str.cut_prefix s word with Some rest => Some (j, rest) | None => None end.

(** The next token of punctuation. *)
Definition expect (c : ascii) (s : string) : option string :=
  match skip s with String d rest => if Ascii.eqb d c then Some rest else None | EmptyString => None end.

Section Parse.
Variable parse : string -> option (json * string).

(** The elements after an element of an array has to come. *)
Fixpoint elements (fuel : nat) (s : string) : option (list json * string) :=
  match fuel with
  | O => None
  | S fuel =>
      match parse s with
      | None => None
      | Some (j, rest) =>
          match expect ","%char rest with
          | Some rest => match elements fuel rest with Some (l, rest) => Some (j :: l, rest) | None => None end
          | None => match expect "]"%char rest with Some rest => Some ([j], rest) | None => None end
          end
      end
  end.

Definition entry (s : string) : option (string * json * string) :=
  match expect dquote s with
  | None => None
  | Some s =>
      match parse_string s with
      | None => None
      | Some (k, rest) =>
          match expect ":"%char rest with
          | None => None
          | Some rest => match parse rest with Some (j, rest) => Some (k, j, rest) | None => None end
          end
      end
  end.

Fixpoint entries (fuel : nat) (s : string) : option (object * string) :=
  match fuel with
  | O => None
  | S fuel =>
      match entry s with
      | None => None
      | Some (k, j, rest) =>
          match expect ","%char rest with
          | Some rest => match entries fuel rest with Some (o, rest) => Some ((k, j) :: o, rest) | None => None end
          | None => match expect "}"%char rest with Some rest => Some ([(k, j)], rest) | None => None end
          end
      end
  end.

End Parse.

(** One value and what follows it; [fuel] bounds the depth and the length of
    the arrays and objects. *)
Fixpoint parse (fuel : nat) (s : string) : option (json * string) :=
  match fuel with
  | O => None
  | S fuel =>
      match skip s with
      | EmptyString => None
      | String c t as s =>
          if Ascii.eqb c "["%char then
            match expect "]"%char t with
            | Some rest => Some (JArray [], rest)
            | None => match elements (parse fuel) fuel t with Some (l, rest) => Some (JArray l, rest) | None => None end
            end
          else if Ascii.eqb c "{"%char then
            match expect "}"%char t with
            | Some rest => Some (JObject [], rest)
            | None => match entries (parse fuel) fuel t with Some (o, rest) => Some (JObject o, rest) | None => None end
            end
          else if Ascii.eqb c dquote then
            match parse_string t with Some (x, rest) => Some (JString x, rest) | None => None end
          else if Ascii.eqb c "n"%char then literal "null" JNull s
          else if Ascii.eqb c "t"%char then literal "true" (JBool true) s
          else if Ascii.eqb c "f"%char then literal "false" (JBool false) s
          else let '(x, rest) := span is_number_char s in
               match number x with Some _ => Some (JNumber x, rest) | None => None end
      end
  end.

(** [json.Unmarshal] into an [any] that keeps the text of numbers. *)
Definition unmarshal (s : string) : option json :=
  match parse (S (String.length s)) s with
  | Some (j, rest) => match skip rest with EmptyString => Some j | _ => None end
  | None => None
  end.

(** ** Reading what was written *)

Definition number_ok (t : string) : bool :=
  forallb is_number_char (Str.bytes t) && match number t with Some _ => true | None => false end.

(** The texts of the numbers are numbers. *)
Fixpoint well_formed (j : json) : bool :=
  match j with
  | JNumber t => number_ok t
  | JArray l => forallb well_formed l
  | JObject o => forallb (fun e => well_formed e.2) o
  | _ => true
  end.

(** What may follow a value. *)
Definition stops (s : string) : bool :=
  match s with EmptyString => true | String c _ => negb (is_number_char c) end.

Definition lead (c : ascii) : bool := negb (is_space c || Ascii.eqb c "]"%char || Ascii.eqb c "}"%char || Ascii.eqb c ","%char).

Lemma prepend_Some s t rest : prepend s (Some (t, rest)) = Some (s +:+ t, rest).
Proof. done. Qed.

Lemma parse_string_escape c s : parse_string (escape c +:+ s) = prepend (String c EmptyString) (parse_string s).
Proof. destruct c as [[] [] [] [] [] [] [] []]; reflexivity. Qed.

Lemma parse_string_escape_all s rest :
  parse_string (escape_all s +:+ String dquote rest) = Some (s, rest).
Proof.
  induction s as [|c s IH]; [done|]. cbn [escape_all]. rewrite Str.append_assoc, parse_string_escape, IH. done.
Qed.

Lemma parse_quoted s rest : parse_string (escape_all s +:+ String dquote EmptyString +:+ rest) = Some (s, rest).
Proof. apply parse_string_escape_all. Qed.

Lemma span_all f t rest : forallb f (Str.bytes t) = true ->
  match rest with EmptyString => true | String c _ => negb (f c) end = true -> span f (t +:+ rest) = (t, rest).
Proof.
  intros Ht Hr. induction t as [|c t IH].
  - rewrite Str.append_nil_l. destruct rest as [|c rest]; cbn in *; [done|]. by destruct (f c).
  - cbn in Ht. apply andb_true_iff in Ht as [Hc Ht]. rewrite Str.append_cons. cbn [span]. by rewrite Hc, IH.
Qed.

Lemma skip_lead c s : is_space c = false -> skip (String c s) = String c s.
Proof. intros E. unfold skip. cbn [span]. by rewrite E. Qed.

Lemma expect_here c s : is_space c = false -> expect c (String c s) = Some s.
Proof. intros E. unfold expect. by rewrite skip_lead, Ascii.eqb_refl. Qed.

Lemma expect_other c d s : is_space d = false -> Ascii.eqb d c = false -> expect c (String d s) = None.
Proof. intros E F. unfold expect. by rewrite skip_lead, F. Qed.

Lemma number_lead c t : number_ok (String c t) = true -> lead c = true /\
  existsb (Ascii.eqb c) ["["; "{"; dquote; "n"; "t"; "f"]%char = false.
Proof.
  unfold number_ok. cbn [Str.bytes forallb]. rewrite !andb_true_iff. intros [[Hc _] _]. revert Hc.
  destruct c as [[] [] [] [] [] [] [] []]; vm_compute; intros H; first [discriminate H|split; reflexivity].
Qed.

(** The text of a value does not start with a space or the end of an array or object. *)
Lemma marshal_lead j : well_formed j = true -> exists c s, marshal j = String c s /\ lead c = true.
Proof.
  destruct j as [|[]|t|s|l|o]; intros W;
    [by eexists _, _|by eexists _, _|by eexists _, _| |by eexists _, _|by eexists _, _|by eexists _, _].
  change (number_ok t = true) in W. destruct t as [|c t]; [discriminate W|]. exists c, t. split; [done|].
  by apply number_lead in W as [W _].
Qed.

Lemma lead_not c d : lead c = true -> lead d = false -> Ascii.eqb c d = false.
Proof. intros Hc Hd. apply Ascii.eqb_neq. congruence. Qed.

Lemma lead_space c : lead c = true -> is_space c = false.
Proof. unfold lead. by destruct (is_space c). Qed.

Lemma expect_marshal c j s : well_formed j = true -> lead c = false -> expect c (marshal j +:+ s) = None.
Proof.
  intros W Hc. destruct (marshal_lead j W) as (d & t & -> & Hd). cbn.
  apply expect_other; [by apply lead_space|by apply lead_not].
Qed.

Lemma join_cons a b l : Str.join "," (a :: b :: l) = a +:+ String "," (Str.join "," (b :: l)).
Proof. done. Qed.

(** A reader [p] of values that reads back [j] before any text that may follow. *)
Definition reads (p : string -> option (json * string)) (j : json) : Prop :=
  forall rest, stops rest = true -> p (marshal j +:+ rest) = Some (j, rest).

Lemma elements_marshal p l rest j fuel :
  Forall (reads p) (j :: l) -> (List.length l < fuel)%nat ->
  elements p fuel (Str.join "," (map marshal (j :: l)) +:+ String "]" rest) = Some (j :: l, rest).
Proof.
  revert j fuel. induction l as [|k l IH]; intros j [|fuel] HF Hl; try (cbn in Hl; lia);
    inversion HF as [|? ? Hj Hl']; subst; cbn [elements].
  - cbn [map Str.join]. by rewrite Hj.
  - cbn [map]. rewrite join_cons, !Str.append_assoc, Hj by done.
    rewrite Str.append_cons, (expect_here ","%char) by done. change (marshal k :: map marshal l) with (map marshal (k :: l)).
    rewrite IH; [done|done|cbn in Hl; lia].
Qed.

Definition entry_text (e : string * json) : string := quoted e.1 +:+ ":" +:+ marshal e.2.

Lemma entry_marshal p e rest : reads p e.2 -> stops rest = true ->
  entry p (entry_text e +:+ rest) = Some (e.1, e.2, rest).
Proof.
  intros Hp Hr. unfold entry, entry_text, quoted. rewrite !Str.append_assoc, Str.append_cons, expect_here by done.
  rewrite Str.append_assoc, parse_quoted, Str.append_cons, Str.append_nil_l.
  rewrite expect_here by done. by rewrite Hp.
Qed.

Lemma entries_marshal p o rest e fuel :
  Forall (fun e => reads p e.2) (e :: o) -> (List.length o < fuel)%nat ->
  entries p fuel (Str.join "," (map entry_text (e :: o)) +:+ String "}" rest) = Some (e :: o, rest).
Proof.
  revert e fuel. induction o as [|k o IH]; intros e [|fuel] HF Hl; try (cbn in Hl; lia);
    inversion HF as [|? ? He Ho]; subst; cbn [entries].
  - cbn [map Str.join]. rewrite entry_marshal by done. by destruct e.
  - cbn [map]. rewrite join_cons, !Str.append_assoc, entry_marshal by done.
    rewrite Str.append_cons, (expect_here ","%char) by done. change (entry_text k :: map entry_text o) with (map entry_text (k :: o)).
    rewrite IH; [by destruct e|done|cbn in Hl; lia].
Qed.

Lemma join_length l x : In x l -> (String.length x <= String.length (Str.join "," l))%nat.
Proof.
  induction l as [|a [|b l] IH]; [done| |]; intros [->|Hx]; [done|done| |].
  - rewrite join_cons, !Str.length_append. lia.
  - rewrite join_cons, !Str.length_append. specialize (IH Hx). cbn [String.length]. lia.
Qed.

Lemma join_count l : (List.length l <= S (String.length (Str.join "," l)))%nat.
Proof.
  induction l as [|a [|b l] IH]; [cbn; lia|cbn; lia|]. rewrite join_cons, !Str.length_append.
  cbn [List.length String.length] in *. lia.
Qed.

Lemma marshal_object o : marshal (JObject o) = "{" +:+ Str.join "," (map entry_text o) +:+ "}".
Proof. done. Qed.

(** Every element of a list has a text at most as long as the joined texts. *)
Lemma element_fits {A} (f : A -> string) l x : In x l -> (String.length (f x) <= String.length (Str.join "," (map f l)))%nat.
Proof. intros Hx. by apply join_length, in_map. Qed.

Lemma length_text {A} (f : A -> string) l : (List.length l <= S (String.length (Str.join "," (map f l))))%nat.
Proof. rewrite <- (length_map f l). apply join_count. Qed.

Lemma In_Forall_2 {A} (P Q : A -> Prop) l : Forall P l -> (forall x, In x l -> P x -> Q x) -> Forall Q l.
Proof. intros HF HQ. apply Forall_forall. intros x Hx. apply list_elem_of_In in Hx. apply HQ; [done|]. rewrite Forall_forall in HF. by apply HF, list_elem_of_In. Qed.

Lemma parse_quote fuel s : parse (S fuel) (String dquote s) =
  match parse_string s with Some (x, rest) => Some (JString x, rest) | None => None end.
Proof. done. Qed.

Lemma parse_number t fuel rest : number_ok t = true -> stops rest = true ->
  parse (S fuel) (t +:+ rest) = Some (JNumber t, rest).
Proof.
  intros W Hr. destruct t as [|c t]; [discriminate W|]. destruct (number_lead c t W) as [Hc Hn].
  rewrite Str.append_cons. cbn [parse]. rewrite skip_lead by by apply lead_space.
  cbn [existsb] in Hn. rewrite !orb_false_iff in Hn. destruct Hn as (-> & -> & -> & -> & -> & -> & _).
  rewrite <- Str.append_cons. unfold number_ok in W. apply andb_true_iff in W as [W1 W2].
  rewrite span_all; [|done|by destruct rest]. by destruct (number (String c t)).
Qed.

Lemma marshal_fits j fuel : well_formed j = true -> (String.length (marshal j) <= fuel)%nat -> fuel <> O.
Proof. intros W Hf ->. destruct (marshal_lead j W) as (c & s & E & _). rewrite E in Hf. cbn in Hf. lia. Qed.

Lemma parse_literal word j fuel rest :
  In (word, j) [("null", JNull); ("true", JBool true); ("false", JBool false)]%string ->
  parse (S fuel) (word +:+ rest) = Some (j, rest).
Proof.
  intros [[=]|[[=]|[[=]|[]]]]; subst; rewrite !Str.append_cons, Str.append_nil_l; cbn [parse];
    rewrite skip_lead by done; cbn -[Str.cut_prefix]; rewrite <- ?Str.append_cons; unfold literal.
  all: [> change (Str.cut_prefix _ "null") with (Str.cut_prefix ("null" +:+ rest) "null")
       | change (Str.cut_prefix _ "true") with (Str.cut_prefix ("true" +:+ rest) "true")
       | change (Str.cut_prefix _ "false") with (Str.cut_prefix ("false" +:+ rest) "false")];
    by rewrite Str.cut_prefix_append.
Qed.

Lemma parse_marshal j : well_formed j = true ->
  forall fuel, (String.length (marshal j) <= fuel)%nat -> reads (parse (S fuel)) j.
Proof.
  induction j as [|[]|t|s|l IH|o IH] using json_induction; intros W fuel Hf rest Hr.
  - apply parse_literal. cbn. tauto.
  - apply parse_literal. cbn. tauto.
  - apply parse_literal. cbn. tauto.
  - by apply parse_number.
  - unfold marshal, quoted. rewrite Str.append_cons, Str.append_assoc, parse_quote. by rewrite parse_quoted.
  - destruct fuel as [|fuel]; [by destruct (marshal_fits _ 0 W Hf)|]. destruct l as [|k l]; [done|].
    change (marshal (JArray (k :: l))) with ("[" +:+ Str.join "," (map marshal (k :: l)) +:+ "]") in *.
    rewrite !Str.length_append in Hf. cbn [String.length] in Hf. cbn in W.
    assert (HF : Forall (reads (parse (S fuel))) (k :: l)).
    { eapply In_Forall_2; [exact IH|]. intros x Hx Hp. apply Hp.
      - change (forallb well_formed (k :: l) = true) in W. rewrite forallb_forall in W. by apply W.
      - pose proof (element_fits marshal _ _ Hx). lia. }
    rewrite !Str.append_assoc, Str.append_cons, Str.append_nil_l. cbn [parse]. rewrite skip_lead by done.
    cbn [Ascii.eqb]. replace (expect "]"%char _) with (@None string).
    + rewrite Str.append_cons, Str.append_nil_l. rewrite elements_marshal; [done|done|].
      pose proof (length_text marshal (k :: l)). cbn [List.length] in *. lia.
    + symmetry. apply andb_true_iff in W as [W _]. destruct l as [|m l].
      * cbn [map Str.join]. by apply expect_marshal.
      * cbn [map]. rewrite join_cons, Str.append_assoc. by apply expect_marshal.
  - destruct fuel as [|fuel]; [by destruct (marshal_fits _ 0 W Hf)|]. destruct o as [|k o]; [done|].
    rewrite marshal_object in *.
    rewrite !Str.length_append in Hf. cbn [String.length] in Hf. cbn in W.
    assert (HF : Forall (fun e => reads (parse (S fuel)) e.2) (k :: o)).
    { eapply In_Forall_2; [exact IH|]. intros x Hx Hp. apply Hp.
      - change (forallb (fun e : string * json => well_formed e.2) (k :: o) = true) in W. rewrite forallb_forall in W. by apply W.
      - pose proof (element_fits entry_text _ _ Hx). unfold entry_text in H at 1. rewrite !Str.length_append in H. lia. }
    rewrite !Str.append_assoc, Str.append_cons, Str.append_nil_l. cbn [parse]. rewrite skip_lead by done.
    cbn [Ascii.eqb]. replace (expect "}"%char _) with (@None string).
    + rewrite Str.append_cons, Str.append_nil_l. rewrite entries_marshal; [done|done|].
      pose proof (length_text entry_text (k :: o)). cbn [List.length] in *. lia.
    + symmetry. destruct o as [|m o]; cbn [map Str.join]; unfold entry_text at 1, quoted at 1;
        rewrite !Str.append_assoc, Str.append_cons; by apply expect_other.
Qed.

(** What was written is read back, also with white space after it. *)
Lemma unmarshal_spaced j rest : well_formed j = true -> stops rest = true -> skip rest = EmptyString ->
  unmarshal (marshal j +:+ rest) = Some j.
Proof.
  intros W Hs Hr. unfold unmarshal. rewrite Str.length_append.
  rewrite (parse_marshal j W) by (lia || done). by rewrite Hr.
Qed.

Lemma unmarshal_marshal j : well_formed j = true -> unmarshal (marshal j) = Some j.
Proof. intros W. rewrite <- (Str.append_nil_r (marshal j)). by apply unmarshal_spaced. Qed.

(** ** Integers *)

Lemma digit_char n : 0 <= n < 10 -> Dec.is_digit (Dec.digit n) = true /\ Dec.digit_value (Dec.digit n) = n /\
  (n <> 0 -> Ascii.eqb (Dec.digit n) "0" = false).
Proof.
  intros H. assert (In n [0;1;2;3;4;5;6;7;8;9]) as Hin by (cbn; lia). clear H. cbn in Hin.
  repeat destruct Hin as [<-|Hin]; (done || by split_and!).
Qed.

(** The digits of a number, before [acc]: all are digits, they are worth the
    number, and the first is 0 only for 0. *)
Definition numeral (n : Z) (s : string) : Prop :=
  forallb Dec.is_digit (Str.bytes s) = true /\
  (forall a, Dec.parse_digits s a = Some (a * 10 ^ Z.of_nat (String.length s) + n)) /\
  exists c t, s = String c t /\ (Ascii.eqb c "0" = true -> t = EmptyString).

Lemma parse_digits_snoc s c a n : Dec.parse_digits s a = Some n -> Dec.is_digit c = true ->
  Dec.parse_digits (s +:+ String c EmptyString) a = Some (10 * n + Dec.digit_value c).
Proof.
  revert a. induction s as [|d s IH]; intros a Hs Hc.
  - injection Hs as ->. rewrite Str.append_nil_l. cbn [Dec.parse_digits]. by rewrite Hc.
  - rewrite Str.append_cons. cbn in *. destruct (Dec.is_digit d); [by apply IH|done].
Qed.

Lemma numeral_digits fuel n acc : 0 <= n -> (n < 2 ^ Z.of_nat fuel) -> (0 < fuel)%nat ->
  exists s, Dec.digits fuel n acc = s +:+ acc /\ numeral n s.
Proof.
  revert n acc. induction fuel as [|fuel IH]; intros n acc Hn Hf Hp; [lia|]. cbn [Dec.digits].
  assert (0 <= n mod 10 < 10) as Hm by (apply Z.mod_pos_bound; lia). destruct (digit_char _ Hm) as (Hd & Hv & Hz).
  destruct (Z.ltb_spec n 10) as [H10|H10].
  - exists (String (Dec.digit (n mod 10)) EmptyString). rewrite Z.mod_small in * by lia. split; [done|]. split_and!.
    + cbn. by rewrite Hd.
    + intros a. cbn. rewrite Hd, Hv. f_equal. lia.
    + by eexists _, _.
  - assert (n / 10 < 2 ^ Z.of_nat fuel) as Hlt.
    { rewrite Nat2Z.inj_succ, Z.pow_succ_r in Hf by lia. Z.to_euclidean_division_equations; lia. }
    destruct fuel as [|fuel]; [change (2 ^ Z.of_nat 0) with 1 in Hlt; Z.to_euclidean_division_equations; lia|].
    destruct (IH (n / 10) (String (Dec.digit (n mod 10)) acc)) as (s & -> & Hs & Hval & c & t & -> & H0); [apply Z.div_pos; lia|done|lia|].
    exists (String c t +:+ String (Dec.digit (n mod 10)) EmptyString). split; [by rewrite Str.append_assoc|]. split_and!.
    + rewrite Str.bytes_append, forallb_app, Hs. cbn. by rewrite Hd.
    + intros a. rewrite (parse_digits_snoc _ _ _ _ (Hval a) Hd), Hv, Str.length_append. f_equal.
      cbn [String.length]. rewrite Nat2Z.inj_add, Z.pow_add_r by lia. change (10 ^ Z.of_nat 1) with 10.
      pose proof (Z.div_mod n 10). lia.
    + exists c, (t +:+ String (Dec.digit (n mod 10)) EmptyString). split; [done|]. intros E. exfalso. rewrite (H0 E) in Hval.
      specialize (Hval 0). cbn in Hval. destruct (Dec.is_digit c); [|done]. injection Hval as Hval.
      apply Ascii.eqb_eq in E. subst c. change (Dec.digit_value "0") with 0 in Hval.
      assert (n / 10 = 0) by lia. Z.to_euclidean_division_equations; lia.
Qed.

Lemma numeral_itoa n : 0 <= n -> numeral n (Dec.itoa n).
Proof.
  intros Hn. unfold Dec.itoa. replace (n <? 0) with false by lia.
  destruct (numeral_digits (Dec.fuel n) n EmptyString) as (s & -> & Hs); [done| |unfold Dec.fuel; lia|by rewrite Str.append_nil_r].
  unfold Dec.fuel. rewrite Nat2Z.inj_succ, Z2Nat.id by apply Z.log2_nonneg.
  destruct (decide (n = 0)) as [->|]; [done|]. apply Z.log2_lt_pow2; lia.
Qed.

Lemma itoa_neg n : n < 0 -> Dec.itoa n = String "-" (Dec.itoa (- n)).
Proof. intros H. unfold Dec.itoa. by replace (n <? 0) with true by lia; replace (- n <? 0) with false by lia. Qed.

Lemma numeral_nonempty n s : numeral n s -> Dec.parse_nonempty s = Some n.
Proof. intros (_ & Hv & c & t & -> & _). unfold Dec.parse_nonempty. by rewrite Hv. Qed.

(** A numeral does not start with a sign. *)
Lemma numeral_head n c t : numeral n (String c t) -> Dec.is_digit c = true.
Proof. intros (Hs & _). cbn in Hs. by apply andb_true_iff in Hs as [? _]. Qed.

Lemma digit_not c d : Dec.is_digit c = true -> Dec.is_digit d = false -> Ascii.eqb c d = false.
Proof. intros Hc Hd. apply Ascii.eqb_neq. congruence. Qed.

Lemma atoi_itoa n : Dec.min_int64 <= n <= Dec.max_int64 -> Dec.atoi (Dec.itoa n) = Some n.
Proof.
  intros Hr. assert (forall v, v = Some n -> (match v with Some n => if (Dec.min_int64 <=? n) && (n <=? Dec.max_int64) then Some n else None | None => None end) = Some n) as Hin.
  { intros v ->. by replace ((Dec.min_int64 <=? n) && (n <=? Dec.max_int64)) with true by lia. }
  unfold Dec.atoi. apply Hin. destruct (Z.ltb_spec n 0) as [H|H].
  - rewrite itoa_neg by done. cbn. rewrite (numeral_nonempty _ _ (numeral_itoa (- n) ltac:(lia))). cbn. f_equal. lia.
  - pose proof (numeral_itoa n H) as N. destruct (Dec.itoa n) as [|c t] eqn:E; [by destruct N as (_ & _ & ? & ? & [=] & _)|].
    rewrite !(digit_not c) by (done || by eapply numeral_head). by apply numeral_nonempty.
Qed.

Lemma digits_numeral n s : numeral n s -> digits s = Some (n, String.length s, EmptyString).
Proof.
  intros N. pose proof N as (Hs & _). unfold digits. rewrite <- (Str.append_nil_r s) at 1. rewrite span_all by done.
  by rewrite (numeral_nonempty n).
Qed.

Lemma number_numeral n s neg : numeral n s ->
  number (if neg : bool then String "-" s else s) = Some (if neg then - n else n, 0).
Proof.
  intros N. pose proof N as (_ & _ & c & t & E & H0). pose proof (digits_numeral n s N) as Hd.
  assert (Hz : (1 <? String.length s)%nat && match s with String "0" _ => true | _ => false end%char = false).
  { subst s. destruct (Ascii.eqb_spec c "0") as [->|Hc]; [by rewrite (H0 eq_refl)|]. rewrite andb_false_iff. right.
    destruct c as [[] [] [] [] [] [] [] []]; done. }
  assert (number s = Some (n, 0)) as Hs.
  { unfold number. replace (match s with String "-" t => (true, t) | _ => (false, s) end)%char with (false, s).
    - by rewrite Hd, Hz.
    - subst s. apply numeral_head in N. by destruct c as [[] [] [] [] [] [] [] []]. }
  destruct neg; [|done]. unfold number. by rewrite Hd, Hz.
Qed.

Lemma number_itoa n : number (Dec.itoa n) = Some (n, 0).
Proof.
  destruct (Z.ltb_spec n 0) as [H|H].
  - rewrite itoa_neg by done. rewrite (number_numeral (- n) _ true) by (apply numeral_itoa; lia). by rewrite Z.opp_involutive.
  - by apply (number_numeral n _ false), numeral_itoa.
Qed.

Lemma number_ok_itoa n : number_ok (Dec.itoa n) = true.
Proof.
  unfold number_ok. rewrite number_itoa, andb_true_r.
  assert (forall s, forallb Dec.is_digit (Str.bytes s) = true -> forallb is_number_char (Str.bytes s) = true) as Hd.
  { intros s. rewrite !forallb_forall. intros Hs x Hx. unfold is_number_char. by rewrite (Hs x Hx). }
  destruct (Z.ltb_spec n 0) as [H|H].
  - rewrite itoa_neg by done. cbn. apply Hd. by destruct (numeral_itoa (- n) ltac:(lia)).
  - apply Hd. by destruct (numeral_itoa n H).
Qed.

End Json.
