(* ===== verification/Capabilities.v ===== *)
(** * What a telemt node supports

    internal/telemt/capabilities.go: the panel works a node's capabilities out
    of its version and of two read-only observations.  A capability is
    supported, not supported, or unknown because it could not be asked. *)

From S2P Require Import Prelude TelemtTypes.

Record TelemtCapabilities := {
  Web : bool;
  CarrierNegotiation : bool;
  CarrierLearning : bool;
  CarrierLearningReset : bool;
  WebPause : bool;
  WebDrain : bool;
  WebResume : bool;
  WebRuntime : bool;
  HttpUpstreamDecoy : bool;
  TLSEmulation : bool;
  MiddleProxy : bool
}.

Definition CapWeb : string := "Web".
Definition CapCarrierNegotiation : string := "CarrierNegotiation".
Definition CapCarrierLearning : string := "CarrierLearning".
Definition CapCarrierLearningReset : string := "CarrierLearningReset".
Definition CapWebPause : string := "WebPause".
Definition CapWebDrain : string := "WebDrain".
Definition CapWebResume : string := "WebResume".
Definition CapWebRuntime : string := "WebRuntime".
Definition CapHTTPUpstreamDecoy : string := "HttpUpstreamDecoy".
Definition CapTLSEmulation : string := "TLSEmulation".
Definition CapMiddleProxy : string := "MiddleProxy".

Definition UnknownCapabilities : Type := gset string.

Definition Has (u : UnknownCapabilities) (name : string) : bool := bool_decide (name ∈ u).

(** What the computation reads: [Status] is the WEB status or the error of
    asking for it, [Config] the config where it could be read. *)
Record CapabilityProbe := {
  Version : string;
  Status : WebStatus + apierror;
  Config : option object
}.

(** ** Versions *)

Definition version : Type := Z * Z * Z.

(** The text before the first hyphen or plus. *)
Fixpoint before_suffix (s : string) : string :=
  match s with
  | EmptyString => EmptyString
  | String c s => if Ascii.eqb c "-" || Ascii.eqb c "+" then EmptyString else String c (before_suffix s)
  end.

Definition ParseVersion (s : string) : option version :=
  match last (Str.fields s) with
  | None => None
  | Some raw =>
      match Str.split "." (before_suffix (Str.trim_prefix raw "v")) with
      | [a; b; c] =>
          match Dec.atoi a, Dec.atoi b, Dec.atoi c with
          | Some a, Some b, Some c => Some (a, b, c)
          | _, _, _ => None
          end
      | _ => None
      end
  end.

Definition compareVersion (a b : version) : Z :=
  let '(a1, a2, a3) := a in let '(b1, b2, b3) := b in
  if a1 <? b1 then -1 else if a1 >? b1 then 1
  else if a2 <? b2 then -1 else if a2 >? b2 then 1
  else if a3 <? b3 then -1 else if a3 >? b3 then 1
  else 0.

Definition VersionAtLeast (raw : string) (minimum : version) : bool :=
  match ParseVersion raw with
  | Some v => compareVersion v minimum >=? 0
  | None => false
  end.

Definition capabilityMinVersion : gmap string version := list_to_map [
  (CapWeb, (3, 5, 1)); (CapCarrierNegotiation, (3, 5, 1)); (CapHTTPUpstreamDecoy, (3, 5, 1));
  (CapWebRuntime, (3, 5, 6)); (CapWebPause, (3, 5, 6)); (CapWebDrain, (3, 5, 6)); (CapWebResume, (3, 5, 6));
  (CapCarrierLearning, (3, 5, 7)); (CapCarrierLearningReset, (3, 5, 7));
  (CapTLSEmulation, (3, 5, 0)); (CapMiddleProxy, (3, 5, 0))].

(** ** The computation *)

Inductive tri := triUnknown | triNo | triYes.

#[export] Instance tri_eq_dec : EqDecision tri.
Proof. solve_decision. Defined.

(** Whether the error came from telemt itself. *)
Definition endpointAnswered (e : apierror) : bool :=
  match e with
  | APIError _ code _ => negb (String.eqb code EmptyString) && negb (String.eqb code "unexpected_response")
  | Transport _ => false
  end.

Definition configHasKey (cfg : object) (section key : string) : bool :=
  match as_object (member cfg section) with
  | Some sub => match member sub key with Some _ => true | None => false end
  | None => false
  end.

Definition has_upstream (raw : json) : bool :=
  match as_object (Some raw) with
  | None => false
  | Some vhost =>
      match as_object (member vhost "decoy") with
      | None => false
      | Some decoy =>
          match member decoy "http_upstream", member decoy "upstream" with
          | None, None =>
              match as_string (member decoy "mode") with Some m => String.eqb m "http_upstream" | None => false end
          | _, _ => true
          end
      end
  end.

Definition configHasHTTPUpstreamDecoy (cfg : object) : bool :=
  match as_object (member cfg "web") with
  | None => false
  | Some web =>
      match as_array (member web "vhosts") with
      | None => false
      | Some vhosts => existsb has_upstream vhosts
      end
  end.

Definition webRuntimeCaps : list string :=
  [CapWebRuntime; CapWebPause; CapWebDrain; CapWebResume; CapCarrierLearning; CapCarrierLearningReset].

(** What the version says. *)
Definition from_version (v : option version) : gmap string tri :=
  match v with
  | None => ∅
  | Some v => (fun want => if compareVersion v want >=? 0 then triYes else triNo) <$> capabilityMinVersion
  end.

(** [if b { state[name] = triYes }] *)
Definition yes_if (b : bool) (names : list string) (state : gmap string tri) : gmap string tri :=
  if b then foldr (fun name s => <[name := triYes]> s) state names else state.

Definition from_status (st : WebStatus + apierror) (state : gmap string tri) : gmap string tri :=
  match st with
  | inl st =>
      let state := yes_if true [CapWeb; CapWebRuntime] state in
      let state := yes_if (match OperatorLifecycle st with Some _ => true | None => false end)
                     [CapWebPause; CapWebDrain; CapWebResume] state in
      let state := yes_if (HasCarrierNegotiation st) [CapCarrierNegotiation] state in
      yes_if (HasLearning st) [CapCarrierLearning] state
  | inr e =>
      if IsNotFound e then foldr (fun name s => <[name := triNo]> s) state webRuntimeCaps
      else yes_if (endpointAnswered e) [CapWebRuntime] state
  end.

Definition from_config (cfg : option object) (state : gmap string tri) : gmap string tri :=
  match cfg with
  | None => state
  | Some cfg =>
      let state := yes_if (match member cfg "web" with Some _ => true | None => false end) [CapWeb] state in
      let state := yes_if (configHasKey cfg "censorship" "tls_emulation") [CapTLSEmulation] state in
      let state := yes_if (configHasKey cfg "general" "use_middle_proxy") [CapMiddleProxy] state in
      yes_if (configHasHTTPUpstreamDecoy cfg) [CapHTTPUpstreamDecoy] state
  end.

(** A name that was never set reads as unknown. *)
Definition state_of (state : gmap string tri) (name : string) : tri := default triUnknown (state !! name).

Definition probe_state (p : CapabilityProbe) : gmap string tri :=
  from_config (Config p) (from_status (Status p) (from_version (ParseVersion (Version p)))).

Definition all_caps : list string :=
  [CapWeb; CapCarrierNegotiation; CapCarrierLearning; CapCarrierLearningReset; CapWebPause; CapWebDrain;
   CapWebResume; CapWebRuntime; CapHTTPUpstreamDecoy; CapTLSEmulation; CapMiddleProxy].

Definition ComputeCapabilities (p : CapabilityProbe) : TelemtCapabilities * UnknownCapabilities :=
  let state := probe_state p in
  let set name := match state_of state name with triYes => true | _ => false end in
  ({| Web := set CapWeb; CarrierNegotiation := set CapCarrierNegotiation;
      CarrierLearning := set CapCarrierLearning; CarrierLearningReset := set CapCarrierLearningReset;
      WebPause := set CapWebPause; WebDrain := set CapWebDrain; WebResume := set CapWebResume;
      WebRuntime := set CapWebRuntime; HttpUpstreamDecoy := set CapHTTPUpstreamDecoy;
      TLSEmulation := set CapTLSEmulation; MiddleProxy := set CapMiddleProxy |},
   list_to_set (List.filter (fun name => match state_of state name with triUnknown => true | _ => false end) all_caps)).

(** ** Properties *)

(** The field of a capability by its name. *)
Definition cap (c : TelemtCapabilities) (name : string) : bool :=
  if String.eqb name CapWeb then Web c
  else if String.eqb name CapCarrierNegotiation then CarrierNegotiation c
  else if String.eqb name CapCarrierLearning then CarrierLearning c
  else if String.eqb name CapCarrierLearningReset then CarrierLearningReset c
  else if String.eqb name CapWebPause then WebPause c
  else if String.eqb name CapWebDrain then WebDrain c
  else if String.eqb name CapWebResume then WebResume c
  else if String.eqb name CapWebRuntime then WebRuntime c
  else if String.eqb name CapHTTPUpstreamDecoy then HttpUpstreamDecoy c
  else if String.eqb name CapTLSEmulation then TLSEmulation c
  else if String.eqb name CapMiddleProxy then MiddleProxy c
  else false.

Lemma cap_state p name :
  name ∈ all_caps ->
  (cap (ComputeCapabilities p).1 name = true <-> state_of (probe_state p) name = triYes) /\
  (name ∈ (ComputeCapabilities p).2 <-> state_of (probe_state p) name = triUnknown).
Proof.
  intros Hin. split.
  - unfold ComputeCapabilities, all_caps in *. cbn [fst]. generalize (state_of (probe_state p)). intros st.
    repeat (apply elem_of_cons in Hin as [->|Hin]; [cbn; by destruct (st _)|]). by apply elem_of_nil in Hin.
  - unfold ComputeCapabilities. cbn [snd]. rewrite elem_of_list_to_set, list_elem_of_In, filter_In, <- list_elem_of_In.
    destruct (state_of (probe_state p) name); intuition congruence.
Qed.

Lemma unknown_known p name : name ∈ (ComputeCapabilities p).2 -> name ∈ all_caps.
Proof.
  unfold ComputeCapabilities. cbn [snd]. rewrite elem_of_list_to_set, list_elem_of_In, filter_In, <- list_elem_of_In. tauto.
Qed.

(** What is known stays known, and a known yes stays a yes. *)
Definition tri_le (a b : tri) : Prop :=
  a = b \/ b = triYes \/ a = triUnknown.

Definition state_le (s s' : gmap string tri) : Prop := forall name, tri_le (state_of s name) (state_of s' name).

Lemma tri_le_refl a : tri_le a a.
Proof. by left. Qed.

Lemma insert_le s s' name t : state_le s s' -> state_le (<[name := t]> s) (<[name := t]> s').
Proof.
  intros Hs n. unfold state_of. destruct (decide (name = n)) as [->|Hn].
  - rewrite !lookup_insert_eq. apply tri_le_refl.
  - rewrite !lookup_insert_ne by done. apply Hs.
Qed.

Lemma foldr_insert_le s s' t names : state_le s s' ->
  state_le (foldr (fun name s => <[name := t]> s) s names) (foldr (fun name s => <[name := t]> s) s' names).
Proof. intros Hs. induction names; cbn; [done|by apply insert_le]. Qed.

Lemma yes_if_le s s' b names : state_le s s' -> state_le (yes_if b names s) (yes_if b names s').
Proof. intros Hs. destruct b; [by apply foldr_insert_le|done]. Qed.

#[export] Hint Resolve yes_if_le foldr_insert_le : go.

Lemma from_status_le st s s' : state_le s s' -> state_le (from_status st s) (from_status st s').
Proof. intros Hs. destruct st as [st|e]; cbn -[yes_if foldr]; [|destruct (IsNotFound e)]; auto 10 with go. Qed.

Lemma from_config_le cfg s s' : state_le s s' -> state_le (from_config cfg s) (from_config cfg s').
Proof. intros Hs. destruct cfg; cbn -[yes_if]; eauto 10 with go. Qed.

Lemma compareVersion_ge a b : compareVersion a b >=? 0 = true <->
  let '(a1, a2, a3) := a in let '(b1, b2, b3) := b in
  b1 < a1 \/ (b1 = a1 /\ (b2 < a2 \/ (b2 = a2 /\ b3 <= a3))).
Proof.
  destruct a as [[a1 a2] a3], b as [[b1 b2] b3]. unfold compareVersion.
  repeat match goal with |- context [?x <? ?y] => destruct (Z.ltb_spec x y) end;
  repeat match goal with |- context [?x >? ?y] => rewrite (Z.gtb_ltb x y); destruct (Z.ltb_spec y x) end;
    cbn; (split; [intros; try done; lia|intros; first [done|lia]]).
Qed.

Lemma compareVersion_trans a b c :
  compareVersion a b >=? 0 = true -> compareVersion b c >=? 0 = true -> compareVersion a c >=? 0 = true.
Proof.
  rewrite !compareVersion_ge. destruct a as [[? ?] ?], b as [[? ?] ?], c as [[? ?] ?]. lia.
Qed.

Lemma from_version_le v v' : compareVersion v' v >=? 0 = true ->
  state_le (from_version (Some v)) (from_version (Some v')).
Proof.
  intros Hv name. unfold state_of, from_version. rewrite !lookup_fmap.
  destruct (capabilityMinVersion !! name) as [want|]; [|apply tri_le_refl]. cbn.
  destruct (compareVersion v want >=? 0) eqn:E.
  - rewrite (compareVersion_trans _ _ _ Hv E). apply tri_le_refl.
  - destruct (compareVersion v' want >=? 0); [by right; left|apply tri_le_refl].
Qed.

(** A name that is settled stays settled. *)
Definition known (s : gmap string tri) (n : string) : Prop := state_of s n <> triUnknown.

Lemma foldr_insert_known t names s n :
  t <> triUnknown -> known s n -> known (foldr (fun name s => <[name := t]> s) s names) n.
Proof.
  intros Ht Hs. induction names as [|m names IH]; [exact Hs|]. cbn [foldr]. unfold known, state_of.
  destruct (decide (m = n)) as [->|Hm]; [by rewrite lookup_insert_eq|by rewrite lookup_insert_ne].
Qed.

Lemma yes_if_known b names s n : known s n -> known (yes_if b names s) n.
Proof. destruct b; [by apply foldr_insert_known|done]. Qed.

Lemma later_known p s n : known s n -> known (from_config (Config p) (from_status (Status p) s)) n.
Proof.
  intros Hs.
  assert (known (from_status (Status p) s) n).
  { destruct (Status p) as [st|e]; cbn -[yes_if foldr]; [by repeat apply yes_if_known|].
    destruct (IsNotFound e); [by apply foldr_insert_known|by apply yes_if_known]. }
  destruct (Config p); cbn -[yes_if]; [by repeat apply yes_if_known|done].
Qed.

(** The computation is three-valued and never guesses: a capability that
    could not be settled is never reported as supported, and once the version
    can be read every capability is settled one way or the other. *)
Theorem unknown_never_supported p name :
  (name ∈ (ComputeCapabilities p).2 -> cap (ComputeCapabilities p).1 name = false) /\
  (ParseVersion (Version p) <> None -> (ComputeCapabilities p).2 = ∅).
Proof.
  split.
  - intros Hn. pose proof (unknown_known _ _ Hn) as Hin. destruct (cap_state p name Hin) as [Hc Hu].
    apply Hu in Hn. destruct (cap _ name); [|done]. rewrite Hn in Hc. by destruct Hc as [Hc _]; specialize (Hc eq_refl).
  - intros Hv. apply set_eq. intros n. split; [|by intros ?%elem_of_empty]. intros Hn. exfalso.
    pose proof (unknown_known _ _ Hn) as Hin. apply (proj2 (cap_state p n Hin)) in Hn.
    destruct (ParseVersion (Version p)) as [v|] eqn:E; [clear Hv|done].
    revert Hn. unfold probe_state. rewrite E. apply later_known. unfold known, state_of, from_version. rewrite lookup_fmap.
    assert (Hm : exists w, capabilityMinVersion !! n = Some w).
    { clear -Hin. unfold all_caps in Hin.
      repeat (apply elem_of_cons in Hin as [->|Hin]; [eexists; vm_compute; reflexivity|]). by apply elem_of_nil in Hin. }
    destruct Hm as [w ->]. cbn. by destruct (_ >=? 0).
Qed.

Definition probe_status : WebStatus :=
  {| top_RuntimeInstance := "i1"; OperatorLifecycle := None; runtime_RuntimeInstance := "i1";
     HasLearning := false; HasCarrierNegotiation := false |}.

(** A node whose version cannot be read but whose WEB status answers: drain is
    unknown, and so not supported. *)
Lemma unknown_never_supported_witness :
  cap (ComputeCapabilities {| Version := "dev"; Status := inl probe_status; Config := None |}).1 CapWebDrain = false /\
  (ComputeCapabilities {| Version := "telemt 3.5.7"; Status := inr (Transport "refused"); Config := None |}).2 = ∅.
Proof.
  split.
  - apply (proj1 (unknown_never_supported _ CapWebDrain)).
    apply cap_state; [by repeat constructor|by vm_compute].
  - apply (proj2 (unknown_never_supported _ CapWeb)). by vm_compute.
Defined.

(** An upgrade never loses a capability: with the same two observations, a
    newer version supports everything an older one supports. *)
Theorem newer_keeps_capabilities p v v' raw' name :
  ParseVersion (Version p) = Some v -> ParseVersion raw' = Some v' -> compareVersion v' v >=? 0 = true ->
  name ∈ all_caps ->
  let p' := {| Version := raw'; Status := Status p; Config := Config p |} in
  cap (ComputeCapabilities p).1 name = true -> cap (ComputeCapabilities p').1 name = true.
Proof.
  intros Hv Hv' Hle Hin p'. rewrite !(proj1 (cap_state _ name Hin)).
  unfold probe_state. subst p'. cbn [Version Status Config]. rewrite Hv, Hv'. intros Hy.
  destruct (from_config_le (Config p) _ _ (from_status_le (Status p) _ _ (from_version_le _ _ Hle)) name)
    as [E|[E|E]]; congruence.
Qed.

Lemma newer_keeps_capabilities_witness :
  cap (ComputeCapabilities {| Version := "v3.6.0-rc1"; Status := inr (Transport "refused"); Config := None |}).1
    CapWebDrain = true.
Proof.
  apply (newer_keeps_capabilities {| Version := "telemt 3.5.6"; Status := inr (Transport "refused"); Config := None |}
           (3, 5, 6) (3, 6, 0)); [by vm_compute..| |by vm_compute].
  by repeat constructor.
Defined.
