(* ===== verification/Node.v ===== *)
(** * The node the agent runs on

    The part of the operating system, the clock and the network the update and
    upgrade code of internal/agent uses, as a state monad over a [world]: the
    node's files, the clock, the agent's own variables and everything outside
    the agent.  What lies outside (telemt, systemd, the panel, the disk that
    may fail) is the class [Outside], over which every theorem quantifies; the
    file operations are those of package [os], one system call at a time.

    [events w] is the history of the run, most recent first: each state the
    files went through and each question put to the outside with its answer.  A crash of the
    agent is the run stopped after any prefix of it.

    Paths are absolute and clean, so that filepath.Join is concatenation.
    Each system call fails when the outside says so; a failed write leaves a
    prefix of the data.  Nobody but the agent changes the files while it holds
    the maintenance lock. *)

From S2P Require Import Prelude TelemtTypes.

(** ** Paths *)

Module Path.

Definition components (p : string) : list string := Str.split "/" p.

(** [filepath.Base] *)
Definition Base (p : string) : string :=
  match p with
  | EmptyString => "."
  | _ => match default EmptyString (last (components (Str.trim_right_byte p "/"))) with
         | EmptyString => "/"
         | b => b
         end
  end.

(** [filepath.Dir] of a clean absolute path. *)
Definition Dir (p : string) : string :=
  match Str.join "/" (removelast (components p)) with
  | EmptyString => "/"
  | d => d
  end.

(** [filepath.Join] of a clean directory and one name. *)
Definition Join (d name : string) : string :=
  if Str.has_suffix d "/" then d +:+ name else d +:+ "/" +:+ name.

(** A file whose name starts with a dot: the temporary and staged files. *)
Definition hidden (p : string) : bool := Str.has_prefix (Base p) ".".

Lemma split_app sep a b : exists u w, Str.split sep a = u ++ [w] /\
  Str.split sep (String.append a (String sep b)) = u ++ [w] ++ Str.split sep b.
Proof.
  induction a as [|c a (u & w & E1 & E2)].
  - exists [], EmptyString. rewrite Str.append_nil_l. cbn. by rewrite Ascii.eqb_refl.
  - rewrite Str.append_cons. cbn [Str.split]. rewrite E1, E2.
    destruct (Ascii.eqb c sep).
    + by exists (EmptyString :: u), w.
    + destruct u as [|u0 u]; [by exists [], (String c w)|]. by exists (String c u0 :: u), w.
Qed.

Lemma split_no_sep sep b : Str.contains_byte b sep = false -> Str.split sep b = [b].
Proof.
  induction b as [|c b IH]; intros H; [done|]. cbn in *. unfold Str.contains_byte in *. cbn in H.
  destruct (Ascii.eqb c sep); [done|]. destruct (Str.index_byte b sep); [done|]. by rewrite IH.
Qed.

Lemma trim_right_id s b :
  Str.contains_byte s b = false -> Str.trim_right_byte s b = s.
Proof.
  unfold Str.contains_byte. induction s as [|c s IH]; [done|]. cbn.
  destruct (Ascii.eqb c b) eqn:E; [done|]. intros H. rewrite IH.
  - by destruct s.
  - by destruct (Str.index_byte s b).
Qed.

Lemma trim_right_app a b c :
  Str.trim_right_byte b c <> EmptyString ->
  Str.trim_right_byte (String.append a b) c = String.append a (Str.trim_right_byte b c).
Proof.
  intros H. induction a as [|x a IH]; [done|]. rewrite !Str.append_cons. cbn [Str.trim_right_byte].
  rewrite IH. destruct (String.append a (Str.trim_right_byte b c)) eqn:E; [|done].
  exfalso. apply H. destruct a; [exact E|]. by rewrite Str.append_cons in E.
Qed.

Lemma Base_sep a b : Str.contains_byte b "/" = false -> b <> EmptyString ->
  Base (String.append a (String "/" b)) = b.
Proof.
  intros H Hb. unfold Base, components.
  assert (Ht : Str.trim_right_byte (String "/" b) "/" = String "/" b).
  { cbn. rewrite trim_right_id by done. by destruct b. }
  rewrite trim_right_app by by rewrite Ht. rewrite Ht.
  destruct (split_app "/" a b) as (u & w & _ & ->).
  rewrite (split_no_sep _ _ H), app_assoc, last_snoc. cbn.
  destruct (String.append a (String "/" b)) eqn:E; [|by destruct b].
  by destruct a.
Qed.

Lemma Base_Join d n : Str.contains_byte n "/" = false -> n <> EmptyString -> Base (Join d n) = n.
Proof.
  intros H Hn. unfold Join. destruct (Str.has_suffix d "/") eqn:E; [|by apply Base_sep].
  apply andb_true_iff in E as [_ E]. apply String.eqb_eq in E.
  rewrite <- (Str.take_drop (String.length d - String.length "/") d), E, Str.append_assoc.
  by apply Base_sep.
Qed.

End Path.

(** ** Files, effects and the outside *)

Record File := { fdata : string; fmode : Z; fowner : Z * Z }.

Abbreviation files := (gmap string File).

Definition with_data (f : File) (d : string) : File :=
  {| fdata := d; fmode := fmode f; fowner := fowner f |}.
Definition with_mode (f : File) (m : Z) : File :=
  {| fdata := fdata f; fmode := m; fowner := fowner f |}.
Definition with_owner (f : File) (o : Z * Z) : File :=
  {| fdata := fdata f; fmode := fmode f; fowner := o |}.

(** The system calls that can fail. *)
Inductive sysop :=
| Open (p : string) | Read (p : string) | Stat (p : string) | OpenWrite (p : string)
| CreateNew (p : string) | Write (p : string) | Chmod (p : string) | Chown (p : string)
| Sync (p : string) | Close (p : string) | Rename (p q : string) | Remove (p : string)
| MkdirAll (p : string) | ReadDir (p : string) | RemoveAll (p : string) | Exchange (p q : string).

(** The answer of an HTTP request: the body read so far and the error that
    ended the reading, if any. *)
Record response := { resp_status : Z; resp_body : string; resp_body_err : option error }.

(** A page of a website: the status, the type it is served as, the body. *)
Record page := { pg_status : Z; pg_type : string; pg_body : string; pg_body_err : option error }.

(** What the agent asks of the outside.  [Fetch] asks an URL for a page in the
    name of a host; [Rewritten] is what telemt made of a file of its own,
    [None] when it left it alone. *)
Inductive effect : Type -> Type :=
| Fault (op : sysop) : effect (option error)
| ShortWrite (p : string) : effect nat
| Random : effect Z
| NewUUID : effect string
| Select : effect bool
| Exec (argv : list string) : effect (string * option error)
| Get (url : string) : effect (result response)
| Decoy : effect (option error)
| Fetch (url host : string) : effect (result page)
| Rewritten (p : string) : effect (option File)
| Dial (via target : string) : effect (option error)
| Control (A : Type) (c : call A) : effect (A + apierror).
Arguments Control {A} _.

(** Everything the agent does not hold.  It answers a question, given the
    files as they are, after some nanoseconds. *)
Class Outside := {
  outside : Type;
  umask : Z;
  self : Z * Z;
  react : forall A : Type, effect A -> files -> outside -> A * Z * outside
}.
Arguments react {_ A} _ _ _.

(** ** The world and its monad *)

Inductive event :=
| Wrote (f : files)
| Did (A : Type) (e : effect A) (answer : A).
Arguments Did {A} _ _.

(** [instance] is the runtime instance the control client caches, [upd] the
    update the handler tracks, [maintenance] whether the lock is held. *)
Record world `{Outside} := {
  now : Z;
  fs : files;
  events : list event;
  out : outside;
  instance : string;
  upd : option TelemtUpdate;
  maintenance : bool
}.

Definition M `{Outside} (A : Type) : Type := world -> A * world.

#[export] Instance M_ret `{Outside} : MRet M := fun A a w => (a, w).
#[export] Instance M_bind `{Outside} : MBind M := fun A B k m w => let '(a, w) := m w in k a w.

(** Run a fallible step, and hand its error on when it fails. *)
Definition try_bind `{Outside} {A B} (m : M (result A)) (k : A -> M (result B)) : M (result B) :=
  r ← m; match r with Ok a => k a | Err e => mret (Err e) end.

Notation "'try' x ← m ; k" := (try_bind m (fun x => k))
  (at level 20, x pattern, m at level 100, k at level 200, right associativity) : go_scope.

Section Monad.
Context `{Outside}.
Local Open Scope go_scope.

Definition perform {A} (e : effect A) : M A := fun w =>
  let '(a, d, o) := react e (fs w) (out w) in
  (a, {| now := now w + Z.max 0 d; fs := fs w; events := Did e a :: events w; out := o;
         instance := instance w; upd := upd w; maintenance := maintenance w |}).

Definition clock : M Z := fun w => (now w, w).

Definition the_files : M files := fun w => (fs w, w).

Definition set_files (f : files) : M unit := fun w =>
  (tt, {| now := now w; fs := f; events := Wrote f :: events w; out := out w;
          instance := instance w; upd := upd w; maintenance := maintenance w |}).

Definition set_instance (i : string) : M unit := fun w =>
  (tt, {| now := now w; fs := fs w; events := events w; out := out w;
          instance := i; upd := upd w; maintenance := maintenance w |}).

Definition get_instance : M string := fun w => (instance w, w).

Definition get_upd : M (option TelemtUpdate) := fun w => (upd w, w).

Definition set_upd (u : option TelemtUpdate) : M unit := fun w =>
  (tt, {| now := now w; fs := fs w; events := events w; out := out w;
          instance := instance w; upd := u; maintenance := maintenance w |}).

Definition set_maintenance (b : bool) : M unit := fun w =>
  (tt, {| now := now w; fs := fs w; events := events w; out := out w;
          instance := instance w; upd := upd w; maintenance := b |}).

(** [TryLock] of the maintenance lock. *)
Definition try_lock : M bool := fun w =>
  if maintenance w then (false, w) else (true, snd (set_maintenance true w)).

Definition ignore {A} (m : M A) : M unit := _ ← m; mret tt.

(** Let the clock reach [t], if it has not. *)
Definition sleep_until (t : Z) : M unit := fun w =>
  (tt, {| now := Z.max t (now w); fs := fs w; events := events w; out := out w;
          instance := instance w; upd := upd w; maintenance := maintenance w |}).

(** ** Contexts: the instant after which a call is given up *)

Definition context : Type := option Z.

Definition errDeadline : error := "context deadline exceeded".

Definition expired (ctx : context) (t : Z) : bool :=
  match ctx with Some d => d <=? t | None => false end.

(** [context.WithTimeout(ctx, d)] at the instant [t]. *)
Definition with_timeout (ctx : context) (d t : Z) : context :=
  match ctx with Some e => Some (Z.min e (t + d)) | None => Some (t + d) end.

(** [select] on the end of the context and a timer of [d]: the first that
    comes wins, either when both have come. *)
Definition wait (ctx : context) (d : Z) : M (option error) :=
  t ← clock;
  let wake := match ctx with Some e => Z.min e (t + d) | None => t + d end in
  late ← perform Select;
  _ ← sleep_until wake;
  t' ← clock;
  mret (if expired ctx t' && (late || (t' <? t + d)) then Some errDeadline else None).

(** Poll: [body] until it has a result, a pause of [d] after each attempt;
    [ended] says what the end of the context gives.  [fuel] bounds the number
    of attempts. *)
Fixpoint poll {A} (fuel : nat) (ctx : context) (d : Z) (body : M (option A)) (ended : error -> M A) : M A :=
  match fuel with
  | O => ended "out of fuel"
  | S fuel =>
      r ← body;
      match r with
      | Some a => mret a
      | None =>
          e ← wait ctx d;
          match e with
          | Some e => ended e
          | None => poll fuel ctx d body ended
          end
      end
  end.

(** ** System calls *)

Definition errNotExist (op p : string) : error := op +:+ " " +:+ p +:+ ": no such file or directory".

(** A system call on an existing file. *)
Definition on_file (op : sysop) (name p : string) (k : File -> files -> files) : M (result unit) :=
  fault ← perform (Fault op);
  match fault with
  | Some e => mret (Err e)
  | None =>
      f ← the_files;
      match f !! p with
      | None => mret (Err (errNotExist name p))
      | Some x => _ ← set_files (k x f); mret (Ok tt)
      end
  end.

(** A system call that changes no file. *)
Definition check (op : sysop) : M (result unit) :=
  fault ← perform (Fault op);
  mret (match fault with Some e => Err e | None => Ok tt end).

(** The metadata of a file; [None] when it does not exist. *)
Definition stat (op : sysop) (p : string) : M (result (option File)) :=
  try _ ← check op; f ← the_files; mret (Ok (f !! p)).

(** [os.ReadFile]; [None] when the file does not exist. *)
Definition read_file (p : string) : M (result (option string)) :=
  try f ← stat (Open p) p;
  match f with
  | None => mret (Ok None)
  | Some x => try _ ← check (Read p); mret (Ok (Some (fdata x)))
  end.

(** [os.ReadFile] where a missing file is an error like any other. *)
Definition must_read (p : string) : M (result string) :=
  try d ← read_file p;
  mret (match d with Some d => Ok d | None => Err (errNotExist "open" p) end).

Definition remove (p : string) : M (result unit) :=
  on_file (Remove p) "remove" p (fun _ f => delete p f).

Definition rename (p q : string) : M (result unit) :=
  on_file (Rename p q) "rename" p (fun x f => <[q := x]> (delete p f)).

Definition chmod (p : string) (mode : Z) : M (result unit) :=
  on_file (Chmod p) "chmod" p (fun x f => <[p := with_mode x mode]> f).

Definition chown (p : string) (owner : Z * Z) : M (result unit) :=
  on_file (Chown p) "chown" p (fun x f => <[p := with_owner x owner]> f).

Definition new_file (mode : Z) : File :=
  {| fdata := EmptyString; fmode := Z.land mode (Z.lnot umask); fowner := self |}.

(** [os.OpenFile(p, O_WRONLY|O_CREATE|O_TRUNC, mode)] *)
Definition open_trunc (p : string) (mode : Z) : M (result unit) :=
  try _ ← check (OpenWrite p);
  f ← the_files;
  _ ← set_files (<[p := match f !! p with Some x => with_data x EmptyString | None => new_file mode end]> f);
  mret (Ok tt).

(** Append to an open file; a failed write leaves a prefix of the data. *)
Definition write (p data : string) : M (result unit) :=
  fault ← perform (Fault (Write p));
  n ← (match fault with Some _ => perform (ShortWrite p) | None => mret (String.length data) end : M nat);
  f ← the_files;
  _ ← (match f !! p with
       | Some x => set_files (<[p := with_data x (fdata x +:+ Str.take n data)]> f)
       | None => mret tt
       end : M unit);
  mret (match fault with Some e => Err e | None => Ok tt end).

(** [os.CreateTemp(dir, pattern)]: the first random name that is free, of at
    most ten thousand. *)
Fixpoint create_temp_try (n : nat) (dir : string) (name : Z -> string) : M (result string) :=
  match n with
  | O => mret (Err "file already exists")
  | S n =>
      r ← perform Random;
      let p := Path.Join dir (name (r mod 2 ^ 32)) in
      try _ ← check (CreateNew p);
      f ← the_files;
      match f !! p with
      | Some _ => create_temp_try n dir name
      | None => _ ← set_files (<[p := new_file 384]> f); mret (Ok p)
      end
  end.

(** The random number goes where the pattern has its last star, or at its end. *)
Definition temp_name (prefix suffix : string) (r : Z) : string := prefix +:+ Dec.itoa r +:+ suffix.

Definition create_temp (dir prefix : string) : M (result string) :=
  create_temp_try (Z.to_nat 10000) dir (temp_name prefix EmptyString).

(** What to do before handing an error on. *)
Definition or_clean {A} (m : M (result A)) (clean : M unit) : M (result A) :=
  r ← m; match r with Ok a => mret (Ok a) | Err e => _ ← clean; mret (Err e) end.

(** A fallible step whose error gets a new text. *)
Definition wrapped {A} (f : error -> error) (m : M (result A)) : M (result A) :=
  r ← m; mret (match r with Ok a => Ok a | Err e => Err (f e) end).

End Monad.
