(* ===== verification/NodeLogic.v ===== *)
(** * Reasoning about the agent's runs

    [touches S E m]: running [m] changes no file outside [S], at any instant
    of the run, and puts only questions in [E] to the outside.  The tactic
    [touches] derives it by following the program; the hint database
    [touches] holds what is known of the operations.  The lemmas named
    [..._inv] say what a system call did when it returned. *)

From S2P Require Import Prelude TelemtTypes Node.

(** A set of paths, and a set of questions. *)
Abbreviation paths := (string -> Prop).
Definition questions : Type := forall A, effect A -> Prop.

Definition same_off (S : paths) (f g : files) : Prop := forall p, ~ S p -> f !! p = g !! p.

Definition anything : questions := fun _ _ => True.

(** The questions that change nothing outside: no unit is restarted and no
    WEB lifecycle request is sent. *)
Definition harmless : questions := fun _ e =>
  match e with
  | Exec _ => False
  | Control c => read_only c = true
  | _ => True
  end.

Definition allowed (S : paths) (E : questions) (f : files) (ev : event) : Prop :=
  match ev with
  | Wrote g => same_off S f g
  | Did e _ => E _ e
  end.

Lemma same_off_refl S f : same_off S f f.
Proof. done. Qed.

Lemma same_off_trans S f g h : same_off S f g -> same_off S g h -> same_off S f h.
Proof. intros H1 H2 p Hp. by rewrite H1, H2. Qed.

Lemma same_off_mono (S S' : paths) f g : (forall p, S p -> S' p) -> same_off S f g -> same_off S' f g.
Proof. intros HS H p Hp. apply H. auto. Qed.

Lemma same_off_insert (S : paths) f p x : S p -> same_off S f (<[p := x]> f).
Proof. intros HS q Hq. rewrite lookup_insert_ne; [done|]. by intros ->. Qed.

Lemma same_off_delete (S : paths) f p : S p -> same_off S f (delete p f).
Proof. intros HS q Hq. rewrite lookup_delete_ne; [done|]. by intros ->. Qed.

#[export] Hint Resolve same_off_refl same_off_insert same_off_delete : touches.

(** The questions of the system calls and of the timers are among [E]. *)
Record system_ok (E : questions) : Prop := {
  so_fault : forall op, E _ (Fault op);
  so_short : forall p, E _ (ShortWrite p);
  so_random : E _ Random;
  so_select : E _ Select
}.

Lemma system_anything : system_ok anything.
Proof. by split. Qed.

Lemma system_harmless : system_ok harmless.
Proof. by split. Qed.

#[export] Hint Resolve system_anything system_harmless : touches.

Section Logic.
Context `{Outside}.
Local Open Scope go_scope.

(** The events between two worlds. *)
Definition history (w w' : world) (l : list event) : Prop := events w' = l ++ events w.

Lemma history_trans w w' w'' l l' : history w w' l -> history w' w'' l' -> history w w'' (l' ++ l).
Proof. unfold history. intros H1 H2. by rewrite H2, H1, app_assoc. Qed.

Definition touches (S : paths) (E : questions) {A} (m : M A) : Prop :=
  forall w, exists l, history w (m w).2 l /\
    Forall (allowed S E (fs w)) l /\ same_off S (fs w) (fs (m w).2).

Lemma allowed_trans S E f g ev : same_off S f g -> allowed S E g ev -> allowed S E f ev.
Proof. destruct ev; cbn; [apply same_off_trans|done]. Qed.

Lemma touches_mono (S S' : paths) (E E' : questions) A (m : M A) :
  (forall p, S p -> S' p) -> (forall B (e : effect B), E B e -> E' B e) ->
  touches S E m -> touches S' E' m.
Proof.
  intros HS HE Hm w. destruct (Hm w) as (l & Hl & HF & Hf). exists l. split; [done|]. split.
  - eapply Forall_impl; [exact HF|]. intros [g|B e b]; cbn; [by apply same_off_mono|apply HE].
  - by eapply same_off_mono.
Qed.

Lemma touches_bind S E A B (m : M A) (k : A -> M B) :
  touches S E m -> (forall a, touches S E (k a)) -> touches S E (mbind k m).
Proof.
  intros Hm Hk w. destruct (Hm w) as (l & Hl & HF & Hf).
  unfold mbind, M_bind. destruct (m w) as [a w'] eqn:Ea. cbn in *.
  destruct (Hk a w') as (l' & Hl' & HF' & Hf'). exists (l' ++ l). split_and!.
  - by eapply history_trans.
  - apply Forall_app. split; [|done]. eapply Forall_impl; [exact HF'|]. intros ev. by apply allowed_trans.
  - by eapply same_off_trans.
Qed.

Lemma touches_ret S E A (a : A) : touches S E (mret a).
Proof. intros w. exists []. by split_and!. Qed.

Lemma touches_try S E A B (m : M (result A)) (k : A -> M (result B)) :
  touches S E m -> (forall a, touches S E (k a)) -> touches S E (try_bind m k).
Proof. intros Hm Hk. apply touches_bind; [done|]. intros [a|e]; [apply Hk|apply touches_ret]. Qed.

Lemma touches_or_clean S E A (m : M (result A)) c :
  touches S E m -> touches S E c -> touches S E (or_clean m c).
Proof.
  intros Hm Hc. apply touches_bind; [done|]. intros [a|e]; [apply touches_ret|].
  apply touches_bind; [done|]. intros []. apply touches_ret.
Qed.

Lemma touches_ignore S E A (m : M A) : touches S E m -> touches S E (ignore m).
Proof. intros Hm. apply touches_bind; [done|]. intros. apply touches_ret. Qed.

Lemma touches_wrapped S E A f (m : M (result A)) : touches S E m -> touches S E (wrapped f m).
Proof. intros Hm. apply touches_bind; [done|]. intros. apply touches_ret. Qed.

Lemma touches_silent S E A (m : M A) :
  (forall w, events (m w).2 = events w /\ fs (m w).2 = fs w) -> touches S E m.
Proof. intros Hm w. destruct (Hm w) as [He Hf]. exists []. rewrite Hf. by split_and!. Qed.

Lemma touches_perform S (E : questions) A (e : effect A) : E A e -> touches S E (perform e).
Proof.
  intros He w. unfold perform. destruct (react e (fs w) (out w)) as [[a d] o]. cbn.
  exists [Did e a]. split; [done|]. split; [|done]. by repeat constructor.
Qed.

Lemma touches_clock S E : touches S E clock.
Proof. by apply touches_silent. Qed.
Lemma touches_the_files S E : touches S E the_files.
Proof. by apply touches_silent. Qed.
Lemma touches_set_instance S E i : touches S E (set_instance i).
Proof. by apply touches_silent. Qed.
Lemma touches_get_instance S E : touches S E get_instance.
Proof. by apply touches_silent. Qed.
Lemma touches_get_upd S E : touches S E get_upd.
Proof. by apply touches_silent. Qed.
Lemma touches_set_upd S E u : touches S E (set_upd u).
Proof. by apply touches_silent. Qed.
Lemma touches_set_maintenance S E b : touches S E (set_maintenance b).
Proof. by apply touches_silent. Qed.
Lemma touches_sleep_until S E t : touches S E (sleep_until t).
Proof. by apply touches_silent. Qed.
Lemma touches_try_lock S E : touches S E try_lock.
Proof. apply touches_silent. intros w. unfold try_lock. by destruct (maintenance w). Qed.

End Logic.

#[export] Hint Resolve touches_ret touches_clock touches_the_files touches_set_instance
  touches_get_instance touches_get_upd touches_set_upd touches_set_maintenance touches_try_lock
  touches_sleep_until : touches.

(** A question is in the set. *)
Ltac question := first [exact I | reflexivity | assumption].

(** Follow the program, one operation at a time. *)
Ltac touches_step :=
  match goal with
  | |- forall _, _ => intro
  | |- touches _ _ (mbind _ _) => apply touches_bind
  | |- touches _ _ (try_bind _ _) => apply touches_try
  | |- touches _ _ (or_clean _ _) => apply touches_or_clean
  | |- touches _ _ (ignore _) => apply touches_ignore
  | |- touches _ _ (wrapped _ _) => apply touches_wrapped
  | |- touches _ _ (match ?x with _ => _ end) => destruct x
  | |- touches _ _ ((match ?x with _ => _ end) _) => destruct x; cbv beta
  | |- touches _ _ ((match ?x with _ => _ end) _ _) => destruct x; cbv beta
  | |- touches _ _ (perform _) => apply touches_perform; question
  | |- touches _ _ (let _ := _ in _) => cbv zeta
  end.
Ltac touches := repeat first [touches_step | solve [eauto with touches]].

(** Evaluate the plumbing of the monad. *)
Ltac run :=
  unfold mbind, M_bind, mret, M_ret, try_bind, clock, the_files, set_files, set_instance, get_instance,
    get_upd, set_upd, set_maintenance, sleep_until in *; cbn -[Z.mul Z.add Z.max Z.pow Z.modulo] in *.

Section Calls.
Context `{Outside}.
Local Open Scope go_scope.

(** *** The footprint of the system calls *)

Section Footprint.
Context (S : paths) (E : questions).
Hypothesis system : system_ok E.
Let fault_ok := so_fault E system.
Let short_ok := so_short E system.
Let random_ok := so_random E system.
Let select_ok := so_select E system.

Lemma touches_check op : touches S E (check op).
Proof. unfold check. apply touches_bind; [apply touches_perform, fault_ok|touches]. Qed.

Lemma touches_on_file op name p k :
  (forall x h, same_off S h (k x h)) -> touches S E (on_file op name p k).
Proof.
  intros Hk. unfold on_file. apply touches_bind; [apply touches_perform, fault_ok|].
  intros [e|]; [apply touches_ret|]. intros w. run. destruct (fs w !! p) as [x|] eqn:E1; run.
  - eexists [_]. split_and!; [done| |apply Hk]. repeat constructor. apply Hk.
  - exists []. by split_and!.
Qed.

Lemma touches_stat op p : touches S E (stat op p).
Proof. unfold stat. apply touches_try; [apply touches_check|touches]. Qed.

Lemma touches_read_file p : touches S E (read_file p).
Proof. pose proof touches_stat. pose proof touches_check. unfold read_file. touches. Qed.

Lemma touches_must_read p : touches S E (must_read p).
Proof. pose proof touches_read_file. unfold must_read. touches. Qed.

Lemma touches_remove p : S p -> touches S E (remove p).
Proof. intros Hp. apply touches_on_file. eauto with touches. Qed.

Lemma touches_rename p q : S p -> S q -> touches S E (rename p q).
Proof.
  intros Hp Hq. apply touches_on_file. intros x h. apply (same_off_trans _ _ (delete p h)).
  - by apply same_off_delete.
  - by apply same_off_insert.
Qed.

Lemma touches_chmod p mode : S p -> touches S E (chmod p mode).
Proof. intros Hp. apply touches_on_file. eauto with touches. Qed.

Lemma touches_chown p o : S p -> touches S E (chown p o).
Proof. intros Hp. apply touches_on_file. eauto with touches. Qed.

Lemma touches_set_files (g : files -> files) B (k : M B) :
  (forall h, same_off S h (g h)) -> touches S E k ->
  touches S E (h ← the_files; _ ← set_files (g h); k).
Proof.
  intros Hg Hk w. run.
  set (w1 := {| now := now w; fs := g (fs w); events := Wrote (g (fs w)) :: events w; out := out w;
                instance := instance w; upd := upd w; maintenance := maintenance w |}).
  destruct (Hk w1) as (l & Hl & HF & Hf). exists (l ++ [Wrote (g (fs w))]). split_and!.
  - unfold history in *. change (events w1) with (Wrote (g (fs w)) :: events w) in Hl.
    by rewrite Hl, <- app_assoc.
  - apply Forall_app. split.
    + eapply Forall_impl; [exact HF|]. intros ev. apply allowed_trans, Hg.
    + repeat constructor. apply Hg.
  - eapply same_off_trans; [apply Hg|done].
Qed.

Lemma touches_open_trunc p mode : S p -> touches S E (open_trunc p mode).
Proof.
  intros Hp. unfold open_trunc. apply touches_try; [apply touches_check|]. intros _.
  apply (touches_set_files (fun f => <[p := match f !! p with Some x => with_data x EmptyString | None => new_file mode end]> f));
    eauto with touches.
Qed.

Lemma touches_write p data : S p -> touches S E (write p data).
Proof.
  intros Hp. unfold write. apply touches_bind; [apply touches_perform, fault_ok|]. intros fault.
  apply touches_bind; [destruct fault; [apply touches_perform, short_ok|apply touches_ret]|]. intros n.
  intros w. run. destruct (fs w !! p) as [x|]; run.
  - eexists [_]. split_and!; [done| |by apply same_off_insert]. repeat constructor. by apply same_off_insert.
  - exists []. by split_and!.
Qed.

Lemma touches_create_temp_try n dir name :
  (forall r, S (Path.Join dir (name r))) -> touches S E (create_temp_try n dir name).
Proof.
  intros Hname. induction n as [|n IH]; cbn [create_temp_try]; [apply touches_ret|].
  apply touches_bind; [apply touches_perform, random_ok|]. intros r. cbv zeta.
  apply touches_try; [apply touches_check|]. intros _ w. run.
  destruct (fs w !! Path.Join dir (name (r mod 2 ^ 32))); [apply IH|]. run.
  eexists [_]. split_and!; [done| |by apply same_off_insert]. repeat constructor. by apply same_off_insert.
Qed.

Lemma touches_wait ctx d : touches S E (wait ctx d).
Proof. unfold wait. touches. Qed.

End Footprint.

End Calls.

#[export] Hint Resolve touches_check touches_stat touches_read_file touches_must_read
  touches_remove touches_rename touches_chmod touches_chown touches_open_trunc touches_write
  touches_wait : touches.

(** ** What a step did when it returned *)

Section Inversion.
Context `{Outside}.
Local Open Scope go_scope.

Lemma bind_inv A B (m : M A) (k : A -> M B) w b w' :
  mbind k m w = (b, w') -> exists a w1, m w = (a, w1) /\ k a w1 = (b, w').
Proof. unfold mbind, M_bind. destruct (m w) as [a w1]. eauto. Qed.

Lemma try_ok A B (m : M (result A)) (k : A -> M (result B)) w b w' :
  try_bind m k w = (Ok b, w') -> exists a w1, m w = (Ok a, w1) /\ k a w1 = (Ok b, w').
Proof. intros ([a|e] & w1 & Hm & Hk)%bind_inv; [eauto|]. by injection Hk. Qed.

Lemma try_inv A B (m : M (result A)) (k : A -> M (result B)) w r w' :
  try_bind m k w = (r, w') ->
  (exists e, m w = (Err e, w') /\ r = Err e) \/ (exists a w1, m w = (Ok a, w1) /\ k a w1 = (r, w')).
Proof.
  intros ([a|e] & w1 & Hm & Hk)%bind_inv; [right; eauto|left].
  unfold mret, M_ret in Hk. injection Hk as <- <-. eauto.
Qed.

Lemma or_clean_ok A (m : M (result A)) c w a w' : or_clean m c w = (Ok a, w') -> m w = (Ok a, w').
Proof.
  intros ([b|e] & w1 & Hm & Hk)%bind_inv; [by injection Hk as <- <-|].
  apply bind_inv in Hk as (? & ? & _ & [=]).
Qed.

Lemma ret_inv A (a b : A) w w' : (mret a : M A) w = (b, w') -> a = b /\ w = w'.
Proof. by intros [= -> ->]. Qed.

Lemma wrapped_inv A f (m : M (result A)) w r w' : wrapped f m w = (r, w') ->
  exists r0, m w = (r0, w') /\ (forall a, r = Ok a <-> r0 = Ok a).
Proof.
  intros ([a|e] & w1 & Hm & [= <- <-])%bind_inv; eexists; (split; [exact Hm|done]).
Qed.

Lemma wrapped_ok A f (m : M (result A)) w a w' : wrapped f m w = (Ok a, w') -> m w = (Ok a, w').
Proof. intros ([b|e] & w1 & Hm & Hk)%bind_inv; by apply ret_inv in Hk as [[= ->] <-]. Qed.

Lemma perform_fs A (e : effect A) w a w' : perform e w = (a, w') -> fs w' = fs w.
Proof. unfold perform. destruct (react _ _ _) as [[? ?] ?]. by intros [= _ <-]. Qed.

Lemma clock_inv w t w' : clock w = (t, w') -> t = now w /\ w = w'.
Proof. by intros [= -> ->]. Qed.

Lemma files_inv w f w' : the_files w = (f, w') -> f = fs w /\ w = w'.
Proof. by intros [= -> ->]. Qed.

Lemma set_files_fs f w u w' : set_files f w = (u, w') -> fs w' = f.
Proof. by intros [= _ <-]. Qed.

Lemma check_fs op w r w' : check op w = (r, w') -> fs w' = fs w.
Proof. intros (a & w1 & Hp%perform_fs & [_ <-]%ret_inv)%bind_inv. done. Qed.

Lemma stat_inv op p w r w' : stat op p w = (r, w') -> fs w' = fs w /\ (r = Ok (fs w !! p) \/ exists e, r = Err e).
Proof.
  intros ([a|e] & w1 & Hp%check_fs & Hk)%bind_inv; rewrite <- Hp.
  - apply bind_inv in Hk as (f & w2 & [-> <-]%files_inv & [<- <-]%ret_inv). auto.
  - apply ret_inv in Hk as [<- <-]. eauto.
Qed.

Lemma must_read_ok p w d w' : must_read p w = (Ok d, w') ->
  fs w' = fs w /\ exists x, fs w !! p = Some x /\ fdata x = d.
Proof.
  intros (a & w1 & Hr & [Hd ->]%ret_inv)%try_ok.
  apply try_ok in Hr as (f & w2 & [Hf Hf2]%stat_inv & Hr).
  destruct Hf2 as [[= ->]|[? [=]]]. destruct (fs w !! p) as [x|].
  - apply try_ok in Hr as (? & w3 & Hc%check_fs & [[= <-] <-]%ret_inv). injection Hd as <-.
    split; [congruence|eauto].
  - apply ret_inv in Hr as [[= <-] <-]. done.
Qed.

Lemma must_read_fs p w r w' : must_read p w = (r, w') -> fs w' = fs w.
Proof.
  intros (a & w1 & Hr & Hk)%bind_inv. transitivity (fs w1).
  { destruct a; by apply ret_inv in Hk as [_ <-]. }
  apply bind_inv in Hr as (f & w2 & [Hf _]%stat_inv & Hr). destruct f as [[x|]|e].
  - apply bind_inv in Hr as (c & w3 & Hc%check_fs & Hr). rewrite <- Hf, <- Hc.
    destruct c; by apply ret_inv in Hr as [_ <-].
  - by apply ret_inv in Hr as [_ <-].
  - by apply ret_inv in Hr as [_ <-].
Qed.

(** A system call on a file does its work or nothing. *)
Lemma on_file_inv op name p k w r w' : on_file op name p k w = (r, w') ->
  (exists x, fs w !! p = Some x /\ r = Ok tt /\ fs w' = k x (fs w)) \/ (exists e, r = Err e /\ fs w' = fs w).
Proof.
  intros (a & w1 & Hp%perform_fs & Hk)%bind_inv. rewrite <- Hp. destruct a as [e|].
  { apply ret_inv in Hk as [<- <-]. eauto. }
  apply bind_inv in Hk as (f & w2 & [-> <-]%files_inv & Hk).
  destruct (fs w1 !! p) as [x|] eqn:E.
  - apply bind_inv in Hk as (u & w3 & Hs%set_files_fs & [<- <-]%ret_inv). left. eauto.
  - apply ret_inv in Hk as [<- <-]. eauto.
Qed.

Lemma on_file_ok op name p k w u w' : on_file op name p k w = (Ok u, w') ->
  exists x, fs w !! p = Some x /\ fs w' = k x (fs w).
Proof. intros [(x & ? & ? & ?)|(e & [=] & _)]%on_file_inv. eauto. Qed.

Lemma open_trunc_ok p mode w u w' : open_trunc p mode w = (Ok u, w') ->
  exists x, fs w' = <[p := x]> (fs w) /\ fdata x = EmptyString.
Proof.
  intros (a & w1 & Hc%check_fs & Hk)%try_ok. rewrite <- Hc.
  apply bind_inv in Hk as (f & w2 & [-> <-]%files_inv & Hk).
  apply bind_inv in Hk as (? & w3 & Hs%set_files_fs & [_ <-]%ret_inv).
  eexists. split; [exact Hs|]. by destruct (fs w1 !! p).
Qed.

Lemma take_all s : Str.take (String.length s) s = s.
Proof. induction s; cbn; congruence. Qed.

Lemma write_ok p data w u w' x : write p data w = (Ok u, w') -> fs w !! p = Some x ->
  fs w' = <[p := with_data x (fdata x +:+ data)]> (fs w).
Proof.
  intros (a & w1 & Hp%perform_fs & Hk)%bind_inv Hx.
  apply bind_inv in Hk as (n & w2 & Hn & Hk).
  apply bind_inv in Hk as (f & w3 & [-> <-]%files_inv & Hk).
  apply bind_inv in Hk as (? & w4 & Hs & [Hr <-]%ret_inv).
  destruct a as [e|]; [done|]. apply ret_inv in Hn as [<- <-].
  rewrite Hp, Hx in Hs. apply set_files_fs in Hs. by rewrite Hs, take_all.
Qed.

Lemma create_temp_try_ok n dir name w p w' : create_temp_try n dir name w = (Ok p, w') ->
  (exists r, 0 <= r /\ p = Path.Join dir (name r)) /\ fs w !! p = None /\ fs w' = <[p := new_file 384]> (fs w).
Proof.
  revert w. induction n as [|n IH]; intros w; [by intros [[=] _]%ret_inv|]. cbn [create_temp_try].
  intros (r & w1 & Hp%perform_fs & Hk)%bind_inv. cbv zeta in Hk.
  apply try_ok in Hk as (? & w2 & Hc%check_fs & Hk).
  apply bind_inv in Hk as (f & w3 & [-> <-]%files_inv & Hk).
  rewrite <- Hp, <- Hc. destruct (fs w2 !! _) eqn:E.
  - by apply IH.
  - apply bind_inv in Hk as (? & w4 & Hs%set_files_fs & [[= <-] <-]%ret_inv). split; [|done].
    exists (r mod 2 ^ 32). split; [|done]. pose proof (Z.mod_pos_bound r (2 ^ 32)). lia.
Qed.

(** Between two worlds the files are in [I] at every instant, and only
    questions in [E] are put. *)
Definition event_in (E : questions) (I : files -> Prop) (ev : event) : Prop :=
  match ev with
  | Wrote g => I g
  | Did e _ => E _ e
  end.

Definition spans (E : questions) (I : files -> Prop) (w w' : world) : Prop :=
  exists l, history w w' l /\ Forall (event_in E I) l.

Lemma spans_refl E I w : spans E I w w.
Proof. exists []. by split. Qed.

Lemma spans_trans E I w w' w'' : spans E I w w' -> spans E I w' w'' -> spans E I w w''.
Proof.
  intros (l & Hl & HF) (l' & Hl' & HF'). exists (l' ++ l).
  split; [by eapply history_trans|by apply Forall_app].
Qed.

Lemma spans_mono (E E' : questions) (I I' : files -> Prop) w w' :
  (forall A (e : effect A), E A e -> E' A e) -> (forall g, I g -> I' g) -> spans E I w w' -> spans E' I' w w'.
Proof.
  intros HE HI (l & Hl & HF). exists l. split; [done|].
  eapply Forall_impl; [exact HF|]. intros [g|A e b]; cbn; auto.
Qed.

Lemma touches_spans S E A (m : M A) w a w' :
  touches S E m -> m w = (a, w') -> spans E (same_off S (fs w)) w w'.
Proof.
  intros Hm Hw. destruct (Hm w) as (l & Hl & HF & _). rewrite Hw in Hl. exists l. split; [done|].
  eapply Forall_impl; [exact HF|]. by intros [g|B e b].
Qed.

Lemma spans_touches S E A (m : M A) :
  (forall w, spans E (same_off S (fs w)) w (m w).2 /\ same_off S (fs w) (fs (m w).2)) -> touches S E m.
Proof. intros Hm w. destruct (Hm w) as [(l & ? & ?) ?]. exists l. by split_and!. Qed.

(** The only new state of the files a system call makes is the one it leaves. *)
Lemma on_file_spans (E : questions) op name p k w r w' :
  system_ok E -> on_file op name p k w = (r, w') -> spans E (fun g => g = fs w') w w'.
Proof.
  intros HE (a & w1 & Hp & Hk)%bind_inv. unfold perform in Hp.
  destruct (react _ _ _) as [[b d] o]. injection Hp as <- <-. destruct b as [e|].
  { apply ret_inv in Hk as [<- <-]. eexists [Did (Fault op) _]. split; [done|]. repeat constructor. apply HE. }
  unfold mbind, M_bind, the_files in Hk. cbn in Hk. destruct (fs w !! p) as [x|]; injection Hk as <- <-.
  - eexists [Wrote (k x (fs w)); Did (Fault op) _]. split; [done|]. repeat constructor. apply HE.
  - eexists [Did (Fault op) _]. split; [done|]. repeat constructor. apply HE.
Qed.

(** What every successful result of a step satisfies. *)
Definition yields {A} (P : A -> Prop) (m : M (result A)) : Prop :=
  forall w a w', m w = (Ok a, w') -> P a.

Lemma touches_bind_yields S E A B (P : A -> Prop) (m : M (result A)) (k : result A -> M B) :
  touches S E m -> yields P m -> (forall a, P a -> touches S E (k (Ok a))) ->
  (forall e, touches S E (k (Err e))) -> touches S E (mbind k m).
Proof.
  intros Hm HP Hk He w. destruct (Hm w) as (l & Hl & HF & Hf). pose proof (HP w) as HPw.
  unfold mbind, M_bind. destruct (m w) as [r w'] eqn:Ea. cbn in Hl, Hf.
  assert (Hr : touches S E (k r)) by (destruct r as [a|e]; [apply Hk; by eapply HPw|apply He]).
  destruct (Hr w') as (l' & Hl' & HF' & Hf'). exists (l' ++ l). split_and!.
  - by eapply history_trans.
  - apply Forall_app. split; [|done]. eapply Forall_impl; [exact HF'|]. intros ev. by apply allowed_trans.
  - by eapply same_off_trans.
Qed.

Lemma touches_try_yields S E A B (P : A -> Prop) (m : M (result A)) (k : A -> M (result B)) :
  touches S E m -> yields P m -> (forall a, P a -> touches S E (k a)) -> touches S E (try_bind m k).
Proof. intros Hm HP Hk. eapply touches_bind_yields; [done..|]. intros. apply touches_ret. Qed.

Lemma touches_fs S E A (m : M A) w a w' : touches S E m -> m w = (a, w') -> same_off S (fs w) (fs w').
Proof. intros Hm Hw. destruct (Hm w) as (l & _ & _ & Hf). by rewrite Hw in Hf. Qed.

End Inversion.

(** Take apart a run that returned [Ok]. *)
Ltac inv_ok :=
  repeat match goal with
  | H : try_bind _ _ _ = (Ok _, _) |- _ =>
      let a := fresh "a" in let w := fresh "w" in let Hm := fresh "Hm" in
      apply try_ok in H as (a & w & Hm & H)
  | H : or_clean _ _ _ = (Ok _, _) |- _ => apply or_clean_ok in H
  | H : wrapped _ _ _ = (Ok _, _) |- _ => apply wrapped_ok in H
  | H : (mret _) _ = (_, _) |- _ => apply ret_inv in H as [H ?]; try discriminate H; try injection H as H; subst
  | H : check _ _ = (_, _) |- _ => apply check_fs in H
  end.

(** ** Time *)

Section Time.
Context `{Outside}.
Local Open Scope go_scope.

(** Running [m] takes time, or none. *)
Definition advances {A} (m : M A) : Prop := forall w, now w <= now (m w).2.

Lemma advances_bind A B (m : M A) (k : A -> M B) :
  advances m -> (forall a, advances (k a)) -> advances (mbind k m).
Proof.
  intros Hm Hk w. unfold mbind, M_bind. specialize (Hm w). destruct (m w) as [a w1]. cbn in *.
  specialize (Hk a w1). lia.
Qed.

Lemma advances_ret A (a : A) : advances (mret a).
Proof. intros w. cbn. lia. Qed.

Lemma advances_perform A (e : effect A) : advances (perform e).
Proof. intros w. unfold perform. destruct (react _ _ _) as [[? ?] ?]. cbn. lia. Qed.

Lemma advances_same A (m : M A) : (forall w, now (m w).2 = now w) -> advances m.
Proof. intros Hm w. rewrite Hm. lia. Qed.

(** Waiting out a pause takes its time. *)
Lemma wait_time ctx d w r w' : 0 <= d -> wait ctx d w = (r, w') ->
  now w <= now w' /\ (r = None -> now w + d <= now w').
Proof.
  intros Hd. unfold wait, mbind, M_bind, clock, sleep_until, mret, M_ret. cbn -[Z.max Z.min].
  destruct (perform Select w) as [late w1] eqn:Hp.
  assert (Ht : now w <= now w1) by (pose proof (advances_perform _ Select w); by rewrite Hp in *).
  cbn -[Z.max Z.min]. intros [= <- <-]. cbn -[Z.max Z.min]. split; [lia|].
  destruct ctx as [e|]; cbn [expired]; [|lia].
  destruct (Z.leb_spec e (Z.max (Z.min e (now w + d)) (now w1))); cbn [andb]; [|lia].
  destruct late; cbn [orb]; [done|].
  destruct (Z.ltb_spec (Z.max (Z.min e (now w + d)) (now w1)) (now w + d)); [done|lia].
Qed.

(** A polling loop whose body has a result from some instant on ends: beyond
    the attempts that fit before it, fuel makes no difference. *)
Lemma poll_enough A ctx d (body : M (option A)) ended limit n w :
  0 < d -> advances body -> (forall w, limit < now w -> (body w).1 <> None) ->
  now w + Z.of_nat n * d > limit ->
  poll (S n) ctx d body ended w = poll (S (S n)) ctx d body ended w.
Proof.
  intros Hd Ha Hb. revert w. induction n as [|n IH]; intros w Hn.
  - specialize (Hb w). cbn [poll]. unfold mbind, M_bind. destruct (body w) as [[a|] w1]; [done|].
    exfalso. apply Hb; [lia|done].
  - change (poll (S (S n)) ctx d body ended w) with
      (mbind (fun r => match r with Some a => mret a | None => e ← wait ctx d;
         match e with Some e => ended e | None => poll (S n) ctx d body ended end end) body w).
    change (poll (S (S (S n))) ctx d body ended w) with
      (mbind (fun r => match r with Some a => mret a | None => e ← wait ctx d;
         match e with Some e => ended e | None => poll (S (S n)) ctx d body ended end end) body w).
    unfold mbind, M_bind. specialize (Ha w). destruct (body w) as [[a|] w1] eqn:E; [done|]. cbn in Ha.
    destruct (wait ctx d w1) as [[e|] w2] eqn:Ew; [done|].
    apply wait_time in Ew as [_ Hw]; [|lia]. apply IH. specialize (Hw eq_refl). lia.
Qed.

(** Any larger fuel gives the result of [n] attempts. *)
Lemma poll_total A ctx d (body : M (option A)) ended limit n m w :
  0 < d -> advances body -> (forall w, limit < now w -> (body w).1 <> None) ->
  now w + Z.of_nat n * d > limit -> (n <= m)%nat ->
  poll (S m) ctx d body ended w = poll (S n) ctx d body ended w.
Proof.
  intros Hd Ha Hb Hn Hm. induction Hm as [|m Hm IH]; [done|].
  rewrite <- IH. symmetry. eapply poll_enough; try done. nia.
Qed.

Lemma touches_poll S E A fuel ctx d (body : M (option A)) ended :
  system_ok E -> touches S E body -> (forall e, touches S E (ended e)) ->
  touches S E (poll fuel ctx d body ended).
Proof. intros HE Hb He. induction fuel; cbn [poll]; touches. Qed.

End Time.

(** ** The agent's own variables

    A relation between worlds that every question, file change, cached
    instance and passage of time is in. *)

Section Plain.
Context `{Outside}.
Local Open Scope go_scope.

Record plain (R : world -> world -> Prop) : Prop := {
  plain_refl : forall w, R w w;
  plain_trans : forall w w' w'', R w w' -> R w' w'' -> R w w'';
  plain_perform : forall A (e : effect A) w, R w (perform e w).2;
  plain_set_files : forall f w, R w (set_files f w).2;
  plain_set_instance : forall i w, R w (set_instance i w).2;
  plain_sleep : forall t w, R w (sleep_until t w).2
}.

Definition respects (R : world -> world -> Prop) {A} (m : M A) : Prop := forall w, R w (m w).2.

Definition same_upd (w w' : world) : Prop := upd w' = upd w.
Definition same_maintenance (w w' : world) : Prop := maintenance w' = maintenance w.

Lemma plain_same_upd : plain same_upd.
Proof.
  split; unfold same_upd; try done; [congruence|].
  intros A e w. unfold perform. by destruct (react _ _ _) as [[? ?] ?].
Qed.

Lemma plain_same_maintenance : plain same_maintenance.
Proof.
  split; unfold same_maintenance; try done; [congruence|].
  intros A e w. unfold perform. by destruct (react _ _ _) as [[? ?] ?].
Qed.

Section Ops.
Context (R : world -> world -> Prop).
Hypothesis HR : plain R.

Lemma respects_bind A B (m : M A) (k : A -> M B) :
  respects R m -> (forall a, respects R (k a)) -> respects R (mbind k m).
Proof.
  intros Hm Hk w. unfold mbind, M_bind. specialize (Hm w). destruct (m w) as [a w']. cbn in Hm.
  eapply plain_trans; [done|exact Hm|apply Hk].
Qed.

Lemma respects_ret A (a : A) : respects R (mret a).
Proof. intros w. by apply plain_refl. Qed.

Lemma respects_try A B (m : M (result A)) (k : A -> M (result B)) :
  respects R m -> (forall a, respects R (k a)) -> respects R (try_bind m k).
Proof. intros Hm Hk. apply respects_bind; [done|]. intros [a|e]; [apply Hk|apply respects_ret]. Qed.

Lemma respects_perform A (e : effect A) : respects R (perform e).
Proof. intros w. by apply plain_perform. Qed.

Lemma respects_clock : respects R clock.
Proof. intros w. by apply plain_refl. Qed.
Lemma respects_the_files : respects R the_files.
Proof. intros w. by apply plain_refl. Qed.
Lemma respects_get_instance : respects R get_instance.
Proof. intros w. by apply plain_refl. Qed.
Lemma respects_get_upd : respects R get_upd.
Proof. intros w. by apply plain_refl. Qed.
Lemma respects_set_files f : respects R (set_files f).
Proof. intros w. by apply plain_set_files. Qed.
Lemma respects_set_instance i : respects R (set_instance i).
Proof. intros w. by apply plain_set_instance. Qed.
Lemma respects_sleep t : respects R (sleep_until t).
Proof. intros w. by apply plain_sleep. Qed.

Lemma respects_or_clean A (m : M (result A)) c : respects R m -> respects R c -> respects R (or_clean m c).
Proof.
  intros Hm Hc. apply respects_bind; [done|]. intros [a|e]; [apply respects_ret|].
  apply respects_bind; [done|]. intros []. apply respects_ret.
Qed.

Lemma respects_ignore A (m : M A) : respects R m -> respects R (ignore m).
Proof. intros Hm. apply respects_bind; [done|]. intros. apply respects_ret. Qed.

Lemma respects_wrapped A f (m : M (result A)) : respects R m -> respects R (wrapped f m).
Proof. intros Hm. apply respects_bind; [done|]. intros. apply respects_ret. Qed.

End Ops.
End Plain.

#[export] Hint Resolve respects_ret respects_perform respects_clock respects_the_files respects_get_instance
  respects_get_upd respects_set_files respects_set_instance respects_sleep : respects.

Ltac respects_step :=
  match goal with
  | |- forall _, _ => intro
  | |- respects _ (mbind _ _) => apply respects_bind; [assumption|..]
  | |- respects _ (try_bind _ _) => apply respects_try; [assumption|..]
  | |- respects _ (or_clean _ _) => apply respects_or_clean; [assumption|..]
  | |- respects _ (ignore _) => apply respects_ignore; [assumption|..]
  | |- respects _ (wrapped _ _) => apply respects_wrapped; [assumption|..]
  | |- respects _ (match ?x with _ => _ end) => destruct x
  | |- respects _ ((match ?x with _ => _ end) _) => destruct x; cbv beta
  | |- respects _ ((match ?x with _ => _ end) _ _) => destruct x; cbv beta
  | |- respects _ (let _ := _ in _) => cbv zeta
  end.
Ltac respects := repeat first [respects_step | solve [eauto with respects]].

Section PlainOps.
Context `{Outside} (R : world -> world -> Prop).
Hypothesis HR : plain R.
Local Open Scope go_scope.

Lemma respects_check op : respects R (check op).
Proof. unfold check. respects. Qed.
Lemma respects_on_file op name p k : respects R (on_file op name p k).
Proof. unfold on_file. respects. Qed.
Lemma respects_stat op p : respects R (stat op p).
Proof. pose proof respects_check. unfold stat. respects. Qed.
Lemma respects_read_file p : respects R (read_file p).
Proof. pose proof respects_check. pose proof respects_stat. unfold read_file. respects. Qed.
Lemma respects_must_read p : respects R (must_read p).
Proof. pose proof respects_read_file. unfold must_read. respects. Qed.
Lemma respects_remove p : respects R (remove p).
Proof. apply respects_on_file. Qed.
Lemma respects_rename p q : respects R (rename p q).
Proof. apply respects_on_file. Qed.
Lemma respects_chmod p m : respects R (chmod p m).
Proof. apply respects_on_file. Qed.
Lemma respects_chown p o : respects R (chown p o).
Proof. apply respects_on_file. Qed.
Lemma respects_open_trunc p m : respects R (open_trunc p m).
Proof. pose proof respects_check. unfold open_trunc. respects. Qed.
Lemma respects_write p d : respects R (write p d).
Proof. unfold write. respects. Qed.
Lemma respects_create_temp dir s : respects R (create_temp dir s).
Proof.
  unfold create_temp. pose proof respects_check. generalize (Z.to_nat 10000). intros n.
  induction n; cbn [create_temp_try]; respects.
Qed.
Lemma respects_wait ctx d : respects R (wait ctx d).
Proof. unfold wait. respects. Qed.
Lemma respects_poll A fuel ctx d (body : M (option A)) ended :
  respects R body -> (forall e, respects R (ended e)) -> respects R (poll fuel ctx d body ended).
Proof. intros Hb He. pose proof respects_wait. induction fuel; cbn [poll]; respects. Qed.

End PlainOps.

#[export] Hint Resolve respects_check respects_stat respects_read_file respects_must_read respects_remove
  respects_rename respects_chmod respects_chown respects_open_trunc respects_write respects_create_temp
  respects_wait : respects.

(** ** What telemt answered *)

Section Asked.
Context `{Outside}.
Local Open Scope go_scope.

(** Between two worlds telemt gave an answer in [P] to the call. *)
Definition asked {A} (c : call A) (P : A -> Prop) (w w' : world) : Prop :=
  exists l a, history w w' l /\ P a /\ In (Did (Control c) (inl a)) l.

(** [w'] continues [w]. *)
Definition later (w w' : world) : Prop := exists l, history w w' l.

Lemma later_refl w : later w w.
Proof. by exists []. Qed.

Lemma later_trans w w' w'' : later w w' -> later w' w'' -> later w w''.
Proof. intros [l Hl] [l' Hl']. eexists. by eapply history_trans. Qed.

(** The files after the events [l], the last one first, from [f]. *)
Fixpoint files_after (f : files) (l : list event) : files :=
  match l with
  | [] => f
  | Wrote g :: _ => g
  | Did _ _ :: l => files_after f l
  end.

Lemma files_after_app f k l : files_after f (l ++ k) = files_after (files_after f k) l.
Proof. induction l as [|[g|A e a] l IH]; cbn; auto. Qed.

(** [w'] continues [w], and its files are the ones the events between say. *)
Definition traced (w w' : world) : Prop := exists l, history w w' l /\ fs w' = files_after (fs w) l.

Lemma traced_later w w' : traced w w' -> later w w'.
Proof. intros (l & Hl & _). by exists l. Qed.

Lemma plain_traced : plain traced.
Proof.
  split.
  - intros w. by exists [].
  - intros w w1 w2 (l & Hl & E) (k & Hk & F). exists (k ++ l). split; [by eapply history_trans|]. by rewrite files_after_app, <- E.
  - intros A e w. unfold perform. destruct (react e (fs w) (out w)) as [[a d] o]. by exists [Did e a].
  - intros f w. by exists [Wrote f].
  - intros i w. by exists [].
  - intros t w. by exists [].
Qed.

Lemma touches_later S E A (m : M A) w a w' : touches S E m -> m w = (a, w') -> later w w'.
Proof. intros Hm Hw. destruct (Hm w) as (l & Hl & _). rewrite Hw in Hl. by exists l. Qed.

Lemma asked_mono A (c : call A) P w w1 w2 w' : later w w1 -> asked c P w1 w2 -> later w2 w' -> asked c P w w'.
Proof.
  intros [l Hl] (m & a & Hm & HP & Hin) [n Hn]. exists (n ++ m ++ l), a. split_and!; [|done|].
  - eapply history_trans; [by eapply history_trans|done].
  - apply in_or_app. right. apply in_or_app. by left.
Qed.

End Asked.

Definition nothing : paths := fun _ => False.

(** [w'] continues [w] by the run [H] of a step that touches no file. *)
Ltac later_by H := (eapply (touches_later nothing anything); [|exact H]); touches.
