(* ===== verification/AgentFiles.v ===== *)
(** * The agent's files

    internal/agent/files.go: atomic replacement of a file.
    internal/agent/upgraderun.go: keeping a copy of a file and putting it
    back, downloading an artifact against its pinned checksum and taking the
    telemt executable out of a release archive.
    internal/agent/updatejournal.go: copies with a verified checksum.

    The decoders of gzip and tar are a parameter: the class [Archive]. *)

From S2P Require Import Prelude Crypto TelemtTypes Node NodeLogic.

(** One header of a tar stream with its content, or the error that ends it. *)
Inductive tar_item :=
| Entry (regular : bool) (name body : string) (body_err : option error)
| Broken (e : error).

(** The items of a gzip-compressed tar file; an error when it is no gzip. *)
Class Archive := { tar_items : string -> result (list tar_item) }.

Record UpgradeArtifact := { art_Version : string; art_SHA256 : string; art_URL : string }.

Definition maxUpgradeDownloadBytes : Z := 536870912.

(** [io.LimitReader] *)
Definition limited (n : Z) (s : string) : string :=
  if Z.of_nat (String.length s) <=? n then s else Str.take (Z.to_nat n) s.

Section Files.
Context `{Outside}.
Local Open Scope go_scope.

(** ** files.go *)

(** The temporary file next to [path], with its content, mode and owner on the disk. *)
Definition stage_file (path data : string) (mode : Z) (owner : option (Z * Z)) : M (result string) :=
  try name ← create_temp (Path.Dir path) ("." +:+ Path.Base path +:+ ".");
  let undo := ignore (remove name) in
  let close_undo := _ ← ignore (check (Close name)); undo in
  try _ ← or_clean (write name data) close_undo;
  try _ ← or_clean (chmod name mode) close_undo;
  try _ ← or_clean (match owner with
                    | Some o => wrapped (fun e => "preserve owner of " +:+ path +:+ ": " +:+ e) (chown name o)
                    | None => mret (Ok tt)
                    end) close_undo;
  try _ ← or_clean (check (Sync name)) close_undo;
  try _ ← or_clean (check (Close name)) undo;
  mret (Ok name).

(** Rename the staged file over [path] and flush the directory. *)
Definition commit_file (name path : string) : M (result unit) :=
  try _ ← or_clean (rename name path) (ignore (remove name));
  try _ ← check (Open (Path.Dir path));
  check (Sync (Path.Dir path)).

Definition writeAtomicAs (path data : string) (mode : Z) (owner : option (Z * Z)) : M (result unit) :=
  try name ← stage_file path data mode owner; commit_file name path.

Definition writeAtomic (path data : string) (mode : Z) : M (result unit) :=
  writeAtomicAs path data mode None.

Definition writeAtomicKeepOwner (path data : string) (mode : Z) : M (result unit) :=
  try info ← stat (Stat path) path;
  match info with
  | None => writeAtomic path data mode
  | Some f => writeAtomicAs path data mode (Some (fowner f))
  end.

(** ** Copies *)

Definition prev_of (path : string) : string := path +:+ ".prev".

(** Copy [path] to [path.prev]; the empty name when there was nothing to keep. *)
Definition backupFile (path : string) (mode : Z) : M (result string) :=
  let prev := prev_of path in
  let undo := ignore (remove prev) in
  try src ← wrapped (fun e => "read " +:+ path +:+ ": " +:+ e) (stat (Open path) path);
  match src with
  | None => mret (Ok EmptyString)
  | Some info =>
      try _ ← wrapped (fun e => "stat " +:+ path +:+ ": " +:+ e) (check (Stat path));
      try _ ← open_trunc prev mode;
      copied ← (try _ ← check (Read path); write prev (fdata info));
      closed ← check (Close prev);
      match copied, closed with
      | Err e, _ | Ok _, Err e =>
          _ ← undo; mret (Err ("keep a copy of " +:+ path +:+ ": " +:+ e))
      | Ok _, Ok _ =>
          try _ ← or_clean (wrapped (fun e => "preserve owner of " +:+ path +:+ ": " +:+ e)
                              (chown prev (fowner info))) undo;
          mret (Ok prev)
      end
  end.

(** Put the kept copy back; with nothing kept, remove what was installed. *)
Definition restoreFile (prev path : string) (mode : Z) : M (result unit) :=
  if String.eqb prev EmptyString then remove path
  else
    try f ← stat (Stat prev) prev;
    match f with
    | None => mret (Err (errNotExist "stat" prev))
    | Some _ => try _ ← rename prev path; chmod path mode
    end.

Definition backupBinary (path : string) : M (result string) := backupFile path 493.
Definition restoreBinary (prev path : string) : M (result unit) := restoreFile prev path 493.

(** ** Copies with a checksum *)

Definition saveVerifiedCopy (src dst : string) (mode : Z) : M (result string) :=
  try b ← must_read src;
  try _ ← writeAtomic dst b mode;
  mret (Ok (Sha.hex b)).

Definition verifiedFile (path sha : string) : M (result string) :=
  try b ← must_read path;
  if String.eqb (Sha.hex b) sha then mret (Ok b)
  else mret (Err "rollback artifact checksum mismatch").

(** ** Downloads *)

Definition downloadArtifact (a : UpgradeArtifact) (dir pattern : string) : M (result string) :=
  if String.eqb (art_SHA256 a) EmptyString
  then mret (Err ("the panel published no sha256 for " +:+ art_URL a +:+ "; refusing to install an unverified download"))
  else
    try resp ← wrapped (fun e => "download " +:+ art_URL a +:+ ": " +:+ e) (perform (Get (art_URL a)));
    if negb (resp_status resp =? 200)
    then mret (Err ("download " +:+ art_URL a +:+ ": HTTP " +:+ Dec.itoa (resp_status resp)))
    else
      try name ← create_temp dir pattern;
      let undo := ignore (remove name) in
      let body := limited maxUpgradeDownloadBytes (resp_body resp) in
      wrote ← write name body;
      closed ← check (Close name);
      match wrote, resp_body_err resp, closed with
      | Err e, _, _ | Ok _, Some e, _ | Ok _, None, Err e =>
          _ ← undo; mret (Err ("download " +:+ art_URL a +:+ ": " +:+ e))
      | Ok _, None, Ok _ =>
          let got := Sha.hex body in
          if negb (Str.equal_fold got (art_SHA256 a))
          then _ ← undo;
               mret (Err ("checksum mismatch for " +:+ art_URL a +:+ ": the download is " +:+ got +:+
                          ", the panel pinned " +:+ art_SHA256 a +:+ ". Nothing was replaced"))
          else
            try _ ← or_clean (chmod name 493) undo;
            mret (Ok name)
      end.

(** The first regular file named telemt of the archive, written to [dst]. *)
Fixpoint extract_items (tgz dst : string) (items : list tar_item) : M (result unit) :=
  match items with
  | [] => mret (Err ("no telemt binary inside " +:+ tgz))
  | Broken e :: _ => mret (Err ("read " +:+ tgz +:+ ": " +:+ e))
  | Entry regular name body body_err :: items =>
      if negb regular || negb (String.eqb (Path.Base name) "telemt") then extract_items tgz dst items
      else
        try _ ← open_trunc dst 493;
        wrote ← write dst (limited maxUpgradeDownloadBytes body);
        closed ← check (Close dst);
        match wrote, body_err, closed with
        | Err e, _, _ | Ok _, Some e, _ | Ok _, None, Err e => mret (Err e)
        | Ok _, None, Ok _ => chmod dst 493
        end
  end.

Definition extractTelemtBinary `{Archive} (tgz dst : string) : M (result unit) :=
  try f ← must_read tgz;
  match tar_items f with
  | Err e => mret (Err ("read " +:+ tgz +:+ ": " +:+ e))
  | Ok items => extract_items tgz dst items
  end.

End Files.

(** ** Names of temporary files *)

Definition no_slash (s : string) : Prop := Str.contains_byte s "/" = false.

Definition is_hidden : paths := fun p => Path.hidden p = true.

Lemma no_slash_cons c s : c <> "/"%char -> no_slash s -> no_slash (String c s).
Proof.
  unfold no_slash, Str.contains_byte. intros Hc Hs. cbn.
  destruct (Ascii.eqb_spec c "/"); [done|]. by destruct (Str.index_byte s "/").
Qed.

Lemma no_slash_inv c s : no_slash (String c s) -> c <> "/"%char /\ no_slash s.
Proof.
  unfold no_slash, Str.contains_byte. cbn. destruct (Ascii.eqb_spec c "/"); [done|].
  intros Hs. split; [done|]. by destruct (Str.index_byte s "/").
Qed.

Lemma no_slash_app a b : no_slash a -> no_slash b -> no_slash (a +:+ b).
Proof.
  intros Ha Hb. induction a as [|c a IH]; [done|]. apply no_slash_inv in Ha as [Hc Ha].
  rewrite Str.append_cons. apply no_slash_cons; auto.
Qed.

(** A fact of every decimal digit, checked one by one. *)
Lemma digit_cases (P : Z -> Prop) n : 0 <= n < 10 -> Forall P (seqZ 0 10) -> P n.
Proof. intros Hn HF. rewrite Forall_forall in HF. apply HF, elem_of_seqZ. lia. Qed.

Lemma digit_no_slash n : 0 <= n < 10 -> Dec.digit n <> "/"%char.
Proof. intros Hn. apply (digit_cases (fun n => Dec.digit n <> "/"%char)); [done|]. by repeat constructor. Qed.

Lemma itoa_no_slash n : 0 <= n -> no_slash (Dec.itoa n).
Proof.
  intros Hn. unfold Dec.itoa. destruct (Z.ltb_spec n 0); [lia|].
  assert (Hd : forall fuel m acc, no_slash acc -> no_slash (Dec.digits fuel m acc)).
  { intros fuel. induction fuel as [|fuel IH]; intros m acc Ha; [done|]. cbn [Dec.digits].
    assert (no_slash (String (Dec.digit (m mod 10)) acc)).
    { apply no_slash_cons; [|done]. apply digit_no_slash. apply Z.mod_pos_bound. lia. }
    destruct (m <? 10); [done|]. by apply IH. }
  by apply Hd.
Qed.

Lemma hidden_join d s : no_slash s -> is_hidden (Path.Join d (String "." s)).
Proof.
  intros Hs. unfold is_hidden, Path.hidden. rewrite Path.Base_Join; [|by apply no_slash_cons|done].
  by destruct s.
Qed.

(** A temporary file: hidden, and its name ends in the random number. *)
Definition ends_in_digit (p : string) : Prop := exists t d, 0 <= d < 10 /\ p = t +:+ String (Dec.digit d) EmptyString.

Definition is_temp : paths := fun p => is_hidden p /\ ends_in_digit p.

Lemma itoa_ends n : 0 <= n -> ends_in_digit (Dec.itoa n).
Proof.
  intros Hn. unfold Dec.itoa. destruct (Z.ltb_spec n 0); [lia|].
  assert (Hd : forall fuel m acc, exists t, Dec.digits (S fuel) m acc = t +:+ String (Dec.digit (m mod 10)) acc).
  { intros fuel. induction fuel as [|fuel IH]; intros m acc.
    - exists EmptyString. cbn. by destruct (m <? 10).
    - change (Dec.digits (S (S fuel)) m acc) with
        (if m <? 10 then String (Dec.digit (m mod 10)) acc
         else Dec.digits (S fuel) (m / 10) (String (Dec.digit (m mod 10)) acc)).
      destruct (m <? 10); [by exists EmptyString|].
      destruct (IH (m / 10) (String (Dec.digit (m mod 10)) acc)) as [t ->].
      exists (t +:+ String (Dec.digit ((m / 10) mod 10)) EmptyString). by rewrite Str.append_assoc. }
  destruct (Hd (Z.to_nat (Z.log2 n)) n EmptyString) as [t Ht]. exists t, (n mod 10).
  split; [apply Z.mod_pos_bound; lia|exact Ht].
Qed.

Lemma ends_app a p : ends_in_digit p -> ends_in_digit (a +:+ p).
Proof. intros (t & d & Hd & ->). exists (a +:+ t), d. split; [done|]. by rewrite Str.append_assoc. Qed.

Lemma hidden_temp d s r : no_slash s -> 0 <= r -> is_temp (Path.Join d (temp_name (String "." s) EmptyString r)).
Proof.
  intros Hs Hr. unfold temp_name. rewrite Str.append_nil_r, Str.append_cons. split.
  - apply hidden_join. apply no_slash_app; [done|by apply itoa_no_slash].
  - assert (He : ends_in_digit (String "." (s +:+ Dec.itoa r))).
    { rewrite <- Str.append_cons. by apply ends_app, itoa_ends. }
    unfold Path.Join. destruct (Str.has_suffix d "/"); [by apply ends_app|]. by do 2 apply ends_app.
Qed.

(** A name that ends in another byte is no temporary file. *)
Lemma not_ends_in_digit a c : ~ (exists d, 0 <= d < 10 /\ c = Dec.digit d) -> ~ ends_in_digit (a +:+ String c EmptyString).
Proof.
  intros Hc (t & d & Hd & E). apply Hc. exists d. split; [done|].
  apply (f_equal Str.bytes), (f_equal last) in E. rewrite !Str.bytes_append in E. cbn in E. rewrite !last_snoc in E.
  congruence.
Qed.

(** ** Footprints and results *)

Section FileSpecs.
Context `{Outside} `{Archive}.
Local Open Scope go_scope.

Lemma yields_create_temp dir s : no_slash s -> yields is_temp (create_temp dir (String "." s)).
Proof. intros Hs w p w' [(r & Hr & ->) _]%create_temp_try_ok. by apply hidden_temp. Qed.

Lemma touches_create_temp_hidden (S : paths) E dir s :
  system_ok E -> (forall p, is_temp p -> S p) -> no_slash s ->
  touches S E (create_temp dir (String "." s)).
Proof.
  intros HE HS Hs. apply (touches_mono is_temp S E E); [done|done|].
  unfold create_temp. generalize (Z.to_nat 10000). intros n.
  induction n as [|n IH]; cbn [create_temp_try]; [apply touches_ret|].
  apply touches_bind; [apply touches_perform, HE|]. intros r. cbv zeta.
  apply touches_try; [by apply touches_check|]. intros _ w. run.
  destruct (fs w !! _); [apply IH|]. run.
  assert (is_temp (Path.Join dir (temp_name (String "." s) EmptyString (r mod 2 ^ 32)))).
  { apply hidden_temp; [done|]. pose proof (Z.mod_pos_bound r (2 ^ 32)). lia. }
  eexists [_]. split_and!; [done| |by apply same_off_insert]. repeat constructor. by apply same_off_insert.
Qed.

Section Atomic.
Context (E : questions).
Hypothesis HE : system_ok E.

Lemma touches_stage_file path data mode owner : no_slash (Path.Base path) ->
  touches is_temp E (stage_file path data mode owner).
Proof.
  intros Hp. unfold stage_file. pose proof HE.
  assert (no_slash (Path.Base path +:+ ".")) by (by apply no_slash_app).
  eapply touches_try_yields; [by apply touches_create_temp_hidden|by apply yields_create_temp|].
  intros name Hname. cbv zeta. touches.
Qed.

Lemma yields_stage_file path data mode owner : no_slash (Path.Base path) ->
  yields is_temp (stage_file path data mode owner).
Proof.
  intros Hp w name w' Hr. unfold stage_file in Hr. inv_ok.
  eapply yields_create_temp; [|exact Hm]. by apply no_slash_app.
Qed.

(** The staged file has the data, and nothing but hidden files changed. *)
Lemma stage_file_ok path data mode owner w name w' :
  stage_file path data mode owner w = (Ok name, w') ->
  exists x, fs w' !! name = Some x /\ fdata x = data /\ fmode x = mode /\
            (forall o, owner = Some o -> fowner x = o).
Proof.
  intros Hr. unfold stage_file in Hr. inv_ok.
  apply create_temp_try_ok in Hm as (_ & _ & Hf0).
  assert (Hx0 : fs w0 !! name = Some (new_file 384)) by (by rewrite Hf0, lookup_insert_eq).
  pose proof (write_ok _ _ _ _ _ _ Hm0 Hx0) as Hf1. cbn [new_file fdata] in Hf1.
  apply on_file_ok in Hm1 as (x1 & Hx1 & Hf2). rewrite Hf1, lookup_insert_eq in Hx1. injection Hx1 as <-.
  destruct owner as [o|].
  - apply wrapped_ok, on_file_ok in Hm2 as (x2 & Hx2 & Hf3).
    rewrite Hf2, lookup_insert_eq in Hx2. injection Hx2 as <-.
    eexists. rewrite Hm4, Hm3, Hf3, lookup_insert_eq. split; [done|]. cbn. split_and!; [done|done|].
    by intros ? [= <-].
  - inv_ok. eexists. rewrite Hm4, Hm3, Hf2, lookup_insert_eq. by split_and!.
Qed.

(** [path] holds what it held, or the new data. *)
Definition replaced (path data : string) (f g : files) : Prop :=
  g !! path = f !! path \/ exists x, g !! path = Some x /\ fdata x = data.

Definition or_path (path : string) : paths := fun p => is_temp p \/ p = path.

(** The states between [f] and the end of a write of [path]. *)
Definition writing (path data : string) (f g : files) : Prop :=
  same_off (or_path path) f g /\ replaced path data f g.

Lemma writing_hidden path data f g h :
  ~ is_temp path -> writing path data f g -> same_off is_temp g h -> writing path data f h.
Proof.
  intros Hp [Ho Hr] Hh. split.
  - eapply same_off_trans; [exact Ho|]. eapply same_off_mono; [|exact Hh]. by left.
  - pose proof (Hh path Hp) as E1. unfold replaced in *. by rewrite <- E1.
Qed.

Lemma writing_refl path data f : writing path data f f.
Proof. split; [done|by left]. Qed.

(** Committing puts the staged file at [path] in one step, or leaves [path]. *)
Lemma commit_file_spec name path w r w' x :
  is_temp name -> ~ is_temp path -> fs w !! name = Some x -> commit_file name path w = (r, w') ->
  spans E (writing path (fdata x) (fs w)) w w' /\ writing path (fdata x) (fs w) (fs w') /\
  (r = Ok tt -> fs w' !! path = Some x).
Proof.
  intros Hn Hp Hx (b & w2 & Hren & Hr)%bind_inv. apply bind_inv in Hren as (c & w3 & Hren & Hcl).
  pose proof (on_file_spans E _ _ _ _ _ _ _ HE Hren) as Hs3.
  assert (H3 : writing path (fdata x) (fs w) (fs w3) /\ (c = Ok tt -> fs w3 !! path = Some x)).
  { apply on_file_inv in Hren as [(x' & Hx' & -> & ->)|(e & -> & ->)]; [|split; [apply writing_refl|done]].
    rewrite Hx in Hx'. injection Hx' as <-. rewrite lookup_insert_eq. split; [|done]. split.
    - apply (same_off_trans _ _ (delete name (fs w))); [apply same_off_delete|apply same_off_insert]; [by left|by right].
    - right. exists x. by rewrite lookup_insert_eq. }
  assert (Hrest : exists m : M (result unit), touches is_temp E m /\ m w3 = (r, w') /\ (r = Ok tt -> c = Ok tt)).
  { destruct c as [[]|e].
    - apply ret_inv in Hcl as [<- <-]. eexists. split; [|by split; [exact Hr|]]. pose proof HE. touches.
    - exists (_ ← ignore (remove name); mret (Err e)). split; [pose proof HE; touches|].
      apply bind_inv in Hcl as (u & w4 & Hcl & [<- <-]%ret_inv). apply ret_inv in Hr as [<- <-].
      unfold mbind, M_bind. by rewrite Hcl. }
  destruct Hrest as (m & Hm & Hw & Hok). destruct H3 as [H3 Hx3].
  pose proof (touches_fs _ _ _ _ _ _ _ Hm Hw) as Hf. split_and!.
  - eapply spans_trans; [eapply spans_mono; [done| |exact Hs3]; by intros ? ->|].
    eapply spans_mono; [done| |by eapply touches_spans]. intros g. by apply writing_hidden.
  - by eapply writing_hidden.
  - intros Hr'. rewrite <- (Hf path Hp). auto.
Qed.

(** An atomic write: at every instant [path] holds its old content or all of
    the new one, no other file changes but temporary ones, and a write that
    succeeded left the data with its mode. *)
Lemma writeAtomicAs_spec path data mode owner w r w' :
  no_slash (Path.Base path) -> ~ is_temp path ->
  writeAtomicAs path data mode owner w = (r, w') ->
  spans E (writing path data (fs w)) w w' /\ writing path data (fs w) (fs w') /\
  (r = Ok tt -> exists x, fs w' !! path = Some x /\ fdata x = data /\ fmode x = mode /\
                          (forall o, owner = Some o -> fowner x = o)).
Proof.
  intros Hp Hh (a & w1 & Hs & Hr)%bind_inv.
  pose proof (touches_stage_file path data mode owner Hp) as Ht.
  pose proof (touches_fs _ _ _ _ _ _ _ Ht Hs) as Hf1.
  assert (H1 : spans E (writing path data (fs w)) w w1).
  { eapply spans_mono; [done| |by eapply touches_spans]. intros g Hg.
    eapply writing_hidden; [done|apply writing_refl|done]. }
  assert (Hw1 : writing path data (fs w) (fs w1)) by (eapply writing_hidden; [done|apply writing_refl|done]).
  destruct a as [name|e]; [|by apply ret_inv in Hr as [<- <-]].
  pose proof (yields_stage_file _ _ _ _ Hp _ _ _ Hs) as Hname.
  apply stage_file_ok in Hs as (x & Hx & Hdata & Hmode & Howner).
  destruct (commit_file_spec _ _ _ _ _ _ Hname Hh Hx Hr) as (Hc & Hw & Hok). rewrite Hdata in *.
  assert (Hcat : forall g, writing path data (fs w1) g -> writing path data (fs w) g).
  { intros g [Ho Hrep]. split.
    - eapply same_off_trans; [apply Hw1|done].
    - destruct Hrep as [Hg|?]; [left; by rewrite Hg, (Hf1 path Hh)|by right]. }
  split_and!; [|by apply Hcat|].
  - eapply spans_trans; [exact H1|]. by eapply spans_mono.
  - intros Hr'. exists x. rewrite (Hok Hr'). by split_and!.
Qed.

Lemma touches_writeAtomicAs (S : paths) path data mode owner :
  no_slash (Path.Base path) -> ~ is_temp path -> (forall p, or_path path p -> S p) ->
  touches S E (writeAtomicAs path data mode owner).
Proof.
  intros Hp Hh HS. apply (touches_mono (or_path path) S E E); [done|done|]. apply spans_touches. intros w.
  destruct (writeAtomicAs path data mode owner w) as [r w'] eqn:Hr.
  destruct (writeAtomicAs_spec _ _ _ _ _ _ _ Hp Hh Hr) as (Hs & Hf & _). split; [|apply Hf].
  eapply spans_mono; [done| |exact Hs]. by intros g [].
Qed.

Lemma touches_writeAtomic (S : paths) path data mode :
  no_slash (Path.Base path) -> ~ is_temp path -> (forall p, or_path path p -> S p) ->
  touches S E (writeAtomic path data mode).
Proof. apply touches_writeAtomicAs. Qed.

Lemma touches_writeAtomicKeepOwner (S : paths) path data mode :
  no_slash (Path.Base path) -> ~ is_temp path -> (forall p, or_path path p -> S p) ->
  touches S E (writeAtomicKeepOwner path data mode).
Proof.
  intros. pose proof touches_writeAtomicAs. pose proof touches_writeAtomic. pose proof HE.
  unfold writeAtomicKeepOwner. touches.
Qed.

Lemma touches_backupFile (S : paths) path mode : S (prev_of path) -> touches S E (backupFile path mode).
Proof. intros. pose proof HE. unfold backupFile. cbv zeta. touches. Qed.

Lemma touches_restoreFile (S : paths) prev path mode :
  (prev <> EmptyString -> S prev) -> S path -> touches S E (restoreFile prev path mode).
Proof.
  intros Hprev Hp. pose proof HE. unfold restoreFile.
  destruct (String.eqb_spec prev EmptyString) as [->|Hn]; [touches|]. specialize (Hprev Hn). touches.
Qed.

Lemma touches_saveVerifiedCopy (S : paths) src dst mode :
  no_slash (Path.Base dst) -> ~ is_temp dst -> (forall p, or_path dst p -> S p) ->
  touches S E (saveVerifiedCopy src dst mode).
Proof. intros. pose proof HE. pose proof touches_writeAtomic. unfold saveVerifiedCopy. touches. Qed.

Lemma touches_verifiedFile S path sha : touches S E (verifiedFile path sha).
Proof. pose proof HE. unfold verifiedFile. touches. Qed.

Lemma touches_extract_items (S : paths) tgz dst items : S dst -> touches S E (extract_items tgz dst items).
Proof. intros Hd. pose proof HE. induction items as [|[]]; cbn [extract_items]; touches. Qed.

Lemma touches_extractTelemtBinary (S : paths) tgz dst : S dst -> touches S E (extractTelemtBinary tgz dst).
Proof.
  intros Hd. pose proof HE. pose proof touches_extract_items. unfold extractTelemtBinary. touches.
Qed.

Hypothesis get_ok : forall url, E _ (Get url).

Lemma touches_downloadArtifact (S : paths) a dir s :
  (forall p, is_temp p -> S p) -> no_slash s -> touches S E (downloadArtifact a dir (String "." s)).
Proof.
  intros HS Hs. pose proof HE. pose proof get_ok. unfold downloadArtifact.
  destruct (String.eqb _ _); [touches|]. apply touches_try; [touches; apply touches_perform, get_ok|]. intros resp.
  destruct (negb _); [touches|].
  eapply touches_try_yields; [by apply touches_create_temp_hidden|by apply yields_create_temp|].
  intros name Hname%HS. cbv zeta. touches.
Qed.

End Atomic.

(** *** Results *)

Lemma backupFile_ok path mode w prev w' : backupFile path mode w = (Ok prev, w') ->
  (fs w !! path = None /\ prev = EmptyString /\ fs w' = fs w) \/
  (exists x y, fs w !! path = Some x /\ prev = prev_of path /\ fs w' !! prev = Some y /\
     fdata y = fdata x /\ fowner y = fowner x /\ same_off (eq (prev_of path)) (fs w) (fs w')).
Proof.
  intros Hr. pose proof (touches_backupFile anything system_anything (eq (prev_of path)) path mode eq_refl) as Ht.
  pose proof (touches_fs _ _ _ _ _ _ _ Ht Hr) as Hoff. unfold backupFile in Hr. cbv zeta in Hr. inv_ok.
  apply stat_inv in Hm as [Hf0 [[= ->]|[? [=]]]].
  destruct (fs w !! path) as [x|] eqn:Hx; [|inv_ok; by left].
  right. inv_ok. apply open_trunc_ok in Hm0 as (y & Hy & Hyd).
  apply bind_inv in Hr as (copied & w3 & Hcp & Hr). apply bind_inv in Hr as (closed & w4 & Hcl%check_fs & Hr).
  destruct copied as [[]|e]; [destruct closed as [[]|e]|];
    [|apply bind_inv in Hr as (? & ? & _ & Hr); inv_ok..].
  inv_ok. apply on_file_ok in Hm0 as (z & Hz & Hf').
  assert (Hw2 : fs w2 !! prev_of path = Some y) by (by rewrite Hy, lookup_insert_eq).
  rewrite <- Hm1 in Hw2. pose proof (write_ok _ _ _ _ _ _ Hcp Hw2) as Hw3.
  rewrite Hcl, Hw3, lookup_insert_eq in Hz. injection Hz as <-.
  eexists x, _. split_and!; [done|done|by rewrite Hf', lookup_insert_eq| |done|done].
  cbn. by rewrite Hyd.
Qed.

Lemma restoreFile_ok prev path mode w u w' : restoreFile prev path mode w = (Ok u, w') ->
  (prev = EmptyString /\ fs w' !! path = None) \/
  (prev <> EmptyString /\ exists y, fs w !! prev = Some y /\ fs w' !! path = Some (with_mode y mode)).
Proof.
  unfold restoreFile. destruct (String.eqb_spec prev EmptyString) as [->|Hn].
  - intros (x & _ & ->)%on_file_ok. left. by rewrite lookup_delete_eq.
  - intros Hr. right. split; [done|]. inv_ok. apply stat_inv in Hm as [Hf0 [[= ->]|[? [=]]]].
    destruct (fs w !! prev) as [y|] eqn:Hy; inv_ok.
    apply on_file_ok in Hm as (y' & Hy' & Hf1). apply on_file_ok in Hr as (z & Hz & Hf2).
    rewrite Hf0, Hy in Hy'. injection Hy' as <-. rewrite Hf1, lookup_insert_eq in Hz. injection Hz as <-.
    exists y. by rewrite Hf2, lookup_insert_eq.
Qed.

Lemma saveVerifiedCopy_ok src dst mode w sha w' :
  no_slash (Path.Base dst) -> ~ is_temp dst -> saveVerifiedCopy src dst mode w = (Ok sha, w') ->
  exists x y, fs w !! src = Some x /\ fs w' !! dst = Some y /\ fdata y = fdata x /\ sha = Sha.hex (fdata x).
Proof.
  intros Hp Hh Hr. unfold saveVerifiedCopy in Hr. inv_ok. apply must_read_ok in Hm as (Hf0 & x & Hx & <-).
  destruct a0. destruct (writeAtomicAs_spec _ system_anything _ _ _ _ _ _ _ Hp Hh Hm0) as (_ & _ & Hok).
  destruct (Hok eq_refl) as (y & Hy & Hd & _). by exists x, y.
Qed.

Lemma verifiedFile_ok path sha w d w' : verifiedFile path sha w = (Ok d, w') ->
  fs w' = fs w /\ exists x, fs w !! path = Some x /\ fdata x = d /\ Sha.hex d = sha.
Proof.
  intros Hr. unfold verifiedFile in Hr. inv_ok. apply must_read_ok in Hm as (Hf0 & x & Hx & <-).
  destruct (String.eqb_spec (Sha.hex (fdata x)) sha) as [Hs|Hs]; inv_ok. split; [done|]. by exists x.
Qed.

(** What a release archive holds: the first regular file named telemt. *)
Fixpoint telemt_entry (items : list tar_item) : option string :=
  match items with
  | [] | Broken _ :: _ => None
  | Entry regular name body _ :: items =>
      if negb regular || negb (String.eqb (Path.Base name) "telemt") then telemt_entry items
      else Some (limited maxUpgradeDownloadBytes body)
  end.

(** The telemt executable of an archive whose checksum is [sha]. *)
Definition genuine (sha binary : string) : Prop :=
  exists archive items, Str.equal_fold (Sha.hex archive) sha = true /\
    tar_items archive = Ok items /\ telemt_entry items = Some binary.

Lemma downloadArtifact_ok a dir s w name w' :
  no_slash s -> downloadArtifact a dir (String "." s) w = (Ok name, w') ->
  is_temp name /\ exists x, fs w' !! name = Some x /\ Str.equal_fold (Sha.hex (fdata x)) (art_SHA256 a) = true.
Proof.
  intros Hs Hr. unfold downloadArtifact in Hr. destruct (String.eqb _ _); [inv_ok|]. inv_ok.
  destruct (negb _); [inv_ok|]. inv_ok.
  pose proof (yields_create_temp _ _ Hs _ _ _ Hm0) as Hname. apply create_temp_try_ok in Hm0 as (_ & _ & Hf).
  apply bind_inv in Hr as (wrote & w3 & Hwr & Hr). apply bind_inv in Hr as (closed & w4 & Hcl%check_fs & Hr).
  destruct wrote as [[]|e]; [destruct (resp_body_err a0) as [e|]; [|destruct closed as [[]|e]]|];
    try (apply bind_inv in Hr as (? & ? & _ & Hr); inv_ok).
  destruct (Str.equal_fold _ _) eqn:Hsha; cbn [negb] in Hr;
    [|apply bind_inv in Hr as (? & ? & _ & Hr); inv_ok].
  inv_ok. apply on_file_ok in Hm0 as (z & Hz & Hf').
  assert (Hw1 : fs w1 !! name = Some (new_file 384)) by (by rewrite Hf, lookup_insert_eq).
  rewrite Hcl, (write_ok _ _ _ _ _ _ Hwr Hw1), lookup_insert_eq in Hz. injection Hz as <-.
  split; [done|]. eexists. rewrite Hf', lookup_insert_eq. split; [done|exact Hsha].
Qed.

Lemma extract_items_ok tgz dst items w u w' : extract_items tgz dst items w = (Ok u, w') ->
  exists x binary, fs w' !! dst = Some x /\ fdata x = binary /\ fmode x = 493 /\ telemt_entry items = Some binary.
Proof.
  revert w. induction items as [|[regular name body berr|e] items IH]; intros w; cbn [extract_items telemt_entry];
    [by intros [[=] _]%ret_inv| |by intros [[=] _]%ret_inv].
  destruct (negb regular || _); [by apply IH|]. intros Hr. inv_ok. apply open_trunc_ok in Hm as (y & Hy & Hyd).
  apply bind_inv in Hr as (wrote & w1 & Hwr & Hr). apply bind_inv in Hr as (closed & w2 & Hcl%check_fs & Hr).
  destruct wrote as [[]|e]; [destruct berr as [e|]; [|destruct closed as [[]|e]]|]; inv_ok.
  apply on_file_ok in Hr as (z & Hz & Hf').
  assert (Hw0 : fs w0 !! dst = Some y) by (by rewrite Hy, lookup_insert_eq).
  rewrite Hcl, (write_ok _ _ _ _ _ _ Hwr Hw0), lookup_insert_eq in Hz. injection Hz as <-.
  eexists _, _. rewrite Hf', lookup_insert_eq. split_and!; [done| |done|done]. cbn. by rewrite Hyd.
Qed.

Lemma extractTelemtBinary_ok tgz dst w u w' x0 sha :
  extractTelemtBinary tgz dst w = (Ok u, w') -> fs w !! tgz = Some x0 ->
  Str.equal_fold (Sha.hex (fdata x0)) sha = true ->
  exists x, fs w' !! dst = Some x /\ fmode x = 493 /\ genuine sha (fdata x).
Proof.
  intros Hr Hx0 Hsha. unfold extractTelemtBinary in Hr. inv_ok.
  apply must_read_ok in Hm as (Hf0 & x & Hx & <-). rewrite Hx0 in Hx. injection Hx as <-.
  destruct (tar_items (fdata x0)) as [items|e] eqn:Ht; [|inv_ok].
  apply extract_items_ok in Hr as (y & binary & Hy & <- & Hmode & He). exists y. split_and!; [done..|].
  by exists (fdata x0), items.
Qed.

End FileSpecs.
