(* ===== verification/Upgrade.v ===== *)
(** * What a node should be running

    internal/agent/upgrade.go: versions, the plan that compares the panel's
    manifest with what is installed, and the agent's env file. *)

From S2P Require Import Prelude Regex TelemtTypes Node AgentFiles.

Definition EngineTProxy : string := "tproxy".
Definition EngineTelemt : string := "telemt".
Definition ComponentTelemt : string := "telemt".
Definition ComponentAgent : string := "agent".

(** ** Versions *)

Definition digits_class : class := [("0", "9")]%char.
Definition tail_class : class := [("0", "9"); ("A", "Z"); ("a", "z"); (".", "."); ("-", "-")]%char.
Definition dot : re := Cls [(".", ".")]%char.

(** The pattern of a dotted triple with an optional tail. *)
Definition reVersion : re :=
  Seq (plus (Cls digits_class)) (Seq dot (Seq (plus (Cls digits_class)) (Seq dot
    (Seq (plus (Cls digits_class))
      (opt (Seq (Cls [(".", "."); ("-", "-")]%char) (plus (Cls tail_class)))))))).

Definition normalizeVersion (v : string) : string :=
  let v := Str.trim_space v in
  let v := Str.trim_prefix v "telemt " in
  let v := Str.trim_space v in
  Str.trim_prefix v "v".

Definition sameVersion (installed wanted : string) : bool :=
  let a := normalizeVersion installed in
  let b := normalizeVersion wanted in
  negb (String.eqb a EmptyString) && Str.equal_fold a b.

Definition ParseVersionOutput (out : string) : string := find_string reVersion out.

(** ** The plan *)

Record UpgradeTProxy := { Commit : string; Repo : string }.

Record UpgradeManifest := {
  Engine : string;
  Telemt : option UpgradeArtifact;
  TProxy : option UpgradeTProxy;
  Agent : UpgradeArtifact
}.

Record UpgradeScope := { scope_Telemt : bool; scope_Agent : bool }.

Definition includes (s : UpgradeScope) (component : string) : bool :=
  if negb (scope_Telemt s) && negb (scope_Agent s) then true
  else if String.eqb component ComponentTelemt then scope_Telemt s
  else if String.eqb component ComponentAgent then scope_Agent s
  else false.

Record ComponentPlan := {
  Name : string;
  plan_Installed : string;
  Wanted : string;
  Artifact : UpgradeArtifact;
  Change : bool;
  PlanReason : string
}.

Definition no_artifact : UpgradeArtifact := {| art_Version := EmptyString; art_SHA256 := EmptyString; art_URL := EmptyString |}.

Definition Changes (p : list ComponentPlan) : list ComponentPlan := List.filter Change p.

(** What the node has, by component; a missing key reads as empty. *)
Definition Installed : Type := gmap string string.

Definition have (i : Installed) (name : string) : string := default EmptyString (i !! name).

Definition shortCommit (c : string) : string :=
  if (12 <? String.length c)%nat then Str.take 12 c else c.

(** The arrow of the printed reason. *)
Definition arrow : string := " → ".

Definition componentPlan (name installed : string) (a : UpgradeArtifact) : ComponentPlan :=
  let '(change, reason) :=
    if sameVersion installed (art_Version a)
    then (false, "up to date (" +:+ normalizeVersion (art_Version a) +:+ ")")
    else if String.eqb installed EmptyString
    then (true, "installed version unknown" +:+ arrow +:+ "install " +:+ art_Version a)
    else (true, normalizeVersion installed +:+ arrow +:+ normalizeVersion (art_Version a)) in
  let '(change, reason) :=
    if change && String.eqb (art_SHA256 a) EmptyString
    then (false, "the panel published no sha256 for " +:+ art_Version a +:+ "; refusing to install an unverified download")
    else (change, reason) in
  {| Name := name; plan_Installed := installed; Wanted := art_Version a; Artifact := a;
     Change := change; PlanReason := reason |}.

Definition skipped (name installed : string) (a : UpgradeArtifact) : ComponentPlan :=
  {| Name := name; plan_Installed := installed; Wanted := art_Version a; Artifact := a;
     Change := false; PlanReason := "skipped (not in --telemt/--agent scope)" |}.

Definition BuildUpgradePlan (m : UpgradeManifest) (installed : Installed) (scope : UpgradeScope) : list ComponentPlan :=
  (match Telemt m with
   | None => []
   | Some a => [if includes scope ComponentTelemt then componentPlan ComponentTelemt (have installed ComponentTelemt) a
                else skipped ComponentTelemt (have installed ComponentTelemt) a]
   end) ++
  (match TProxy m with
   | Some t => if includes scope ComponentTelemt
               then [{| Name := "tproxy-server"; plan_Installed := have installed "tproxy-server";
                        Wanted := Commit t; Artifact := no_artifact; Change := false;
                        PlanReason := "pinned at " +:+ shortCommit (Commit t) +:+
                          "; a tproxy node is upgraded by re-running its install command" |}]
               else []
   | None => []
   end) ++
  [if includes scope ComponentAgent then componentPlan ComponentAgent (have installed ComponentAgent) (Agent m)
   else skipped ComponentAgent (have installed ComponentAgent) (Agent m)].

(** ** The env file *)

Definition newline : ascii := ascii_of_nat 10.
Definition carriage : ascii := ascii_of_nat 13.

(** The lines a [bufio.Scanner] yields: a final line break adds none, a
    trailing carriage return is dropped, and a line of 64 KiB is an error. *)
Definition scan_lines (text : string) : result (list string) :=
  let ls := Str.split newline text in
  let ls := match rev ls with EmptyString :: r => rev r | _ => ls end in
  if existsb (fun l => 65536 <=? Z.of_nat (String.length l)) ls
  then Err "bufio.Scanner: token too long"
  else Ok (map (fun l => if Str.has_suffix l (String carriage EmptyString)
                         then Str.trim_suffix l (String carriage EmptyString) else l) ls).

(** One line: the assignment it makes, if any. *)
Definition env_line (raw : string) : option (string * string) :=
  let line := Str.trim_space raw in
  if String.eqb line EmptyString || Str.has_prefix line "#" then None
  else let '(k, v, ok) := Str.cut line "=" in
       if ok then Some (Str.trim_space k, Str.trim_space v) else None.

Definition read_env (text : string) : result (gmap string string) :=
  match scan_lines text with
  | Err e => Err e
  | Ok ls => Ok (fold_left (fun out l => match env_line l with Some (k, v) => <[k := v]> out | None => out end) ls ∅)
  end.

Definition firstLine (s : string) : string :=
  let '(s, _, _) := Str.cut (Str.trim_space s) newline in
  if (200 <? String.length s)%nat then Str.take 200 s else s.

(** ** Properties *)

Lemma lower_byte_idem c : Str.lower_byte (Str.lower_byte c) = Str.lower_byte c.
Proof. destruct c as [[] [] [] [] [] [] [] []]; reflexivity. Qed.

Lemma equal_fold_refl s : Str.equal_fold s s = true.
Proof. unfold Str.equal_fold. apply String.eqb_refl. Qed.

Lemma equal_fold_sym a b : Str.equal_fold a b = Str.equal_fold b a.
Proof. unfold Str.equal_fold. apply String.eqb_sym. Qed.

Lemma equal_fold_trans a b c : Str.equal_fold a b = true -> Str.equal_fold b c = true -> Str.equal_fold a c = true.
Proof. unfold Str.equal_fold. rewrite !String.eqb_eq. congruence. Qed.

Lemma equal_fold_empty a : Str.equal_fold a EmptyString = true -> a = EmptyString.
Proof. unfold Str.equal_fold. rewrite String.eqb_eq. by destruct a. Qed.

(** Two reports name the same version regardless of case, surrounding
    white space, a v or the word telemt, and the relation is a partial
    equivalence: an empty version is the same as none, not even itself. *)
Theorem sameVersion_per a b c :
  sameVersion a b = sameVersion b a /\
  (sameVersion a b = true -> sameVersion b c = true -> sameVersion a c = true) /\
  (sameVersion a a = true <-> normalizeVersion a <> EmptyString).
Proof.
  unfold sameVersion. split_and!.
  - rewrite equal_fold_sym. destruct (Str.equal_fold _ _) eqn:E; [|by rewrite !andb_false_r].
    rewrite !andb_true_r. f_equal.
    destruct (String.eqb_spec (normalizeVersion a) EmptyString) as [Ea|Ea],
      (String.eqb_spec (normalizeVersion b) EmptyString) as [Eb|Eb]; try done; exfalso.
    + rewrite Ea in E. by apply Eb, equal_fold_empty.
    + rewrite Eb, equal_fold_sym in E. by apply Ea, equal_fold_empty.
  - rewrite !andb_true_iff. intros [Ha Hab] [_ Hbc]. split; [done|by eapply equal_fold_trans].
  - rewrite equal_fold_refl, andb_true_r, negb_true_iff, String.eqb_neq. done.
Qed.

Lemma sameVersion_per_witness :
  (sameVersion "telemt 3.5.7" "v3.5.7" = true -> sameVersion "v3.5.7" " 3.5.7" = true ->
   sameVersion "telemt 3.5.7" " 3.5.7" = true) /\ sameVersion "telemt 3.5.7-RC1" "3.5.7-rc1" = true.
Proof. split; [|by vm_compute]. apply sameVersion_per. Defined.

(** A component of the manifest with its artifact. *)
Definition pinned (m : UpgradeManifest) (name : string) (a : UpgradeArtifact) : Prop :=
  (name = ComponentTelemt /\ Telemt m = Some a) \/ (name = ComponentAgent /\ Agent m = a).

Lemma componentPlan_change name installed a :
  Change (componentPlan name installed a) = true <->
  sameVersion installed (art_Version a) = false /\ art_SHA256 a <> EmptyString.
Proof.
  unfold componentPlan. destruct (sameVersion installed (art_Version a)); [cbn; split; [done|by intros []]|].
  destruct (String.eqb installed EmptyString); cbn [andb];
    (destruct (String.eqb_spec (art_SHA256 a) EmptyString); cbn; intuition congruence).
Qed.

Lemma componentPlan_fields name installed a :
  let c := componentPlan name installed a in
  Name c = name /\ plan_Installed c = installed /\ Wanted c = art_Version a /\ Artifact c = a.
Proof.
  unfold componentPlan. destruct (sameVersion _ _), (String.eqb installed EmptyString); cbn [andb];
    destruct (String.eqb (art_SHA256 a) EmptyString); cbn; auto.
Qed.

(** The plan of one component of the manifest. *)
Definition one_plan (scope : UpgradeScope) (installed : Installed) (name : string) (a : UpgradeArtifact) : ComponentPlan :=
  if includes scope name then componentPlan name (have installed name) a
  else skipped name (have installed name) a.

Lemma changes_one scope installed name a : Changes [one_plan scope installed name a] =
  if includes scope name && negb (sameVersion (have installed name) (art_Version a)) &&
     negb (String.eqb (art_SHA256 a) EmptyString)
  then [componentPlan name (have installed name) a] else [].
Proof.
  unfold one_plan, Changes. destruct (includes scope name); cbn [andb List.filter]; [|done].
  pose proof (componentPlan_change name (have installed name) a) as Hc.
  destruct (Change _), (sameVersion _ _), (String.eqb_spec (art_SHA256 a) EmptyString); cbn [andb negb];
    try done; exfalso; intuition congruence.
Qed.

Lemma elem_changes_one scope installed name a c : c ∈ Changes [one_plan scope installed name a] <->
  includes scope name = true /\ art_SHA256 a <> EmptyString /\
  sameVersion (have installed name) (art_Version a) = false /\ c = componentPlan name (have installed name) a.
Proof.
  rewrite changes_one.
  destruct (includes scope name), (sameVersion _ _), (String.eqb_spec (art_SHA256 a) EmptyString);
    cbn [andb negb]; rewrite ?elem_of_nil, ?list_elem_of_singleton; intuition congruence.
Qed.

Lemma names_one scope installed name a : sublist (map Name (Changes [one_plan scope installed name a])) [name].
Proof.
  rewrite changes_one. destruct (_ && _); [|apply sublist_nil_l]. cbn.
  by rewrite (proj1 (componentPlan_fields _ _ _)).
Qed.

(** The entry of a tproxy node never changes anything. *)
Lemma changes_plan m installed scope : Changes (BuildUpgradePlan m installed scope) =
  (match Telemt m with Some a => Changes [one_plan scope installed ComponentTelemt a] | None => [] end) ++
  Changes [one_plan scope installed ComponentAgent (Agent m)].
Proof.
  unfold BuildUpgradePlan, Changes, one_plan. rewrite !List.filter_app.
  destruct (Telemt m), (TProxy m), (includes scope ComponentTelemt); cbn [List.filter app]; done.
Qed.

(** telemt is replaced before the agent, each at most once. *)
Lemma changes_sublist m installed scope :
  sublist (map Name (Changes (BuildUpgradePlan m installed scope))) [ComponentTelemt; ComponentAgent].
Proof.
  rewrite changes_plan, map_app. apply (sublist_app _ [ComponentTelemt] _ [ComponentAgent]).
  - destruct (Telemt m) as [a|]; [apply names_one|apply sublist_nil_l].
  - apply names_one.
Qed.

(** The plan replaces a component exactly when the panel pins it with a
    checksum, it is in the requested scope and the node does not already have
    that version; and telemt is replaced before the agent, each at most once. *)
Theorem plan_changes_iff m installed scope c :
  (c ∈ Changes (BuildUpgradePlan m installed scope) <->
   exists name a, pinned m name a /\ includes scope name = true /\ art_SHA256 a <> EmptyString /\
     sameVersion (have installed name) (art_Version a) = false /\
     c = componentPlan name (have installed name) a) /\
  (exists l, sublist l [ComponentTelemt; ComponentAgent] /\
     map Name (Changes (BuildUpgradePlan m installed scope)) = l).
Proof.
  rewrite changes_plan. split.
  - rewrite elem_of_app. unfold pinned. split.
    + destruct (Telemt m) as [a|].
      * rewrite !elem_changes_one. intros [(?&?&?&->)|(?&?&?&->)];
          [exists ComponentTelemt, a|exists ComponentAgent, (Agent m)]; auto 10.
      * rewrite elem_of_nil, elem_changes_one. intros [[]|(?&?&?&->)]. exists ComponentAgent, (Agent m). auto 10.
    + intros (name & a & [[-> ->]|[-> <-]] & ?); [left|right]; by apply elem_changes_one.
  - eexists. split; [|done]. rewrite <- changes_plan. apply changes_sublist.
Qed.

(** The plan of a telemt node one release behind. *)
Definition behind : UpgradeManifest :=
  {| Engine := EngineTelemt; TProxy := None;
     Telemt := Some {| art_Version := "3.5.7"; art_SHA256 := "ab"; art_URL := "u" |};
     Agent := {| art_Version := "1.2.0"; art_SHA256 := "cd"; art_URL := "v" |} |}.

Example plan_behind :
  map Name (Changes (BuildUpgradePlan behind
    (<[ComponentTelemt := "telemt 3.5.6"]> (<[ComponentAgent := "v1.2.0"]> ∅))
    {| scope_Telemt := false; scope_Agent := false |}))%string = [ComponentTelemt].
Proof. by vm_compute. Qed.

(** What a line assigns to [k]. *)
Definition assigns (k l : string) : option string :=
  match env_line l with
  | Some (k', v) => if String.eqb k' k then Some v else None
  | None => None
  end.

(** The env file gives a key the value of the last line that assigns it,
    whatever comes before; comments, blank lines and lines without an equals
    sign assign nothing, and only an overlong line makes the file unreadable. *)
Theorem read_env_last text ls :
  scan_lines text = Ok ls ->
  exists env, read_env text = Ok env /\ forall k, env !! k = last (omap (assigns k) ls).
Proof.
  intros Hl. unfold read_env. rewrite Hl. eexists. split; [done|]. intros k. clear Hl.
  induction ls as [|l ls IH] using rev_ind; [done|].
  rewrite fold_left_app, omap_app. cbn [fold_left]. unfold assigns at 2. cbn [omap list_omap].
  destruct (env_line l) as [[k' v]|] eqn:E; [|by rewrite app_nil_r].
  destruct (String.eqb_spec k' k) as [->|Hk].
  - by rewrite lookup_insert_eq, last_snoc.
  - by rewrite lookup_insert_ne, app_nil_r.
Qed.

Definition env_text : string :=
  "# agent" +:+ String newline ("TGWP_ENGINE=tproxy" +:+ String newline (" TGWP_ENGINE = telemt " +:+
  String carriage (String newline "broken line"))).

Lemma read_env_last_witness :
  exists env, read_env env_text = Ok env /\
    forall k, env !! k = last (omap (assigns k) ["# agent"; "TGWP_ENGINE=tproxy"; " TGWP_ENGINE = telemt "; "broken line"]%string).
Proof. apply read_env_last. by vm_compute. Defined.
