(* ===== verification/TelemtClient.v ===== *)
(** * The control client of the agent

    internal/telemt/client.go and internal/telemt/web.go: the calls of telemt's
    control API the update code makes.  An HTTP exchange with its decoding is
    one question to the outside; what is modelled is what the client does
    around it: the deadline of the context, the cached runtime instance and
    the one retry after telemt restarted underneath a write call. *)

From S2P Require Import Prelude TelemtTypes Capabilities Node NodeLogic.

Section Client.
Context `{Outside}.
Local Open Scope go_scope.

Definition MinDrainTimeoutSecs : Z := 1.
Definition MaxDrainTimeoutSecs : Z := 3600.

(** One call, given up when the context ends. *)
Definition control {A} (ctx : context) (c : call A) : M (A + apierror) :=
  t ← clock;
  if expired ctx t then mret (inr (Transport errDeadline))
  else
    r ← perform (Control c);
    t' ← clock;
    mret (if expired ctx t' then inr (Transport errDeadline) else r).

Definition WebStatus_ (ctx : context) : M (WebStatus + apierror) :=
  r ← control ctx GetWebStatus;
  match r with
  | inr e => mret (inr e)
  | inl st =>
      let st := if String.eqb (runtime_RuntimeInstance st) EmptyString then st
                else {| top_RuntimeInstance := runtime_RuntimeInstance st;
                        OperatorLifecycle := OperatorLifecycle st;
                        runtime_RuntimeInstance := runtime_RuntimeInstance st;
                        HasLearning := HasLearning st;
                        HasCarrierNegotiation := HasCarrierNegotiation st |} in
      if String.eqb (top_RuntimeInstance st) EmptyString then mret (inl st)
      else _ ← set_instance (top_RuntimeInstance st); mret (inl st)
  end.

Definition webRuntimeInstance (ctx : context) (refresh : bool) : M (string + apierror) :=
  cached ← get_instance;
  _ ← (if refresh then set_instance EmptyString else mret tt : M unit);
  if negb refresh && negb (String.eqb cached EmptyString) then mret (inl cached)
  else
    st ← WebStatus_ ctx;
    match st with
    | inr e => mret (inr e)
    | inl st =>
        if String.eqb (top_RuntimeInstance st) EmptyString
        then mret (inr (APIError 409 "web_runtime_unavailable" "web status carries no runtime_instance"))
        else mret (inl (top_RuntimeInstance st))
    end.

Definition withRuntimeInstance {A} (ctx : context) (do_call : string -> M (A + apierror)) : M (A + apierror) :=
  i ← webRuntimeInstance ctx false;
  match i with
  | inr e => mret (inr e)
  | inl i =>
      r ← do_call i;
      match r with
      | inl a => mret (inl a)
      | inr e =>
          if negb (IsCode e ErrCodeRuntimeMismatch) then mret (inr e)
          else
            i ← webRuntimeInstance ctx true;
            match i with
            | inr e => mret (inr e)
            | inl i => do_call i
            end
      end
  end.

(** The text of the error of a call. *)
Definition textual {A} (m : M (A + apierror)) : M (result A) :=
  r ← m; mret (match r with inl a => Ok a | inr e => Err (api_text e) end).

Definition WebPause_ (ctx : context) : M (result unit) :=
  textual (withRuntimeInstance ctx (fun i => control ctx (PostPause i))).

Definition WebResume_ (ctx : context) : M (result unit) :=
  textual (withRuntimeInstance ctx (fun i => control ctx (PostResume i))).

Definition WebDrain_ (ctx : context) (timeoutSecs : Z) : M (result unit) :=
  if (timeoutSecs <? MinDrainTimeoutSecs) || (timeoutSecs >? MaxDrainTimeoutSecs)
  then mret (Err ("telemt: drain timeout " +:+ Dec.itoa timeoutSecs +:+ " out of range " +:+
                  Dec.itoa MinDrainTimeoutSecs +:+ ".." +:+ Dec.itoa MaxDrainTimeoutSecs))
  else textual (withRuntimeInstance ctx (fun i => control ctx (PostDrain i timeoutSecs))).

Definition get_status (ctx : context) : M (result WebStatus) := textual (WebStatus_ ctx).
Definition system_info (ctx : context) : M (result SystemInfo) := textual (control ctx GetSystemInfo).

(** The read-only probe and the capabilities it settles. *)
Definition Capabilities_ (ctx : context) : M (result (TelemtCapabilities * UnknownCapabilities)) :=
  info ← control ctx GetSystemInfo;
  match info with
  | inr e => mret (Err (api_text e))
  | inl info =>
      st ← WebStatus_ ctx;
      cfg ← control ctx GetConfig;
      mret (Ok (ComputeCapabilities
        {| Capabilities.Version := TelemtTypes.Version info; Status := st;
           Config := match cfg with inl c => Some c.1 | inr _ => None end |}))
  end.

(** ** Footprints *)

Lemma touches_control S (E : questions) A ctx (c : call A) : E _ (Control c) -> touches S E (control ctx c).
Proof. intros. unfold control. touches. Qed.

Lemma touches_WebStatus S (E : questions) ctx : E _ (Control GetWebStatus) -> touches S E (WebStatus_ ctx).
Proof. intros. pose proof touches_control. unfold WebStatus_. touches. Qed.

Lemma touches_webRuntimeInstance S (E : questions) ctx b :
  E _ (Control GetWebStatus) -> touches S E (webRuntimeInstance ctx b).
Proof. intros. pose proof touches_WebStatus. unfold webRuntimeInstance. touches. Qed.

Lemma touches_withRuntimeInstance S (E : questions) A ctx (f : string -> M (A + apierror)) :
  E _ (Control GetWebStatus) -> (forall i, touches S E (f i)) -> touches S E (withRuntimeInstance ctx f).
Proof. intros. pose proof touches_webRuntimeInstance. unfold withRuntimeInstance. touches. Qed.

Lemma touches_textual S E A (m : M (A + apierror)) : touches S E m -> touches S E (textual m).
Proof. intros. unfold textual. touches. Qed.

Lemma touches_get_status S (E : questions) ctx : E _ (Control GetWebStatus) -> touches S E (get_status ctx).
Proof. intros. by apply touches_textual, touches_WebStatus. Qed.

Lemma touches_system_info S (E : questions) ctx : E _ (Control GetSystemInfo) -> touches S E (system_info ctx).
Proof. intros. by apply touches_textual, touches_control. Qed.

Lemma touches_WebPause S ctx : touches S anything (WebPause_ ctx).
Proof. apply touches_textual, touches_withRuntimeInstance; [done|]. intros. by apply touches_control. Qed.

Lemma touches_WebResume S ctx : touches S anything (WebResume_ ctx).
Proof. apply touches_textual, touches_withRuntimeInstance; [done|]. intros. by apply touches_control. Qed.

Lemma touches_WebDrain S ctx n : touches S anything (WebDrain_ ctx n).
Proof.
  unfold WebDrain_. destruct (_ || _); [apply touches_ret|].
  apply touches_textual, touches_withRuntimeInstance; [done|]. intros. by apply touches_control.
Qed.

Lemma touches_Capabilities S (E : questions) ctx :
  E _ (Control GetSystemInfo) -> E _ (Control GetWebStatus) -> E _ (Control GetConfig) ->
  touches S E (Capabilities_ ctx).
Proof.
  intros. pose proof touches_control. pose proof touches_WebStatus. unfold Capabilities_. touches.
Qed.

(** ** Answers *)

Lemma control_asked A ctx (c : call A) w a w' : control ctx c w = (inl a, w') -> asked c (eq a) w w'.
Proof.
  unfold control. intros (t & w1 & [-> <-]%clock_inv & Hk)%bind_inv.
  destruct (expired ctx (now w)); [by apply ret_inv in Hk as [[=] _]|].
  apply bind_inv in Hk as (r & w2 & Hp & Hk). apply bind_inv in Hk as (t' & w3 & [_ <-]%clock_inv & Hk).
  apply ret_inv in Hk as [Hr <-]. destruct (expired ctx t'); [done|]. subst r.
  unfold perform in Hp. destruct (react _ _ _) as [[b d] o]. injection Hp as -> <-.
  eexists [Did (Control c) (inl a)], a. split; [done|]. split; [done|by left].
Qed.

Lemma textual_ok A (m : M (A + apierror)) w a w' : textual m w = (Ok a, w') -> m w = (inl a, w').
Proof. intros ([b|e] & w1 & Hm & [[=] <-]%ret_inv)%bind_inv. by subst. Qed.

Lemma system_info_asked ctx w i w' : system_info ctx w = (Ok i, w') -> asked GetSystemInfo (eq i) w w'.
Proof. intros Hi%textual_ok. by eapply control_asked. Qed.

Lemma later_set_instance i w w' : set_instance i w = (tt, w') -> later w w'.
Proof. intros [= <-]. by exists []. Qed.

Lemma get_status_asked ctx w st w' : get_status ctx w = (Ok st, w') ->
  asked GetWebStatus (fun s => OperatorLifecycle s = OperatorLifecycle st) w w'.
Proof.
  intros Hs%textual_ok. unfold WebStatus_ in Hs. apply bind_inv in Hs as ([s|e] & w1 & Hc & Hk);
    [|by apply ret_inv in Hk as [[=] _]].
  apply control_asked in Hc as (l & s' & Hl & <- & Hin). cbv zeta in Hk.
  exists l, s. split_and!; [| |done].
  - revert Hk. destruct (String.eqb (top_RuntimeInstance _) _); [by intros [_ <-]%ret_inv|].
    by intros ([] & w2 & [= <-] & [_ <-]%ret_inv)%bind_inv.
  - revert Hk. destruct (String.eqb (top_RuntimeInstance _) _);
      [intros [[= <-] _]%ret_inv|intros ([] & w2 & _ & [[= <-] _]%ret_inv)%bind_inv];
      by destruct (String.eqb (runtime_RuntimeInstance s) EmptyString).
Qed.

(** ** The one retry *)

(** The write calls sent between two worlds, oldest first. *)
Definition is_write (ev : event) : bool :=
  match ev with
  | Did (Control c) _ => negb (read_only c)
  | _ => false
  end.

Definition writes (l : list event) : nat := length (List.filter is_write l).

Definition sends_at_most {A} (n : nat) (m : M A) : Prop :=
  forall w, exists l, history w (m w).2 l /\ (writes l <= n)%nat.

Lemma sends_bind A B n k (m : M A) (f : A -> M B) :
  sends_at_most n m -> (forall a, sends_at_most k (f a)) -> sends_at_most (n + k) (mbind f m).
Proof.
  intros Hm Hf w. unfold mbind, M_bind. destruct (Hm w) as (l & Hl & Hn). destruct (m w) as [a w']. cbn in Hl.
  destruct (Hf a w') as (l' & Hl' & Hk). exists (l' ++ l). split; [by eapply history_trans|].
  unfold writes in *. rewrite List.filter_app, length_app. lia.
Qed.

Lemma sends_harmless A (m : M A) : (exists S, touches S harmless m) -> sends_at_most 0 m.
Proof.
  intros [S Hm] w. destruct (Hm w) as (l & Hl & HF & _). exists l. split; [done|].
  unfold writes. clear Hl. induction HF as [|ev l Hev _ IH]; [done|]. cbn [List.filter].
  destruct ev as [f|B e b]; [exact IH|]. destruct e; try done; try exact IH. cbn in *. by rewrite Hev.
Qed.

Lemma sends_ret A (a : A) n : sends_at_most n (mret a).
Proof. intros w. exists []. split; [done|cbn; lia]. Qed.

Lemma sends_mono A (m : M A) n k : (n <= k)%nat -> sends_at_most n m -> sends_at_most k m.
Proof. intros Hn Hm w. destruct (Hm w) as (l & ? & ?). exists l. split; [done|lia]. Qed.

Lemma sends_control A ctx (c : call A) : sends_at_most 1 (control ctx c).
Proof.
  intros w. unfold control. run. destruct (expired ctx (now w)); run; [by exists []; split; [|cbn; lia]|].
  unfold perform. destruct (react _ _ _) as [[a d] o]. run. eexists [_]. split; [done|].
  cbn. destruct (negb _); cbn; lia.
Qed.

Lemma sends_withRuntimeInstance A ctx (f : string -> M (A + apierror)) :
  (forall i, sends_at_most 1 (f i)) -> sends_at_most 2 (withRuntimeInstance ctx f).
Proof.
  intros Hf. unfold withRuntimeInstance.
  assert (Hi : forall b, sends_at_most 0 (webRuntimeInstance ctx b)).
  { intros b. apply sends_harmless. exists (fun _ => False). by apply touches_webRuntimeInstance. }
  apply (sends_bind _ _ 0 2); [done|]. intros [i|e]; [|apply sends_ret].
  apply (sends_bind _ _ 1 1); [done|]. intros [a|e]; [apply sends_ret|].
  destruct (negb _); [apply sends_ret|].
  apply (sends_bind _ _ 0 1); [done|]. intros [i'|e']; [apply Hf|apply sends_ret].
Qed.

(** A lifecycle command is retried at most once: a pause, a resume or a
    drain sends telemt at most two write requests whatever it answers, and a
    drain whose timeout telemt would refuse sends none. *)
Theorem lifecycle_writes_bounded ctx n :
  sends_at_most 2 (WebPause_ ctx) /\ sends_at_most 2 (WebResume_ ctx) /\
  sends_at_most 2 (WebDrain_ ctx n) /\
  (~ MinDrainTimeoutSecs <= n <= MaxDrainTimeoutSecs -> sends_at_most 0 (WebDrain_ ctx n)).
Proof.
  assert (Ht : forall A k (m : M (A + apierror)), sends_at_most k m -> sends_at_most k (textual m)).
  { intros A k m Hm. replace k with (k + 0)%nat by lia. apply sends_bind; [done|]. intros []; apply sends_ret. }
  assert (Hw : forall (f : string -> call unit), sends_at_most 2 (textual (withRuntimeInstance ctx (fun i => control ctx (f i))))).
  { intros f. apply Ht, sends_withRuntimeInstance. intros i. apply sends_control. }
  split_and!; [apply Hw|apply Hw| |]; unfold WebDrain_.
  - destruct (_ || _); [apply sends_ret|apply Hw].
  - intros Hn. destruct (_ || _) eqn:E; [apply sends_ret|]. bprop. lia.
Qed.

End Client.

#[export] Hint Resolve touches_control touches_WebStatus touches_get_status touches_system_info
  touches_WebPause touches_WebResume touches_WebDrain touches_Capabilities : touches.
#[export] Hint Extern 1 (anything _ _) => exact I : touches.
#[export] Hint Extern 1 (harmless _ _) => reflexivity : touches.
