(* ===== verification/UpdateState.v ===== *)
(** * The record of an update and the restart of telemt

    internal/agent/telemtupdate.go: the progress a concurrent status call
    reads ([telemtUpdate] and its methods), held in [upd] of the world.
    internal/agent/telemt.go: restarting telemt and waiting for it to be ready.
    internal/agent/upgrade.go is in [Upgrade]. *)

From S2P Require Import Prelude TelemtTypes Node NodeLogic AgentFiles TelemtClient Upgrade.

Record Config := {
  StateDir : string;
  TelemtConfigPath : string;
  TelemtBin : string;
  HealthWait : Z;
  cfg_Engine : string;
  updatePoll : Z;
  TelemtSiteDir : string;
  RelaySiteDir : string;
  ReloadWait : Z;
  ProfilesPath : string;
  MTProxyEnvPath : string;
  TProxyBin : string;
  ConfigPath : string;
  RelayAdminURL : string
}.

Definition UpdateStepPreflight : string := "preflight".
Definition UpdateStepDownload : string := "download".
Definition UpdateStepPause : string := "pause".
Definition UpdateStepDrain : string := "drain".
Definition UpdateStepSwap : string := "swap".
Definition UpdateStepRestart : string := "restart".
Definition UpdateStepVerify : string := "verify".
Definition UpdateStepResume : string := "resume".
Definition UpdateStepRollback : string := "rollback".

Definition UpdateStateRunning : string := "running".
Definition UpdateStateOK : string := "ok".
Definition UpdateStateFailed : string := "failed".
Definition UpdateStateSkipped : string := "skipped".

Definition UpdatePhaseIdle : string := "idle".
Definition UpdatePhaseRunning : string := "running".
Definition UpdatePhaseDone : string := "done".

Definition UpdateOutcomeUpdated : string := "updated".
Definition UpdateOutcomeRefused : string := "refused".
Definition UpdateOutcomeFailed : string := "failed".
Definition UpdateOutcomeRolledBack : string := "rolled_back".
Definition UpdateOutcomeRollbackFailed : string := "rollback_failed".
Definition UpdateOutcomeAdmissionClosed : string := "updated_admission_closed".

Definition UnixMilli (t : Z) : Z := t / Tm.millisecond.

(** The fields of an update, one setter per method that writes them. *)
Definition with_steps (u : TelemtUpdate) (l : list UpdateStep) : TelemtUpdate :=
  {| JobId := JobId u; Phase := Phase u; Outcome := Outcome u; UpdOk := UpdOk u; RolledBack := RolledBack u;
     FromVersion := FromVersion u; ToVersion := ToVersion u; StartedUnixMs := StartedUnixMs u;
     FinishedUnixMs := FinishedUnixMs u; UpdError := UpdError u; Drained := Drained u; Steps := l |}.

Definition with_from (u : TelemtUpdate) (v : string) : TelemtUpdate :=
  {| JobId := JobId u; Phase := Phase u; Outcome := Outcome u; UpdOk := UpdOk u; RolledBack := RolledBack u;
     FromVersion := v; ToVersion := ToVersion u; StartedUnixMs := StartedUnixMs u;
     FinishedUnixMs := FinishedUnixMs u; UpdError := UpdError u; Drained := Drained u; Steps := Steps u |}.

Definition with_drained (u : TelemtUpdate) : TelemtUpdate :=
  {| JobId := JobId u; Phase := Phase u; Outcome := Outcome u; UpdOk := UpdOk u; RolledBack := RolledBack u;
     FromVersion := FromVersion u; ToVersion := ToVersion u; StartedUnixMs := StartedUnixMs u;
     FinishedUnixMs := FinishedUnixMs u; UpdError := UpdError u; Drained := true; Steps := Steps u |}.

Definition ended_update (u : TelemtUpdate) (outcome : string) (err : option error) (t : Z) : TelemtUpdate :=
  {| JobId := JobId u; Phase := UpdatePhaseDone; Outcome := outcome;
     UpdOk := String.eqb outcome UpdateOutcomeUpdated;
     RolledBack := String.eqb outcome UpdateOutcomeRolledBack;
     FromVersion := FromVersion u; ToVersion := ToVersion u; StartedUnixMs := StartedUnixMs u;
     FinishedUnixMs := UnixMilli t; UpdError := default (UpdError u) err;
     Drained := Drained u; Steps := Steps u |}.

Definition with_progress (s : UpdateStep) (msg : string) (sessions streams : Z) : UpdateStep :=
  {| Key := Key s; StepState := StepState s; Message := msg; StepStartedUnixMs := StepStartedUnixMs s;
     StepFinishedUnixMs := StepFinishedUnixMs s; StepSessions := sessions; StepStreams := streams |}.

Definition finished_step (s : UpdateStep) (state msg : string) (t : Z) : UpdateStep :=
  {| Key := Key s; StepState := state; Message := msg; StepStartedUnixMs := StepStartedUnixMs s;
     StepFinishedUnixMs := UnixMilli t; StepSessions := StepSessions s; StepStreams := StepStreams s |}.

(** Rewrite the last step with this key, as [step] finds it; [None] when there is none. *)
Fixpoint on_last_step (key : string) (f : UpdateStep -> UpdateStep) (l : list UpdateStep) : option (list UpdateStep) :=
  match l with
  | [] => None
  | s :: l =>
      match on_last_step key f l with
      | Some l => Some (s :: l)
      | None => if String.eqb (Key s) key then Some (f s :: l) else None
      end
  end.

Section State.
Context `{Outside}.
Local Open Scope go_scope.

Definition newTelemtUpdate (from to : string) : M TelemtUpdate :=
  id ← perform NewUUID;
  t ← clock;
  mret {| JobId := id; Phase := UpdatePhaseRunning; Outcome := EmptyString; UpdOk := false; RolledBack := false;
          FromVersion := from; ToVersion := to; StartedUnixMs := UnixMilli t; FinishedUnixMs := 0;
          UpdError := EmptyString; Drained := false; Steps := [] |}.

(** A method of the update the handler tracks, run under its mutex. *)
Definition update_with (f : TelemtUpdate -> Z -> TelemtUpdate) : M unit :=
  t ← clock;
  u ← get_upd;
  set_upd ((fun u => f u t) <$> u).

Definition begin (key msg : string) : M unit :=
  update_with (fun u t => with_steps u (Steps u ++
    [{| Key := key; StepState := UpdateStateRunning; Message := msg; StepStartedUnixMs := UnixMilli t;
        StepFinishedUnixMs := 0; StepSessions := 0; StepStreams := 0 |}])).

Definition progress (key : string) (sessions streams : Z) (msg : string) : M unit :=
  update_with (fun u _ =>
    match on_last_step key (fun s => with_progress s msg sessions streams) (Steps u) with
    | Some l => with_steps u l
    | None => u
    end).

Definition finish (key state msg : string) : M unit :=
  update_with (fun u t =>
    match on_last_step key (fun s => finished_step s state msg t) (Steps u) with
    | Some l => with_steps u l
    | None => with_steps u (Steps u ++
        [finished_step {| Key := key; StepState := EmptyString; Message := EmptyString; StepStartedUnixMs := UnixMilli t;
                          StepFinishedUnixMs := 0; StepSessions := 0; StepStreams := 0 |} state msg t])
    end).

Definition skip (key msg : string) : M unit := finish key UpdateStateSkipped msg.

Definition setFrom (v : string) : M unit := update_with (fun u _ => with_from u v).

Definition setDrained : M unit := update_with (fun u _ => with_drained u).

Definition end_ (outcome : string) (err : option error) : M unit :=
  update_with (fun u t => ended_update u outcome err t).

(** ** Restarting telemt *)

Context (cfg : Config).

Definition readyPoll : Z := 250 * Tm.millisecond.

(** One attempt: whether telemt is ready, or the wait is over. *)
Definition ready_once (ctx : context) (deadline : Z) : M (option (result unit)) :=
  rd ← control ctx GetReady;
  let last := match rd with
              | inl rd => if Ready rd then None else Some ("not ready: " +:+ Reason rd)
              | inr e => Some (api_text e)
              end in
  match last with
  | None => mret (Some (Ok tt))
  | Some last =>
      t ← clock;
      mret (if deadline <? t then Some (Err ("telemt did not become ready in time: " +:+ last)) else None)
  end.

(** The attempts that fit before the deadline, and the one after it. *)
Definition ready_fuel : nat := S (S (Z.to_nat (HealthWait cfg / readyPoll))).

Definition waitTelemtReady (ctx : context) : M (result unit) :=
  t ← clock;
  poll ready_fuel ctx readyPoll (ready_once ctx (t + HealthWait cfg)) (fun e => mret (Err e)).

Definition restartTelemt (ctx : context) : M (result unit) :=
  run ← perform (Exec ["systemctl"; "restart"; "telemt"]%string);
  match run with
  | (out, Some e) => mret (Err ("restart telemt: " +:+ e +:+ ": " +:+ Str.trim_space out))
  | (_, None) => waitTelemtReady ctx
  end.

Definition verifyTelemtVersion (ctx : context) (want : string) : M (result unit) :=
  info ← system_info ctx;
  match info with
  | Err e => mret (Err ("telemt's control API did not answer after the restart: " +:+ e))
  | Ok info =>
      if negb (sameVersion (Version info) want)
      then mret (Err ("telemt reports " +:+ Str.trim_space (Version info) +:+
                      " after the restart, not the pinned " +:+ want))
      else mret (Ok tt)
  end.

(** ** Footprints and termination *)

Lemma touches_update_with S E f : touches S E (update_with f).
Proof. unfold update_with. touches. Qed.

Lemma touches_begin S E k m : touches S E (begin k m).
Proof. apply touches_update_with. Qed.
Lemma touches_progress S E k a b m : touches S E (progress k a b m).
Proof. apply touches_update_with. Qed.
Lemma touches_finish S E k s m : touches S E (finish k s m).
Proof. apply touches_update_with. Qed.
Lemma touches_skip S E k m : touches S E (skip k m).
Proof. apply touches_update_with. Qed.
Lemma touches_setFrom S E v : touches S E (setFrom v).
Proof. apply touches_update_with. Qed.
Lemma touches_setDrained S E : touches S E setDrained.
Proof. apply touches_update_with. Qed.
Lemma touches_end S E o e : touches S E (end_ o e).
Proof. apply touches_update_with. Qed.

Lemma touches_newTelemtUpdate S (E : questions) a b : E _ NewUUID -> touches S E (newTelemtUpdate a b).
Proof. intros. unfold newTelemtUpdate. touches. Qed.

Lemma touches_waitTelemtReady S (E : questions) ctx :
  system_ok E -> E _ (Control GetReady) -> touches S E (waitTelemtReady ctx).
Proof.
  intros HE Hq. unfold waitTelemtReady. apply touches_bind; [touches|]. intros t.
  apply touches_poll; [done| |touches]. unfold ready_once. touches.
Qed.

Lemma touches_restartTelemt S ctx : touches S anything (restartTelemt ctx).
Proof.
  unfold restartTelemt. apply touches_bind; [by apply touches_perform|]. intros [out [e|]]; [touches|].
  by apply touches_waitTelemtReady; [apply system_anything|].
Qed.

Lemma touches_verifyTelemtVersion S (E : questions) ctx v :
  E _ (Control GetSystemInfo) -> touches S E (verifyTelemtVersion ctx v).
Proof. intros. unfold verifyTelemtVersion. touches. Qed.

Lemma advances_control A ctx (c : call A) : advances (control ctx c).
Proof.
  unfold control. apply advances_bind; [by apply advances_same|]. intros t.
  destruct (expired ctx t); [apply advances_ret|].
  apply advances_bind; [apply advances_perform|]. intros r.
  apply advances_bind; [by apply advances_same|]. intros t'. apply advances_ret.
Qed.

Lemma advances_ready_once ctx deadline : advances (ready_once ctx deadline).
Proof.
  unfold ready_once. apply advances_bind; [apply advances_control|]. intros rd.
  destruct (match rd with inl _ => _ | inr _ => _ end); [|apply advances_ret].
  apply advances_bind; [by apply advances_same|]. intros t. apply advances_ret.
Qed.

Lemma ready_once_late ctx deadline w : deadline < now w -> (ready_once ctx deadline w).1 <> None.
Proof.
  intros Hd. unfold ready_once, mbind, M_bind. pose proof (advances_control _ ctx GetReady w) as Ha.
  destruct (control ctx GetReady w) as [rd w1]. cbn in Ha.
  destruct (match rd with inl _ => _ | inr _ => _ end) as [e|]; [|done].
  cbn. destruct (Z.ltb_spec deadline (now w1)); [done|lia].
Qed.

Lemma readyPoll_pos : 0 < readyPoll.
Proof. unfold readyPoll. time_lia. Qed.

(** Waiting for telemt ends: at four attempts a second the wait never needs
    more than the health wait allows, so a larger bound on the attempts never
    changes its result. *)
Theorem waitTelemtReady_terminates ctx w m :
  (ready_fuel <= m)%nat ->
  waitTelemtReady ctx w =
  poll m ctx readyPoll (ready_once ctx (now w + HealthWait cfg)) (fun e => mret (Err e)) w.
Proof.
  intros Hm. change (waitTelemtReady ctx w) with
    (poll ready_fuel ctx readyPoll (ready_once ctx (now w + HealthWait cfg)) (fun e => mret (Err e)) w).
  unfold ready_fuel in *. destruct m as [|m]; [lia|]. symmetry.
  apply (poll_total _ _ _ _ _ (now w + HealthWait cfg)); [apply readyPoll_pos|apply advances_ready_once| | |lia].
  - intros. by apply ready_once_late.
  - pose proof readyPoll_pos as Hp. pose proof (Z.mul_succ_div_gt (HealthWait cfg) readyPoll Hp). nia.
Qed.

End State.

#[export] Hint Resolve touches_begin touches_progress touches_finish touches_skip touches_setFrom
  touches_setDrained touches_end touches_newTelemtUpdate touches_waitTelemtReady touches_restartTelemt
  touches_verifyTelemtVersion : touches.
