(* ===== verification/UpdateJournal.v ===== *)
(** * The journal of an update

    internal/agent/updatejournal.go: the intent written before admission or
    binaries change, with verified copies of the binary and the config.

    The JSON text of a journal is an interface, [JournalCodec]: what is written
    reads back as it was. *)

From S2P Require Import Prelude Crypto TelemtTypes Node NodeLogic AgentFiles TelemtClient Upgrade UpdateState.

Record updateJournal := {
  j_Outcome : string;
  j_Error : string;
  Target : string;
  Active : bool;
  j_Version : string;
  Binary : string;
  BinarySHA : string;
  j_Config : string;
  ConfigSHA : string;
  HadWeb : bool;
  j_AdmissionOpen : bool;
  Started : Z
}.

(** [json.Marshal] and [json.Unmarshal] of a journal. *)
Class JournalCodec := {
  marshal : updateJournal -> result string;
  unmarshal : string -> result updateJournal;
  unmarshal_marshal : forall j s, marshal j = Ok s -> unmarshal s = Ok j
}.

(** What the preflight settled before anything on the node was touched. *)
Record updatePlan := {
  preserveClosed : bool;
  installed : string;
  drain : bool;
  pause : bool;
  resume : bool;
  drainSkip : string;
  hadWeb : bool
}.

Definition rollbackTimeout : Z := 2 * Tm.minute.

(** The closed journal of a run that ended. *)
Definition closed (j : updateJournal) (outcome err : string) : updateJournal :=
  {| j_Outcome := outcome; j_Error := err; Target := Target j; Active := false; j_Version := j_Version j;
     Binary := Binary j; BinarySHA := BinarySHA j; j_Config := j_Config j; ConfigSHA := ConfigSHA j;
     HadWeb := HadWeb j; j_AdmissionOpen := j_AdmissionOpen j; Started := Started j |}.

Section Journal.
Context `{Outside} `{JournalCodec}.
Context (cfg : Config).
Local Open Scope go_scope.

Definition updateJournalPath : string := Path.Join (StateDir cfg) "telemt-update-journal.json".
Definition known_good : string := Path.Join (StateDir cfg) "telemt-known-good".
Definition known_good_config : string := Path.Join (StateDir cfg) "telemt-known-good.toml".

Definition writeUpdateJournal (j : updateJournal) : M (result unit) :=
  match marshal j with
  | Err e => mret (Err e)
  | Ok b => writeAtomic updateJournalPath b 384
  end.

(** Fail closed on unreadable intents. *)
Definition checkUpdateJournal : M (result unit) :=
  try b ← read_file updateJournalPath;
  match b with
  | None => mret (Ok tt)
  | Some b =>
      match unmarshal b with
      | Err e => mret (Err e)
      | Ok j => if Active j
                then mret (Err "interrupted update requires recovery; inspect agent logs and restart the agent after resolving the recovery error")
                else mret (Ok tt)
      end
  end.

(** Whether admission was open; only asked on a node with a WEB runtime. *)
Definition original_admission (ctx : context) (plan : updatePlan) : M (result bool) :=
  if hadWeb plan then
    try st ← get_status ctx;
    mret (match OperatorLifecycle st with
          | None => Err "cannot record original WEB admission state"
          | Some lc => Ok (AdmissionOpen lc)
          end)
  else mret (Ok false).

Definition prepareUpdateJournal (ctx : context) (plan : updatePlan) (target : string) : M (result updateJournal) :=
  try _ ← checkUpdateJournal;
  t ← clock;
  try _ ← check (MkdirAll (StateDir cfg));
  try admission ← original_admission ctx plan;
  try binarySHA ← saveVerifiedCopy (TelemtBin cfg) known_good 448;
  try configSHA ← saveVerifiedCopy (TelemtConfigPath cfg) known_good_config 384;
  let j := {| j_Outcome := EmptyString; j_Error := EmptyString; Target := target; Active := true;
              j_Version := installed plan; Binary := known_good; BinarySHA := binarySHA;
              j_Config := known_good_config; ConfigSHA := configSHA; HadWeb := hadWeb plan;
              j_AdmissionOpen := admission; Started := t |} in
  try _ ← writeUpdateJournal j;
  mret (Ok j).

(** Put admission back as the journal found it, and have telemt confirm it. *)
Definition restore_admission (ctx : context) (j : updateJournal) : M (result unit) :=
  if HadWeb j then
    try _ ← (if j_AdmissionOpen j then WebResume_ ctx else WebPause_ ctx);
    try st ← get_status ctx;
    mret (match OperatorLifecycle st with
          | Some lc => if Bool.eqb (AdmissionOpen lc) (j_AdmissionOpen j) then Ok tt
                       else Err "original WEB admission could not be restored"
          | None => Err "original WEB admission could not be restored"
          end)
  else mret (Ok tt).

(** Put the verified copies back and have telemt confirm the node as the
    journal found it. *)
Definition put_back (ctx : context) (j : updateJournal) : M (result unit) :=
  if negb (String.eqb (Binary j) known_good) || negb (String.eqb (j_Config j) known_good_config)
  then mret (Err "invalid rollback artifact paths")
  else
    try binary ← verifiedFile (Binary j) (BinarySHA j);
    try config ← verifiedFile (j_Config j) (ConfigSHA j);
    try _ ← writeAtomic (TelemtBin cfg) binary 493;
    try _ ← writeAtomicKeepOwner (TelemtConfigPath cfg) config 384;
    try _ ← wrapped (fun e => "restart previous telemt: " +:+ e) (restartTelemt cfg ctx);
    try _ ← verifyTelemtVersion ctx (j_Version j);
    restore_admission ctx j.

(** What recovery does with an active journal, once the lock is held. *)
Definition recover_active (ctx : context) (j : updateJournal) : M (result unit) :=
  t ← clock;
  try _ ← put_back (with_timeout ctx rollbackTimeout t) j;
  try _ ← writeUpdateJournal (closed j UpdateOutcomeRolledBack "interrupted update recovered from durable journal");
  u ← newTelemtUpdate (j_Version j) (Target j);
  _ ← set_upd (Some u);
  _ ← end_ UpdateOutcomeRolledBack (Some "interrupted update recovered from durable journal");
  mret (Ok tt).

(** Run at start-up, before the agent connects.  Recording the recovery in the
    agent's event list is not part of the model. *)
Definition recoverUpdate (ctx : context) : M (result unit) :=
  if negb (String.eqb (cfg_Engine cfg) EngineTelemt) then mret (Ok tt)
  else
    try b ← read_file updateJournalPath;
    match b with
    | None => mret (Ok tt)
    | Some b =>
        match unmarshal b with
        | Err e => mret (Err e)
        | Ok j =>
            if negb (Active j) then
              if String.eqb (j_Outcome j) EmptyString then mret (Ok tt)
              else
                u ← newTelemtUpdate (j_Version j) (Target j);
                _ ← set_upd (Some u);
                _ ← end_ (j_Outcome j) (if String.eqb (j_Error j) EmptyString then None else Some (j_Error j));
                mret (Ok tt)
            else
              locked ← try_lock;
              if negb locked then mret (Err "maintenance busy during recovery")
              else
                r ← recover_active ctx j;
                _ ← set_maintenance false;
                mret r
        end
    end.

End Journal.
