(* ===== verification/TelemtUpdate.v ===== *)
(** * The maintenance sequence that updates telemt

    internal/agent/telemtupdate.go: preflight, download, pause, drain, swap,
    restart, verify, resume, and the rollback of a build that fails. *)

From S2P Require Import Prelude Crypto TelemtTypes Capabilities Node NodeLogic AgentFiles TelemtClient Upgrade UpdateState UpdateJournal.

Record UpdateTelemtRequest := {
  req_Version : string;
  req_SHA256 : string;
  req_URL : string;
  DrainTimeoutSecs : Z;
  RequireDrain : bool
}.

Definition defaultUpdatePoll : Z := Tm.second.
Definition defaultUpdateDrainSecs : Z := 60.
Definition updateRunTimeoutOverhead : Z := 10 * Tm.minute.

Definition errUpdateInFlight : error := "a telemt update is already running on this node".

Definition updatePollInterval (cfg : Config) : Z :=
  if updatePoll cfg >? 0 then updatePoll cfg else defaultUpdatePoll.

Definition drainTimeoutSecs (req : UpdateTelemtRequest) : Z :=
  let secs := DrainTimeoutSecs req in
  if (secs <? MinDrainTimeoutSecs) || (secs >? MaxDrainTimeoutSecs) then defaultUpdateDrainSecs else secs.

Definition validSHA256 (s : string) : option error :=
  let s := Str.trim_space s in
  if String.eqb s EmptyString
  then Some "the panel published no sha256 for this build, so the download cannot be verified"
  else match Hex.decode s with
       | Some raw => if (String.length raw =? 32)%nat then None
                     else Some ("the panel published " +:+ Str.quote s +:+ " as the sha256 of this build, which is not a sha256")
       | None => Some ("the panel published " +:+ Str.quote s +:+ " as the sha256 of this build, which is not a sha256")
       end.

Definition shortSHA (s : string) : string := if (12 <? String.length s)%nat then Str.take 12 s else s.

Definition sameTelemtVersion (a b : string) : bool :=
  let normalize v := Str.trim_prefix (Str.trim_space v) "v" in
  negb (String.eqb (normalize a) EmptyString) && String.eqb (normalize a) (normalize b).

Definition describeDrainPlan (p : updatePlan) : string :=
  if String.eqb (drainSkip p) EmptyString then "sessions will be drained first" else drainSkip p.

(** What a rollback puts back: the binary and the config the update replaced. *)
Record keptFiles := { k_bin : string; k_binPrev : string; k_config : string; k_configPrev : string }.

Definition describe (k : keptFiles) : string :=
  if String.eqb (k_binPrev k) EmptyString then "there was no previous binary to keep"
  else if String.eqb (k_configPrev k) EmptyString
  then "the previous binary is kept as " +:+ Path.Base (k_binPrev k)
  else "the previous binary and config are kept as " +:+ Path.Base (k_binPrev k) +:+ " and " +:+ Path.Base (k_configPrev k).

(** [errors.Join] of two errors. *)
Definition join_errors (a b : option error) : option error :=
  match a, b with
  | Some a, Some b => Some (a +:+ String newline b)
  | Some a, None => Some a
  | None, b => b
  end.

Definition failure {A} (r : result A) : option error := match r with Ok _ => None | Err e => Some e end.

Section Update.
Context `{Outside} `{JournalCodec} `{Archive}.
Context (cfg : Config).
Local Open Scope go_scope.

(** Finish a step as failed and hand its error on. *)
Definition fail_step {A} (key : string) (suffix : string) (e : error) : M (result A) :=
  _ ← finish key UpdateStateFailed (e +:+ suffix);
  mret (Err e).

(** ** Preflight *)

(** How the sessions will be drained: the reason they will not be, empty when
    they will, or the refusal. *)
Definition drain_plan (caps : TelemtCapabilities) (unknown : UnknownCapabilities) (req : UpdateTelemtRequest)
    (inst : string) : result string :=
  if WebDrain caps then Ok EmptyString
  else if Has unknown CapWebDrain then
    if RequireDrain req
    then Err "this node's drain support could not be determined, so the update would have to drop live sessions blindly; nothing was changed"
    else Ok "drain support could not be determined and the update was started without requiring it; live sessions are dropped by the restart"
  else
    if RequireDrain req then Err "WEB drain is required but unsupported; nothing was changed"
    else Ok ("this node's telemt " +:+ inst +:+ " has no WEB drain; live sessions are dropped by the restart").

(** The checks on what the panel pinned. *)
Definition pinned_build (req : UpdateTelemtRequest) : option error :=
  fail_if (String.eqb (Str.trim_space (req_Version req)) EmptyString)
    "the panel pinned no telemt version; nothing was changed"
  ;;? ((fun e => e +:+ "; nothing was changed") <$> validSHA256 (req_SHA256 req))
  ;;? fail_if (String.eqb (Str.trim_space (req_URL req)) EmptyString)
    "the panel published no download URL for this build; nothing was changed".

Definition updatePreflight (ctx : context) (req : UpdateTelemtRequest) : M (result updatePlan) :=
  let fail e := fail_step UpdateStepPreflight EmptyString e in
  _ ← begin UpdateStepPreflight "checking the pinned build and what this node supports";
  match pinned_build req with
  | Some e => fail e
  | None =>
      info ← system_info ctx;
      match info with
      | Err e => fail ("telemt's control API did not answer, so the running version cannot be read: " +:+ e)
      | Ok info =>
          let v := ParseVersionOutput (TelemtTypes.Version info) in
          let inst := if String.eqb v EmptyString then Str.trim_space (TelemtTypes.Version info) else v in
          _ ← setFrom inst;
          if sameTelemtVersion inst (req_Version req)
          then fail ("telemt " +:+ inst +:+ " is already installed; nothing was changed")
          else
            caps ← Capabilities_ ctx;
            match caps with
            | Err e => fail ("could not work out what this node supports: " +:+ e)
            | Ok (caps, unknown) =>
                match drain_plan caps unknown req inst with
                | Err e => fail e
                | Ok skip_reason =>
                    let plan := {| preserveClosed := false; installed := inst; drain := WebDrain caps;
                                   pause := WebPause caps; resume := WebResume caps; drainSkip := skip_reason;
                                   hadWeb := WebRuntime caps |} in
                    _ ← finish UpdateStepPreflight UpdateStateOK
                          ("telemt " +:+ inst +:+ " installed, " +:+ req_Version req +:+ " pinned; " +:+ describeDrainPlan plan);
                    mret (Ok plan)
                end
            end
      end
  end.

(** ** Download *)

Definition stageTelemtBinary (req : UpdateTelemtRequest) : M (result string) :=
  let dir := Path.Dir (TelemtBin cfg) in
  let art := {| art_Version := req_Version req; art_SHA256 := req_SHA256 req; art_URL := req_URL req |} in
  try tgz ← downloadArtifact art dir ".telemt-download-";
  let staged := Path.Join dir ".telemt.new" in
  r ← or_clean (extractTelemtBinary tgz staged) (ignore (remove staged));
  _ ← ignore (remove tgz);
  mret (match r with Ok _ => Ok staged | Err e => Err e end).

(** ** Pause and drain *)

Definition updatePause (ctx : context) (plan : updatePlan) : M (result unit) :=
  if negb (pause plan) then
    _ ← skip UpdateStepPause "this node cannot pause WEB admission"; mret (Ok tt)
  else
    _ ← begin UpdateStepPause "closing WEB admission";
    r ← wrapped (fun e => "pause WEB admission: " +:+ e) (WebPause_ ctx);
    match r with
    | Err e => fail_step UpdateStepPause "; the binary was not touched" e
    | Ok _ => _ ← finish UpdateStepPause UpdateStateOK "no new WEB sessions are admitted"; mret (Ok tt)
    end.

Definition drain_fail (e : error) : M (result unit) := fail_step UpdateStepDrain "; binary unchanged" e.

(** One look at the drain: its result, or nothing yet. *)
Definition drain_once (ctx : context) : M (option (result unit)) :=
  st ← get_status ctx;
  match st with
  | Err e => r ← drain_fail e; mret (Some r)
  | Ok st =>
      match OperatorLifecycle st with
      | Some lc =>
          match Drain lc with
          | Some d =>
              let sessions := RemainingSessions d in
              let streams := RemainingStreams d in
              _ ← progress UpdateStepDrain sessions streams
                    (lifecycle_State lc +:+ ": " +:+ Dec.itoa sessions +:+ " session(s), " +:+ Dec.itoa streams +:+ " stream(s) left");
              if String.eqb (drain_State d) "cancelled"
              then r ← drain_fail "drain was cancelled"; mret (Some r)
              else if String.eqb (lifecycle_State lc) WebLifecycleDrained || String.eqb (drain_State d) "completed" then
                if negb (sessions =? 0) || negb (streams =? 0) || negb (RemainingWebsockets d =? 0)
                then r ← drain_fail "drain ended with live sessions or streams"; mret (Some r)
                else
                  _ ← setDrained;
                  _ ← finish UpdateStepDrain UpdateStateOK "drained: no sessions or streams left";
                  mret (Some (Ok tt))
              else mret None
          | None => r ← drain_fail "drain progress unavailable"; mret (Some r)
          end
      | None => r ← drain_fail "drain progress unavailable"; mret (Some r)
      end
  end.

(** The looks that fit before the drain's deadline, and the one after it. *)
Definition drain_fuel (timeoutSecs : Z) : nat :=
  S (S (Z.to_nat ((timeoutSecs * Tm.second + 5 * Tm.second) / updatePollInterval cfg))).

Definition updateDrain (ctx : context) (timeoutSecs : Z) : M (result unit) :=
  _ ← begin UpdateStepDrain ("draining live sessions (up to " +:+ Dec.itoa timeoutSecs +:+ "s)");
  r ← WebDrain_ ctx timeoutSecs;
  match r with
  | Err e => drain_fail e
  | Ok _ =>
      t ← clock;
      let drainCtx := with_timeout ctx (timeoutSecs * Tm.second + 5 * Tm.second) t in
      poll (drain_fuel timeoutSecs) drainCtx (updatePollInterval cfg) (drain_once drainCtx) drain_fail
  end.

(** ** Swap *)

Definition discard (k : keptFiles) : M unit :=
  _ ← (if String.eqb (k_binPrev k) EmptyString then mret tt else ignore (remove (k_binPrev k)) : M unit);
  (if String.eqb (k_configPrev k) EmptyString then mret tt else ignore (remove (k_configPrev k))).

Definition swapTelemtBinary (staged : string) : M (result keptFiles) :=
  let bin := TelemtBin cfg in
  let config := TelemtConfigPath cfg in
  try prev ← backupFile bin 493;
  try cfgPrev ← (if String.eqb config EmptyString then mret (Ok EmptyString)
                 else wrapped (fun e => "keep a copy of " +:+ config +:+ ": " +:+ e) (backupFile config 384));
  try _ ← wrapped (fun e => "install " +:+ bin +:+ ": " +:+ e) (rename staged bin);
  c ← chmod bin 493;
  match c with
  | Ok _ => mret (Ok {| k_bin := bin; k_binPrev := prev; k_config := config; k_configPrev := cfgPrev |})
  | Err e =>
      r ← restoreFile prev bin 493;
      mret (Err (default e (join_errors (Some e) (failure r))))
  end.

(** ** Restart and verify *)

Definition verify_web (ctx : context) (plan : updatePlan) (want : string) : M (result unit) :=
  if hadWeb plan then
    d ← perform Decoy;
    match d with
    | Some e => fail_step UpdateStepVerify EmptyString e
    | None =>
        st ← wrapped (fun e => "telemt " +:+ want +:+ " is up but its WEB runtime does not answer: " +:+ e) (get_status ctx);
        match st with
        | Err e => fail_step UpdateStepVerify EmptyString e
        | Ok _ => mret (Ok tt)
        end
    end
  else mret (Ok tt).

Definition updateRestartAndVerify (ctx : context) (plan : updatePlan) (want : string) : M (result unit) :=
  _ ← begin UpdateStepRestart "restarting telemt";
  r ← restartTelemt cfg ctx;
  match r with
  | Err e => fail_step UpdateStepRestart EmptyString e
  | Ok _ =>
      _ ← finish UpdateStepRestart UpdateStateOK "telemt restarted and its control API reports ready";
      _ ← begin UpdateStepVerify "checking what is actually running";
      v ← verifyTelemtVersion ctx want;
      match v with
      | Err e => fail_step UpdateStepVerify EmptyString e
      | Ok _ =>
          try _ ← verify_web ctx plan want;
          _ ← finish UpdateStepVerify UpdateStateOK
                ("telemt " +:+ want +:+ " is running, ready and serving its control API");
          mret (Ok tt)
      end
  end.

(** ** Resume *)

(** Reopen admission, or confirm that it stays closed as it was found. *)
Definition updateResume (ctx : context) (plan : updatePlan) (paused : bool) : M (result unit) :=
  if preserveClosed plan then
    try _ ← WebPause_ ctx;
    try st ← get_status ctx;
    match OperatorLifecycle st with
    | Some lc =>
        if AdmissionOpen lc then mret (Err "original closed WEB admission could not be verified")
        else _ ← skip UpdateStepResume "operator admission was closed before maintenance and remains closed";
             mret (Ok tt)
    | None => mret (Err "original closed WEB admission could not be verified")
    end
  else if negb paused then
    _ ← skip UpdateStepResume "admission was never closed"; mret (Ok tt)
  else
    _ ← begin UpdateStepResume "reopening WEB admission";
    resumed ← (if resume plan then WebResume_ ctx else mret (Ok tt));
    st ← get_status ctx;
    let fail e := fail_step UpdateStepResume EmptyString e in
    match st, failure resumed with
    | Err _, Some resumeErr => fail ("reopening WEB admission failed: " +:+ resumeErr)
    | Err e, None => _ ← finish UpdateStepResume UpdateStateFailed ("admission could not be verified: " +:+ e); mret (Err e)
    | Ok st, resumeErr =>
        match OperatorLifecycle st with
        | None => fail "WEB admission status unavailable"
        | Some lc =>
            if AdmissionOpen lc then
              _ ← finish UpdateStepResume UpdateStateOK "WEB admission is open"; mret (Ok tt)
            else
              let e := "telemt is running the new build but WEB admission is still closed (state " +:+ lifecycle_State lc +:+ ")" in
              fail (match resumeErr with Some r => e +:+ ": " +:+ r | None => e end)
        end
    end.

(** ** Rollback *)

(** Put the files back and have telemt confirm the previous version. *)
Definition rollback_files (ctx : context) (plan : updatePlan) (kept : keptFiles) : M (result unit) :=
  try _ ← wrapped (fun e => "restoring " +:+ k_bin kept +:+ " failed: " +:+ e)
            (restoreFile (k_binPrev kept) (k_bin kept) 493);
  try _ ← (if String.eqb (k_configPrev kept) EmptyString then mret (Ok tt)
           else wrapped (fun e => "restoring " +:+ k_config kept +:+ " failed: " +:+ e)
                  (restoreFile (k_configPrev kept) (k_config kept) 384));
  try _ ← wrapped (fun e => "telemt did not come back on the previous binary: " +:+ e) (restartTelemt cfg ctx);
  if String.eqb (installed plan) EmptyString then mret (Ok tt)
  else verifyTelemtVersion ctx (installed plan).

Definition rollbackTelemt (plan : updatePlan) (kept : keptFiles) (cause : error) : M unit :=
  t ← clock;
  let ctx := with_timeout None (2 * Tm.minute) t in
  _ ← begin UpdateStepRollback ("putting the previous telemt back: " +:+ cause);
  r ← rollback_files ctx plan kept;
  match r with
  | Err e =>
      _ ← finish UpdateStepRollback UpdateStateFailed e;
      end_ UpdateOutcomeRollbackFailed (Some (cause +:+ "; the rollback also failed: " +:+ e))
  | Ok _ =>
      _ ← finish UpdateStepRollback UpdateStateOK ("telemt " +:+ installed plan +:+ " is running again and reports ready");
      r ← updateResume ctx plan true;
      match r with
      | Err e => end_ UpdateOutcomeRollbackFailed (Some (cause +:+ "; the previous binary is back but " +:+ e))
      | Ok _ => end_ UpdateOutcomeRolledBack (Some cause)
      end
  end.

(** ** The run *)

(** Whether a finished update leaves nothing for recovery to undo. *)
Definition updateSettled (ctx : context) (j : updateJournal) (outcome : string) : M bool :=
  if String.eqb outcome UpdateOutcomeUpdated || String.eqb outcome UpdateOutcomeRolledBack then mret true
  else if String.eqb outcome UpdateOutcomeAdmissionClosed then mret true
  else if String.eqb outcome UpdateOutcomeFailed then
    f ← (verifiedFile (TelemtBin cfg) (BinarySHA j) : M (result string));
    match f with
    | Err _ => mret false
    | Ok _ =>
        if negb (HadWeb j) then mret true
        else
          st ← get_status ctx;
          mret (match st with
                | Ok st => match OperatorLifecycle st with
                           | Some lc => Bool.eqb (AdmissionOpen lc) (j_AdmissionOpen j)
                           | None => false
                           end
                | Err _ => false
                end)
    end
  else mret false.

(** The deferred closing of the journal. *)
Definition settle (j : updateJournal) : M unit :=
  u ← get_upd;
  let outcome := match u with Some u => Outcome u | None => EmptyString end in
  let err := match u with Some u => UpdError u | None => EmptyString end in
  t ← clock;
  is_settled ← updateSettled (with_timeout None (10 * Tm.second) t) j outcome;
  match is_settled with
  | true => ignore (writeUpdateJournal cfg (closed j outcome err))
  | false => mret tt
  end.

(** A failure between the pause and the swap: reopen admission and end. *)
Definition abort_before_swap (plan : updatePlan) (paused : bool) (e : error) : M unit :=
  t ← clock;
  resumed ← updateResume (with_timeout None (30 * Tm.second) t) plan paused;
  end_ UpdateOutcomeFailed (join_errors (Some e) (failure resumed)).

(** From the closed admission on: pause, drain, swap, restart, verify, resume. *)
Definition maintenance_sequence (ctx : context) (req : UpdateTelemtRequest) (plan : updatePlan) (staged : string) : M unit :=
  p ← updatePause ctx plan;
  match p with
  | Err e => end_ UpdateOutcomeFailed (Some e)
  | Ok _ =>
      let skipped_drain := negb (String.eqb (drainSkip plan) EmptyString) in
      let paused := if skipped_drain then pause plan else true in
      d ← (if skipped_drain then _ ← skip UpdateStepDrain (drainSkip plan); mret (Ok tt)
           else updateDrain ctx (drainTimeoutSecs req) : M (result unit));
      match d with
      | Err e => abort_before_swap plan paused e
      | Ok _ =>
          _ ← begin UpdateStepSwap ("replacing " +:+ TelemtBin cfg);
          s ← swapTelemtBinary staged;
          match s with
          | Err e =>
              _ ← finish UpdateStepSwap UpdateStateFailed e;
              abort_before_swap plan paused e
          | Ok kept =>
              _ ← finish UpdateStepSwap UpdateStateOK (TelemtBin cfg +:+ " replaced; " +:+ describe kept);
              v ← updateRestartAndVerify ctx plan (req_Version req);
              match v with
              | Err e => rollbackTelemt plan kept e
              | Ok _ =>
                  r ← updateResume ctx plan paused;
                  match r with
                  | Err e => end_ UpdateOutcomeAdmissionClosed (Some e)
                  | Ok _ => _ ← discard kept; end_ UpdateOutcomeUpdated None
                  end
              end
          end
      end
  end.

Definition with_preserve (plan : updatePlan) (b : bool) : updatePlan :=
  {| preserveClosed := b; installed := installed plan; drain := drain plan; pause := pause plan;
     resume := resume plan; drainSkip := drainSkip plan; hadWeb := hadWeb plan |}.

Definition runTelemtUpdate (ctx : context) (req : UpdateTelemtRequest) : M unit :=
  plan ← updatePreflight ctx req;
  match plan with
  | Err e => end_ UpdateOutcomeRefused (Some e)
  | Ok plan =>
      _ ← begin UpdateStepDownload ("downloading telemt " +:+ req_Version req);
      staged ← stageTelemtBinary req;
      match staged with
      | Err e =>
          _ ← finish UpdateStepDownload UpdateStateFailed e;
          end_ UpdateOutcomeRefused (Some e)
      | Ok staged =>
          _ ← finish UpdateStepDownload UpdateStateOK
                ("downloaded and sha256 verified (" +:+ shortSHA (req_SHA256 req) +:+ ")");
          j ← prepareUpdateJournal cfg ctx plan (req_Version req);
          _ ← (match j with
               | Err e => end_ UpdateOutcomeRefused (Some ("persist rollback intent: " +:+ e))
               | Ok j =>
                   _ ← maintenance_sequence ctx req (with_preserve plan (HadWeb j && negb (j_AdmissionOpen j))) staged;
                   settle j
               end : M unit);
          ignore (remove staged)
      end
  end.

(** ** Starting a run *)

(** Accept or refuse an update; the job itself is [update_job]. *)
Definition StartTelemtUpdate (req : UpdateTelemtRequest) : M (result TelemtUpdate) :=
  if negb (String.eqb (cfg_Engine cfg) EngineTelemt) then mret (Err "this node does not run the telemt engine")
  else
    locked ← try_lock;
    if negb locked then mret (Err "node maintenance is already in progress")
    else
      j ← checkUpdateJournal cfg;
      match j with
      | Err e => _ ← set_maintenance false; mret (Err e)
      | Ok _ =>
          running ← get_upd;
          if (match running with Some u => String.eqb (Phase u) UpdatePhaseRunning | None => false end) then
            _ ← set_maintenance false; mret (Err errUpdateInFlight)
          else
            u ← newTelemtUpdate EmptyString (Str.trim_space (req_Version req));
            _ ← set_upd (Some u);
            mret (Ok u)
      end.

(** What the goroutine runs once the update was accepted. *)
Definition update_job (req : UpdateTelemtRequest) : M unit :=
  t ← clock;
  _ ← runTelemtUpdate (with_timeout None (drainTimeoutSecs req * Tm.second + updateRunTimeoutOverhead) t) req;
  set_maintenance false.

Definition TelemtUpdateStatus : M TelemtUpdate :=
  u ← get_upd;
  mret (match u with
        | Some u => u
        | None => {| JobId := EmptyString; Phase := UpdatePhaseIdle; Outcome := EmptyString; UpdOk := false;
                     RolledBack := false; FromVersion := EmptyString; ToVersion := EmptyString;
                     StartedUnixMs := 0; FinishedUnixMs := 0; UpdError := EmptyString; Drained := false; Steps := [] |}
        end).

End Update.
