(* ===== verification/UpdateSpecs.v ===== *)
(** * What the steps of an update change

    The footprint of every step of [TelemtUpdate] and what each leaves in the
    node's files; the properties of whole runs are in [UpdateSafety]. *)

From S2P Require Import Prelude Crypto TelemtTypes Capabilities Node NodeLogic AgentFiles TelemtClient Upgrade UpdateState UpdateJournal TelemtUpdate.

Section Specs.
Context `{Outside} `{JournalCodec} `{Archive}.
Context (cfg : Config).
Local Open Scope go_scope.

Abbreviation bin := (TelemtBin cfg).
Abbreviation config := (TelemtConfigPath cfg).
Abbreviation journal := (updateJournalPath cfg).
Abbreviation kg := (known_good cfg).
Abbreviation kg_config := (known_good_config cfg).

(** The configured files are seven different files with ordinary names. *)
Definition key_paths : list string :=
  [bin; config; prev_of bin; prev_of config; journal; kg; kg_config].

Record paths_ok : Prop := {
  distinct : NoDup key_paths;
  ordinary : Forall (fun p => no_slash (Path.Base p) /\ ~ is_hidden p) key_paths;
  config_set : config <> EmptyString
}.

Definition saved : paths := fun p => is_temp p \/ p ∈ [journal; kg; kg_config].
Definition swapped : paths := fun p => is_hidden p \/ p ∈ [bin; config; prev_of bin; prev_of config].
Definition closing : paths := fun p => is_temp p \/ p = journal.

Lemma in_key_bin : bin ∈ key_paths. Proof. unfold key_paths. set_solver. Qed.
Lemma in_key_config : config ∈ key_paths. Proof. unfold key_paths. set_solver. Qed.
Lemma in_key_journal : journal ∈ key_paths. Proof. unfold key_paths. set_solver. Qed.
Lemma in_key_prev_bin : prev_of bin ∈ key_paths. Proof. unfold key_paths. set_solver. Qed.
Lemma in_key_prev_config : prev_of config ∈ key_paths. Proof. unfold key_paths. set_solver. Qed.
Lemma in_key_kg : kg ∈ key_paths. Proof. unfold key_paths. set_solver. Qed.
Lemma in_key_kg_config : kg_config ∈ key_paths. Proof. unfold key_paths. set_solver. Qed.

Hypothesis HP : paths_ok.

Lemma key_ordinary p : p ∈ key_paths -> no_slash (Path.Base p) /\ ~ is_hidden p.
Proof. intros Hp. pose proof (ordinary HP) as Ho. rewrite Forall_forall in Ho. auto. Qed.

Lemma key_not_temp p : p ∈ key_paths -> no_slash (Path.Base p) /\ ~ is_temp p.
Proof. intros Hp. destruct (key_ordinary p Hp) as [? Hh]. split; [done|]. by intros []. Qed.


(** The keys of the one group are not in the other. *)
Lemma bin_not_saved : ~ saved bin /\ ~ saved config.
Proof.
  pose proof (distinct HP) as Hd. unfold key_paths in Hd. rewrite !NoDup_cons in Hd.
  split; (intros [Hh|Hin]; [revert Hh; apply key_not_temp; apply in_key_bin || apply in_key_config|set_solver]).
Qed.

Lemma journal_not_swapped : ~ swapped journal /\ ~ swapped kg /\ ~ swapped kg_config.
Proof.
  pose proof (distinct HP) as Hd. unfold key_paths in Hd. rewrite !NoDup_cons in Hd.
  split_and!; (intros [Hh|Hin];
    [revert Hh; apply key_ordinary; apply in_key_journal || apply in_key_kg || apply in_key_kg_config|set_solver]).
Qed.

Lemma not_closing : ~ closing bin /\ ~ closing config /\ ~ closing kg /\ ~ closing kg_config.
Proof.
  pose proof (distinct HP) as Hd. unfold key_paths in Hd. rewrite !NoDup_cons in Hd.
  split_and!; (intros [Hh|Hin];
    [revert Hh; apply key_not_temp; first [apply in_key_bin|apply in_key_config|apply in_key_kg|apply in_key_kg_config]
    |set_solver]).
Qed.

(** ** Footprints *)

Lemma touches_fail_step A S E key suffix e : touches S E (fail_step (A:=A) key suffix e).
Proof. unfold fail_step. touches. Qed.
#[local] Hint Resolve touches_fail_step : touches.

Lemma touches_updatePreflight S ctx req : touches S harmless (updatePreflight ctx req).
Proof. unfold updatePreflight. cbv zeta. touches. Qed.

(** The staged binary. *)
Definition staged_path : string := Path.Join (Path.Dir bin) ".telemt.new".

Lemma staged_not_saved : ~ saved staged_path.
Proof.
  assert (Hd : ~ exists d, 0 <= d < 10 /\ "w"%char = Dec.digit d).
  { intros (d & Hd & E). revert E. apply (digit_cases (fun d => "w"%char <> Dec.digit d)); [done|]. by repeat constructor. }
  intros [[_ He]|Hin].
  - revert He. unfold staged_path, Path.Join. change ".telemt.new" with (".telemt.ne" +:+ "w").
    destruct (Str.has_suffix _ "/").
    + rewrite <- Str.append_assoc. by apply not_ends_in_digit.
    + rewrite <- !Str.append_assoc. by apply not_ends_in_digit.
  - assert (Hh : is_hidden staged_path) by by apply hidden_join.
    revert Hh. apply key_ordinary. unfold key_paths. set_solver.
Qed.

Lemma staged_hidden : is_hidden (Path.Join (Path.Dir bin) ".telemt.new").
Proof. by apply hidden_join. Qed.

Lemma touches_stageTelemtBinary req : touches is_hidden harmless (stageTelemtBinary cfg req).
Proof.
  unfold stageTelemtBinary. cbv zeta. pose proof staged_hidden. pose proof system_harmless.
  eapply touches_try_yields.
  - apply touches_downloadArtifact; [done|done| |done]. by intros p [].
  - intros w name w' Hd. assert (Hn : no_slash "telemt-download-") by done.
    exact (proj1 (downloadArtifact_ok _ _ _ _ _ _ Hn Hd)).
  - intros tgz [Htgz _]. cbn beta in Htgz. touches. by apply touches_extractTelemtBinary.
Qed.

Lemma touches_checkUpdateJournal S E : system_ok E -> touches S E (checkUpdateJournal cfg).
Proof. intros. unfold checkUpdateJournal. touches. Qed.

Lemma touches_writeUpdateJournal (S : paths) E j :
  system_ok E -> (forall p, closing p -> S p) -> touches S E (writeUpdateJournal cfg j).
Proof.
  intros HE HS. unfold writeUpdateJournal. destruct (marshal j); [|touches].
  destruct (key_not_temp _ in_key_journal). by apply touches_writeAtomic.
Qed.

Lemma touches_prepareUpdateJournal ctx plan target :
  touches saved harmless (prepareUpdateJournal cfg ctx plan target).
Proof.
  pose proof (key_not_temp _ in_key_kg) as [Hk1 Hk2]. pose proof (key_not_temp _ in_key_kg_config) as [Hc1 Hc2].
  pose proof system_harmless as HE. pose proof touches_checkUpdateJournal. unfold prepareUpdateJournal, original_admission.
  assert (touches saved harmless (saveVerifiedCopy bin kg 448)).
  { apply touches_saveVerifiedCopy; [done..|]. unfold saved. intros p [?| ->]; [by left|right; set_solver]. }
  assert (touches saved harmless (saveVerifiedCopy config kg_config 384)).
  { apply touches_saveVerifiedCopy; [done..|]. unfold saved. intros p [?| ->]; [by left|right; set_solver]. }
  assert (forall j, touches saved harmless (writeUpdateJournal cfg j)).
  { intros j. apply touches_writeUpdateJournal; [done|]. unfold saved. intros p [?| ->]; [by left|right; set_solver]. }
  touches.
Qed.

Lemma touches_updatePause S ctx plan : touches S anything (updatePause ctx plan).
Proof. unfold updatePause. touches. Qed.

Lemma touches_drain_once S ctx : touches S anything (drain_once ctx).
Proof. unfold drain_once, drain_fail. cbv zeta. touches. Qed.

Lemma touches_updateDrain S ctx n : touches S anything (updateDrain cfg ctx n).
Proof.
  unfold updateDrain, drain_fail. touches. cbv zeta.
  apply touches_poll; [apply system_anything|apply touches_drain_once|]. intros. unfold drain_fail. touches.
Qed.

Lemma touches_updateResume S ctx plan paused : touches S anything (updateResume ctx plan paused).
Proof. unfold updateResume. cbv zeta. touches. Qed.

Lemma touches_updateRestartAndVerify S ctx plan want : touches S anything (updateRestartAndVerify cfg ctx plan want).
Proof. unfold updateRestartAndVerify, verify_web. touches. Qed.

Lemma touches_swapTelemtBinary staged : is_hidden staged -> touches swapped anything (swapTelemtBinary cfg staged).
Proof.
  intros Hs. unfold swapTelemtBinary. cbv zeta. pose proof system_anything.
  assert (forall p, p ∈ [bin; config; prev_of bin; prev_of config] -> swapped p) as Hin by (by right).
  assert (swapped staged) by (by left). assert (swapped bin) by (apply Hin; set_solver).
  eapply touches_try_yields with (P := fun prev => prev = EmptyString \/ prev = prev_of bin).
  - apply touches_backupFile; [done|]. apply Hin. set_solver.
  - intros w prev w' [(_ & -> & _)|(? & ? & _ & -> & _)]%backupFile_ok; [by left|by right].
  - intros prev Hprev. apply touches_try.
    { destruct (String.eqb config EmptyString); touches. apply touches_backupFile; [done|]. apply Hin. set_solver. }
    intros cfgPrev. touches. apply touches_restoreFile; [done| |done].
    intros Hne. destruct Hprev as [->| ->]; [done|]. apply Hin. set_solver.
Qed.

(** The files a rollback knows of are those the swap kept. *)
Definition kept_ok (k : keptFiles) : Prop :=
  k_bin k = bin /\ k_config k = config /\
  (k_binPrev k = EmptyString \/ k_binPrev k = prev_of bin) /\
  (k_configPrev k = EmptyString \/ k_configPrev k = prev_of config).

Lemma kept_swapped k : kept_ok k ->
  swapped (k_bin k) /\ swapped (k_config k) /\
  (k_binPrev k <> EmptyString -> swapped (k_binPrev k)) /\ (k_configPrev k <> EmptyString -> swapped (k_configPrev k)).
Proof.
  intros (-> & -> & Hb & Hc). unfold swapped. split_and!; [right; set_solver..| |].
  - intros Hn. destruct Hb as [E|E]; [done|rewrite E; right; set_solver].
  - intros Hn. destruct Hc as [E|E]; [done|rewrite E; right; set_solver].
Qed.

Lemma touches_discard k : kept_ok k -> touches swapped anything (discard k).
Proof.
  intros (Hb & Hc & Hbp & Hcp)%kept_swapped. unfold discard. pose proof system_anything.
  apply touches_bind; [|intros _];
    [destruct (String.eqb_spec (k_binPrev k) EmptyString)|destruct (String.eqb_spec (k_configPrev k) EmptyString)];
    touches.
Qed.

Lemma touches_rollback_files ctx plan k : kept_ok k -> touches swapped anything (rollback_files cfg ctx plan k).
Proof.
  intros (Hb & Hc & Hbp & Hcp)%kept_swapped. unfold rollback_files. pose proof system_anything.
  pose proof touches_restoreFile. touches.
Qed.

Lemma touches_rollbackTelemt plan k cause : kept_ok k -> touches swapped anything (rollbackTelemt cfg plan k cause).
Proof.
  intros Hk. unfold rollbackTelemt. pose proof touches_updateResume. pose proof touches_rollback_files. touches.
Qed.

Lemma touches_abort_before_swap S plan paused e : touches S anything (abort_before_swap plan paused e).
Proof. unfold abort_before_swap. pose proof touches_updateResume. touches. Qed.

(** *** The swap *)

Lemma swapTelemtBinary_yields staged : yields kept_ok (swapTelemtBinary cfg staged).
Proof.
  intros w k w' Hr. unfold swapTelemtBinary in Hr. cbv zeta in Hr. inv_ok.
  apply bind_inv in Hr as (c & w3 & Hc & Hr).
  assert (Hp : a = EmptyString \/ a = prev_of bin).
  { apply backupFile_ok in Hm as [(_ & -> & _)|(? & ? & _ & -> & _)]; [by left|by right]. }
  assert (Hcp : a0 = EmptyString \/ a0 = prev_of config).
  { destruct (String.eqb config EmptyString); inv_ok; [by left|].
    apply backupFile_ok in Hm0 as [(_ & -> & _)|(? & ? & _ & -> & _)]; [by left|by right]. }
  destruct c as [[]|e]; [inv_ok; by split_and!|]. apply bind_inv in Hr as (? & ? & _ & Hr). inv_ok.
Qed.

Lemma touches_maintenance_sequence ctx req plan staged :
  is_hidden staged -> touches swapped anything (maintenance_sequence cfg ctx req plan staged).
Proof.
  intros Hs. unfold maintenance_sequence. pose proof touches_updatePause. pose proof touches_updateDrain.
  pose proof touches_abort_before_swap. pose proof touches_updateRestartAndVerify. pose proof touches_updateResume.
  pose proof touches_rollbackTelemt. pose proof touches_discard.
  apply touches_bind; [done|]. intros [u|e]; [|touches]. cbv zeta. apply touches_bind; [touches|].
  intros [u'|e]; [|touches]. apply touches_bind; [touches|]. intros _.
  eapply touches_bind_yields; [by apply touches_swapTelemtBinary|apply swapTelemtBinary_yields| |touches].
  intros k Hk. touches.
Qed.

(** ** Results *)

Definition content (f : files) (p : string) : option string := fdata <$> f !! p.

(** Binary and config have the content they had. *)
Definition same_content (f g : files) : Prop :=
  content g bin = content f bin /\ content g config = content f config.

(** A run that touched nothing left the files. *)
Lemma nothing_fs A E (m : M A) w a w' : touches nothing E m -> m w = (a, w') -> fs w' = fs w.
Proof.
  intros Hm Hw. pose proof (touches_fs _ _ _ _ _ _ _ Hm Hw) as Hf. apply map_eq. intros p. symmetry. apply Hf. intros [].
Qed.

(** [prev] keeps what [p] held in [f]. *)
Definition keeps (f g : files) (p prev : string) : Prop :=
  (prev = EmptyString /\ content f p = None) \/
  (prev = prev_of p /\ content f p <> None /\ content g prev = content f p).

Lemma keeps_mono f g h p prev : keeps f g p prev -> h !! prev_of p = g !! prev_of p -> keeps f h p prev.
Proof. intros [?|(-> & ? & Hk)] Hh; [by left|right]. split; [done|]. split; [done|]. unfold content in *. by rewrite Hh. Qed.

Lemma backupFile_keeps p mode w prev w' : backupFile p mode w = (Ok prev, w') ->
  keeps (fs w) (fs w') p prev /\ same_off (eq (prev_of p)) (fs w) (fs w').
Proof.
  intros [(Hn & -> & ->)|(x & y & Hx & -> & Hy & Hd & _ & Hoff)]%backupFile_ok.
  - split; [left; unfold content; by rewrite Hn|done].
  - split; [right|done]. unfold content. rewrite Hx, Hy. cbn. by rewrite Hd.
Qed.

Lemma restoreFile_content f prev p mode w u w' : keeps f (fs w) p prev -> restoreFile prev p mode w = (Ok u, w') ->
  content (fs w') p = content f p.
Proof.
  intros Hk [(-> & Hn)|(Hne & y & Hy & Hp)]%restoreFile_ok; unfold keeps, content in *.
  - destruct Hk as [[_ ->]|(Hp & _)]; [by rewrite Hn|]. by destruct p.
  - destruct Hk as [[-> _]|(-> & _ & <-)]; [done|]. by rewrite Hp, Hy.
Qed.

(** The key paths are different files. *)
Lemma key_ne :
  bin <> config /\ bin <> prev_of bin /\ bin <> prev_of config /\ config <> prev_of bin /\
  config <> prev_of config /\ prev_of bin <> prev_of config.
Proof.
  pose proof (distinct HP) as Hd. unfold key_paths in Hd. rewrite !NoDup_cons in Hd. set_solver.
Qed.

Lemma hidden_ne p q : is_hidden p -> q ∈ key_paths -> p <> q.
Proof. intros Hp Hq ->. by apply (key_ordinary _ Hq). Qed.

(** After a swap: the staged file is the binary, nothing else served changed,
    and what was there is kept. *)
Lemma swapTelemtBinary_ok staged w k w' :
  is_hidden staged -> swapTelemtBinary cfg staged w = (Ok k, w') ->
  content (fs w') bin = content (fs w) staged /\ content (fs w') bin <> None /\
  fs w' !! config = fs w !! config /\
  keeps (fs w) (fs w') bin (k_binPrev k) /\ keeps (fs w) (fs w') config (k_configPrev k).
Proof.
  intros Hs Hr. unfold swapTelemtBinary in Hr. cbv zeta in Hr. inv_ok.
  apply bind_inv in Hr as (c & w3 & Hc & Hr).
  destruct c as [[]|e]; [|apply bind_inv in Hr as (? & ? & _ & Hr); inv_ok]. inv_ok. cbn [k_binPrev k_configPrev].
  destruct (String.eqb_spec config EmptyString) as [E|_]; [by destruct (config_set HP)|]. inv_ok.
  apply backupFile_keeps in Hm as [Hk Ho]. apply backupFile_keeps in Hm0 as [Hkc Hoc].
  apply on_file_ok in Hm1 as (x & Hx & Hf2). apply on_file_ok in Hc as (y & Hy & Hf3).
  rewrite Hf2, lookup_insert_eq in Hy. injection Hy as <-.
  destruct key_ne as (N1 & N2 & N3 & N4 & N5 & N6).
  assert (Hst : forall p, p ∈ key_paths -> staged <> p) by (intros p; by apply hidden_ne).
  pose proof (Hst _ in_key_config). pose proof (Hst _ in_key_prev_bin). pose proof (Hst _ in_key_prev_config).
  assert (Hkeep : forall p, bin <> p -> staged <> p -> fs w' !! p = fs w1 !! p).
  { intros p ? ?. by rewrite Hf3, lookup_insert_ne, Hf2, lookup_insert_ne, lookup_delete_ne. }
  assert (Ho' : forall p, prev_of bin <> p -> fs w0 !! p = fs w !! p) by (intros p ?; symmetry; by apply Ho).
  assert (Hoc' : forall p, prev_of config <> p -> fs w1 !! p = fs w0 !! p) by (intros p ?; symmetry; by apply Hoc).
  split_and!.
  - unfold content. by rewrite Hf3, lookup_insert_eq, <- Ho', <- Hoc', Hx by congruence.
  - unfold content. by rewrite Hf3, lookup_insert_eq.
  - by rewrite Hkeep, Hoc', Ho' by congruence.
  - eapply keeps_mono; [exact Hk|]. by rewrite Hkeep, Hoc' by congruence.
  - assert (Hck : content (fs w0) config = content (fs w) config).
    { unfold content. by rewrite Ho' by congruence. }
    apply (keeps_mono _ (fs w1)); [|by rewrite Hkeep by congruence].
    unfold keeps in *. by rewrite Hck in Hkc.
Qed.

(** Taking back a swap restores the content or leaves the new one. *)
Lemma restoreFile_err f prev p mode w e w' : keeps f (fs w) p prev -> restoreFile prev p mode w = (Err e, w') ->
  content (fs w') p = content f p \/ content (fs w') p = content (fs w) p.
Proof.
  intros Hk. unfold restoreFile. destruct (String.eqb_spec prev EmptyString) as [->|Hne].
  { intros [(x & _ & [=] & _)|(e' & _ & ->)]%on_file_inv. by right. }
  intros [(e' & [Hf _]%stat_inv & _)|(y & w1 & Hst & Hr)]%try_inv; [right; by rewrite Hf|].
  apply stat_inv in Hst as [Hf [[= ->]|[? [=]]]]. rewrite <- Hf in *.
  destruct (fs w1 !! prev) as [y|] eqn:Hy; [|apply ret_inv in Hr as [_ <-]; by right].
  apply try_inv in Hr as [(e' & [(x & _ & [=] & _)|(? & _ & ->)]%on_file_inv & _)|(u & w2 & Hren & Hc)]; [by right|].
  apply on_file_ok in Hren as (y' & Hy' & Hf2). rewrite Hy in Hy'. injection Hy' as <-.
  apply on_file_inv in Hc as [(x & _ & [=] & _)|(? & _ & Hf3)]. left.
  destruct Hk as [[-> _]|(-> & _ & Hk)]; [done|]. rewrite <- Hk. unfold content.
  by rewrite Hf3, Hf2, lookup_insert_eq, Hy.
Qed.

(** A swap that failed left the content, or put the staged file there and could
    not take it back. *)
Lemma swapTelemtBinary_err staged w e w' :
  is_hidden staged -> swapTelemtBinary cfg staged w = (Err e, w') ->
  content (fs w') config = content (fs w) config /\
  (content (fs w') bin = content (fs w) bin \/ content (fs w') bin = content (fs w) staged).
Proof.
  intros Hs Hr. unfold swapTelemtBinary in Hr. cbv zeta in Hr. destruct key_ne as (N1 & N2 & N3 & N4 & N5 & N6).
  assert (Hst : forall p, p ∈ key_paths -> staged <> p) by (intros p; by apply hidden_ne).
  pose proof (Hst _ in_key_config). pose proof (Hst _ in_key_bin).
  pose proof (Hst _ in_key_prev_bin). pose proof (Hst _ in_key_prev_config).
  assert (Hback : forall p mode w r w' q, backupFile p mode w = (r, w') -> prev_of p <> q -> fs w' !! q = fs w !! q).
  { intros p mode v r v' q Hb Hq. symmetry.
    by apply (touches_fs _ _ _ _ _ _ _ (touches_backupFile anything system_anything (eq (prev_of p)) p mode eq_refl) Hb). }
  apply try_inv in Hr as [(? & Hb & _)|(prev & w0 & Hb & Hr)].
  { unfold content. rewrite !(Hback _ _ _ _ _ _ Hb) by congruence. auto. }
  destruct (String.eqb_spec config EmptyString) as [E|_]; [by destruct (config_set HP)|].
  apply try_inv in Hr as [(? & Hw & _)|(cprev & w1 & Hw & Hr)]; apply wrapped_inv in Hw as (rc & Hc & Hrc).
  { unfold content. rewrite !(Hback _ _ _ _ _ _ Hc), !(Hback _ _ _ _ _ _ Hb) by congruence. auto. }
  assert (Hw1 : forall q, prev_of bin <> q -> prev_of config <> q -> fs w1 !! q = fs w !! q).
  { intros q ? ?. by rewrite (Hback _ _ _ _ _ _ Hc), (Hback _ _ _ _ _ _ Hb). }
  apply backupFile_keeps in Hb as [Hk _].
  apply (keeps_mono _ _ (fs w1)) in Hk; [|by rewrite (Hback _ _ _ _ _ _ Hc)].
  apply try_inv in Hr as [(? & Hren & _)|(u & w2 & Hren & Hr)]; apply wrapped_inv in Hren as (rr & Hren & Hrr).
  { apply on_file_inv in Hren as [(y & _ & -> & _)|(e2 & _ & Hf2)];
      [by specialize (proj2 (Hrr tt) eq_refl)|]. unfold content. rewrite Hf2, !Hw1 by congruence. auto. }
  rewrite (proj1 (Hrr u) eq_refl) in Hren. apply on_file_ok in Hren as (x & Hx & Hf2).
  apply bind_inv in Hr as (c & w3 & Hch & Hr).
  apply on_file_inv in Hch as [(y & _ & -> & _)|(e3 & -> & Hf3)]; [by apply ret_inv in Hr as [[=] _]|].
  apply bind_inv in Hr as (r & w4 & Hres & [_ <-]%ret_inv).
  assert (Hcfg : content (fs w3) config = content (fs w) config).
  { unfold content. by rewrite Hf3, Hf2, lookup_insert_ne, lookup_delete_ne, Hw1 by congruence. }
  assert (Hbin : content (fs w3) bin = content (fs w) staged).
  { unfold content. by rewrite Hf3, Hf2, lookup_insert_eq, <- Hw1, Hx by congruence. }
  apply (keeps_mono _ _ (fs w3)) in Hk; [|by rewrite Hf3, Hf2, lookup_insert_ne, lookup_delete_ne by congruence].
  split.
  - rewrite <- Hcfg. unfold content. f_equal. symmetry.
    apply (touches_fs _ _ _ _ _ _ _ (touches_restoreFile anything system_anything
      (fun p => p = prev_of bin \/ p = bin) prev bin 493
      (fun Hne => match Hk with or_introl H => False_ind _ (Hne (proj1 H)) | or_intror H => or_introl (proj1 H) end)
      (or_intror eq_refl)) Hres). intros [?|?]; congruence.
  - destruct r as [[]|e4]; [left; by eapply restoreFile_content|].
    rewrite <- Hbin. by eapply restoreFile_err.
Qed.

(** *** What telemt confirmed *)

Lemma fail_step_err A key suffix e w (a : A) w' : fail_step key suffix e w <> (Ok a, w').
Proof. by intros (? & ? & _ & [=])%bind_inv. Qed.

(** Telemt reported the version [want]. *)
Definition runs_version (want : string) (w w' : world) : Prop :=
  asked GetSystemInfo (fun i => sameVersion (TelemtTypes.Version i) want = true) w w'.

(** Telemt reported its WEB admission as [b]. *)
Definition admission_is (b : bool) (w w' : world) : Prop :=
  asked GetWebStatus (fun st => exists lc, OperatorLifecycle st = Some lc /\ AdmissionOpen lc = b) w w'.

(** Telemt reported a drain that left nothing. *)
Definition drained (w w' : world) : Prop :=
  asked GetWebStatus (fun st => exists lc d, OperatorLifecycle st = Some lc /\ Drain lc = Some d /\
    RemainingSessions d = 0 /\ RemainingStreams d = 0 /\ RemainingWebsockets d = 0 /\
    (lifecycle_State lc = WebLifecycleDrained \/ drain_State d = "completed"%string)) w w'.

Lemma asked_weaken A (c : call A) (P Q : A -> Prop) w w' :
  (forall a, P a -> Q a) -> asked c P w w' -> asked c Q w w'.
Proof. intros HPQ (l & a & ? & ? & ?). exists l, a. auto. Qed.

Lemma asked_later A (c : call A) P w w1 w' : asked c P w w1 -> later w1 w' -> asked c P w w'.
Proof. intros Ha Hl. eapply asked_mono; [apply later_refl|exact Ha|exact Hl]. Qed.

Lemma later_asked A (c : call A) P w w1 w' : later w w1 -> asked c P w1 w' -> asked c P w w'.
Proof. intros Hl Ha. eapply asked_mono; [exact Hl|exact Ha|apply later_refl]. Qed.

Lemma quiet_later A (m : M A) w a w' : touches swapped anything m -> m w = (a, w') -> later w w'.
Proof. by apply touches_later. Qed.

Lemma verifyTelemtVersion_ok ctx want w u w' : verifyTelemtVersion ctx want w = (Ok u, w') -> runs_version want w w'.
Proof.
  intros ([i|e] & w1 & Hi & Hk)%bind_inv; [|by apply ret_inv in Hk as [[=] _]]. apply system_info_asked in Hi.
  destruct (sameVersion (TelemtTypes.Version i) want) eqn:Hv; cbn [negb] in Hk; [|by apply ret_inv in Hk as [[=] _]].
  apply ret_inv in Hk as [_ <-]. eapply asked_weaken; [|exact Hi]. by intros ? <-.
Qed.

(** A restart and verification that passed: telemt reported the version. *)
Lemma updateRestartAndVerify_ok ctx plan want w u w' :
  updateRestartAndVerify cfg ctx plan want w = (Ok u, w') -> runs_version want w w'.
Proof.
  intros ([] & w1 & Hb & Hk)%bind_inv. apply bind_inv in Hk as ([r|e] & w2 & Hr & Hk); [|by apply fail_step_err in Hk].
  apply bind_inv in Hk as ([] & w3 & Hf & Hk). apply bind_inv in Hk as ([] & w4 & Hb' & Hk).
  apply bind_inv in Hk as ([v|e] & w5 & Hv & Hk); [|by apply fail_step_err in Hk].
  apply verifyTelemtVersion_ok in Hv. apply try_ok in Hk as (x & w6 & Hweb & Hk).
  apply (asked_mono _ _ _ _ w4 w5); [|exact Hv|].
  - eapply later_trans; [later_by Hb|].
    eapply later_trans; [later_by Hr|].
    eapply later_trans; [later_by Hf|later_by Hb'].
  - eapply later_trans; [unfold verify_web in Hweb; later_by Hweb|later_by Hk].
Qed.

(** A resume that passed: telemt reported admission as the plan wants it. *)
Lemma updateResume_ok ctx plan paused w u w' :
  preserveClosed plan || paused = true ->
  updateResume ctx plan paused w = (Ok u, w') -> admission_is (negb (preserveClosed plan)) w w'.
Proof.
  unfold updateResume. destruct (preserveClosed plan); cbn [orb negb].
  - intros _ Hr. apply try_ok in Hr as (x & w1 & Hp & Hr). apply try_ok in Hr as (st & w2 & Hs & Hr).
    apply get_status_asked in Hs. destruct (OperatorLifecycle st) as [lc|] eqn:El; [|by apply ret_inv in Hr as [[=] _]].
    destruct (AdmissionOpen lc) eqn:Ea; [by apply ret_inv in Hr as [[=] _]|].
    eapply (asked_mono _ _ _ _ w1 w2).
    + later_by Hp.
    + eapply asked_weaken; [|exact Hs]. intros s ->. eauto.
    + later_by Hr.
  - intros ->. cbn [negb]. intros (x & w1 & Hb & Hr)%bind_inv. apply bind_inv in Hr as (rs & w2 & Hres & Hr).
    apply bind_inv in Hr as (st & w3 & Hs & Hr). cbv zeta in Hr.
    destruct st as [st|e].
    2: { destruct (failure rs); [by apply fail_step_err in Hr|].
         apply bind_inv in Hr as (? & ? & _ & Hr). by apply ret_inv in Hr as [[=] _]. }
    apply get_status_asked in Hs. destruct (OperatorLifecycle st) as [lc|] eqn:El; [|by apply fail_step_err in Hr].
    destruct (AdmissionOpen lc) eqn:Ea; [|by apply fail_step_err in Hr].
    eapply (asked_mono _ _ _ _ w2 w3).
    + eapply later_trans; [later_by Hb|later_by Hres].
    + eapply asked_weaken; [|exact Hs]. intros s ->. eauto.
    + later_by Hr.
Qed.

Lemma drain_fail_err e w a w' : drain_fail e w <> (Ok a, w').
Proof. apply fail_step_err. Qed.

(** One look that says the drain is over saw nothing left. *)
Lemma drain_once_ok ctx w u w' : drain_once ctx w = (Some (Ok u), w') -> drained w w'.
Proof.
  assert (Hno : forall e w0, (r ← drain_fail e; mret (Some r)) w0 <> (Some (Ok u), w')).
  { intros e w0 (r & w1 & Hd & [[= ->] _]%ret_inv)%bind_inv. by apply drain_fail_err in Hd. }
  intros ([st|e] & w1 & Hs & Hk)%bind_inv; [|by apply Hno in Hk]. apply get_status_asked in Hs.
  destruct (OperatorLifecycle st) as [lc|] eqn:El; [|by apply Hno in Hk].
  destruct (Drain lc) as [d|] eqn:Ed; [|by apply Hno in Hk]. cbv zeta in Hk.
  apply bind_inv in Hk as (x & w2 & Hp & Hk).
  destruct (String.eqb (drain_State d) "cancelled"); [by apply Hno in Hk|].
  destruct (_ || _) eqn:Ecomp in Hk; [|by apply ret_inv in Hk as [[=] _]].
  destruct (_ || _) eqn:Eleft in Hk; [by apply Hno in Hk|].
  eapply (asked_later _ _ _ _ w1).
  - eapply asked_weaken; [|exact Hs]. intros s ->. exists lc, d. bprop. split_and!; [done..|].
    destruct Ecomp; bprop; auto.
  - eapply later_trans; [later_by Hp|later_by Hk].
Qed.

(** A polling loop that gave [a] had it from an attempt of its body. *)
Lemma poll_result A fuel ctx d (body : M (option A)) (ended : error -> M A) w a w' :
  touches nothing anything body -> (forall e, touches nothing anything (ended e)) ->
  (forall e w0, ended e w0 <> (a, w')) -> poll fuel ctx d body ended w = (a, w') ->
  exists w1 w2, later w w1 /\ body w1 = (Some a, w2) /\ w2 = w'.
Proof.
  intros Hb He Hne. revert w. induction fuel as [|fuel IH]; intros w Hr; cbn [poll] in Hr; [by apply Hne in Hr|].
  apply bind_inv in Hr as ([x|] & w1 & Hx & Hr).
  - apply ret_inv in Hr as [-> <-]. exists w, w1. split; [apply later_refl|done].
  - apply bind_inv in Hr as ([e|] & w2 & Hwait & Hr); [by apply Hne in Hr|].
    destruct (IH _ Hr) as (w3 & w4 & Hl & ? & ?). exists w3, w4. split; [|done].
    eapply later_trans; [eapply touches_later; [exact Hb|exact Hx]|].
    eapply later_trans; [|exact Hl]. later_by Hwait.
Qed.

Lemma updateDrain_ok ctx n w u w' : updateDrain cfg ctx n w = (Ok u, w') -> drained w w'.
Proof.
  intros (x & w1 & Hb & Hr)%bind_inv. apply bind_inv in Hr as ([y|e] & w2 & Hd & Hr); [|by apply drain_fail_err in Hr].
  apply bind_inv in Hr as (t & w3 & [_ <-]%clock_inv & Hr). cbv zeta in Hr.
  apply poll_result in Hr as (w4 & w5 & Hl & Hbody & ->).
  - eapply (later_asked _ _ _ _ w4); [|by eapply drain_once_ok].
    eapply later_trans; [later_by Hb|].
    eapply later_trans; [later_by Hd|done].
  - apply touches_drain_once.
  - intros. unfold drain_fail. touches.
  - intros. apply drain_fail_err.
Qed.

(** A rollback of the files that passed: the kept content is back and telemt
    reported the previous version. *)
Lemma rollback_files_ok f ctx plan k w u w' :
  kept_ok k -> rollback_files cfg ctx plan k w = (Ok u, w') ->
  keeps f (fs w) bin (k_binPrev k) -> keeps f (fs w) config (k_configPrev k) ->
  content (fs w) config = content f config ->
  same_content f (fs w') /\ (installed plan <> EmptyString -> runs_version (installed plan) w w').
Proof.
  intros (Hkb & Hkc & Hp & Hpc) Hr Hb Hc Hcfg. destruct key_ne as (N1 & N2 & N3 & N4 & N5 & N6).
  unfold rollback_files in Hr. rewrite Hkb, Hkc in Hr. inv_ok.
  assert (Hoff : forall p q mode w r w' x, restoreFile q p mode w = (r, w') -> q = EmptyString \/ q = prev_of p ->
            x <> p -> x <> prev_of p -> fs w' !! x = fs w !! x).
  { intros p q mode v r v' x Hres Hq Hx1 Hx2. symmetry.
    refine (touches_fs _ _ _ _ _ _ _ (touches_restoreFile anything system_anything
      (fun x => x = prev_of p \/ x = p) q p mode _ _) Hres x _); [|by right|tauto].
    intros Hn. destruct Hq as [?|?]; [done|by left]. }
  assert (Hmid : content (fs w1) config = content f config /\ content (fs w1) bin = content (fs w0) bin).
  { destruct (String.eqb_spec (k_configPrev k) EmptyString) as [E|E]; inv_ok.
    - split; [|done]. unfold content in *. by rewrite (Hoff _ _ _ _ _ _ _ Hm Hp) by congruence.
    - split.
      + eapply restoreFile_content; [|exact Hm0]. eapply keeps_mono; [exact Hc|].
        by rewrite (Hoff _ _ _ _ _ _ _ Hm Hp) by congruence.
      + unfold content. by rewrite (Hoff _ _ _ _ _ _ _ Hm0 Hpc) by congruence. }
  destruct Hmid as [Hmc Hmb]. pose proof (restoreFile_content _ _ _ _ _ _ _ Hb Hm) as Hb0.
  assert (Hf2 : fs w2 = fs w1) by (eapply (nothing_fs _ anything); [|exact Hm1]; touches).
  assert (Hl2 : later w w2).
  { eapply later_trans; [eapply (touches_later swapped anything); [|exact Hm]|].
    - apply touches_restoreFile; [apply system_anything| |]; [|right; set_solver].
      intros Hn. destruct Hp as [Ep|Ep]; [done|rewrite Ep; right; set_solver].
    - eapply later_trans; [|later_by Hm1].
      destruct (String.eqb (k_configPrev k) EmptyString); inv_ok; [apply later_refl|].
      eapply (touches_later swapped anything); [|exact Hm0]. apply touches_restoreFile; [apply system_anything| |];
        [|right; set_solver]. intros Hn. destruct Hpc as [Ep|Ep]; [done|rewrite Ep; right; set_solver]. }
  destruct (String.eqb_spec (installed plan) EmptyString) as [E|E].
  - apply ret_inv in Hr as [_ <-]. unfold same_content, content in *. rewrite Hf2. split; [|done].
    split; congruence.
  - assert (Hf3 : fs w' = fs w2) by (eapply (nothing_fs _ anything); [|exact Hr]; touches).
    apply verifyTelemtVersion_ok in Hr. split; [|intros _; by eapply later_asked].
    unfold same_content, content in *. rewrite Hf3, Hf2. split; congruence.
Qed.

End Specs.
