(* ===== verification/UpdateSafety.v ===== *)
(** * What an update promises

    The properties of whole runs of the maintenance sequence of
    internal/agent/telemtupdate.go and of the recovery of
    internal/agent/updatejournal.go, for every behaviour of the outside:
    telemt, the panel's artifact, the clock and a disk that may fail at any
    system call. *)

From S2P Require Import Prelude Crypto TelemtTypes Capabilities Node NodeLogic AgentFiles TelemtClient Upgrade UpdateState UpdateJournal TelemtUpdate UpdateSpecs.

Section Safety.
Context `{Outside} `{JournalCodec} `{Archive}.
Context (cfg : Config).
Local Open Scope go_scope.

Abbreviation bin := (TelemtBin cfg).
Abbreviation config := (TelemtConfigPath cfg).
Abbreviation journal := (updateJournalPath cfg).
Abbreviation kg := (known_good cfg).
Abbreviation kg_config := (known_good_config cfg).

Hypothesis HP : paths_ok cfg.

#[local] Hint Resolve touches_updateResume touches_updatePause touches_updateDrain
  touches_updateRestartAndVerify touches_abort_before_swap : touches.

(** The update the handler tracks, if any, ended with this outcome. *)
Definition ended_as (o : string) (w : world) : Prop := forall u, upd w = Some u -> Outcome u = o.

Lemma end_inv o e w u w' : end_ o e w = (u, w') -> ended_as o w' /\ fs w' = fs w /\ later w w'.
Proof.
  intros (t & w1 & [-> <-]%clock_inv & Hk)%bind_inv. apply bind_inv in Hk as (v & w2 & [= <- <-] & [= <- <-]).
  split_and!; [|done|by exists []]. intros x. cbn. destruct (upd w); [|done]. by intros [= <-].
Qed.

(** The new binary is in place and telemt reported it. *)
Definition installed_new (req : UpdateTelemtRequest) (staged : string) (w w' : world) : Prop :=
  content (fs w') bin = content (fs w) staged /\ content (fs w') bin <> None /\
  content (fs w') config = content (fs w) config /\ runs_version (req_Version req) w w'.

(** What each outcome of the maintenance sequence says of the node. *)
Inductive promise (plan : updatePlan) (req : UpdateTelemtRequest) (staged : string) (w w' : world) : string -> Prop :=
| promise_updated :
    installed_new req staged w w' -> (drainSkip plan = EmptyString -> drained w w') ->
    (preserveClosed plan = true \/ pause plan = true \/ drainSkip plan = EmptyString ->
       admission_is (negb (preserveClosed plan)) w w') ->
    promise plan req staged w w' UpdateOutcomeUpdated
| promise_closed :
    installed_new req staged w w' -> (drainSkip plan = EmptyString -> drained w w') -> promise plan req staged w w' UpdateOutcomeAdmissionClosed
| promise_rolled_back :
    same_content cfg (fs w) (fs w') -> (installed plan <> EmptyString -> runs_version (installed plan) w w') ->
    admission_is (negb (preserveClosed plan)) w w' -> (drainSkip plan = EmptyString -> drained w w') ->
    promise plan req staged w w' UpdateOutcomeRolledBack
| promise_rollback_failed :
    (drainSkip plan = EmptyString -> drained w w') -> promise plan req staged w w' UpdateOutcomeRollbackFailed
| promise_failed :
    content (fs w') config = content (fs w) config ->
    content (fs w') bin = content (fs w) bin \/ content (fs w') bin = content (fs w) staged ->
    promise plan req staged w w' UpdateOutcomeFailed.

Lemma abort_promise plan req staged paused e w w1 u w' :
  abort_before_swap plan paused e w1 = (u, w') ->
  content (fs w1) config = content (fs w) config ->
  content (fs w1) bin = content (fs w) bin \/ content (fs w1) bin = content (fs w) staged ->
  ended_as UpdateOutcomeFailed w' /\ promise plan req staged w w' UpdateOutcomeFailed.
Proof.
  intros (t & w2 & [_ <-]%clock_inv & Hk)%bind_inv Hc Hb. apply bind_inv in Hk as (r & w3 & Hr & Hk).
  apply end_inv in Hk as (He & Hf & _). split; [done|].
  assert (Hf3 : fs w3 = fs w1).
  { eapply (nothing_fs _ anything); [|exact Hr]. apply touches_updateResume. }
  constructor; unfold content in *; by rewrite Hf, Hf3.
Qed.

(** A rollback ends with the content that was kept, or says it failed. *)
Lemma rollback_promise plan req staged k cause w w1 u w' :
  kept_ok cfg k -> keeps (fs w) (fs w1) bin (k_binPrev k) -> keeps (fs w) (fs w1) config (k_configPrev k) ->
  content (fs w1) config = content (fs w) config -> later w w1 ->
  (drainSkip plan = EmptyString -> drained w w1) ->
  rollbackTelemt cfg plan k cause w1 = (u, w') ->
  exists o, ended_as o w' /\ promise plan req staged w w' o.
Proof.
  intros Hk Hb Hc Hcfg Hl Hdr Hr.
  assert (Hdr' : drainSkip plan = EmptyString -> drained w w').
  { intros Hds. eapply asked_later; [by apply Hdr|]. eapply touches_later; [|exact Hr].
    by apply touches_rollbackTelemt. }
  unfold rollbackTelemt in Hr.
  apply bind_inv in Hr as (t & w2 & [_ <-]%clock_inv & Hr). cbv zeta in Hr.
  apply bind_inv in Hr as (x & w2 & Hbegin & Hr). apply bind_inv in Hr as (r & w3 & Hf & Hr).
  assert (Hf2 : fs w2 = fs w1) by (eapply (nothing_fs _ anything); [|exact Hbegin]; touches).
  assert (Hl2 : later w w2) by (eapply later_trans; [exact Hl|later_by Hbegin]).
  destruct r as [v|e].
  2: { apply bind_inv in Hr as (y & w4 & _ & Hr). apply end_inv in Hr as (He & _).
       eexists. split; [exact He|by constructor]. }
  apply bind_inv in Hr as (y & w4 & Hfin & Hr). apply bind_inv in Hr as (r & w5 & Hres & Hr).
  destruct r as [z|e]; [|apply end_inv in Hr as (He & _); eexists; split; [exact He|by constructor]].
  apply end_inv in Hr as (He & Hfe & Hle). eexists. split; [exact He|].
  assert (Hf5 : fs w5 = fs w3).
  { transitivity (fs w4); (eapply (nothing_fs _ anything); [|eassumption]); touches. }
  rewrite <- Hf2 in Hb, Hc. assert (Hl3 : later w2 w3).
  { eapply touches_later; [by apply touches_rollback_files|exact Hf]. }
  destruct (rollback_files_ok cfg HP (fs w) _ _ _ _ _ _ Hk Hf Hb Hc) as [Hsame Hver].
  { unfold content in *. by rewrite Hf2. }
  pose proof (updateResume_ok _ plan true _ _ _ (orb_true_r _) Hres) as Hadm.
  assert (Hl5 : later w3 w5) by (eapply later_trans; [later_by Hfin|later_by Hres]).
  constructor.
  - unfold same_content, content in *. by rewrite Hfe, Hf5.
  - intros Hn. eapply asked_mono; [exact Hl2|by apply Hver|by eapply later_trans].
  - eapply asked_mono; [|exact Hadm|exact Hle]. eapply later_trans; [exact Hl2|].
    eapply later_trans; [exact Hl3|later_by Hfin].
  - exact Hdr'.
Qed.

Lemma discard_content k w u w' : kept_ok cfg k -> discard k w = (u, w') -> same_content cfg (fs w) (fs w') /\ later w w'.
Proof.
  intros (_ & _ & Hb & Hc) Hd. destruct (key_ne cfg HP) as (N1 & N2 & N3 & N4 & N5 & N6).
  assert (Ht : touches (fun p => p = prev_of bin \/ p = prev_of config) anything (discard k)).
  { unfold discard. pose proof system_anything.
    apply touches_bind; [|intros _];
      [destruct (String.eqb_spec (k_binPrev k) EmptyString)|destruct (String.eqb_spec (k_configPrev k) EmptyString)];
      touches; apply touches_remove; [done| |done|].
    - destruct Hb as [?|Hb]; [done|]. by left.
    - destruct Hc as [?|Hc]; [done|]. by right. }
  split; [|by eapply touches_later]. pose proof (touches_fs _ _ _ _ _ _ _ Ht Hd) as Hf.
  unfold same_content, content. by rewrite <- !Hf by (intros [?|?]; congruence).
Qed.

(** After the swap: the new build is confirmed and served, or taken back. *)
Lemma after_swap_promise ctx req plan staged paused k w w1 u w' :
  kept_ok cfg k -> later w w1 ->
  content (fs w1) bin = content (fs w) staged -> content (fs w1) bin <> None ->
  content (fs w1) config = content (fs w) config ->
  keeps (fs w) (fs w1) bin (k_binPrev k) -> keeps (fs w) (fs w1) config (k_configPrev k) ->
  (drainSkip plan = EmptyString -> drained w w1) ->
  (preserveClosed plan = true \/ pause plan = true \/ drainSkip plan = EmptyString -> preserveClosed plan || paused = true) ->
  (v ← updateRestartAndVerify cfg ctx plan (req_Version req);
   match v with
   | Err e => rollbackTelemt cfg plan k e
   | Ok _ =>
       r ← updateResume ctx plan paused;
       match r with
       | Err e => end_ UpdateOutcomeAdmissionClosed (Some e)
       | Ok _ => _ ← discard k; end_ UpdateOutcomeUpdated None
       end
   end) w1 = (u, w') ->
  exists o, ended_as o w' /\ promise plan req staged w w' o.
Proof.
  intros Hk Hl1 Hbin Hsome Hcfg Hkb Hkc Hdr Hpaused Hr.
  apply bind_inv in Hr as (v & w2 & Hv & Hr).
  assert (Hf2 : fs w2 = fs w1) by (eapply (nothing_fs _ anything); [|exact Hv]; touches).
  assert (Hl12 : later w1 w2) by later_by Hv.
  assert (Hl2 : later w w2) by by eapply later_trans.
  destruct v as [x|e].
  2: { eapply rollback_promise; [exact Hk|..|exact Hl2| |exact Hr]; rewrite ?Hf2; try done.
       intros Hds. eapply asked_later; [by apply Hdr|done]. }
  apply updateRestartAndVerify_ok in Hv. apply (later_asked _ _ _ _ _ _ Hl1) in Hv.
  apply bind_inv in Hr as (r & w3 & Hres & Hr).
  assert (Hf3 : fs w3 = fs w1) by (rewrite <- Hf2; eapply (nothing_fs _ anything); [|exact Hres]; touches).
  assert (Hl3 : later w2 w3) by later_by Hres.
  assert (Hin : forall w'', later w3 w'' -> same_content cfg (fs w3) (fs w'') -> installed_new req staged w w'').
  { intros w'' Hl [Hsb Hsc]. rewrite Hf3 in *. unfold installed_new. rewrite Hsb, Hsc. split_and!; [done..|].
    eapply asked_later; [exact Hv|]. by eapply later_trans. }
  destruct r as [y|e].
  2: { apply end_inv in Hr as (He & Hf & Hl). eexists. split; [exact He|]. constructor.
       - apply Hin; [done|]. by rewrite Hf.
       - intros Hds. eapply asked_later; [by apply Hdr|]. eapply later_trans; [exact Hl12|]. by eapply later_trans. }
  apply bind_inv in Hr as (z & w4 & Hdis & Hr). apply (discard_content _ _ _ _ Hk) in Hdis as [Hsame Hl4].
  apply end_inv in Hr as (He & Hf & Hl5). eexists. split; [exact He|].
  assert (Hl : later w3 w') by by eapply later_trans. constructor.
  - apply Hin; [done|]. by rewrite Hf.
  - intros Hds. eapply asked_later; [by apply Hdr|]. eapply later_trans; [|exact Hl].
    by eapply later_trans.
  - intros Hp. apply (updateResume_ok _ plan paused) in Hres; [|by apply Hpaused].
    eapply asked_mono; [exact Hl2|exact Hres|exact Hl].
Qed.

(** Every end of the maintenance sequence keeps its promise. *)
Lemma maintenance_promise ctx req plan staged w u w' :
  is_hidden staged -> maintenance_sequence cfg ctx req plan staged w = (u, w') ->
  exists o, ended_as o w' /\ promise plan req staged w w' o.
Proof.
  intros Hs Hr. unfold maintenance_sequence in Hr.
  apply bind_inv in Hr as (p & w1 & Hp & Hr).
  assert (Hf1 : fs w1 = fs w) by (eapply (nothing_fs _ anything); [|exact Hp]; touches).
  assert (Hl1 : later w w1) by later_by Hp.
  destruct p as [x|e].
  2: { apply end_inv in Hr as (He & Hf & _). eexists. split; [exact He|].
       constructor; unfold content; rewrite Hf, Hf1; auto. }
  cbv zeta in Hr. apply bind_inv in Hr as (d & w2 & Hd & Hr).
  assert (Hf2 : fs w2 = fs w) by (rewrite <- Hf1; eapply (nothing_fs _ anything); [|exact Hd]; touches).
  assert (Hl12 : later w1 w2) by later_by Hd.
  destruct d as [y|e]; [|eexists; apply (abort_promise plan req staged _ _ w) in Hr as [??]; rewrite ?Hf2; eauto].
  apply bind_inv in Hr as (z & w3 & Hb & Hr). apply bind_inv in Hr as (s & w4 & Hsw & Hr).
  assert (Hf3 : fs w3 = fs w) by (rewrite <- Hf2; eapply (nothing_fs _ anything); [|exact Hb]; touches).
  assert (Hl23 : later w2 w3) by later_by Hb.
  assert (Hl34 : later w3 w4) by (eapply touches_later; [by apply touches_swapTelemtBinary|exact Hsw]).
  destruct s as [k|e].
  2: { apply bind_inv in Hr as (? & w5 & Hfin & Hr).
       assert (Hf5 : fs w5 = fs w4) by (eapply (nothing_fs _ anything); [|exact Hfin]; touches).
       apply swapTelemtBinary_err in Hsw as [Hc Hbn]; [|done..]. rewrite Hf3 in *.
       eexists. apply (abort_promise plan req staged _ _ w) in Hr as [??]; unfold content in *; rewrite ?Hf5; eauto. }
  pose proof (swapTelemtBinary_yields cfg staged _ _ _ Hsw) as Hk.
  apply swapTelemtBinary_ok in Hsw as (Hbin & Hsome & Hcfg & Hkb & Hkc); [|done..]. rewrite Hf3 in *.
  apply bind_inv in Hr as (? & w5 & Hfin & Hr).
  assert (Hf5 : fs w5 = fs w4) by (eapply (nothing_fs _ anything); [|exact Hfin]; touches).
  assert (Hl25 : later w2 w5).
  { eapply later_trans; [exact Hl23|]. eapply later_trans; [exact Hl34|later_by Hfin]. }
  eapply (after_swap_promise _ _ _ _ _ _ w w5); [exact Hk|..|exact Hr]; rewrite ?Hf5; try done.
  - eapply later_trans; [exact Hl1|]. by eapply later_trans.
  - unfold content. by rewrite Hcfg.
  - intros Hds. rewrite Hds in Hd. cbn in Hd. apply updateDrain_ok in Hd.
    eapply asked_mono; [exact Hl1|exact Hd|exact Hl25].
  - destruct (String.eqb_spec (drainSkip plan) EmptyString) as [E|E]; cbn [negb]; [by rewrite orb_true_r|].
    intros [-> | [-> |?]]; [done|by rewrite orb_true_r|done].
Qed.

(** ** Before the sequence: the staged build and the journal *)

Lemma stageTelemtBinary_ok req w staged w' : stageTelemtBinary cfg req w = (Ok staged, w') ->
  staged = staged_path cfg /\
  exists b, content (fs w') staged = Some b /\ genuine (req_SHA256 req) b.
Proof.
  unfold stageTelemtBinary. cbv zeta. intros (tgz & w1 & Hd & Hr)%try_ok.
  assert (Hn : no_slash "telemt-download-") by done.
  destruct (downloadArtifact_ok _ _ _ _ _ _ Hn Hd) as ([Hh Htmp] & x & Hx & Hsha).
  apply bind_inv in Hr as (r & w2 & He & Hr). apply bind_inv in Hr as (u & w3 & Hrm & Hr).
  destruct r as [v|e]; [|by apply ret_inv in Hr as [[=] _]]. apply ret_inv in Hr as [[= <-] <-].
  split; [done|]. apply or_clean_ok in He.
  apply (extractTelemtBinary_ok _ _ _ _ _ _ _ He Hx) in Hsha as (y & Hy & _ & Hg).
  exists (fdata y). split; [|exact Hg]. unfold content.
  assert (Hne : tgz <> staged_path cfg).
  { intros ->. destruct (staged_not_saved cfg HP). left. by split. }
  assert (Ht : touches (eq tgz) anything (ignore (remove tgz))) by (pose proof system_anything; touches).
  pose proof (touches_fs _ _ _ _ _ _ _ Ht Hrm _ Hne) as E. unfold staged_path in E. by rewrite <- E, Hy.
Qed.

(** The journal and its artifacts are in place for the files [f]: it reads as
    [j], which is active and names the copies, and the copies hold what binary
    and config held in [f], with the checksums of the journal. *)
Definition armed (f : files) (j : updateJournal) (g : files) : Prop :=
  (exists s, content g journal = Some s /\ unmarshal s = Ok j) /\
  Active j = true /\ Binary j = kg /\ j_Config j = kg_config /\
  (exists b, content f bin = Some b /\ content g kg = Some b /\ BinarySHA j = Sha.hex b) /\
  (exists c, content f config = Some c /\ content g kg_config = Some c /\ ConfigSHA j = Sha.hex c).

Lemma armed_mono f j g h :
  content h journal = content g journal -> content h kg = content g kg -> content h kg_config = content g kg_config ->
  armed f j g -> armed f j h.
Proof. unfold armed. by intros -> -> ->. Qed.

Lemma armed_swapped f j g h : same_off (swapped cfg) g h -> armed f j g -> armed f j h.
Proof.
  intros Hs. destruct (journal_not_swapped cfg HP) as (? & ? & ?).
  apply armed_mono; unfold content; by rewrite Hs.
Qed.

(** A key file other than the one written survives an atomic write. *)
Lemma writing_keeps path data f g p : p ∈ key_paths cfg -> p <> path -> writing path data f g ->
  content g p = content f p.
Proof.
  intros Hp Hne [Ho _]. unfold content. rewrite Ho; [done|].
  intros [Ht|?]; [by apply (key_not_temp cfg HP p Hp)|done].
Qed.

Lemma saveVerifiedCopy_keeps src dst mode w r w' p :
  dst ∈ key_paths cfg -> p ∈ key_paths cfg -> p <> dst -> saveVerifiedCopy src dst mode w = (r, w') ->
  content (fs w') p = content (fs w) p.
Proof.
  intros Hd Hp Hne Hr. destruct (key_not_temp cfg HP dst Hd) as [H1' H2'].
  assert (Ht : touches (or_path dst) anything (saveVerifiedCopy src dst mode)).
  { apply touches_saveVerifiedCopy; [apply system_anything|done..]. }
  unfold content. rewrite (touches_fs _ _ _ _ _ _ _ Ht Hr); [done|].
  intros [Htmp|?]; [by apply (key_not_temp cfg HP p Hp)|done].
Qed.

Lemma writeUpdateJournal_spec j w r w' : writeUpdateJournal cfg j w = (r, w') ->
  (exists b, marshal j = Ok b /\ spans anything (writing journal b (fs w)) w w' /\
     writing journal b (fs w) (fs w') /\ (r = Ok tt -> content (fs w') journal = Some b)) \/
  ((exists e, r = Err e) /\ w' = w).
Proof.
  unfold writeUpdateJournal. destruct (marshal j) as [b|e]; [|intros [<- <-]%ret_inv; right; eauto].
  intros Hr. left. exists b. destruct (key_not_temp cfg HP _ (in_key_journal cfg)) as [H1' H2'].
  destruct (writeAtomicAs_spec anything system_anything _ _ _ _ _ _ _ H1' H2' Hr) as (Hs & Hw & Hok).
  split_and!; [done..|]. intros Hr'. destruct (Hok Hr') as (x & Hx & Hd & _). unfold content. by rewrite Hx, <- Hd.
Qed.

Lemma key_ne_journal :
  kg <> kg_config /\ kg <> journal /\ kg_config <> journal /\ bin <> kg /\ bin <> journal /\ bin <> kg_config /\
  config <> kg /\ config <> journal /\ config <> kg_config.
Proof.
  pose proof (distinct cfg HP) as Hd. unfold key_paths in Hd. rewrite !NoDup_cons in Hd. set_solver.
Qed.

Lemma prepareUpdateJournal_ok ctx plan target w j w' : prepareUpdateJournal cfg ctx plan target w = (Ok j, w') ->
  armed (fs w) j (fs w') /\ HadWeb j = hadWeb plan /\ Target j = target /\ j_Version j = installed plan /\
  (hadWeb plan = true -> admission_is (j_AdmissionOpen j) w w').
Proof.
  intros Hr. unfold prepareUpdateJournal in Hr.
  apply try_ok in Hr as (x0 & w0 & Hcj & Hr). apply bind_inv in Hr as (t & w1 & [-> <-]%clock_inv & Hr).
  apply try_ok in Hr as (x1 & w1 & Hmk & Hr). apply try_ok in Hr as (adm & w2 & Hadm & Hr).
  apply try_ok in Hr as (bsha & w3 & Hb & Hr). apply try_ok in Hr as (csha & w4 & Hc & Hr).
  apply try_ok in Hr as (x2 & w5 & Hw & Hr). apply ret_inv in Hr as [[= <-] <-].
  destruct key_ne_journal as (N1 & N2 & N3 & N4 & N5 & N6 & N7 & N8 & N9).
  destruct (key_not_temp cfg HP _ (in_key_kg cfg)) as [K1 K2].
  destruct (key_not_temp cfg HP _ (in_key_kg_config cfg)) as [C1 C2].
  assert (Hf1 : fs w1 = fs w).
  { apply check_fs in Hmk. rewrite Hmk. eapply (nothing_fs _ anything); [|exact Hcj].
    apply touches_checkUpdateJournal, system_anything. }
  assert (Hf2 : fs w2 = fs w).
  { rewrite <- Hf1. eapply (nothing_fs _ anything); [|exact Hadm]. unfold original_admission. touches. }
  destruct (saveVerifiedCopy_ok _ _ _ _ _ _ K1 K2 Hb) as (xb & yb & Hxb & Hyb & Hdb & ->).
  destruct (saveVerifiedCopy_ok _ _ _ _ _ _ C1 C2 Hc) as (xc & yc & Hxc & Hyc & Hdc & ->).
  assert (Hlater : later w2 w5).
  { pose proof system_anything. eapply later_trans; [|eapply later_trans].
    - eapply (touches_later (or_path kg) anything); [|exact Hb]. by apply touches_saveVerifiedCopy.
    - eapply (touches_later (or_path kg_config) anything); [|exact Hc]. by apply touches_saveVerifiedCopy.
    - eapply (touches_later (closing cfg) anything); [|exact Hw]. by apply touches_writeUpdateJournal. }
  destruct x2. apply writeUpdateJournal_spec in Hw as [(s & Hs & _ & Hwr & Hok)|[[? [=]] _]].
  split; [|split_and!; [done..|]].
  - unfold armed. cbn [Active Binary j_Config BinarySHA ConfigSHA]. split_and!; [|done..| |].
    + exists s. split; [by apply Hok|]. by apply unmarshal_marshal.
    + exists (fdata xb). split_and!; [unfold content; by rewrite <- Hf2, Hxb| |done].
      rewrite (writing_keeps _ _ _ _ _ (in_key_kg cfg) N2 Hwr).
      rewrite (saveVerifiedCopy_keeps _ _ _ _ _ _ _ (in_key_kg_config cfg) (in_key_kg cfg) N1 Hc).
      unfold content. by rewrite Hyb, <- Hdb.
    + exists (fdata xc). split_and!; [| |done].
      * rewrite <- Hf2, <- (saveVerifiedCopy_keeps _ _ _ _ _ _ _ (in_key_kg cfg) (in_key_config cfg) N7 Hb).
        unfold content. by rewrite Hxc.
      * rewrite (writing_keeps _ _ _ _ _ (in_key_kg_config cfg) N3 Hwr). unfold content. by rewrite Hyc, <- Hdc.
  - intros Hweb. unfold original_admission in Hadm. rewrite Hweb in Hadm.
    apply try_ok in Hadm as (st & w6 & Hst & Hadm). apply ret_inv in Hadm as [Ha <-].
    destruct (OperatorLifecycle st) as [lc|] eqn:El; [|done]. injection Ha as <-.
    apply get_status_asked in Hst. eapply (asked_mono _ _ _ _ w1 w6).
    + eapply later_trans; [|later_by Hmk].
      eapply (touches_later nothing anything); [|exact Hcj]. apply touches_checkUpdateJournal, system_anything.
    + eapply asked_weaken; [|exact Hst]. intros s' ->. eauto.
    + exact Hlater.
Qed.

(** ** Closing the journal *)

(** The journal on the disk is closed with this outcome. *)
Definition finished (o : string) (g : files) : Prop :=
  exists s j, content g journal = Some s /\ unmarshal s = Ok j /\ Active j = false /\ j_Outcome j = o.

(** Nothing is left for recovery to undo. *)
Definition settled (j : updateJournal) (o : string) (w w' : world) : Prop :=
  o = UpdateOutcomeUpdated \/ o = UpdateOutcomeRolledBack \/ o = UpdateOutcomeAdmissionClosed \/
  (o = UpdateOutcomeFailed /\ (exists b, content (fs w) bin = Some b /\ Sha.hex b = BinarySHA j) /\
   (HadWeb j = true -> admission_is (j_AdmissionOpen j) w w')).

Lemma updateSettled_true ctx j o w w' : updateSettled cfg ctx j o w = (true, w') -> settled j o w w'.
Proof.
  unfold updateSettled, settled.
  destruct (String.eqb_spec o UpdateOutcomeUpdated); cbn [orb]; [auto|].
  destruct (String.eqb_spec o UpdateOutcomeRolledBack); cbn [orb]; [auto|].
  destruct (String.eqb_spec o UpdateOutcomeAdmissionClosed); [auto|].
  destruct (String.eqb_spec o UpdateOutcomeFailed) as [->|]; [|by intros [[=] _]%ret_inv].
  intros (r & w1 & Hv & Hr)%bind_inv. destruct r as [b|e]; [|by apply ret_inv in Hr as [[=] _]].
  pose proof Hv as Hv'. apply verifiedFile_ok in Hv' as (Hf & x & Hx & <- & Hsha).
  right. right. right. split; [done|]. split; [exists (fdata x); unfold content; by rewrite Hx|].
  intros Hweb. rewrite Hweb in Hr. cbn [negb] in Hr. apply bind_inv in Hr as ([st|e] & w2 & Hs & Hr);
    apply ret_inv in Hr as [Hr <-]; [|done].
  destruct (OperatorLifecycle st) as [lc|] eqn:El; [|done]. apply Bool.eqb_prop in Hr.
  apply get_status_asked in Hs. eapply later_asked.
  - eapply (touches_later nothing anything); [apply touches_verifiedFile, system_anything|exact Hv].
  - eapply asked_weaken; [|exact Hs]. intros s ->. eauto.
Qed.

Lemma respects_writeAtomicAs R path data mode owner : plain R -> respects R (writeAtomicAs path data mode owner).
Proof. intros HR. unfold writeAtomicAs, stage_file, commit_file. cbv zeta. respects. Qed.

Lemma respects_get_status R ctx : plain R -> respects R (get_status ctx).
Proof. intros HR. unfold get_status, textual, WebStatus_, control. cbv zeta. respects. Qed.

Lemma settle_upd j w u w' : settle cfg j w = (u, w') -> upd w' = upd w.
Proof.
  intros Hs. pose proof plain_same_upd as HR. pose proof respects_get_status. pose proof respects_writeAtomicAs.
  assert (Hr : respects same_upd (settle cfg j)).
  { unfold settle, updateSettled, verifiedFile, writeUpdateJournal, writeAtomic. cbv zeta. respects. }
  specialize (Hr w). by rewrite Hs in Hr.
Qed.

Definition outcome_of (w : world) : string := match upd w with Some u => Outcome u | None => EmptyString end.

Lemma settled_outcome j o w w1 w' : ended_as o w -> settled j (outcome_of w) w1 w' -> outcome_of w = o.
Proof.
  unfold ended_as, outcome_of, settled. destruct (upd w) as [u|]; [by intros He _; apply He|].
  by intros _ [?|[?|[?|[? _]]]].
Qed.

(** Settling keeps the journal armed, or closes it when nothing is left to
    undo; binary and config stay as they are. *)
Lemma settle_spec f j w u w' :
  armed f j (fs w) -> settle cfg j w = (u, w') ->
  let o := outcome_of w in
  spans anything (fun g => same_content cfg (fs w) g /\ (armed f j g \/ finished o g /\ exists w1, settled j o w w1)) w w' /\
  same_content cfg (fs w) (fs w') /\
  (armed f j (fs w') \/ finished o (fs w') /\ exists w1, settled j o w w1).
Proof.
  intros Ha Hr o. unfold settle in Hr.
  apply bind_inv in Hr as (x & w0 & [= <- <-] & Hr). cbv zeta in Hr. fold (outcome_of w) in Hr. fold o in Hr.
  apply bind_inv in Hr as (t & w0 & [-> <-]%clock_inv & Hr). apply bind_inv in Hr as (b & w1 & Hs & Hr).
  set (I g := same_content cfg (fs w) g /\ (armed f j g \/ finished o g /\ exists w1, settled j o w w1)).
  assert (Ht : touches nothing anything (updateSettled cfg (with_timeout None (10 * Tm.second) (now w)) j o)).
  { unfold updateSettled. pose proof touches_verifiedFile. pose proof system_anything. touches. }
  pose proof (nothing_fs _ _ _ _ _ _ Ht Hs) as Hf1.
  assert (Hspan1 : spans anything I w w1).
  { eapply spans_mono; [done| |by eapply touches_spans]. intros g Hg.
    assert (g = fs w) as -> by (apply map_eq; intros p; symmetry; apply Hg; intros []). split; [done|by left]. }
  destruct b; [|by apply ret_inv in Hr as [_ <-]; rewrite Hf1; split_and!; [exact Hspan1|done..|by left]].
  apply updateSettled_true in Hs. apply bind_inv in Hr as (r & w2 & Hw & [_ <-]%ret_inv).
  destruct (writeUpdateJournal_spec _ _ _ _ Hw) as [(s & Hm & Hsp & Hwr & _)|[_ ->]];
    [|rewrite Hf1; split_and!; [done|done|by left]].
  destruct key_ne_journal as (N1 & N2 & N3 & N4 & N5 & N6 & N7 & N8 & N9).
  assert (HI : forall g, writing journal s (fs w1) g -> I g).
  { intros g Hg. rewrite Hf1 in Hg.
    assert (Hk : forall p, p ∈ key_paths cfg -> p <> journal -> content g p = content (fs w) p).
    { intros p Hp Hne. by eapply writing_keeps. }
    split; [split; (apply Hk; [first [apply in_key_bin|apply in_key_config]|done])|].
    destruct Hg as [_ [Hj|(y & Hy & Hd)]].
    - left. eapply armed_mono; [|apply Hk; [apply in_key_kg|done]|apply Hk; [apply in_key_kg_config|done]|exact Ha].
      unfold content. by rewrite Hj.
    - right. split; [|by exists w1]. eexists s, _. split_and!; [unfold content; by rewrite Hy, <- Hd|by apply unmarshal_marshal|done|done]. }
  split_and!; [|apply HI, Hwr|apply HI, Hwr]. eapply spans_trans; [exact Hspan1|]. by eapply spans_mono.
Qed.

(** ** Whole runs *)

Lemma touches_same S f g : ~ S bin -> ~ S config -> same_off S f g -> same_content cfg f g.
Proof. intros Hb Hc Hs. split; unfold content; by rewrite Hs. Qed.

Lemma same_content_trans f g h : same_content cfg f g -> same_content cfg g h -> same_content cfg f h.
Proof. intros [E1 E2] [E3 E4]. split; congruence. Qed.

(** A step that leaves binary and config alone, run from files like [f]. *)
Lemma untouched_step A S E f (m : M A) w a w' :
  ~ S bin -> ~ S config -> touches S E m -> m w = (a, w') -> same_content cfg f (fs w) ->
  spans E (same_content cfg f) w w' /\ same_content cfg f (fs w').
Proof.
  intros Hb Hc Hm Hw Hf. split.
  - eapply spans_mono; [done| |by eapply touches_spans]. intros g Hg.
    eapply same_content_trans; [exact Hf|]. by eapply touches_same.
  - eapply same_content_trans; [exact Hf|]. eapply (touches_same S); [done..|]. by eapply touches_fs.
Qed.

Lemma quiet_step A f (m : M A) w a w' :
  m w = (a, w') -> touches nothing harmless m -> same_content cfg f (fs w) ->
  spans harmless (same_content cfg f) w w' /\ same_content cfg f (fs w').
Proof. intros Hw Hm. eapply untouched_step; [| |exact Hm|exact Hw]; by intros []. Qed.

Lemma armed_base f f' j g : same_content cfg f f' -> armed f' j g -> armed f j g.
Proof. unfold armed. by intros [-> ->]. Qed.

Lemma key_not_hidden p : p ∈ key_paths cfg -> ~ is_hidden p.
Proof. apply key_ordinary, HP. Qed.

(** What a run does before it closes admission. *)
Inductive run_result (req : UpdateTelemtRequest) (w w' : world) : Prop :=
| run_refused :
    ended_as UpdateOutcomeRefused w' -> spans harmless (same_content cfg (fs w)) w w' ->
    same_content cfg (fs w) (fs w') -> run_result req w w'
| run_sequence ctx plan j b w1 w2 w3 :
    (RequireDrain req = true -> drainSkip plan = EmptyString) ->
    spans harmless (same_content cfg (fs w)) w w1 -> same_content cfg (fs w) (fs w1) ->
    armed (fs w) j (fs w1) ->
    content (fs w1) (staged_path cfg) = Some b -> genuine (req_SHA256 req) b ->
    maintenance_sequence cfg ctx req plan (staged_path cfg) w1 = (tt, w2) ->
    settle cfg j w2 = (tt, w3) -> ignore (remove (staged_path cfg)) w3 = (tt, w') -> run_result req w w'.

(** A preflight that passed with a drain required plans the drain. *)
Lemma updatePreflight_required ctx req w plan w' : updatePreflight ctx req w = (Ok plan, w') ->
  RequireDrain req = true -> drainSkip plan = EmptyString.
Proof.
  intros Hr Hreq. unfold updatePreflight in Hr. cbv zeta in Hr. apply bind_inv in Hr as ([] & w1 & _ & Hr).
  destruct (pinned_build req); [by apply fail_step_err in Hr|].
  apply bind_inv in Hr as ([info|e] & w2 & _ & Hr); [|by apply fail_step_err in Hr].
  apply bind_inv in Hr as ([] & w3 & _ & Hr). destruct (sameTelemtVersion _ _); [by apply fail_step_err in Hr|].
  apply bind_inv in Hr as ([[caps unknown]|e] & w4 & _ & Hr); [|by apply fail_step_err in Hr].
  destruct (drain_plan _ _ _ _) as [sk|e] eqn:Ed; [|by apply fail_step_err in Hr].
  apply bind_inv in Hr as ([] & w5 & _ & [[= <-] _]%ret_inv). cbn. unfold drain_plan in Ed. rewrite Hreq in Ed.
  destruct (WebDrain caps), (Has unknown CapWebDrain); by inversion Ed.
Qed.

Lemma run_cases ctx req w u w' : runTelemtUpdate cfg ctx req w = (u, w') -> run_result req w w'.
Proof.
  intros Hr. unfold runTelemtUpdate in Hr.
  assert (Hb : ~ is_hidden bin) by (apply key_not_hidden, in_key_bin).
  assert (Hc : ~ is_hidden config) by (apply key_not_hidden, in_key_config).
  destruct (bin_not_saved cfg HP) as [Hbs Hcs].
  apply bind_inv in Hr as (plan & w1 & Hp & Hr).
  destruct (quiet_step _ (fs w) _ _ _ _ Hp) as [S1 C1]; [apply touches_updatePreflight|done|].
  destruct plan as [plan|e].
  2: { destruct (quiet_step _ (fs w) _ _ _ _ Hr) as [S2 C2]; [touches|done|].
       apply end_inv in Hr as (He & _). apply run_refused; [done|by eapply spans_trans|done]. }
  pose proof (updatePreflight_required _ _ _ _ _ Hp) as Hreq.
  apply bind_inv in Hr as ([] & w2 & Hbg & Hr).
  destruct (quiet_step _ (fs w) _ _ _ _ Hbg) as [S2 C2]; [touches|done|].
  apply bind_inv in Hr as (st & w3 & Hst & Hr).
  destruct (untouched_step _ is_hidden harmless (fs w) _ _ _ _ Hb Hc (touches_stageTelemtBinary _ _) Hst C2) as [S3 C3].
  assert (S13 : spans harmless (same_content cfg (fs w)) w w3).
  { eapply spans_trans; [exact S1|]. by eapply spans_trans. }
  destruct st as [staged|e].
  2: { apply bind_inv in Hr as ([] & w4 & Hfin & Hr).
       destruct (quiet_step _ (fs w) _ _ _ _ Hfin) as [S4 C4]; [touches|done|].
       destruct (quiet_step _ (fs w) _ _ _ _ Hr) as [S5 C5]; [touches|done|].
       apply end_inv in Hr as (He & _). apply run_refused; [done| |done].
       eapply spans_trans; [exact S13|]. by eapply spans_trans. }
  apply stageTelemtBinary_ok in Hst as (-> & b & Hb3 & Hgen).
  apply bind_inv in Hr as ([] & w4 & Hfin & Hr).
  assert (Hf4 : fs w4 = fs w3) by (eapply (nothing_fs _ anything); [|exact Hfin]; touches).
  destruct (quiet_step _ (fs w) _ _ _ _ Hfin) as [S4 C4]; [touches|done|].
  apply bind_inv in Hr as (j & w5 & Hj & Hr).
  pose proof (touches_prepareUpdateJournal cfg HP ctx plan (req_Version req)) as Hpj.
  destruct (untouched_step _ (saved cfg) harmless (fs w) _ _ _ _ Hbs Hcs Hpj Hj C4) as [S5 C5].
  assert (S15 : spans harmless (same_content cfg (fs w)) w w5).
  { eapply spans_trans; [exact S13|]. by eapply spans_trans. }
  apply bind_inv in Hr as ([] & w6 & Hmain & Hrm).
  assert (Hb5 : content (fs w5) (staged_path cfg) = Some b).
  { rewrite <- Hb3, <- Hf4. unfold content.
    by rewrite (touches_fs _ _ _ _ _ _ _ Hpj Hj _ (staged_not_saved cfg HP)). }
  destruct j as [j|e].
  - apply prepareUpdateJournal_ok in Hj as (Ha & _).
    apply bind_inv in Hmain as ([] & w7 & Hseq & Hset). destruct u.
    eapply (run_sequence _ _ _ ctx _ j b w5 w7 w6); [|exact S15|exact C5| |exact Hb5|exact Hgen|exact Hseq|exact Hset|exact Hrm];
      [exact Hreq|].
    eapply armed_base; [exact C4|exact Ha].
  - destruct (quiet_step _ (fs w) _ _ _ _ Hmain) as [S6 C6]; [touches|done|].
    assert (Hrmt : touches is_hidden harmless (ignore (remove (staged_path cfg)))).
    { pose proof system_harmless. assert (is_hidden (staged_path cfg)) by by apply hidden_join. touches. }
    destruct (untouched_step _ is_hidden harmless (fs w) _ _ _ _ Hb Hc Hrmt Hrm C6) as [S7 C7].
    apply end_inv in Hmain as (He & _). apply run_refused; [| |done].
    + intros v Hv. apply He. rewrite <- Hv. symmetry.
      assert (Hru : respects same_upd (ignore (remove (staged_path cfg)))) by (pose proof plain_same_upd; respects).
      specialize (Hru w6). by rewrite Hrm in Hru.
    + eapply spans_trans; [exact S15|]. by eapply spans_trans.
Qed.

(** The end of a run that reached the maintenance sequence: what the sequence
    promised still holds when the journal was settled and the staged file
    removed. *)
Lemma run_sequence_end ctx req plan j w1 w2 w3 w' f :
  armed f j (fs w1) ->
  maintenance_sequence cfg ctx req plan (staged_path cfg) w1 = (tt, w2) ->
  settle cfg j w2 = (tt, w3) -> ignore (remove (staged_path cfg)) w3 = (tt, w') ->
  exists o, ended_as o w' /\ promise plan req (staged_path cfg) w1 w2 o /\ same_content cfg (fs w2) (fs w') /\
    spans anything (fun g => armed f j g \/
      (same_content cfg (fs w2) g /\ finished o g /\ exists v, settled j o w2 v)) w1 w' /\
    (armed f j (fs w') \/ finished o (fs w') /\ exists v, settled j o w2 v).
Proof.
  intros Ha Hseq Hset Hrm.
  assert (Hsh : is_hidden (staged_path cfg)) by by apply hidden_join.
  destruct (maintenance_promise _ _ _ _ _ _ _ Hsh Hseq) as (o & Ho & Hpr). exists o.
  pose proof (touches_maintenance_sequence cfg HP ctx req plan _ Hsh) as Ht.
  pose proof (armed_swapped _ _ _ _ (touches_fs _ _ _ _ _ _ _ Ht Hseq) Ha) as Ha2.
  destruct (settle_spec f j _ _ _ Ha2 Hset) as (Hs & Hsame & Hend). cbv zeta in *.
  assert (Hold : forall v, settled j (outcome_of w2) w2 v -> outcome_of w2 = o) by (intros v; by apply settled_outcome).
  assert (Hrmt : touches (fun p => p = staged_path cfg) anything (ignore (remove (staged_path cfg)))).
  { pose proof system_anything. touches. }
  assert (Hkeep : forall p, p ∈ key_paths cfg -> forall g, same_off (fun q => q = staged_path cfg) (fs w3) g ->
            content g p = content (fs w3) p).
  { intros p Hp g Hg. unfold content. rewrite Hg; [done|]. intros ->. by apply (key_not_hidden _ Hp). }
  assert (Hst3 : forall g, same_off (fun q => q = staged_path cfg) (fs w3) g ->
            same_content cfg (fs w2) g /\
            (armed f j g \/ finished o g /\ exists v, settled j o w2 v)).
  { intros g Hg. split.
    - eapply same_content_trans; [exact Hsame|]. split; apply Hkeep; try done; [apply in_key_bin|apply in_key_config].
    - destruct Hend as [Hend|[(s & jc & Hs' & Hjc) [v Hv]]].
      + left. eapply armed_mono; [..|exact Hend]; (apply Hkeep; [|done]);
          [apply in_key_journal|apply in_key_kg|apply in_key_kg_config].
      + right. pose proof (Hold _ Hv) as Eo. rewrite Eo in Hv, Hjc. split; [|by exists v]. exists s, jc. split; [|done].
        rewrite <- Hs'. apply Hkeep; [apply in_key_journal|done]. }
  split_and!.
  - intros u Hu. apply Ho. rewrite <- (settle_upd _ _ _ _ Hset), <- Hu. symmetry.
    assert (Hru : respects same_upd (ignore (remove (staged_path cfg)))) by (pose proof plain_same_upd; respects).
    specialize (Hru w3). by rewrite Hrm in Hru.
  - exact Hpr.
  - eapply Hst3, touches_fs; [exact Hrmt|exact Hrm].
  - eapply spans_trans; [|eapply spans_trans].
    + eapply spans_mono; [done| |exact (touches_spans _ _ _ _ _ _ _ Ht Hseq)]. intros g Hg. left. by eapply armed_swapped.
    + eapply spans_mono; [done| |exact Hs]. intros g [Hg [Hga|[Hgf [v Hv]]]]; [by left|right].
      pose proof (Hold _ Hv) as Eo. rewrite Eo in Hv, Hgf. eauto.
    + eapply spans_mono; [done| |exact (touches_spans _ _ _ _ _ _ _ Hrmt Hrm)]. intros g Hg.
      destruct (Hst3 g Hg) as [Hc [?|?]]; [by left|by right].
  - eapply Hst3, touches_fs; [exact Hrmt|exact Hrm].
Qed.

(** What the files owe to a closed journal, given the files [f] the run began
    with: a rolled back node has its old binary and config, an updated one the
    pinned build with its old config, and a run that failed before the swap a
    binary with the checksum of the old one. *)
Definition consistent (sha : string) (f g : files) (o : string) : Prop :=
  content g config = content f config /\
  ((o = UpdateOutcomeRolledBack /\ content g bin = content f bin) \/
   ((o = UpdateOutcomeUpdated \/ o = UpdateOutcomeAdmissionClosed) /\
    exists b, content g bin = Some b /\ genuine sha b) \/
   (o = UpdateOutcomeFailed /\
    exists b b', content g bin = Some b /\ content f bin = Some b' /\ Sha.hex b = Sha.hex b')).

(** What follows the sequence continues the run. *)
Lemma run_later j w2 w3 w' :
  settle cfg j w2 = (tt, w3) -> ignore (remove (staged_path cfg)) w3 = (tt, w') -> later w2 w'.
Proof.
  intros Hset Hrm. pose proof system_anything.
  eapply later_trans; (eapply (touches_later (fun _ => True) anything); [|eassumption]); [|touches].
  unfold settle, updateSettled, verifiedFile.
  assert (forall jj, touches (fun _ => True) anything (writeUpdateJournal cfg jj)) by (intros; by apply touches_writeUpdateJournal).
  touches.
Qed.

(** C5: an update can be killed at any instant.  Whatever telemt, the download
    and the disk do, at every moment of a run the node's files are in one of
    three states: binary and config hold what they held before; or the journal
    is active and names verified copies of what they held, so recovery puts it
    back; or the journal is closed, and the files are what its outcome says. *)
Theorem update_crash_safe ctx req w u w' :
  runTelemtUpdate cfg ctx req w = (u, w') ->
  spans anything (fun g =>
    same_content cfg (fs w) g \/ (exists j, armed (fs w) j g) \/
    (exists o, finished o g /\ consistent (req_SHA256 req) (fs w) g o)) w w'.
Proof.
  intros [He Hs Hc|ctx' plan j b w1 w2 w3 Hreq Hs1 Hc1 Ha Hst Hg Hseq Hset Hrm]%run_cases.
  { eapply spans_mono; [done| |exact Hs]. auto. }
  eapply spans_trans; [eapply spans_mono; [done| |exact Hs1]; auto|].
  destruct (run_sequence_end _ _ _ _ _ _ _ _ _ Ha Hseq Hset Hrm) as (o & _ & Hpr & _ & Hsp & _).
  eapply spans_mono; [done| |exact Hsp]. intros g [Hga|([Hgb Hgc] & Hfin & [v Hv])]; [right; left; eauto|].
  right. right. exists o. split; [done|]. destruct Hc1 as [Hcb Hcc].
  unfold consistent. rewrite Hgb, Hgc.
  destruct Hpr as [(Hb & _ & Hcf & _) _ _|(Hb & _ & Hcf & _) _|[Hb Hcf] _ _ _| |Hcf _].
  - split; [congruence|]. right. left. split; [auto|]. exists b. split; [congruence|done].
  - split; [congruence|]. right. left. split; [auto|]. exists b. split; [congruence|done].
  - split; [congruence|]. left. split; [done|congruence].
  - exfalso. by destruct Hv as [?|[?|[?|[? _]]]].
  - split; [congruence|]. right. right. split; [done|].
    destruct Hv as [?|[?|[?|(_ & (b' & Hb' & Hsha) & _)]]]; try done.
    destruct Ha as (_ & _ & _ & _ & (b0 & Hb0 & _ & Hsha0) & _). exists b', b0. split_and!; [done|done|congruence].
Qed.

(** A refused update touched nothing: binary and config never changed, no
    unit was restarted and telemt was sent no lifecycle request. *)
Theorem refused_touches_nothing ctx req w u w' v :
  runTelemtUpdate cfg ctx req w = (u, w') -> upd w' = Some v -> Outcome v = UpdateOutcomeRefused ->
  spans harmless (same_content cfg (fs w)) w w' /\ same_content cfg (fs w) (fs w').
Proof.
  intros [He Hs Hc|ctx' plan j b w1 w2 w3 Hreq Hs1 Hc1 Ha Hst Hg Hseq Hset Hrm]%run_cases Hv Ho; [done|].
  destruct (run_sequence_end _ _ _ _ _ _ _ _ _ Ha Hseq Hset Hrm) as (o & Hend & Hpr & _).
  apply Hend in Hv. rewrite Ho in Hv. subst o. inversion Hpr.
Qed.

(** C16: a node reported as updated runs the pinned build: the binary is the
    telemt executable of an archive with the pinned sha256, the config is the
    one it had, and telemt itself reported the pinned version after the
    restart. *)
Theorem updated_runs_pinned_build ctx req w u w' v :
  runTelemtUpdate cfg ctx req w = (u, w') -> upd w' = Some v -> Outcome v = UpdateOutcomeUpdated ->
  (exists b, content (fs w') bin = Some b /\ genuine (req_SHA256 req) b) /\
  content (fs w') config = content (fs w) config /\ runs_version (req_Version req) w w'.
Proof.
  intros [He Hs Hc|ctx' plan j b w1 w2 w3 Hreq Hs1 [Hcb Hcc] Ha Hst Hg Hseq Hset Hrm]%run_cases Hv Ho.
  { apply He in Hv. rewrite Ho in Hv. done. }
  destruct (run_sequence_end _ _ _ _ _ _ _ _ _ Ha Hseq Hset Hrm) as (o & Hend & Hpr & [Hsb Hsc] & _).
  apply Hend in Hv. rewrite Ho in Hv. subst o. inversion Hpr as [(Hb & _ & Hcf & Hver) _ _| | | |].
  split_and!; [exists b; split; [congruence|done]|congruence|].
  assert (later w w1) by (destruct Hs1 as (l & ? & _); by exists l).
  pose proof (run_later _ _ _ _ Hset Hrm).
  by eapply asked_mono.
Qed.

(** A node reported as rolled back is the node it was: binary and config
    hold what they held before the run, and telemt reported its WEB admission
    after the way it was found.  So a telemt without a WEB status can only end
    as rollback_failed, whatever was restored. *)
Theorem rolled_back_restores ctx req w u w' v :
  runTelemtUpdate cfg ctx req w = (u, w') -> upd w' = Some v -> Outcome v = UpdateOutcomeRolledBack ->
  same_content cfg (fs w) (fs w') /\ exists b, admission_is b w w'.
Proof.
  intros [He Hs Hc|ctx' plan j b w1 w2 w3 Hreq Hs1 Hc1 Ha Hst Hg Hseq Hset Hrm]%run_cases Hv Ho.
  { apply He in Hv. rewrite Ho in Hv. done. }
  destruct (run_sequence_end _ _ _ _ _ _ _ _ _ Ha Hseq Hset Hrm) as (o & Hend & Hpr & Hsame & _).
  apply Hend in Hv. rewrite Ho in Hv. subst o. inversion Hpr as [| |Hr _ Had _| |]. split.
  - eapply same_content_trans; [exact Hc1|]. by eapply same_content_trans.
  - assert (later w w1) by (destruct Hs1 as (l & ? & _); by exists l).
    pose proof (run_later _ _ _ _ Hset Hrm). eexists. by eapply asked_mono.
Qed.

(** With a drain required, the binary is not replaced under live sessions:
    a run that got as far as the swap had telemt report a finished drain with
    no session, stream or websocket left. *)
Theorem required_drain_is_verified ctx req w u w' v :
  runTelemtUpdate cfg ctx req w = (u, w') -> RequireDrain req = true -> upd w' = Some v ->
  Outcome v <> UpdateOutcomeRefused -> Outcome v <> UpdateOutcomeFailed -> drained w w'.
Proof.
  intros [He Hs Hc|ctx' plan j b w1 w2 w3 Hreq Hs1 Hc1 Ha Hst Hg Hseq Hset Hrm]%run_cases Hrd Hv Hr Hf.
  { by apply He in Hv. }
  destruct (run_sequence_end _ _ _ _ _ _ _ _ _ Ha Hseq Hset Hrm) as (o & Hend & Hpr & _).
  apply Hend in Hv. rewrite Hv in *. specialize (Hreq Hrd).
  assert (later w w1) by (destruct Hs1 as (l & ? & _); by exists l).
  eapply asked_mono; [done| |by eapply run_later].
  destruct Hpr as [_ Hd _|_ Hd|_ _ _ Hd|Hd|]; by try apply Hd.
Qed.

End Safety.
