(* ===== verification/UpdateRecovery.v ===== *)
(** * Recovery after a crash, and the start of an update

    [recoverUpdate] of internal/agent/updatejournal.go run on the files a
    killed update left, and [StartTelemtUpdate] of
    internal/agent/telemtupdate.go. *)

From S2P Require Import Prelude Crypto TelemtTypes Capabilities Node NodeLogic AgentFiles TelemtClient Upgrade UpdateState UpdateJournal TelemtUpdate UpdateSpecs UpdateSafety.

Section Recovery.
Context `{Outside} `{JournalCodec} `{Archive}.
Context (cfg : Config).
Local Open Scope go_scope.

Abbreviation bin := (TelemtBin cfg).
Abbreviation config := (TelemtConfigPath cfg).
Abbreviation journal := (updateJournalPath cfg).
Abbreviation kg := (known_good cfg).
Abbreviation kg_config := (known_good_config cfg).

Hypothesis HP : paths_ok cfg.

Lemma read_file_inv p w r w' : read_file p w = (r, w') ->
  fs w' = fs w /\ later w w' /\ (r = Ok (content (fs w) p) \/ exists e, r = Err e).
Proof.
  intros Hr.
  assert (Hq : fs w' = fs w /\ later w w').
  { split; [eapply (nothing_fs _ anything); [|exact Hr]; touches|later_by Hr]. }
  destruct Hq as [Hf Hl]. split_and!; [done..|].
  apply try_inv in Hr as [(e & _ & ->)|(x & w1 & [_ Hs]%stat_inv & Hr)]; [right; eauto|].
  destruct Hs as [[= ->]|[? [=]]]. unfold content. destruct (fs w !! p) as [x|].
  - apply try_inv in Hr as [(e & _ & ->)|(y & w2 & _ & [<- _]%ret_inv)]; [right; eauto|by left].
  - apply ret_inv in Hr as [<- _]. by left.
Qed.

(** The states of a recovery: the journal is armed, or the files are back and
    the journal is closed. *)
Definition recovering (f : files) (j : updateJournal) (g : files) : Prop :=
  armed cfg f j g \/ (same_content cfg f g /\ finished cfg UpdateOutcomeRolledBack g).

Lemma touches_put_back ctx j : touches (swapped cfg) anything (put_back cfg ctx j).
Proof.
  pose proof system_anything as HE.
  destruct (key_not_temp cfg HP _ (in_key_bin cfg)) as [B1 B2].
  destruct (key_not_temp cfg HP _ (in_key_config cfg)) as [C1 C2].
  assert (HS : forall p q, p = bin \/ p = config -> or_path p q -> swapped cfg q).
  { intros p q Hp [[? _]| ->]; [by left|right]. destruct Hp as [->| ->]; set_solver. }
  assert (forall d, touches (swapped cfg) anything (writeAtomic bin d 493)).
  { intros d. apply touches_writeAtomic; [done..|]. intros q. apply HS. by left. }
  assert (forall d, touches (swapped cfg) anything (writeAtomicKeepOwner config d 384)).
  { intros d. apply touches_writeAtomicKeepOwner; [done..|]. intros q. apply HS. by right. }
  pose proof touches_verifiedFile. unfold put_back, restore_admission. touches.
Qed.

(** What an atomic write that succeeded left in the two files. *)
Lemma atomic_ok p q data mode owner w u w' : p ∈ key_paths cfg -> q ∈ key_paths cfg -> q <> p ->
  writeAtomicAs p data mode owner w = (Ok u, w') ->
  content (fs w') p = Some data /\ content (fs w') q = content (fs w) q.
Proof.
  intros Hp Hq Hne Hr. destruct (key_not_temp cfg HP _ Hp) as [H1' H2']. destruct u.
  destruct (writeAtomicAs_spec anything system_anything _ _ _ _ _ _ _ H1' H2' Hr) as (_ & Hw & Hok).
  destruct (Hok eq_refl) as (x & Hx & Hd & _). split; [unfold content; by rewrite Hx, <- Hd|].
  by eapply (writing_keeps cfg HP).
Qed.

Lemma keep_owner_ok p q data mode w u w' : p ∈ key_paths cfg -> q ∈ key_paths cfg -> q <> p ->
  writeAtomicKeepOwner p data mode w = (Ok u, w') ->
  content (fs w') p = Some data /\ content (fs w') q = content (fs w) q.
Proof.
  intros Hp Hq Hne (info & w1 & [Hf _]%stat_inv & Hr)%try_ok.
  destruct info; apply (atomic_ok _ q) in Hr as [? Hq']; try done; unfold content in *; by rewrite <- Hf.
Qed.

(** Putting the copies back restores the content, and telemt confirms version
    and admission. *)
Lemma put_back_ok f ctx j w u w' : armed cfg f j (fs w) -> put_back cfg ctx j w = (Ok u, w') ->
  same_content cfg f (fs w') /\ runs_version (j_Version j) w w' /\
  (HadWeb j = true -> admission_is (j_AdmissionOpen j) w w').
Proof.
  intros (_ & _ & HB & HC & (b & Hfb & Hgb & Hsb) & (c & Hfc & Hgc & Hsc)) Hr.
  unfold put_back in Hr. rewrite HB, HC, !String.eqb_refl in Hr.
  cbn [negb orb] in Hr. destruct (key_ne cfg HP) as (N1 & _).
  apply try_ok in Hr as (xb & w1 & Hvb & Hr). pose proof (touches_verifiedFile anything system_anything nothing kg (BinarySHA j)) as Tb.
  assert (L1 : later w w1) by (eapply touches_later; [exact Tb|exact Hvb]).
  apply verifiedFile_ok in Hvb as (F1 & fb & Efb & <- & _).
  apply try_ok in Hr as (xc & w2 & Hvc & Hr). pose proof (touches_verifiedFile anything system_anything nothing kg_config (ConfigSHA j)) as Tc.
  assert (L2 : later w1 w2) by (eapply touches_later; [exact Tc|exact Hvc]).
  apply verifiedFile_ok in Hvc as (F2 & fc & Efc & <- & _).
  apply try_ok in Hr as ([] & w3 & Hwb & Hr). apply try_ok in Hr as ([] & w4 & Hwc & Hr).
  apply try_ok in Hr as ([] & w5 & Hre & Hr). apply try_ok in Hr as ([] & w6 & Hver & Hr).
  apply wrapped_ok in Hre.
  assert (L3 : later w2 w3).
  { eapply (touches_later (or_path bin) anything); [|exact Hwb].
    destruct (key_not_temp cfg HP _ (in_key_bin cfg)). by apply touches_writeAtomic; [apply system_anything|..]. }
  assert (L4 : later w3 w4).
  { eapply (touches_later (or_path config) anything); [|exact Hwc].
    destruct (key_not_temp cfg HP _ (in_key_config cfg)). by apply touches_writeAtomicKeepOwner; [apply system_anything|..]. }
  assert (L5 : later w4 w5) by later_by Hre. assert (L6 : later w5 w6) by later_by Hver.
  assert (L7 : later w6 w') by (unfold restore_admission in Hr; later_by Hr).
  assert (F5 : fs w5 = fs w4) by (eapply (nothing_fs _ anything); [|exact Hre]; touches).
  assert (F6 : fs w6 = fs w5) by (eapply (nothing_fs _ anything); [|exact Hver]; touches).
  assert (F7 : fs w' = fs w6).
  { unfold restore_admission in Hr. eapply (nothing_fs _ anything); [|exact Hr]. touches. }
  apply (atomic_ok bin config) in Hwb as [Cb _]; [|apply in_key_bin|apply in_key_config|congruence].
  apply (keep_owner_ok config bin) in Hwc as [Cc Cb']; [|apply in_key_config|apply in_key_bin|congruence].
  assert (L05 : later w w5) by (do 4 (eapply later_trans; [eassumption|]); done).
  split_and!.
  - unfold same_content. rewrite F7, F6, F5, Cb', Cb, Cc, Hfb, Hfc, <- Hgb, <- Hgc. unfold content.
    rewrite Efb. rewrite F1 in Efc. by rewrite Efc.
  - apply verifyTelemtVersion_ok in Hver. eapply asked_mono; [exact L05|exact Hver|done].
  - intros Hweb. unfold restore_admission in Hr. rewrite Hweb in Hr.
    apply try_ok in Hr as ([] & w7 & Hadm & Hr). apply try_ok in Hr as (st & w8 & Hst & Hr).
    apply ret_inv in Hr as [Hr <-]. destruct (OperatorLifecycle st) as [lc|] eqn:El; [|done].
    destruct (Bool.eqb _ _) eqn:Eq; [|done]. apply Bool.eqb_prop in Eq.
    apply get_status_asked in Hst. eapply later_asked; [|eapply asked_weaken; [|exact Hst]; intros s ->; eauto].
    eapply later_trans; [exact L05|]. eapply later_trans; [exact L6|later_by Hadm].
Qed.

(** A step that touches nothing, run from armed files. *)
Lemma armed_quiet A f j (m : M A) w a w' : touches nothing anything m -> m w = (a, w') -> armed cfg f j (fs w) ->
  spans anything (recovering f j) w w' /\ fs w' = fs w.
Proof.
  intros Ht Hw Ha. pose proof (nothing_fs _ _ _ _ _ _ Ht Hw) as Hf. split; [|done].
  eapply spans_mono; [done| |exact (touches_spans _ _ _ _ _ _ _ Ht Hw)]. intros g Hg. left.
  assert (g = fs w) as -> by (apply map_eq; intros p; symmetry; apply Hg; intros []). done.
Qed.

(** Writing the closed journal over an armed one, with the files back. *)
Lemma closing_spec f j e w r w' : armed cfg f j (fs w) -> same_content cfg f (fs w) ->
  writeUpdateJournal cfg (closed j UpdateOutcomeRolledBack e) w = (r, w') ->
  spans anything (recovering f j) w w' /\ recovering f j (fs w') /\ same_content cfg f (fs w') /\
  (r = Ok tt -> finished cfg UpdateOutcomeRolledBack (fs w')).
Proof.
  intros Ha Hc Hw. destruct (writeUpdateJournal_spec cfg HP _ _ _ _ Hw) as [(s & Hm & Hsp & Hwr & Hok)|[[x ->] ->]];
    [|split_and!; [by exists []|by left|done|done]].
  destruct (key_ne_journal cfg HP) as (N1 & N2 & N3 & N4 & N5 & N6 & N7 & N8 & N9).
  assert (HI : forall g, writing journal s (fs w) g -> recovering f j g /\ same_content cfg f g).
  { intros g Hg.
    assert (Hk : forall p, p ∈ key_paths cfg -> p <> journal -> content g p = content (fs w) p).
    { intros p Hp Hne. by eapply (writing_keeps cfg HP). }
    assert (Hs : same_content cfg f g).
    { eapply same_content_trans; [exact Hc|]. split; (apply Hk; [first [apply in_key_bin|apply in_key_config]|done]). }
    split; [|done]. destruct Hg as [_ [Hj|(y & Hy & Hd)]].
    - left. eapply armed_mono; [|apply Hk; [apply in_key_kg|done]|apply Hk; [apply in_key_kg_config|done]|exact Ha].
      unfold content. by rewrite Hj.
    - right. split; [done|]. eexists s, _.
      split_and!; [unfold content; by rewrite Hy, <- Hd|by apply unmarshal_marshal|done|done]. }
  split_and!; [eapply spans_mono; [done| |exact Hsp]; apply HI|by apply HI|by apply HI|].
  intros Hr. eexists s, _. split_and!; [by apply Hok|by apply unmarshal_marshal|done|done].
Qed.

(** What a recovery under the lock does with armed files. *)
Lemma recover_active_spec f j ctx w r w' : armed cfg f j (fs w) -> recover_active cfg ctx j w = (r, w') ->
  spans anything (recovering f j) w w' /\ recovering f j (fs w') /\
  (r = Ok tt -> same_content cfg f (fs w') /\ finished cfg UpdateOutcomeRolledBack (fs w') /\
   runs_version (j_Version j) w w' /\ (HadWeb j = true -> admission_is (j_AdmissionOpen j) w w')).
Proof.
  intros Ha Hr. apply bind_inv in Hr as (t & w0 & [-> <-]%clock_inv & Hr).
  pose proof (touches_put_back (with_timeout ctx rollbackTimeout (now w)) j) as Tp.
  assert (Hput : forall x w1, put_back cfg (with_timeout ctx rollbackTimeout (now w)) j w = (x, w1) ->
            spans anything (recovering f j) w w1 /\ armed cfg f j (fs w1)).
  { intros x w1 Hp. split; [|eapply (armed_swapped cfg HP); [exact (touches_fs _ _ _ _ _ _ _ Tp Hp)|done]].
    eapply spans_mono; [done| |exact (touches_spans _ _ _ _ _ _ _ Tp Hp)].
    intros g Hg. left. by eapply (armed_swapped cfg HP). }
  apply try_inv in Hr as [(e & Hp & ->)|(x & w1 & Hp & Hr)];
    destruct (Hput _ _ Hp) as [S1 A1]; [split_and!; [done|by left|done]|].
  destruct (put_back_ok _ _ _ _ _ _ Ha Hp) as (C1 & V1 & D1).
  assert (Hw1 : forall jj y w2, writeUpdateJournal cfg jj w1 = (y, w2) -> later w1 w2).
  { intros jj y w2 Hx. eapply (touches_later (closing cfg) anything); [|exact Hx].
    apply (touches_writeUpdateJournal cfg HP); [apply system_anything|done]. }
  apply try_inv in Hr as [(e & Hw & ->)|([] & w2 & Hw & Hr)];
    destruct (closing_spec _ _ _ _ _ _ A1 C1 Hw) as (S2 & R2 & C2 & F2).
  { split_and!; [by eapply spans_trans|done|done]. }
  specialize (F2 eq_refl). pose proof (Hw1 _ _ _ Hw) as L1.
  match type of Hr with ?m _ = _ => assert (T3 : touches nothing anything m) by touches end.
  pose proof (nothing_fs _ _ _ _ _ _ T3 Hr) as F3. pose proof (touches_later _ _ _ _ _ _ _ T3 Hr) as L2.
  assert (L : later w1 w') by by eapply later_trans. rewrite F3.
  split_and!; [|done|intros _; split_and!; [done|done|by eapply asked_later|intros Hweb; eapply asked_later; [by apply D1|done]]].
  eapply spans_trans; [exact S1|]. eapply spans_trans; [exact S2|].
  eapply spans_mono; [done| |exact (touches_spans _ _ _ _ _ _ _ T3 Hr)]. intros g Hg.
  assert (g = fs w2) as -> by (apply map_eq; intros p; symmetry; apply Hg; intros []). done.
Qed.

(** A recovery from armed files gives up before it touches anything, or runs
    under the lock. *)
Lemma recoverUpdate_cases f j ctx w r w' : armed cfg f j (fs w) -> recoverUpdate cfg ctx w = (r, w') ->
  (spans anything (recovering f j) w w' /\ fs w' = fs w /\ (cfg_Engine cfg = EngineTelemt -> r <> Ok tt)) \/
  (exists w1 w2, spans anything (recovering f j) w w1 /\ fs w1 = fs w /\
     recover_active cfg ctx j w1 = (r, w2) /\ w' = (set_maintenance false w2).2).
Proof.
  intros Ha Hr. unfold recoverUpdate in Hr.
  destruct (String.eqb_spec (cfg_Engine cfg) EngineTelemt) as [_|Hne]; cbn [negb] in Hr.
  2: { apply ret_inv in Hr as [_ <-]. left. split_and!; [by exists []|done|done]. }
  assert (Tr : touches nothing anything (read_file journal)) by touches.
  apply try_inv in Hr as [(e & Hrd & ->)|(b & w1 & Hrd & Hr)];
    destruct (armed_quiet _ f j _ _ _ _ Tr Hrd Ha) as [S1 F1]; [left; by split_and!|].
  apply read_file_inv in Hrd as (_ & _ & [[= ->]|[? [=]]]).
  pose proof Ha as ((s & Hs & Hj) & Hact & _). rewrite Hs, Hj, Hact in Hr. cbn [negb] in Hr.
  unfold try_lock in Hr. apply bind_inv in Hr as (lk & w2 & Hl & Hr). destruct (maintenance w1).
  - injection Hl as <- <-. apply ret_inv in Hr as [<- <-]. left. by split_and!.
  - injection Hl as <- <-. cbn [negb] in Hr. apply bind_inv in Hr as (r' & w2 & Hra & Hr).
    apply bind_inv in Hr as (u & w3 & Hm & [<- <-]%ret_inv). right.
    exists ((set_maintenance true w1).2), w2. split_and!; [exact S1|exact F1|exact Hra|]. by injection Hm as <-.
Qed.

(** C13: a crash loses nothing: from files an interrupted update left with an
    active journal, a recovery that returns without error has put back the
    binary and the config the update found, had telemt report the version it
    found and the admission it found, and closed the journal as rolled back. *)
Theorem recovery_restores f j ctx w w' :
  armed cfg f j (fs w) -> cfg_Engine cfg = EngineTelemt -> recoverUpdate cfg ctx w = (Ok tt, w') ->
  same_content cfg f (fs w') /\ finished cfg UpdateOutcomeRolledBack (fs w') /\
  runs_version (j_Version j) w w' /\ (HadWeb j = true -> admission_is (j_AdmissionOpen j) w w').
Proof.
  intros Ha He [(_ & _ & Hno)|(w1 & w2 & S1 & F1 & Hra & ->)]%(recoverUpdate_cases f j); [by destruct (Hno He)| |done].
  rewrite <- F1 in Ha. destruct (recover_active_spec _ _ _ _ _ _ Ha Hra) as (_ & _ & Hok).
  destruct (Hok eq_refl) as (C & F & V & D). assert (L : later w w1) by (destruct S1 as (l & ? & _); by exists l).
  split_and!; [done|done|exact (later_asked _ _ _ _ _ _ L V)|]. intros Hweb. exact (later_asked _ _ _ _ _ _ L (D Hweb)).
Qed.

(** C15: recovery can itself be killed: at every instant of it the journal is
    still active with its verified copies, or the files are back and the journal
    is closed, whether the recovery succeeds or not. *)
Theorem recovery_crash_safe f j ctx w r w' :
  armed cfg f j (fs w) -> recoverUpdate cfg ctx w = (r, w') ->
  spans anything (recovering f j) w w' /\ recovering f j (fs w').
Proof.
  intros Ha [(S1 & -> & _)|(w1 & w2 & S1 & F1 & Hra & ->)]%(recoverUpdate_cases f j); [split; [done|by left]| |done].
  rewrite <- F1 in Ha. destruct (recover_active_spec _ _ _ _ _ _ Ha Hra) as (S2 & R2 & _).
  split; [|done]. by eapply spans_trans.
Qed.

End Recovery.

(** ** The drain ends *)

Section DrainEnds.
Context `{Outside}.
Context (cfg : Config).
Local Open Scope go_scope.

Lemma advances_get_status ctx : advances (get_status ctx).
Proof.
  apply advances_bind; [|intros []; apply advances_ret]. apply advances_bind; [apply advances_control|].
  intros [st|e]; [|apply advances_ret]. cbv zeta. destruct (String.eqb (top_RuntimeInstance _) _); [apply advances_ret|].
  apply advances_bind; [by apply advances_same|]. intros []. apply advances_ret.
Qed.

Lemma advances_update_with f : advances (update_with f).
Proof. by apply advances_same. Qed.

Lemma advances_drain_once ctx : advances (drain_once ctx).
Proof.
  assert (Hf : forall e, advances (r ← drain_fail e; mret (Some r))).
  { intros e. apply advances_bind; [|intros; apply advances_ret].
    apply advances_bind; [apply advances_update_with|intros; apply advances_ret]. }
  apply advances_bind; [apply advances_get_status|]. intros [st|e]; [|apply Hf].
  destruct (OperatorLifecycle st) as [lc|]; [|apply Hf]. destruct (Drain lc) as [d|]; [|apply Hf]. cbv zeta.
  apply advances_bind; [apply advances_update_with|]. intros [].
  destruct (String.eqb _ _); [apply Hf|]. destruct (_ || _); [|apply advances_ret]. destruct (_ || _); [apply Hf|].
  apply advances_bind; [apply advances_update_with|]. intros []. apply advances_bind; [apply advances_update_with|].
  intros []. apply advances_ret.
Qed.

(** A look after the end of the context gives the drain up. *)
Lemma drain_once_late d w : d < now w -> (drain_once (Some d) w).1 <> None.
Proof.
  intros Hd. unfold drain_once, get_status, textual, WebStatus_, control, mbind, M_bind. cbn.
  destruct (Z.leb_spec d (now w)); [|lia]. cbn. unfold drain_fail, fail_step, mbind, M_bind. by destruct (finish _ _ _ _).
Qed.

Lemma updatePollInterval_pos : 0 < updatePollInterval cfg.
Proof. unfold updatePollInterval. destruct (Z.gtb_spec (updatePoll cfg) 0); [lia|]. unfold defaultUpdatePoll. time_lia. Qed.

(** A drain ends: from the moment telemt accepted it the agent looks at
    most as often as the drain timeout and its grace allow, so a larger bound
    on the looks never changes the result. *)
Theorem updateDrain_terminates ctx secs w m :
  (drain_fuel cfg secs <= m)%nat ->
  let grace := secs * Tm.second + 5 * Tm.second in
  let drainCtx := with_timeout ctx grace (now w) in
  poll m drainCtx (updatePollInterval cfg) (drain_once drainCtx) drain_fail w =
  poll (drain_fuel cfg secs) drainCtx (updatePollInterval cfg) (drain_once drainCtx) drain_fail w.
Proof.
  intros Hm grace drainCtx. unfold drain_fuel in *. destruct m as [|m]; [lia|].
  apply (poll_total _ _ _ _ _ (now w + grace)); [apply updatePollInterval_pos|apply advances_drain_once| | |lia].
  - intros w0 Hw0. unfold drainCtx, with_timeout. destruct ctx as [e|]; apply drain_once_late; lia.
  - pose proof updatePollInterval_pos as Hp.
    pose proof (Z.mul_succ_div_gt grace (updatePollInterval cfg) Hp). unfold grace in *. nia.
Qed.

End DrainEnds.

Section Start.
Context `{Outside} `{JournalCodec} `{Archive}.
Context (cfg : Config).
Local Open Scope go_scope.

(** A journal that does not stop an update is absent or closed. *)
Lemma checkUpdateJournal_ok w w' : checkUpdateJournal cfg w = (Ok tt, w') ->
  forall s, content (fs w) (updateJournalPath cfg) = Some s -> exists j, unmarshal s = Ok j /\ Active j = false.
Proof.
  intros (b & w1 & Hb & Hr)%try_ok. apply read_file_inv in Hb as (_ & _ & [[= ->]|[? [=]]]).
  intros s Hs. rewrite Hs in Hr. destruct (unmarshal s) as [j|e]; [|by apply ret_inv in Hr as [[=] _]].
  exists j. destruct (Active j); [by apply ret_inv in Hr as [[=] _]|done].
Qed.

Lemma respects_checkUpdateJournal R : plain R -> respects R (checkUpdateJournal cfg).
Proof. intros HR. unfold checkUpdateJournal. respects. Qed.

(** One maintenance at a time: a start changes no file and sends telemt
    nothing.  It is accepted only when no maintenance holds the lock, no update
    is running and the journal, if there is one, reads and is closed; it then
    holds the lock and tracks the new update.  A refusal leaves the lock and
    the tracked update as they were. *)
Theorem start_exclusive req w r w' : StartTelemtUpdate cfg req w = (r, w') ->
  spans harmless (same_off nothing (fs w)) w w' /\ fs w' = fs w /\
  match r with
  | Ok u => maintenance w = false /\ maintenance w' = true /\ upd w' = Some u /\ Phase u = UpdatePhaseRunning /\
      (forall v, upd w = Some v -> Phase v <> UpdatePhaseRunning) /\
      (forall s, content (fs w) (updateJournalPath cfg) = Some s -> exists j, unmarshal s = Ok j /\ Active j = false)
  | Err _ => maintenance w' = maintenance w /\ upd w' = upd w
  end.
Proof.
  intros Hr. assert (Ht : touches nothing harmless (StartTelemtUpdate cfg req)).
  { unfold StartTelemtUpdate. pose proof (touches_checkUpdateJournal cfg nothing harmless system_harmless). touches. }
  split; [exact (touches_spans _ _ _ _ _ _ _ Ht Hr)|]. split; [exact (nothing_fs _ _ _ _ _ _ Ht Hr)|].
  unfold StartTelemtUpdate in Hr. destruct (negb _); [by apply ret_inv in Hr as [<- <-]|].
  apply bind_inv in Hr as (lk & w1 & Hl & Hr). unfold try_lock in Hl.
  destruct (maintenance w) eqn:Em; injection Hl as <- <-; cbn [negb] in Hr.
  { by apply ret_inv in Hr as [<- <-]. }
  apply bind_inv in Hr as (j & w2 & Hj & Hr).
  pose proof (respects_checkUpdateJournal _ plain_same_upd (set_maintenance true w).2) as Hu.
  pose proof (respects_checkUpdateJournal _ plain_same_maintenance (set_maintenance true w).2) as Hm.
  cbn [set_maintenance snd] in Hu, Hm. rewrite Hj in Hu, Hm. unfold same_upd, same_maintenance in *. cbn in Hu, Hm.
  destruct j as [[]|e].
  2: { apply bind_inv in Hr as (x & w3 & [= _ <-] & [<- <-]%ret_inv). by split. }
  apply bind_inv in Hr as (run & w3 & [= <- <-] & Hr). rewrite Hu in Hr.
  destruct (match upd w with Some u => _ | None => _ end) eqn:Erun.
  { apply bind_inv in Hr as (x & w3 & [= _ <-] & [<- <-]%ret_inv). by split. }
  apply bind_inv in Hr as (u & w3 & Hn & Hr).
  assert (Hph : Phase u = UpdatePhaseRunning /\ maintenance w3 = maintenance w2).
  { apply bind_inv in Hn as (id & w4 & Hid & Hn). apply bind_inv in Hn as (t & w5 & [_ <-]%clock_inv & [<- <-]%ret_inv).
    split; [done|]. pose proof (respects_perform _ plain_same_maintenance _ NewUUID w2) as Hp. by rewrite Hid in Hp. }
  apply bind_inv in Hr as (x & w4 & [= _ <-] & [<- <-]%ret_inv).
  split_and!; cbn; [done|by rewrite (proj2 Hph)|done|apply Hph| |exact (checkUpdateJournal_ok _ _ Hj)].
  intros v Hv. rewrite Hv in Erun. by apply String.eqb_neq in Erun.
Qed.

End Start.
