(* ===== verification/UpdateSim.v ===== *)
(** * A simulated node

    A concrete telemt, disk and panel behind the [Outside] of [Node], a
    journal codec and an archive format, and runs of the update code on them:
    the witnesses that the theorems of [UpdateSafety] and [UpdateRecovery]
    speak of runs that exist. *)

From S2P Require Import Prelude Crypto TelemtTypes Capabilities Node NodeLogic AgentFiles TelemtClient Upgrade UpdateState UpdateJournal TelemtUpdate UpdateSpecs UpdateSafety UpdateRecovery.

Module Sim.

(** ** A text for journals: fields of escaped bytes *)

Fixpoint field (s : string) : string :=
  match s with
  | EmptyString => ";"
  | String c s => String "'" (String c (field s))
  end.

Definition fields (l : list string) : string := foldr (fun s t => field s +:+ t) EmptyString l.

(** The fields of a text; [acc] is the field read so far, reversed. *)
Fixpoint read_fields (s : string) : option (list string) :=
  match s with
  | EmptyString => Some []
  | String q s =>
      if Ascii.eqb q ";" then cons EmptyString <$> read_fields s
      else match s with
           | EmptyString => None
           | String c s =>
               match read_fields s with
               | Some (f :: l) => Some (String c f :: l)
               | _ => None
               end
           end
  end.

Lemma read_field s t l : read_fields t = Some l -> read_fields (field s +:+ t) = Some (s :: l).
Proof.
  intros Ht. induction s as [|c s IH]; cbn [field].
  - change (cons EmptyString <$> read_fields t = Some (EmptyString :: l)). by rewrite Ht.
  - rewrite !Str.append_cons. cbn [read_fields]. by rewrite IH.
Qed.

Lemma read_fields_fields l : read_fields (fields l) = Some l.
Proof. induction l as [|s l IH]; [done|]. by apply read_field. Qed.

(** A positive number in binary digits, the lowest digit first. *)
Fixpoint bits (p : positive) : string :=
  match p with
  | xH => "1"
  | xO p => String "o" (bits p)
  | xI p => String "i" (bits p)
  end.

Fixpoint read_bits (s : string) : positive :=
  match s with
  | String c s => if Ascii.eqb c "o" then xO (read_bits s) else if Ascii.eqb c "i" then xI (read_bits s) else xH
  | EmptyString => xH
  end.

Lemma read_bits_bits p : read_bits (bits p) = p.
Proof. induction p as [p IH|p IH|]; cbn; by rewrite ?IH. Qed.

Definition number (z : Z) : string :=
  match z with Z0 => "0" | Zpos p => String "+" (bits p) | Zneg p => String "-" (bits p) end.

Definition read_number (s : string) : Z :=
  match s with
  | String c s => if Ascii.eqb c "+" then Zpos (read_bits s) else if Ascii.eqb c "-" then Zneg (read_bits s) else Z0
  | EmptyString => Z0
  end.

Lemma read_number_number z : read_number (number z) = z.
Proof. destruct z as [|p|p]; cbn; by rewrite ?read_bits_bits. Qed.

Definition flag (b : bool) : string := if b then "t" else "f".

Definition journal_text (j : updateJournal) : string :=
  fields [j_Outcome j; j_Error j; Target j; flag (Active j); j_Version j; Binary j; BinarySHA j; j_Config j;
          ConfigSHA j; flag (HadWeb j); flag (j_AdmissionOpen j); number (Started j)].

Definition read_journal (s : string) : result updateJournal :=
  match read_fields s with
  | Some [o; e; t; a; v; b; bs; c; cs; h; ad; st] =>
      Ok {| j_Outcome := o; j_Error := e; Target := t; Active := String.eqb a "t"; j_Version := v; Binary := b;
            BinarySHA := bs; j_Config := c; ConfigSHA := cs; HadWeb := String.eqb h "t";
            j_AdmissionOpen := String.eqb ad "t"; Started := read_number st |}
  | _ => Err "no journal"
  end.

Lemma flag_eqb b : String.eqb (flag b) "t" = b.
Proof. by destruct b. Qed.

#[export] Instance journal_codec : JournalCodec.
Proof.
  refine {| marshal j := Ok (journal_text j); unmarshal := read_journal |}. intros j s [= <-]. unfold read_journal, journal_text.
  rewrite read_fields_fields, !flag_eqb, read_number_number. by destruct j.
Defined.

(** An archive is one telemt executable. *)
#[export] Instance archive : Archive := {| tar_items s := Ok [Entry true "bin/telemt" s None] |}.

(** ** telemt and the panel *)

Record telemt := {
  running : string;      (** content of the binary telemt was started from *)
  open : bool;           (** WEB admission *)
  draining : option Z;   (** sessions left of a drain *)
  seed : Z;
  payload : string;      (** what the panel serves *)
  has_web : bool         (** whether telemt has a WEB runtime *)
}.

Definition binary : string := "/opt/telemt/telemt".

Definition status (t : telemt) : WebStatus :=
  {| top_RuntimeInstance := "i1";
     OperatorLifecycle := Some {|
       lifecycle_State := match draining t with Some 0 => WebLifecycleDrained | Some _ => "draining" | None => "serving" end;
       AdmissionOpen := open t;
       Drain := (fun n => {| drain_State := if n =? 0 then "completed" else "running"; RemainingSessions := n;
                             RemainingStreams := 2 * n; RemainingWebsockets := 0 |}) <$> draining t |};
     runtime_RuntimeInstance := EmptyString; HasLearning := false; HasCarrierNegotiation := true |}.

Definition with_open (t : telemt) (b : bool) (d : option Z) : telemt :=
  {| running := running t; open := b; draining := d; seed := seed t; payload := payload t; has_web := has_web t |}.

(** A build whose binary says [broken] never becomes ready. *)
Definition answer {A} (c : call A) (t : telemt) : (A + apierror) * telemt :=
  match c in call A return (A + apierror) * telemt with
  | GetSystemInfo => (inl {| TelemtTypes.Version := running t |}, t)
  | GetReady => (inl {| Ready := negb (Str.has_prefix (running t) "broken"); Reason := "booting" |}, t)
  | GetConfig => (inl ([], EmptyString), t)
  | GetWebStatus =>
      if has_web t then (inl (status t), with_open t (open t) ((fun n => Z.max 0 (n - 1)) <$> draining t))
      else (inr (APIError 404 "not_found" "no such route"), t)
  | PostPause _ => (inl tt, with_open t false None)
  | PostResume _ => (inl tt, with_open t true None)
  | PostDrain _ _ => (inl tt, with_open t false (Some 2))
  | GetUpstreams => (inl {| us_Enabled := true; Upstreams := [] |}, t)
  | PatchConfig _ _ => (inl {| RestartRequired := false; RuntimeReloadRequired := false; ProcessRestartRequired := false; DeferredProcessFields := [] |}, t)
  | _ => (inr (APIError 404 "not_found" "no such route"), t)
  end.

Definition sim_react (A : Type) (e : effect A) (f : files) (t : telemt) : A * Z * telemt :=
  match e in effect A return A * Z * telemt with
  | Fault _ => (None, 0, t)
  | ShortWrite _ => (O, 0, t)
  | Random => (seed t, 0, {| running := running t; open := open t; draining := draining t; seed := seed t + 1; payload := payload t; has_web := has_web t |})
  | NewUUID => ("job", 0, t)
  | Select => (false, 0, t)
  | Exec _ => ((EmptyString, None), Tm.millisecond,
      {| running := default EmptyString (content f binary); open := true; draining := None; seed := seed t; payload := payload t; has_web := has_web t |})
  | Get _ => (Ok {| resp_status := 200; resp_body := payload t; resp_body_err := None |}, Tm.second, t)
  | Decoy => (None, 0, t)
  | Fetch _ _ => (Err "unreachable"%string, 0, t)
  | Rewritten _ => (None, 0, t)
  | Dial _ _ => (None, 0, t)
  | Control c => let '(a, t) := answer c t in (a, Tm.millisecond, t)
  end.

#[export] Instance node : Outside := {| outside := telemt; umask := 18; self := (0, 0); react := sim_react |}.

Definition cfg : Config :=
  {| StateDir := "/var/lib/agent"; TelemtConfigPath := "/etc/telemt/telemt.toml"; TelemtBin := binary;
     HealthWait := Tm.second; cfg_Engine := EngineTelemt; updatePoll := 0;
     TelemtSiteDir := "/srv/telemt-site"; RelaySiteDir := "/srv/tproxy-site"; ReloadWait := 60 * Tm.second;
     ProfilesPath := "/etc/tproxy-server/profiles.json"; MTProxyEnvPath := "/etc/mtproxy/mtproxy.env";
     TProxyBin := "/usr/local/bin/tproxy-server"; ConfigPath := "/etc/tproxy-server/config.json"; RelayAdminURL := "http://127.0.0.1:8081" |}.

Definition a_file (s : string) : File := {| fdata := s; fmode := 493; fowner := (0, 0) |}.

(** A node with open admission, whose panel serves [build]. *)
Definition start_on (version : string) (web : bool) (build : string) : world :=
  {| now := 1700000000000000000; fs := {[ binary := a_file version; "/etc/telemt/telemt.toml" := a_file "port = 1" ]};
     events := []; out := {| running := version; open := true; draining := None; seed := 7; payload := build; has_web := web |};
     instance := EmptyString; upd := None; maintenance := false |}.

Definition start : string -> world := start_on "3.5.7" true.

Definition request (sha : string) : UpdateTelemtRequest :=
  {| req_Version := "3.5.8"; req_SHA256 := sha; req_URL := "https://panel/telemt.tgz"; DrainTimeoutSecs := 30; RequireDrain := true |}.

Definition good : UpdateTelemtRequest := request (Sha.hex "3.5.8").
Definition bad : UpdateTelemtRequest := request (Sha.hex "broken").

(** The node when an update was accepted, and after it ran. *)
Definition before (build : string) (req : UpdateTelemtRequest) : world := (StartTelemtUpdate cfg req (start build)).2.
Definition after (build : string) (req : UpdateTelemtRequest) : world :=
  (runTelemtUpdate cfg None req (before build req)).2.

(** A telemt without a WEB runtime, updated to a build that does not come up. *)
Definition plain_request : UpdateTelemtRequest :=
  {| req_Version := "3.5.8"; req_SHA256 := Sha.hex "broken"; req_URL := "https://panel/telemt.tgz"; DrainTimeoutSecs := 30; RequireDrain := false |}.
Definition after_plain : world :=
  (runTelemtUpdate cfg None plain_request (StartTelemtUpdate cfg plain_request (start_on "3.4.0" false "broken")).2).2.

(** The tracked update ended with this outcome. *)
Definition ends (w : world) (o : string) : bool :=
  match upd w with Some u => String.eqb (Outcome u) o | None => false end.

Lemma ends_upd w o : ends w o = true -> exists u, upd w = Some u /\ Outcome u = o.
Proof. unfold ends. destruct (upd w) as [u|]; [|done]. intros ?%String.eqb_eq. by exists u. Qed.

Lemma run_eq build req : runTelemtUpdate cfg None req (before build req) = (tt, after build req).
Proof. unfold after. by destruct (runTelemtUpdate _ _ _ _) as [[] w]. Qed.

Lemma cfg_paths : paths_ok cfg.
Proof.
  assert (E : key_paths cfg = ["/opt/telemt/telemt"; "/etc/telemt/telemt.toml"; "/opt/telemt/telemt.prev";
    "/etc/telemt/telemt.toml.prev"; "/var/lib/agent/telemt-update-journal.json"; "/var/lib/agent/telemt-known-good";
    "/var/lib/agent/telemt-known-good.toml"]%string) by by vm_compute.
  split; [rewrite E|rewrite E|done].
  - repeat (apply NoDup_cons; split;
      [repeat (apply not_elem_of_cons; split; [discriminate|]); apply not_elem_of_nil|]).
    apply NoDup_nil_2.
  - repeat constructor; by vm_compute.
Qed.

(** The files of a run killed right after the swap, and the journal it left. *)
Definition plan : updatePlan :=
  {| preserveClosed := false; installed := "3.5.7"; drain := true; pause := true; resume := true;
     drainSkip := EmptyString; hadWeb := true |}.

Definition killed : world :=
  let w := (stageTelemtBinary cfg bad (before "broken" bad)).2 in
  let w := (prepareUpdateJournal cfg None plan "3.5.8" w).2 in
  let w := (swapTelemtBinary cfg "/opt/telemt/.telemt.new" w).2 in
  {| now := now w; fs := fs w; events := []; out := out w; instance := EmptyString; upd := None; maintenance := false |}.

Definition killed_journal : updateJournal :=
  match content (fs killed) (updateJournalPath cfg) with
  | Some s => match unmarshal s with Ok j => j | Err _ => closed (Build_updateJournal EmptyString EmptyString EmptyString true EmptyString EmptyString EmptyString EmptyString EmptyString true true 0) EmptyString EmptyString end
  | None => closed (Build_updateJournal EmptyString EmptyString EmptyString true EmptyString EmptyString EmptyString EmptyString EmptyString true true 0) EmptyString EmptyString
  end.

Definition recovered : world := (recoverUpdate cfg None killed).2.

Lemma killed_armed : armed cfg (fs (start "broken")) killed_journal (fs killed).
Proof.
  assert (Hj : content (fs killed) (updateJournalPath cfg) = Some (journal_text killed_journal)) by (vm_compute; reflexivity).
  refine (conj (ex_intro _ _ (conj Hj _)) (conj _ (conj _ (conj _ (conj _ _))))); [apply unmarshal_marshal; reflexivity|..].
  1-3: vm_compute; reflexivity.
  - exists "3.5.7"%string. repeat (apply conj; [vm_compute; reflexivity|]). vm_compute; reflexivity.
  - exists "port = 1"%string. repeat (apply conj; [vm_compute; reflexivity|]). vm_compute; reflexivity.
Qed.

End Sim.

Import Sim.

(** The broken build took the binary's place when the run was killed. *)
Example killed_after_swap : content (fs killed) binary = Some "broken".
Proof. by vm_compute. Qed.

(** On a telemt without a WEB runtime a rollback that put everything back is
    reported as failed, and the journal stays active. *)
Example rollback_without_web :
  ends after_plain UpdateOutcomeRollbackFailed = true /\
  content (fs after_plain) binary = Some "3.4.0" /\ running (out after_plain) = "3.4.0" /\
  (checkUpdateJournal cfg after_plain).1 <> Ok tt.
Proof.
  split; [by vm_compute|]. split; [by vm_compute|]. split; [by vm_compute|].
  assert (He : match (checkUpdateJournal cfg after_plain).1 with Err _ => true | Ok _ => false end = true) by by vm_compute.
  by destruct (checkUpdateJournal cfg after_plain).1.
Qed.

Lemma update_crash_safe_witness :
  ends (after "broken" bad) UpdateOutcomeRolledBack = true /\
  spans anything (fun g =>
    same_content cfg (fs (before "broken" bad)) g \/ (exists j, armed cfg (fs (before "broken" bad)) j g) \/
    (exists o, finished cfg o g /\ consistent cfg (req_SHA256 bad) (fs (before "broken" bad)) g o))
    (before "broken" bad) (after "broken" bad).
Proof. split; [by vm_compute|]. exact (update_crash_safe cfg cfg_paths None bad _ tt _ (run_eq _ _)). Defined.

Lemma refused_touches_nothing_witness :
  ends (after "broken" good) UpdateOutcomeRefused = true /\
  same_content cfg (fs (before "broken" good)) (fs (after "broken" good)).
Proof.
  assert (He : ends (after "broken" good) UpdateOutcomeRefused = true) by by vm_compute.
  destruct (ends_upd _ _ He) as (u & Hu & Ho). split; [exact He|].
  exact (proj2 (refused_touches_nothing cfg cfg_paths None good _ tt _ u (run_eq _ _) Hu Ho)).
Defined.

Lemma updated_runs_pinned_build_witness :
  ends (after "3.5.8" good) UpdateOutcomeUpdated = true /\
  runs_version "3.5.8" (before "3.5.8" good) (after "3.5.8" good).
Proof.
  assert (He : ends (after "3.5.8" good) UpdateOutcomeUpdated = true) by by vm_compute.
  destruct (ends_upd _ _ He) as (u & Hu & Ho). split; [exact He|].
  exact (proj2 (proj2 (updated_runs_pinned_build cfg cfg_paths None good _ tt _ u (run_eq _ _) Hu Ho))).
Defined.

Lemma rolled_back_restores_witness :
  ends (after "broken" bad) UpdateOutcomeRolledBack = true /\
  same_content cfg (fs (before "broken" bad)) (fs (after "broken" bad)).
Proof.
  assert (He : ends (after "broken" bad) UpdateOutcomeRolledBack = true) by by vm_compute.
  destruct (ends_upd _ _ He) as (u & Hu & Ho). split; [exact He|].
  exact (proj1 (rolled_back_restores cfg cfg_paths None bad _ tt _ u (run_eq _ _) Hu Ho)).
Defined.

Lemma required_drain_is_verified_witness :
  ends (after "3.5.8" good) UpdateOutcomeUpdated = true /\ drained (before "3.5.8" good) (after "3.5.8" good).
Proof.
  assert (He : ends (after "3.5.8" good) UpdateOutcomeUpdated = true) by by vm_compute.
  destruct (ends_upd _ _ He) as (u & Hu & Ho). split; [exact He|].
  apply (required_drain_is_verified cfg cfg_paths None good _ tt _ u (run_eq _ _) eq_refl Hu); by rewrite Ho.
Defined.

Lemma recovery_restores_witness :
  content (fs killed) binary = Some "broken" /\
  same_content cfg (fs (start "broken")) (fs recovered) /\ finished cfg UpdateOutcomeRolledBack (fs recovered) /\
  runs_version "3.5.7" killed recovered /\ admission_is true killed recovered.
Proof.
  split; [by vm_compute|]. destruct (recovery_restores cfg cfg_paths _ _ None _ recovered killed_armed eq_refl) as (C & F & V & D).
  - unfold recovered. assert (Hr : (recoverUpdate cfg None killed).1 = Ok tt) by by vm_compute. by destruct (recoverUpdate _ _ _); cbn in *; subst.
  - split_and!; [exact C|exact F| |].
    + replace "3.5.7"%string with (j_Version killed_journal) by by vm_compute. exact V.
    + replace true with (j_AdmissionOpen killed_journal) by by vm_compute. apply D. by vm_compute.
Defined.

Lemma recovery_crash_safe_witness :
  spans anything (recovering cfg (fs (start "broken")) killed_journal) killed recovered.
Proof.
  apply (recovery_crash_safe cfg cfg_paths _ _ None _ (recoverUpdate cfg None killed).1 _ killed_armed).
  apply surjective_pairing.
Defined.

Lemma waitTelemtReady_terminates_witness : (ready_fuel cfg <= 100)%nat /\
  waitTelemtReady cfg None (start "broken") =
  poll 100 None readyPoll (ready_once None (now (start "broken") + HealthWait cfg)) (fun e => mret (Err e)) (start "broken").
Proof.
  assert (Hf : (ready_fuel cfg <= 100)%nat) by (vm_compute; lia).
  split; [exact Hf|]. exact (waitTelemtReady_terminates cfg None (start "broken") 100 Hf).
Defined.

Lemma updateDrain_terminates_witness : (drain_fuel cfg 30 <= 100)%nat /\
  let ctx := with_timeout None (30 * Tm.second + 5 * Tm.second) (now (start "broken")) in
  poll 100 ctx (updatePollInterval cfg) (drain_once ctx) drain_fail (start "broken") =
  poll (drain_fuel cfg 30) ctx (updatePollInterval cfg) (drain_once ctx) drain_fail (start "broken").
Proof.
  assert (Hf : (drain_fuel cfg 30 <= 100)%nat) by (apply Nat.leb_le; by vm_compute).
  split; [exact Hf|]. exact (updateDrain_terminates cfg None 30 (start "broken") 100 Hf).
Defined.

Lemma start_exclusive_witness :
  let w := before "3.5.8" good in
  (StartTelemtUpdate cfg good (start "3.5.8")).2 = w /\ maintenance w = true /\
  spans harmless (same_off nothing (fs (start "3.5.8"))) (start "3.5.8") w.
Proof.
  cbv zeta. split; [done|]. split; [by vm_compute|].
  exact (proj1 (start_exclusive cfg good (start "3.5.8") _ _ (surjective_pairing _))).
Defined.
