(* ===== verification/UpgradeRun.v ===== *)
(** * The upgrade command of a node

    internal/agent/upgraderun.go: `tgwp-agent upgrade` reads the env file,
    asks the panel for its manifest ([FetchUpgradeManifest] of
    internal/agent/upgrade.go), plans, confirms and replaces each component,
    putting the previous binary back when the new one does not come up.

    What the command prints is not modelled, nor the address and the token of
    telemt's control API: every control client is the one of [TelemtClient].
    The JSON decoder of the manifest is the class [ManifestCodec]; the host's
    time zone, in which journalctl reads its start, is a parameter. *)

From S2P Require Import Prelude Crypto TelemtTypes Node NodeLogic AgentFiles Upgrade TelemtClient UpdateSpecs.

Class ManifestCodec := { decode_manifest : string -> option UpgradeManifest }.

(** The options after [withDefaults]; [CheckOnly] is the
    field Check, [Answer] the line typed at the prompt. *)
Record UpgradeOptions := {
  EnvPath : string;
  Scope : UpgradeScope;
  CheckOnly : bool;
  Yes : bool;
  TTY : bool;
  Answer : string;
  AgentBin : string;
  o_TelemtBin : string;
  o_HealthWait : Z
}.

Definition DefaultAgentEnvPath : string := "/etc/tgwp-agent/agent.env".
Definition DefaultAgentBin : string := "/usr/local/bin/tgwp-agent".
Definition DefaultTelemtBin : string := "/usr/local/bin/telemt".
Definition DefaultTelemtTokenPath : string := "/etc/telemt/api.token".
Definition UpgradePath : string := "/api/v1/node/upgrade".
Definition agentUnit : string := "tgwp-agent".
Definition telemtUnit : string := "telemt".

(** The fields [withDefaults] fills that the run depends on. *)
Definition withDefaults (o : UpgradeOptions) : UpgradeOptions :=
  let default_to d s := if String.eqb s EmptyString then d else s in
  {| EnvPath := default_to DefaultAgentEnvPath (EnvPath o); Scope := Scope o; CheckOnly := CheckOnly o; Yes := Yes o;
     TTY := TTY o; Answer := Answer o; AgentBin := default_to DefaultAgentBin (AgentBin o);
     o_TelemtBin := default_to DefaultTelemtBin (o_TelemtBin o);
     o_HealthWait := if o_HealthWait o =? 0 then 60 * Tm.second else o_HealthWait o |}.

(** The text of a [time.Duration]. *)
Module Dur.

(** The last [w] decimal digits of [n]. *)
Fixpoint digits (w : nat) (n : Z) (acc : string) : string :=
  match w with
  | O => acc
  | S w => digits w (n / 10) (String (Dec.digit (n mod 10)) acc)
  end.

(** [n] units of which [10^w] make one: the whole part and the fraction
    without trailing zeros. *)
Definition fraction (w : nat) (n : Z) : string :=
  let one := 10 ^ Z.of_nat w in
  Dec.itoa (n / one) +:+
  (if n mod one =? 0 then EmptyString else "." +:+ Str.trim_right_byte (digits w n EmptyString) "0").

Definition nonneg (d : Z) : string :=
  if d =? 0 then "0s"
  else if d <? Tm.microsecond then Dec.itoa d +:+ "ns"
  else if d <? Tm.millisecond then fraction 3 d +:+ "µs"
  else if d <? Tm.second then fraction 6 d +:+ "ms"
  else
    let secs := fraction 9 (d mod Tm.minute) +:+ "s" in
    if d <? Tm.minute then secs
    else if d <? Tm.hour then Dec.itoa (d / Tm.minute) +:+ "m" +:+ secs
    else Dec.itoa (d / Tm.hour) +:+ "h" +:+ Dec.itoa ((d / Tm.minute) mod 60) +:+ "m" +:+ secs.

Definition text (d : Z) : string := if d <? 0 then "-" +:+ nonneg (- d) else nonneg d.

Example text_1m : text (60 * Tm.second) = "1m0s".
Proof. reflexivity. Qed.
Example text_90ms : text (90500 * Tm.microsecond) = "90.5ms".
Proof. reflexivity. Qed.
Example text_h : text (3 * Tm.hour + 62250 * Tm.millisecond) = "3h1m2.25s".
Proof. reflexivity. Qed.

End Dur.

(** The value of a key of the env file; a missing one is empty. *)
Definition getenv (env : gmap string string) (k : string) : string := default EmptyString (env !! k).

(** Whether the operator agreed to the replacement. *)
Definition confirm (o : UpgradeOptions) : result unit :=
  if Yes o then Ok tt
  else if negb (TTY o) then Err "not a terminal: re-run with --yes (or --check to see the plan only)"
  else
    let line := Str.to_lower (Str.trim_space (Answer o)) in
    if String.eqb line "y" || String.eqb line "yes" then Ok tt else Err "aborted".

Section UpgradeRun.
Context `{Outside} `{Archive} `{ManifestCodec}.
Context (Version : string) (local_time : Z -> string).
Local Open Scope go_scope.

(** A deferred clean-up. *)
Definition deferred {A} (m : M A) (clean : M unit) : M A := r ← m; _ ← clean; mret r.

Definition FetchUpgradeManifest (panelURL : string) : M (result UpgradeManifest) :=
  let url := Str.trim_right_byte panelURL "/" +:+ UpgradePath in
  try resp ← wrapped (fun e => "GET " +:+ url +:+ ": " +:+ e) (perform (Get url));
  let body := limited (2 ^ 20) (resp_body resp) in
  mret (match resp_body_err resp with
        | Some e => Err ("GET " +:+ url +:+ ": " +:+ e)
        | None =>
            if resp_status resp =? 401
            then Err "the panel rejected this node's token (401); the node may have been re-installed or removed - check TGWP_TOKEN in the agent env file"
            else if negb (resp_status resp =? 200)
            then Err ("GET " +:+ url +:+ ": HTTP " +:+ Dec.itoa (resp_status resp) +:+ ": " +:+ firstLine body)
            else match decode_manifest body with
                 | None => Err ("GET " +:+ url +:+ ": invalid response body")
                 | Some m => if String.eqb (Engine m) EmptyString
                             then Err ("GET " +:+ url +:+ ": response carries no engine") else Ok m
                 end
        end).

(** ** What is installed *)

(** The token, once read, is kept. *)
Definition loadTelemtToken (env : gmap string string) (token : string) : M (result string) :=
  if negb (String.eqb token EmptyString) then mret (Ok token)
  else
    let v := Str.trim_space (getenv env "TGWP_TELEMT_API_TOKEN") in
    if negb (String.eqb v EmptyString) then mret (Ok v)
    else
      let path := Str.trim_space (getenv env "TGWP_TELEMT_API_TOKEN_FILE") in
      let path := if String.eqb path EmptyString then DefaultTelemtTokenPath else path in
      try raw ← wrapped (fun e => "read telemt api token " +:+ path +:+ ": " +:+ e +:+ " (run as root on a telemt node)")
                  (must_read path);
      let token := Str.trim_space raw in
      mret (if String.eqb token EmptyString then Err (path +:+ " is empty") else Ok token).

(** The version a binary prints; empty when it cannot be told. *)
Definition printed_version (argv : list string) : M string :=
  run ← perform (Exec argv);
  mret (match run with
        | (out, None) => ParseVersionOutput out
        | (_, Some _) => EmptyString
        end).

(** The version of telemt and the token read on the way. *)
Definition installedTelemt (o : UpgradeOptions) (ctx : context) (env : gmap string string) (token : string) : M (string * string) :=
  v ← printed_version [o_TelemtBin o; "--version"%string];
  if negb (String.eqb v EmptyString) then mret (v, token)
  else
    t ← loadTelemtToken env token;
    match t with
    | Err _ => mret (EmptyString, token)
    | Ok token =>
        info ← control ctx GetSystemInfo;
        mret (match info with
              | inr _ => (EmptyString, token)
              | inl info => (ParseVersionOutput (TelemtTypes.Version info), token)
              end)
    end.

Definition installedAgent (o : UpgradeOptions) : M string :=
  v ← printed_version [AgentBin o; "version"%string];
  mret (if negb (String.eqb v EmptyString) then v else Version).

Definition installed (o : UpgradeOptions) (ctx : context) (env : gmap string string) (m : UpgradeManifest) (token : string) : M (Installed * string) :=
  t ← (match Telemt m with
       | Some _ => v ← installedTelemt o ctx env token; mret (Some v.1, v.2)
       | None => mret (None, token)
       end : M (option string * string));
  a ← installedAgent o;
  let out : Installed := match t.1 with Some v => {[ ComponentTelemt := v ]} | None => ∅ end in
  let out := match TProxy m with
             | Some _ => <["tproxy-server"%string := Str.trim_space (getenv env "TGWP_TPROXY_VERSION")]> out
             | None => out
             end in
  mret (<[ComponentAgent := a]> out, t.2).

(** ** Replacing a binary *)

(** Probe once a second, for [n] seconds. *)
Fixpoint waitFor (n : nat) (probe : M bool) : M bool :=
  ready ← probe;
  match ready, n with
  | true, _ => mret true
  | false, O => mret false
  | false, S n => t ← clock; _ ← sleep_until (t + Tm.second); waitFor n probe
  end.

(** Put the previous binary back, restart the unit and hand the cause on. *)
Definition restore (prev bin svc : string) (cause : error) : M (result unit) :=
  r ← restoreBinary prev bin;
  match r with
  | Err _ => mret (Err cause)
  | Ok _ => _ ← perform (Exec ["systemctl"; "restart"; svc]%string); mret (Err cause)
  end.

(** The part the two upgrades share: keep the binary, install the staged one,
    restart the unit and wait for it, or take the new binary back. *)
Definition replace_binary (o : UpgradeOptions) (staged bin svc : string) (healthy : Z -> M bool) (late : error) : M (result unit) :=
  try prev ← backupBinary bin;
  try _ ← rename staged bin;
  since ← clock;
  run ← perform (Exec ["systemctl"; "restart"; svc]%string);
  match run with
  | (out, Some _) => restore prev bin svc ("systemctl restart " +:+ svc +:+ ": " +:+ firstLine out)
  | (_, None) =>
      up ← waitFor (Z.to_nat (Z.quot (o_HealthWait o) Tm.second)) (healthy since);
      if (up : bool) then _ ← ignore (remove prev); mret (Ok tt)
      else restore prev bin svc late
  end.

Definition telemt_ready (ctx : context) : M bool :=
  rd ← control ctx GetReady;
  mret (match rd with inl rd => Ready rd | inr _ => false end).

Definition upgradeTelemt (o : UpgradeOptions) (ctx : context) (c : ComponentPlan) : M (result unit) :=
  let dir := Path.Dir (o_TelemtBin o) in
  try tgz ← downloadArtifact (Artifact c) dir ".telemt-download-";
  let staged := Path.Join dir ".telemt.new" in
  deferred
    (e ← extractTelemtBinary tgz staged;
     match e with
     | Err e => _ ← ignore (remove staged); mret (Err e)
     | Ok _ =>
         deferred (replace_binary o staged (o_TelemtBin o) telemtUnit (fun _ => telemt_ready ctx)
                     ("telemt " +:+ Wanted c +:+ " did not report ready within " +:+ Dur.text (o_HealthWait o)))
           (ignore (remove staged))
     end)
    (ignore (remove tgz)).

Definition agentHealthy (since : Z) : M bool :=
  active ← perform (Exec ["systemctl"; "is-active"; agentUnit]%string);
  match active with
  | (_, Some _) => mret false
  | (out, None) =>
      if negb (String.eqb (Str.trim_space out) "active") then mret false
      else
        log ← perform (Exec ["journalctl"; "-u"; agentUnit; "--since"; local_time since; "--no-pager"; "-n"; "200"]%string);
        match log with
        | (_, Some _) => t ← clock; mret (Tm.sub t since >=? 5 * Tm.second)
        | (out, None) => mret (Str.contains out "connected to panel")
        end
  end.

Definition insideUnit (svc : string) : M bool :=
  raw ← must_read "/proc/self/cgroup";
  mret (match raw with
        | Err _ => false
        | Ok raw => Str.contains raw ("/" +:+ svc +:+ ".service")
        end).

Definition upgradeAgent (o : UpgradeOptions) (c : ComponentPlan) : M (result unit) :=
  inside ← insideUnit agentUnit;
  if (inside : bool)
  then mret (Err ("this command is running inside " +:+ agentUnit +:+
                  ".service; restarting the unit would kill it mid-upgrade. Run it from a login shell: " +:+ AgentBin o +:+ " upgrade --agent"))
  else
    let dir := Path.Dir (AgentBin o) in
    let staged := Path.Join dir "tgwp-agent.new" in
    _ ← ignore (remove staged);
    try tmp ← downloadArtifact (Artifact c) dir ".tgwp-agent-download-";
    try _ ← or_clean (rename tmp staged) (ignore (remove tmp));
    deferred
      (try _ ← chmod staged 493;
       replace_binary o staged (AgentBin o) agentUnit agentHealthy
         ("tgwp-agent " +:+ Wanted c +:+ " did not come back within " +:+ Dur.text (o_HealthWait o)))
      (ignore (remove staged)).

(** ** The command *)

(** Replace the components in order; the first failure ends the run. *)
Fixpoint upgrade_all (o : UpgradeOptions) (ctx : context) (changes : list ComponentPlan) : M (result unit) :=
  match changes with
  | [] => mret (Ok tt)
  | c :: changes =>
      try _ ← (if String.eqb (Name c) ComponentTelemt then upgradeTelemt o ctx c
               else if String.eqb (Name c) ComponentAgent then upgradeAgent o c
               else mret (Ok tt));
      upgrade_all o ctx changes
  end.

(** The token is needed when telemt changes. *)
Definition token_for (env : gmap string string) (token : string) (changes : list ComponentPlan) : M (result string) :=
  if existsb (fun c => String.eqb (Name c) ComponentTelemt) changes then loadTelemtToken env token else mret (Ok token).

Definition run (o : UpgradeOptions) (ctx : context) : M (result unit) :=
  try raw ← must_read (EnvPath o);
  match read_env raw with
  | Err e => mret (Err e)
  | Ok env =>
      let panelURL := getenv env "TGWP_PANEL_URL" in
      if String.eqb panelURL EmptyString || String.eqb (getenv env "TGWP_TOKEN") EmptyString
      then mret (Err (EnvPath o +:+ " has no TGWP_PANEL_URL and TGWP_TOKEN"))
      else
        try m ← FetchUpgradeManifest panelURL;
        have ← installed o ctx env m EmptyString;
        let changes := Changes (BuildUpgradePlan m have.1 (Scope o)) in
        if CheckOnly o then mret (Ok tt)
        else match changes with
             | [] => mret (Ok tt)
             | _ =>
                 try _ ← token_for env have.2 changes;
                 match confirm o with
                 | Err e => mret (Err e)
                 | Ok _ => upgrade_all o ctx changes
                 end
             end
  end.

Definition RunUpgrade (o : UpgradeOptions) (ctx : context) : M (result unit) := run (withDefaults o) ctx.

End UpgradeRun.
