(* ===== verification/UpgradeSafety.v ===== *)
(** * What the upgrade command promises

    For every behaviour of the outside and every failing system call: what a
    run of [UpgradeRun] may do before it is confirmed, and what the binaries
    hold at every instant of a replacement. *)

From S2P Require Import Prelude Crypto TelemtTypes Node NodeLogic AgentFiles Upgrade TelemtClient UpdateSpecs UpgradeRun.

(** ** Keeping and putting back *)

Section Keeping.
Context `{Outside}.
Local Open Scope go_scope.

Lemma prev_ne p : prev_of p <> p.
Proof.
  intros E%(f_equal String.length). unfold prev_of in E. rewrite Str.length_append in E. cbn in E. lia.
Qed.

(** The content of a file after a system call that names it or not. *)
Lemma content_insert f p x q : content (<[p := x]> f) q = if decide (p = q) then Some (fdata x) else content f q.
Proof.
  unfold content. destruct (decide (p = q)) as [->|Hne]; [by rewrite lookup_insert_eq|by rewrite lookup_insert_ne].
Qed.

Lemma content_delete f p q : content (delete p f) q = if decide (p = q) then None else content f q.
Proof.
  unfold content. destruct (decide (p = q)) as [->|Hne]; [by rewrite lookup_delete_eq|by rewrite lookup_delete_ne].
Qed.

(** A step whose every state satisfies [I], entered with [I]. *)
Definition holds (I : files -> Prop) {A} (m : M A) : Prop :=
  forall w a w', m w = (a, w') -> I (fs w) -> spans anything I w w' /\ I (fs w').

Lemma holds_bind I A B (m : M A) (k : A -> M B) : holds I m -> (forall a, holds I (k a)) -> holds I (mbind k m).
Proof.
  intros Hm Hk w b w' (a & w1 & Ha & Hb)%bind_inv HI. destruct (Hm _ _ _ Ha HI) as [S1 I1].
  destruct (Hk a _ _ _ Hb I1) as [S2 I2]. split; [by eapply spans_trans|done].
Qed.

Lemma holds_touches I S A (m : M A) :
  touches S anything m -> (forall f g, same_off S f g -> I f -> I g) -> holds I m.
Proof.
  intros Ht HS w a w' Hm HI. split; [|by eapply HS, HI; eapply touches_fs].
  eapply spans_mono; [done| |exact (touches_spans _ _ _ _ _ _ _ Ht Hm)]. intros g Hg. by eapply HS.
Qed.

Lemma holds_quiet I A (m : M A) : touches nothing anything m -> holds I m.
Proof.
  intros Ht. eapply holds_touches; [exact Ht|]. intros f g Hg. assert (f = g) as -> by (apply map_eq; intros p; apply Hg; intros []).
  done.
Qed.

(** A rename, chmod or removal whose result satisfies [I]. *)
Lemma on_file_holds (I : files -> Prop) op name p k w r w' :
  on_file op name p k w = (r, w') -> I (fs w) -> (forall x, fs w !! p = Some x -> I (k x (fs w))) ->
  spans anything I w w' /\ I (fs w').
Proof.
  intros Hr HI Hk. pose proof (on_file_spans anything _ _ _ _ _ _ _ system_anything Hr) as Hs.
  assert (HI' : I (fs w')) by (apply on_file_inv in Hr as [(x & Hx & _ & ->)|(e & _ & ->)]; [by apply Hk|done]).
  split; [|done]. eapply spans_mono; [done| |exact Hs]. by intros g ->.
Qed.

(** Putting a kept file back: at every instant [p] holds what it held in [f] or
    what it holds now.  When that fails, [p] has its old content, or nothing
    happened. *)
Lemma restoreFile_spec f prev p mode w r w' : keeps f (fs w) p prev -> restoreFile prev p mode w = (r, w') ->
  let I g := content g p = content f p \/ content g p = content (fs w) p in
  spans anything I w w' /\
  (r = Ok tt -> content (fs w') p = content f p) /\
  ((exists e, r = Err e) -> content (fs w') p = content f p \/ fs w' = fs w).
Proof.
  intros Hk Hr I. assert (HI : I (fs w)) by by right. unfold restoreFile in Hr.
  destruct (String.eqb_spec prev EmptyString) as [->|Hne].
  { assert (Hn : content f p = None) by (destruct Hk as [[_ ?]|(E & _)]; [done|by destruct p]).
    destruct (on_file_holds I _ _ _ _ _ _ _ Hr HI) as [Hs _].
    { intros x _. left. by rewrite content_delete, decide_True. }
    split; [done|]. apply on_file_inv in Hr as [(x & Hx & -> & ->)|(e & -> & ->)].
    - split; [intros _; by rewrite content_delete, decide_True|by intros [? [=]]].
    - split; [done|by right]. }
  destruct Hk as [[-> _]|(-> & Hsome & Hkept)]; [done|].
  pose proof (prev_ne p) as Hpp.
  apply try_inv in Hr as [(e & Hst & ->)|(y & w1 & Hst & Hr)].
  { assert (Hf : fs w' = fs w) by by apply stat_inv in Hst as [? _].
    split_and!; [|done|by right]. destruct (holds_quiet I _ (stat (Stat (prev_of p)) (prev_of p)) ltac:(touches) _ _ _ Hst HI). done. }
  destruct (holds_quiet I _ (stat (Stat (prev_of p)) (prev_of p)) ltac:(touches) _ _ _ Hst HI) as [S1 I1].
  apply stat_inv in Hst as [Hf1 _]. destruct y as [y|].
  2: { apply ret_inv in Hr as [<- <-]. split_and!; [done|done|by right]. }
  assert (HI2 : forall x, fs w1 !! prev_of p = Some x -> I (<[p := x]> (delete (prev_of p) (fs w1)))).
  { intros x Hx. left. rewrite content_insert, decide_True, <- Hkept, <- Hf1 by done. unfold content. by rewrite Hx. }
  apply try_inv in Hr as [(e & Hren & ->)|([] & w2 & Hren & Hr)];
    destruct (on_file_holds I _ _ _ _ _ _ _ Hren I1 HI2) as [S2 I2].
  { split_and!; [by eapply spans_trans|done|]. apply on_file_inv in Hren as [(x & _ & [=] & _)|(e' & _ & ->)]. by right. }
  apply on_file_ok in Hren as (x & Hx & Hf2).
  assert (Hp2 : fs w2 !! p = Some x) by by rewrite Hf2, lookup_insert_eq.
  assert (Hc2 : content (fs w2) p = content f p).
  { rewrite <- Hkept, <- Hf1. unfold content. by rewrite Hp2, Hx. }
  assert (HI3 : forall z, fs w2 !! p = Some z -> content (<[p := with_mode z mode]> (fs w2)) p = content f p).
  { intros z Hz. rewrite content_insert, decide_True by done. cbn. rewrite <- Hc2. unfold content. by rewrite Hz. }
  destruct (on_file_holds (fun g => content g p = content f p) _ _ _ _ _ _ _ Hr Hc2 HI3) as [S3 I3].
  split_and!; [|done|by left]. eapply spans_trans; [exact S1|]. eapply spans_trans; [exact S2|].
  eapply spans_mono; [done| |exact S3]. intros g Hg. by left.
Qed.

End Keeping.

(** ** Replacing one binary *)

Section Replacing.
Context `{Outside} `{Archive}.
Local Open Scope go_scope.

(** The files a replacement of [bin] by [staged] names; the empty path names
    none. *)
Definition replacing (staged bin : string) : paths := fun p =>
  p = staged \/ p = bin \/ p = prev_of bin \/ p = EmptyString.

Lemma in_replacing staged bin :
  replacing staged bin staged /\ replacing staged bin bin /\ replacing staged bin (prev_of bin) /\
  replacing staged bin EmptyString.
Proof. unfold replacing. tauto. Qed.

(** The end of a replacement: the new content, or the old one, or the new one
    with the old one kept next to it. *)
Definition replaced_or_kept (bin : string) (old new : option string) (r : result unit) (g : files) : Prop :=
  match r with
  | Ok _ => content g bin = new /\ new <> None
  | Err _ => content g bin = old \/ (content g bin = new /\ new <> None /\ (old = None \/ content g (prev_of bin) = old))
  end.

Lemma touches_waitFor S n (probe : M bool) : touches S anything probe -> touches S anything (waitFor n probe).
Proof. intros Hp. induction n as [|n IH]; cbn [waitFor]; touches. Qed.

Lemma touches_restore (S : paths) prev bin svc cause : (prev <> EmptyString -> S prev) -> S bin ->
  touches S anything (restore prev bin svc cause).
Proof.
  intros Hp Hb. pose proof system_anything. unfold restore, restoreBinary. apply touches_bind; [by apply touches_restoreFile|touches].
Qed.

Lemma touches_replace_binary o staged bin svc healthy late :
  (forall t, touches nothing anything (healthy t)) ->
  touches (replacing staged bin) anything (replace_binary o staged bin svc healthy late).
Proof.
  intros Hh. pose proof system_anything. destruct (in_replacing staged bin) as (I1 & I2 & I3 & I4). unfold replace_binary.
  eapply touches_try_yields with (P := fun prev => prev = EmptyString \/ prev = prev_of bin).
  - by apply touches_backupFile.
  - intros w prev w' [(_ & -> & _)|(? & ? & _ & -> & _)]%backupFile_ok; [by left|by right].
  - intros prev Hprev. assert (replacing staged bin prev) by by destruct Hprev as [->| ->].
    assert (forall svc cause, touches (replacing staged bin) anything (restore prev bin svc cause)).
    { intros. by apply touches_restore. }
    assert (forall t n, touches (replacing staged bin) anything (waitFor n (healthy t))).
    { intros. apply touches_waitFor. eapply touches_mono; [| |apply Hh]; done. }
    touches.
Qed.

(** Taking the new binary back, after the swap. *)
Lemma restore_spec f prev bin svc cause w r w' :
  keeps f (fs w) bin prev -> content (fs w) bin <> None -> restore prev bin svc cause w = (r, w') ->
  let I g := content g bin = content f bin \/ content g bin = content (fs w) bin in
  spans anything I w w' /\ I (fs w') /\
  replaced_or_kept bin (content f bin) (content (fs w) bin) r (fs w').
Proof.
  intros Hk Hs (x & w1 & Hr & Hx)%bind_inv I. destruct (restoreFile_spec _ _ _ _ _ _ _ Hk Hr) as (Hsp & Hok & Herr).
  assert (Hkept : content f bin = None \/ content (fs w) (prev_of bin) = content f bin).
  { destruct Hk as [[_ ?]|(-> & _ & ?)]; auto. }
  destruct x as [[]|e].
  - specialize (Hok eq_refl).
    apply bind_inv in Hx as (y & w2 & Hp & [<- <-]%ret_inv).
    assert (Hq : spans anything I w1 w2 /\ I (fs w2)).
    { apply (holds_quiet I _ (perform (Exec ["systemctl"; "restart"; svc]%string))) with (2 := Hp); [touches|by left]. }
    apply perform_fs in Hp. split_and!; [by eapply spans_trans; [|apply Hq]|apply Hq|]. left. by rewrite Hp.
  - apply ret_inv in Hx as [<- <-]. destruct (Herr (ex_intro _ _ eq_refl)) as [Hc|Hf].
    + split_and!; [done|by left|by left].
    + split_and!; [done|right; by rewrite Hf|right]. by rewrite Hf.
Qed.

(** The replacement: at every instant the old or the new binary. *)
Lemma replace_binary_spec o staged bin svc healthy late w r w' :
  staged <> bin -> staged <> prev_of bin -> bin <> EmptyString ->
  (forall t, touches nothing anything (healthy t)) ->
  replace_binary o staged bin svc healthy late w = (r, w') ->
  let old := content (fs w) bin in let new := content (fs w) staged in
  let I g := content g bin = old \/ (content g bin = new /\ new <> None) in
  spans anything I w w' /\ I (fs w') /\ replaced_or_kept bin old new r (fs w').
Proof.
  intros N1 N2 N3 Hh Hr old new I. assert (HI0 : I (fs w)) by by left. pose proof (prev_ne bin) as N4.
  assert (HP : holds I (backupBinary bin)).
  { eapply holds_touches; [apply (touches_backupFile anything system_anything (eq (prev_of bin))); done|].
    intros f g Hg. unfold I, content. by rewrite Hg. }
  unfold replace_binary in Hr. apply try_inv in Hr as [(e & Hb & ->)|(prev & w1 & Hb & Hr)];
    destruct (HP _ _ _ Hb HI0) as [S1 I1].
  { split_and!; [done|done|]. left. unfold content.
    by rewrite <- (touches_fs _ _ _ _ _ _ _ (touches_backupFile anything system_anything (eq (prev_of bin)) bin 493 eq_refl) Hb bin). }
  apply backupFile_keeps in Hb as [Hk Ho].
  assert (Hcb : content (fs w1) bin = old) by (unfold old, content; by rewrite (Ho bin)).
  assert (Hcs : content (fs w1) staged = new) by (unfold new, content; by rewrite (Ho staged)).
  assert (HR : forall x, fs w1 !! staged = Some x -> I (<[bin := x]> (delete staged (fs w1)))).
  { intros x Hx. right. rewrite content_insert, decide_True, <- Hcs by done. unfold content. by rewrite Hx. }
  apply try_inv in Hr as [(e & Hren & ->)|([] & w2 & Hren & Hr)];
    destruct (on_file_holds I _ _ _ _ _ _ _ Hren I1 HR) as [S2 I2].
  { split_and!; [by eapply spans_trans|done|]. apply on_file_inv in Hren as [(x & _ & [=] & _)|(e' & _ & ->)]. by left. }
  apply on_file_ok in Hren as (x & Hx & Hf2).
  assert (Hnew : new = Some (fdata x)) by (rewrite <- Hcs; unfold content; by rewrite Hx).
  assert (Hc2 : content (fs w2) bin = new) by by rewrite Hf2, content_insert, decide_True.
  assert (Hk2 : keeps (fs w) (fs w2) bin prev).
  { eapply keeps_mono; [exact Hk|]. rewrite Hf2, lookup_insert_ne, lookup_delete_ne by congruence. done. }
  assert (Hwait : forall A (m : M A) a w3 w4, touches nothing anything m -> fs w3 = fs w2 -> m w3 = (a, w4) ->
            spans anything I w3 w4 /\ fs w4 = fs w2).
  { intros A m a w3 w4 Ht Hf Hm. split; [|rewrite <- Hf; by eapply nothing_fs].
    eapply (holds_quiet I); [exact Ht|exact Hm|by rewrite Hf]. }
  assert (Hback : forall cause w3, fs w3 = fs w2 -> spans anything I w w3 -> restore prev bin svc cause w3 = (r, w') ->
            spans anything I w w' /\ I (fs w') /\ replaced_or_kept bin old new r (fs w')).
  { intros cause w3 Hf HS Hrs. rewrite <- Hf in Hk2.
    assert (Hc3 : content (fs w3) bin = new) by by rewrite Hf.
    destruct (restore_spec _ _ _ _ _ _ _ _ Hk2 ltac:(by rewrite Hc3, Hnew) Hrs) as (S3 & I3 & R3). rewrite Hc3 in *.
    assert (HI3 : forall g, content g bin = content (fs w) bin \/ content g bin = new -> I g).
    { intros g [?|?]; [by left|right]. split; [done|by rewrite Hnew]. }
    split_and!; [eapply spans_trans; [exact HS|]; eapply spans_mono; [done|exact HI3|exact S3]|by apply HI3|done]. }
  assert (S02 : spans anything I w w2) by by eapply spans_trans.
  apply bind_inv in Hr as (since & w3 & [-> <-]%clock_inv & Hr). apply bind_inv in Hr as (ran & w4 & Hrun & Hr).
  destruct (Hwait _ (perform (Exec ["systemctl"; "restart"; svc]%string)) _ _ _ ltac:(touches) eq_refl Hrun) as [S4 F4].
  assert (S04 : spans anything I w w4) by by eapply spans_trans.
  destruct ran as [out [e|]]; [by eapply Hback|].
  apply bind_inv in Hr as (up & w5 & Hup & Hr).
  destruct (Hwait _ _ _ _ _ (touches_waitFor nothing _ _ (Hh _)) F4 Hup) as [S5 F5].
  assert (S05 : spans anything I w w5) by by eapply spans_trans.
  destruct up; [|by eapply Hback].
  apply bind_inv in Hr as (u & w6 & Hrm & [<- <-]%ret_inv).
  assert (Hprev : prev <> bin) by (destruct Hk as [[-> _]|(-> & _)]; [done|exact N4]).
  assert (Ht : touches (eq prev) anything (ignore (remove prev))) by (pose proof system_anything; touches).
  assert (Hkeep : forall g, same_off (eq prev) (fs w5) g -> content g bin = new).
  { intros g Hg. rewrite <- Hc2, <- F5. unfold content. by rewrite (Hg bin Hprev). }
  pose proof (touches_fs _ _ _ _ _ _ _ Ht Hrm) as Hf6. split_and!.
  - eapply spans_trans; [exact S05|]. eapply spans_mono; [done| |exact (touches_spans _ _ _ _ _ _ _ Ht Hrm)].
    intros g Hg. right. split; [by apply Hkeep|by rewrite Hnew].
  - right. split; [by apply Hkeep|by rewrite Hnew].
  - cbn. split; [by apply Hkeep|by rewrite Hnew].
Qed.

End Replacing.

(** ** One component *)

Section Component.
Context `{Outside} `{Archive}.
Context (local_time : Z -> string) (o : UpgradeOptions).
Local Open Scope go_scope.

(** [bin] holds a build. *)
Definition built (P : string -> Prop) (bin : string) (g : files) : Prop := exists b, content g bin = Some b /\ P b.

(** The end of an upgrade of [bin] to a build in [P]. *)
Definition component_end (bin : string) (old : option string) (P : string -> Prop) (r : result unit) (g : files) : Prop :=
  match r with
  | Ok _ => built P bin g
  | Err _ => content g bin = old \/ (built P bin g /\ (old = None \/ content g (prev_of bin) = old))
  end.

Definition upgrades (bin : string) (P : string -> Prop) (w : world) (r : result unit) (w' : world) : Prop :=
  spans anything (fun g => content g bin = content (fs w) bin \/ built P bin g) w w' /\
  component_end bin (content (fs w) bin) P r (fs w').

(** A step that leaves [bin] alone, before the rest of an upgrade. *)
Lemma upgrades_after S bin P A (m : M A) w a w1 r w' :
  touches S anything m -> ~ S bin -> m w = (a, w1) -> upgrades bin P w1 r w' -> upgrades bin P w r w'.
Proof.
  intros Ht HS Hm [Hs He].
  assert (Hc : content (fs w1) bin = content (fs w) bin).
  { unfold content. by rewrite (touches_fs _ _ _ _ _ _ _ Ht Hm bin HS). }
  unfold upgrades. rewrite Hc in *. split; [|done]. eapply spans_trans; [|exact Hs].
  eapply spans_mono; [done| |exact (touches_spans _ _ _ _ _ _ _ Ht Hm)].
  intros g Hg. left. unfold content. by rewrite (Hg bin HS).
Qed.

Lemma upgrades_none bin P w e : upgrades bin P w (Err e) w.
Proof. split; [by exists []|by left]. Qed.

(** A clean-up that leaves [bin] and its copy alone, after an upgrade. *)
Lemma upgrades_before S bin P A (m : M A) w r w1 a w' :
  upgrades bin P w r w1 -> touches S anything m -> ~ S bin -> ~ S (prev_of bin) -> m w1 = (a, w') -> upgrades bin P w r w'.
Proof.
  intros [Hs He] Ht HS HSp Hm.
  assert (Hk : forall g p, ~ S p -> same_off S (fs w1) g -> content g p = content (fs w1) p).
  { intros g p Hp Hg. unfold content. by rewrite (Hg p Hp). }
  split.
  - eapply spans_trans; [exact Hs|]. eapply spans_mono; [done| |exact (touches_spans _ _ _ _ _ _ _ Ht Hm)].
    intros g Hg. unfold built. rewrite (Hk g bin HS Hg). destruct r; cbn in He; [by right|tauto].
  - pose proof (touches_fs _ _ _ _ _ _ _ Ht Hm) as Hf. unfold component_end, built in *.
    by rewrite (Hk _ bin HS Hf), (Hk _ _ HSp Hf).
Qed.

Lemma deferred_inv A (m : M A) c w r w' : deferred m c w = (r, w') -> exists w1 u, m w = (r, w1) /\ c w1 = (u, w').
Proof. intros (r0 & w1 & Hm & Hk)%bind_inv. apply bind_inv in Hk as (u & w2 & Hc & [<- <-]%ret_inv). eauto. Qed.

(** Installing a staged build. *)
Lemma upgrades_replace (P : string -> Prop) staged bin svc healthy late w r w' :
  staged <> bin -> staged <> prev_of bin -> bin <> EmptyString ->
  (forall t, touches nothing anything (healthy t)) -> built P staged (fs w) ->
  replace_binary o staged bin svc healthy late w = (r, w') -> upgrades bin P w r w'.
Proof.
  intros N1 N2 N3 Hh (b & Hb & HPb) Hr.
  destruct (replace_binary_spec _ _ _ _ _ _ _ _ _ N1 N2 N3 Hh Hr) as (Hs & _ & He). rewrite Hb in *.
  split.
  - eapply spans_mono; [done| |exact Hs]. intros g [?|[? _]]; [by left|right]. by exists b.
  - unfold component_end, replaced_or_kept in *. destruct r as [u|e].
    + destruct He as [? _]. by exists b.
    + destruct He as [?|(? & _ & ?)]; [by left|right]. split; [by exists b|done].
Qed.

Lemma touches_telemt_ready ctx : touches nothing anything (telemt_ready ctx).
Proof. unfold telemt_ready. touches. Qed.

Lemma touches_agentHealthy t : touches nothing anything (agentHealthy local_time t).
Proof. unfold agentHealthy. touches. Qed.

Lemma touches_download S a dir s : (forall p, is_hidden p -> S p) -> no_slash s ->
  touches S anything (downloadArtifact a dir (String "." s)).
Proof. intros HS Hs. apply touches_downloadArtifact; [apply system_anything|done| |done]. intros p [? _]. auto. Qed.

(** The configured binaries and the staged agent are five different files
    with ordinary names. *)
Definition agent_staged : string := Path.Join (Path.Dir (AgentBin o)) "tgwp-agent.new".
Definition upgrade_keys : list string :=
  [o_TelemtBin o; prev_of (o_TelemtBin o); AgentBin o; prev_of (AgentBin o); agent_staged].

Record upgrade_paths : Prop := {
  upgrade_distinct : NoDup upgrade_keys;
  upgrade_ordinary : Forall (fun p => p <> EmptyString /\ ~ is_hidden p) upgrade_keys
}.

Definition telemt_files : paths := fun p =>
  is_hidden p \/ p = o_TelemtBin o \/ p = prev_of (o_TelemtBin o) \/ p = EmptyString.
Definition agent_files : paths := fun p =>
  is_hidden p \/ p = AgentBin o \/ p = prev_of (AgentBin o) \/ p = agent_staged \/ p = EmptyString.

Hypothesis HP : upgrade_paths.

Lemma upgrade_key p : p ∈ upgrade_keys -> p <> EmptyString /\ ~ is_hidden p.
Proof. pose proof (upgrade_ordinary HP) as Ho. rewrite Forall_forall in Ho. auto. Qed.

Lemma upgrade_ne :
  ~ agent_files (o_TelemtBin o) /\ ~ agent_files (prev_of (o_TelemtBin o)) /\
  ~ telemt_files (AgentBin o) /\ ~ telemt_files (prev_of (AgentBin o)) /\
  agent_staged <> AgentBin o /\ agent_staged <> prev_of (AgentBin o).
Proof.
  pose proof (upgrade_distinct HP) as Hd. unfold upgrade_keys in Hd. rewrite !NoDup_cons in Hd.
  assert (Hk : forall p, p ∈ upgrade_keys -> p <> EmptyString /\ ~ is_hidden p) by apply upgrade_key.
  assert (In1 : o_TelemtBin o ∈ upgrade_keys) by (unfold upgrade_keys; set_solver).
  assert (In2 : prev_of (o_TelemtBin o) ∈ upgrade_keys) by (unfold upgrade_keys; set_solver).
  assert (In3 : AgentBin o ∈ upgrade_keys) by (unfold upgrade_keys; set_solver).
  assert (In4 : prev_of (AgentBin o) ∈ upgrade_keys) by (unfold upgrade_keys; set_solver).
  apply Hk in In1, In2, In3, In4. clear Hk. unfold agent_files, telemt_files. set_solver.
Qed.

Lemma touches_upgradeTelemt ctx c : touches telemt_files anything (upgradeTelemt o ctx c).
Proof.
  pose proof system_anything. unfold upgradeTelemt. cbv zeta.
  assert (Hh : forall p, is_hidden p -> telemt_files p) by (by left).
  assert (Hst : telemt_files (Path.Join (Path.Dir (o_TelemtBin o)) ".telemt.new")) by by apply Hh, hidden_join.
  eapply touches_try_yields with (P := is_hidden); [by apply touches_download| |].
  - intros w n w' Hn. by apply (downloadArtifact_ok _ _ _ _ _ _ (eq_refl : no_slash "telemt-download-")) in Hn as [[? _] _].
  - intros tgz Htgz%Hh. unfold deferred.
    assert (forall d, touches telemt_files anything (extractTelemtBinary tgz (Path.Join d ".telemt.new"))).
    { intros d. apply touches_extractTelemtBinary; [done|]. by apply Hh, hidden_join. }
    assert (forall f late, touches telemt_files anything
      (replace_binary o (Path.Join (Path.Dir (o_TelemtBin o)) ".telemt.new") (o_TelemtBin o) telemtUnit (fun _ => telemt_ready f) late)).
    { intros. eapply touches_mono; [..|apply touches_replace_binary; intros; apply touches_telemt_ready]; [|done].
      unfold replacing, telemt_files. intros p [->|?]; [left; by apply hidden_join|tauto]. }
    touches.
Qed.

Lemma touches_insideUnit S svc : touches S anything (insideUnit svc).
Proof. pose proof system_anything. unfold insideUnit. touches. Qed.

Lemma touches_upgradeAgent c : touches agent_files anything (upgradeAgent local_time o c).
Proof.
  pose proof system_anything. pose proof touches_insideUnit. unfold upgradeAgent. fold agent_staged.
  assert (Hh : forall p, is_hidden p -> agent_files p) by (by left).
  assert (Hst : agent_files agent_staged) by (unfold agent_files; tauto).
  apply touches_bind; [touches|]. intros [|]; [touches|]. cbv zeta. fold agent_staged.
  apply touches_bind; [touches|]. intros _.
  eapply touches_try_yields with (P := is_hidden); [by apply touches_download| |].
  - intros w n w' Hn. by apply (downloadArtifact_ok _ _ _ _ _ _ (eq_refl : no_slash "tgwp-agent-download-")) in Hn as [[? _] _].
  - intros tmp Htmp%Hh. unfold deferred.
    assert (forall late, touches agent_files anything
      (replace_binary o agent_staged (AgentBin o) agentUnit (agentHealthy local_time) late)).
    { intros. eapply touches_mono; [..|apply touches_replace_binary; intros; apply touches_agentHealthy]; [|done].
      unfold replacing, agent_files. tauto. }
    touches.
Qed.

(** telemt's upgrade, whatever fails. *)
Lemma upgradeTelemt_spec ctx c w r w' : upgradeTelemt o ctx c w = (r, w') ->
  upgrades (o_TelemtBin o) (genuine (art_SHA256 (Artifact c))) w r w'.
Proof.
  intros Hr. set (bin := o_TelemtBin o) in *. set (P := genuine _).
  destruct (upgrade_key bin) as [Hne Hnh]; [unfold upgrade_keys; set_solver|].
  destruct (upgrade_key (prev_of bin)) as [_ Hnp]; [unfold upgrade_keys; set_solver|].
  set (staged := Path.Join (Path.Dir bin) ".telemt.new") in *. assert (Hsh : is_hidden staged) by by apply hidden_join.
  assert (Hns : forall p, is_hidden p -> p <> bin /\ p <> prev_of bin) by (intros p Hp; split; by intros ->).
  destruct (Hns _ Hsh) as [N1 N2]. pose proof system_anything as HE.
  assert (Hrm : forall p, touches (fun q => q = p) anything (ignore (remove p))) by (intros; touches).
  assert (Hclean : forall p w0 w1 u w2 r0, is_hidden p -> upgrades bin P w0 r0 w1 -> ignore (remove p) w1 = (u, w2) -> upgrades bin P w0 r0 w2).
  { intros p w0 w1 u w2 r0 [Hp1 Hp2]%Hns Hu Hx. eapply (upgrades_before (fun q => q = p)); [exact Hu|apply Hrm|congruence|congruence|exact Hx]. }
  unfold upgradeTelemt in Hr. cbv zeta in Hr. fold bin staged in Hr.
  assert (Td : touches is_hidden anything (downloadArtifact (Artifact c) (Path.Dir bin) ".telemt-download-")) by by apply touches_download.
  apply try_inv in Hr as [(e & Hd & ->)|(tgz & w1 & Hd & Hr)].
  { eapply upgrades_after; [exact Td|exact Hnh|exact Hd|apply upgrades_none]. }
  eapply upgrades_after; [exact Td|exact Hnh|exact Hd|]. clear Td.
  apply (downloadArtifact_ok _ _ _ _ _ _ (eq_refl : no_slash "telemt-download-")) in Hd as ([Htgz _] & x & Hx & Hsha).
  apply deferred_inv in Hr as (w2 & u & Hr & Hc). eapply Hclean; [exact Htgz| |exact Hc]. clear Hc.
  apply bind_inv in Hr as (ex & w3 & Hex & Hr).
  assert (Te : touches (fun q => q = staged) anything (extractTelemtBinary tgz staged)) by by apply touches_extractTelemtBinary.
  eapply upgrades_after; [exact Te| |exact Hex|]; [congruence|].
  destruct ex as [v|e].
  2: { apply bind_inv in Hr as (y & w4 & Hrm' & [<- <-]%ret_inv). eapply Hclean; [exact Hsh|apply upgrades_none|exact Hrm']. }
  apply deferred_inv in Hr as (w4 & y & Hr & Hc). eapply Hclean; [exact Hsh| |exact Hc].
  destruct (extractTelemtBinary_ok _ _ _ _ _ _ _ Hex Hx Hsha) as (z & Hz & _ & Hg).
  eapply upgrades_replace; [exact N1|exact N2|exact Hne|intros; apply touches_telemt_ready| |exact Hr].
  exists (fdata z). split; [unfold content; by rewrite Hz|exact Hg].
Qed.

(** A file with the checksum the panel pinned. *)
Definition pinned_sum (sha b : string) : Prop := Str.equal_fold (Sha.hex b) sha = true.

(** The agent's upgrade, whatever fails. *)
Lemma upgradeAgent_spec c w r w' : upgradeAgent local_time o c w = (r, w') ->
  upgrades (AgentBin o) (pinned_sum (art_SHA256 (Artifact c))) w r w'.
Proof.
  intros Hr. set (bin := AgentBin o) in *. set (P := pinned_sum _).
  destruct (upgrade_key bin) as [Hne Hnh]; [unfold upgrade_keys; set_solver|].
  destruct upgrade_ne as (_ & _ & _ & _ & N1 & N2). fold bin in N1, N2. pose proof system_anything as HE.
  destruct (upgrade_key agent_staged) as [_ Hsh]; [unfold upgrade_keys; set_solver|].
  assert (Hrm : forall p, touches (fun q => q = p) anything (ignore (remove p))) by (intros; touches).
  unfold upgradeAgent in Hr. cbv zeta in Hr. fold agent_staged bin in Hr.
  apply bind_inv in Hr as (ins & w1 & Hi & Hr).
  eapply (upgrades_after nothing); [apply touches_insideUnit|by intros []|exact Hi|].
  destruct ins; [apply ret_inv in Hr as [<- <-]; apply upgrades_none|].
  apply bind_inv in Hr as (u & w2 & Hrm1 & Hr).
  eapply upgrades_after; [apply Hrm| |exact Hrm1|]; [congruence|].
  assert (Td : touches is_hidden anything (downloadArtifact (Artifact c) (Path.Dir bin) ".tgwp-agent-download-")) by by apply touches_download.
  apply try_inv in Hr as [(e & Hd & ->)|(tmp & w3 & Hd & Hr)].
  { eapply upgrades_after; [exact Td|exact Hnh|exact Hd|apply upgrades_none]. }
  eapply upgrades_after; [exact Td|exact Hnh|exact Hd|]. clear Td.
  apply (downloadArtifact_ok _ _ _ _ _ _ (eq_refl : no_slash "tgwp-agent-download-")) in Hd as ([Htmp _] & x & Hx & Hsha).
  assert (Tr : touches (fun q => q = tmp \/ q = agent_staged) anything (or_clean (rename tmp agent_staged) (ignore (remove tmp)))).
  { assert ((fun q => q = tmp \/ q = agent_staged) tmp /\ (fun q => q = tmp \/ q = agent_staged) agent_staged) as [? ?] by tauto. touches. }
  assert (Hnt : ~ (bin = tmp \/ bin = agent_staged)) by (intros [->|?]; [done|congruence]).
  apply try_inv in Hr as [(e & Hren & ->)|([] & w4 & Hren & Hr)].
  { eapply upgrades_after; [exact Tr|exact Hnt|exact Hren|apply upgrades_none]. }
  eapply upgrades_after; [exact Tr|exact Hnt|exact Hren|]. clear Tr.
  apply or_clean_ok, on_file_ok in Hren as (y & Hy & Hf4). rewrite Hx in Hy. injection Hy as <-.
  apply deferred_inv in Hr as (w5 & v & Hr & Hc).
  eapply upgrades_before; [|apply Hrm| | |exact Hc]; [|congruence|congruence].
  assert (Tc : touches (fun q => q = agent_staged) anything (chmod agent_staged 493)) by touches.
  assert (Hnb : ~ bin = agent_staged) by congruence.
  apply try_inv in Hr as [(e & Hch & ->)|([] & w6 & Hch & Hr)].
  { eapply upgrades_after; [exact Tc|exact Hnb|exact Hch|apply upgrades_none]. }
  eapply upgrades_after; [exact Tc|exact Hnb|exact Hch|]. apply on_file_ok in Hch as (z & Hz & Hf6).
  rewrite Hf4, lookup_insert_eq in Hz. injection Hz as <-.
  eapply upgrades_replace; [exact N1|exact N2|exact Hne|intros; apply touches_agentHealthy| |exact Hr].
  exists (fdata x). split; [by rewrite Hf6, content_insert, decide_True|exact Hsha].
Qed.

End Component.

(** ** The command *)

Section Command.
Context `{Outside} `{Archive} `{ManifestCodec}.
Context (Version : string) (local_time : Z -> string) (o : UpgradeOptions).
Local Open Scope go_scope.

(** The questions of a run that changes nothing: versions are asked of the
    binaries and of telemt. *)
Definition inquiring : questions := fun _ e =>
  match e with
  | Exec argv => argv = [o_TelemtBin o; "--version"%string] \/ argv = [AgentBin o; "version"%string]
  | Control c => read_only c = true
  | _ => True
  end.

Lemma system_inquiring : system_ok inquiring.
Proof. by split. Qed.

Lemma touches_loadTelemtToken S E env token : system_ok E -> touches S E (loadTelemtToken env token).
Proof. intros HE. unfold loadTelemtToken. cbv zeta. touches. Qed.

Lemma touches_printed_version S (E : questions) argv : E _ (Exec argv) -> touches S E (printed_version argv).
Proof. intros HE. unfold printed_version. touches. Qed.

Lemma touches_installed S ctx env m token : touches S inquiring (installed Version o ctx env m token).
Proof.
  pose proof system_inquiring. pose proof touches_loadTelemtToken. unfold installed, installedTelemt, installedAgent.
  assert (touches S inquiring (printed_version [o_TelemtBin o; "--version"%string])) by (apply touches_printed_version; by left).
  assert (touches S inquiring (printed_version [AgentBin o; "version"%string])) by (apply touches_printed_version; by right).
  assert (inquiring _ (Control GetSystemInfo)) by done.
  touches.
Qed.

(** The panel answered the manifest [m]. *)
Definition fetched (m : UpgradeManifest) (w w' : world) : Prop :=
  exists l url resp, history w w' l /\ In (Did (Get url) (Ok resp)) l /\ resp_status resp = 200 /\
    resp_body_err resp = None /\ decode_manifest (limited (2 ^ 20) (resp_body resp)) = Some m.

Lemma fetched_mono m w w1 w2 w' : later w w1 -> fetched m w1 w2 -> later w2 w' -> fetched m w w'.
Proof.
  intros [l1 H1'] (l & url & resp & Hl & Hin & Hrest) [l2 H2'].
  exists (l2 ++ l ++ l1), url, resp. split; [|split; [|exact Hrest]].
  - eapply history_trans; [|exact H2']. by eapply history_trans.
  - apply in_or_app. right. apply in_or_app. by left.
Qed.

Lemma FetchUpgradeManifest_ok url w m w' : FetchUpgradeManifest url w = (Ok m, w') -> fetched m w w'.
Proof.
  intros (resp & w1 & Hg%wrapped_ok & Hr)%try_ok. apply ret_inv in Hr as [Hr <-].
  unfold perform in Hg. destruct (react _ _ _) as [[a d] o'] eqn:E. injection Hg as -> <-.
  destruct (resp_body_err resp) as [e|] eqn:Eb; [done|].
  destruct (resp_status resp =? 401) eqn:E1; [done|]. destruct (resp_status resp =? 200) eqn:E2; [|done]. cbn [negb] in Hr.
  destruct (decode_manifest _) as [m'|] eqn:Em; [|done]. destruct (String.eqb (Engine m') EmptyString); [done|].
  injection Hr as ->. bprop. eexists [_], _, resp. split; [done|]. split; [by left|]. done.
Qed.

(** The changes of a plan. *)
Definition planned (m : UpgradeManifest) (cs : list ComponentPlan) : Prop :=
  exists have, cs = Changes (BuildUpgradePlan m have (Scope o)).

(** A run gives up having changed nothing, or fetched a manifest, was
    confirmed unless there was nothing to do, and upgrades the planned
    components. *)
Lemma RunUpgrade_cases ctx w r w' : run Version local_time o ctx w = (r, w') ->
  (spans inquiring (same_off nothing (fs w)) w w' /\ fs w' = fs w /\ (CheckOnly o = false -> r <> Ok tt)) \/
  (exists m cs w1, spans inquiring (same_off nothing (fs w)) w w1 /\ fs w1 = fs w /\ fetched m w w1 /\ planned m cs /\
     CheckOnly o = false /\ (cs <> [] -> confirm o = Ok tt) /\ upgrade_all local_time o ctx cs w1 = (r, w')).
Proof.
  intros Hr. unfold run in Hr.
  assert (Hq : forall A (m : M A) a w1 w2, touches nothing inquiring m -> fs w1 = fs w -> m w1 = (a, w2) ->
            spans inquiring (same_off nothing (fs w)) w1 w2 /\ fs w2 = fs w).
  { intros A m a w1 w2 Ht Hf Hm. rewrite <- Hf. split; [exact (touches_spans _ _ _ _ _ _ _ Ht Hm)|by eapply nothing_fs]. }
  pose proof system_inquiring as HI.
  assert (Te : touches nothing inquiring (must_read (EnvPath o))) by touches.
  apply try_inv in Hr as [(e & Hm & ->)|(raw & w1 & Hm & Hr)];
    destruct (Hq _ _ _ _ _ Te eq_refl Hm) as [S1 F1]; [by left|].
  destruct (read_env raw) as [env|e]; [|apply ret_inv in Hr as [<- <-]; by left]. cbv zeta in Hr.
  destruct (_ || _); [apply ret_inv in Hr as [<- <-]; by left|].
  assert (Tf : forall u, touches nothing inquiring (FetchUpgradeManifest u)) by (intros; unfold FetchUpgradeManifest; touches).
  apply try_inv in Hr as [(e & Hf & ->)|(m & w2 & Hf & Hr)]; destruct (Hq _ _ _ _ _ (Tf _) F1 Hf) as [S2 F2];
    assert (S02 := spans_trans _ _ _ _ _ S1 S2); [by left|].
  apply FetchUpgradeManifest_ok in Hf. apply bind_inv in Hr as (have & w3 & Hi & Hr).
  destruct (Hq _ _ _ _ _ (touches_installed _ _ _ _ _) F2 Hi) as [S3 F3].
  assert (S03 := spans_trans _ _ _ _ _ S02 S3). cbv zeta in Hr.
  destruct (CheckOnly o) eqn:Ec; [apply ret_inv in Hr as [<- <-]; by left|].
  assert (Hl : forall a b, spans inquiring (same_off nothing (fs w)) a b -> later a b) by (intros a b (l & ? & _); by exists l).
  remember (Changes _) as all eqn:Ech in Hr. destruct all as [|c cs].
  { right. exists m, [], w3. split_and!; [done|done|exact (fetched_mono _ _ _ _ _ (Hl _ _ S1) Hf (Hl _ _ S3))|by eexists|done|done|done]. }
  assert (Tt : forall t l, touches nothing inquiring (token_for env t l)).
  { intros. pose proof touches_loadTelemtToken. unfold token_for. touches. }
  apply try_inv in Hr as [(e & Ht & ->)|(tk & w4 & Ht & Hr)];
    destruct (Hq _ _ _ _ _ (Tt _ _) F3 Ht) as [S4 F4];
    assert (S04 := spans_trans _ _ _ _ _ S03 S4); [by left|].
  destruct (confirm o) as [[]|e] eqn:Ecf; [|apply ret_inv in Hr as [<- <-]; by left].
  right. exists m, (c :: cs), w4. split_and!; [done|done| |by eexists|done|done|exact Hr].
  exact (fetched_mono _ _ _ _ _ (Hl _ _ S1) Hf (Hl _ _ (spans_trans _ _ _ _ _ S3 S4))).
Qed.

(** Without consent nothing changes: a run with --check, and a run whose
    prompt was declined or could not be asked, changes no file and restarts
    nothing; it only asks for versions. *)
Theorem unconfirmed_changes_nothing ctx w r w' :
  CheckOnly o = true \/ confirm o <> Ok tt -> run Version local_time o ctx w = (r, w') ->
  spans inquiring (same_off nothing (fs w)) w w' /\ fs w' = fs w.
Proof.
  intros Hno [(S & F & _)|(m & cs & w1 & S & F & _ & _ & Hc & Hcf & Hu)]%RunUpgrade_cases; [done|].
  destruct Hno as [Hno|Hno]; [congruence|]. destruct cs as [|c cs]; [|by destruct Hno; apply Hcf].
  by apply ret_inv in Hu as [_ <-].
Qed.

(** ** Whole runs *)

Hypothesis HP : upgrade_paths o.

Definition bin_of (c : ComponentPlan) : string :=
  if String.eqb (Name c) ComponentTelemt then o_TelemtBin o else AgentBin o.

(** The builds that satisfy a component: telemt's archive has the pinned sha256
    and holds the binary, the agent's file has it itself. *)
Definition build_of (c : ComponentPlan) (b : string) : Prop :=
  if String.eqb (Name c) ComponentTelemt then genuine (art_SHA256 (Artifact c)) b
  else pinned_sum (art_SHA256 (Artifact c)) b.

Definition known_component (c : ComponentPlan) : Prop := Name c = ComponentTelemt \/ Name c = ComponentAgent.

Definition upgrade_one (ctx : context) (c : ComponentPlan) : M (result unit) :=
  if String.eqb (Name c) ComponentTelemt then upgradeTelemt o ctx c
  else if String.eqb (Name c) ComponentAgent then upgradeAgent local_time o c else mret (Ok tt).

Lemma bins_differ : o_TelemtBin o <> AgentBin o.
Proof. intros E. destruct (upgrade_ne o HP) as (Hn & _). apply Hn. unfold agent_files. tauto. Qed.

Lemma bin_of_name c c' : known_component c -> known_component c' -> bin_of c = bin_of c' -> Name c = Name c'.
Proof.
  pose proof bins_differ as Hd. unfold bin_of. intros [-> | ->] [-> | ->]; cbn; congruence.
Qed.

(** Upgrading one component leaves the other binary alone. *)
Lemma upgrade_one_spec ctx c w r w' : known_component c -> upgrade_one ctx c w = (r, w') ->
  upgrades (bin_of c) (build_of c) w r w' /\
  (forall bin, bin ∈ [o_TelemtBin o; AgentBin o] -> bin <> bin_of c ->
     spans anything (fun g => content g bin = content (fs w) bin) w w' /\ content (fs w') bin = content (fs w) bin).
Proof.
  destruct (upgrade_ne o HP) as (Na & _ & Nt & _). intros Hc Hr. unfold upgrade_one in Hr. unfold bin_of.
  assert (Hu : upgrades (if String.eqb (Name c) ComponentTelemt then o_TelemtBin o else AgentBin o) (build_of c) w r w').
  { unfold build_of. destruct Hc as [E|E]; rewrite E in *; cbn in Hr |- *; [by eapply upgradeTelemt_spec|by eapply upgradeAgent_spec]. }
  split; [exact Hu|]. intros bin Hin Hne.
  assert (Ht : exists S, touches S anything (upgrade_one ctx c) /\ ~ S bin).
  { unfold upgrade_one. rewrite !elem_of_cons, elem_of_nil in Hin.
    destruct Hc as [E|E]; rewrite E in *; cbn in Hne |- *.
    - exists (telemt_files o). split; [by apply touches_upgradeTelemt|]. by destruct Hin as [->|[->|[]]].
    - exists (agent_files o). split; [by apply touches_upgradeAgent|]. by destruct Hin as [->|[->|[]]]. }
  destruct Ht as (S & Ht & HS). change (upgrade_one ctx c w = (r, w')) in Hr. split.
  - eapply spans_mono; [done| |exact (touches_spans _ _ _ _ _ _ _ Ht Hr)]. intros g Hg. unfold content. by rewrite (Hg bin HS).
  - unfold content. by rewrite (touches_fs _ _ _ _ _ _ _ Ht Hr bin HS).
Qed.

(** Each binary is as it was in [f], or a build the plan asks for. *)
Definition runnable (cs : list ComponentPlan) (f g : files) : Prop :=
  forall bin, bin ∈ [o_TelemtBin o; AgentBin o] ->
  content g bin = content f bin \/ exists c, c ∈ cs /\ bin_of c = bin /\ built (build_of c) bin g.

Lemma runnable_cons c cs f h g : known_component c ->
  built (build_of c) (bin_of c) h ->
  (forall bin, bin ∈ [o_TelemtBin o; AgentBin o] -> bin <> bin_of c -> content h bin = content f bin) ->
  runnable cs h g -> runnable (c :: cs) f g.
Proof.
  intros Hc (b & Hb & HPb) Ho Hg bin Hin. destruct (Hg bin Hin) as [E|(c' & Hc' & Hrest)].
  - destruct (decide (bin = bin_of c)) as [->|Hne]; [right|left; by rewrite E, Ho].
    exists c. split; [by left|]. split; [done|]. exists b. by rewrite E.
  - right. exists c'. split; [by right|done].
Qed.

Lemma upgrade_all_spec ctx cs w r w' :
  Forall known_component cs -> NoDup (map Name cs) -> upgrade_all local_time o ctx cs w = (r, w') ->
  spans anything (runnable cs (fs w)) w w' /\ runnable cs (fs w) (fs w') /\
  (r = Ok tt -> forall c, c ∈ cs -> built (build_of c) (bin_of c) (fs w')).
Proof.
  revert w. induction cs as [|c cs IH]; intros w Hk Hd Hr; cbn [upgrade_all] in Hr.
  { apply ret_inv in Hr as [_ <-]. split_and!; [by exists []|by intros ? ?; left|by intros _ c ?%elem_of_nil]. }
  inversion Hk as [|? ? Hc Hk']. inversion Hd as [|? ? Hn Hd']. subst. cbn in Hn.
  fold (upgrade_one ctx c) in Hr.
  assert (Hone : forall r1 w1, upgrade_one ctx c w = (r1, w1) ->
            spans anything (runnable (c :: cs) (fs w)) w w1 /\ runnable (c :: cs) (fs w) (fs w1) /\
            (r1 = Ok tt -> built (build_of c) (bin_of c) (fs w1)) /\
            (forall bin, bin ∈ [o_TelemtBin o; AgentBin o] -> bin <> bin_of c -> content (fs w1) bin = content (fs w) bin)).
  { intros r1 w1 H1'. destruct (upgrade_one_spec _ _ _ _ _ Hc H1') as [[Hs He] Ho].
    assert (Hb : bin_of c ∈ [o_TelemtBin o; AgentBin o]) by (unfold bin_of; destruct (String.eqb _ _); set_solver).
    assert (Hspan : forall bin, bin ∈ [o_TelemtBin o; AgentBin o] -> bin <> bin_of c ->
              spans anything (fun g => content g bin = content (fs w) bin) w w1) by (intros bin H2' H3'; by apply Ho).
    assert (HR : forall g, content g (bin_of c) = content (fs w) (bin_of c) \/ built (build_of c) (bin_of c) g ->
              (forall bin, bin ∈ [o_TelemtBin o; AgentBin o] -> bin <> bin_of c -> content g bin = content (fs w) bin) ->
              runnable (c :: cs) (fs w) g).
    { intros g Hg Hrest bin Hin. destruct (decide (bin = bin_of c)) as [->|Hne]; [|left; by apply Hrest].
      destruct Hg as [?|?]; [by left|right]. exists c. split; [by left|done]. }
    split_and!.
    - destruct Hs as (l & Hl & HF). exists l. split; [done|]. apply Forall_forall. intros ev Hev.
      rewrite Forall_forall in HF. specialize (HF _ Hev). destruct ev as [g|A e a]; [|done]. cbn in *.
      apply HR; [done|]. intros bin Hin Hne. destruct (Hspan bin Hin Hne) as (l' & Hl' & HF').
      unfold history in *. rewrite Hl in Hl'. apply app_inv_tail in Hl' as <-.
      rewrite Forall_forall in HF'. exact (HF' _ Hev).
    - apply HR; [|intros; by apply Ho]. destruct r1; cbn in He; [by right|tauto].
    - by intros ->.
    - intros bin Hin Hne. by apply Ho. }
  apply try_inv in Hr as [(e & H1' & ->)|([] & w1 & H1' & Hr)]; destruct (Hone _ _ H1') as (S1 & R1 & B1 & O1); [done|].
  specialize (B1 eq_refl). destruct (IH _ Hk' Hd' Hr) as (S2 & R2 & B2). split_and!.
  - eapply spans_trans; [exact S1|]. eapply spans_mono; [done| |exact S2]. intros g. by apply runnable_cons.
  - by eapply runnable_cons.
  - intros Hok c' [->|Hin]%elem_of_cons; [|by apply B2].
    assert (Hb : bin_of c ∈ [o_TelemtBin o; AgentBin o]) by (unfold bin_of; destruct (String.eqb _ _); set_solver).
    destruct (R2 _ Hb) as [E|(c' & Hin & E & _)].
    + destruct B1 as (b & Hb1 & HPb). exists b. by rewrite E.
    + exfalso. apply Hn. rewrite list_elem_of_In. rewrite Forall_forall in Hk'.
      rewrite <- (bin_of_name _ _ (Hk' _ Hin) Hc E). by apply in_map, list_elem_of_In.
Qed.

Lemma planned_known m cs : planned m cs -> Forall known_component cs /\ NoDup (map Name cs).
Proof.
  intros [have ->]. pose proof (changes_sublist m have (Scope o)) as Hs. split.
  - apply Forall_forall. intros c Hc.
    assert (Hn : Name c ∈ [ComponentTelemt; ComponentAgent]).
    { eapply elem_of_sublist; [|exact Hs]. apply list_elem_of_In, in_map. by apply list_elem_of_In. }
    rewrite !elem_of_cons, elem_of_nil in Hn. unfold known_component. tauto.
  - eapply sublist_NoDup; [|exact Hs]. apply NoDup_cons. rewrite list_elem_of_singleton. split; [done|apply NoDup_singleton].
Qed.

(** C17: an upgrade never leaves the node without something to run: at every
    instant, whatever fails, each binary is what it was before the run or the
    build that the manifest the panel just served pins for it. *)
Theorem upgrade_keeps_runnable ctx w r w' : run Version local_time o ctx w = (r, w') ->
  exists cs, (cs = [] \/ exists m, fetched m w w' /\ planned m cs) /\
    spans anything (runnable cs (fs w)) w w' /\ runnable cs (fs w) (fs w').
Proof.
  intros [(S & F & _)|(m & cs & w1 & S & F & Hf & Hp & _ & _ & Hu)]%RunUpgrade_cases.
  - exists []. split; [by left|]. rewrite F. split; [|by intros ? ?; left].
    eapply spans_mono; [done| |exact S]. intros g Hg bin _. left. unfold content. by rewrite (Hg bin (fun x => x)).
  - destruct (planned_known _ _ Hp) as [Hk Hd]. destruct (upgrade_all_spec _ _ _ _ _ Hk Hd Hu) as (S2 & R2 & _).
    rewrite F in *. exists cs. split_and!; [right| |done].
    + exists m. split; [|done]. eapply (fetched_mono _ _ _ _ _ (later_refl _)); [exact Hf|]. destruct S2 as (l & ? & _). by exists l.
    + eapply spans_trans; [|exact S2]. eapply spans_mono; [done| |exact S]. intros g Hg bin _. left.
      unfold content. by rewrite (Hg bin (fun x => x)).
Qed.

(** An upgrade that reports success put every planned build in place: each
    component the manifest pins, in scope and at another version, is the build
    with the pinned checksum. *)
Theorem upgrade_installs_pinned ctx w w' : CheckOnly o = false ->
  run Version local_time o ctx w = (Ok tt, w') ->
  exists m have, fetched m w w' /\
    forall c, c ∈ Changes (BuildUpgradePlan m have (Scope o)) -> built (build_of c) (bin_of c) (fs w').
Proof.
  intros Hc [(_ & _ & Hno)|(m & cs & w1 & S & F & Hf & [have Hp] & _ & _ & Hu)]%RunUpgrade_cases; [by destruct (Hno Hc)|].
  assert (Hpl : planned m cs) by by exists have. destruct (planned_known _ _ Hpl) as [Hk Hd].
  destruct (upgrade_all_spec _ _ _ _ _ Hk Hd Hu) as (S2 & _ & B2). exists m, have. subst cs. split; [|by apply B2].
  eapply (fetched_mono _ _ _ _ _ (later_refl _)); [exact Hf|]. destruct S2 as (l & ? & _). by exists l.
Qed.

(** C18: a component whose upgrade failed can be brought back: its binary is the
    one it had, or the verified new build with the old binary kept next to it. *)
Theorem failed_upgrade_recoverable ctx c w e w' : Name c = ComponentTelemt \/ Name c = ComponentAgent ->
  (if String.eqb (Name c) ComponentTelemt then upgradeTelemt o ctx c w else upgradeAgent local_time o c w) = (Err e, w') ->
  let bin := bin_of c in let old := content (fs w) bin in
  content (fs w') bin = old \/
  (built (build_of c) bin (fs w') /\ (old = None \/ content (fs w') (prev_of bin) = old)).
Proof.
  intros Hc Hr bin old.
  assert (Hu : upgrade_one ctx c w = (Err e, w')).
  { unfold upgrade_one. destruct Hc as [E|E]; rewrite E in *; exact Hr. }
  exact (proj2 (proj1 (upgrade_one_spec _ _ _ _ _ Hc Hu))).
Qed.

End Command.

(** ** A simulated upgrade

    A node, its systemd and a panel behind [Outside], on which the upgrade
    command of [UpgradeRun] runs: the witnesses of [UpgradeSafety]. *)

Module USim.

Definition telemt : string := "/usr/local/bin/telemt".
Definition agent : string := "/usr/local/bin/tgwp-agent".
Definition env_path : string := "/etc/tgwp-agent/agent.env".

(** What telemt was started from, and the next random number. *)
Record machine := { started : string; seed : Z }.

(** Binaries print their content as their version; a telemt that says
    [broken] never becomes ready. *)
Definition exec (argv : list string) (f : files) (t : machine) : (string * option error) * machine :=
  let says s := ((s, None), t) in
  let verb := default EmptyString (argv !! 1%nat) in
  if String.eqb verb "--version" || String.eqb verb "version"
  then says (default EmptyString (content f (default EmptyString (head argv))))
  else if String.eqb verb "is-active" then says "active"
  else if String.eqb verb "-u" then says "connected to panel"
  else if String.eqb (default EmptyString (argv !! 2%nat)) "telemt"
  then ((EmptyString, None), {| started := default EmptyString (content f telemt); seed := seed t |})
  else says EmptyString.

(** The panel serves a manifest and the two builds by the end of the URL. *)
Definition served (url : string) : string :=
  if Str.has_suffix url UpgradePath then (if Str.contains url "bad" then "bad" else "good")
  else if Str.has_suffix url "telemt" then "telemt 3.5.8"
  else if Str.has_suffix url "broken" then "broken" else "agent 0.2.0".

Definition answer {A} (c : call A) (t : machine) : A + apierror :=
  match c in call A return A + apierror with
  | GetSystemInfo => inl {| TelemtTypes.Version := started t |}
  | GetReady => inl {| Ready := negb (String.eqb (started t) "broken"); Reason := "booting" |}
  | _ => inr (APIError 404 "not_found" "no such route")
  end.

Definition sim_react (A : Type) (e : effect A) (f : files) (t : machine) : A * Z * machine :=
  match e in effect A return A * Z * machine with
  | Fault _ => (None, 0, t)
  | ShortWrite _ => (O, 0, t)
  | Random => (seed t, 0, {| started := started t; seed := seed t + 1 |})
  | NewUUID => ("id", 0, t)
  | Select => (false, 0, t)
  | Exec argv => let '(a, t) := exec argv f t in (a, Tm.millisecond, t)
  | Get url => (Ok {| resp_status := 200; resp_body := served url; resp_body_err := None |}, Tm.second, t)
  | Decoy => (None, 0, t)
  | Fetch _ _ => (Err "unreachable"%string, 0, t)
  | Rewritten _ => (None, 0, t)
  | Dial _ _ => (None, 0, t)
  | Control c => (answer c t, Tm.millisecond, t)
  end.

#[export] Instance machine_node : Outside := {| outside := machine; umask := 18; self := (0, 0); react := sim_react |}.
#[export] Instance one_file : Archive := {| tar_items s := Ok [Entry true "telemt" s None] |}.

Definition manifest (v url body : string) : UpgradeManifest :=
  {| Engine := EngineTelemt; Telemt := Some {| art_Version := v; art_SHA256 := Sha.hex body; art_URL := url |}; TProxy := None;
     Agent := {| art_Version := "0.2.0"; art_SHA256 := Sha.hex "agent 0.2.0"; art_URL := "https://panel/agent" |} |}.

#[export] Instance manifests : ManifestCodec := {|
  decode_manifest s :=
    if String.eqb s "good" then Some (manifest "3.5.8" "https://panel/telemt" "telemt 3.5.8")
    else if String.eqb s "bad" then Some (manifest "3.5.9" "https://panel/broken" "broken") else None |}.

Definition options (check yes : bool) : UpgradeOptions :=
  {| EnvPath := env_path; Scope := {| scope_Telemt := false; scope_Agent := false |}; CheckOnly := check; Yes := yes;
     TTY := false; Answer := EmptyString; AgentBin := agent; o_TelemtBin := telemt; o_HealthWait := 3 * Tm.second |}.

Definition a_file (s : string) : File := {| fdata := s; fmode := 493; fowner := (0, 0) |}.

Definition start (panel : string) : world :=
  {| now := 1700000000000000000;
     fs := {[ telemt := a_file "telemt 3.5.7"; agent := a_file "agent 0.1.0";
              env_path := a_file ("TGWP_PANEL_URL=https://" +:+ panel +:+ String newline ("TGWP_TOKEN=t" +:+ String newline ("TGWP_TELEMT_API_TOKEN=s"))) ]};
     events := []; out := {| started := "telemt 3.5.7"; seed := 1 |}; instance := EmptyString; upd := None; maintenance := false |}.

Definition local (t : Z) : string := "now".

Definition upgraded (check yes : bool) (panel : string) : result unit * world :=
  run "0.1.0" local (options check yes) None (start panel).

Definition succeeded {A} (r : result A) : bool := match r with Ok _ => true | Err _ => false end.

Lemma paths (check yes : bool) : upgrade_paths (options check yes).
Proof.
  assert (E : upgrade_keys (options check yes) = ["/usr/local/bin/telemt"; "/usr/local/bin/telemt.prev"; "/usr/local/bin/tgwp-agent";
    "/usr/local/bin/tgwp-agent.prev"; "/usr/local/bin/tgwp-agent.new"]%string) by by vm_compute.
  split; rewrite E.
  - repeat (apply NoDup_cons; split; [repeat (apply not_elem_of_cons; split; [discriminate|]); apply not_elem_of_nil|]).
    apply NoDup_nil_2.
  - repeat constructor; by vm_compute.
Qed.

(** The component the run against a panel with a broken build fails on. *)
Definition broken : ComponentPlan :=
  componentPlan ComponentTelemt "3.5.7" {| art_Version := "3.5.9"; art_SHA256 := Sha.hex "broken"; art_URL := "https://panel/broken" |}.

End USim.

Import USim.

(** A good build of both components is installed. *)
Example upgrade_good : succeeded (upgraded false true "panel").1 = true /\
  content (fs (upgraded false true "panel").2) telemt = Some "telemt 3.5.8" /\
  content (fs (upgraded false true "panel").2) agent = Some "agent 0.2.0".
Proof. repeat (apply conj; [vm_compute; reflexivity|]). vm_compute; reflexivity. Qed.

(** A telemt that does not come up is taken back, and the agent is not touched. *)
Example upgrade_bad : succeeded (upgraded false true "bad").1 = false /\
  content (fs (upgraded false true "bad").2) telemt = Some "telemt 3.5.7" /\
  content (fs (upgraded false true "bad").2) agent = Some "agent 0.1.0" /\
  started (out (upgraded false true "bad").2) = "telemt 3.5.7".
Proof. repeat (apply conj; [vm_compute; reflexivity|]). vm_compute; reflexivity. Qed.

Lemma unconfirmed_changes_nothing_witness :
  spans (inquiring (options true true)) (same_off nothing (fs (start "panel"))) (start "panel") (upgraded true true "panel").2 /\
  spans (inquiring (options false false)) (same_off nothing (fs (start "panel"))) (start "panel") (upgraded false false "panel").2.
Proof.
  split.
  - exact (proj1 (unconfirmed_changes_nothing "0.1.0" local (options true true) None _ _ _ (or_introl eq_refl) (surjective_pairing _))).
  - assert (Hc : confirm (options false false) <> Ok tt) by discriminate.
    exact (proj1 (unconfirmed_changes_nothing "0.1.0" local (options false false) None _ _ _ (or_intror Hc) (surjective_pairing _))).
Defined.

Lemma upgrade_keeps_runnable_witness : exists cs,
  spans anything (runnable (options false true) cs (fs (start "bad"))) (start "bad") (upgraded false true "bad").2 /\
  runnable (options false true) cs (fs (start "bad")) (fs (upgraded false true "bad").2).
Proof.
  destruct (upgrade_keeps_runnable "0.1.0" local (options false true) (paths false true) None _ _ _
    (surjective_pairing (upgraded false true "bad"))) as (cs & _ & Hs & Hr).
  exists cs. exact (conj Hs Hr).
Defined.

Lemma upgrade_installs_pinned_witness :
  exists m have, fetched m (start "panel") (upgraded false true "panel").2 /\
    forall c, c ∈ Changes (BuildUpgradePlan m have (Scope (options false true))) ->
      built (build_of c) (bin_of (options false true) c) (fs (upgraded false true "panel").2).
Proof.
  assert (Hs : succeeded (upgraded false true "panel").1 = true) by (vm_compute; reflexivity).
  apply (upgrade_installs_pinned "0.1.0" local (options false true) (paths false true) None _ _ eq_refl).
  change (upgraded false true "panel" = (Ok tt, (upgraded false true "panel").2)).
  destruct (upgraded false true "panel") as [[[]|e] w]; [reflexivity|discriminate Hs].
Defined.

Lemma failed_upgrade_recoverable_witness :
  let w' := (upgradeTelemt (options false true) None broken (start "bad")).2 in
  content (fs w') telemt = Some "telemt 3.5.7" /\
  (content (fs w') telemt = content (fs (start "bad")) telemt \/
   (built (build_of broken) telemt (fs w') /\
    (content (fs (start "bad")) telemt = None \/ content (fs w') (prev_of telemt) = content (fs (start "bad")) telemt))).
Proof.
  cbv zeta. split; [vm_compute; reflexivity|].
  assert (Hf : exists e, (upgradeTelemt (options false true) None broken (start "bad")).1 = Err e) by (vm_compute; eexists; reflexivity).
  destruct Hf as [e He].
  apply (failed_upgrade_recoverable local (options false true) (paths false true) None broken _ e _ (or_introl eq_refl)).
  change (upgradeTelemt (options false true) None broken (start "bad") = (Err e, (upgradeTelemt (options false true) None broken (start "bad")).2)).
  rewrite <- He. apply surjective_pairing.
Defined.
