(* ===== verification/Reliability.v ===== *)
(** * The reliability contract

    internal/reliability/types.go: the recovery policy and its validation, the
    events of recovery; the rest of the report is in [Findings].

    [Net] holds what the validation uses of packages [net] and [netip]. *)

From S2P Require Import Prelude.

(** ** Addresses *)

Module Net.

(** The text after the last [b] and the text before it. *)
Fixpoint split_last (s : string) (b : ascii) : option (string * string) :=
  match s with
  | EmptyString => None
  | String c s =>
      match split_last s b with
      | Some (u, v) => Some (String c u, v)
      | None => if Ascii.eqb c b then Some (EmptyString, s) else None
      end
  end.

(** [net.SplitHostPort] *)
Definition SplitHostPort (hostport : string) : option (string * string) :=
  match split_last hostport ":" with
  | None => None
  | Some (before, port) =>
      let free s := negb (Str.contains_byte s "[") && negb (Str.contains_byte s "]") in
      match hostport with
      | String "[" rest =>
          let '(host, _, closed) := Str.cut rest "]" in
          (* the bracket closes right before the last colon *)
          if closed && String.eqb before (String "[" (host +:+ "]")) &&
             negb (Str.contains_byte host "[") && free port
          then Some (host, port) else None
      | _ =>
          if Str.contains_byte before ":" || negb (free hostport) then None else Some (before, port)
      end
  end.

(** A decimal field of an IPv4 address. *)
Definition octet (s : string) : option Z :=
  match s with
  | String "0" (String _ _) => None
  | _ =>
      if (3 <? String.length s)%nat || existsb (fun c => negb (Dec.is_digit c)) (Str.bytes s) then None
      else match Dec.parse_nonempty s with
           | Some n => if n <=? 255 then Some n else None
           | None => None
           end
  end.

Definition parse_v4 (s : string) : option (list Z) :=
  match Str.split "." s with
  | [a; b; c; d] =>
      match octet a, octet b, octet c, octet d with
      | Some a, Some b, Some c, Some d => Some [a; b; c; d]
      | _, _, _, _ => None
      end
  | _ => None
  end.

Definition hex_value (c : ascii) : option Z :=
  let n := Z.of_nat (nat_of_ascii c) in
  if (48 <=? n) && (n <=? 57) then Some (n - 48)
  else if (97 <=? n) && (n <=? 102) then Some (n - 87)
  else if (65 <=? n) && (n <=? 70) then Some (n - 55)
  else None.

(** The leading hexadecimal digits: their number, their value, and the rest. *)
Fixpoint hex_run (s : string) (n : nat) (acc : Z) : nat * Z * string :=
  match s with
  | EmptyString => (n, acc, EmptyString)
  | String c t => match hex_value c with Some d => hex_run t (S n) (16 * acc + d) | None => (n, acc, s) end
  end.

(** The groups of an IPv6 address after [bytes]; [ell] is where [::] was. *)
Fixpoint v6_groups (groups : nat) (s : string) (bytes : list Z) (ell : option nat) : option (list Z * option nat) :=
  match groups with
  | O => if String.eqb s EmptyString then Some (bytes, ell) else None
  | S groups =>
      let '(off, acc, rest) := hex_run s 0 0 in
      if (off =? 0)%nat || (4 <? off)%nat then None
      else match rest with
      | String "." _ =>
          if (match ell with None => negb (length bytes =? 12)%nat | Some _ => false end) || (12 <? length bytes)%nat then None
          else match parse_v4 s with Some v4 => Some (bytes ++ v4, ell) | None => None end
      | _ =>
          let bytes := bytes ++ [acc / 256; acc mod 256] in
          match rest with
          | EmptyString => Some (bytes, ell)
          | String ":" (String ":" t) =>
              match ell with
              | Some _ => None
              | None => if String.eqb t EmptyString then Some (bytes, Some (length bytes))
                        else v6_groups groups t bytes (Some (length bytes))
              end
          | String ":" EmptyString => None
          | String ":" t => v6_groups groups t bytes ell
          | _ => None
          end
      end
  end.

Definition parse_v6 (s : string) : option (list Z) :=
  let parsed :=
    match s with
    | String ":" (String ":" t) => if String.eqb t EmptyString then Some ([], Some O) else v6_groups 8 t [] (Some O)
    | _ => v6_groups 8 s [] None
    end in
  match parsed with
  | None => None
  | Some (bytes, ell) =>
      let n := length bytes in
      match ell with
      | None => if (n =? 16)%nat then Some bytes else None
      | Some e => if (n <? 16)%nat then Some (take e bytes ++ replicate (16 - n) 0 ++ drop e bytes) else None
      end
  end.

(** The first byte that decides the family of an address. *)
Fixpoint family (s : string) : option ascii :=
  match s with
  | EmptyString => None
  | String c s => if Ascii.eqb c "." || Ascii.eqb c ":" || Ascii.eqb c "%" then Some c else family s
  end.

(** [net.ParseIP], in its 16-byte form; an address with a zone is refused. *)
Definition ParseIP (s : string) : option (list Z) :=
  match family s with
  | Some "."%char => app (replicate 10 0 ++ [255; 255]) <$> parse_v4 s
  | Some ":"%char => if Str.contains_byte s "%" then None else parse_v6 s
  | _ => None
  end.

Definition IsLoopback (ip : list Z) : bool :=
  if bool_decide (take 12 ip = replicate 10 0 ++ [255; 255]) then bool_decide (ip !! 12%nat = Some 127)
  else bool_decide (ip = replicate 15 0 ++ [1]).

Example loopbacks : map (fun s => IsLoopback <$> ParseIP s)
  ["127.0.0.1"; "127.9.8.7"; "10.0.0.1"; "::1"; "0:0:0:0:0:0:0:1"; "::ffff:127.0.0.1"; "::"; "fe80::1%eth0"; "127.0.0.01"; "1::2::3"; "localhost"]%string =
  [Some true; Some true; Some false; Some true; Some true; Some true; Some false; None; None; None; None].
Proof. reflexivity. Qed.

Example endpoints : map SplitHostPort ["127.0.0.1:1080"; "[::1]:1080"; "::1:1080"; "127.0.0.1"; "[::1]"; ":80"]%string =
  [Some ("127.0.0.1", "1080"); Some ("::1", "1080"); None; None; None; Some (EmptyString, "80")]%string.
Proof. reflexivity. Qed.

End Net.

(** ** The policy *)

Local Open Scope go_scope.

Record Policy := {
  RestorePrimary : bool;
  Recovery : string;
  Maintenance : bool;
  FailureThreshold : Z;
  CooldownSeconds : Z;
  MaxActionsHour : Z;
  Egress : string;
  SOCKSAddress : string;
  ReserveSOCKSAddress : string;
  AutomaticFailover : bool
}.

Definition DefaultPolicy : Policy :=
  {| RestorePrimary := false; Recovery := "observe"; Maintenance := false; FailureThreshold := 3; CooldownSeconds := 300;
     MaxActionsHour := 2; Egress := "unmanaged"; SOCKSAddress := EmptyString; ReserveSOCKSAddress := EmptyString;
     AutomaticFailover := false |}.

(** One SOCKS endpoint: empty, or a numeric loopback address with a port. *)
Definition endpoint_ok (addr : string) : bool :=
  String.eqb addr EmptyString ||
  match Net.SplitHostPort addr with
  | None => false
  | Some (host, port) =>
      match Dec.atoi port, Net.ParseIP host with
      | Some n, Some ip => (1 <=? n) && (n <=? 65535) && Net.IsLoopback ip
      | _, _ => false
      end
  end.

Definition Validate (p : Policy) : option error :=
  fail_if (negb (String.eqb (Recovery p) "observe") && negb (String.eqb (Recovery p) "restart"))
    "recovery must be observe or restart"
  ;;? fail_if ((FailureThreshold p <? 2) || (FailureThreshold p >? 20) || (CooldownSeconds p <? 60) ||
               (CooldownSeconds p >? 86400) || (MaxActionsHour p <? 1) || (MaxActionsHour p >? 6))
    "invalid recovery thresholds"
  ;;? fail_if (negb (String.eqb (Egress p) "unmanaged") && negb (String.eqb (Egress p) "direct") && negb (String.eqb (Egress p) "socks5"))
    "invalid egress mode"
  ;;? first_error (fun addr => fail_if (negb (endpoint_ok addr))
        "SOCKS endpoint must be a numeric loopback address and port; run the tunnel on this node")
        [SOCKSAddress p; ReserveSOCKSAddress p]
  ;;? fail_if (String.eqb (Egress p) "socks5" && String.eqb (SOCKSAddress p) EmptyString) "primary SOCKS endpoint is required"
  ;;? fail_if (AutomaticFailover p && String.eqb (Egress p) "socks5" && String.eqb (ReserveSOCKSAddress p) (SOCKSAddress p))
    "reserve endpoint must differ from primary"
  ;;? fail_if (AutomaticFailover p && (String.eqb (Egress p) "unmanaged" || String.eqb (ReserveSOCKSAddress p) EmptyString))
    "automatic failover requires managed egress and a reserve SOCKS endpoint".

Record ReliabilityEvent := { ev_At : Z; Action : string; Result : string }.
