(* ===== verification/Url.v ===== *)
(** * Package net/url

    What the sources use of [url.Parse] and of a parsed URL, as in Go 1.26:
    the scheme, the authority with its user and its host, the path, the query
    and the fragment, the percent escapes of each, and [URL.String] for URLs
    with a host.  [GODEBUG] is at its defaults. *)

From S2P Require Import Prelude Reliability.

Local Open Scope go_scope.

Module Url.

Record URL := {
  Scheme : string; Opaque : string;
  User : option string;
  Host : string;
  Path : string;
  OmitHost : bool; ForceQuery : bool; RawQuery : string; Fragment : string
}.

(** ** Bytes *)

Definition is_letter (c : ascii) : bool :=
  let n := nat_of_ascii c in ((97 <=? n) && (n <=? 122) || (65 <=? n) && (n <=? 90))%nat.

Definition one_of (set : string) (c : ascii) : bool := Str.contains_byte set c.

(** A control byte. *)
Definition is_ctl (c : ascii) : bool := let n := nat_of_ascii c in ((n <? 32) || (n =? 127))%nat.

Definition any (f : ascii -> bool) (s : string) : bool := existsb f (Str.bytes s).

(** ** Percent escapes *)

Inductive encoding := encodePath | encodeHost | encodeZone | encodeUserPassword | encodeFragment.

Definition is_host (m : encoding) : bool := match m with encodeHost | encodeZone => true | _ => false end.

(** The double quote. *)
Definition quote_char : ascii := ascii_of_nat 34.

Definition shouldEscape (c : ascii) (m : encoding) : bool :=
  if is_letter c || Dec.is_digit c then false
  else if is_host m && (one_of "!$&'()*+,;=:[]<>" c || Ascii.eqb c quote_char) then false
  else if one_of "-_.~" c then false
  else if one_of "$&+,/:;=?@" c then
    match m with
    | encodePath => Ascii.eqb c "?"
    | encodeUserPassword => one_of "@/?:" c
    | encodeFragment => false
    | _ => true
    end
  else if match m with encodeFragment => one_of "!()*" c | _ => false end then false
  else true.

Definition hex_byte (a b : ascii) : option ascii :=
  match Net.hex_value a, Net.hex_value b with
  | Some x, Some y => Some (ascii_of_nat (Z.to_nat (16 * x + y)))
  | _, _ => None
  end.

(** [unescape]; [None] is any of its errors. *)
Fixpoint unescape (m : encoding) (s : string) : option string :=
  match s with
  | EmptyString => Some EmptyString
  | String "%" (String a (String b t)) =>
      match hex_byte a b with
      | None => None
      | Some v =>
          let is_percent := String.eqb (String a (String b EmptyString)) "25" in
          if match m with
             | encodeHost => (nat_of_ascii v <? 128)%nat && negb is_percent
             | encodeZone => negb is_percent && negb (Ascii.eqb v " ") && shouldEscape v encodeHost
             | _ => false
             end then None
          else String v <$> unescape m t
      end
  | String "%" _ => None
  | String c t =>
      if is_host m && (nat_of_ascii c <? 128)%nat && shouldEscape c m then None else String c <$> unescape m t
  end.

Definition hex_upper (n : nat) : ascii := ascii_of_nat (if (n <? 10)%nat then 48 + n else 55 + n).

Fixpoint escape (m : encoding) (s : string) : string :=
  match s with
  | EmptyString => EmptyString
  | String c t =>
      if shouldEscape c m
      then let n := nat_of_ascii c in String "%" (String (hex_upper (n / 16)) (String (hex_upper (n mod 16)) (escape m t)))
      else String c (escape m t)
  end.

(** ** The parts *)

(** The scheme before a colon; [None] is a missing scheme. *)
Fixpoint scheme_run (acc : string) (raw s : string) : option (string * string) :=
  match s with
  | EmptyString => Some (EmptyString, raw)
  | String c t =>
      if is_letter c then scheme_run (acc +:+ String c EmptyString) raw t
      else if Dec.is_digit c || one_of "+-." c then
        if String.eqb acc EmptyString then Some (EmptyString, raw) else scheme_run (acc +:+ String c EmptyString) raw t
      else if Ascii.eqb c ":" then if String.eqb acc EmptyString then None else Some (acc, t)
      else Some (EmptyString, raw)
  end.

Definition getScheme (raw : string) : option (string * string) := scheme_run EmptyString raw raw.

Definition validOptionalPort (port : string) : bool :=
  match port with
  | EmptyString => true
  | String ":" t => forallb Dec.is_digit (Str.bytes t)
  | _ => false
  end.

(** Split at the first occurrence of a text. *)
Fixpoint split_at (sep s : string) : option (string * string) :=
  if Str.has_prefix s sep then Some (EmptyString, s)
  else match s with
       | EmptyString => None
       | String c t => match split_at sep t with Some (u, v) => Some (String c u, v) | None => None end
       end.

(** [netip.ParseAddr] of a text that must be an IPv6 address, with or without a
    zone. *)
Definition is_v6_literal (s : string) : bool :=
  match Str.cut s "%" with
  | (addr, zone, has_zone) =>
      (negb has_zone || negb (String.eqb zone EmptyString)) && Str.contains_byte addr ":" &&
      match Net.family addr with Some ":"%char => bool_decide (is_Some (Net.parse_v6 addr)) | _ => false end
  end.

Definition strict_colons (scheme : string) : bool := String.eqb scheme "http" || String.eqb scheme "https".

(** [parseHost]; [None] is any of its errors. *)
Definition parseHost (scheme host : string) : option string :=
  match Net.split_last host "[" with
  | Some (EmptyString, rest) =>
      match Net.split_last rest "]" with
      | None => None
      | Some (inner, port) =>
          if negb (validOptionalPort port) then None
          else
            let name :=
              match split_at "%25" inner with
              | Some (h, z) => match unescape encodeHost h, unescape encodeZone z with Some h, Some z => Some (h +:+ z) | _, _ => None end
              | None => unescape encodeHost inner
              end in
            match name with
            | Some name => if is_v6_literal name then Some ("[" +:+ name +:+ "]" +:+ port) else None
            | None => None
            end
      end
  | Some _ => None
  | None =>
      match Net.split_last host ":" with
      | None => unescape encodeHost host
      | Some (before, port) =>
          if (Str.contains_byte before ":" && strict_colons scheme) || negb (validOptionalPort (String ":" port)) then None
          else unescape encodeHost host
      end
  end.

Definition valid_userinfo_byte (c : ascii) : bool := is_letter c || Dec.is_digit c || one_of "-._:~!$&'()*+,;=%@" c.

(** The user, as it stands before its last at sign, and the host. *)
Definition parseAuthority (scheme authority : string) : option (option string * string) :=
  match Net.split_last authority "@" with
  | None => (fun h => (None, h)) <$> parseHost scheme authority
  | Some (userinfo, host) =>
      match parseHost scheme host with
      | None => None
      | Some h =>
          let '(name, pass, _) := Str.cut userinfo ":" in
          if negb (forallb valid_userinfo_byte (Str.bytes userinfo)) then None
          else match unescape encodeUserPassword name, unescape encodeUserPassword pass with
               | Some _, Some _ => Some (Some userinfo, h)
               | _, _ => None
               end
      end
  end.

(** The number of question marks decides whether an empty query stays. *)
Definition cut_query (rest : string) : bool * string * string :=
  let '(before, query, found) := Str.cut rest "?" in
  if found && String.eqb query EmptyString then (true, EmptyString, before) else (false, query, before).

Definition with_scheme (scheme : string) (opaque : string) (user : option string) (host path : string) (omit force : bool) (query : string) : URL :=
  {| Scheme := scheme; Opaque := opaque; User := user; Host := host; Path := path; OmitHost := omit; ForceQuery := force;
     RawQuery := query; Fragment := EmptyString |}.

(** [parse] without a fragment. *)
Definition parse_url (raw : string) : option URL :=
  if any is_ctl raw then None
  else if String.eqb raw "*" then Some (with_scheme EmptyString EmptyString None EmptyString "*" false false EmptyString)
  else
    match getScheme raw with
    | None => None
    | Some (scheme, rest) =>
        let scheme := Str.to_lower scheme in
        let '(force, query, rest) := cut_query rest in
        if negb (Str.has_prefix rest "/") then
          if negb (String.eqb scheme EmptyString) then Some (with_scheme scheme rest None EmptyString EmptyString false force query)
          else if Str.contains_byte (Str.cut rest "/").1.1 ":" then None
          else (fun p => with_scheme scheme EmptyString None EmptyString p false force query) <$> unescape encodePath rest
        else if (negb (String.eqb scheme EmptyString) || negb (Str.has_prefix rest "///")) && Str.has_prefix rest "//" then
          let '(authority, path, has_path) := Str.cut (Str.drop 2 rest) "/" in
          match parseAuthority scheme authority with
          | None => None
          | Some (user, host) =>
              (fun p => with_scheme scheme EmptyString user host p false force query) <$>
                unescape encodePath (if has_path then String "/" path else EmptyString)
          end
        else
          (fun p => with_scheme scheme EmptyString None EmptyString p (negb (String.eqb scheme EmptyString)) force query) <$>
            unescape encodePath rest
    end.

Definition with_fragment (u : URL) (f : string) : URL :=
  {| Scheme := Scheme u; Opaque := Opaque u; User := User u; Host := Host u; Path := Path u; OmitHost := OmitHost u;
     ForceQuery := ForceQuery u; RawQuery := RawQuery u; Fragment := f |}.

(** [url.Parse]; [None] is any of its errors. *)
Definition Parse (raw : string) : option URL :=
  let '(before, frag, _) := Str.cut raw "#" in
  u ← parse_url before;
  if String.eqb frag EmptyString then Some u else with_fragment u <$> unescape encodeFragment frag.

Definition IsAbs (u : URL) : bool := negb (String.eqb (Scheme u) EmptyString).

(** [splitHostPort] of a URL's host. *)
Definition splitHostPort (hostPort : string) : string * string :=
  let '(host, port) :=
    match Net.split_last hostPort ":" with
    | Some (before, after) => if validOptionalPort (String ":" after) then (before, after) else (hostPort, EmptyString)
    | None => (hostPort, EmptyString)
    end in
  if Str.has_prefix host "[" && Str.has_suffix host "]" then (Str.take (String.length host - 2) (Str.drop 1 host), port) else (host, port).

Definition Hostname (u : URL) : string := (splitHostPort (Host u)).1.
Definition Port (u : URL) : string := (splitHostPort (Host u)).2.

(** [URL.String] of a URL with a host and neither user, opaque part, path nor
    fragment. *)
Definition origin_string (u : URL) : string :=
  Scheme u +:+ "://" +:+ escape encodeHost (Host u) +:+
  (if ForceQuery u || negb (String.eqb (RawQuery u) EmptyString) then "?" +:+ RawQuery u else EmptyString).

Example parsed : map (fun s => (fun u => (Scheme u, Host u, Path u, Hostname u, Port u)) <$> Parse s)
  ["http://10.0.0.1:8080/x?y#z"; "HTTP://a.b"; "//h/p"; "/p"; "a:b"; "1a:b"; "http://[::1]:80/"; "http://a:b:1/"; "http://u@h"; ":x"; "http://h%41/"; "http://[10.0.0.1]/"]%string =
  [Some ("http", "10.0.0.1:8080", "/x", "10.0.0.1", "8080"); Some ("http", "a.b", EmptyString, "a.b", EmptyString); Some (EmptyString, "h", "/p", "h", EmptyString);
   Some (EmptyString, EmptyString, "/p", EmptyString, EmptyString); Some ("a", EmptyString, EmptyString, EmptyString, EmptyString); None; Some ("http", "[::1]:80", "/", "::1", "80"); None;
   Some ("http", "h", EmptyString, "h", EmptyString); None; None; None]%string.
Proof. vm_compute. reflexivity. Qed.

(** ** Texts of bytes of one kind *)

Definition all (f : ascii -> bool) (s : string) : bool := forallb f (Str.bytes s).

Lemma all_app f a b : all f (a +:+ b) = all f a && all f b.
Proof. unfold all. by rewrite Str.bytes_append, forallb_app. Qed.

Lemma all_cons f c s : all f (String c s) = f c && all f s.
Proof. done. Qed.

Lemma all_mono (f g : ascii -> bool) s : (forall c, f c = true -> g c = true) -> all f s = true -> all g s = true.
Proof. unfold all. rewrite !forallb_forall. auto. Qed.

Lemma all_index f s b : all f s = true -> f b = false -> Str.index_byte s b = None.
Proof.
  intros Hs Hb. induction s as [|c s IH]; [done|]. rewrite all_cons in Hs. cbn. apply andb_true_iff in Hs as [Hc Hs].
  destruct (Ascii.eqb_spec c b) as [->|_]; [congruence|]. by rewrite IH.
Qed.

Lemma all_cut f s b : all f s = true -> f b = false -> Str.cut s b = (s, EmptyString, false).
Proof. intros. unfold Str.cut. by rewrite (all_index f s b). Qed.

Lemma all_split_last f s b : all f s = true -> f b = false -> Net.split_last s b = None.
Proof.
  intros Hs Hb. induction s as [|c s IH]; [done|]. rewrite all_cons in Hs. cbn. apply andb_true_iff in Hs as [Hc Hs].
  rewrite IH by done. destruct (Ascii.eqb_spec c b) as [->|_]; [congruence|done].
Qed.

Lemma split_last_app u v b : Net.split_last v b = None -> Net.split_last (u +:+ String b v) b = Some (u, v).
Proof.
  intros Hv. induction u as [|c u IH].
  - change (EmptyString +:+ String b v) with (String b v). cbn. by rewrite Hv, Ascii.eqb_refl.
  - rewrite Str.append_cons. cbn. by rewrite IH.
Qed.

Lemma split_last_Some s b u v : Net.split_last s b = Some (u, v) -> s = u +:+ String b v /\ Net.split_last v b = None.
Proof.
  revert u v. induction s as [|c s IH]; intros u v; [done|]. cbn.
  destruct (Net.split_last s b) as [[u' v']|] eqn:E.
  - intros [= <- <-]. destruct (IH u' v' eq_refl) as [-> ?]. by rewrite Str.append_cons.
  - destruct (Ascii.eqb_spec c b) as [->|_]; [|done]. by intros [= <- <-].
Qed.

(** ** Hosts that escaping leaves alone *)

(** The bytes of host names, address literals, their brackets and their ports. *)
Definition host_byte (c : ascii) : bool := is_letter c || Dec.is_digit c || one_of ".-:[]" c.

(** Those that may stand between the brackets. *)
Definition name_byte (c : ascii) : bool := is_letter c || Dec.is_digit c || one_of ".-:" c.

Lemma name_host c : name_byte c = true -> host_byte c = true.
Proof. destruct c as [[] [] [] [] [] [] [] []]; vm_compute; congruence. Qed.

Lemma digit_host c : Dec.is_digit c = true -> host_byte c = true.
Proof. unfold host_byte. intros ->. by rewrite orb_true_r. Qed.

Lemma host_unescaped c : host_byte c = true -> shouldEscape c encodeHost = false.
Proof. destruct c as [[] [] [] [] [] [] [] []]; vm_compute; congruence. Qed.

Lemma host_not c b : host_byte c = true -> host_byte b = false -> Ascii.eqb c b = false.
Proof. destruct (Ascii.eqb_spec c b); congruence. Qed.

Lemma host_high v : (nat_of_ascii v <? 128)%nat = false -> host_byte v = false.
Proof. destruct v as [[] [] [] [] [] [] [] []]; vm_compute; congruence. Qed.

Lemma escape_host s : all host_byte s = true -> escape encodeHost s = s.
Proof.
  induction s as [|c s IH]; [done|]. rewrite all_cons. intros [Hc Hs]%andb_true_iff. cbn [escape].
  rewrite (host_unescaped _ Hc). by rewrite IH.
Qed.

(** One step of [unescape], for a byte that starts no escape. *)
Lemma unescape_plain m c t : Ascii.eqb c "%" = false ->
  unescape m (String c t) =
    if is_host m && (nat_of_ascii c <? 128)%nat && shouldEscape c m then None else String c <$> unescape m t.
Proof. destruct c as [[] [] [] [] [] [] [] []]; first [done|by intros [=]]. Qed.

Lemma unescape_host s : all host_byte s = true -> unescape encodeHost s = Some s.
Proof.
  induction s as [|c s IH]; [done|]. rewrite all_cons. intros [Hc Hs]%andb_true_iff.
  rewrite unescape_plain by (apply host_not; [done|reflexivity]).
  rewrite (host_unescaped _ Hc), andb_false_r, IH by done. done.
Qed.

(** An escape in a host stands for a percent sign or for a byte beyond ASCII,
    so a host of [host_byte]s was written without any. *)
Lemma unescape_host_inv n s t : (String.length s <= n)%nat ->
  unescape encodeHost s = Some t -> all host_byte t = true -> s = t.
Proof.
  revert s t. induction n as [|n IH]; intros s t Hn; [destruct s; [|cbn in Hn; lia]; by intros [= <-]|].
  destruct s as [|c s]; [by intros [= <-]|]. cbn in Hn. destruct (Ascii.eqb_spec c "%") as [->|Hc].
  - destruct s as [|a [|b s]]; [done..|]. cbn [unescape]. destruct (hex_byte a b) as [v|] eqn:Ev; [|done].
    destruct (_ && _) eqn:E; [done|]. destruct (unescape encodeHost s) as [t'|]; [|done].
    intros [= <-]. rewrite all_cons. intros [Hv _]%andb_true_iff. exfalso.
    apply andb_false_iff in E as [E|E]; [by rewrite host_high in Hv|].
    apply negb_false_iff, String.eqb_eq in E. injection E as -> ->. injection Ev as <-. done.
  - apply Ascii.eqb_neq in Hc. rewrite unescape_plain by done. destruct (_ && _ && _); [done|].
    destruct (unescape encodeHost s) as [t'|] eqn:Et; [|done]. intros [= <-].
    rewrite all_cons. intros [_ Ht]%andb_true_iff. f_equal. eapply IH; [|done..]. lia.
Qed.

(** ** Hosts and their ports *)

Lemma suffix_split s p : Str.has_suffix s p = true -> s = Str.take (String.length s - String.length p) s +:+ p.
Proof.
  unfold Str.has_suffix. intros [_ E]%andb_true_iff. apply String.eqb_eq in E.
  rewrite <- (Str.take_drop (String.length s - String.length p) s) at 1. by rewrite E.
Qed.

(** What [splitHostPort] leaves out of a host. *)
Lemma splitHostPort_parts hp h p : splitHostPort hp = (h, p) ->
  exists w pt, hp = w +:+ pt /\ (w = h \/ w = "[" +:+ h +:+ "]") /\
    (pt = EmptyString /\ p = EmptyString \/ pt = String ":" p /\ all Dec.is_digit p = true).
Proof.
  unfold splitHostPort. intros E.
  assert (exists w pt q, hp = w +:+ pt /\ (pt = EmptyString /\ q = EmptyString \/ pt = String ":" q /\ all Dec.is_digit q = true) /\
            (if Str.has_prefix w "[" && Str.has_suffix w "]" then (Str.take (String.length w - 2) (Str.drop 1 w), q) else (w, q)) = (h, p))
    as (w & pt & q & -> & Hpt & Hw).
  { destruct (Net.split_last hp ":") as [[u v]|] eqn:Es.
    - apply split_last_Some in Es as [-> _]. destruct (validOptionalPort (String ":" v)) eqn:Ev.
      + exists u, (String ":" v), v. auto.
      + exists (u +:+ String ":" v), EmptyString, EmptyString. rewrite Str.append_nil_r. auto.
    - exists hp, EmptyString, EmptyString. rewrite Str.append_nil_r. auto. }
  exists w, pt. destruct (Str.has_prefix w "[" && Str.has_suffix w "]") eqn:Eb; injection Hw as <- <-; [|by auto].
  split; [done|]. split; [|done]. right. apply andb_true_iff in Eb as [Hp Hs].
  apply Str.has_prefix_spec in Hp as [t ->]. destruct t as [|c t]; [done|].
  apply suffix_split in Hs. revert Hs. change ("[" +:+ String c t) with (String "[" (String c t)).
  cbn [String.length Nat.sub Str.drop]. rewrite !Nat.sub_0_r. cbn [Str.take]. rewrite Str.append_cons.
  intros [= Hs]. change ("[" +:+ ?x) with (String "[" x). f_equal. exact Hs.
Qed.

Lemma splitHostPort_host hp h p : splitHostPort hp = (h, p) -> all name_byte h = true -> all host_byte hp = true.
Proof.
  intros (w & pt & -> & Hw & Hpt)%splitHostPort_parts Hh.
  apply (all_mono _ _ _ name_host) in Hh. rewrite all_app.
  assert (all host_byte w = true) as ->.
  { destruct Hw as [->| ->]; [done|]. rewrite !all_app, Hh. done. }
  destruct Hpt as [[-> _]|[-> Hd]]; [done|]. rewrite all_cons, (all_mono _ _ _ digit_host Hd). done.
Qed.

Lemma digit_name c : Dec.is_digit c = true -> name_byte c = true.
Proof. unfold name_byte. intros ->. by rewrite orb_true_r. Qed.

Lemma port_names port : validOptionalPort port = true -> all name_byte port = true.
Proof.
  destruct port as [|c t]; [done|]. destruct (Ascii.eqb_spec c ":") as [->|Hc].
  - cbn [validOptionalPort]. intros H. rewrite all_cons. apply (all_mono _ _ _ digit_name H).
  - destruct c as [[] [] [] [] [] [] [] []]; done.
Qed.

Lemma split_at_None f sep c s : all f s = true -> f c = false -> split_at (String c sep) s = None.
Proof.
  intros Hs Hc. induction s as [|d s IH]; [done|]. rewrite all_cons in Hs. apply andb_true_iff in Hs as [Hd Hs].
  cbn [split_at]. replace (Str.has_prefix (String d s) (String c sep)) with false; [by rewrite IH|].
  unfold Str.has_prefix. cbn. destruct (ascii_dec c d) as [->|_]; [congruence|done].
Qed.

(** Between brackets, a plain name is the host name. *)
Lemma bracketed_name name port : validOptionalPort port = true ->
  all name_byte (splitHostPort ("[" +:+ name +:+ "]" +:+ port)).1 = true -> all name_byte name = true.
Proof.
  intros Hp. destruct (splitHostPort _) as [x y] eqn:E. cbn [fst]. intros Hx.
  apply splitHostPort_parts in E as (w & pt & E & Hw & Hpt).
  assert (Net.split_last pt "]" = None) as Hpt'.
  { destruct Hpt as [[-> _]|[-> Hd]]; [done|].
    apply (all_split_last name_byte); [|done]. rewrite all_cons, (all_mono _ _ _ digit_name Hd). done. }
  destruct Hw as [->| ->].
  - exfalso. destruct x as [|c x]; [|rewrite Str.append_cons in E; injection E as <- _; done].
    destruct Hpt as [[-> _]|[-> _]]; done.
  - change ("[" +:+ name +:+ "]" +:+ port) with (String "[" (name +:+ String "]" port)) in E.
    rewrite !Str.append_assoc in E. change (_ +:+ _ = _) with (String "[" (name +:+ String "]" port) = String "[" (x +:+ String "]" pt)) in E.
    assert (name +:+ String "]" port = x +:+ String "]" pt) as E' by (by injection E).
    assert (Net.split_last port "]" = None) as Hport.
    { apply (all_split_last name_byte); [by apply port_names|done]. }
    pose proof (split_last_app name port "]" Hport) as A. rewrite E', (split_last_app _ _ _ Hpt') in A. by injection A as <- _.
Qed.

(** A host that came out of [parseHost], with a plain name, is parsed as it is. *)
Lemma parseHost_again scheme a h : parseHost scheme a = Some h -> all name_byte (splitHostPort h).1 = true ->
  parseHost scheme h = Some h.
Proof.
  intros E Hn. assert (all host_byte h = true) as Hh.
  { destruct (splitHostPort h) as [x y] eqn:Es. by eapply splitHostPort_host. }
  revert E. unfold parseHost at 1. destruct (Net.split_last a "[") as [[u rest]|] eqn:Ea.
  - destruct u; [|done]. destruct (Net.split_last rest "]") as [[inner port]|]; [|done].
    destruct (validOptionalPort port) eqn:Hp; [|done]. cbn [negb].
    destruct (match split_at "%25" inner with Some _ => _ | None => _ end) as [name|]; [|done].
    destruct (is_v6_literal name) eqn:H6; [|done]. intros [= <-].
    assert (all name_byte name = true) as Hname by (by apply (bracketed_name name port)).
    pose proof (port_names port Hp) as Hport. unfold parseHost.
    change ("[" +:+ name +:+ "]" +:+ port) with (EmptyString +:+ String "[" (name +:+ String "]" port)).
    rewrite split_last_app, split_last_app, Hp; cbn [negb].
    + rewrite (split_at_None name_byte), unescape_host, H6; [done|by apply (all_mono _ _ _ name_host)|done..].
    + by apply (all_split_last name_byte).
    + apply (all_split_last (fun c => name_byte c || Ascii.eqb c "]")); [|done].
      rewrite all_app, all_cons. rewrite !(all_mono name_byte (fun c => name_byte c || Ascii.eqb c "]")); [done| |done| |done];
        by intros c ->.
  - intros E. assert (unescape encodeHost a = Some h) as Eu.
    { destruct (Net.split_last a ":") as [[before port]|]; [|done]. by destruct (_ || _). }
    apply (unescape_host_inv (String.length a)) in Eu as ->; [|done..]. unfold parseHost. by rewrite Ea.
Qed.

(** ** Origins *)

Lemma cut_app f s b t : all f s = true -> f b = false -> Str.cut (s +:+ String b t) b = (s, t, true).
Proof.
  intros Hs Hb. unfold Str.cut.
  assert (Str.index_byte (s +:+ String b t) b = Some (String.length s)) as ->.
  { induction s as [|c s IH].
    { change (EmptyString +:+ String b t) with (String b t). cbn [Str.index_byte String.length]. by rewrite Ascii.eqb_refl. }
    rewrite all_cons in Hs. apply andb_true_iff in Hs as [Hc Hs]. rewrite Str.append_cons. cbn.
    destruct (Ascii.eqb_spec c b) as [->|_]; [congruence|]. by rewrite IH. }
  assert (Str.take (String.length s) (s +:+ String b t) = s) as ->.
  { clear. induction s as [|c s IH]; [done|]. rewrite Str.append_cons. cbn. by rewrite IH. }
  assert (Str.drop (S (String.length s)) (s +:+ String b t) = t) as ->; [|done].
  clear. induction s as [|c s IH]; [done|]. rewrite Str.append_cons. exact IH.
Qed.

(** The address of a host and nothing else. *)
Definition origin_url (h : string) (force : bool) : URL := with_scheme "http" EmptyString None h EmptyString false force EmptyString.

Definition text_byte (c : ascii) : bool := host_byte c || one_of "/?" c.

Lemma text_not_ctl c : text_byte c = true -> is_ctl c = false.
Proof. destruct c as [[] [] [] [] [] [] [] []]; vm_compute; congruence. Qed.

(** Host bytes and one more. *)
Lemma host_or (g : ascii -> bool) s : all host_byte s = true -> all (fun c => host_byte c || g c) s = true.
Proof. apply all_mono. by intros c ->. Qed.

Lemma text_any s : all text_byte s = true -> any is_ctl s = false.
Proof.
  induction s as [|c s IH]; [done|]. rewrite all_cons. intros [Hc Hs]%andb_true_iff.
  unfold any in *. cbn. by rewrite (text_not_ctl _ Hc), IH.
Qed.

Definition mark (force : bool) : string := if force then "?" else EmptyString.

Lemma parse_origin h (force : bool) : h <> EmptyString -> all host_byte h = true -> parseHost "http" h = Some h ->
  Parse ("http://" +:+ h +:+ mark force) = Some (origin_url h force).
Proof.
  intros Hne Hh Hp. assert (all text_byte ("http://" +:+ h +:+ mark force) = true) as Ht.
  { rewrite !all_app. unfold text_byte at 2. rewrite host_or by done. by destruct force. }
  unfold Parse. rewrite (all_cut _ _ "#" Ht) by done. change (String.eqb EmptyString EmptyString) with true. cbn [mbind option_bind].
  unfold parse_url. rewrite (text_any _ Ht). change (String.eqb ("http://" +:+ _) "*") with false.
  change (getScheme ("http://" +:+ h +:+ mark force)) with (Some ("http", "//" +:+ h +:+ mark force)%string). cbn iota beta.
  assert (cut_query ("//" +:+ h +:+ mark force) = (force, EmptyString, "//" +:+ h)) as ->.
  { unfold cut_query. destruct force; cbn [mark].
    - change ("//" +:+ h +:+ "?") with (("//" +:+ h) +:+ String "?" EmptyString).
      rewrite (cut_app (fun c => host_byte c || Ascii.eqb c "/")); [done| |done].
      rewrite all_app, (host_or _ h) by done. done.
    - rewrite Str.append_nil_r, (all_cut (fun c => host_byte c || Ascii.eqb c "/")); [done| |done].
      rewrite all_app, (host_or _ h) by done. done. }
  change (Str.to_lower "http") with "http"%string.
  rewrite (Str.has_prefix_append "//" h), (Str.has_prefix_append "/" (String "/" h) : Str.has_prefix ("//" +:+ h) "/" = true). cbn [negb].
  change (negb ("http" =? EmptyString)%string) with true. cbn [orb andb]. change (Str.drop 2 ("//" +:+ h)) with h.
  rewrite (all_cut _ _ "/" Hh) by done. unfold parseAuthority. rewrite (all_split_last _ _ "@" Hh), Hp by done. done.
Qed.

(** Where the host of a URL comes from. *)
Lemma parsed_host s u : Parse s = Some u -> Host u <> EmptyString ->
  exists a, parseAuthority (Scheme u) a = Some (User u, Host u).
Proof.
  assert (forall t v, parse_url t = Some v -> Host v <> EmptyString -> exists a, parseAuthority (Scheme v) a = Some (User v, Host v)) as H.
  { intros t v. unfold parse_url. destruct (any is_ctl t); [done|]. destruct (String.eqb t "*"); [by intros [= <-]|].
    destruct (getScheme t) as [[scheme rest]|]; [|done]. destruct (cut_query rest) as [[force query] rest'].
    destruct (negb (Str.has_prefix rest' "/")).
    - destruct (negb _); [by intros [= <-]|]. destruct (Str.contains_byte _ ":"); [done|]. by intros (p & _ & ->)%fmap_Some.
    - destruct (_ && _); [|by intros (p & _ & ->)%fmap_Some]. destruct (Str.cut _ "/") as [[authority path] has_path].
      destruct (parseAuthority _ authority) as [[user host]|] eqn:E; [|done]. intros (p & _ & ->)%fmap_Some _. by exists authority. }
  unfold Parse. destruct (Str.cut s "#") as [[before frag] found]. destruct (parse_url before) as [v|] eqn:E; [|done]. cbn.
  destruct (String.eqb frag EmptyString); [intros [= <-]; exact (H before v E)|]. intros (f & _ & ->)%fmap_Some. by apply (H before v).
Qed.

End Url.
