(* ===== verification/Upstream.v ===== *)
(** * The origin behind a decoy site

    internal/sitekit/upstream.go: the origin an operator may have telemt proxy
    its decoy site from, and its representation as a site bundle. *)

From S2P Require Import Prelude Regex Reliability Url.

Local Open Scope go_scope.

(** ** Kinds of addresses *)

Definition v4_of (ip : list Z) : option (list Z) := if bool_decide (take 12 ip = replicate 10 0 ++ [255; 255]) then Some (drop 12 ip) else None.

Definition IsUnspecified (ip : list Z) : bool :=
  match v4_of ip with Some v4 => bool_decide (v4 = [0; 0; 0; 0]) | None => bool_decide (ip = replicate 16 0) end.

Definition IsPrivate (ip : list Z) : bool :=
  match v4_of ip with
  | Some (a :: b :: _) => (a =? 10) || ((a =? 172) && (Z.land b 240 =? 16)) || ((a =? 192) && (b =? 168))
  | Some _ => false
  | None => match ip with a :: _ => Z.land a 254 =? 252 | [] => false end
  end.

(** ** The origin *)

Definition UpstreamMarkerPath : string := ".tgproxy-http-upstream".

Definition alnum : class := [("A","Z");("a","z");("0","9")]%char.
Definition alnum_hyphen : class := [("A","Z");("a","z");("0","9");("-","-")]%char.
Definition origin_label : re := Seq (Cls alnum) (opt (Seq (Star (Cls alnum_hyphen)) (Cls alnum))).
Definition httpOriginHostPattern : re := Seq origin_label (Star (Seq (Cls [(".",".")]%char) origin_label)).

(** [net.LookupPort] of a text of digits. *)
Definition port_ok (port : string) : bool :=
  match Dec.parse_nonempty port with Some n => (1 <=? n) && (n <=? 65535) | None => false end.

(** The tests made of a parsed address, in the order of the code. *)
Definition origin_error (u : Url.URL) (resolve : option string) : option error :=
  let ip := Net.ParseIP (Url.Hostname u) in
  let allowDNS := bool_decide (resolve = Some "startup"%string) in
  fail_if (negb (String.eqb (Url.Scheme u) "http") || bool_decide (is_Some (Url.User u)) || String.eqb (Url.Host u) EmptyString)
    "origin must be an http:// URL with a private IP address" ;;?
  fail_if ((negb (String.eqb (Url.Path u) EmptyString) && negb (String.eqb (Url.Path u) "/")) ||
           negb (String.eqb (Url.RawQuery u) EmptyString) || negb (String.eqb (Url.Fragment u) EmptyString))
    "origin must not contain a path, query, credentials, or fragment" ;;?
  fail_if (bool_decide (ip = None) && allowDNS &&
           (negb (accepts httpOriginHostPattern (Url.Hostname u)) || (253 <? String.length (Url.Hostname u))%nat))
    "origin hostname must be a valid ASCII hostname" ;;?
  fail_if match ip with
          | None => negb allowDNS
          | Some ip => IsUnspecified ip || (negb (Net.IsLoopback ip) && negb (IsPrivate ip))
          end
    "origin host must be a loopback or private IP literal" ;;?
  fail_if (negb (String.eqb (Url.Port u) EmptyString) && negb (port_ok (Url.Port u)))
    "origin port must be between 1 and 65535".

(** [resolve] is the first of the optional arguments. *)
Definition ValidateHTTPUpstream (raw : string) (resolve : option string) : result string :=
  match Url.Parse (Str.trim_space raw) with
  | None => Err "origin must be an http:// URL with a private IP address"
  | Some u =>
      match origin_error u resolve with
      | Some e => Err e
      | None => Ok (Str.trim_suffix (Url.origin_string u) "/")
      end
  end.

(** ** The bundle *)

Abbreviation bundle := (gmap string string).

Definition UpstreamBundle (origin : string) (resolve : option string) : result bundle :=
  let? origin := ValidateHTTPUpstream origin resolve in Ok {[UpstreamMarkerPath := origin]}.

(** [None] when the bundle is a site of files. *)
Definition UpstreamFromBundle (b : bundle) (resolve : option string) : option (result string) :=
  match b !! UpstreamMarkerPath with
  | None => None
  | Some raw => Some (if (size b =? 1)%nat then ValidateHTTPUpstream raw resolve else Err "an HTTP upstream bundle cannot contain public files")
  end.

(** ** What may stand in an address *)

Abbreviation all_names := (Url.all Url.name_byte).

Lemma all_split f sep s : f sep = true -> Forall (fun w => Url.all f w = true) (Str.split sep s) -> Url.all f s = true.
Proof.
  intros Hsep. induction s as [|c s IH]; [done|]. cbn [Str.split]. rewrite Url.all_cons.
  destruct (Ascii.eqb_spec c sep) as [->|_].
  - intros [_ H]%Forall_cons. rewrite Hsep. by apply IH.
  - pose proof (Str.split_nonempty sep s) as Hne. destruct (Str.split sep s) as [|w ws]; [done|].
    intros [H Hws]%Forall_cons. rewrite Url.all_cons in H. apply andb_true_iff in H as [-> H]. apply IH. by constructor.
Qed.

Lemma octet_names s n : Net.octet s = Some n -> all_names s = true.
Proof.
  intros H. apply (Url.all_mono Dec.is_digit); [apply Url.digit_name|].
  assert (existsb (fun c => negb (Dec.is_digit c)) (Str.bytes s) = false \/ s = "0"%string) as [E| ->]; [|clear H|done].
  { unfold Net.octet in H. destruct s as [|c [|d s]]; [done|..].
    - destruct (existsb _ _) eqn:E; [|by left]. exfalso. revert H. destruct c as [[] [] [] [] [] [] [] []]; cbn; done.
    - destruct (existsb _ _) eqn:E; [|by left]. exfalso. revert H. rewrite orb_true_r. destruct c as [[] [] [] [] [] [] [] []]; done. }
  unfold Url.all. induction (Str.bytes s) as [|c l IH]; [done|]. cbn in E |- *. apply orb_false_iff in E as [->%negb_false_iff E]. by apply IH.
Qed.

Lemma v4_names s ip : Net.parse_v4 s = Some ip -> all_names s = true.
Proof.
  intros H. apply (all_split _ "."); [done|]. unfold Net.parse_v4 in H.
  destruct (Str.split "." s) as [|a [|b [|c [|d [|? ?]]]]]; [done..| |done].
  destruct (Net.octet a) eqn:Ea, (Net.octet b) eqn:Eb, (Net.octet c) eqn:Ec, (Net.octet d) eqn:Ed; try done.
  repeat constructor; by eapply octet_names.
Qed.

Lemma hex_names s n acc off v rest : Net.hex_run s n acc = (off, v, rest) -> all_names rest = true -> all_names s = true.
Proof.
  revert n acc. induction s as [|c s IH]; intros n acc; cbn [Net.hex_run]; [by intros [= _ _ <-]|].
  destruct (Net.hex_value c) eqn:E; [|by intros [= _ _ <-]].
  intros H Hr. rewrite Url.all_cons, (IH _ _ H Hr), andb_true_r. revert E. destruct c as [[] [] [] [] [] [] [] []]; done.
Qed.

Lemma groups_names n s bytes ell r : Net.v6_groups n s bytes ell = Some r -> all_names s = true.
Proof.
  revert s bytes ell. induction n as [|n IH]; intros s bytes ell; cbn [Net.v6_groups]; [by destruct (String.eqb_spec s EmptyString) as [->|]|].
  destruct (Net.hex_run s 0 0) as [[off acc] rest] eqn:E. destruct (_ || _); [done|].
  intros H. destruct rest as [|c t]; [by apply (hex_names _ _ _ _ _ _ E)|].
  destruct (Ascii.eqb_spec c ".") as [->|Hd].
  - destruct (_ || _); [done|]. destruct (Net.parse_v4 s) eqn:E4; [|done]. by eapply v4_names.
  - apply (hex_names _ _ _ _ _ _ E). destruct (Ascii.eqb_spec c ":") as [->|Hc].
    + rewrite Url.all_cons. change (Url.name_byte ":") with true. cbn [andb]. destruct t as [|c t]; [done|].
      destruct (Ascii.eqb_spec c ":") as [->|Hc].
      * destruct ell; [done|]. rewrite Url.all_cons. destruct (String.eqb_spec t EmptyString) as [->|_]; [done|]. by apply IH in H.
      * assert (Net.v6_groups n (String c t) (bytes ++ [acc / 256; acc mod 256]) ell = Some r) as H'; [|by apply IH in H'].
        revert H. destruct c as [[] [] [] [] [] [] [] []]; done.
    + revert H. destruct c as [[] [] [] [] [] [] [] []]; done.
Qed.

Lemma v6_names s ip : Net.parse_v6 s = Some ip -> all_names s = true.
Proof.
  unfold Net.parse_v6. intros H.
  assert (s = "::"%string \/ (exists n t b e r, Net.v6_groups n t b e = Some r /\ (s = t \/ s = "::" +:+ t))) as [->|(n & t & b & e & r & Hg & Hs)].
  - destruct s as [|c [|d t]].
    + right. destruct (Net.v6_groups 8 EmptyString [] None) eqn:E; [|done]. eauto 10.
    + right. destruct (Net.v6_groups 8 (String c EmptyString) [] None) eqn:E; [eauto 10|]. revert H. destruct c as [[] [] [] [] [] [] [] []]; rewrite ?E; done.
    + destruct (Ascii.eqb_spec c ":") as [->|Hc]; [destruct (Ascii.eqb_spec d ":") as [->|Hd]|].
      * destruct (String.eqb_spec t EmptyString) as [->|_]; [by left|]. right.
        destruct (Net.v6_groups 8 t [] (Some 0%nat)) eqn:E; [|done]. eauto 10.
      * right. destruct (Net.v6_groups 8 (String ":" (String d t)) [] None) eqn:E; [eauto 10|].
        revert H. destruct d as [[] [] [] [] [] [] [] []]; rewrite ?E; done.
      * right. destruct (Net.v6_groups 8 (String c (String d t)) [] None) eqn:E; [eauto 10|].
        revert H. destruct c as [[] [] [] [] [] [] [] []]; rewrite ?E; done.
  - done.
  - apply groups_names in Hg. by destruct Hs as [->| ->].
Qed.

Lemma ParseIP_names s ip : Net.ParseIP s = Some ip -> all_names s = true.
Proof.
  unfold Net.ParseIP. destruct (Net.family s) as [c|]; [|done]. intros H.
  assert (is_Some (Net.parse_v4 s) \/ is_Some (Net.parse_v6 s)) as [[? E]|[? E]]; [|by eapply v4_names|by eapply v6_names].
  destruct (Ascii.eqb_spec c ".") as [->|Hd]; [left; by apply fmap_Some in H as (x & -> & _)|].
  destruct (Ascii.eqb_spec c ":") as [->|Hc]; [destruct (Str.contains_byte s "%"); [done|by right]|].
  revert H. destruct c as [[] [] [] [] [] [] [] []]; done.
Qed.

Lemma pattern_names s : accepts httpOriginHostPattern s = true -> all_names s = true.
Proof.
  intros H%accepts_spec%lang_bytes. unfold Url.all. apply forallb_forall. rewrite Forall_forall in H.
  intros c Hc%list_elem_of_In. specialize (H c Hc). revert H. clear. destruct c as [[] [] [] [] [] [] [] []]; vm_compute; congruence.
Qed.

(** ** The origin telemt is told *)

(** What an origin may name: an address of the host or of a private network, or
    a name when telemt resolves it itself at startup. *)
Definition host_allowed (resolve : option string) (h : string) : Prop :=
  match Net.ParseIP h with
  | Some ip => IsUnspecified ip = false /\ (Net.IsLoopback ip = true \/ IsPrivate ip = true)
  | None => resolve = Some "startup"%string /\ accepts httpOriginHostPattern h = true /\ (String.length h <= 253)%nat
  end.

Definition port_allowed (p : string) : Prop := p = EmptyString \/ port_ok p = true.

Lemma origin_error_None u resolve : origin_error u resolve = None <->
  (Url.Scheme u = "http"%string /\ Url.User u = None /\ Url.Host u <> EmptyString) /\
  ((Url.Path u = EmptyString \/ Url.Path u = "/"%string) /\ Url.RawQuery u = EmptyString /\ Url.Fragment u = EmptyString) /\
  host_allowed resolve (Url.Hostname u) /\ port_allowed (Url.Port u).
Proof.
  unfold origin_error, host_allowed, port_allowed. cbv zeta. rewrite !or_else_None, !fail_if_None.
  rewrite !orb_false_iff, !andb_false_iff, !orb_false_iff, !negb_false_iff, !bool_decide_eq_false, !String.eqb_eq, !String.eqb_neq.
  destruct (Net.ParseIP (Url.Hostname u)) as [ip|].
  - rewrite orb_false_iff, andb_false_iff, !negb_false_iff. assert (Some ip <> None) by done. rewrite <- (eq_None_not_Some (Url.User u)). tauto.
  - rewrite negb_false_iff, bool_decide_eq_true, Nat.ltb_ge, <- (eq_None_not_Some (Url.User u)). tauto.
Qed.

(** What is promised of an origin. *)
Record private_origin (resolve : option string) (o : string) (u : Url.URL) : Prop := {
  po_parses : Url.Parse o = Some u;
  po_scheme : Url.Scheme u = "http"%string;
  po_bare : Url.User u = None /\ Url.Path u = EmptyString /\ Url.RawQuery u = EmptyString /\ Url.Fragment u = EmptyString;
  po_host : host_allowed resolve (Url.Hostname u);
  po_port : port_allowed (Url.Port u)
}.

Lemma allowed_names resolve h : host_allowed resolve h -> all_names h = true.
Proof.
  unfold host_allowed. destruct (Net.ParseIP h) as [ip|] eqn:E; [intros _; by eapply ParseIP_names|].
  intros (_ & H & _). by apply pattern_names.
Qed.

Lemma trim_text s : Url.all Url.text_byte s = true -> Str.trim_space s = s.
Proof.
  intros H. unfold Str.trim_space. assert (Str.trim_left s = s) as ->.
  { destruct s as [|c s]; [done|]. rewrite Url.all_cons in H. apply andb_true_iff in H as [H _]. cbn.
    revert H. destruct c as [[] [] [] [] [] [] [] []]; done. }
  induction s as [|c s IH]; [done|]. rewrite Url.all_cons in H. apply andb_true_iff in H as [Hc H]. cbn. rewrite (IH H).
  destruct s; [|done]. revert Hc. clear. destruct c as [[] [] [] [] [] [] [] []]; done.
Qed.

Lemma origin_kept h (force : bool) : h <> EmptyString -> Url.all Url.host_byte h = true ->
  let s := "http://" +:+ h +:+ Url.mark force in Str.trim_suffix s "/" = s /\ Str.trim_space s = s.
Proof.
  intros Hne Hh s. assert (Url.all (fun c => Url.host_byte c || Ascii.eqb c "?") (h +:+ Url.mark force) = true) as Hm.
  { rewrite Url.all_app, (Url.host_or _ h) by done. by destruct force. }
  split.
  - unfold Str.trim_suffix. destruct (Str.has_suffix s "/") eqn:E; [exfalso|done]. apply Url.suffix_split in E.
    set (x := Str.take _ s) in E. assert (Net.split_last s "/" = Some (x, EmptyString)) as E1 by (rewrite E; by apply Url.split_last_app).
    assert (Net.split_last s "/" = Some ("http:/"%string, h +:+ Url.mark force)) as E2.
    { unfold s. change ("http://" +:+ ?t) with ("http:/" +:+ String "/" t). apply Url.split_last_app.
      by apply (Url.all_split_last _ _ _ Hm). }
    rewrite E1 in E2. injection E2 as _ E2. by destruct h.
  - apply trim_text. unfold s. rewrite Url.all_app. apply (Url.all_mono _ Url.text_byte) in Hm as ->; [done|].
    intros c. unfold Url.text_byte. destruct (Url.host_byte c); [done|]. cbn [orb]. intros ->%Ascii.eqb_eq. done.
Qed.

Lemma accepted_origin raw resolve o : ValidateHTTPUpstream raw resolve = Ok o ->
  (exists u, private_origin resolve o u) /\ ValidateHTTPUpstream o resolve = Ok o.
Proof.
  unfold ValidateHTTPUpstream at 1. destruct (Url.Parse (Str.trim_space raw)) as [u|] eqn:Eu; [|done].
  destruct (origin_error u resolve) eqn:Ee; [done|]. intros [= Eo].
  apply origin_error_None in Ee as ((Hs & Hu & Hh) & (_ & Hq & _) & Ha & Hp).
  destruct (Url.parsed_host _ _ Eu Hh) as [a Ea]. pose proof (allowed_names _ _ Ha) as Hn.
  assert (Url.all Url.host_byte (Url.Host u) = true) as Hb.
  { unfold Url.Hostname in Hn. destruct (Url.splitHostPort (Url.Host u)) as [h p] eqn:E. by eapply Url.splitHostPort_host. }
  assert (Url.parseHost "http" (Url.Host u) = Some (Url.Host u)) as Hp'.
  { rewrite Hs, Hu in Ea. unfold Url.parseAuthority in Ea. destruct (Net.split_last a "@") as [[ui host]|].
    - destruct (Url.parseHost "http" host); [|done]. destruct (Str.cut ui ":") as [[name pass] ?].
      repeat match type of Ea with context [if ?c then _ else _] => destruct c | context [match ?c with _ => _ end] => destruct c end; done.
    - apply fmap_Some in Ea as (h & Eh & E). injection E as E. unfold Url.Hostname in Hn. rewrite E in Hn |- *. exact (Url.parseHost_again _ _ _ Eh Hn). }
  assert (Url.origin_string u = "http://" +:+ Url.Host u +:+ Url.mark (Url.ForceQuery u)) as Es.
  { unfold Url.origin_string. rewrite Hs, Hq, Url.escape_host by done. change (negb (String.eqb EmptyString EmptyString)) with false.
    rewrite orb_false_r. by destruct (Url.ForceQuery u). }
  pose proof (Url.parse_origin _ (Url.ForceQuery u) Hh Hb Hp') as Hparse. rewrite <- Es in Hparse.
  destruct (origin_kept (Url.Host u) (Url.ForceQuery u) Hh Hb) as [Et Ew]. rewrite <- Es in Et, Ew. rewrite Et in Eo. subst o.
  split; [by exists (Url.origin_url (Url.Host u) (Url.ForceQuery u))|].
  unfold ValidateHTTPUpstream. rewrite Ew, Hparse.
  assert (origin_error (Url.origin_url (Url.Host u) (Url.ForceQuery u)) resolve = None) as ->.
  { apply origin_error_None. split_and!; auto. }
  assert (Url.origin_string (Url.origin_url (Url.Host u) (Url.ForceQuery u)) = Url.origin_string u) as ->; [|by rewrite Et].
  rewrite Es. unfold Url.origin_string. cbn [Url.Scheme Url.Host Url.ForceQuery Url.RawQuery Url.origin_url Url.with_scheme].
  rewrite Url.escape_host by done. change (negb (String.eqb EmptyString EmptyString)) with false.
  rewrite orb_false_r. by destruct (Url.ForceQuery u).
Qed.

(** C34: A bundle built from an accepted origin is read back on the node as that
    same origin, and what telemt is then told parses as a plain http address
    of the host itself or of a private network, with no credentials, path,
    query or fragment. A public address never gets through, and a name only
    where telemt resolves it at startup. *)
Theorem upstream_stays_private raw resolve b : UpstreamBundle raw resolve = Ok b ->
  exists o, UpstreamFromBundle b resolve = Some (Ok o) /\ exists u, private_origin resolve o u.
Proof.
  unfold UpstreamBundle. destruct (ValidateHTTPUpstream raw resolve) as [o|e] eqn:E; [|done]. intros [= <-].
  destruct (accepted_origin raw resolve o E) as [Hu Ho]. exists o. split; [|done].
  unfold UpstreamFromBundle. by rewrite lookup_singleton_eq, map_size_singleton, Ho.
Qed.

Lemma upstream_stays_private_witness :
  UpstreamBundle " HTTP://[fd00::7]:8080/ " None = Ok {[UpstreamMarkerPath := "http://[fd00::7]:8080"]} /\
  exists o, UpstreamFromBundle {[UpstreamMarkerPath := "http://[fd00::7]:8080"]} None = Some (Ok o) /\ exists u, private_origin None o u.
Proof.
  assert (H : UpstreamBundle " HTTP://[fd00::7]:8080/ " None = Ok {[UpstreamMarkerPath := "http://[fd00::7]:8080"]}) by (vm_compute; reflexivity).
  split; [exact H|]. exact (upstream_stays_private _ _ _ H).
Defined.

Example origins : map (fun s => ValidateHTTPUpstream s None)
  [" http://10.0.0.1:8080/ "; "http://172.16.5.4"; "http://[fd00::1]"; "http://127.0.0.1:80?"; "http://8.8.8.8"; "http://0.0.0.0"; "http://localhost";
   "https://10.0.0.1"; "http://u@10.0.0.1"; "http://10.0.0.1/x"; "http://10.0.0.1:0"; "http://172.32.0.1"]%string =
  [Ok "http://10.0.0.1:8080"; Ok "http://172.16.5.4"; Ok "http://[fd00::1]"; Ok "http://127.0.0.1:80?";
   Err "origin host must be a loopback or private IP literal"; Err "origin host must be a loopback or private IP literal";
   Err "origin host must be a loopback or private IP literal"; Err "origin must be an http:// URL with a private IP address";
   Err "origin must be an http:// URL with a private IP address"; Err "origin must not contain a path, query, credentials, or fragment";
   Err "origin port must be between 1 and 65535"; Err "origin host must be a loopback or private IP literal"]%string.
Proof. vm_compute. reflexivity. Qed.
