(* ===== verification/TelemtConfig.v ===== *)
(** * telemt's configuration as the agent reads and changes it

    internal/agent/telemt.go, internal/agent/telemtweboptions.go and
    internal/agent/telemtcapacity.go: what the agent takes from the decoded
    body of [GET /v1/config], and the sparse patches it computes from it.

    A decoded value is a [json]; a Go map that was not there is the empty
    object, which reads the same.  [cloneJSON] and [copyVhosts] guard against
    aliasing; on values they are the identity, and what is left of
    [copyVhosts] is its check of the first table. *)

From S2P Require Import Prelude Regex WebPolicy DomainTypes TelemtTypes Json Reliability.
Import WebPolicy.Policy.

Local Open Scope go_scope.

(** ** Decoded values *)

Definition jint (n : Z) : json := JNumber (Dec.itoa n).

(** [m[k] = v] *)
Fixpoint set_member (o : object) (k : string) (v : json) : object :=
  match o with
  | [] => [(k, v)]
  | (k', v') :: o => if String.eqb k' k then (k, v) :: o else (k', v') :: set_member o k v
  end.

(** [v, _ := o[k].(map[string]any)], and the same for a list and a string. *)
Definition sub_object (o : object) (k : string) : object := default [] (as_object (member o k)).
Definition sub_array (o : object) (k : string) : list json := default [] (as_array (member o k)).
Definition sub_string (o : object) (k : string) : string := default EmptyString (as_string (member o k)).

(** [o[k] == s] for a string [s]. *)
Definition is_string (o : object) (k s : string) : bool :=
  match as_string (member o k) with Some x => String.eqb x s | None => false end.

(** jsonNumber: a port number. *)
Definition jsonNumber (v : option json) : option Z :=
  match v with
  | Some (JNumber t) =>
      let n := Json.value t in
      if (n.1 <? 0) || Json.greater n 65535 then None else Some (Json.truncate n)
  | _ => None
  end.

(** jsonInt: the truncated number, and whether nothing was cut off. *)
Definition jsonInt (v : option json) : Z * bool :=
  match v with
  | Some (JNumber t) => let n := Json.truncate (Json.value t) in (n, Json.same_number (Json.value t) (n, 0))
  | _ => (0, false)
  end.

(** stringList: the strings of a list in lower case. *)
Definition stringList (v : option json) : list string :=
  omap (fun i => match i with JString s => Some (Str.to_lower s) | _ => None end) (default [] (as_array v)).

(** anyStrings, anyInts: [None] when an item has another type. *)
Definition anyStrings (v : option json) : option (list string) :=
  l ← as_array v; mapM (fun i => match i with JString s => Some s | _ => None end) l.

Definition anyInts (v : option json) : option (list Z) :=
  l ← as_array v; mapM (fun i => match jsonInt (Some i) with (n, true) => Some n | _ => None end) l.

Definition sameStrings (a b : list string) : bool := bool_decide (a = b).
Definition sameInts (a b : list Z) : bool := bool_decide (a = b).

(** ** Virtual hosts *)

Definition telemtVhosts (cfg : object) : result (list json) :=
  match as_object (member cfg "web") with
  | None => Err "telemt config has no [web] section; run init-node --engine telemt"
  | Some web =>
      match sub_array web "vhosts" with
      | [] => Err "telemt config has no [[web.vhosts]] entry"
      | (JObject _ :: _) as vhosts => Ok vhosts
      | _ => Err "telemt config web.vhosts[0] is not a table"
      end
  end.

Definition copyVhosts (vhosts : list json) : result (list json) :=
  match vhosts with
  | [] => Err "telemt config web.vhosts is empty"
  | JObject _ :: _ => Ok vhosts
  | _ => Err "telemt config web.vhosts[0] is not a table"
  end.

(** The loop of webVhostIndex; [index] is the one found so far. *)
Fixpoint vhost_index (host : string) (i : nat) (index : option nat) (vs : list json) : result nat :=
  match vs with
  | [] => match index with Some i => Ok i | None => Err ("managed WEB vhost " +:+ Str.quote host +:+ " is missing") end
  | JObject v :: vs =>
      if String.eqb host EmptyString then Ok i
      else if is_string v "host" host then
        match index with
        | Some _ => Err ("managed WEB vhost " +:+ Str.quote host +:+ " is ambiguous")
        | None => vhost_index host (S i) (Some i) vs
        end
      else vhost_index host (S i) index vs
  | _ :: vs => vhost_index host (S i) index vs
  end.

Definition webVhostIndex (web : object) (host : string) : result nat := vhost_index host 0 None (sub_array web "vhosts").

(** The table at an index. *)
Definition vhost_at (vhosts : list json) (i : nat) : object := default [] (as_object (vhosts !! i)).

Definition managedVhost (cfg : object) (host : string) : result object :=
  let web := sub_object cfg "web" in
  let? i := webVhostIndex web host in Ok (vhost_at (sub_array web "vhosts") i).

(** The table at an index with one key changed. *)
Definition set_vhost (vhosts : list json) (i : nat) (k : string) (v : json) : list json :=
  <[i := JObject (set_member (vhost_at vhosts i) k v)]> vhosts.

(** The patch that replaces all virtual hosts. *)
Definition vhosts_patch (vhosts : list json) : object := [("web"%string, JObject [("vhosts"%string, JArray vhosts)])].

(** ** Limits *)

Definition telemtLimitInt (limits : object) (key : string) (fallback : Z) : Z :=
  match member limits key with Some (JNumber t) => Json.truncate (Json.value t) | _ => fallback end.

Definition telemtWebLimits (cfg : object) : object := sub_object (sub_object cfg "web") "limits".

Definition telemtGlobalWebLimits (cfg : object) : Limits.WebGlobalLimits :=
  let limits := telemtWebLimits cfg in
  let read key fallback :=
    match member limits key with
    | Some (JNumber t) => if (Json.value t).1 >? 0 then Json.truncate (Json.value t) else fallback
    | _ => fallback
    end in
  let d := Limits.DefaultWebGlobalLimits in
  {| Limits.g_MaxSessions := read "max_sessions_global"%string (Limits.g_MaxSessions d);
     Limits.g_MaxStreams := read "max_streams_global"%string (Limits.g_MaxStreams d);
     Limits.g_MaxStreamsPerSession := read "max_streams_per_session"%string (Limits.g_MaxStreamsPerSession d) |}.

(** ** Fake-TLS listener, domains and the public address *)

(** The index of the first listener that is a Fake-TLS one. *)
Fixpoint fake_tls_from (i : nat) (listeners : list json) : option nat :=
  match listeners with
  | [] => None
  | JObject m :: l =>
      let t := sub_string m "transport" in
      if String.eqb t EmptyString || String.eqb t "mtproxy" then Some i else fake_tls_from (S i) l
  | _ :: l => fake_tls_from (S i) l
  end.

Definition telemtFakeTLSListener (listeners : list json) : option nat := fake_tls_from 0 listeners.

(** ^[a-z0-9]([a-z0-9-]*[a-z0-9])?(\.[a-z0-9]([a-z0-9-]*[a-z0-9])?)+$ *)
Definition host_label : re :=
  Seq (Cls [("a","z");("0","9")]%char)
      (opt (Seq (Star (Cls [("a","z");("0","9");("-","-")]%char)) (Cls [("a","z");("0","9")]%char))).
Definition hostnameRe : re := Seq host_label (plus (Seq (Cls [(".",".")]%char) host_label)).

Definition validHostname (h : string) : bool :=
  (String.length h <=? 253)%nat && accepts hostnameRe (Str.to_lower h) && String.eqb h (Str.to_lower h).

Fixpoint extra_domains (primary : string) (out domains : list string) : result (list string) :=
  match domains with
  | [] => Ok out
  | d :: domains =>
      let d := Str.to_lower (Str.trim_space d) in
      if String.eqb d EmptyString || String.eqb d primary || existsb (String.eqb d) out
      then extra_domains primary out domains
      else if negb (validHostname d) then Err ("invalid tls domain " +:+ Str.quote d)
      else extra_domains primary (out ++ [d]) domains
  end.

Definition extraTLSDomains (primary : string) (domains : list string) : result (list string) :=
  extra_domains primary [] domains.

(** An IPv4 address in its 16-byte form: [ip.To4() != nil]. *)
Definition is_v4 (ip : list Z) : bool := bool_decide (take 12 ip = replicate 10 0 ++ [255; 255]).

Definition telemtPublicAddr (ip : string) : option string :=
  parsed ← Net.ParseIP ip;
  Some (if is_v4 parsed then ip +:+ ":443" else "[" +:+ ip +:+ "]:443").

(** ** WEB policy *)

Definition carriersSatisfied (cur want : list string) (fallback : string) : bool :=
  sameStrings cur want || (negb (existsb (String.eqb fallback) want) && sameStrings cur (want ++ [fallback])).

(** One key of the patch: there when the node's value differs. *)
Definition entry_if (differs : bool) (k : string) (v : json) : object := if differs then [(k, v)] else [].

Definition string_entry (web : object) (k v : string) : object := entry_if (negb (String.eqb (sub_string web k) v)) k (JString v).

Definition carriers_entry (web : object) (p : WebPolicy) : object :=
  match Carriers p with
  | None => entry_if (match member web "carriers" with Some (JBool disabled) => disabled | _ => true end) "carriers" (JBool false)
  | Some want =>
      entry_if (match anyStrings (member web "carriers") with
                | Some cur => negb (carriersSatisfied cur want (Carrier p))
                | None => true
                end) "carriers" (JArray (JString <$> want))
  end.

Definition timeouts_patch (timeouts : object) (t : WebTimeouts) : object :=
  entry_if (match anyInts (member timeouts "carrier_negotiation_deadlines_secs") with
            | Some l => negb (sameInts l (NegotiationDeadlinesSecs t)) | None => true end)
    "carrier_negotiation_deadlines_secs" (JArray (jint <$> NegotiationDeadlinesSecs t)) ++
  concat ((fun '(name, want) =>
      let '(got, ok) := jsonInt (member timeouts name) in entry_if (negb (ok && (got =? want))) name (jint want)) <$>
    [("carrier_health_secs", CarrierHealthSecs t); ("carrier_learning_secs", CarrierLearningSecs t);
     ("bridge_request_secs", BridgeRequestSecs t); ("bridge_retry_secs", BridgeRetrySecs t);
     ("carrier_probe_coalesce_ms", ProbeCoalesceMs t)]%string).

(** The sparse patch of [web]; empty when nothing differs, for which the code
    returns nil. *)
Definition telemtWebPolicyPatch (web : object) (p : WebPolicy) : object :=
  (match CarrierMethod p with
   | Some m => entry_if (negb (is_string web "carrier_method" m)) "carrier_method" (JString m) | None => [] end) ++
  (match Conveyor p with
   | Some b => entry_if (match member web "conveyor" with Some (JBool c) => negb (Bool.eqb c b) | _ => true end) "conveyor" (JBool b)
   | None => [] end) ++
  string_entry web "carrier" (Carrier p) ++
  carriers_entry web p ++
  entry_if (match member web "carrier_learning" with Some (JBool b) => negb (Bool.eqb b (CarrierLearning p)) | _ => true end)
    "carrier_learning" (JBool (CarrierLearning p)) ++
  string_entry web "carrier_negotiation_aggressiveness" (Aggressiveness p) ++
  string_entry web "http_connection_capacity_action" (connection_capacity_action (Overload p)) ++
  (let next := timeouts_patch (sub_object web "timeouts") (Timeouts p) in
   entry_if (negb (List.length next =? 0)%nat) "timeouts" (JObject next)).

(** The virtual hosts with the options of the policy; [None] when nothing
    differs. *)
Definition webVhostPolicyPatch (web : object) (host : string) (p : WebPolicy) : result (option (list json)) :=
  match BasePath p, DecoyResolve p with
  | None, None => Ok None
  | _, _ =>
      let? i := webVhostIndex web host in
      let? next := copyVhosts (sub_array web "vhosts") in
      let v := vhost_at next i in
      let '(next, changed) :=
        match BasePath p with
        | Some b => if String.eqb (sub_string v "base_path") b then (next, false) else (set_vhost next i "base_path" (JString b), true)
        | None => (next, false)
        end in
      let '(next, changed) :=
        match DecoyResolve p with
        | Some r =>
            let d := sub_object v "decoy" in
            if negb (is_string d "mode" "http_upstream") then (next, changed)
            else
              let cur := sub_string d "resolve" in
              if String.eqb (if String.eqb cur EmptyString then "never"%string else cur) r then (next, changed)
              else (set_vhost next i "decoy" (JObject (set_member d "resolve" (JString r))), true)
        | None => (next, changed)
        end in
      Ok (if changed : bool then Some next else None)
  end.
