(* ===== verification/Patches.v ===== *)
(** * JSON Merge Patch

    The meaning of a patch of telemt's configuration (RFC 7386): the values at
    the paths of a document before and after it ([leaf_merge]). *)

From S2P Require Import Prelude TelemtTypes TelemtConfig.

(** ** Values at paths *)

(** The member of an object, null when it has none. *)
Definition member_or_null (o : object) (k : string) : json := default JNull (member o k).

(** The members of a value; none when it is no object. *)
Definition members (j : json) : object := match j with JObject o => o | _ => [] end.

(** The value at a path, null when there is none. *)
Fixpoint leaf (j : json) (p : list string) : json :=
  match p with
  | [] => j
  | k :: p => leaf (member_or_null (members j) k) p
  end.

Lemma leaf_null p : leaf JNull p = JNull.
Proof. by induction p. Qed.

(** ** Merge patches *)

Definition drop_member (o : object) (k : string) : object := List.filter (fun e => negb (String.eqb e.1 k)) o.

(** The first of two members with one name counts, as it does for [member]. *)
Fixpoint merge (target patch : json) {struct patch} : json :=
  match patch with
  | JObject ps =>
      JObject ((fix go (ps : object) : object :=
        match ps with
        | [] => members target
        | (k, JNull) :: ps => drop_member (go ps) k
        | (k, v) :: ps => set_member (go ps) k (merge (member_or_null (members target) k) v)
        end) ps)
  | _ => patch
  end.

Lemma member_set o k v k' : member (set_member o k v) k' = if String.eqb k k' then Some v else member o k'.
Proof.
  induction o as [|[x u] o IH]; cbn [set_member member]; [done|].
  destruct (String.eqb_spec x k) as [->|Hx]; cbn [member]; [by destruct (String.eqb k k')|]. rewrite IH.
  destruct (String.eqb_spec x k') as [->|Hy]; [|done]. by rewrite (proj2 (String.eqb_neq _ _)) by congruence.
Qed.

Lemma member_drop o k k' : member (drop_member o k) k' = if String.eqb k k' then None else member o k'.
Proof.
  induction o as [|[x u] o IH]; [by destruct (String.eqb k k')|]. cbn [drop_member List.filter member fst].
  fold (drop_member o k). destruct (String.eqb_spec x k) as [->|Hx]; cbn [negb member]; [rewrite IH; by destruct (String.eqb k k')|]. rewrite IH.
  destruct (String.eqb_spec x k') as [->|Hy]; [|done]. by rewrite (proj2 (String.eqb_neq _ _)) by congruence.
Qed.

(** Member by member. *)
Lemma merge_member t ps k :
  member_or_null (members (merge t (JObject ps))) k =
  match member ps k with
  | Some v => merge (member_or_null (members t) k) v
  | None => member_or_null (members t) k
  end.
Proof.
  cbn [merge members]. induction ps as [|[x v] ps IH]; [done|]. cbn [member].
  assert (E : member_or_null (match v with
    | JNull => drop_member ((fix go ps := match ps with [] => members t | (k, JNull) :: ps => drop_member (go ps) k
        | (k, v) :: ps => set_member (go ps) k (merge (member_or_null (members t) k) v) end) ps) x
    | _ => set_member ((fix go ps := match ps with [] => members t | (k, JNull) :: ps => drop_member (go ps) k
        | (k, v) :: ps => set_member (go ps) k (merge (member_or_null (members t) k) v) end) ps) x (merge (member_or_null (members t) x) v) end) k =
    if String.eqb x k then merge (member_or_null (members t) x) v else
    match member ps k with Some v => merge (member_or_null (members t) k) v | None => member_or_null (members t) k end).
  { rewrite <- IH. unfold member_or_null. destruct v; rewrite ?member_set, ?member_drop; by destruct (String.eqb x k). }
  destruct (String.eqb_spec x k) as [->|Hx]; exact E.
Qed.

(** What a patch says of the value at a path, if anything. *)
Fixpoint mention (patch : json) (p : list string) : option json :=
  match p with
  | [] => Some patch
  | k :: p =>
      match patch with
      | JObject ps => match member ps k with Some v => mention v p | None => None end
      | _ => Some JNull
      end
  end.

(** A value that is no table. *)
Definition is_scalar (j : json) : bool := match j with JObject _ => false | _ => true end.

Lemma leaf_merge t patch p : (forall v, mention patch p = Some v -> is_scalar v = true) ->
  leaf (merge t patch) p = default (leaf t p) (mention patch p).
Proof.
  revert t patch. induction p as [|k p IH]; intros t patch Hv.
  - cbn in *. specialize (Hv _ eq_refl). by destruct patch.
  - cbn [leaf mention] in *. destruct patch as [| | | | |ps]; try exact (leaf_null p).
    rewrite merge_member. destruct (member ps k) as [v|] eqn:E; [|done]. by rewrite IH.
Qed.
