(* ===== verification/AgentProto.v ===== *)
(** * Messages between the panel and the agent

    proto/agent/v1/agent.proto: the request to apply a desired state and its
    answer ([Module Pb]).  A field of a message is the value its getter returns; an absent
    message or an [optional] field is an [option].  The integers of the
    messages keep their width: [MaxSessions] and its like are [int32],
    [MaxUniqueIps] and its like [uint32], quotas and rates [uint64].  The
    health of a node and its WEB telemetry follow ([Module PbHealth]); a [double]
    is a [spec_float]. *)

From Stdlib Require Import SpecFloat.
From S2P Require Import Prelude.

Module Pb.

Record ProfileLimits := {
  MaxSessions : Z; MaxStreams : Z; MaxBackendDialsInFlight : Z;
  NewSessionsPerMinute : Z; NewSessionsBurst : Z;
  NewStreamsPerMinute : Z; NewStreamsBurst : Z;
  MaxStreamsPerSession : Z; MaxPendingPerSession : Z
}.

Record Profile := {
  Name : string; Secret : string; Backend : string; CarrierMode : string;
  Limits : option ProfileLimits;
  DataQuotaBytes : Z; RateLimitUpBps : Z; RateLimitDownBps : Z;
  MaxUniqueIps : Z; MaxTcpConns : Z;
  ExpiresAtUnix : Z;
  Enabled : bool;
  QuotaResetUnix : Z
}.

Record WebTimeouts := {
  NegotiationDeadlinesSecs : list Z;
  CarrierHealthSecs : Z; CarrierLearningSecs : Z; BridgeRequestSecs : Z; BridgeRetrySecs : Z; ProbeCoalesceMs : Z
}.

Record WebPolicy := {
  Carrier : string;
  Carriers : list string;
  CarrierLearning : bool;
  Aggressiveness : string;
  Timeouts : option WebTimeouts;
  ConnectionCapacityAction : string;
  CarrierMethod : option string;
  Conveyor : option bool;
  BasePath : option string;
  DecoyResolve : option string
}.

(** The files of a site: a path and its content. *)
Definition SiteBundle : Type := list (string * string).

Record ApplyRequest := {
  ApplyProfiles : bool;
  Profiles : list Profile;
  MtproxySecrets : list string;
  Site : option SiteBundle;
  TlsDomain : string;
  ClassicPort : Z;
  PublicIp : string;
  AdTag : string;
  RWebPolicy : option WebPolicy;
  ManagedWebHost : string;
  TlsDomains : list string;
  WebCapacity : Z;
  MaxProfiles : Z
}.

(** The answer; its log is left out. *)
Record ApplyResult := {
  Ok_ : bool;
  RestartedRelay : bool;
  RestartedMtproxy : bool;
  RolledBack : bool;
  DeferredFields : list string;
  RestartRequired : bool;
  AppliedWebBasePath : option string
}.

End Pb.

Module PbHealth.

Record WebCounterSample := { Carrier : string; Label : string; Phase : string; Value : spec_float }.

(** [repeated]; an absent family is [None]. *)
Definition WebCounterFamily : Type := list WebCounterSample.

Record WebLearningState := {
  Enabled : bool; PolicyGeneration : Z; LearningEpoch : Z;
  Entries : Z; Capacity : Z;
  LifetimeSecs : Z; HealthSecs : Z; LearningAgeMs : Z
}.

Record WebDrainState := {
  OperationId : string; DrainState : string; Outcome : string;
  TimeoutSecs : Z;
  StartedEpochMillis : Z; DeadlineEpochMillis : Z;
  RemainingSessions : Z; RemainingStreams : Z; RemainingWebsockets : Z;
  ForceCloseSignalled : bool
}.

Record WebLifecycleState := {
  State : string; Epoch : Z; AgeMs : Z;
  AdmissionOpen : bool; EffectiveNewWorkAdmission : bool;
  Drain : option WebDrainState
}.

Record WebCapacityResource := { Resource : string; Unit : string; Used : Z; Available : Z; Limit : Z; Closed : bool }.

Record WebCapacityState := {
  ConnectionCapacityAction : string;
  MaxHttpOverloadConnections : Z; HttpOverloadTimeoutMs : Z;
  Resources : list WebCapacityResource;
  SaturatedResources : list string; Partial : list string;
  OverloadOutcomes : option WebCounterFamily
}.

Record WebRuntimeState := {
  RuntimeInstance : string; CarrierNegotiation : bool;
  Learning : option WebLearningState; Lifecycle : option WebLifecycleState; RuntimeCapacity : option WebCapacityState
}.

Record WebTelemetry := {
  CarrierSelections : option WebCounterFamily; CarrierFailures : option WebCounterFamily;
  LearningOutcomes : option WebCounterFamily; LearningEntries : option WebCounterFamily;
  Rejections : option WebCounterFamily; SessionClosures : option WebCounterFamily;
  BridgeRecovery : option WebCounterFamily;
  Runtime : option WebRuntimeState
}.

Record TelemtCapabilities := { Supported : gmap string bool; Undetermined : list string; Build : string }.

Record DcLatency := { Dc : Z; LatencyMs : spec_float; Known : bool; IpPreference : string }.

Record FirewallCounter := { Entry : string; Packets : Z; Bytes : Z }.

Record FirewallStatus := {
  Revision : Z; FwEntries : Z; DroppedPackets : Z; DroppedBytes : Z;
  Counters : list FirewallCounter; FwError : string
}.

Record HealthReport := {
  RelayActive : bool; MtproxyActive : bool; CaddyActive : bool; Healthz : bool; Readyz : bool;
  TproxyVersion : string; AgentVersion : string;
  UptimeSeconds : Z;
  CpuPercent : spec_float; MemUsedPercent : spec_float; DiskUsedPercent : spec_float;
  ProfileCount : Z;
  Dcs : list DcLatency;
  UpstreamHealthy : bool; UpstreamFails : Z; EffectiveLatencyMs : spec_float;
  ConnectSuccessTotal : Z; ConnectFailTotal : Z; UpstreamLastCheckAgeSecs : Z; DcDataAvailable : bool;
  Web : option WebTelemetry;
  Capabilities : option TelemtCapabilities;
  CpuUtilisationPercent : option spec_float;
  LoadAverage_1 : option spec_float; LoadAverage_5 : option spec_float; LoadAverage_15 : option spec_float;
  ReliabilityJson : string;
  Firewall : option FirewallStatus;
  HrWebCapacity : Z; MaxConnections : Z
}.

End PbHealth.
