(* ===== verification/Users.v ===== *)
(** * The users of a telemt node

    internal/agent/telemt.go: the policy of a user in telemt's units and the
    requests that set it, the validation of the desired users, the record of
    what each user was last given, and the reconciliation of telemt's users
    with the desired ones ([reconcileTelemtUsers]), statement by statement.

    [telemtRollback] is a value threaded through the steps instead of a
    pointer.  The lines of the log are left out. *)

From stdpp Require Import sorting.
From S2P Require Import Prelude Regex Calendar Crypto WebPolicy TelemtTypes Json DomainTypes Node AgentFiles TelemtClient UpdateState Reliability TelemtConfig AgentProto.

Local Open Scope go_scope.

(** ** The policy of a user *)

Record telemtPolicy := {
  DataQuotaBytes : Z;
  RateLimitUpBps : Z;
  RateLimitDownBps : Z;
  MaxUniqueIPs : Z;
  MaxTCPConns : Z;
  Expiration : string;
  Enabled : bool;
  AdTag : string
}.

#[export] Instance telemtPolicy_dec : EqDecision telemtPolicy.
Proof. solve_decision. Defined.

Definition telemtPolicyFrom (p : Pb.Profile) : telemtPolicy :=
  {| DataQuotaBytes := Pb.DataQuotaBytes p; RateLimitUpBps := Pb.RateLimitUpBps p; RateLimitDownBps := Pb.RateLimitDownBps p;
     MaxUniqueIPs := Pb.MaxUniqueIps p; MaxTCPConns := Pb.MaxTcpConns p;
     Expiration := if Pb.ExpiresAtUnix p =? 0 then EmptyString else Rfc3339.Format (Pb.ExpiresAtUnix p);
     Enabled := Pb.Enabled p; AdTag := EmptyString |}.

(** The fields of the struct, in its order. *)
Definition policy_json (p : telemtPolicy) : json :=
  JObject [("data_quota_bytes", jint (DataQuotaBytes p)); ("rate_limit_up_bps", jint (RateLimitUpBps p));
           ("rate_limit_down_bps", jint (RateLimitDownBps p)); ("max_unique_ips", jint (MaxUniqueIPs p));
           ("max_tcp_conns", jint (MaxTCPConns p)); ("expiration_rfc3339", JString (Expiration p));
           ("enabled", JBool (Enabled p)); ("ad_tag", JString (AdTag p))]%string.

Definition fingerprint (p : telemtPolicy) : string := Sha.hex (Json.marshal (policy_json p)).

Definition positive (n : Z) : option Z := if n >? 0 then Some n else None.
Definition non_empty (s : string) : option string := if String.eqb s EmptyString then None else Some s.

Definition createRequest (p : telemtPolicy) (name secret : string) : CreateUserRequest :=
  {| cu_Username := name; cu_Secret := secret; cu_Enabled := Some (Enabled p); cu_UserAdTag := non_empty (AdTag p);
     cu_DataQuotaBytes := positive (DataQuotaBytes p); cu_RateLimitUpBps := positive (RateLimitUpBps p);
     cu_RateLimitDownBps := positive (RateLimitDownBps p); cu_MaxUniqueIPs := positive (MaxUniqueIPs p);
     cu_MaxTCPConns := positive (MaxTCPConns p); cu_ExpirationRFC3339 := non_empty (Expiration p) |}.

(** The field to send as a null when there is no value to set. *)
Definition cleared {A} (v : option A) (field : string) : list string := match v with Some _ => [] | None => [field] end.

Definition patchRequest (p : telemtPolicy) (secret : option string) : PatchUserRequest :=
  {| pu_Secret := secret; pu_Enabled := Some (Enabled p); pu_UserAdTag := non_empty (AdTag p);
     pu_DataQuotaBytes := positive (DataQuotaBytes p); pu_RateLimitUpBps := positive (RateLimitUpBps p);
     pu_RateLimitDownBps := positive (RateLimitDownBps p); pu_MaxUniqueIPs := positive (MaxUniqueIPs p);
     pu_MaxTCPConns := positive (MaxTCPConns p); pu_ExpirationRFC3339 := non_empty (Expiration p);
     pu_Clear := cleared (positive (DataQuotaBytes p)) "data_quota_bytes" ++
       cleared (positive (RateLimitUpBps p)) "rate_limit_up_bps" ++ cleared (positive (RateLimitDownBps p)) "rate_limit_down_bps" ++
       cleared (positive (MaxUniqueIPs p)) "max_unique_ips" ++ cleared (positive (MaxTCPConns p)) "max_tcp_conns" ++
       cleared (non_empty (Expiration p)) "expiration_rfc3339" ++ cleared (non_empty (AdTag p)) "user_ad_tag" |}.

(** Whether telemt already holds exactly this policy. *)
Definition matches (p : telemtPolicy) (u : User) : bool :=
  (u_DataQuotaBytes u =? DataQuotaBytes p) && (u_RateLimitUpBps u =? RateLimitUpBps p) &&
  (u_RateLimitDownBps u =? RateLimitDownBps p) && (u_MaxUniqueIPs u =? MaxUniqueIPs p) &&
  (u_MaxTCPConns u =? MaxTCPConns p) && Bool.eqb (u_Enabled u) (Enabled p) && String.eqb (u_UserAdTag u) (AdTag p) &&
  Bool.eqb (String.eqb (u_ExpirationRFC3339 u) EmptyString) (String.eqb (Expiration p) EmptyString) &&
  (String.eqb (Expiration p) EmptyString ||
   match Rfc3339.Parse (u_ExpirationRFC3339 u), Rfc3339.Parse (Expiration p) with
   | Some have, Some want => have =? want
   | _, _ => false
   end).

(** ** The desired users *)

Record telemtDesired := {
  name : string;
  secret : string;
  policy : telemtPolicy;
  webLimits : Limits.WebProfileLimits;
  quotaReset : Z
}.

(** ^[A-Za-z0-9_.-]{1,64}$ and ^[0-9a-f]{32}$ *)
Definition userRe : re :=
  let c := Cls [("A","Z");("a","z");("0","9");("_","_");(".",".");("-","-")]%char in Seq c (upto 63 c).
Definition hexRe : re := exactly 32 (Cls [("0","9");("a","f")]%char).

Definition with_tag (p : telemtPolicy) (tag : string) : telemtPolicy :=
  {| DataQuotaBytes := DataQuotaBytes p; RateLimitUpBps := RateLimitUpBps p; RateLimitDownBps := RateLimitDownBps p;
     MaxUniqueIPs := MaxUniqueIPs p; MaxTCPConns := MaxTCPConns p; Expiration := Expiration p; Enabled := Enabled p; AdTag := tag |}.

Definition desired_user (tag : string) (p : Pb.Profile) : telemtDesired :=
  let policy := with_tag (telemtPolicyFrom p) tag in
  {| name := Pb.Name p; secret := Pb.Secret p; policy := policy;
     webLimits := match Pb.Limits p with
                  | Some l => {| Limits.MaxSessions := Pb.MaxSessions l; Limits.MaxStreams := Pb.MaxStreams l;
                                 Limits.MaxStreamsPerSession := Pb.MaxStreamsPerSession l |}
                  | None => {| Limits.MaxSessions := 0; Limits.MaxStreams := 0; Limits.MaxStreamsPerSession := 0 |}
                  end;
     quotaReset := if DataQuotaBytes policy >? 0 then Pb.QuotaResetUnix p else 0 |}.

Fixpoint desired_users (tag : string) (seen : gset string) (ps : list Pb.Profile) : result (list telemtDesired) :=
  match ps with
  | [] => Ok []
  | p :: ps =>
      if negb (accepts userRe (Pb.Name p)) then Err ("invalid profile name " +:+ Str.quote (Pb.Name p))
      else if negb (accepts hexRe (Pb.Secret p))
      then Err ("profile " +:+ Str.quote (Pb.Name p) +:+ ": secret must be 32 lowercase hex characters")
      else if bool_decide (Pb.Name p ∈ seen) then Err ("duplicate profile " +:+ Str.quote (Pb.Name p))
      else let? l := desired_users tag ({[Pb.Name p]} ∪ seen) ps in Ok (desired_user tag p :: l)
  end.

Definition telemtDesiredFrom (req : Pb.ApplyRequest) : result (list telemtDesired) :=
  if match Pb.Profiles req with [] => true | _ => false end then Err "at least one profile is required"
  else if negb (String.eqb (Pb.AdTag req) EmptyString) && negb (accepts hexRe (Pb.AdTag req))
  then Err "ad tag must be 32 lowercase hex characters"
  else desired_users (Pb.AdTag req) ∅ (Pb.Profiles req).

(** ** What each user was last given *)

Record telemtState := {
  SecretHashes : gmap string string;
  LimitHashes : gmap string string;
  QuotaResets : gmap string Z
}.

Definition no_state : telemtState := {| SecretHashes := ∅; LimitHashes := ∅; QuotaResets := ∅ |}.

Definition secretFingerprint (secret : string) : string := Sha.hex secret.

(** A Go map is written with its keys in order. *)
Definition key_le {A} (a b : string * A) : Prop := String.leb a.1 b.1 = true.
#[export] Instance key_le_dec A : RelDecision (@key_le A).
Proof. intros a b. unfold key_le. solve_decision. Defined.

Definition map_json {A} (f : A -> json) (m : gmap string A) : json :=
  JObject ((fun e => (e.1, f e.2)) <$> merge_sort key_le (map_to_list m)).

Definition state_json (st : telemtState) : json :=
  JObject ([("secret_hashes", map_json JString (SecretHashes st)); ("limit_hashes", map_json JString (LimitHashes st))]%string ++
           (if bool_decide (QuotaResets st = ∅) then [] else [("quota_resets"%string, map_json jint (QuotaResets st))])).

(** A map of a struct from its JSON value; a null is the nil map, which keeps
    the empty one. *)
Fixpoint map_entries {A} (f : json -> option A) (o : object) : option (list (string * A)) :=
  match o with
  | [] => Some []
  | (k, v) :: o => match f v, map_entries f o with Some a, Some l => Some ((k, a) :: l) | _, _ => None end
  end.

Definition json_map {A} (f : json -> option A) (v : option json) : option (gmap string A) :=
  match v with
  | None | Some JNull => Some ∅
  | Some (JObject o) => (fun l => list_to_map (reverse l)) <$> map_entries f o
  | Some _ => None
  end.

Definition as_text (v : json) : option string := match v with JString s => Some s | JNull => Some EmptyString | _ => None end.
Definition as_int64 (v : json) : option Z := match v with JNumber t => Dec.atoi t | JNull => Some 0 | _ => None end.

Definition state_of_json (j : json) : option telemtState :=
  match j with
  | JObject o =>
      match json_map as_text (member o "secret_hashes"), json_map as_text (member o "limit_hashes"), json_map as_int64 (member o "quota_resets") with
      | Some s, Some l, Some q => Some {| SecretHashes := s; LimitHashes := l; QuotaResets := q |}
      | _, _, _ => None
      end
  | JNull => Some no_state
  | _ => None
  end.

(** The state a file holds; a file that is not one counts as none. *)
Definition decode_state (raw : string) : telemtState := default no_state (Json.unmarshal raw ≫= state_of_json).
Definition encode_state (st : telemtState) : string := Json.marshal (state_json st) +:+ String (ascii_of_nat 10) EmptyString.

(** ** What an apply changed *)

Record telemtConfigBackup := { data : string; mode : Z }.

Record telemtRollback := {
  created : list string;
  prevVhosts : option (list json);
  siteBackup : option string;
  prevListeners : option object;
  publicAddrChanged : bool;
  prevMiddleProxy : option bool;
  prevWebPolicy : option object;
  irreversible : list string;
  config : option telemtConfigBackup
}.

Definition no_rollback : telemtRollback :=
  {| created := []; prevVhosts := None; siteBackup := None; prevListeners := None; publicAddrChanged := false;
     prevMiddleProxy := None; prevWebPolicy := None; irreversible := []; config := None |}.

Definition rb_created (rb : telemtRollback) (n : string) : telemtRollback :=
  {| created := created rb ++ [n]; prevVhosts := prevVhosts rb; siteBackup := siteBackup rb; prevListeners := prevListeners rb;
     publicAddrChanged := publicAddrChanged rb; prevMiddleProxy := prevMiddleProxy rb; prevWebPolicy := prevWebPolicy rb;
     irreversible := irreversible rb; config := config rb |}.
Definition rb_vhosts (rb : telemtRollback) (v : list json) : telemtRollback :=
  {| created := created rb; prevVhosts := Some v; siteBackup := siteBackup rb; prevListeners := prevListeners rb;
     publicAddrChanged := publicAddrChanged rb; prevMiddleProxy := prevMiddleProxy rb; prevWebPolicy := prevWebPolicy rb;
     irreversible := irreversible rb; config := config rb |}.
Definition rb_irreversible (rb : telemtRollback) (s : string) : telemtRollback :=
  {| created := created rb; prevVhosts := prevVhosts rb; siteBackup := siteBackup rb; prevListeners := prevListeners rb;
     publicAddrChanged := publicAddrChanged rb; prevMiddleProxy := prevMiddleProxy rb; prevWebPolicy := prevWebPolicy rb;
     irreversible := irreversible rb ++ [s]; config := config rb |}.

(** ** Reconciliation *)

Section Reconcile.
Context `{Outside}.
Context (cfg : Config).

Definition telemtStatePath : string := Path.Join (StateDir cfg) "telemt-users.json".

Definition readTelemtState : M telemtState :=
  raw ← must_read telemtStatePath;
  mret (match raw with Ok raw => decode_state raw | Err _ => no_state end).

Definition writeTelemtState (st : telemtState) : M (result unit) :=
  try _ ← check (MkdirAll (StateDir cfg));
  writeAtomic telemtStatePath (encode_state st) 384.

(** The variables of the loop over the desired users. *)
Record progress := {
  rb : telemtRollback;
  state : telemtState;
  next : telemtState;
  changed : bool;
  stateMoved : bool
}.

Definition record_hashes (st : telemtState) (n secretHash policyHash : string) (reset : Z) : telemtState :=
  {| SecretHashes := <[n := secretHash]> (SecretHashes st); LimitHashes := <[n := policyHash]> (LimitHashes st);
     QuotaResets := if reset =? 0 then QuotaResets st else <[n := reset]> (QuotaResets st) |}.

Definition checkpoint (st : telemtState) (n : string) (reset : Z) : telemtState :=
  {| SecretHashes := SecretHashes st; LimitHashes := LimitHashes st; QuotaResets := <[n := reset]> (QuotaResets st) |}.

(** The head of an iteration: the hashes of the next state. *)
Definition note (d : telemtDesired) (s : progress) : progress :=
  {| rb := rb s; state := state s; changed := changed s;
     next := record_hashes (next s) (name d) (secretFingerprint (secret d)) (fingerprint (policy d)) (quotaReset d);
     stateMoved := stateMoved s || negb (default 0 (QuotaResets (state s) !! name d) =? quotaReset d) |}.

Definition did (s : progress) (rb : telemtRollback) : progress :=
  {| rb := rb; state := state s; next := next s; changed := true; stateMoved := stateMoved s |}.

Definition did_reset (s : progress) (d : telemtDesired) : progress :=
  {| rb := rb_irreversible (rb s) ("quota reset of user " +:+ name d); state := checkpoint (state s) (name d) (quotaReset d);
     next := next s; changed := true; stateMoved := stateMoved s |}.

(** Whether the quota period of a user moved forward. *)
Definition period_moved (st : telemtState) (d : telemtDesired) : bool :=
  match QuotaResets st !! name d with Some last => quotaReset d >? last | None => false end.

(** Reset the quota and record it before anything else can fail. *)
Definition reset_quota (ctx : context) (d : telemtDesired) (s : progress) : M (progress * option error) :=
  r ← textual (control ctx (ResetQuota (name d)));
  match r with
  | Err e => mret (s, Some ("reset quota of user " +:+ name d +:+ ": " +:+ e))
  | Ok _ =>
      let s := did_reset s d in
      w ← writeTelemtState (state s);
      mret (s, match w with Err e => Some ("record quota reset of user " +:+ name d +:+ ": " +:+ e) | Ok _ => None end)
  end.

Definition secret_changed (st : telemtState) (d : telemtDesired) : bool :=
  negb (bool_decide (SecretHashes st !! name d = Some (secretFingerprint (secret d)))).

Definition policy_changed (st : telemtState) (d : telemtDesired) (u : User) : bool :=
  match LimitHashes st !! name d with
  | Some prev => negb (String.eqb prev (fingerprint (policy d)))
  | None => negb (matches (policy d) u)
  end.

Definition change_text (sec pol : bool) (n : string) : string :=
  if sec && pol then "secret and limits of user " +:+ n
  else if sec then "secret of user " +:+ n else "limits of user " +:+ n.

(** Give a user what it was not given yet. *)
Definition patch_user (ctx : context) (d : telemtDesired) (u : User) (s : progress) : M (progress * option error) :=
  let sec := secret_changed (state s) d in
  let pol := policy_changed (state s) d u in
  if negb sec && negb pol then mret (s, None)
  else
    r ← textual (control ctx (PatchUser (name d) (patchRequest (policy d) (if sec then Some (secret d) else None))));
    match r with
    | Err e => mret (s, Some e)
    | Ok _ => mret (did s (rb_irreversible (rb s) (change_text sec pol (name d))), None)
    end.

Definition create_user (ctx : context) (d : telemtDesired) (s : progress) : M (progress * option error) :=
  r ← textual (control ctx (CreateUser (createRequest (policy d) (name d) (secret d))));
  match r with
  | Err e => mret (s, Some e)
  | Ok _ => mret (did s (rb_created (rb s) (name d)), None)
  end.

(** One iteration over the desired users. *)
Definition reconcile_user (ctx : context) (existing : gmap string User) (s : progress) (d : telemtDesired) : M (progress * option error) :=
  let before := state s in
  let s := note d s in
  match existing !! name d with
  | None => create_user ctx d s
  | Some u =>
      r ← (if period_moved before d then reset_quota ctx d s else mret (s, None) : M (progress * option error));
      match r with
      | (s, Some e) => mret (s, Some e)
      | (s, None) => patch_user ctx d u s
      end
  end.

(** A loop whose body may fail. *)
Fixpoint each {S A} (f : S -> A -> M (S * option error)) (s : S) (l : list A) : M (S * option error) :=
  match l with
  | [] => mret (s, None)
  | a :: l =>
      r ← f s a;
      match r with
      | (s, Some e) => mret (s, Some e)
      | (s, None) => each f s l
      end
  end.

(** The profiles of the virtual host. *)
Definition profile_json (d : telemtDesired) : json :=
  let limit k n := if n >? 0 then [(k, jint n)] else [] in
  JObject ([("user", JString (name d)); ("secret_mode", JString "plain")]%string ++
    limit "max_sessions"%string (Limits.MaxSessions (webLimits d)) ++
    limit "max_streams"%string (Limits.MaxStreams (webLimits d)) ++
    limit "max_streams_per_session"%string (Limits.MaxStreamsPerSession (webLimits d))).

Definition reconcile_profiles (ctx : context) (desired : list telemtDesired) (vhosts : list json) (i : nat) (s : progress) :
  M (progress * result bool) :=
  let profiles := JArray (profile_json <$> desired) in
  if Json.DeepEqual (JArray (sub_array (vhost_at vhosts i) "profiles")) profiles then mret (s, Ok false)
  else
    match copyVhosts vhosts with
    | Err e => mret (s, Err e)
    | Ok prev =>
        out ← textual (control ctx (PatchConfig (vhosts_patch (set_vhost vhosts i "profiles" profiles)) false));
        match out with
        | Err e => mret (s, Err e)
        | Ok out => mret (did s (rb_vhosts (rb s) prev), Ok (RuntimeReloadRequired out))
        end
    end.

(** The users of the profiles of the other virtual hosts, which stay. *)
Definition profile_user (p : json) : string := sub_string (default [] (as_object (Some p))) "user".

Definition kept_users (managedHost : string) (vhosts : list json) (i : nat) : list string :=
  if String.eqb managedHost EmptyString then []
  else concat (imap (fun j v => if (j =? i)%nat then [] else profile_user <$> sub_array (default [] (as_object (Some v))) "profiles") vhosts).

Definition delete_user (ctx : context) (wanted : gset string) (s : progress) (u : User) : M (progress * option error) :=
  if bool_decide (u_Username u ∈ wanted) then mret (s, None)
  else
    r ← textual (control ctx (DeleteUser (u_Username u)));
    match r with
    | Err e => mret (s, Some e)
    | Ok _ => mret (did s (rb_irreversible (rb s) ("deleted user " +:+ u_Username u)), None)
    end.

Definition existing_users (users : list User) : gmap string User := list_to_map (reverse ((fun u => (u_Username u, u)) <$> users)).

Definition limits_error (g : Limits.WebGlobalLimits) (d : telemtDesired) : option error :=
  match Limits.Validate (webLimits d) g with
  | Some e => Some ("profile " +:+ Str.quote (name d) +:+ " WEB limits: " +:+ e)
  | None => None
  end.

Definition start (rb : telemtRollback) (st : telemtState) : progress :=
  {| rb := rb; state := st; next := no_state; changed := false; stateMoved := false |}.

(** The state of the users is kept when something changed; a failure only
    costs the next apply some requests. *)
Definition keep_state (s : progress) : M unit :=
  if changed s || stateMoved s then ignore (writeTelemtState (next s)) else mret tt.

(** The reads before the first change. *)
Definition users_view (ctx : context) (desired : list telemtDesired) (managedHost : string) :
  M (result (list User * list json * nat)) :=
  try users ← textual (control ctx ListUsers);
  try (c, _) ← textual (control ctx GetConfig);
  mret (let? vhosts := telemtVhosts c in
        let? i := webVhostIndex (sub_object c "web") managedHost in
        match first_error (limits_error (telemtGlobalWebLimits c)) desired with
        | Some e => Err e
        | None => Ok (users, vhosts, i)
        end).

(** The changes. *)
Definition reconcile_view (ctx : context) (desired : list telemtDesired) (managedHost : string) (rb0 : telemtRollback)
  (users : list User) (vhosts : list json) (i : nat) : M (telemtRollback * result (bool * bool)) :=
  st ← readTelemtState;
  r ← each (reconcile_user ctx (existing_users users)) (start rb0 st) desired;
  match r with
  | (s, Some e) => mret (rb s, Err e)
  | (s, None) =>
      r ← reconcile_profiles ctx desired vhosts i s;
      match r with
      | (s, Err e) => mret (rb s, Err e)
      | (s, Ok reload) =>
          r ← each (delete_user ctx (list_to_set (name <$> desired) ∪ list_to_set (kept_users managedHost vhosts i))) s users;
          match r with
          | (s, Some e) => mret (rb s, Err e)
          | (s, None) => _ ← keep_state s; mret (rb s, Ok (changed s, reload))
          end
      end
  end.

(** [changed] and [reload] of the answer are meant for a nil error only. *)
Definition reconcileTelemtUsers (ctx : context) (desired : list telemtDesired) (managedHost : string) (rb0 : telemtRollback) :
  M (telemtRollback * result (bool * bool)) :=
  view ← users_view ctx desired managedHost;
  match view with
  | Err e => mret (rb0, Err e)
  | Ok (users, vhosts, i) => reconcile_view ctx desired managedHost rb0 users vhosts i
  end.

End Reconcile.
