(* ===== verification/UsersState.v ===== *)
(** * The record of the users on disk

    The file telemt-users.json ([readTelemtState], [writeTelemtState] of
    [Users]): what was written is read back, a write that fails leaves the old
    record or the new one, and the requests of [Users] set exactly the policy
    they are made from. *)

From stdpp Require Import sorting.
From S2P Require Import Prelude Crypto Calendar TelemtTypes Json Node NodeLogic AgentFiles TelemtClient UpdateState UpdateSafety TelemtConfig Users.

(** ** The text of a record *)

(** The periods of a record fit in [int64]. *)
Definition fits (st : telemtState) : Prop := map_Forall (fun _ q => Dec.min_int64 <= q <= Dec.max_int64) (QuotaResets st).

Lemma map_entries_map {A} (f : json -> option A) (g : A -> json) (l : list (string * A)) :
  Forall (fun e => f (g e.2) = Some e.2) l -> map_entries f ((fun e => (e.1, g e.2)) <$> l) = Some l.
Proof. induction 1 as [|[k a] l Ha _ IH]; [done|]. cbn in *. by rewrite Ha, IH. Qed.

Lemma json_map_json {A} (f : json -> option A) (g : A -> json) (m : gmap string A) :
  map_Forall (fun _ a => f (g a) = Some a) m -> json_map f (Some (map_json g m)) = Some m.
Proof.
  intros Hm. unfold json_map, map_json.
  pose proof (merge_sort_Permutation (@key_le A) (map_to_list m)) as Hp.
  rewrite (map_entries_map f g).
  - cbn. f_equal. rewrite <- (list_to_map_to_list m) at 2. apply list_to_map_proper.
    + rewrite reverse_Permutation, Hp. apply NoDup_fst_map_to_list.
    + by rewrite reverse_Permutation.
  - rewrite Forall_forall. intros [k a] Hin. rewrite Hp in Hin. apply elem_of_map_to_list in Hin. by apply (Hm k).
Qed.

Lemma map_json_wf {A} (g : A -> json) (m : gmap string A) :
  (forall a, Json.well_formed (g a) = true) -> Json.well_formed (map_json g m) = true.
Proof. intros Hg. cbn. apply forallb_forall. intros [k v] Hin. apply in_map_iff in Hin as ([k' a] & [= <- <-] & _). apply Hg. Qed.

Lemma state_json_wf st : Json.well_formed (state_json st) = true.
Proof.
  pose proof (map_json_wf JString (SecretHashes st) (fun _ => eq_refl)) as H1.
  pose proof (map_json_wf JString (LimitHashes st) (fun _ => eq_refl)) as H2.
  pose proof (map_json_wf jint (QuotaResets st) Json.number_ok_itoa) as H3.
  unfold state_json. change (forallb (fun e : string * json => Json.well_formed e.2)
    ([("secret_hashes", map_json JString (SecretHashes st)); ("limit_hashes", map_json JString (LimitHashes st))]%string ++
     (if bool_decide (QuotaResets st = ∅) then [] else [("quota_resets"%string, map_json jint (QuotaResets st))])) = true).
  rewrite forallb_app. apply andb_true_iff. split; [cbn [forallb snd]; by rewrite H1, H2|].
  case_bool_decide; [done|]. cbn [forallb snd]. by rewrite H3.
Qed.

Lemma state_of_state_json st : fits st -> state_of_json (state_json st) = Some st.
Proof.
  intros Hf. unfold state_json, state_of_json.
  set (o := _ ++ _). assert (Es : member o "secret_hashes" = Some (map_json JString (SecretHashes st))) by done.
  assert (El : member o "limit_hashes" = Some (map_json JString (LimitHashes st))) by done.
  rewrite Es, El, !json_map_json by done.
  assert (json_map as_int64 (member o "quota_resets") = Some (QuotaResets st)) as ->; [|by destruct st].
  unfold o. case_bool_decide as Eq; [by rewrite Eq|].
  change (member _ _) with (Some (map_json jint (QuotaResets st))). apply json_map_json.
  intros k q Hq. cbn. apply Json.atoi_itoa. by apply (Hf k).
Qed.

Lemma decoded_state st : fits st -> decode_state (encode_state st) = st.
Proof.
  intros Hf. unfold decode_state, encode_state. rewrite Json.unmarshal_spaced by (done || apply state_json_wf).
  change (Some (state_json st) ≫= state_of_json) with (state_of_json (state_json st)). by rewrite state_of_state_json.
Qed.

Lemma atoi_range s n : Dec.atoi s = Some n -> Dec.min_int64 <= n <= Dec.max_int64.
Proof.
  unfold Dec.atoi. intros H.
  match type of H with (match ?v with _ => _ end = _) => destruct v as [m|]; [|done] end.
  destruct (_ && _) eqn:E; [|done]. injection H as ->. lia.
Qed.

Lemma no_state_fits : fits no_state.
Proof. apply map_Forall_empty. Qed.

Lemma decoded_fits raw : fits (decode_state raw).
Proof.
  unfold decode_state. destruct (Json.unmarshal raw) as [j|]; [|apply no_state_fits].
  change (Some j ≫= state_of_json) with (state_of_json j).
  destruct (state_of_json j) as [st|] eqn:E; [|apply no_state_fits].
  unfold state_of_json in E. destruct j as [| | | | |o]; try done; [injection E as <-; apply no_state_fits|].
  destruct (json_map _ _); [|done]. destruct (json_map _ _); [|done].
  destruct (json_map as_int64 _) as [q|] eqn:Eq; [|done]. injection E as <-. cbn. unfold json_map in Eq.
  destruct (member o "quota_resets") as [[| | | | |o']|]; try done; try (injection Eq as <-; apply no_state_fits).
  destruct (map_entries as_int64 o') as [l|] eqn:El; [|done]. injection Eq as <-.
  intros k n Hk. apply elem_of_list_to_map_2 in Hk. rewrite elem_of_reverse in Hk. revert l El Hk.
  induction o' as [|[k' v] o' IH]; intros l El Hk; [injection El as <-; by apply elem_of_nil in Hk|].
  cbn in El. destruct (as_int64 v) as [z|] eqn:Ez; [|done]. destruct (map_entries as_int64 o') as [l'|]; [|done].
  injection El as <-. apply elem_of_cons in Hk as [[= <- <-]|Hk]; [|by apply (IH l')].
  destruct v; try done; [injection Ez as <-; done|]. by apply atoi_range in Ez.
Qed.

(** ** Reading and writing the file *)

Section File.
Context `{Outside}.
Context (cfg : Config).
Local Open Scope go_scope.

(** The record a file system holds. *)
Definition recorded (f : files) : telemtState :=
  match f !! telemtStatePath cfg with Some x => decode_state (fdata x) | None => no_state end.

Lemma statePath_plain : no_slash (Path.Base (telemtStatePath cfg)) /\ ~ is_temp (telemtStatePath cfg).
Proof.
  assert (E : Path.Base (telemtStatePath cfg) = "telemt-users.json") by by apply Path.Base_Join.
  split; [by rewrite E|]. intros [Hh _]. unfold is_hidden, Path.hidden in Hh. by rewrite E in Hh.
Qed.

Lemma recorded_fits f : fits (recorded f).
Proof. unfold recorded. destruct (f !! _); [apply decoded_fits|apply no_state_fits]. Qed.

(** The files while the record [st] is written over those of [f]. *)
Definition rewriting (st : telemtState) (f g : files) : Prop := recorded g = recorded f \/ recorded g = st.

Lemma readTelemtState_ok w st w' : readTelemtState cfg w = (st, w') ->
  fs w' = fs w /\ (st = recorded (fs w) \/ st = no_state).
Proof.
  unfold readTelemtState. intros (r & w1 & Hr & Ht)%bind_inv. apply ret_inv in Ht as [<- <-].
  pose proof (must_read_fs _ _ _ _ Hr) as Hf. split; [done|]. destruct r as [raw|]; [left|by right].
  apply must_read_ok in Hr as (_ & x & Hx & <-). unfold recorded. by rewrite Hx.
Qed.

Lemma touches_readTelemtState S (E : questions) : system_ok E -> touches S E (readTelemtState cfg).
Proof. intros HE. unfold readTelemtState. touches. Qed.

Lemma respects_readTelemtState R : plain R -> respects R (readTelemtState cfg).
Proof. intros HR. unfold readTelemtState. respects. Qed.

Lemma touches_writeTelemtState (E : questions) st : system_ok E -> touches (or_path (telemtStatePath cfg)) E (writeTelemtState cfg st).
Proof.
  intros HE. destruct statePath_plain. unfold writeTelemtState. apply touches_try; [by apply touches_check|].
  intros _. by apply touches_writeAtomic.
Qed.

Lemma respects_writeTelemtState R st : plain R -> respects R (writeTelemtState cfg st).
Proof. intros HR. pose proof (respects_writeAtomicAs R). unfold writeTelemtState, writeAtomic. respects. Qed.

(** At every instant of a write the record is the old one or the new one. *)
Lemma writeTelemtState_spec (E : questions) st w r w' : system_ok E -> fits st -> writeTelemtState cfg st w = (r, w') ->
  spans E (rewriting st (fs w)) w w' /\ rewriting st (fs w) (fs w') /\ (r = Ok tt -> recorded (fs w') = st).
Proof.
  intros HE Hf Hw. destruct statePath_plain as [Hp Ht]. unfold writeTelemtState in Hw.
  assert (Hgo : forall w1 g, fs w1 = fs w -> writing (telemtStatePath cfg) (encode_state st) (fs w1) g -> rewriting st (fs w) g).
  { intros w1 g E1 [_ [Hg|(x & Hg & Hd)]]; unfold rewriting, recorded; rewrite Hg.
    - left. by rewrite E1.
    - right. by rewrite Hd, decoded_state. }
  assert (Hn : forall g, same_off nothing (fs w) g -> rewriting st (fs w) g).
  { intros g Hg. left. unfold recorded. by rewrite <- (Hg (telemtStatePath cfg)) by intros []. }
  assert (Hcs : forall a w1, check (MkdirAll (StateDir cfg)) w = (a, w1) -> spans E (rewriting st (fs w)) w w1).
  { intros a w1 Hc. eapply spans_mono; [done|exact Hn|]. eapply (touches_spans nothing E); [|exact Hc]. by apply touches_check. }
  apply try_inv in Hw as [(e & Hc & ->)|(u & w1 & Hc & Hw)]; pose proof (check_fs _ _ _ _ Hc) as Ef; pose proof (Hcs _ _ Hc) as Hs0.
  - split_and!; [done|left; by rewrite Ef|done].
  - destruct (writeAtomicAs_spec E HE _ _ _ _ _ _ _ Hp Ht Hw) as (Hs & Hr & Hok). split_and!.
    + eapply spans_trans; [exact Hs0|]. eapply spans_mono; [done| |exact Hs]. intros g. by apply Hgo.
    + by apply (Hgo w1).
    + intros ->. destruct (Hok eq_refl) as (x & Hx & Hd & _). unfold recorded. by rewrite Hx, Hd, decoded_state.
Qed.

End File.
