(* ===== verification/Accounts.v ===== *)
(** * The users telemt holds

    What the control API promises about users, as an interface: the accounts
    telemt holds ([held]), what each request does to them when it is answered
    ([performed]), that a refused request does nothing, and that a request
    whose answer was lost may have done either.  Listing the users shows the
    accounts.  Nothing else changes them: restarting telemt keeps them.

    The accounts then evolve along the events of any run ([evolves]), so what
    a program can do to them is read off its footprint. *)

From S2P Require Import Prelude Calendar TelemtTypes Node NodeLogic TelemtClient Users.

Record account := { a_Secret : string; a_Policy : telemtPolicy; a_Resets : Z }.

Abbreviation accounts := (gmap string account).

(** ** The effect of the requests *)

Definition created_account (r : CreateUserRequest) : account :=
  {| a_Secret := cu_Secret r;
     a_Policy := {| DataQuotaBytes := default 0 (cu_DataQuotaBytes r); RateLimitUpBps := default 0 (cu_RateLimitUpBps r);
                    RateLimitDownBps := default 0 (cu_RateLimitDownBps r); MaxUniqueIPs := default 0 (cu_MaxUniqueIPs r);
                    MaxTCPConns := default 0 (cu_MaxTCPConns r); Expiration := default EmptyString (cu_ExpirationRFC3339 r);
                    Enabled := default true (cu_Enabled r); AdTag := default EmptyString (cu_UserAdTag r) |};
     a_Resets := 0 |}.

(** A field of a sparse patch: set, cleared by an explicit null, or kept. *)
Definition patched_field {A} (clear : list string) (field : string) (zero : A) (v : option A) (old : A) : A :=
  match v with Some v => v | None => if existsb (String.eqb field) clear then zero else old end.

Definition patched (r : PatchUserRequest) (a : account) : account :=
  let p := a_Policy a in
  let f {A} := @patched_field A (pu_Clear r) in
  {| a_Secret := default (a_Secret a) (pu_Secret r);
     a_Policy := {| DataQuotaBytes := f "data_quota_bytes"%string 0 (pu_DataQuotaBytes r) (DataQuotaBytes p);
                    RateLimitUpBps := f "rate_limit_up_bps"%string 0 (pu_RateLimitUpBps r) (RateLimitUpBps p);
                    RateLimitDownBps := f "rate_limit_down_bps"%string 0 (pu_RateLimitDownBps r) (RateLimitDownBps p);
                    MaxUniqueIPs := f "max_unique_ips"%string 0 (pu_MaxUniqueIPs r) (MaxUniqueIPs p);
                    MaxTCPConns := f "max_tcp_conns"%string 0 (pu_MaxTCPConns r) (MaxTCPConns p);
                    Expiration := f "expiration_rfc3339"%string EmptyString (pu_ExpirationRFC3339 r) (Expiration p);
                    Enabled := default (Enabled p) (pu_Enabled r);
                    AdTag := f "user_ad_tag"%string EmptyString (pu_UserAdTag r) (AdTag p) |};
     a_Resets := a_Resets a |}.

Definition with_reset (a : account) : account := {| a_Secret := a_Secret a; a_Policy := a_Policy a; a_Resets := a_Resets a + 1 |}.

Definition performed {A} (c : call A) (h h' : accounts) : Prop :=
  match c with
  | CreateUser r => h !! cu_Username r = None /\ h' = <[cu_Username r := created_account r]> h
  | PatchUser n r => exists a, h !! n = Some a /\ h' = <[n := patched r a]> h
  | DeleteUser n => h' = delete n h
  | ResetQuota n => exists a, h !! n = Some a /\ h' = <[n := with_reset a]> h
  | _ => h' = h
  end.

(** What an answer says of the accounts before and after the question. *)
Definition answered {A} (e : effect A) : A -> accounts -> accounts -> Prop :=
  match e in effect A return A -> accounts -> accounts -> Prop with
  | Control c => fun a h h' =>
      match a with
      | inl _ => performed c h h'
      | inr (APIError _ _ _) => h' = h
      | inr (Transport _) => h' = h \/ performed c h h'
      end
  | _ => fun _ h h' => h' = h
  end.

(** The listed user has the policy of the account. *)
Definition shows (u : User) (a : account) : Prop :=
  u_Enabled u = Enabled (a_Policy a) /\ u_ExpirationRFC3339 u = Expiration (a_Policy a) /\
  u_DataQuotaBytes u = DataQuotaBytes (a_Policy a) /\ u_RateLimitUpBps u = RateLimitUpBps (a_Policy a) /\
  u_RateLimitDownBps u = RateLimitDownBps (a_Policy a) /\ u_MaxUniqueIPs u = MaxUniqueIPs (a_Policy a) /\
  u_MaxTCPConns u = MaxTCPConns (a_Policy a) /\ u_UserAdTag u = AdTag (a_Policy a).

Definition lists (us : list User) (h : accounts) : Prop :=
  NoDup (u_Username <$> us) /\
  (forall u, u ∈ us -> exists a, h !! u_Username u = Some a /\ shows u a) /\
  (forall n, is_Some (h !! n) -> n ∈ u_Username <$> us).

Class Accounts `{Outside} := {
  held : outside -> accounts;
  held_answer : forall A (e : effect A) f o a d o', react e f o = (a, d, o') -> answered e a (held o) (held o');
  held_list : forall f o us d o', react (Control ListUsers) f o = (inl us, d, o') -> lists us (held o)
}.

(** ** The requests of the agent set exactly the policy they are made from *)

(** The numbers of a policy are unsigned. *)
Definition unsigned (p : telemtPolicy) : Prop :=
  0 <= DataQuotaBytes p /\ 0 <= RateLimitUpBps p /\ 0 <= RateLimitDownBps p /\ 0 <= MaxUniqueIPs p /\ 0 <= MaxTCPConns p.

Lemma default_positive n : 0 <= n -> default 0 (positive n) = n.
Proof. intros H. unfold positive. destruct (n >? 0) eqn:E; cbn; lia. Qed.

Lemma default_non_empty s : default EmptyString (non_empty s) = s.
Proof. unfold non_empty. by destruct (String.eqb_spec s EmptyString) as [->|]. Qed.

Lemma created_request p n s : unsigned p -> created_account (createRequest p n s) = {| a_Secret := s; a_Policy := p; a_Resets := 0 |}.
Proof.
  intros (? & ? & ? & ? & ?). unfold created_account, createRequest. cbn.
  rewrite !default_positive, !default_non_empty by done. by destruct p.
Qed.

(** A field the request does not set is among the cleared ones. *)
Lemma patched_in {A} clear field (zero : A) v old : (v = None -> existsb (String.eqb field) clear = true) ->
  patched_field clear field zero v old = default zero v.
Proof. intros H. destruct v; [done|]. cbn. by rewrite H. Qed.

Lemma patched_request p sec a : unsigned p ->
  patched (patchRequest p sec) a = {| a_Secret := default (a_Secret a) sec; a_Policy := p; a_Resets := a_Resets a |}.
Proof.
  intros (? & ? & ? & ? & ?). unfold patched, patchRequest. cbn [pu_Secret pu_Enabled pu_UserAdTag pu_DataQuotaBytes
    pu_RateLimitUpBps pu_RateLimitDownBps pu_MaxUniqueIPs pu_MaxTCPConns pu_ExpirationRFC3339 pu_Clear default from_option].
  rewrite !patched_in by (intros E; rewrite ?existsb_app; rewrite ?E; cbn [cleared existsb]; rewrite ?orb_true_r; reflexivity).
  rewrite !default_positive, !default_non_empty by done. by destruct p.
Qed.

(** ** Accounts along a run *)

Definition account_step (ev : event) (h h' : accounts) : Prop :=
  match ev with Wrote _ => h' = h | Did e a => answered e a h h' end.

(** The events, newest first, take the accounts from [h] to [h']. *)
Fixpoint account_path (l : list event) (h h' : accounts) : Prop :=
  match l with
  | [] => h' = h
  | ev :: l => exists h1, account_path l h h1 /\ account_step ev h1 h'
  end.

Lemma account_path_app l k h h1 h' : account_path k h h1 -> account_path l h1 h' -> account_path (l ++ k) h h'.
Proof.
  intros Hk. revert h'. induction l as [|ev l IH]; intros h' Hl; [cbn in Hl; by subst|].
  destruct Hl as (h2 & Hl & Hev). exists h2. split; [by apply IH|done].
Qed.

Section Evolve.
Context `{Accounts}.
Local Open Scope go_scope.

(** The accounts in a world. *)
Definition acc (w : world) : accounts := held (out w).

Definition evolves (w w' : world) : Prop := exists l, history w w' l /\ account_path l (acc w) (acc w').

Lemma plain_evolves : plain evolves.
Proof.
  split.
  - intros w. by exists [].
  - intros w w1 w2 (l & Hl & Hp) (k & Hk & Hq). exists (k ++ l). split; [by eapply history_trans|]. by eapply account_path_app.
  - intros A e w. unfold perform. destruct (react e (fs w) (out w)) as [[a d] o] eqn:E. cbn. exists [Did e a]. split; [done|].
    exists (acc w). split; [done|]. cbn. by eapply held_answer.
  - intros f w. exists [Wrote f]. split; [done|]. by exists (acc w).
  - intros i w. by exists [].
  - intros t w. by exists [].
Qed.

(** Programs that ask for no change of the users keep them. *)
Definition userless : questions := fun _ e =>
  match e with
  | Control c => match c with CreateUser _ | PatchUser _ _ | DeleteUser _ | ResetQuota _ => False | _ => True end
  | _ => True
  end.

Lemma system_userless : system_ok userless.
Proof. by split. Qed.

Lemma userless_step ev h h' : event_in userless (fun _ => True) ev -> account_step ev h h' -> h' = h.
Proof.
  destruct ev as [g|A e a]; cbn; [done|]. destruct e; try done. destruct c; try done; cbn; destruct a as [?|[]]; try done; by intros _ [-> | ->].
Qed.

Lemma spans_accounts E w w' (P : accounts -> accounts -> Prop) :
  (forall h, P h h) -> (forall h h1 h2, P h h1 -> P h1 h2 -> P h h2) ->
  (forall ev h h', event_in E (fun _ => True) ev -> account_step ev h h' -> P h h') ->
  spans E (fun _ => True) w w' -> evolves w w' -> P (acc w) (acc w').
Proof.
  intros Hr Ht Hs (l & Hl & HF) (k & Hk & Hp). assert (l = k) as <-.
  { unfold history in *. rewrite Hl in Hk. by apply app_inv_tail in Hk. }
  clear Hk Hl. revert Hp. generalize (acc w'). induction HF as [|ev l Hev _ IH]; intros h' Hp; [by cbn in Hp; subst|].
  destruct Hp as (h1 & Hp & Hst). eapply Ht; [by apply IH|by eapply Hs].
Qed.

Lemma userless_accounts S A (m : M A) w a w' : touches S userless m -> respects evolves m -> m w = (a, w') -> acc w' = acc w.
Proof.
  intros Ht Hr Hw. pose proof (Hr w) as Hev. rewrite Hw in Hev.
  apply (spans_accounts userless w w' (fun h h' => h' = h)); [done|congruence|intros ???; apply userless_step| |done].
  eapply spans_mono; [done| |by eapply touches_spans]. done.
Qed.

(** One request: what its answer says. *)
Lemma request_inv A ctx (c : call A) w r w' : textual (control ctx c) w = (r, w') ->
  fs w' = fs w /\
  match r with Ok _ => performed c (acc w) (acc w') | Err _ => acc w' = acc w \/ performed c (acc w) (acc w') end.
Proof.
  unfold textual, control. intros (x & w1 & Hc & Hr)%bind_inv. apply ret_inv in Hr as [<- <-].
  apply bind_inv in Hc as (t & w2 & [-> <-]%clock_inv & Hc). destruct (expired ctx (now w)).
  { apply ret_inv in Hc as [<- <-]. split; [done|by left]. }
  apply bind_inv in Hc as (y & w2 & Hp & Hc). apply bind_inv in Hc as (t & w3 & [-> <-]%clock_inv & Hc).
  apply ret_inv in Hc as [<- <-]. pose proof (perform_fs _ _ _ _ _ Hp) as Hf. split; [done|]. unfold perform in Hp.
  destruct (react (Control c) (fs w) (out w)) as [[z d] o] eqn:E. injection Hp as -> <-.
  apply held_answer in E. unfold acc. destruct (expired ctx _), y as [?|[]]; cbn in *; auto.
Qed.

(** The users listed are those held. *)
Lemma ListUsers_inv ctx w us w' : textual (control ctx ListUsers) w = (Ok us, w') -> lists us (acc w).
Proof.
  unfold textual, control. intros (x & w1 & Hc & Hr)%bind_inv. apply ret_inv in Hr as [Hx <-]. destruct x as [us'|]; [|done].
  injection Hx as ->. apply bind_inv in Hc as (t & w2 & [-> <-]%clock_inv & Hc). destruct (expired ctx (now w)); [by apply ret_inv in Hc as [[=] _]|].
  apply bind_inv in Hc as (y & w2 & Hp & Hc). apply bind_inv in Hc as (t & w3 & [-> <-]%clock_inv & Hc).
  apply ret_inv in Hc as [Hy _]. destruct (expired ctx _); [done|]. subst y. unfold perform in Hp.
  destruct (react _ _ _) as [[z d] o] eqn:E. injection Hp as -> _. by eapply held_list.
Qed.

End Evolve.

#[export] Hint Resolve system_userless : touches.
