(* ===== verification/UsersSafety.v ===== *)
(** * The users of a node are those the panel wants

    What [Users.reconcileTelemtUsers] does to the accounts of [Accounts]: an
    apply that succeeds leaves exactly the desired users (and those of other
    virtual hosts), each with its secret and policy; attempts that failed,
    requests whose answer was lost and writes that broke do not stand in the
    way of the next attempt; and a quota is not reset twice for one period.

    The hashes on disk are fingerprints, so "the same secret" is stated as the
    same fingerprint. *)

From stdpp Require Import sorting.
From S2P Require Import Prelude Calendar Crypto WebPolicy TelemtTypes Json Node NodeLogic AgentFiles TelemtClient UpdateState TelemtConfig AgentProto Users UsersState Accounts.

Local Open Scope go_scope.

(** ** Serving a desired user *)

(** The same limits, and the same instant of expiry. *)
Definition equivalent (p q : telemtPolicy) : Prop :=
  DataQuotaBytes p = DataQuotaBytes q /\ RateLimitUpBps p = RateLimitUpBps q /\ RateLimitDownBps p = RateLimitDownBps q /\
  MaxUniqueIPs p = MaxUniqueIPs q /\ MaxTCPConns p = MaxTCPConns q /\ Enabled p = Enabled q /\ AdTag p = AdTag q /\
  (Expiration p = Expiration q \/
   exists t, Rfc3339.Parse (Expiration p) = Some t /\ Rfc3339.Parse (Expiration q) = Some t).

(** The same limits, up to a collision of the fingerprint. *)
Definition same_policy (p q : telemtPolicy) : Prop := exists p', equivalent p p' /\ fingerprint p' = fingerprint q.

Lemma equivalent_refl p : equivalent p p.
Proof. repeat split. by left. Qed.

Lemma same_policy_refl p : same_policy p p.
Proof. exists p. split; [apply equivalent_refl|done]. Qed.

Definition has_secret (d : telemtDesired) (a : account) : Prop := secretFingerprint (a_Secret a) = secretFingerprint (secret d).
Definition has_policy (d : telemtDesired) (a : account) : Prop := same_policy (a_Policy a) (policy d).
Definition serves (d : telemtDesired) (a : account) : Prop := has_secret d a /\ has_policy d a.

Lemma matches_spec p u a : matches p u = true -> shows u a -> equivalent (a_Policy a) p.
Proof.
  unfold matches. rewrite !andb_true_iff, !Z.eqb_eq, !eqb_true_iff, orb_true_iff, !String.eqb_eq.
  intros [[[[[[[[E1 E2] E3] E4] E5] E6] E7] E8] E9] (S1 & S2 & S3 & S4 & S5 & S6 & S7 & S8).
  unfold equivalent. rewrite <- S1, <- S3, <- S4, <- S5, <- S6, <- S7, <- S8, E1, E2, E3, E4, E5, E6, E7.
  split_and!; try done. rewrite <- S2. destruct E9 as [E9|E9].
  - left. rewrite E9 in *. by apply String.eqb_eq.
  - right. destruct (Rfc3339.Parse (u_ExpirationRFC3339 u)) as [t|]; [|done]. destruct (Rfc3339.Parse (Expiration p)) as [t'|]; [|done].
    apply Z.eqb_eq in E9 as ->. by exists t'.
Qed.

(** A desired list as [telemtDesiredFrom] yields it: names are distinct,
    numbers unsigned, periods in range. *)
Record well_formed (desired : list telemtDesired) : Prop := {
  wf_names : NoDup (name <$> desired);
  wf_policy : forall d, d ∈ desired -> unsigned (policy d);
  wf_period : forall d, d ∈ desired -> Dec.min_int64 <= quotaReset d <= Dec.max_int64
}.

Lemma named_once desired d e : well_formed desired -> d ∈ desired -> e ∈ desired -> name d = name e -> d = e.
Proof.
  intros W Hd He Hn. destruct (list_elem_of_lookup_1 _ _ Hd) as [i Hi], (list_elem_of_lookup_1 _ _ He) as [j Hj].
  enough (i = j) by congruence. eapply (NoDup_lookup (name <$> desired)); [apply wf_names, W|by rewrite list_lookup_fmap, Hi|].
  by rewrite list_lookup_fmap, Hj, Hn.
Qed.

(** ** What the record may be trusted with *)

(** Where the record says a desired user has what is desired, it has. *)
Definition trusted_user (st : telemtState) (h : accounts) (d : telemtDesired) : Prop :=
  forall a, h !! name d = Some a ->
  (SecretHashes st !! name d = Some (secretFingerprint (secret d)) -> has_secret d a) /\
  (LimitHashes st !! name d = Some (fingerprint (policy d)) -> has_policy d a).

Definition trusted (desired : list telemtDesired) (st : telemtState) (h : accounts) : Prop :=
  forall d, d ∈ desired -> trusted_user st h d.

Definition same_hashes (st st' : telemtState) : Prop := SecretHashes st = SecretHashes st' /\ LimitHashes st = LimitHashes st'.

Lemma trusted_hashes desired st st' h : same_hashes st st' -> trusted desired st h -> trusted desired st' h.
Proof. intros [E1 E2] Ht d Hd a Ha. rewrite <- E1, <- E2. by apply Ht. Qed.

Lemma no_state_trusted desired h : trusted desired no_state h.
Proof. intros d _ a _. by split. Qed.

(** From [h] to [h'] every desired user kept what it had or got what is
    desired. *)
Definition toward (desired : list telemtDesired) (h h' : accounts) : Prop :=
  forall d a', d ∈ desired -> h' !! name d = Some a' ->
  (has_secret d a' \/ exists a, h !! name d = Some a /\ a_Secret a' = a_Secret a) /\
  (has_policy d a' \/ exists a, h !! name d = Some a /\ a_Policy a' = a_Policy a).

Lemma toward_refl desired h : toward desired h h.
Proof. intros d a _ Ha. split; right; by exists a. Qed.

Lemma toward_trans desired h h1 h2 : toward desired h h1 -> toward desired h1 h2 -> toward desired h h2.
Proof.
  intros H1 H2 d a2 Hd Ha2. destruct (H2 d a2 Hd Ha2) as [Hs Hp]. split.
  - destruct Hs as [?|(a1 & Ha1 & E)]; [by left|]. destruct (H1 d a1 Hd Ha1) as [[Hs|(a & Ha & E')] _].
    + left. unfold has_secret. by rewrite E.
    + right. exists a. by rewrite E.
  - destruct Hp as [?|(a1 & Ha1 & E)]; [by left|]. destruct (H1 d a1 Hd Ha1) as [_ [Hp|(a & Ha & E')]].
    + left. unfold has_policy. by rewrite E.
    + right. exists a. by rewrite E.
Qed.

Lemma trusted_toward desired st h h' : trusted desired st h -> toward desired h h' -> trusted desired st h'.
Proof.
  intros Ht Hw d Hd a' Ha'. destruct (Hw d a' Hd Ha') as [Hs Hp]. split; intros E.
  - destruct Hs as [?|(a & Ha & Es)]; [done|]. unfold has_secret. rewrite Es. by apply (Ht d Hd a).
  - destruct Hp as [?|(a & Ha & Ep)]; [done|]. unfold has_policy. rewrite Ep. by apply (Ht d Hd a).
Qed.

(** The changes of users an apply of [desired] may ask for. *)
Definition directed (desired : list telemtDesired) : questions := fun _ e =>
  match e with
  | Control c =>
      match c with
      | CreateUser r => exists d, d ∈ desired /\ r = createRequest (policy d) (name d) (secret d)
      | PatchUser n r => exists d sec, d ∈ desired /\ n = name d /\ r = patchRequest (policy d) sec /\ (sec = None \/ sec = Some (secret d))
      | _ => True
      end
  | _ => True
  end.

Lemma system_directed desired : system_ok (directed desired).
Proof. by split. Qed.

Lemma performed_toward desired A (c : call A) h h' : well_formed desired -> directed desired _ (Control c) ->
  performed c h h' -> toward desired h h'.
Proof.
  intros W Hc Hp. destruct c; try (cbn in Hp; subst; apply toward_refl).
  - destruct Hc as (e & He & ->). destruct Hp as [_ ->]. rewrite created_request by by apply W.
    intros d a' Hd Ha'. cbn in Ha'. apply lookup_insert_Some in Ha' as [[En <-]|[_ Ha']]; [|by apply (toward_refl desired h d a')].
    rewrite (named_once _ d e W Hd He) by done. split; left; [done|apply same_policy_refl].
  - destruct Hc as (e & sec & He & -> & -> & Hsec). destruct Hp as (a & Ha & ->). rewrite patched_request by by apply W.
    intros d a' Hd Ha'. apply lookup_insert_Some in Ha' as [[En <-]|[_ Ha']]; [|by apply (toward_refl desired h d a')].
    rewrite (named_once _ d e W Hd He) by done. split; [|left; apply same_policy_refl].
    destruct Hsec as [-> | ->]; [right; by exists a|by left].
  - cbn in Hp. subst. intros d a' _ Ha'. apply lookup_delete_Some in Ha' as [_ Ha']. split; right; by exists a'.
  - destruct Hp as (a & Ha & ->). intros d a' _ Ha'.
    apply lookup_insert_Some in Ha' as [[<- <-]|[_ Ha']]; [split; right; by exists a|split; right; by exists a'].
Qed.

Lemma directed_step desired ev h h' : well_formed desired ->
  event_in (directed desired) (fun _ => True) ev -> account_step ev h h' -> toward desired h h'.
Proof.
  intros W. destruct ev as [g|A e a]; cbn; [intros _ ->; apply toward_refl|].
  destruct e; cbn; try (intros _ ->; apply toward_refl). intros Hc. destruct a as [x|[s k m|s]].
  - by apply performed_toward.
  - intros ->. apply toward_refl.
  - intros [-> |Hp]; [apply toward_refl|by eapply performed_toward].
Qed.

Section Safety.
Context `{Accounts}.
Context (cfg : Config).

Lemma directed_toward desired w w' : well_formed desired ->
  spans (directed desired) (fun _ => True) w w' -> evolves w w' -> toward desired (acc w) (acc w').
Proof.
  intros W. apply (spans_accounts (directed desired) w w' (toward desired)).
  - apply toward_refl.
  - apply toward_trans.
  - intros ev h h'. by apply directed_step.
Qed.

(** ** Footprints *)

Abbreviation record_path := (or_path (telemtStatePath cfg)).

Lemma touches_request S (E : questions) A ctx (c : call A) : E _ (Control c) -> touches S E (textual (control ctx c)).
Proof. intros. by apply touches_textual, touches_control. Qed.

Lemma touches_each S (E : questions) T A (f : T -> A -> M (T * option error)) s l :
  (forall s a, a ∈ l -> touches S E (f s a)) -> touches S E (each f s l).
Proof.
  revert s. induction l as [|a l IH]; intros s Hf; cbn [each]; [touches|].
  apply touches_bind; [apply Hf; by left|]. intros [s' [e|]]; [touches|]. apply IH. intros. apply Hf. by right.
Qed.

Section Footprint.
Context (desired : list telemtDesired).
Abbreviation E := (directed desired).
Let HE : system_ok E := system_directed desired.
#[local] Hint Extern 1 (directed _ _ _) => exact I : touches.
#[local] Hint Resolve HE : touches.

Lemma touches_users_view S ctx l host : touches S E (users_view ctx l host).
Proof. pose proof (touches_request S E). unfold users_view. touches. Qed.

Lemma touches_reset_quota ctx d s : touches record_path E (reset_quota cfg ctx d s).
Proof.
  pose proof (touches_request record_path E). pose proof (touches_writeTelemtState cfg E). unfold reset_quota. cbv zeta. touches.
Qed.

Lemma touches_create_user ctx d s : d ∈ desired -> touches record_path E (create_user ctx d s).
Proof.
  intros Hd. unfold create_user. apply touches_bind; [|touches]. apply touches_request. by exists d.
Qed.

Lemma touches_patch_user ctx d u s : d ∈ desired -> touches record_path E (patch_user ctx d u s).
Proof.
  intros Hd. unfold patch_user. cbv zeta. destruct (_ && _); [touches|]. apply touches_bind; [|touches]. apply touches_request.
  exists d, (if secret_changed (state s) d then Some (secret d) else None). split_and!; try done. destruct (secret_changed _ _); auto.
Qed.

Lemma touches_reconcile_user ctx ex s d : d ∈ desired -> touches record_path E (reconcile_user cfg ctx ex s d).
Proof.
  intros Hd. unfold reconcile_user. cbv zeta. destruct (ex !! name d); [|by apply touches_create_user].
  pose proof touches_reset_quota. pose proof touches_patch_user. touches.
Qed.

Lemma touches_reconcile_profiles ctx vhosts i s : touches record_path E (reconcile_profiles ctx desired vhosts i s).
Proof. pose proof (touches_request record_path E). unfold reconcile_profiles. cbv zeta. touches. Qed.

Lemma touches_delete_user ctx wanted s u : touches record_path E (delete_user ctx wanted s u).
Proof. pose proof (touches_request record_path E). unfold delete_user. touches. Qed.

Lemma touches_keep_state s : touches record_path E (keep_state cfg s).
Proof. pose proof (touches_writeTelemtState cfg E). unfold keep_state. touches. Qed.

Lemma touches_reconcile_view ctx host rb us vs i : touches record_path E (reconcile_view cfg ctx desired host rb us vs i).
Proof.
  pose proof (touches_readTelemtState cfg record_path E). pose proof touches_reconcile_profiles. pose proof touches_keep_state.
  unfold reconcile_view. apply touches_bind; [auto|]. intros st.
  apply touches_bind; [apply touches_each; intros; by apply touches_reconcile_user|]. intros [s [e|]]; [touches|].
  apply touches_bind; [done|]. intros [s' [r|e]]; [|touches].
  apply touches_bind; [apply touches_each; intros; apply touches_delete_user|]. touches.
Qed.

Lemma touches_reconcileTelemtUsers ctx host rb : touches record_path E (reconcileTelemtUsers cfg ctx desired host rb).
Proof.
  pose proof touches_users_view. pose proof touches_reconcile_view.
  unfold reconcileTelemtUsers. apply touches_bind; [done|]. intros [[[us vs] i]|e]; touches.
Qed.

End Footprint.

(** ** Relations every step follows *)

Section Steps.
Context (R : world -> world -> Prop) (HR : plain R).

Lemma respects_asking A ctx (c : call A) : respects R (textual (control ctx c)).
Proof. unfold textual, control. respects. Qed.

Lemma respects_each T A (f : T -> A -> M (T * option error)) s l : (forall s a, respects R (f s a)) -> respects R (each f s l).
Proof.
  intros Hf. revert s. induction l as [|a l IH]; intros s; cbn [each]; [respects|].
  apply respects_bind; [done..|]. intros [s' [e|]]; [respects|]. apply IH.
Qed.

Lemma respects_write_state st : respects R (writeTelemtState cfg st).
Proof. by apply respects_writeTelemtState. Qed.

Lemma respects_reconcile_user ctx ex s d : respects R (reconcile_user cfg ctx ex s d).
Proof.
  pose proof respects_asking. pose proof respects_write_state.
  unfold reconcile_user, create_user, reset_quota, patch_user. cbv zeta. respects.
Qed.

Lemma respects_reconcile_view ctx desired host rb us vs i : respects R (reconcile_view cfg ctx desired host rb us vs i).
Proof.
  pose proof respects_asking. pose proof respects_write_state. pose proof respects_reconcile_user.
  pose proof (respects_readTelemtState cfg _ HR). unfold reconcile_view.
  apply respects_bind; [done..|]. intros st. apply respects_bind; [done|by apply respects_each|]. intros [s [e|]]; [respects|].
  apply respects_bind; [done|unfold reconcile_profiles; cbv zeta; respects|]. intros [s' [r|e]]; [|respects].
  apply respects_bind; [done|apply respects_each; intros; unfold delete_user; respects|]. unfold keep_state. respects.
Qed.

Lemma respects_reconcileTelemtUsers ctx desired host rb : respects R (reconcileTelemtUsers cfg ctx desired host rb).
Proof.
  pose proof respects_asking. pose proof respects_reconcile_view.
  unfold reconcileTelemtUsers. apply respects_bind; [done|unfold users_view; respects|]. intros [[[us vs] i]|e]; respects.
Qed.

End Steps.

(** ** Loops *)

Lemma each_inv T A (f : T -> A -> M (T * option error)) (I : T -> world -> Prop) l s w s' e w' :
  (forall s a w s' e w', a ∈ l -> I s w -> f s a w = ((s', e), w') -> I s' w') ->
  I s w -> each f s l w = ((s', e), w') -> I s' w'.
Proof.
  revert s w. induction l as [|a l IH]; intros s w Hf Hi Hr; cbn [each] in Hr; [by apply ret_inv in Hr as [[= <- <-] <-]|].
  apply bind_inv in Hr as ([s1 e1] & w1 & H1 & Hr). assert (Hi1 : I s1 w1) by (eapply Hf; [by left|done..]).
  destruct e1 as [e1|]; [by apply ret_inv in Hr as [[= <- <-] <-]|].
  eapply IH; [|exact Hi1|exact Hr]. intros. eapply Hf; [by right|done..].
Qed.

(** A loop that ran to its end: [I] of what was done so far. *)
Lemma each_done T A (f : T -> A -> M (T * option error)) (I : list A -> T -> world -> Prop) l s w s' w' :
  (forall done a rest s w s' w', l = done ++ a :: rest -> I done s w -> f s a w = ((s', None), w') -> I (done ++ [a]) s' w') ->
  I [] s w -> each f s l w = ((s', None), w') -> I l s' w'.
Proof.
  intros Hf. assert (Hgen : forall rest done s w, l = done ++ rest -> I done s w -> each f s rest w = ((s', None), w') -> I l s' w').
  { intros rest. induction rest as [|a rest IH]; intros done0 s0 w0 El Hi Hr; cbn [each] in Hr.
    - apply ret_inv in Hr as [[= <-] <-]. by rewrite app_nil_r in El; subst.
    - apply bind_inv in Hr as ([s1 e1] & w1 & H1 & Hr). destruct e1 as [e1|]; [by apply ret_inv in Hr as [[=] _]|].
      apply (IH (done0 ++ [a]) s1 w1); [by rewrite <- app_assoc|by eapply Hf|done]. }
  intros Hi Hr. by apply (Hgen l [] s w).
Qed.

(** ** One user *)

Lemma request_ok A ctx (c : call A) w a w' : textual (control ctx c) w = (Ok a, w') -> fs w' = fs w /\ performed c (acc w) (acc w').
Proof. intros Hr. by apply request_inv in Hr. Qed.

Lemma write_accounts st w r w' : writeTelemtState cfg st w = (r, w') -> acc w' = acc w.
Proof.
  apply (userless_accounts record_path); [|apply respects_write_state, plain_evolves]. apply touches_writeTelemtState, system_userless.
Qed.

Lemma reset_quota_ok ctx d s w s' w' : reset_quota cfg ctx d s w = ((s', None), w') ->
  s' = did_reset s d /\ (exists a, acc w !! name d = Some a /\ acc w' = <[name d := with_reset a]> (acc w)).
Proof.
  unfold reset_quota. intros (r & w1 & Hq & Hr)%bind_inv. destruct r as [[]|e]; [|by apply ret_inv in Hr as [[=] _]].
  apply request_ok in Hq as [_ Hq]. cbv zeta in Hr. apply bind_inv in Hr as (r & w2 & Hw & Hr).
  apply ret_inv in Hr as [[= <- He] <-]. apply write_accounts in Hw. split; [done|]. destruct Hq as (a & Ha & E). exists a. by rewrite Hw.
Qed.

(** What a step on [d] leaves: [d] is served, the others are untouched and
    the hashes known are the same. *)
Definition settled (d : telemtDesired) (s : progress) (w : world) (s' : progress) (w' : world) : Prop :=
  same_hashes (state s') (state s) /\ (exists a, acc w' !! name d = Some a /\ serves d a) /\
  (forall n, n <> name d -> acc w' !! n = acc w !! n).

Lemma unchanged_hash (m : gmap string string) n h : negb (bool_decide (m !! n = Some h)) = false -> m !! n = Some h.
Proof. by case_bool_decide. Qed.

Lemma patch_user_ok ctx d u s w s' w' a : unsigned (policy d) -> trusted_user (state s) (acc w) d ->
  acc w !! name d = Some a -> (matches (policy d) u = true -> equivalent (a_Policy a) (policy d)) ->
  patch_user ctx d u s w = ((s', None), w') -> settled d s w s' w'.
Proof.
  intros Hu Ht Ha Hm. unfold patch_user. cbv zeta. destruct (Ht a Ha) as [Hsec Hpol].
  assert (Es : secret_changed (state s) d = false -> has_secret d a) by (intros E; by apply Hsec, unchanged_hash).
  assert (Ep : policy_changed (state s) d u = false -> has_policy d a).
  { unfold policy_changed. intros E. destruct (LimitHashes (state s) !! name d) as [prev|] eqn:El.
    - apply Hpol. f_equal. by apply negb_false_iff, String.eqb_eq in E.
    - apply negb_false_iff in E. exists (policy d). split; [by apply Hm|done]. }
  destruct (negb _ && negb _) eqn:Ec.
  - intros [[= <-] <-]%ret_inv. rewrite andb_true_iff, !negb_true_iff in Ec. destruct Ec as [Ec1 Ec2].
    split_and!; [by split|exists a; split; [done|by split; auto]|done].
  - intros (r & w1 & Hp & Hr)%bind_inv. destruct r as [[]|e]; [|by apply ret_inv in Hr as [[=] _]].
    apply ret_inv in Hr as [[= <-] <-]. apply request_ok in Hp as [_ (a' & Ha' & E)]. rewrite Ha in Ha'. injection Ha' as <-.
    rewrite patched_request in E by done. split_and!; [by split| |intros n Hn; rewrite E; by apply lookup_insert_ne].
    eexists. split; [rewrite E; apply lookup_insert_eq|]. split; [|apply same_policy_refl].
    destruct (secret_changed (state s) d) eqn:Ec'; [done|]. by apply Es.
Qed.

Lemma create_user_ok ctx d s w s' w' : unsigned (policy d) -> create_user ctx d s w = ((s', None), w') -> settled d s w s' w'.
Proof.
  intros Hu. unfold create_user. intros (r & w1 & Hp & Hr)%bind_inv. destruct r as [[]|e]; [|by apply ret_inv in Hr as [[=] _]].
  apply ret_inv in Hr as [[= <-] <-]. apply request_ok in Hp as [_ [_ E]]. rewrite created_request in E by done. cbn in E.
  split_and!; [by split| |intros n Hn; rewrite E; by apply lookup_insert_ne].
  eexists. split; [rewrite E; apply lookup_insert_eq|]. split; [done|apply same_policy_refl].
Qed.

Lemma reconcile_user_ok ctx ex d s w s' w' : unsigned (policy d) -> trusted_user (state s) (acc w) d ->
  (forall u, ex !! name d = Some u -> exists a, acc w !! name d = Some a /\ shows u a) ->
  reconcile_user cfg ctx ex s d w = ((s', None), w') -> settled d s w s' w'.
Proof.
  intros Hu Ht Hl. unfold reconcile_user. cbv zeta. destruct (ex !! name d) as [u|]; [|by apply create_user_ok].
  destruct (Hl u eq_refl) as (a & Ha & Hs). intros (r & w1 & Hq & Hr)%bind_inv.
  assert (Hm : matches (policy d) u = true -> equivalent (a_Policy a) (policy d)) by (intros E; by eapply matches_spec).
  destruct r as [s1 [e|]]; [by apply ret_inv in Hr as [[=] _]|]. destruct (period_moved (state s) d).
  - apply reset_quota_ok in Hq as (-> & a0 & Ha0 & E). rewrite Ha in Ha0. injection Ha0 as <-.
    assert (Ha1 : acc w1 !! name d = Some (with_reset a)) by (rewrite E; apply lookup_insert_eq).
    assert (settled d (did_reset (note d s) d) w1 s' w') as (Hh & Hv & Ho).
    { eapply patch_user_ok; [done| |exact Ha1|exact Hm|exact Hr].
      intros a1 Ha1'. rewrite Ha1 in Ha1'. injection Ha1' as <-. by apply (Ht a). }
    split_and!; [done|done|]. intros n Hn. rewrite Ho, E by done. by apply lookup_insert_ne.
  - apply ret_inv in Hq as [[= <-] <-]. exact (patch_user_ok ctx d u (note d s) w s' w' a Hu Ht Ha Hm Hr).
Qed.

(** ** All desired users *)

Lemma existing_users_lookup us n u : NoDup (u_Username <$> us) -> existing_users us !! n = Some u -> u ∈ us /\ u_Username u = n.
Proof.
  intros Hd Hu. unfold existing_users in Hu. apply elem_of_list_to_map_2 in Hu. rewrite elem_of_reverse in Hu.
  apply list_elem_of_fmap in Hu as (v & [= -> ->] & Hv). done.
Qed.

Lemma existing_users_listed us h n u : lists us h -> existing_users us !! n = Some u -> exists a, h !! n = Some a /\ shows u a.
Proof. intros (Hd & Hl & _) Hu. apply existing_users_lookup in Hu as [Hu <-]; [|done]. by apply Hl. Qed.

(** After the users of [done]: they are served, the others as they were. *)
Definition users_done (h0 : accounts) (st0 : telemtState) (done : list telemtDesired) (s : progress) (w : world) : Prop :=
  same_hashes (state s) st0 /\
  (forall d, d ∈ done -> exists a, acc w !! name d = Some a /\ serves d a) /\
  (forall n, n ∉ name <$> done -> acc w !! n = h0 !! n).

Lemma users_loop ctx desired us s w s' w' : well_formed desired -> lists us (acc w) -> trusted desired (state s) (acc w) ->
  each (reconcile_user cfg ctx (existing_users us)) s desired w = ((s', None), w') ->
  users_done (acc w) (state s) desired s' w'.
Proof.
  intros W Hl Ht Hr. eapply (each_done _ _ _ (users_done (acc w) (state s))); [| |exact Hr].
  2: { split_and!; [done|by intros d ?%elem_of_nil|done]. }
  clear Hr. intros done0 d rest s0 w0 s1 w1 El (Hh & Hd & Ho) Hr.
  assert (Hin : d ∈ desired) by (rewrite El; set_solver).
  assert (Hn : name d ∉ name <$> done0).
  { pose proof (wf_names _ W) as N. rewrite El, fmap_app, fmap_cons in N. apply NoDup_app in N as (_ & N & _). intros Hc. eapply N; [exact Hc|by left]. }
  destruct (reconcile_user_ok ctx (existing_users us) d s0 w0 s1 w1) as (Hh1 & Hv & Ho1); [by apply W| | |done|].
  - intros a Ha. rewrite Ho in Ha by done. destruct Hh as [-> ->]. by apply Ht.
  - intros u Hu. rewrite Ho by done. by eapply existing_users_listed.
  - split_and!.
    + destruct Hh as [E1 E2], Hh1 as [E3 E4]. by split; congruence.
    + intros e [He|He%list_elem_of_singleton]%elem_of_app; [|by subst].
      rewrite Ho1; [by apply Hd|]. intros E. apply Hn. rewrite <- E. by apply list_elem_of_fmap_2.
    + intros n Hni. rewrite fmap_app in Hni. rewrite Ho1, Ho; [done|set_solver..].
Qed.

(** ** Users that go *)

Definition deletions_done (h1 : accounts) (wanted : gset string) (done : list User) (w : world) : Prop :=
  (forall n, n ∈ wanted -> acc w !! n = h1 !! n) /\ (forall u, u ∈ done -> u_Username u ∉ wanted -> acc w !! u_Username u = None) /\
  (forall n a, acc w !! n = Some a -> h1 !! n = Some a).

Lemma delete_loop ctx wanted us s w s' w' :
  each (delete_user ctx wanted) s us w = ((s', None), w') -> deletions_done (acc w) wanted us w'.
Proof.
  intros Hr. eapply (each_done _ _ _ (fun done _ => deletions_done (acc w) wanted done)); [| |exact Hr].
  2: { split_and!; [done|by intros u ?%elem_of_nil|done]. }
  clear Hr. intros done0 u rest s0 w0 s1 w1 _ (Hw & Hd & Ho) Hr. unfold delete_user in Hr. case_bool_decide as Hu.
  - apply ret_inv in Hr as [_ <-]. split_and!; [done| |done]. intros v [Hv|Hv%list_elem_of_singleton]%elem_of_app; [by apply Hd|by subst].
  - apply bind_inv in Hr as (r & w2 & Hq & Hr). destruct r as [[]|e]; [|by apply ret_inv in Hr as [[=] _]].
    apply ret_inv in Hr as [_ <-]. apply request_ok in Hq as [_ E]. cbn in E. split_and!.
    + intros n Hn. rewrite E, lookup_delete_ne; [by apply Hw|]. intros <-. done.
    + intros v Hv Hv'. rewrite E. destruct (decide (u_Username u = u_Username v)) as [->|Hne]; [apply lookup_delete_eq|].
      rewrite lookup_delete_ne by done. apply elem_of_app in Hv as [Hv|Hv%list_elem_of_singleton]; [by apply Hd|by subst].
    + intros n a Hn. rewrite E in Hn. apply lookup_delete_Some in Hn as [_ Hn]. by apply Ho.
Qed.

(** ** The whole reconciliation *)

(** The users of the other virtual hosts of a configuration. *)
Definition other_users (c : object) (host : string) : list string :=
  match telemtVhosts c, webVhostIndex (sub_object c "web") host with
  | Ok vhosts, Ok i => kept_users host vhosts i
  | _, _ => []
  end.

Lemma request_asked A ctx (c : call A) w a w' : textual (control ctx c) w = (Ok a, w') -> asked c (eq a) w w'.
Proof.
  unfold textual. intros (x & w1 & Hc & Hr)%bind_inv. apply ret_inv in Hr as [Hx <-]. destruct x as [a'|]; [|done].
  injection Hx as ->. by apply control_asked in Hc.
Qed.

Lemma request_later A ctx (c : call A) w a w' : textual (control ctx c) w = (a, w') -> later w w'.
Proof. intros Hr. eapply (touches_later nothing anything); [|exact Hr]. by apply touches_request. Qed.

Lemma users_view_inv ctx l host w r w' : users_view ctx l host w = (r, w') ->
  fs w' = fs w /\ acc w' = acc w /\
  match r with
  | Ok (us, vhosts, i) => lists us (acc w) /\
      exists c rev, asked GetConfig (eq (c, rev)) w w' /\ telemtVhosts c = Ok vhosts /\ webVhostIndex (sub_object c "web") host = Ok i
  | Err _ => True
  end.
Proof.
  unfold users_view. intros [(e & Hl & ->)|(us & w1 & Hl & Hr)]%try_inv.
  { apply request_inv in Hl as [Hf Ha]. split_and!; [done|cbn in Ha; tauto|done]. }
  pose proof (ListUsers_inv _ _ _ _ Hl) as Hlist. pose proof (request_later _ _ _ _ _ _ Hl) as L1. apply request_ok in Hl as [Hf1 Ha1]. cbn in Ha1.
  apply try_inv in Hr as [(e & Hc & ->)|([c rev] & w2 & Hc & Hr)].
  { apply request_inv in Hc as [Hf Ha]. split_and!; [congruence|cbn in Ha; destruct Ha; congruence|done]. }
  pose proof (request_asked _ _ _ _ _ _ Hc) as Hask. apply request_ok in Hc as [Hf2 Ha2]. cbn in Ha2. apply ret_inv in Hr as [<- <-].
  split_and!; [congruence|congruence|]. destruct (telemtVhosts c) as [vs|] eqn:Ev; [|done]. cbn [rbind].
  destruct (webVhostIndex _ host) as [i|] eqn:Ei; [|done]. cbn [rbind]. destruct (first_error _ _); [done|].
  split; [done|]. exists c, rev. split_and!; try done. eapply asked_mono; [exact L1|exact Hask|apply later_refl].
Qed.

Lemma readTelemtState_accounts w st w' : readTelemtState cfg w = (st, w') -> acc w' = acc w.
Proof.
  apply (userless_accounts nothing); [apply touches_readTelemtState, system_userless|apply respects_readTelemtState, plain_evolves].
Qed.

Lemma profiles_inv ctx desired vhosts i s w s' r w' : reconcile_profiles ctx desired vhosts i s w = ((s', r), w') ->
  fs w' = fs w /\ acc w' = acc w /\ state s' = state s /\ next s' = next s.
Proof.
  unfold reconcile_profiles. cbv zeta. destruct (Json.DeepEqual _ _); [by intros [[= <- <-] <-]%ret_inv|].
  destruct (copyVhosts vhosts); [|by intros [[= <- <-] <-]%ret_inv]. intros (o & w1 & Hp & Hr)%bind_inv.
  apply request_inv in Hp as [Hf Ha]. destruct o as [o|e]; apply ret_inv in Hr as [[= <- <-] <-]; split_and!; try done.
  cbn in Ha. by destruct Ha.
Qed.

Lemma keep_state_accounts s w u w' : keep_state cfg s w = (u, w') -> acc w' = acc w.
Proof.
  apply (userless_accounts record_path).
  - pose proof (touches_writeTelemtState cfg userless). unfold keep_state. touches.
  - pose proof plain_evolves. pose proof (respects_write_state evolves). unfold keep_state. respects.
Qed.

(** A reconciliation that succeeds serves every desired user; of the others,
    those of other virtual hosts stay as they were. *)
Lemma reconcile_serves ctx desired host rb0 w rb1 b w' :
  well_formed desired -> trusted desired (recorded cfg (fs w)) (acc w) ->
  reconcileTelemtUsers cfg ctx desired host rb0 w = ((rb1, Ok b), w') ->
  (forall d, d ∈ desired -> exists a, acc w' !! name d = Some a /\ serves d a) /\
  exists c rev, asked GetConfig (eq (c, rev)) w w' /\
    forall n, n ∉ name <$> desired -> acc w' !! n = if bool_decide (n ∈ other_users c host) then acc w !! n else None.
Proof.
  intros W Ht Hr. unfold reconcileTelemtUsers in Hr. apply bind_inv in Hr as (v & w1 & Hv & Hr).
  destruct v as [[[us vhosts] i]|e]; [|by apply ret_inv in Hr as [[=] _]].
  pose proof (users_view_inv _ _ _ _ _ _ Hv) as (Ef1 & Ea1 & Hl & c & rev & Hask & Evs & Ei).
  pose proof (touches_later _ _ _ _ _ _ _ (touches_reconcile_view desired ctx host rb0 us vhosts i) Hr) as L.
  unfold reconcile_view in Hr. apply bind_inv in Hr as (st & w2 & Hst & Hr). pose proof (readTelemtState_accounts _ _ _ Hst) as Ea2.
  apply readTelemtState_ok in Hst as [Ef2 Est].
  apply bind_inv in Hr as ([s1 [e|]] & w3 & Hu & Hr); [by apply ret_inv in Hr as [[=] _]|].
  assert (Hd : users_done (acc w) st desired s1 w3).
  { assert (E2 : acc w2 = acc w) by congruence. rewrite <- E2. apply (users_loop ctx desired us (start rb0 st) w2); [done|by rewrite E2| |done].
    rewrite E2. destruct Est as [-> | ->]; [by rewrite Ef1|apply no_state_trusted]. }
  destruct Hd as (_ & Hd & Ho). apply bind_inv in Hr as ([s2 [rl|e]] & w4 & Hp & Hr); [|by apply ret_inv in Hr as [[=] _]].
  apply profiles_inv in Hp as (_ & Ea4 & _ & _). apply bind_inv in Hr as ([s3 [e|]] & w5 & Hdel & Hr); [by apply ret_inv in Hr as [[=] _]|].
  apply delete_loop in Hdel as (Hw & Hgone & Hold). rewrite Ea4 in *. apply bind_inv in Hr as (u & w6 & Hk & Hr).
  apply ret_inv in Hr as [_ <-]. pose proof (keep_state_accounts _ _ _ _ Hk) as Ea6. rewrite Ea6. split.
  - intros d Hin. rewrite Hw; [by apply Hd|]. apply elem_of_union_l, elem_of_list_to_set. by apply list_elem_of_fmap_2.
  - exists c, rev. split.
    { exact (asked_mono _ _ _ _ _ _ _ (later_refl w) Hask L). }
    intros n Hn. unfold other_users. rewrite Evs, Ei. case_bool_decide as Hkept.
    + rewrite Hw, Ho; [done..|]. apply elem_of_union_r. by apply elem_of_list_to_set.
    + destruct (acc w5 !! n) as [a|] eqn:Ea; [|done]. exfalso. pose proof (Hold n a Ea) as H3. rewrite Ho in H3 by done.
      destruct Hl as (_ & _ & Hall). destruct (proj1 (list_elem_of_fmap _ _ _) (Hall n (mk_is_Some _ _ H3))) as (u0 & -> & Hu0).
      rewrite (Hgone u0) in Ea; [done|done|]. rewrite elem_of_union, !elem_of_list_to_set. tauto.
Qed.

(** ** The record while users are given what they lack *)

(** The hashes in memory are those read; those on disk are the same or the
    ones that were there. *)
Definition hashes_known (r0 st0 : telemtState) (s : progress) (w : world) : Prop :=
  fits (state s) /\ same_hashes (state s) st0 /\
  (same_hashes (recorded cfg (fs w)) r0 \/ same_hashes (recorded cfg (fs w)) st0).

Lemma request_fs A ctx (c : call A) w r w' : textual (control ctx c) w = (r, w') -> fs w' = fs w.
Proof. intros Hr. by apply request_inv in Hr as [? _]. Qed.

Lemma checkpoint_fits st n q : fits st -> Dec.min_int64 <= q <= Dec.max_int64 -> fits (checkpoint st n q).
Proof. intros Hf Hq. apply map_Forall_insert_2; [done|exact Hf]. Qed.

Lemma reset_quota_known r0 st0 ctx d s w s' e w' : Dec.min_int64 <= quotaReset d <= Dec.max_int64 ->
  hashes_known r0 st0 s w -> reset_quota cfg ctx d s w = ((s', e), w') -> hashes_known r0 st0 s' w'.
Proof.
  intros Hq (Hf & Hs & Hk) Hr. unfold reset_quota in Hr. apply bind_inv in Hr as (r & w1 & Hc & Hr). apply request_fs in Hc.
  destruct r as [[]|err]; [|apply ret_inv in Hr as [[= <- <-] <-]; unfold hashes_known; by rewrite Hc]. cbv zeta in Hr.
  apply bind_inv in Hr as (r & w2 & Hw & Hr). apply ret_inv in Hr as [[= <- <-] <-].
  assert (Hf' : fits (state (did_reset s d))) by by apply checkpoint_fits.
  destruct (writeTelemtState_spec cfg anything _ _ _ _ system_anything Hf' Hw) as (_ & [E|E] & _).
  - split_and!; [done|done|]. by rewrite E, Hc.
  - split_and!; [done|done|]. right. by rewrite E.
Qed.

Lemma reconcile_user_known r0 st0 ctx ex d s w s' e w' : Dec.min_int64 <= quotaReset d <= Dec.max_int64 ->
  hashes_known r0 st0 s w -> reconcile_user cfg ctx ex s d w = ((s', e), w') -> hashes_known r0 st0 s' w'.
Proof.
  intros Hq Hk. unfold reconcile_user. cbv zeta. assert (Hn : hashes_known r0 st0 (note d s) w) by done. revert Hn. generalize (note d s). intros s0 Hn.
  destruct (ex !! name d) as [u|].
  - intros ([s1 e1] & w1 & Hr1 & Hr)%bind_inv. assert (H1 : hashes_known r0 st0 s1 w1).
    { destruct (period_moved _ _); [by eapply reset_quota_known|]. by apply ret_inv in Hr1 as [[= <- <-] <-]. }
    destruct e1 as [e1|]; [by apply ret_inv in Hr as [[= <- <-] <-]|]. unfold patch_user in Hr. cbv zeta in Hr.
    destruct (_ && _); [by apply ret_inv in Hr as [[= <- <-] <-]|]. apply bind_inv in Hr as (r & w2 & Hp & Hr). apply request_fs in Hp.
    destruct r; apply ret_inv in Hr as [[= <- <-] <-]; unfold hashes_known; by rewrite Hp.
  - unfold create_user. intros (r & w1 & Hp & Hr)%bind_inv. apply request_fs in Hp.
    destruct r; apply ret_inv in Hr as [[= <- <-] <-]; unfold hashes_known; by rewrite Hp.
Qed.

Lemma delete_known r0 st0 ctx wanted us s w s' e w' :
  hashes_known r0 st0 s w -> each (delete_user ctx wanted) s us w = ((s', e), w') -> hashes_known r0 st0 s' w'.
Proof.
  apply each_inv. intros s0 u w0 s1 e1 w1 _ Hk Hr. unfold delete_user in Hr. case_bool_decide; [by apply ret_inv in Hr as [[= <- <-] <-]|].
  apply bind_inv in Hr as (r & w2 & Hp & Hr). apply request_fs in Hp. destruct r; apply ret_inv in Hr as [[= <- <-] <-]; unfold hashes_known; by rewrite Hp.
Qed.

(** An attempt that fails leaves hashes on disk that were there, or none. *)
Lemma failed_hashes ctx desired host rb0 w rb1 e w' : well_formed desired ->
  reconcileTelemtUsers cfg ctx desired host rb0 w = ((rb1, Err e), w') ->
  same_hashes (recorded cfg (fs w')) (recorded cfg (fs w)) \/ same_hashes (recorded cfg (fs w')) no_state.
Proof.
  intros W Hr. unfold reconcileTelemtUsers in Hr. apply bind_inv in Hr as (v & w1 & Hv & Hr). apply users_view_inv in Hv as (Ef & _ & _).
  rewrite <- Ef. destruct v as [[[us vhosts] i]|e0]; [|apply ret_inv in Hr as [_ <-]; by left; split].
  unfold reconcile_view in Hr. apply bind_inv in Hr as (st & w2 & Hst & Hr). apply readTelemtState_ok in Hst as [Ef2 Est].
  set (r0 := recorded cfg (fs w1)) in *.
  assert (Hi : hashes_known r0 st (start rb0 st) w2).
  { split_and!; [destruct Est as [-> | ->]; [apply recorded_fits|apply no_state_fits]|done|left]. by rewrite Ef2. }
  assert (Hend : forall s w3, hashes_known r0 st s w3 -> same_hashes (recorded cfg (fs w3)) r0 \/ same_hashes (recorded cfg (fs w3)) no_state).
  { intros s w3 (_ & _ & [Hh|Hh]); [by left|]. destruct Est as [-> | ->]; auto. }
  apply bind_inv in Hr as ([s1 e1] & w3 & Hu & Hr).
  assert (H1 : hashes_known r0 st s1 w3).
  { eapply each_inv; [|exact Hi|exact Hu]. intros s a w4 s2 e2 w5 Ha Hk Hr2. eapply reconcile_user_known; [|exact Hk|exact Hr2]. by apply W. }
  destruct e1 as [e1|]; [apply ret_inv in Hr as [_ <-]; by eapply Hend|].
  apply bind_inv in Hr as ([s2 o] & w4 & Hp & Hr). apply profiles_inv in Hp as (Ef4 & _ & Es & _).
  assert (H2 : hashes_known r0 st s2 w4) by (unfold hashes_known; by rewrite Ef4, Es).
  destruct o as [rl|e2]; [|apply ret_inv in Hr as [_ <-]; by eapply Hend].
  apply bind_inv in Hr as ([s3 e3] & w5 & Hd & Hr). apply (delete_known _ _ _ _ _ _ _ _ _ _ H2) in Hd.
  destruct e3 as [e3|]; [apply ret_inv in Hr as [_ <-]; by eapply Hend|].
  apply bind_inv in Hr as (u & w6 & _ & Hr). by apply ret_inv in Hr as [[=] _].
Qed.

(** Whatever becomes of an attempt, the record may be trusted for the same
    desired users afterwards. *)
Lemma trust_kept ctx desired host rb0 w rb1 r w' : well_formed desired -> trusted desired (recorded cfg (fs w)) (acc w) ->
  reconcileTelemtUsers cfg ctx desired host rb0 w = ((rb1, r), w') -> trusted desired (recorded cfg (fs w')) (acc w').
Proof.
  intros W Ht Hr. destruct r as [b|e].
  - destruct (reconcile_serves _ _ _ _ _ _ _ _ W Ht Hr) as [Hs _]. intros d Hd a Ha.
    destruct (Hs d Hd) as (a' & Ha' & Hsec & Hpol). rewrite Ha in Ha'. injection Ha' as <-. by split.
  - destruct (failed_hashes _ _ _ _ _ _ _ _ W Hr) as [Hh|Hh]; (eapply trusted_hashes; [destruct Hh as [E1 E2]; split; symmetry; eassumption|]).
    + eapply trusted_toward; [exact Ht|]. apply directed_toward; [done| |].
      * eapply spans_mono; [done| |eapply touches_spans; [apply touches_reconcileTelemtUsers|exact Hr]]. done.
      * pose proof (respects_reconcileTelemtUsers evolves plain_evolves ctx desired host rb0 w) as Hev. by rewrite Hr in Hev.
    + apply no_state_trusted.
Qed.

(** Attempts to apply [desired], with anything in between that leaves the
    record alone and the desired users as they are or wanted: a rollback that
    deletes users, a restart of the agent. *)
Inductive attempts (desired : list telemtDesired) (w : world) : world -> Prop :=
| attempts_none : attempts desired w w
| attempts_one w1 w2 ctx host rb0 rb1 r :
    attempts desired w w1 -> reconcileTelemtUsers cfg ctx desired host rb0 w1 = ((rb1, r), w2) -> attempts desired w w2
| attempts_other w1 w2 :
    attempts desired w w1 -> toward desired (acc w1) (acc w2) -> recorded cfg (fs w2) = recorded cfg (fs w1) -> attempts desired w w2.

Lemma attempts_trusted desired w w1 : well_formed desired -> trusted desired (recorded cfg (fs w)) (acc w) ->
  attempts desired w w1 -> trusted desired (recorded cfg (fs w1)) (acc w1).
Proof.
  intros W Ht. induction 1 as [|w1 w2 ctx host rb0 rb1 r _ IH Hr|w1 w2 _ IH Hto Hrec]; [done| |].
  - by apply (trust_kept ctx desired host rb0 w1 rb1 r w2).
  - rewrite Hrec. by eapply trusted_toward.
Qed.

(** C31: reconcileTelemtUsers (internal/agent/telemt.go): when the attempts start
    from a record that is right about the desired users (there is none; or where
    it has the hash of the desired secret or policy of a user telemt has, telemt
    has that secret or policy), then after any number of attempts at the same
    desired list that failed at any point (requests refused or their answers
    lost, the record on disk not written), a first attempt that succeeds leaves
    telemt with exactly the desired users, each with its secret and its policy,
    besides users of other virtual hosts, which it leaves as they were. A failed
    apply of another desired list may leave a record that is not right about this
    one: [UsersSim.NodeSim.reverted_limits]. *)
Theorem retry_converges ctx desired host rb0 w w1 rb1 b w' :
  well_formed desired -> trusted desired (recorded cfg (fs w)) (acc w) -> attempts desired w w1 ->
  reconcileTelemtUsers cfg ctx desired host rb0 w1 = ((rb1, Ok b), w') ->
  (forall d, d ∈ desired -> exists a, acc w' !! name d = Some a /\ serves d a) /\
  exists c rev, asked GetConfig (eq (c, rev)) w1 w' /\
    forall n, n ∉ name <$> desired -> acc w' !! n = if bool_decide (n ∈ other_users c host) then acc w1 !! n else None.
Proof. intros W Ht Ha. apply reconcile_serves; [done|]. by eapply attempts_trusted. Qed.

(** ** The next record *)

Lemma reconcile_user_next ctx ex s d w s' e w' : reconcile_user cfg ctx ex s d w = ((s', e), w') -> next s' = next (note d s).
Proof.
  unfold reconcile_user. cbv zeta. generalize (note d s). intros s0. destruct (ex !! name d) as [u|].
  - intros ([s1 e1] & w1 & Hr1 & Hr)%bind_inv. assert (H1 : next s1 = next s0).
    { destruct (period_moved _ _); [|by apply ret_inv in Hr1 as [[= <- <-] <-]]. unfold reset_quota in Hr1.
      apply bind_inv in Hr1 as ([[]|] & w2 & _ & Hr1); [|by apply ret_inv in Hr1 as [[= <- <-] <-]].
      cbv zeta in Hr1. apply bind_inv in Hr1 as (? & w3 & _ & Hr1). by apply ret_inv in Hr1 as [[= <- <-] <-]. }
    destruct e1 as [e1|]; [by apply ret_inv in Hr as [[= <- <-] <-]|]. unfold patch_user in Hr. cbv zeta in Hr.
    destruct (_ && _); [by apply ret_inv in Hr as [[= <- <-] <-]|]. apply bind_inv in Hr as ([] & w2 & _ & Hr); by apply ret_inv in Hr as [[= <- <-] <-].
  - unfold create_user. intros ([] & w1 & _ & Hr)%bind_inv; by apply ret_inv in Hr as [[= <- <-] <-].
Qed.

(** The next record holds what the users of the list are given. *)
Definition notes (done : list telemtDesired) (st : telemtState) : Prop :=
  (forall n h, SecretHashes st !! n = Some h -> exists d, d ∈ done /\ name d = n /\ h = secretFingerprint (secret d)) /\
  (forall n h, LimitHashes st !! n = Some h -> exists d, d ∈ done /\ name d = n /\ h = fingerprint (policy d)) /\
  (forall n q, QuotaResets st !! n = Some q -> exists d, d ∈ done /\ name d = n /\ q = quotaReset d).

Lemma notes_mono done done' st : (forall d, d ∈ done -> d ∈ done') -> notes done st -> notes done' st.
Proof.
  intros Hs (H1 & H2 & H3). split_and!; intros n x Hx; [destruct (H1 n x Hx) as (d & ? & ?)|destruct (H2 n x Hx) as (d & ? & ?)|destruct (H3 n x Hx) as (d & ? & ?)]; exists d; auto.
Qed.

Lemma notes_note done d s : notes done (next s) -> notes (done ++ [d]) (next (note d s)).
Proof.
  intros Hn. assert (Hin : d ∈ done ++ [d]) by set_solver. apply (notes_mono done (done ++ [d])) in Hn; [|set_solver].
  destruct Hn as (H1 & H2 & H3). split_and!; cbn.
  - intros n h [[<- <-]|[_ Hx]]%lookup_insert_Some; [by exists d|auto].
  - intros n h [[<- <-]|[_ Hx]]%lookup_insert_Some; [by exists d|auto].
  - intros n q. destruct (quotaReset d =? 0); [auto|]. intros [[<- <-]|[_ Hx]]%lookup_insert_Some; [by exists d|auto].
Qed.

Lemma notes_loop ctx desired ex s w s' w' : notes [] (next s) ->
  each (reconcile_user cfg ctx ex) s desired w = ((s', None), w') -> notes desired (next s').
Proof.
  intros Hn Hr. eapply (each_done _ _ _ (fun done s _ => notes done (next s))); [|exact Hn|exact Hr].
  clear. intros done0 d rest s0 w0 s1 w1 _ Hd Hr. rewrite (reconcile_user_next _ _ _ _ _ _ _ _ Hr). by apply notes_note.
Qed.

Lemma notes_start rb0 st : notes [] (next (start rb0 st)).
Proof. split_and!; intros n x Hx; cbn in Hx; by rewrite lookup_empty in Hx. Qed.

Lemma notes_fits desired st : well_formed desired -> notes desired st -> fits st.
Proof. intros W (_ & _ & H3) n q Hq. destruct (H3 n q Hq) as (d & Hd & _ & ->). by apply W. Qed.

(** ** Whether anything changed *)

Definition nothing_yet (a0 : accounts) (s : progress) (w : world) : Prop := changed s = false -> acc w = a0.

Lemma reconcile_user_changed a0 ctx ex s d w s' w' : nothing_yet a0 s w ->
  reconcile_user cfg ctx ex s d w = ((s', None), w') -> nothing_yet a0 s' w'.
Proof.
  intros Hn. unfold reconcile_user. cbv zeta. assert (H0' : nothing_yet a0 (note d s) w) by done. revert H0'. generalize (note d s). intros s0 Hs0.
  destruct (ex !! name d) as [u|].
  - intros ([s1 [e1|]] & w1 & Hr1 & Hr)%bind_inv; [by apply ret_inv in Hr as [[=] _]|]. assert (H1 : nothing_yet a0 s1 w1).
    { destruct (period_moved _ _); [|by apply ret_inv in Hr1 as [[= <-] <-]]. apply reset_quota_ok in Hr1 as (-> & _). by intros [=]. }
    unfold patch_user in Hr. cbv zeta in Hr. destruct (_ && _); [by apply ret_inv in Hr as [[= <-] <-]|].
    apply bind_inv in Hr as ([] & w2 & _ & Hr); apply ret_inv in Hr as [[=] _]; subst; by intros [=].
  - unfold create_user. intros ([] & w1 & _ & Hr)%bind_inv; apply ret_inv in Hr as [[=] _]; subst; by intros [=].
Qed.

Lemma delete_user_changed a0 ctx wanted s u w s' w' : nothing_yet a0 s w ->
  delete_user ctx wanted s u w = ((s', None), w') -> nothing_yet a0 s' w'.
Proof.
  intros Hn. unfold delete_user. case_bool_decide; [by intros [[= <-] <-]%ret_inv|].
  intros ([] & w1 & _ & Hr)%bind_inv; apply ret_inv in Hr as [[=] _]; subst; by intros [=].
Qed.

Lemma profiles_changed ctx desired vhosts i s w s' r w' : reconcile_profiles ctx desired vhosts i s w = ((s', Ok r), w') ->
  changed s' = false -> changed s = false.
Proof.
  unfold reconcile_profiles. cbv zeta. destruct (Json.DeepEqual _ _); [by intros [[= <- _] _]%ret_inv|].
  destruct (copyVhosts vhosts); [|by intros [[=] _]%ret_inv]. intros (o & w1 & Hp & Hr)%bind_inv.
  by destruct o; apply ret_inv in Hr as [[= <-] _].
Qed.

(** ** A record that tells the truth *)

(** What the record says of a user telemt holds is what that user has. *)
Definition truthful (st : telemtState) (h : accounts) : Prop := forall n a, h !! n = Some a ->
  (forall x, SecretHashes st !! n = Some x -> secretFingerprint (a_Secret a) = x) /\
  (forall x, LimitHashes st !! n = Some x -> exists p, equivalent (a_Policy a) p /\ fingerprint p = x).

Lemma truthful_trusted desired st h : truthful st h -> trusted desired st h.
Proof. intros Ht d _ a Ha. destruct (Ht _ a Ha) as [Hs Hl]. split; [apply Hs|apply Hl]. Qed.

Lemma notes_truthful desired st h : notes desired st -> (forall d, d ∈ desired -> exists a, h !! name d = Some a /\ serves d a) -> truthful st h.
Proof.
  intros (H1 & H2 & _) Hs n a Ha. split; intros x Hx.
  - destruct (H1 n x Hx) as (d & Hd & <- & ->). destruct (Hs d Hd) as (a' & Ha' & Hsec & _). by rewrite Ha in Ha'; injection Ha' as ->.
  - destruct (H2 n x Hx) as (d & Hd & <- & ->). destruct (Hs d Hd) as (a' & Ha' & _ & Hpol). by rewrite Ha in Ha'; injection Ha' as ->.
Qed.

(** What is known when a reconciliation comes to keep its record. *)
Record completed (desired : list telemtDesired) (w : world) (s : progress) (w5 : world) : Prop := {
  co_hashes : exists st, (st = recorded cfg (fs w) \/ st = no_state) /\ hashes_known (recorded cfg (fs w)) st s w5;
  co_changed : nothing_yet (acc w) s w5;
  co_notes : notes desired (next s)
}.

Lemma delete_next ctx wanted us s w s' e w' : each (delete_user ctx wanted) s us w = ((s', e), w') -> next s' = next s.
Proof.
  revert s w. induction us as [|u us IH]; intros s w Hr; cbn [each] in Hr; [by apply ret_inv in Hr as [[= <- <-] <-]|].
  apply bind_inv in Hr as ([s1 e1] & w1 & H1 & Hr). assert (E : next s1 = next s).
  { unfold delete_user in H1. case_bool_decide; [by apply ret_inv in H1 as [[= <- _] _]|].
    apply bind_inv in H1 as ([] & ? & _ & H1); by apply ret_inv in H1 as [[= <- _] _]. }
  destruct e1; [by apply ret_inv in Hr as [[= <- _] _]|]. rewrite <- E. by eapply IH.
Qed.

Lemma reconcile_completed ctx desired host rb0 w rb1 b w' : well_formed desired ->
  reconcileTelemtUsers cfg ctx desired host rb0 w = ((rb1, Ok b), w') ->
  exists s w5, completed desired w s w5 /\ b.1 = changed s /\ keep_state cfg s w5 = (tt, w').
Proof.
  intros W Hr. unfold reconcileTelemtUsers in Hr. apply bind_inv in Hr as (v & w1 & Hv & Hr). apply users_view_inv in Hv as (Ef & Ea & _).
  destruct v as [[[us vhosts] i]|e0]; [|by apply ret_inv in Hr as [[=] _]].
  unfold reconcile_view in Hr. apply bind_inv in Hr as (st & w2 & Hst & Hr).
  pose proof (readTelemtState_accounts _ _ _ Hst) as Ea2. apply readTelemtState_ok in Hst as [Ef2 Est]. rewrite Ef in Est, Ef2. rewrite Ea in Ea2.
  set (r0 := recorded cfg (fs w)) in *.
  assert (Hi : hashes_known r0 st (start rb0 st) w2).
  { split_and!; [destruct Est as [-> | ->]; [apply recorded_fits|apply no_state_fits]|done|left]. by rewrite Ef2. }
  apply bind_inv in Hr as ([s1 [e1|]] & w3 & Hu & Hr); [by apply ret_inv in Hr as [[=] _]|].
  assert (H1 : hashes_known r0 st s1 w3).
  { eapply each_inv; [|exact Hi|exact Hu]. intros s a w4 s2 e2 w5 Ha Hk Hr2. eapply reconcile_user_known; [|exact Hk|exact Hr2]. by apply W. }
  assert (C1 : nothing_yet (acc w) s1 w3).
  { eapply (each_done _ _ _ (fun _ s w0 => nothing_yet (acc w) s w0)); [|intros _; exact Ea2|exact Hu].
    intros ? ? ? ? ? ? ? _. apply reconcile_user_changed. }
  pose proof (notes_loop _ _ _ _ _ _ _ (notes_start rb0 st) Hu) as N1.
  apply bind_inv in Hr as ([s2 [rl|e2]] & w4 & Hp & Hr); [|by apply ret_inv in Hr as [[=] _]].
  pose proof (profiles_changed _ _ _ _ _ _ _ _ _ Hp) as C2. apply profiles_inv in Hp as (Ef4 & Ea4 & Es & En).
  apply bind_inv in Hr as ([s3 [e3|]] & w5 & Hd & Hr); [by apply ret_inv in Hr as [[=] _]|].
  apply bind_inv in Hr as ([] & w6 & Hk & Hr). apply ret_inv in Hr as [[= _ <-] <-]. exists s3, w5. split; [split|by split].
  - exists st. split; [done|]. eapply delete_known; [|exact Hd]. unfold hashes_known. by rewrite Ef4, Es.
  - eapply (each_done _ _ _ (fun _ s w0 => nothing_yet (acc w) s w0)); [| |exact Hd].
    + intros ? ? ? ? ? ? ? _. apply delete_user_changed.
    + intros E. rewrite Ea4. by apply C1, C2.
  - by rewrite (delete_next _ _ _ _ _ _ _ _ Hd), En.
Qed.

Lemma truthful_hashes st st' h : same_hashes st st' -> truthful st' h -> truthful st h.
Proof. intros [E1 E2] Ht n a Ha. rewrite E1, E2. by apply Ht. Qed.

Lemma no_state_truthful h : truthful no_state h.
Proof. intros n a _. split; intros x Hx; cbn in Hx; by rewrite lookup_empty in Hx. Qed.

(** ReconcileTelemtUsers (internal/agent/telemt.go): a record that tells
    the truth about telemt's users still does after a reconciliation that
    succeeded, unless users were changed and the write of the record failed,
    in which case it holds the hashes it held. *)
Theorem record_stays_truthful ctx desired host rb0 w rb1 b w' :
  well_formed desired -> truthful (recorded cfg (fs w)) (acc w) ->
  reconcileTelemtUsers cfg ctx desired host rb0 w = ((rb1, Ok b), w') ->
  truthful (recorded cfg (fs w')) (acc w') \/
  (b.1 = true /\ same_hashes (recorded cfg (fs w')) (recorded cfg (fs w))).
Proof.
  intros W Ht Hr. pose proof (reconcile_serves _ _ _ _ _ _ _ _ W (truthful_trusted _ _ _ Ht) Hr) as [Hserved _].
  apply reconcile_completed in Hr as (s & w5 & [(st & Est & Hk) C N] & -> & Hr); [|done].
  pose proof (keep_state_accounts _ _ _ _ Hr) as Ea.
  assert (Hkept : same_hashes (recorded cfg (fs w5)) (recorded cfg (fs w)) \/ truthful (recorded cfg (fs w5)) (acc w5)).
  { destruct Hk as (_ & _ & [Hh|Hh]); [by left|]. destruct Est as [-> | ->]; [by left|right].
    eapply truthful_hashes; [exact Hh|apply no_state_truthful]. }
  assert (Hold : fs w' = fs w5 \/ recorded cfg (fs w') = recorded cfg (fs w5) \/ recorded cfg (fs w') = next s).
  { unfold keep_state in Hr. destruct (_ || _); [right|left; by apply ret_inv in Hr as [_ <-]].
    unfold ignore in Hr. apply bind_inv in Hr as (r & w7 & Hw & Hk'). apply ret_inv in Hk' as [_ <-].
    by destruct (writeTelemtState_spec cfg anything _ _ _ _ system_anything (notes_fits _ _ W N) Hw) as (_ & E & _). }
  assert (Hsame : recorded cfg (fs w') = recorded cfg (fs w5) -> truthful (recorded cfg (fs w')) (acc w') \/
    (changed s = true /\ same_hashes (recorded cfg (fs w')) (recorded cfg (fs w)))).
  { intros ->. rewrite Ea. destruct Hkept as [Hh|Htr]; [|by left]. destruct (changed s) eqn:Ec; [by right|left].
    rewrite (C Ec). by eapply truthful_hashes. }
  destruct Hold as [E|[E|E]]; [apply Hsame; by rewrite E|by apply Hsame|]. left. rewrite E. by eapply notes_truthful.
Qed.

End Safety.
