(* ===== verification/UsersQuota.v ===== *)
(** * A quota is reset once for a period

    [Users.reconcileTelemtUsers] resets the quota of a user when the record
    knows an earlier period for it, and writes the new period before anything
    else can fail.  However many attempts an apply takes, and however they
    fail, telemt acknowledges at most one reset of a user for one period, plus
    one for every attempt that ended at the reset itself or at its record. *)

From S2P Require Import Prelude TelemtTypes Json Node NodeLogic AgentFiles TelemtClient UpdateState UpdateSafety TelemtConfig Users UsersState Accounts UsersSafety.

(** ** Acknowledged resets *)

(** telemt acknowledged a reset of the quota of [n]. *)
Definition reset_ack (n : string) (ev : event) : bool :=
  match ev with
  | Wrote _ => false
  | Did e a =>
      match e in effect A return A -> bool with
      | Control c =>
          match c in call A return (A + apierror) -> bool with
          | ResetQuota m => fun a => match a with inl _ => String.eqb m n | inr _ => false end
          | _ => fun _ => false
          end
      | _ => fun _ => false
      end a
  end.

(** The questions other than a reset of the quota of [n]. *)
Definition no_reset (n : string) : questions := fun _ e =>
  match e with
  | Control c => match c with ResetQuota m => m <> n | _ => True end
  | _ => True
  end.

Lemma system_no_reset n : system_ok (no_reset n).
Proof. by split. Qed.

Lemma no_reset_ack n I ev : event_in (no_reset n) I ev -> reset_ack n ev = false.
Proof.
  destruct ev as [g|A e a]; [done|]. cbn. destruct e; try done. destruct c; try done. cbn. intros Hn.
  destruct a; [|done]. by apply String.eqb_neq.
Qed.

#[export] Hint Resolve system_no_reset : touches.

Section Quota.
Context `{Outside}.
Context (cfg : Config).
Local Open Scope go_scope.

(** The acknowledged resets of a user so far. *)
Definition resets (n : string) (w : world) : nat := List.length (List.filter (reset_ack n) (events w)).

Lemma resets_spans n I w w' : spans (no_reset n) I w w' -> resets n w' = resets n w.
Proof.
  intros (l & Hl & HF). unfold resets. rewrite Hl, List.filter_app, length_app.
  assert (List.filter (reset_ack n) l = []) as ->; [|done]. clear Hl. induction HF as [|ev l Hev _ IH]; [done|].
  cbn. by rewrite (no_reset_ack _ _ _ Hev).
Qed.

Lemma resets_touches n S A (m : M A) w a w' : touches S (no_reset n) m -> m w = (a, w') -> resets n w' = resets n w.
Proof. intros Hm Hw. by eapply resets_spans, touches_spans. Qed.

Lemma resets_request n A ctx (c : call A) w r w' : no_reset n _ (Control c) -> textual (control ctx c) w = (r, w') -> resets n w' = resets n w.
Proof. intros Hc. apply (resets_touches n nothing). by apply touches_textual, touches_control. Qed.

(** One question adds one acknowledgement at most. *)
Lemma resets_ask n ctx m w r w' : textual (control ctx (ResetQuota m)) w = (r, w') -> (resets n w' <= S (resets n w))%nat.
Proof.
  unfold textual, control. intros (x & w1 & Hc & Hr)%bind_inv. apply ret_inv in Hr as [_ <-].
  apply bind_inv in Hc as (t & w2 & [_ <-]%clock_inv & Hc). destruct (expired ctx t); [apply ret_inv in Hc as [_ <-]; lia|].
  apply bind_inv in Hc as (y & w2 & Hp & Hc). apply bind_inv in Hc as (t' & w3 & [_ <-]%clock_inv & Hc). apply ret_inv in Hc as [_ <-].
  unfold perform in Hp. destruct (react _ _ _) as [[z d] o]. injection Hp as <- <-. unfold resets. cbn [events List.filter].
  destruct (reset_ack _ _); cbn; lia.
Qed.

(** ** What the record knows of the period *)

(** The period recorded for [n], if any, is not before [q]. *)
Definition known (n : string) (q : Z) (st : telemtState) : Prop := forall q', QuotaResets st !! n = Some q' -> q <= q'.

(** The period wanted for [n], if it is wanted, is [q]. *)
Definition wants (n : string) (q : Z) (desired : list telemtDesired) : Prop :=
  forall d, d ∈ desired -> name d = n -> quotaReset d = q.

Lemma known_notes n q desired st : wants n q desired -> notes desired st -> known n q st.
Proof. intros Hw (_ & _ & H3) q' Hq. destruct (H3 n q' Hq) as (d & Hd & Hn & ->). by rewrite (Hw d Hd Hn). Qed.

Lemma known_checkpoint n q st m q' : known n q st -> (m = n -> q <= q') -> known n q (checkpoint st m q').
Proof. intros Hk Hq x Hx. cbn in Hx. apply lookup_insert_Some in Hx as [[-> <-]|[_ Hx]]; auto. Qed.

(** The attempt ended at the reset of the quota of [n], or at its record. *)
Definition interrupted {A} (n : string) (r : result A) : Prop :=
  exists e, r = Err ("reset quota of user " +:+ n +:+ ": " +:+ e) \/ r = Err ("record quota reset of user " +:+ n +:+ ": " +:+ e).

Section Run.
Context (n : string) (q : Z) (w0 : world).

(** In a run from [w0]: no reset of [n] was acknowledged, or one was and its
    period is in memory and on disk; what is known stays known. *)
Definition accounted (s : progress) (w : world) : Prop :=
  fits (state s) /\
  (known n q (recorded cfg (fs w0)) -> known n q (state s) /\ known n q (recorded cfg (fs w))) /\
  (resets n w = resets n w0 \/
   (resets n w <= S (resets n w0))%nat /\ ~ known n q (recorded cfg (fs w0)) /\ known n q (state s) /\ known n q (recorded cfg (fs w))).

(** The outcome of a run. *)
Definition bounded {A} (r : result A) (w : world) : Prop :=
  (known n q (recorded cfg (fs w0)) -> known n q (recorded cfg (fs w)) /\ resets n w = resets n w0) /\
  (resets n w <= S (resets n w0))%nat /\
  (resets n w = resets n w0 \/ known n q (recorded cfg (fs w)) \/ interrupted n r).

Lemma accounted_bounded {A} s w (r : result A) : accounted s w -> bounded r w.
Proof.
  intros (_ & Hk & Hr). split_and!.
  - intros H0. split; [by apply Hk|]. destruct Hr as [?|(_ & ? & _)]; [done|tauto].
  - destruct Hr as [->|(? & _)]; lia.
  - destruct Hr as [?|(_ & _ & _ & ?)]; auto.
Qed.

Lemma accounted_request A ctx (c : call A) s w r w' : no_reset n _ (Control c) -> accounted s w ->
  textual (control ctx c) w = (r, w') -> accounted s w'.
Proof.
  intros Hc Ha Hr. pose proof (resets_request _ _ _ _ _ _ _ Hc Hr) as Hn. unfold textual in Hr.
  assert (fs w' = fs w) as Hf.
  { pose proof (touches_fs nothing anything _ _ _ _ _ (touches_textual _ _ _ _ (touches_control nothing anything _ ctx c I)) Hr) as Hs.
    apply map_eq. intros p. symmetry. apply Hs. intros []. }
  unfold accounted. by rewrite Hf, Hn.
Qed.

Lemma accounted_write st s w r w' : fits st -> (known n q (recorded cfg (fs w0)) -> known n q st) ->
  (resets n w = resets n w0 \/ known n q st) -> accounted s w -> writeTelemtState cfg st w = (r, w') -> accounted s w'.
Proof.
  intros Hf Hk0 Hk (Hfs & Hin & Hr) Hw.
  pose proof (resets_touches n _ _ _ _ _ _ (touches_writeTelemtState cfg (no_reset n) st (system_no_reset n)) Hw) as En.
  destruct (writeTelemtState_spec cfg anything _ _ _ _ system_anything Hf Hw) as (_ & [E|E] & _);
    unfold accounted; rewrite E, En; [by split_and!|].
  split_and!; [done| |].
  - intros H0. by split; [apply Hin|apply Hk0].
  - destruct Hr as [?|(H1 & H2 & H3 & H4)]; [by left|]. destruct Hk as [?|Hk]; [by left|]. by right.
Qed.

(** The reset of a user: another one's changes nothing for [n]; that of [n] is
    recorded, or the attempt ends here. *)
Lemma accounted_reset ctx d s w s' e w' : Dec.min_int64 <= quotaReset d <= Dec.max_int64 -> (name d = n -> quotaReset d = q) ->
  (name d = n -> resets n w = resets n w0) -> period_moved (state s) d = true -> accounted s w ->
  reset_quota cfg ctx d s w = ((s', e), w') ->
  match e with None => accounted s' w' | Some e => bounded (Err e : result (bool * bool)) w' end.
Proof.
  intros Hq Hwant Hfresh Hm Ha Hr. unfold reset_quota in Hr. apply bind_inv in Hr as (r & w1 & Hc & Hr).
  destruct (decide (name d = n)) as [En|En].
  - assert (Hnk : ~ known n q (recorded cfg (fs w0))).
    { intros H0. destruct Ha as (_ & Ha & _). destruct (Ha H0) as [Hs _]. unfold period_moved in Hm. rewrite En, (Hwant En) in Hm.
      destruct (QuotaResets (state s) !! n) as [last|] eqn:El; [|done]. specialize (Hs last El). lia. }
    pose proof (resets_ask n _ _ _ _ _ Hc) as Hle. rewrite (Hfresh En) in Hle.
    destruct r as [[]|err].
    + cbv zeta in Hr. apply bind_inv in Hr as (r & w2 & Hw & Hr). apply ret_inv in Hr as [[= <- <-] <-].
      pose proof (resets_touches n _ _ _ _ _ _ (touches_writeTelemtState cfg (no_reset n) _ (system_no_reset n)) Hw) as E2.
      assert (Hf : fits (checkpoint (state s) (name d) (quotaReset d))) by (apply map_Forall_insert_2; [done|apply Ha]).
      assert (Hkn : known n q (state (did_reset s d))).
      { intros x Hx. cbn in Hx. rewrite En, (Hwant En), lookup_insert_eq in Hx. injection Hx as <-. lia. }
      destruct r as [[]|err].
      * split_and!; [done|done|]. right. rewrite E2. split_and!; [lia|done|done|].
        destruct (writeTelemtState_spec cfg anything _ _ _ _ system_anything Hf Hw) as (_ & _ & Hok). by rewrite (Hok eq_refl).
      * split_and!; [done|lia|]. right; right. exists err. right. by rewrite En.
    + apply ret_inv in Hr as [[= <- <-] <-]. split_and!; [done|lia|]. right; right. exists err. left. by rewrite En.
  - assert (A1 : accounted s w1) by (eapply accounted_request; [|exact Ha|exact Hc]; exact En).
    destruct r as [[]|err]; [|apply ret_inv in Hr as [[= <- <-] <-]; by eapply accounted_bounded].
    cbv zeta in Hr. apply bind_inv in Hr as (r & w2 & Hw & Hr). apply ret_inv in Hr as [[= <- <-] <-].
    assert (A2 : accounted (did_reset s d) w2).
    { destruct A1 as (Hf & Hin & Hr).
      assert (Hf' : fits (state (did_reset s d))) by by apply map_Forall_insert_2.
      assert (Hkn : known n q (state s) -> known n q (state (did_reset s d))) by (intros Hk; by apply known_checkpoint).
      eapply (accounted_write (state (did_reset s d)) (did_reset s d)); [done| | | |exact Hw].
      - intros H0. by apply Hkn, Hin.
      - destruct Hr as [?|(_ & _ & ? & _)]; [by left|right; by apply Hkn].
      - split_and!; [done| |].
        + intros H0. split; [by apply Hkn, Hin|by apply Hin].
        + destruct Hr as [?|(? & ? & ? & ?)]; [by left|right; auto]. }
    destruct r as [[]|err]; [done|by eapply accounted_bounded].
Qed.

Lemma accounted_user ctx ex d s w s' e w' : Dec.min_int64 <= quotaReset d <= Dec.max_int64 -> (name d = n -> quotaReset d = q) ->
  (name d = n -> resets n w = resets n w0) -> accounted s w ->
  reconcile_user cfg ctx ex s d w = ((s', e), w') ->
  match e with None => accounted s' w' | Some e => bounded (Err e : result (bool * bool)) w' end.
Proof.
  intros Hq Hwant Hfresh Ha. unfold reconcile_user. cbv zeta. assert (An : accounted (note d s) w) by done.
  assert (Hmoved : period_moved (state s) d = period_moved (state (note d s)) d) by done. rewrite Hmoved. revert An. generalize (note d s). clear s Ha Hmoved. intros s Ha.
  assert (Hreq : forall A (c : call A) s w (r : result A) w', no_reset n _ (Control c) -> accounted s w -> textual (control ctx c) w = (r, w') -> accounted s w').
  { intros. by eapply accounted_request. }
  destruct (ex !! name d) as [u|].
  - intros ([s1 e1] & w1 & Hr1 & Hr)%bind_inv.
    assert (H1 : match e1 with None => accounted s1 w1 | Some e => bounded (Err e : result (bool * bool)) w1 end).
    { destruct (period_moved (state s) d) eqn:Em; [by eapply accounted_reset|]. by apply ret_inv in Hr1 as [[= <- <-] <-]. }
    destruct e1 as [e1|]; [by apply ret_inv in Hr as [[= <- <-] <-]|]. unfold patch_user in Hr. cbv zeta in Hr.
    destruct (_ && _); [by apply ret_inv in Hr as [[= <- <-] <-]|]. apply bind_inv in Hr as (r & w2 & Hp & Hr).
    apply (Hreq _ _ s1 w1) in Hp; [|done..]. destruct r; apply ret_inv in Hr as [[= <- <-] <-]; [done|by eapply accounted_bounded].
  - unfold create_user. intros (r & w1 & Hp & Hr)%bind_inv. apply (Hreq _ _ s w) in Hp; [|done..].
    destruct r; apply ret_inv in Hr as [[= <- <-] <-]; [done|by eapply accounted_bounded].
Qed.

End Run.

Section Footprint.
Context (n : string).
#[local] Hint Extern 1 (no_reset _ _ _) => exact I : touches.

Lemma untouched_request S A ctx (c : call A) : no_reset n _ (Control c) -> touches S (no_reset n) (textual (control ctx c)).
Proof. intros. by apply touches_textual, touches_control. Qed.

Lemma untouched_user ctx ex s d : name d <> n -> touches (or_path (telemtStatePath cfg)) (no_reset n) (reconcile_user cfg ctx ex s d).
Proof.
  intros Hn. pose proof (untouched_request (or_path (telemtStatePath cfg))) as Hreq.
  pose proof (touches_writeTelemtState cfg (no_reset n)) as Hw.
  assert (Hq : touches (or_path (telemtStatePath cfg)) (no_reset n) (textual (control ctx (ResetQuota (name d))))) by by apply Hreq.
  unfold reconcile_user, create_user, reset_quota, patch_user. cbv zeta. touches.
Qed.

Lemma untouched_view S ctx l host : touches S (no_reset n) (users_view ctx l host).
Proof. pose proof (untouched_request S). unfold users_view. touches. Qed.

Lemma untouched_profiles S ctx desired vhosts i s : touches S (no_reset n) (reconcile_profiles ctx desired vhosts i s).
Proof. pose proof (untouched_request S). unfold reconcile_profiles. cbv zeta. touches. Qed.

Lemma untouched_deletions S ctx wanted s us : touches S (no_reset n) (each (delete_user ctx wanted) s us).
Proof. pose proof (untouched_request S). apply touches_each. intros. unfold delete_user. touches. Qed.

End Footprint.

(** ** A loop and its errors *)

Lemma each_spec T A (f : T -> A -> M (T * option error)) (I : list A -> T -> world -> Prop) (Q : error -> world -> Prop) l s w s' e w' :
  (forall done a rest s w s' e w', l = done ++ a :: rest -> I done s w -> f s a w = ((s', e), w') ->
     match e with None => I (done ++ [a]) s' w' | Some e => Q e w' end) ->
  I [] s w -> each f s l w = ((s', e), w') -> match e with None => I l s' w' | Some e => Q e w' end.
Proof.
  intros Hf. assert (Hgen : forall rest done s w, l = done ++ rest -> I done s w -> each f s rest w = ((s', e), w') ->
    match e with None => I l s' w' | Some e => Q e w' end).
  { intros rest. induction rest as [|a rest IH]; intros done0 s0 w1 El Hi Hr; cbn [each] in Hr.
    - apply ret_inv in Hr as [[= <- <-] <-]. by rewrite app_nil_r in El; subst.
    - apply bind_inv in Hr as ([s1 e1] & w2 & H1 & Hr). pose proof (Hf _ _ _ _ _ _ _ _ El Hi H1) as Hs. destruct e1 as [e1|].
      + by apply ret_inv in Hr as [[= <- <-] <-].
      + apply (IH (done0 ++ [a]) s1 w2); [by rewrite <- app_assoc|done..]. }
  intros Hi Hr. by apply (Hgen l [] s w).
Qed.

(** ** One attempt *)

Lemma users_bounded n q w0 ctx desired ex s w s' e w' : well_formed desired -> wants n q desired ->
  accounted n q w0 s w -> resets n w = resets n w0 ->
  each (reconcile_user cfg ctx ex) s desired w = ((s', e), w') ->
  match e with None => accounted n q w0 s' w' | Some e => bounded n q w0 (Err e : result (bool * bool)) w' end.
Proof.
  intros W Hw Ha Hn Hr.
  enough (match e with None => accounted n q w0 s' w' /\ (n ∉ name <$> desired -> resets n w' = resets n w0)
          | Some e => bounded n q w0 (Err e : result (bool * bool)) w' end) by (destruct e; tauto).
  refine (each_spec _ _ _ (fun done s w => accounted n q w0 s w /\ (n ∉ name <$> done -> resets n w = resets n w0))
    (fun e w => bounded n q w0 (Err e : result (bool * bool)) w) _ _ _ _ _ _ _ (conj Ha (fun _ => Hn)) Hr).
  clear s w Ha Hn Hr s' e w'. intros done0 d rest s w s' e w' El [Ha Hf] Hr. assert (Hin : d ∈ desired) by (rewrite El; set_solver).
  assert (Hnd : name d ∉ name <$> done0).
  { pose proof (wf_names _ W) as N. rewrite El, fmap_app, fmap_cons in N. apply NoDup_app in N as (_ & N & _). intros Hc. eapply N; [exact Hc|by left]. }
  pose proof (accounted_user n q w0 ctx ex d s w s' e w' (wf_period _ W d Hin) (Hw d Hin)) as Hu.
  specialize (Hu ltac:(intros En; apply Hf; by rewrite <- En) Ha Hr). destruct e as [e|]; [done|]. split; [done|].
  intros Hni. rewrite fmap_app in Hni. assert (name d <> n) as Hne by set_solver.
  rewrite (resets_touches n _ _ _ _ _ _ (untouched_user n ctx ex s d Hne) Hr). apply Hf. set_solver.
Qed.

Lemma quiet_fs E A (m : M A) w a w' : touches nothing E m -> m w = (a, w') -> fs w' = fs w.
Proof. intros Hm Hr. pose proof (touches_fs _ _ _ _ _ _ _ Hm Hr) as Hs. apply map_eq. intros p. symmetry. apply Hs. intros []. Qed.

Lemma accounted_quiet n q w0 A (m : M A) s w a s' w' : touches nothing (no_reset n) m -> m w = (a, w') -> state s' = state s ->
  accounted n q w0 s w -> accounted n q w0 s' w'.
Proof.
  intros Hm Hr Es Ha. unfold accounted. by rewrite Es, (quiet_fs _ _ _ _ _ _ Hm Hr), (resets_touches _ _ _ _ _ _ _ Hm Hr).
Qed.

Lemma profiles_state ctx desired vhosts i s w s' r w' : reconcile_profiles ctx desired vhosts i s w = ((s', r), w') ->
  state s' = state s /\ next s' = next s.
Proof.
  unfold reconcile_profiles. cbv zeta. destruct (Json.DeepEqual _ _); [by intros [[= <- <-] <-]%ret_inv|].
  destruct (copyVhosts vhosts); [|by intros [[= <- <-] <-]%ret_inv]. intros (o & w1 & _ & Hr)%bind_inv.
  by destruct o; apply ret_inv in Hr as [[= <- <-] <-].
Qed.

Lemma delete_state ctx wanted us s w s' e w' : each (delete_user ctx wanted) s us w = ((s', e), w') -> state s' = state s /\ next s' = next s.
Proof.
  refine (each_inv _ _ _ (fun s1 _ => state s1 = state s /\ next s1 = next s) us s w s' e w' _ (conj eq_refl eq_refl)).
  intros s1 u w1 s2 e2 w2 _ Hs Hr. unfold delete_user in Hr. case_bool_decide; [by apply ret_inv in Hr as [[= <- _] _]|].
  apply bind_inv in Hr as ([] & w3 & _ & Hr); by apply ret_inv in Hr as [[= <- _] _].
Qed.

Lemma keep_state_accounted n q w0 desired s w u w' : well_formed desired -> wants n q desired -> notes desired (next s) ->
  accounted n q w0 s w -> keep_state cfg s w = (u, w') -> exists s', accounted n q w0 s' w'.
Proof.
  intros W Hw N Ha. unfold keep_state. destruct (_ || _); [|intros [_ <-]%ret_inv; by exists s].
  unfold ignore. intros (r & w1 & Hwr & Hr)%bind_inv. apply ret_inv in Hr as [_ <-]. exists s.
  assert (Hk : known n q (next s)) by by eapply known_notes. eapply accounted_write; [by eapply notes_fits| | |exact Ha|exact Hwr]; auto.
Qed.

(** One attempt, however it ends. *)
Lemma reconcile_bounded n q ctx desired host rb0 w rb1 r w' : well_formed desired -> wants n q desired ->
  reconcileTelemtUsers cfg ctx desired host rb0 w = ((rb1, r), w') -> bounded n q w r w'.
Proof.
  intros W Hw Hr. unfold reconcileTelemtUsers in Hr. apply bind_inv in Hr as (v & w1 & Hv & Hr).
  pose proof (quiet_fs _ _ _ _ _ _ (untouched_view n nothing ctx desired host) Hv) as Ef1.
  pose proof (resets_touches n _ _ _ _ _ _ (untouched_view n nothing ctx desired host) Hv) as En1.
  destruct v as [[[us vhosts] i]|e]; [|apply ret_inv in Hr as [[= _ <-] <-]; unfold bounded; rewrite Ef1, En1; split_and!; auto].
  unfold reconcile_view in Hr. apply bind_inv in Hr as (st & w2 & Hst & Hr).
  pose proof (resets_touches n _ _ _ _ _ _ (touches_readTelemtState cfg nothing (no_reset n) (system_no_reset n)) Hst) as En2.
  apply readTelemtState_ok in Hst as [Ef2 Est].
  assert (A2 : accounted n q w (start rb0 st) w2).
  { rewrite Ef1 in Est. unfold accounted. rewrite Ef2, Ef1, En2, En1. cbn [state start].
    assert (Hno : known n q no_state) by (intros x Hx; cbn in Hx; by rewrite lookup_empty in Hx).
    refine (conj _ (conj (fun Hk => conj _ Hk) (or_introl eq_refl))); destruct Est as [-> | ->]; try done; apply recorded_fits. }
  apply bind_inv in Hr as ([s1 e1] & w3 & Hu & Hr).
  assert (En : resets n w2 = resets n w) by congruence. pose proof (users_bounded n q w ctx desired _ _ _ _ _ _ W Hw A2 En Hu) as B1.
  destruct e1 as [e1|]; [by apply ret_inv in Hr as [[= _ <-] <-]|]. pose proof (notes_loop cfg _ _ _ _ _ _ _ (notes_start rb0 st) Hu) as N1.
  apply bind_inv in Hr as ([s2 o] & w4 & Hp & Hr). pose proof (profiles_state _ _ _ _ _ _ _ _ _ Hp) as [Es2 Ex2].
  pose proof (accounted_quiet n q w _ _ _ _ _ s2 _ (untouched_profiles n nothing ctx desired vhosts i s1) Hp Es2 B1) as A4.
  destruct o as [rl|e2]; [|apply ret_inv in Hr as [[= _ <-] <-]; by eapply accounted_bounded].
  apply bind_inv in Hr as ([s3 e3] & w5 & Hd & Hr). pose proof (delete_state _ _ _ _ _ _ _ _ Hd) as [Es3 Ex3].
  pose proof (accounted_quiet n q w _ _ _ _ _ s3 _ (untouched_deletions n nothing ctx _ s2 us) Hd Es3 A4) as A5.
  destruct e3 as [e3|]; [apply ret_inv in Hr as [[= _ <-] <-]; by eapply accounted_bounded|].
  apply bind_inv in Hr as (u & w6 & Hk & Hr). apply ret_inv in Hr as [[= _ <-] <-].
  rewrite <- Ex2, <- Ex3 in N1. destruct (keep_state_accounted n q w desired _ _ _ _ W Hw N1 A5 Hk) as [s' A6].
  by eapply accounted_bounded.
Qed.

(** Applies in which the period wanted for [n], where [n] is wanted, is [q],
    with anything in between that resets no quota of [n] and leaves the record
    alone; [k] of them ended at the reset of [n] or at its record. *)
Inductive period (n : string) (q : Z) (w : world) : nat -> world -> Prop :=
| period_none : period n q w 0 w
| period_apply k w1 w2 ctx desired host rb0 rb1 r :
    period n q w k w1 -> well_formed desired -> wants n q desired ->
    reconcileTelemtUsers cfg ctx desired host rb0 w1 = ((rb1, r), w2) -> ~ interrupted n r -> period n q w k w2
| period_interrupted k w1 w2 ctx desired host rb0 rb1 r :
    period n q w k w1 -> well_formed desired -> wants n q desired ->
    reconcileTelemtUsers cfg ctx desired host rb0 w1 = ((rb1, r), w2) -> interrupted n r -> period n q w (S k) w2
| period_other k w1 w2 :
    period n q w k w1 -> resets n w2 = resets n w1 -> recorded cfg (fs w2) = recorded cfg (fs w1) -> period n q w k w2.

(** C32: reconcileTelemtUsers (internal/agent/telemt.go): while the panel wants
    the same quota period for a user, telemt acknowledges one reset of that
    user's quota, and one more for each attempt that ended at the reset itself
    or at the write that records it; however many attempts there are, wherever
    else they fail, and whatever else they apply. *)
Theorem quota_reset_once n q w k w' : period n q w k w' -> (resets n w' <= resets n w + 1 + k)%nat.
Proof.
  intros Hp. enough ((known n q (recorded cfg (fs w')) /\ (resets n w' <= resets n w + 1 + k)%nat) \/ (resets n w' <= resets n w + k)%nat) by lia.
  induction Hp as [|k w1 w2 ctx desired host rb0 rb1 r _ IH W Hw Hr Hi|k w1 w2 ctx desired host rb0 rb1 r _ IH W Hw Hr Hi|k w1 w2 _ IH Hn Hrec].
  - right. lia.
  - destruct (reconcile_bounded _ _ _ _ _ _ _ _ _ _ W Hw Hr) as (B1 & B2 & B3). destruct IH as [[Hk Hle]|Hle].
    + destruct (B1 Hk) as [Hk' E]. left. split; [done|lia].
    + destruct B3 as [E|[Hk|?]]; [right; lia|left; split; [done|lia]|done].
  - destruct (reconcile_bounded _ _ _ _ _ _ _ _ _ _ W Hw Hr) as (B1 & B2 & B3). destruct IH as [[Hk Hle]|Hle].
    + destruct (B1 Hk) as [Hk' E]. left. split; [done|lia].
    + right. lia.
  - rewrite Hn, Hrec. exact IH.
Qed.

End Quota.
