(* ===== verification/UsersSim.v ===== *)
(** * A node with users

    An executable telemt for the theorems of [UsersSafety] and [UsersQuota]:
    it holds accounts and a configuration, and can be told to refuse the next
    requests that change something, or to serve them and lose the answer.
    Then the witnesses, and two runs in which a failed attempt is followed by
    another desired state. *)

From S2P Require Import Prelude Calendar Crypto WebPolicy TelemtTypes Json Node NodeLogic AgentFiles TelemtClient UpdateState TelemtConfig Patches Users UsersState Accounts UsersSafety UsersQuota.

Local Open Scope go_scope.

Module NodeSim.

(** What becomes of a request that changes something. *)
Inductive fate := Serve | Refuse | Lose.

Record telemt := { users : accounts; conf : object; fates : list fate; seed : Z }.

Definition with_users (t : telemt) (h : accounts) : telemt := {| users := h; conf := conf t; fates := fates t; seed := seed t |}.
Definition with_conf (t : telemt) (c : object) : telemt := {| users := users t; conf := c; fates := fates t; seed := seed t |}.
Definition next_fate (t : telemt) : telemt := {| users := users t; conf := conf t; fates := tail (fates t); seed := seed t |}.

Definition view (e : string * account) : User :=
  let p := a_Policy e.2 in
  {| u_Username := e.1; u_Enabled := Enabled p; u_ExpirationRFC3339 := Expiration p; u_DataQuotaBytes := DataQuotaBytes p;
     u_RateLimitUpBps := RateLimitUpBps p; u_RateLimitDownBps := RateLimitDownBps p; u_MaxUniqueIPs := MaxUniqueIPs p;
     u_MaxTCPConns := MaxTCPConns p; u_UserAdTag := AdTag p; u_CurrentConnections := 0; u_ActiveUniqueIPs := 0;
     u_ActiveUniqueIPsList := None; u_TotalOctets := 0 |}.

Definition accepted : PatchConfigResult :=
  {| RestartRequired := false; RuntimeReloadRequired := true; ProcessRestartRequired := false; DeferredProcessFields := [] |}.

Definition missing : apierror := APIError 404 "not_found" "no such user".

(** The change a request asks for, when telemt can make it. *)
Definition change {A} (c : call A) (t : telemt) : option (A * telemt) :=
  match c in call A return option (A * telemt) with
  | CreateUser r => match users t !! cu_Username r with
                    | None => Some (tt, with_users t (<[cu_Username r := created_account r]> (users t)))
                    | Some _ => None end
  | PatchUser n r => match users t !! n with Some a => Some (tt, with_users t (<[n := patched r a]> (users t))) | None => None end
  | DeleteUser n => Some (tt, with_users t (delete n (users t)))
  | ResetQuota n => match users t !! n with Some a => Some (tt, with_users t (<[n := with_reset a]> (users t))) | None => None end
  | PatchConfig p _ => Some (accepted, with_conf t (members (merge (JObject (conf t)) (JObject p))))
  | _ => None
  end.

(** A request that changes something meets its fate. *)
Definition meet {A} (t : telemt) (r : option (A * telemt)) : (A + apierror) * telemt :=
  match head (fates t) with
  | Some Refuse => (inr (APIError 503 "unavailable" "try again"), next_fate t)
  | Some Lose => (inr (Transport "connection reset"), next_fate (match r with Some (_, t) => t | None => t end))
  | _ => match r with Some (a, t) => (inl a, next_fate t) | None => (inr missing, next_fate t) end
  end.

Definition answer {A} (c : call A) (t : telemt) : (A + apierror) * telemt :=
  match c in call A return (A + apierror) * telemt with
  | ListUsers => (inl (view <$> map_to_list (users t)), t)
  | GetConfig => (inl (conf t, "r1"%string), t)
  | GetReady => (inl {| Ready := true; Reason := EmptyString |}, t)
  | GetSystemInfo => (inl {| Version := "3.5.14" |}, t)
  | Reload => (inl {| ReloadID := 1; ConfigRevision := "r1" |}, t)
  | ReloadStatus _ => (inl {| rs_State := "succeeded"; rs_Error := EmptyString; rs_DeferredProcessFields := [] |}, t)
  | CreateUser r => meet t (change (CreateUser r) t)
  | PatchUser n r => meet t (change (PatchUser n r) t)
  | DeleteUser n => meet t (change (DeleteUser n) t)
  | ResetQuota n => meet t (change (ResetQuota n) t)
  | PatchConfig p r => meet t (change (PatchConfig p r) t)
  | _ => (inr (APIError 404 "not_found" "no such route"), t)
  end.

Definition node_react (A : Type) (e : effect A) (f : files) (t : telemt) : A * Z * telemt :=
  match e in effect A return A * Z * telemt with
  | Fault _ => (None, 0, t)
  | ShortWrite _ => (O, 0, t)
  | Random => (seed t, 0, {| users := users t; conf := conf t; fates := fates t; seed := seed t + 1 |})
  | NewUUID => ("id", 0, t)
  | Select => (false, 0, t)
  | Exec _ => ((EmptyString, None), 0, t)
  | Get _ => (Err "unreachable", 0, t)
  | Decoy => (None, 0, t)
  | Fetch _ _ => (Err "unreachable"%string, 0, t)
  | Rewritten _ => (None, 0, t)
  | Dial _ _ => (None, 0, t)
  | Control c => let '(a, t) := answer c t in (a, Tm.millisecond, t)
  end.

#[export] Instance node_outside : Outside := {| outside := telemt; umask := 18; self := (0, 0); react := node_react |}.

Lemma change_performed A (c : call A) t a t' : change c t = Some (a, t') -> performed c (users t) (users t').
Proof.
  destruct c; cbn; try done.
  - by intros [= <- <-].
  - destruct (users t !! _) eqn:E; [done|]. by intros [= <- <-].
  - destruct (users t !! _) as [x|] eqn:E; [|done]. intros [= <- <-]. by exists x.
  - by intros [= <- <-].
  - destruct (users t !! _) as [x|] eqn:E; [|done]. intros [= <- <-]. by exists x.
Qed.

Lemma meet_answered A (c : call A) t a t' : meet t (change c t) = (a, t') -> answered (Control c) a (users t) (users t').
Proof.
  unfold meet. destruct (change c t) as [[x t1]|] eqn:E.
  - apply change_performed in E. destruct (head (fates t)) as [[]|]; intros [= <- <-]; cbn; auto.
  - destruct (head (fates t)) as [[]|]; intros [= <- <-]; cbn; auto.
Qed.

Lemma answer_answered A (c : call A) t a t' : answer c t = (a, t') -> answered (Control c) a (users t) (users t').
Proof. destruct c; try (by intros [= <- <-]); apply meet_answered. Qed.

Lemma views_listed h : lists (view <$> map_to_list h) h.
Proof.
  assert (E : u_Username <$> (view <$> map_to_list h) = fst <$> map_to_list h) by by rewrite <- list_fmap_compose.
  split_and!.
  - rewrite E. apply NoDup_fst_map_to_list.
  - intros u ([n a] & -> & Hin)%list_elem_of_fmap. apply elem_of_map_to_list in Hin. by exists a.
  - intros n [a Ha]. rewrite E. apply list_elem_of_fmap. exists (n, a). split; [done|]. by apply elem_of_map_to_list.
Qed.

#[export] Instance node_accounts : Accounts.
Proof.
  refine {| held := users : @outside node_outside -> accounts |}.
  - intros A e f o a d o'. destruct e; cbn; try (by intros [= <- _ <-]).
    destruct (answer c o) as [x t] eqn:E. intros [= <- _ <-]. by apply answer_answered.
  - intros f o us d o'. cbn. intros [= <- _ <-]. apply views_listed.
Defined.

(** ** A node and two desired states *)

Definition cfg : Config :=
  {| StateDir := "/var/lib/agent"; TelemtConfigPath := "/etc/telemt/telemt.toml"; TelemtBin := "/usr/local/bin/telemt";
     HealthWait := Tm.second; cfg_Engine := "telemt"; updatePoll := 0;
     TelemtSiteDir := "/srv/telemt-site"; RelaySiteDir := "/srv/tproxy-site"; ReloadWait := 60 * Tm.second;
     ProfilesPath := "/etc/tproxy-server/profiles.json"; MTProxyEnvPath := "/etc/mtproxy/mtproxy.env";
     TProxyBin := "/usr/local/bin/tproxy-server"; ConfigPath := "/etc/tproxy-server/config.json"; RelayAdminURL := "http://127.0.0.1:8081" |}.

Definition plan (quota : Z) : telemtPolicy :=
  {| DataQuotaBytes := quota; RateLimitUpBps := 0; RateLimitDownBps := 0; MaxUniqueIPs := 3; MaxTCPConns := 0;
     Expiration := Rfc3339.Format 1767225600; Enabled := true; AdTag := EmptyString |}.

Definition no_web_limits : Limits.WebProfileLimits := {| Limits.MaxSessions := 0; Limits.MaxStreams := 8; Limits.MaxStreamsPerSession := 0 |}.

Definition wish (n sec : string) (quota reset : Z) : telemtDesired :=
  {| name := n; secret := sec; policy := plan quota; webLimits := no_web_limits; quotaReset := reset |}.

Definition small : list telemtDesired := [wish "alice" "0123456789abcdef0123456789abcdef" 1000 100; wish "bob" "00000000000000000000000000000000" 0 0].
Definition large : list telemtDesired := [wish "alice" "0123456789abcdef0123456789abcdef" 5000 200; wish "bob" "00000000000000000000000000000000" 0 0].

Definition config0 : object := [("web", JObject [("vhosts", JArray [JObject [("host", JString "example.org")]])])]%string.

Definition world0 (h : accounts) (fs : list fate) : world :=
  {| now := 0; fs := ∅; events := []; out := {| users := h; conf := config0; fates := fs; seed := 1 |};
     instance := EmptyString; upd := None; maintenance := false |}.

(** The same world with other fates ahead. *)
Definition facing (fs' : list fate) (w : world) : world :=
  {| now := now w; fs := fs w; events := events w; out := {| users := users (out w); conf := conf (out w); fates := fs'; seed := seed (out w) |};
     instance := instance w; upd := upd w; maintenance := maintenance w |}.

Definition stranger : account := {| a_Secret := "ffffffffffffffffffffffffffffffff"; a_Policy := plan 7; a_Resets := 0 |}.

Definition attempt (desired : list telemtDesired) (w : world) : (telemtRollback * result (bool * bool)) * world :=
  reconcileTelemtUsers cfg None desired EmptyString no_rollback w.

Lemma well_formed_pair q r : 0 <= q -> Dec.min_int64 <= r <= Dec.max_int64 ->
  well_formed [wish "alice" "0123456789abcdef0123456789abcdef" q r; wish "bob" "00000000000000000000000000000000" 0 0].
Proof.
  intros Hq Hr. split.
  - by apply NoDup_cons; split; [set_solver|apply NoDup_singleton].
  - intros d Hd. repeat (apply elem_of_cons in Hd as [->|Hd]); [| |by apply elem_of_nil in Hd]; unfold unsigned; cbn; lia.
  - intros d Hd. repeat (apply elem_of_cons in Hd as [->|Hd]); [| |by apply elem_of_nil in Hd]; cbn; [done|]. unfold Dec.min_int64, Dec.max_int64. lia.
Qed.

(** What the users are after an attempt. *)
Definition holds (n : string) (w : world) : option (string * Z * Z) :=
  (fun a => (a_Secret a, DataQuotaBytes (a_Policy a), a_Resets a)) <$> users (out w) !! n.

Definition failed {A B} (r : (A * result B) * world) : bool := match r.1.2 with Err _ => true | Ok _ => false end.

(** The first attempt creates alice and loses the answer about bob, the second
    finds both, sets their secrets and removes the stranger. *)
Definition w1 : world := (attempt small (world0 {["eve"%string := stranger]} [Serve; Lose])).2.
Definition w2 : world := (attempt small w1).2.

Example two_attempts :
  failed (attempt small (world0 {["eve"%string := stranger]} [Serve; Lose])) = true /\
  failed (attempt small w1) = false /\
  holds "alice" w2 = Some ("0123456789abcdef0123456789abcdef"%string, 1000, 0) /\
  holds "bob" w2 = Some ("00000000000000000000000000000000"%string, 0, 0) /\ holds "eve" w2 = None.
Proof. vm_compute. done. Qed.

(** From there the period of alice moves on: her quota is reset, the patch of
    her limits is refused, and the next attempt patches without a reset. *)
Definition w3 : world := (attempt large (facing [Serve; Refuse] w2)).2.
Definition w4 : world := (attempt large w3).2.

Example one_reset :
  failed (attempt large (facing [Serve; Refuse] w2)) = true /\ failed (attempt large w3) = false /\
  holds "alice" w3 = Some ("0123456789abcdef0123456789abcdef"%string, 1000, 1) /\
  holds "alice" w4 = Some ("0123456789abcdef0123456789abcdef"%string, 5000, 1).
Proof. vm_compute. done. Qed.

(** An attempt that raised the quota of alice fails at another user; going
    back to the old desired users then changes nothing and succeeds, and alice
    keeps the higher quota: the record still holds the hash of the old one. *)
Definition raised : list telemtDesired :=
  [wish "alice" "0123456789abcdef0123456789abcdef" 5000 100; wish "carol" "11111111111111111111111111111111" 0 0].
Definition w5 : world := (attempt raised (facing [Serve; Refuse] w2)).2.
Definition w6 : world := (attempt small w5).2.

Example reverted_limits :
  failed (attempt raised (facing [Serve; Refuse] w2)) = true /\ (attempt small w5).1.2 = Ok (false, false) /\
  holds "alice" w2 = Some ("0123456789abcdef0123456789abcdef"%string, 1000, 0) /\
  holds "alice" w6 = Some ("0123456789abcdef0123456789abcdef"%string, 5000, 0).
Proof. vm_compute. done. Qed.

(** A period that goes back and forth: every step forward resets again, also
    one to a period that was reset before. *)
Definition weekly : list telemtDesired := [wish "alice" "0123456789abcdef0123456789abcdef" 1000 200].
Definition monthly : list telemtDesired := [wish "alice" "0123456789abcdef0123456789abcdef" 1000 100].
Definition w7 : world := (attempt weekly (attempt monthly (attempt weekly w2).2).2).2.

Example back_and_forth : holds "alice" w7 = Some ("0123456789abcdef0123456789abcdef"%string, 1000, 2).
Proof. vm_compute. done. Qed.

(** ** Witnesses *)

Lemma attempt_ok desired w b : (attempt desired w).1.2 = Ok b ->
  reconcileTelemtUsers cfg None desired EmptyString no_rollback w = (((attempt desired w).1.1, Ok b), (attempt desired w).2).
Proof. unfold attempt. intros <-. by destruct (reconcileTelemtUsers _ _ _ _ _ _) as [[]]. Qed.

Lemma attempt_any desired w :
  reconcileTelemtUsers cfg None desired EmptyString no_rollback w = (((attempt desired w).1.1, (attempt desired w).1.2), (attempt desired w).2).
Proof. unfold attempt. by destruct (reconcileTelemtUsers _ _ _ _ _ _) as [[]]. Qed.

Definition w0 : world := world0 {["eve"%string := stranger]} [Serve; Lose].

Lemma small_formed : well_formed small.
Proof. apply well_formed_pair; unfold Dec.min_int64, Dec.max_int64; lia. Qed.
Lemma large_formed : well_formed large.
Proof. apply well_formed_pair; unfold Dec.min_int64, Dec.max_int64; lia. Qed.

Lemma nothing_recorded : recorded cfg (fs w0) = no_state.
Proof. done. Qed.

Lemma retry_converges_witness : forallb (fun d => bool_decide (is_Some (users (out w2) !! name d))) small = true /\
  ((forall d, d ∈ small -> exists a, acc w2 !! name d = Some a /\ serves d a) /\
   exists c rev, asked GetConfig (eq (c, rev)) w1 w2 /\
    forall n, n ∉ name <$> small -> acc w2 !! n = if bool_decide (n ∈ other_users c EmptyString) then acc w1 !! n else None).
Proof.
  split; [by vm_compute|].
  assert (E : (attempt small w1).1.2 = Ok (true, true)) by (vm_compute; reflexivity).
  refine (retry_converges cfg None small EmptyString no_rollback w0 w1 _ _ w2 small_formed _ _ (attempt_ok _ _ _ E)).
  - rewrite nothing_recorded. apply no_state_trusted.
  - exact (attempts_one _ _ _ _ _ _ _ _ _ _ (attempts_none _ _ _) (attempt_any small w0)).
Defined.

Definition w2' : world := (attempt small (facing [] w0)).2.

Lemma record_stays_truthful_witness : truthful (recorded cfg (fs w0)) (acc w0) /\
  (truthful (recorded cfg (fs w2')) (acc w2') \/ (true = true /\ same_hashes (recorded cfg (fs w2')) (recorded cfg (fs w0)))).
Proof.
  assert (Ht : truthful (recorded cfg (fs w0)) (acc w0)) by (rewrite nothing_recorded; apply no_state_truthful).
  split; [exact Ht|].
  assert (E : (attempt small (facing [] w0)).1.2 = Ok (true, true)) by (vm_compute; reflexivity).
  exact (record_stays_truthful cfg None small EmptyString no_rollback (facing [] w0) _ _ _ small_formed Ht (attempt_ok _ _ _ E)).
Defined.

Lemma facing_resets n l w : resets n (facing l w) = resets n w.
Proof. done. Qed.
Lemma facing_recorded l w : recorded cfg (fs (facing l w)) = recorded cfg (fs w).
Proof. done. Qed.

Lemma large_wants : wants "alice" 200 large.
Proof. intros d Hd Hn. repeat (apply elem_of_cons in Hd as [->|Hd]); [done|done|by apply elem_of_nil in Hd]. Qed.

Lemma not_interrupted n e : Str.has_prefix e ("reset quota of user " +:+ n +:+ ": ") = false ->
  Str.has_prefix e ("record quota reset of user " +:+ n +:+ ": ") = false -> ~ interrupted n (Err e : result (bool * bool)).
Proof.
  assert (P : forall p x, Str.has_prefix (p +:+ x) p = true) by (intros; apply Str.has_prefix_append).
  intros H1 H2 (x & [[= E]|[= E]]); rewrite E in *.
  - specialize (P ("reset quota of user " +:+ n +:+ ": ") x). rewrite <- !Str.append_assoc in *. congruence.
  - specialize (P ("record quota reset of user " +:+ n +:+ ": ") x). rewrite <- !Str.append_assoc in *. congruence.
Qed.

Lemma not_interrupted_Ok n (b : bool * bool) : ~ interrupted n (Ok b).
Proof. by intros (x & [?|?]). Qed.

Lemma quota_reset_once_witness : resets "alice" w4 = 1%nat /\ (resets "alice" w4 <= resets "alice" w2 + 1 + 0)%nat.
Proof.
  split; [by vm_compute|].
  assert (E3 : exists e, (attempt large (facing [Serve; Refuse] w2)).1.2 = Err e /\ ~ interrupted "alice" (Err e : result (bool * bool))).
  { eexists. split; [vm_compute; reflexivity|]. by apply not_interrupted. }
  assert (E4 : (attempt large w3).1.2 = Ok (true, false)) by (vm_compute; reflexivity).
  assert (P0 : period cfg "alice" 200 w2 0 (facing [Serve; Refuse] w2)).
  { exact (period_other cfg _ _ _ _ w2 _ (period_none cfg _ _ w2) (facing_resets _ _ w2) (facing_recorded _ w2)). }
  assert (P3 : period cfg "alice" 200 w2 0 w3).
  { refine (period_apply cfg _ _ _ _ _ _ _ _ _ _ _ _ P0 large_formed large_wants (attempt_any large (facing [Serve; Refuse] w2)) _).
    destruct E3 as (e & E & Hn). rewrite E. exact Hn. }
  refine (quota_reset_once cfg "alice" 200 w2 0 w4 _).
  exact (period_apply cfg _ _ _ _ _ _ _ _ _ _ _ _ P3 large_formed large_wants (attempt_ok _ _ _ E4) (not_interrupted_Ok _ _)).
Defined.

End NodeSim.
