(* ===== verification/Recovery.v ===== *)
(** * Automatic recovery on a node

    internal/agent/recovery.go: the tick that restarts telemt or moves its
    traffic to the reserve route, within the limits of the node's policy; the
    change of the policy and of the route by the panel; the state kept on disk.

    The state the handler keeps under [recoveryMu] is [RecoveryState], passed
    explicitly.  Its JSON text, and that of a policy sent by the panel, are the
    class [RecoveryCodec].  A probe of a route is one question per dialled
    data center. *)

From S2P Require Import Prelude Crypto TelemtTypes Capabilities Node NodeLogic AgentFiles Upgrade TelemtClient UpdateState UpdateJournal TelemtUpdate UpdateSpecs Reliability.

Record RecoveryState := {
  recoveryPolicy : Policy;
  activeEgress : string;
  recoveryEvents : list ReliabilityEvent;
  recoveryLast : Z;
  recoveryFailures : Z
}.

(** The JSON package: what it wrote it reads back, for the fields the struct
    [recoveryState] has (the texts are valid UTF-8); [recoveryFailures] is not
    one of them. *)
Class RecoveryCodec := {
  marshal_recovery : RecoveryState -> result string;
  unmarshal_recovery : string -> result (Policy * string * list ReliabilityEvent * Z);
  unmarshal_policy : string -> result Policy;
  unmarshal_marshal_recovery : forall h s, marshal_recovery h = Ok s ->
    unmarshal_recovery s = Ok (recoveryPolicy h, activeEgress h, recoveryEvents h, recoveryLast h)
}.

Definition with_failures (h : RecoveryState) (n : Z) : RecoveryState :=
  {| recoveryPolicy := recoveryPolicy h; activeEgress := activeEgress h; recoveryEvents := recoveryEvents h;
     recoveryLast := recoveryLast h; recoveryFailures := n |}.
Definition with_active (h : RecoveryState) (a : string) : RecoveryState :=
  {| recoveryPolicy := recoveryPolicy h; activeEgress := a; recoveryEvents := recoveryEvents h;
     recoveryLast := recoveryLast h; recoveryFailures := recoveryFailures h |}.
Definition with_policy (h : RecoveryState) (p : Policy) : RecoveryState :=
  {| recoveryPolicy := p; activeEgress := activeEgress h; recoveryEvents := recoveryEvents h;
     recoveryLast := recoveryLast h; recoveryFailures := recoveryFailures h |}.

(** Append to the log, of which the last fifty events are kept. *)
Definition log_event (l : list ReliabilityEvent) (ev : ReliabilityEvent) : list ReliabilityEvent :=
  let l := l ++ [ev] in if (50 <? length l)%nat then drop (length l - 50) l else l.

Definition with_event (h : RecoveryState) (ev : ReliabilityEvent) : RecoveryState :=
  {| recoveryPolicy := recoveryPolicy h; activeEgress := activeEgress h; recoveryEvents := log_event (recoveryEvents h) ev;
     recoveryLast := recoveryLast h; recoveryFailures := recoveryFailures h |}.

(** An attempt at the instant [t]. *)
Definition attempt (t : Z) : ReliabilityEvent := {| ev_At := t; Action := "attempt"; Result := "confirmed repeated failure" |}.

Definition with_attempt (h : RecoveryState) (t : Z) : RecoveryState :=
  with_event {| recoveryPolicy := recoveryPolicy h; activeEgress := activeEgress h; recoveryEvents := recoveryEvents h;
                recoveryLast := t; recoveryFailures := recoveryFailures h |} (attempt t).

(** Whether a scope restricts an upstream. *)
Definition hasScope (value : option json) : bool :=
  match value with
  | Some (JString v) => negb (String.eqb v EmptyString)
  | Some (JArray v) => negb (match v with [] => true | _ => false end)
  | None | Some JNull => false
  | Some _ => true
  end.

(** The upstreams a route change keeps. *)
Definition scoped (item : json) : bool :=
  match as_object (Some item) with Some m => hasScope (member m "scopes") | None => false end.

Definition route_to (addr : string) : json :=
  JObject (if String.eqb addr EmptyString
           then [("type", JString "direct"); ("weight", JNumber "1"); ("enabled", JBool true)]
           else [("type", JString "socks5"); ("weight", JNumber "1"); ("enabled", JBool true); ("address", JString addr)])%string.

Definition next_upstreams (old : option json) (addr : string) : list json :=
  match as_array old with Some items => List.filter scoped items | None => [] end ++ [route_to addr].

(** [if old == nil { old = []any{} }] *)
Definition or_empty (old : option json) : json :=
  match old with None | Some JNull => JArray [] | Some v => v end.

(** Attempts younger than an hour. *)
Definition recent_attempts (now : Z) (l : list ReliabilityEvent) : Z :=
  Z.of_nat (length (List.filter (fun ev => String.eqb (Action ev) "attempt" && (Tm.sub now (ev_At ev) <? Tm.hour)) l)).

(** Whether the limits of the policy hold an action back at the instant [t]. *)
Definition held_back (h : RecoveryState) (p : Policy) (t : Z) : bool :=
  (recoveryFailures h <? FailureThreshold p) ||
  (Tm.sub t (recoveryLast h) <? CooldownSeconds p * Tm.second) ||
  (recent_attempts t (recoveryEvents h) >=? MaxActionsHour p).

(** What the readiness of telemt says of the service: a restart cannot repair
    what telemt itself answered. *)
Definition service_failed (ready : ReadyData + apierror) : bool :=
  match ready with
  | inl _ => false
  | inr (APIError status _ _) => negb (status <? 500)
  | inr (Transport _) => true
  end.

(** Every upstream was checked recently and failed. *)
Definition route_failed (st : UpstreamsStats + apierror) : bool :=
  match st with
  | inr _ => false
  | inl st =>
      us_Enabled st && negb (match Upstreams st with [] => true | _ => false end) &&
      forallb (fun u => (LastCheckAgeSecs u <=? 120) && negb (us_Healthy u)) (Upstreams st)
  end.

Section Recovery.
Context `{Outside} `{JournalCodec} `{RecoveryCodec}.
Context (cfg : Config).
Local Open Scope go_scope.

Definition recoveryPath : string := Path.Join (StateDir cfg) "reliability.json".

Definition saveRecoveryLocked (h : RecoveryState) : M (result unit) :=
  match marshal_recovery h with
  | Err e => mret (Err e)
  | Ok b => try _ ← check (MkdirAll (StateDir cfg)); writeAtomic recoveryPath b 384
  end.

(** The state at start-up: what the disk holds, or an error that stops it. *)
Definition loadRecovery (h : RecoveryState) : M (result RecoveryState) :=
  try b ← read_file recoveryPath;
  mret (match b with
        | None => Ok h
        | Some b =>
            match unmarshal_recovery b with
            | Err e => Err e
            | Ok (p, active, evs, last) =>
                match Validate p with
                | Some e => Err e
                | None => Ok {| recoveryPolicy := p; activeEgress := active; recoveryEvents := evs;
                                recoveryLast := last; recoveryFailures := recoveryFailures h |}
                end
            end
        end).

Definition recoveryEvent (h : RecoveryState) (action res : string) : M RecoveryState :=
  t ← clock;
  let h := with_event h {| ev_At := t; Action := action; Result := res |} in
  _ ← ignore (saveRecoveryLocked h);
  mret h.

(** Dial two data centers over the route. *)
Definition probeEgress (addr : string) : M (result unit) :=
  a ← perform (Dial addr "149.154.175.50:443");
  match a with
  | Some e => mret (Err e)
  | None => b ← perform (Dial addr "149.154.167.51:443"); mret (match b with Some e => Err e | None => Ok tt end)
  end.

(** Put the previous upstreams back and restart telemt with them. *)
Definition restore_upstreams (old : option json) : M (result unit) :=
  t ← clock;
  let ctx := with_timeout None rollbackTimeout t in
  try _ ← textual (control ctx (PatchConfig [("upstreams"%string, or_empty old)] true));
  restartTelemt cfg ctx.

Definition middle_proxy (c : object) : bool :=
  match as_object (member c "general") with
  | Some general => match member general "use_middle_proxy" with Some (JBool b) => b | _ => false end
  | None => false
  end.

(** Send the new upstreams and wait until telemt serves them. *)
Definition apply_upstreams (ctx : context) (next : list json) : M (result unit) :=
  try out ← textual (control ctx (PatchConfig [("upstreams"%string, JArray next)] true));
  try _ ← (if RestartRequired out || ProcessRestartRequired out then restartTelemt cfg ctx else mret (Ok tt));
  waitTelemtReady cfg ctx.

Definition applyEgress (ctx : context) (addr : string) : M (result unit) :=
  try (c, _) ← textual (control ctx GetConfig);
  if middle_proxy c && negb (String.eqb addr EmptyString)
  then mret (Err "SOCKS/WARP egress conflicts with Middle Proxy; disable the sponsor tag first")
  else
    try _ ← wrapped (fun e => "candidate route cannot reach Telegram: " +:+ e) (probeEgress addr);
    let old := member c "upstreams" in
    r ← apply_upstreams ctx (next_upstreams old addr);
    match r with
    | Ok _ => mret (Ok tt)
    | Err e =>
        restored ← restore_upstreams old;
        mret (Err (default e (join_errors (Some e) (failure restored))))
    end.

(** ** The tick *)

Definition unitActive (svc : string) : M bool :=
  run ← perform (Exec ["systemctl"; "is-active"; svc]%string);
  mret (match run with (out, None) => String.eqb (Str.trim_space out) "active" | (_, Some _) => false end).

(** Whether the service or the route failed; [None] when the tick must not
    judge: maintenance, an open journal, a stopped unit, paused admission. *)
Definition observe (ctx : context) (p : Policy) : M (option (bool * bool)) :=
  if Maintenance p then mret None
  else
    j ← checkUpdateJournal cfg;
    match j with
    | Err _ => mret None
    | Ok _ =>
        up ← unitActive "telemt";
        if negb up then mret None
        else
          web ← WebStatus_ ctx;
          if (match web with
              | inl st => match OperatorLifecycle st with Some lc => negb (AdmissionOpen lc) | None => false end
              | inr _ => false
              end) then mret None
          else
            ready ← control ctx GetReady;
            t ← clock;
            if expired ctx t ||
               (match ready with inl rd => negb (Ready rd) && String.eqb (Reason rd) "admission_closed" | inr _ => false end)
            then mret None
            else
              route ← (if AutomaticFailover p then st ← control ctx GetUpstreams; mret (route_failed st) else mret false : M bool);
              mret (Some (service_failed ready, route))
    end.

(** What the tick does about it, once the attempt is on record. *)
Definition act (ctx : context) (p : Policy) (active : string) (service route : bool) (h : RecoveryState) : M (RecoveryState * option (result unit)) :=
  if route && AutomaticFailover p && negb (String.eqb active (ReserveSOCKSAddress p)) then
    r ← applyEgress ctx (ReserveSOCKSAddress p);
    mret (match r with Ok _ => with_active h (ReserveSOCKSAddress p) | Err _ => h end, Some r)
  else if service && String.eqb (Recovery p) "restart" then
    r ← restartTelemt cfg ctx; mret (h, Some r)
  else mret (h, None).

Definition tick_body (ctx : context) (h : RecoveryState) : M RecoveryState :=
  let p := recoveryPolicy h in
  seen ← observe ctx p;
  match seen with
  | None => mret h
  | Some (service, route) =>
      if negb service && negb route then mret (with_failures h 0)
      else
        let h := with_failures h (recoveryFailures h + 1) in
        t ← clock;
        if held_back h p t then mret h
        else if negb (String.eqb (Recovery p) "restart") && (negb route || negb (AutomaticFailover p)) then mret h
        else
          let h := with_attempt h t in
          saved ← saveRecoveryLocked h;
          match saved with
          | Err _ => mret h
          | Ok _ =>
              done ← act ctx p (activeEgress h) service route h;
              match done.2 with
              | None => mret done.1
              | Some r => recoveryEvent done.1 "result" (match r with Ok _ => "recovered" | Err e => "failed: " +:+ e end)
              end
          end
  end.

Definition recoveryTick (ctx : context) (h : RecoveryState) : M RecoveryState :=
  if negb (String.eqb (cfg_Engine cfg) EngineTelemt) then mret h
  else
    locked ← try_lock;
    if negb locked then mret h
    else
      h ← tick_body ctx h;
      _ ← set_maintenance false;
      mret h.

(** ** The policy from the panel *)

Definition desired_egress (p : Policy) : string :=
  if String.eqb (Egress p) "socks5" then SOCKSAddress p else Egress p.

Definition change_route (old p : Policy) (oldActive : string) (restorePrimary : bool) : bool :=
  negb (String.eqb (Egress p) "unmanaged") &&
  (negb (String.eqb (Egress p) (Egress old)) || negb (String.eqb (SOCKSAddress p) (SOCKSAddress old)) ||
   (restorePrimary && negb (String.eqb oldActive (desired_egress p)))).

Definition once (p : Policy) : Policy :=
  {| RestorePrimary := false; Recovery := Recovery p; Maintenance := Maintenance p; FailureThreshold := FailureThreshold p;
     CooldownSeconds := CooldownSeconds p; MaxActionsHour := MaxActionsHour p; Egress := Egress p; SOCKSAddress := SOCKSAddress p;
     ReserveSOCKSAddress := ReserveSOCKSAddress p; AutomaticFailover := AutomaticFailover p |}.

(** Adopt a valid policy: change the route if it asks for another one, then
    keep the policy; when it cannot be kept, the route goes back. *)
Definition adopt_policy (ctx : context) (h : RecoveryState) (p : Policy) (restorePrimary : bool) : M (RecoveryState * option error) :=
  let old := recoveryPolicy h in
  let oldActive := activeEgress h in
  let changeRoute := change_route old p oldActive restorePrimary in
  if String.eqb (Egress p) "unmanaged" && negb (String.eqb (Egress old) "unmanaged") && negb (String.eqb oldActive "direct")
  then mret (h, Some "restore the direct route before handing routing back to manual control"%string)
  else
    moved ← (if changeRoute then
               try (c, _) ← textual (control ctx GetConfig);
               try _ ← applyEgress ctx (if String.eqb (Egress p) "socks5" then SOCKSAddress p else EmptyString);
               mret (Ok (member c "upstreams"))
             else mret (Ok None) : M (result (option json)));
    match moved with
    | Err e => mret (h, Some e)
    | Ok previousUpstreams =>
        let new := with_policy h p in
        let new := if changeRoute || String.eqb (Egress p) "unmanaged" then with_active new (desired_egress p) else new in
        saved ← saveRecoveryLocked new;
        match saved with
        | Ok _ => mret (new, None)
        | Err e =>
            restored ← (if changeRoute then restore_upstreams previousUpstreams else mret (Ok tt));
            mret (h, join_errors (Some e) (failure restored))
        end
    end.

(** Under the maintenance lock; the answer is the state as text. *)
Definition configure_locked (ctx : context) (h : RecoveryState) (raw : string) : M (RecoveryState * result string) :=
  if String.eqb raw EmptyString then mret (h, marshal_recovery h)
  else
    j ← checkUpdateJournal cfg;
    match j with
    | Err e => mret (h, Err e)
    | Ok _ =>
        if negb (String.eqb (cfg_Engine cfg) EngineTelemt) then mret (h, Err "recovery and egress require telemt"%string)
        else match unmarshal_policy raw with
             | Err e => mret (h, Err e)
             | Ok p =>
                 match Validate p with
                 | Some e => mret (h, Err e)
                 | None =>
                     r ← adopt_policy ctx h (once p) (RestorePrimary p);
                     mret (match r.2 with
                           | Some e => (r.1, Err e)
                           | None => (r.1, marshal_recovery r.1)
                           end)
                 end
             end
    end.

Definition configureReliability (ctx : context) (h : RecoveryState) (raw : string) : M (RecoveryState * result string) :=
  locked ← try_lock;
  if negb locked then mret (h, Err "node maintenance is already in progress"%string)
  else
    r ← configure_locked ctx h raw;
    _ ← set_maintenance false;
    mret r.

End Recovery.
