(* ===== verification/RecoverySafety.v ===== *)
(** * The limits of automatic recovery

    For every behaviour of the outside: a tick of [Recovery] acts only within
    the limits of the node's policy, over any number of ticks the attempts
    keep their distance and their hourly bound though the log forgets, and a
    change of the policy either takes effect or leaves the node as it was. *)

From S2P Require Import Prelude Crypto TelemtTypes Capabilities Node NodeLogic AgentFiles Upgrade TelemtClient UpdateState UpdateJournal TelemtUpdate UpdateSpecs UpdateSafety Reliability Recovery.

(** ** The log *)

Section Log.

(** The times of the attempts of a log, newest first. *)
Definition is_attempt (ev : ReliabilityEvent) : bool := String.eqb (Action ev) "attempt".
Definition attempts (l : list ReliabilityEvent) : list Z := map ev_At (List.filter is_attempt (rev l)).

(** No two neighbours that are not attempts. *)
Fixpoint alternating (l : list ReliabilityEvent) : bool :=
  match l with
  | a :: l' => (is_attempt a || match l' with b :: _ => is_attempt b | [] => true end) && alternating l'
  | [] => true
  end.

Lemma attempts_app l l' : attempts (l ++ l') = attempts l' ++ attempts l.
Proof. unfold attempts. by rewrite rev_app_distr, List.filter_app, map_app. Qed.

Lemma attempts_one ev : attempts [ev] = if is_attempt ev then [ev_At ev] else [].
Proof. unfold attempts. cbn. by destruct (is_attempt ev). Qed.

Lemma attempts_cons ev l : attempts (ev :: l) = attempts l ++ attempts [ev].
Proof. apply (attempts_app [ev] l). Qed.

Lemma alternating_tail a l : alternating (a :: l) = true -> alternating l = true.
Proof. cbn. by intros [_ ?]%andb_true_iff. Qed.

(** Every second event of such a log is an attempt. *)
Lemma alternating_length l : alternating l = true -> (length l <= 2 * length (attempts l) + 1)%nat.
Proof.
  induction l as [l IH] using (induction_ltof1 _ (@length _)). unfold ltof in IH.
  destruct l as [|a [|b l]]; intros Ha; [cbn; lia|cbn [length]; lia|].
  pose proof (alternating_tail _ _ Ha) as Hb.
  rewrite attempts_cons, length_app, attempts_one. cbn [length].
  destruct (is_attempt a) eqn:Ea.
  - specialize (IH (b :: l)). cbn [length] in *. specialize (IH ltac:(lia) Hb). lia.
  - cbn in Ha. rewrite Ea in Ha. cbn in Ha. apply andb_true_iff in Ha as [Eb _].
    specialize (IH l). cbn [length] in IH. specialize (IH ltac:(lia) (alternating_tail _ _ Hb)).
    rewrite attempts_cons, length_app, attempts_one, Eb. cbn [length]. lia.
Qed.

Lemma alternating_snoc l ev :
  alternating l = true -> is_attempt ev = true \/ (exists a, last l = Some a /\ is_attempt a = true) ->
  alternating (l ++ [ev]) = true.
Proof.
  induction l as [|a l IH]; intros Ha Hev; [cbn; by rewrite orb_true_r|].
  pose proof (alternating_tail _ _ Ha) as Hl. destruct l as [|b l].
  - cbn. rewrite andb_true_r. destruct Hev as [Hev|(x & [= <-] & Hx)]; [rewrite Hev; apply andb_true_iff; by rewrite orb_true_r|by rewrite Hx, orb_true_r].
  - change ((a :: b :: l) ++ [ev]) with (a :: (b :: l) ++ [ev]). cbn [alternating app] in Ha |- *.
    apply andb_true_iff in Ha as [Hab _]. rewrite Hab. cbn [andb]. apply IH; [done|].
    destruct Hev as [?|(x & Hx & ?)]; [by left|right]. exists x. split; [|done]. done.
Qed.

(** The newest attempts survive the bound on the log: as long as it has been
    alternating, the six latest are never dropped. *)
Lemma log_event_spec l ev :
  (length l <= 50)%nat -> alternating (l ++ [ev]) = true ->
  (length (log_event l ev) <= 50)%nat /\ alternating (log_event l ev) = true /\
  last (log_event l ev) = Some ev /\ take 6 (attempts (log_event l ev)) = take 6 (attempts (l ++ [ev])).
Proof.
  intros Hl Ha. unfold log_event. rewrite length_app. cbn [length].
  destruct (Nat.ltb_spec 50 (length l + 1)) as [Hlt|Hge]; [|split_and!; [rewrite length_app; cbn; lia|done|by rewrite last_snoc|done]].
  replace (length l + 1 - 50)%nat with 1%nat by lia. destruct l as [|a l]; [cbn in Hlt; lia|].
  cbn [length] in *. change (drop 1 ((a :: l) ++ [ev])) with (l ++ [ev]).
  assert (Ht : alternating (l ++ [ev]) = true) by exact (alternating_tail _ _ Ha). change ((a :: l) ++ [ev]) with (a :: (l ++ [ev])).
  split_and!; [rewrite length_app; cbn; lia|exact Ht|by rewrite last_snoc|].
  rewrite attempts_cons, take_app_le; [done|].
  pose proof (alternating_length _ Ht) as Hn. rewrite length_app in Hn. cbn [length] in Hn. lia.
Qed.

End Log.

(** ** One tick *)

Section Tick.
Context `{Outside} `{JournalCodec} `{RecoveryCodec}.
Context (cfg : Config).
Local Open Scope go_scope.

Definition no_earlier (w w' : world) : Prop := now w <= now w'.

Lemma plain_no_earlier : plain no_earlier.
Proof.
  split; unfold no_earlier; try (intros; cbn; lia).
  - intros A e w. unfold perform. destruct (react _ _ _) as [[? ?] ?]. cbn. lia.
Qed.

Section Respects.
Context (R : world -> world -> Prop).
Hypothesis HR : plain R.

Lemma respects_control A ctx (c : call A) : respects R (control ctx c).
Proof. unfold control. respects. Qed.

Lemma respects_WebStatus ctx : respects R (WebStatus_ ctx).
Proof. pose proof respects_control. unfold WebStatus_. cbv zeta. respects. Qed.

Lemma respects_waitTelemtReady ctx : respects R (waitTelemtReady cfg ctx).
Proof.
  pose proof respects_control. unfold waitTelemtReady. apply respects_bind; [done|respects|]. intros t.
  apply respects_poll; [done|unfold ready_once; respects|respects].
Qed.

Lemma respects_restartTelemt ctx : respects R (restartTelemt cfg ctx).
Proof. pose proof respects_waitTelemtReady. unfold restartTelemt. respects. Qed.

Lemma respects_textual A (m : M (A + apierror)) : respects R m -> respects R (textual m).
Proof. intros. unfold textual. respects. Qed.

Lemma respects_applyEgress ctx addr : respects R (applyEgress cfg ctx addr).
Proof.
  pose proof respects_restartTelemt. pose proof respects_waitTelemtReady. pose proof respects_control. pose proof respects_textual.
  unfold applyEgress, probeEgress, apply_upstreams, restore_upstreams. cbv zeta. respects.
Qed.

Lemma respects_saveRecovery h : respects R (saveRecoveryLocked cfg h).
Proof. pose proof respects_writeAtomicAs. unfold saveRecoveryLocked, writeAtomic. respects. Qed.

Lemma respects_checkJournal : respects R (checkUpdateJournal cfg).
Proof. unfold checkUpdateJournal. respects. Qed.

Lemma respects_observe ctx p : respects R (observe cfg ctx p).
Proof.
  pose proof respects_checkJournal. pose proof respects_control. pose proof respects_WebStatus. unfold observe, unitActive. respects.
Qed.

Lemma respects_act ctx p a s r h : respects R (act cfg ctx p a s r h).
Proof. pose proof respects_applyEgress. pose proof respects_restartTelemt. unfold act. respects. Qed.

Lemma respects_recoveryEvent h a r : respects R (recoveryEvent cfg h a r).
Proof. pose proof respects_saveRecovery. unfold recoveryEvent. cbv zeta. respects. Qed.

End Respects.

Lemma run_respects R A (m : M A) w a w' : respects R m -> m w = (a, w') -> R w w'.
Proof. intros Hm Hr. specialize (Hm w). by rewrite Hr in Hm. Qed.

(** A tick left the log, or put one attempt on it within the limits, followed
    by at most its result. *)
Inductive tick_log (h h' : RecoveryState) (t0 t1 : Z) : Prop :=
| tick_quiet : recoveryEvents h' = recoveryEvents h -> recoveryLast h' = recoveryLast h -> tick_log h h' t0 t1
| tick_attempt t n : t0 <= t <= t1 -> held_back (with_failures h n) (recoveryPolicy h) t = false -> recoveryLast h' = t ->
    (recoveryEvents h' = log_event (recoveryEvents h) (attempt t) \/
     exists t' res, recoveryEvents h' =
       log_event (log_event (recoveryEvents h) (attempt t)) {| ev_At := t'; Action := "result"; Result := res |}) ->
    tick_log h h' t0 t1.

Lemma act_events ctx p a s r h w d w' : act cfg ctx p a s r h w = (d, w') ->
  recoveryPolicy d.1 = recoveryPolicy h /\ recoveryEvents d.1 = recoveryEvents h /\ recoveryLast d.1 = recoveryLast h.
Proof.
  unfold act. destruct (_ && _); [|destruct (_ && _)].
  - intros (x & w1 & _ & [<- _]%ret_inv)%bind_inv. by destruct x.
  - by intros (x & w1 & _ & [<- _]%ret_inv)%bind_inv.
  - by intros [<- _]%ret_inv.
Qed.

Lemma tick_body_cases ctx h w h' w' : tick_body cfg ctx h w = (h', w') ->
  tick_log h h' (now w) (now w') /\ recoveryPolicy h' = recoveryPolicy h /\ now w <= now w'.
Proof.
  pose proof plain_no_earlier as HR. unfold tick_body. cbv zeta.
  intros (seen & w1 & Ho & Hr)%bind_inv. apply (run_respects no_earlier) in Ho; [|by apply respects_observe].
  unfold no_earlier in Ho. destruct seen as [[service route]|]; [|apply ret_inv in Hr as [<- <-]; split_and!; [by constructor|done|done]].
  destruct (negb service && negb route); [apply ret_inv in Hr as [<- <-]; split_and!; [by constructor|done|done]|].
  apply bind_inv in Hr as (t & w2 & [-> <-]%clock_inv & Hr).
  destruct (held_back _ _ _) eqn:Eh; [apply ret_inv in Hr as [<- <-]; split_and!; [by constructor|done|done]|].
  destruct (negb _ && _); [apply ret_inv in Hr as [<- <-]; split_and!; [by constructor|done|done]|].
  apply bind_inv in Hr as (saved & w2 & Hs & Hr). apply (run_respects no_earlier) in Hs; [|by apply respects_saveRecovery].
  unfold no_earlier in Hs.
  destruct saved as [u|e].
  2: { apply ret_inv in Hr as [<- <-]. split_and!; [|done|lia]. eapply (tick_attempt _ _ _ _ (now w1)); [lia|exact Eh|done|by left]. }
  apply bind_inv in Hr as (d & w3 & Ha & Hr). pose proof (act_events _ _ _ _ _ _ _ _ _ Ha) as (Hp & He & Hl).
  apply (run_respects no_earlier) in Ha; [|by apply respects_act]. unfold no_earlier in Ha.
  destruct d.2 as [r|].
  - pose proof Hr as Hr'. apply (run_respects no_earlier) in Hr'; [|by apply respects_recoveryEvent]. unfold no_earlier in Hr'.
    unfold recoveryEvent in Hr. cbv zeta in Hr. apply bind_inv in Hr as (t & w4 & [-> <-]%clock_inv & Hr).
    apply bind_inv in Hr as (x & w4 & _ & [<- <-]%ret_inv). split_and!; [|done|lia].
    eapply (tick_attempt _ _ _ _ (now w1)); [lia|exact Eh|done|]. right. eexists _, _. cbn. by rewrite He.
  - apply ret_inv in Hr as [<- <-]. split_and!; [|done|lia].
    eapply (tick_attempt _ _ _ _ (now w1)); [lia|exact Eh|done|]. left. by rewrite He.
Qed.

Lemma recoveryTick_cases ctx h w h' w' : recoveryTick cfg ctx h w = (h', w') ->
  tick_log h h' (now w) (now w') /\ recoveryPolicy h' = recoveryPolicy h /\ now w <= now w'.
Proof.
  unfold recoveryTick. destruct (negb _); [intros [<- <-]%ret_inv; split_and!; [by constructor|done|done]|].
  intros (lk & w1 & Hl & Hr)%bind_inv. unfold try_lock in Hl.
  destruct (maintenance w); injection Hl as <- <-; cbn [negb] in Hr; [apply ret_inv in Hr as [<- <-]; split_and!; [by constructor|done|done]|].
  apply bind_inv in Hr as (h1 & w2 & Hb & Hr). apply bind_inv in Hr as (u & w3 & [= _ <-] & [<- <-]%ret_inv).
  apply tick_body_cases in Hb. exact Hb.
Qed.

End Tick.

(** ** Any number of ticks *)

Section Pace.
Context (p : Policy).
Local Open Scope Z_scope.

(** [u] is less than an hour before [t]. *)
Definition within_hour (t u : Z) : bool := t - u <? Tm.hour.

(** Attempts, newest first, that keep the cooldown of the policy and its bound
    on the attempts of any hour. *)
Inductive paced : list Z -> Prop :=
| paced_nil : paced []
| paced_cons t l : paced l ->
    (forall u, head l = Some u -> CooldownSeconds p * Tm.second <= t - u) ->
    Z.of_nat (length (List.filter (within_hour t) l)) < MaxActionsHour p ->
    paced (t :: l).

Hypothesis valid : 60 <= CooldownSeconds p <= 86400 /\ MaxActionsHour p <= 6.

Lemma paced_sorted t l : paced (t :: l) -> Forall (fun u => u <= t) l.
Proof.
  revert t. induction l as [|u l IH]; intros t Hp; [constructor|]. inversion Hp as [|? ? Hl Hc _]; subst.
  specialize (Hc u eq_refl). assert (0 <= CooldownSeconds p * Tm.second) by (pose proof valid; time_lia).
  constructor; [lia|]. eapply Forall_impl; [by apply IH|]. cbn. lia.
Qed.

Lemma filter_length_mono (f g : Z -> bool) l :
  (forall v, f v = true -> g v = true) -> (length (List.filter f l) <= length (List.filter g l))%nat.
Proof.
  intros Hfg. induction l as [|v l IH]; [done|]. cbn. specialize (Hfg v).
  destruct (f v); [rewrite Hfg by done; cbn; lia|destruct (g v); cbn; lia].
Qed.

Lemma take_fewer (l k : list Z) : take 6 l = take 6 k -> take 5 l = take 5 k.
Proof.
  intros E. transitivity (take 5 (take 6 l)); [by rewrite take_take|]. by rewrite E, take_take.
Qed.

(** At a later instant no more attempts are recent than the bound. *)
Lemma paced_recent l t : paced l -> (forall u, head l = Some u -> u <= t) ->
  (length (List.filter (within_hour t) l) <= 6)%nat.
Proof.
  intros Hp Ht. destruct l as [|u l]; [cbn; lia|]. specialize (Ht u eq_refl). inversion Hp as [|? ? _ _ Hn]; subst.
  assert (Hle : (length (List.filter (within_hour t) l) <= length (List.filter (within_hour u) l))%nat).
  { apply filter_length_mono. unfold within_hour. intros v Hv. bprop. apply Z.ltb_lt. lia. }
  pose proof valid as [_ Hm]. cbn [List.filter]. destruct (within_hour t u); cbn [length]; lia.
Qed.

(** The recent attempts are among the six latest. *)
Lemma recent_in_six l t : paced l -> (forall u, head l = Some u -> u <= t) ->
  (length (List.filter (within_hour t) l) <= length (List.filter (within_hour t) (take 6 l)))%nat.
Proof.
  intros Hp Ht. pose proof (paced_recent l t Hp Ht) as Hn. rewrite <- (take_drop 6 l) in Hn at 1 |- * at 1.
  rewrite List.filter_app, length_app in *.
  destruct (List.filter (within_hour t) (drop 6 l)) as [|v r] eqn:E; [cbn; lia|exfalso].
  assert (Hv : In v (drop 6 l) /\ within_hour t v = true) by (apply filter_In; rewrite E; by left). destruct Hv as [Hv Hr].
  assert (Hlen : length (take 6 l) = 6%nat).
  { rewrite length_take. destruct (Nat.le_gt_cases 6 (length l)); [lia|]. rewrite drop_ge in Hv by lia. by destruct Hv. }
  assert (Hall : forall l', paced l' -> forall k x y, In x (take k l') -> In y (drop k l') -> y <= x).
  { clear - valid. intros l' Hp'. induction Hp' as [|a l' Hl IH Hc Hn]; intros k x y Hx Hy; [by destruct k|].
    destruct k as [|k]; [done|]. cbn in Hx, Hy. destruct Hx as [<-|Hx]; [|by eapply IH].
    pose proof (paced_sorted a l' ltac:(by constructor)) as Hs. rewrite Forall_forall in Hs. apply Hs.
    apply list_elem_of_In. rewrite <- (take_drop k l'). apply in_or_app. by right. }
  assert (Hf : List.filter (within_hour t) (take 6 l) = take 6 l).
  { apply forallb_filter_id, forallb_forall. intros x Hx. specialize (Hall l Hp 6%nat x v Hx Hv). unfold within_hour in *. bprop. apply Z.ltb_lt. lia. }
  rewrite Hf, Hlen in Hn. cbn in Hn. lia.
Qed.

Lemma recent_attempts_count t l :
  recent_attempts t l = Z.of_nat (length (List.filter (within_hour t) (attempts l))).
Proof.
  unfold recent_attempts. f_equal. induction l as [|ev l IH]; [done|].
  rewrite attempts_cons, List.filter_app, length_app, <- IH, attempts_one, Nat.add_comm. cbn [List.filter]. fold (is_attempt ev).
  rewrite Tm.sub_ltb by (unfold Dec.min_int64, Dec.max_int64; time_lia).
  destruct (is_attempt ev); cbn [andb]; [|done]. cbn [List.filter]. fold (within_hour t (ev_At ev)). by destruct (within_hour t (ev_At ev)).
Qed.

End Pace.

Section Ticks.
Context `{Outside} `{JournalCodec} `{RecoveryCodec}.
Context (cfg : Config) (p : Policy).

(** The states reached by ticks under the policy [p], whatever happens outside
    in between, with the attempts made, newest first. *)
Inductive ticks : RecoveryState -> world -> list Z -> Prop :=
| ticks_start h w : recoveryPolicy h = p -> attempts (recoveryEvents h) = [] -> (length (recoveryEvents h) <= 1)%nat -> ticks h w []
| ticks_wait h w w' l : ticks h w l -> now w <= now w' -> ticks h w' l
| ticks_tick ctx h w h' w' l : ticks h w l -> recoveryTick cfg ctx h w = (h', w') ->
    ticks h' w' (if recoveryLast h' =? recoveryLast h then l else recoveryLast h' :: l).

Record log_inv (h : RecoveryState) (w : world) (l : list Z) : Prop := {
  li_policy : recoveryPolicy h = p;
  li_length : (length (recoveryEvents h) <= 50)%nat;
  li_alternating : alternating (recoveryEvents h) = true;
  li_latest : take 6 l = take 6 (attempts (recoveryEvents h));
  li_paced : paced p l;
  li_last : forall u, head l = Some u -> u = recoveryLast h /\ u <= now w
}.

Hypothesis valid : Validate p = None.

Lemma valid_limits : 60 <= CooldownSeconds p <= 86400 /\ MaxActionsHour p <= 6.
Proof. unfold Validate in valid. checks. bprop. lia. Qed.

(** An attempt the limits let through extends a paced list. *)
Lemma allowed_paced h w l t n : log_inv h w l -> now w <= t -> held_back (with_failures h n) (recoveryPolicy h) t = false ->
  paced p (t :: l) /\ recoveryLast h <> t.
Proof.
  intros [Hp _ _ Hlat Hpa Hla] Ht Hh. pose proof valid_limits as Hv. rewrite Hp in Hh. unfold held_back in Hh. cbn in Hh.
  apply orb_false_iff in Hh as [[_ Hc]%orb_false_iff Hm].
  rewrite Tm.sub_ltb in Hc by (unfold Dec.min_int64, Dec.max_int64; time_lia). rewrite recent_attempts_count in Hm. bprop.
  assert (Hhd : forall u, head l = Some u -> u <= t) by (intros u Hu; destruct (Hla u Hu); lia).
  split; [|intros E; rewrite E in Hc; time_lia]. constructor; [done| |].
  - intros u Hu. destruct (Hla u Hu) as [-> _]. lia.
  - pose proof (recent_in_six p Hv l t Hpa Hhd) as Hs. rewrite Hlat in Hs.
    assert (Hle : (length (List.filter (within_hour t) (take 6 (attempts (recoveryEvents h)))) <=
                   length (List.filter (within_hour t) (attempts (recoveryEvents h))))%nat).
    { rewrite <- (take_drop 6 (attempts (recoveryEvents h))) at 2. rewrite List.filter_app, length_app. lia. }
    lia.
Qed.

Lemma log_inv_tick ctx h w h' w' l : log_inv h w l -> recoveryTick cfg ctx h w = (h', w') ->
  log_inv h' w' (if recoveryLast h' =? recoveryLast h then l else recoveryLast h' :: l).
Proof.
  intros HI Hr. apply recoveryTick_cases in Hr as (Hlog & Hp' & Hnow).
  destruct Hlog as [He Hl|t n Ht Hh Hl Hev].
  { rewrite Hl, Z.eqb_refl. destruct HI as [Hp Hlen Halt Hlat Hpa Hla].
    split; rewrite ?He, ?Hl; try done; [congruence|]. intros u Hu. destruct (Hla u Hu). split; [done|lia]. }
  destruct (allowed_paced _ _ _ t n HI ltac:(lia) Hh) as [Hpaced Hne].
  rewrite Hl. destruct (Z.eqb_spec t (recoveryLast h)) as [E|_]; [congruence|].
  destruct HI as [Hp Hlen Halt Hlat Hpa Hla].
  pose proof (alternating_snoc _ (attempt t) Halt (or_introl eq_refl)) as Halt1.
  destruct (log_event_spec _ _ Hlen Halt1) as (Hlen1 & Halt1' & Hlast1 & Htake1).
  assert (Htake : take 6 (t :: l) = take 6 (attempts (log_event (recoveryEvents h) (attempt t)))).
  { rewrite Htake1, attempts_app, attempts_one. change (t :: take 5 l = t :: take 5 (attempts (recoveryEvents h))). f_equal. by apply take_fewer. }
  assert (Hhd : forall u, head (t :: l) = Some u -> u = recoveryLast h' /\ u <= now w') by (intros u [= <-]; split; [done|lia]).
  destruct Hev as [Hev|(t' & res & Hev)].
  - split; rewrite ?Hev; try done; congruence.
  - set (ev := {| ev_At := t'; Action := "result"; Result := res |}) in *.
    pose proof (alternating_snoc _ ev Halt1' (or_intror (ex_intro _ _ (conj Hlast1 eq_refl)))) as Halt2.
    destruct (log_event_spec _ _ Hlen1 Halt2) as (Hlen2 & Halt2' & _ & Htake2).
    split; rewrite ?Hev; try done; [congruence|]. rewrite Htake2, attempts_app, attempts_one. cbn. exact Htake.
Qed.

(** C19: recovery keeps its pace: over any number of ticks, whatever telemt and
    the network do in between, two attempts are never closer than the cooldown
    of the policy, and an hour never holds more attempts than the policy allows,
    although the log that is counted forgets all but fifty events. *)
Theorem recovery_paced h w l : ticks h w l -> paced p l.
Proof.
  intros Hr. enough (log_inv h w l) as [] by done.
  induction Hr as [h w Hp Ha Hlen|h w w' l _ IH Hw|ctx h w h' w' l _ IH Ht].
  - split; try done; [lia| |by rewrite Ha|constructor].
    destruct (recoveryEvents h) as [|ev [|? ?]]; cbn in *; [done|by rewrite orb_true_r|lia].
  - destruct IH as [? ? ? ? ? Hla]. split; try done. intros u Hu. destruct (Hla u Hu). split; [done|lia].
  - by eapply log_inv_tick.
Qed.

End Ticks.
