(* ===== verification/RecoveryEgress.v ===== *)
(** * Changing the egress route

    The routes telemt is given: [applyEgress] sends one set of upstreams that
    it probed first, or leaves the old one in force; [configureReliability]
    takes the whole policy or nothing of it; the tick writes its attempt down
    before it acts, and acts only where the policy lets it. *)

From S2P Require Import Prelude Crypto TelemtTypes Capabilities Node NodeLogic AgentFiles Upgrade TelemtClient UpdateState UpdateJournal TelemtUpdate UpdateSpecs UpdateSafety Reliability Recovery RecoverySafety.

(** ** What was sent *)

(** The configuration changes of a history, newest first. *)
Definition patch_of (ev : event) : option object :=
  match ev with
  | Wrote _ => None
  | Did e _ => match e with
               | Control c => match c with PatchConfig p _ => Some p | _ => None end
               | _ => None
               end
  end.

Definition patchless : questions := fun _ e =>
  match e with
  | Control c => match c with PatchConfig _ _ => False | _ => True end
  | _ => True
  end.

Lemma system_patchless : system_ok patchless.
Proof. by split. Qed.

#[export] Hint Resolve system_patchless : touches.

(** The change of the upstreams. *)
Definition upstreams (v : json) : object := [("upstreams"%string, v)].

Section Sends.
Context `{Outside}.
Local Open Scope go_scope.

Definition sends (w w' : world) (ps : list object) : Prop := exists l, history w w' l /\ omap patch_of l = ps.

Lemma sends_refl w : sends w w [].
Proof. by exists []. Qed.

Lemma sends_trans w w1 w' ps qs : sends w w1 ps -> sends w1 w' qs -> sends w w' (qs ++ ps).
Proof.
  intros (l & Hl & <-) (k & Hk & <-). exists (k ++ l). split; [by eapply history_trans|]. by rewrite omap_app.
Qed.

Lemma patchless_sends S A (m : M A) w a w' : touches S patchless m -> m w = (a, w') -> sends w w' [].
Proof.
  intros Hm Hr. destruct (Hm w) as (l & Hl & HF & _). rewrite Hr in Hl. exists l. split; [done|].
  clear Hl Hr. induction HF as [|ev l Hev _ IH]; [done|]. cbn. rewrite IH.
  destruct ev as [|B e b]; [done|]. destruct e; try done. cbn in *. by destruct c.
Qed.

(** A patch is sent once, unless the context was over already. *)
Lemma patch_sends ctx p b w r w' : textual (control ctx (PatchConfig p b)) w = (r, w') ->
  sends w w' [p] \/ (expired ctx (now w) = true /\ (exists e, r = Err e) /\ sends w w' []).
Proof.
  unfold textual, control. intros (x & w1 & Hc & Hr)%bind_inv. apply ret_inv in Hr as [<- <-].
  apply bind_inv in Hc as (t & w2 & [-> <-]%clock_inv & Hc).
  destruct (expired ctx (now w)) eqn:Ee.
  - apply ret_inv in Hc as [<- <-]. right. split_and!; [done|by eexists|apply sends_refl].
  - left. apply bind_inv in Hc as (y & w2 & Hp & Hc). apply bind_inv in Hc as (t & w3 & [-> <-]%clock_inv & Hc).
    apply ret_inv in Hc as [_ <-]. unfold perform in Hp. destruct (react _ _ _) as [[? ?] ?]. injection Hp as <- <-.
    eexists [_]. by split.
Qed.

(** telemt said its configuration is [c]. *)
Definition configured (c : object) (w w' : world) : Prop :=
  exists l rev, history w w' l /\ In (Did (Control GetConfig) (inl (c, rev))) l.

Lemma GetConfig_told ctx w c w' : textual (control ctx GetConfig) w = (Ok c, w') -> configured c.1 w w'.
Proof.
  unfold textual, control. intros (x & w1 & Hc & Hr)%bind_inv. apply ret_inv in Hr as [Hx <-].
  destruct x as [c'|]; [|done]. injection Hx as ->. apply bind_inv in Hc as (t & w2 & [-> <-]%clock_inv & Hc).
  destruct (expired ctx (now w)); [by apply ret_inv in Hc as [[=] _]|].
  apply bind_inv in Hc as (y & w2 & Hp & Hc). apply bind_inv in Hc as (t & w3 & [-> <-]%clock_inv & Hc).
  apply ret_inv in Hc as [Hy <-]. unfold perform in Hp. destruct (react _ _ _) as [[? ?] ?]. injection Hp as -> <-.
  destruct (expired ctx _); [done|]. subst y. exists [Did (Control GetConfig) (inl c)], c.2. split; [done|left; by destruct c].
Qed.

Lemma touches_GetConfig S ctx : touches S patchless (textual (control ctx GetConfig)).
Proof. by apply touches_textual, touches_control. Qed.

(** Two data centers answered over the route. *)
Definition reachable (addr : string) (w w' : world) : Prop :=
  exists l, history w w' l /\ In (Did (Dial addr "149.154.175.50:443") None) l /\ In (Did (Dial addr "149.154.167.51:443") None) l.

Lemma perform_history A (e : effect A) w a w' : perform e w = (a, w') -> history w w' [Did e a].
Proof. unfold perform. destruct (react _ _ _) as [[? ?] ?]. by intros [= -> <-]. Qed.

Lemma probeEgress_ok addr w u w' : probeEgress addr w = (Ok u, w') -> reachable addr w w'.
Proof.
  unfold probeEgress. intros (a & w1 & Ha%perform_history & Hr)%bind_inv. destruct a; [by apply ret_inv in Hr as [[=] _]|].
  apply bind_inv in Hr as (b & w2 & Hb%perform_history & Hr). apply ret_inv in Hr as [Hr <-]. destruct b; [done|].
  exists ([Did (Dial addr "149.154.167.51:443") None] ++ [Did (Dial addr "149.154.175.50:443") None]).
  split; [by eapply history_trans|]. cbn. tauto.
Qed.

Lemma sends_history w w' ps l : sends w w' ps -> history w w' l -> omap patch_of l = ps.
Proof. intros (k & Hk & <-) Hl. unfold history in *. rewrite Hk in Hl. apply app_inv_tail in Hl. by subst. Qed.

End Sends.

(** ** One change of the route *)

Section Egress.
Context `{Outside} (cfg : Config).
Local Open Scope go_scope.

Lemma quiet_restart ctx w r w' : restartTelemt cfg ctx w = (r, w') -> sends w w' [].
Proof.
  apply (patchless_sends nothing). unfold restartTelemt. apply touches_bind; [by apply touches_perform|]. intros [out [e|]]; [touches|].
  by apply touches_waitTelemtReady; [apply system_patchless|].
Qed.

Lemma quiet_ready ctx w r w' : waitTelemtReady cfg ctx w = (r, w') -> sends w w' [].
Proof. apply (patchless_sends nothing). by apply touches_waitTelemtReady; [apply system_patchless|]. Qed.

Lemma restore_sends old w r w' : restore_upstreams cfg old w = (r, w') -> sends w w' [upstreams (or_empty old)].
Proof.
  unfold restore_upstreams. intros (t & w1 & [-> <-]%clock_inv & Hr)%bind_inv. cbv zeta in Hr.
  apply try_inv in Hr as [(e & Hp & _)|(x & w1 & Hp & Hr)].
  - apply patch_sends in Hp as [Hp|(He & _)]; [exact Hp|]. cbn in He. bprop. unfold rollbackTimeout in He. time_lia.
  - apply quiet_restart in Hr. apply patch_sends in Hp as [Hp|(He & _)]; [exact (sends_trans _ _ _ _ _ Hp Hr)|].
    cbn in He. bprop. unfold rollbackTimeout in He. time_lia.
Qed.

(** A candidate is sent when it was accepted; otherwise it may have been. *)
Lemma apply_upstreams_sends ctx next w r w' : apply_upstreams cfg ctx next w = (r, w') ->
  exists ps, sends w w' ps /\ (ps = [upstreams (JArray next)] \/ (ps = [] /\ exists e, r = Err e)).
Proof.
  unfold apply_upstreams. intros [(e & Hp & ->)|(x & w1 & Hp & Hr)]%try_inv.
  - apply patch_sends in Hp as [Hp|(_ & _ & Hp)]; eexists; (split; [exact Hp|]); [by left|right; split; [done|by eexists]].
  - apply patch_sends in Hp as [Hp|(_ & [e [=]] & _)]. exists [upstreams (JArray next)]. split; [|by left].
    assert (Hq : forall w2 (v : result unit), (if RestartRequired x || ProcessRestartRequired x then restartTelemt cfg ctx else mret (Ok tt)) w1 = (v, w2) -> sends w1 w2 []).
    { intros w2 v. destruct (_ || _); [apply quiet_restart|]. intros [_ <-]%ret_inv. apply sends_refl. }
    apply try_inv in Hr as [(e & Hm & _)|(u & w2 & Hm & Hr)]; apply Hq in Hm.
    + exact (sends_trans _ _ _ _ _ Hp Hm).
    + apply quiet_ready in Hr. exact (sends_trans _ _ _ _ _ (sends_trans _ _ _ _ _ Hp Hm) Hr).
Qed.

(** The outcome of a change of the route to [addr]: the new upstreams, or
    none, or the old ones again. *)
Definition route_changed (addr : string) (c : object) (ok : bool) (ps : list object) : Prop :=
  let new := upstreams (JArray (next_upstreams (member c "upstreams") addr)) in
  let old := upstreams (or_empty (member c "upstreams")) in
  if ok then ps = [new] else ps = [old; new] \/ ps = [old].

Lemma egress_cases ctx addr w r w' : applyEgress cfg ctx addr w = (r, w') ->
  (sends w w' [] /\ exists e, r = Err e) \/
  exists c w1 w2 ps, configured c w w1 /\ reachable addr w1 w2 /\ sends w w2 [] /\ sends w2 w' ps /\
    route_changed addr c (match r with Ok _ => true | Err _ => false end) ps.
Proof.
  unfold applyEgress. intros [(e & Hc & ->)|([c rev] & w1 & Hc & Hr)]%try_inv;
    assert (S1 := patchless_sends _ _ _ _ _ _ (touches_GetConfig nothing ctx) Hc).
  { left. split; [done|by eexists]. }
  apply GetConfig_told in Hc; cbn [fst] in Hc. destruct (_ && _); [apply ret_inv in Hr as [<- <-]; left; split; [done|by eexists]|].
  assert (Tp : touches nothing patchless (wrapped (fun e => "candidate route cannot reach Telegram: " +:+ e) (probeEgress addr)))
    by (unfold probeEgress; touches).
  apply try_inv in Hr as [(e & Hp & ->)|([] & w2 & Hp & Hr)];
    pose proof (patchless_sends _ _ _ _ _ _ Tp Hp) as S2; assert (S02 := sends_trans _ _ _ _ _ S1 S2).
  { left. split; [done|by eexists]. }
  apply wrapped_ok, probeEgress_ok in Hp. cbv zeta in Hr. apply bind_inv in Hr as (v & w3 & Ha & Hr).
  apply apply_upstreams_sends in Ha as (ps & S3 & Hps). right. exists c, w1, w2. destruct v as [[]|e].
  - apply ret_inv in Hr as [<- <-]. exists ps. split_and!; [done..|]. by destruct Hps as [->|(_ & e & [=])].
  - apply bind_inv in Hr as (v & w4 & Hv & Hr). apply ret_inv in Hr as [<- <-]. apply restore_sends in Hv.
    eexists. split_and!; [done..|exact (sends_trans _ _ _ _ _ S3 Hv)|]. cbn. destruct Hps as [->|(-> & _)]; [by left|by right].
Qed.

(** C20: a change of the route is all or nothing: when it succeeds, telemt was
    sent one set of upstreams, that of its own configuration with the scoped
    routes kept and the new route last, and only after two data centers
    answered over that route; when it fails, nothing was sent, or what was sent
    last puts the old upstreams back.  No file of the node changes. *)
Theorem egress_all_or_nothing ctx addr w r w' : applyEgress cfg ctx addr w = (r, w') ->
  fs w' = fs w /\
  ((sends w w' [] /\ exists e, r = Err e) \/
  exists c w1 w2 ps, configured c w w1 /\ reachable addr w1 w2 /\ sends w w2 [] /\ sends w2 w' ps /\
    route_changed addr c (match r with Ok _ => true | Err _ => false end) ps).
Proof.
  intros Hr. split; [|by apply (egress_cases ctx)]. eapply nothing_fs; [|exact Hr].
  pose proof touches_restartTelemt. assert (forall c, touches nothing anything (waitTelemtReady cfg c)) by (intros; by apply touches_waitTelemtReady).
  assert (forall A c (x : call A), touches nothing anything (textual (control c x))) by (intros; by apply touches_textual, touches_control).
  unfold applyEgress, probeEgress, apply_upstreams, restore_upstreams. cbv zeta. touches.
Qed.

End Egress.
(** ** The policy *)

Section Policy.
Context `{Outside} `{JournalCodec} `{RecoveryCodec}.
Context (cfg : Config).
Local Open Scope go_scope.

Lemma recoveryPath_plain : no_slash (Path.Base (recoveryPath cfg)) /\ ~ is_temp (recoveryPath cfg).
Proof.
  assert (E : Path.Base (recoveryPath cfg) = "reliability.json") by by apply Path.Base_Join.
  split; [by rewrite E|]. intros [Hh _]. unfold is_hidden, Path.hidden in Hh. by rewrite E in Hh.
Qed.

Lemma touches_saveRecovery (S : paths) E h : system_ok E -> (forall p, or_path (recoveryPath cfg) p -> S p) ->
  touches S E (saveRecoveryLocked cfg h).
Proof.
  intros HE HS. destruct recoveryPath_plain. unfold saveRecoveryLocked.
  destruct (marshal_recovery h) as [s|e]; [|touches]. apply touches_try; [by apply touches_check|]. intros _.
  by apply touches_writeAtomic.
Qed.

(** A state that was saved is on disk as it is in memory. *)
Lemma saveRecovery_ok h w w' : saveRecoveryLocked cfg h w = (Ok tt, w') ->
  exists s, marshal_recovery h = Ok s /\ content (fs w') (recoveryPath cfg) = Some s.
Proof.
  unfold saveRecoveryLocked. destruct (marshal_recovery h) as [s|e]; [|by intros [=]]. destruct recoveryPath_plain as [Hp Ht].
  intros (u & w1 & _ & Hw)%try_ok. destruct (writeAtomicAs_spec anything system_anything _ _ _ _ _ _ _ Hp Ht Hw) as (_ & _ & Hok).
  destruct (Hok eq_refl) as (x & Hx & Hd & _). exists s. split; [done|]. unfold content. by rewrite Hx, <- Hd.
Qed.

Lemma save_sends h w r w' : saveRecoveryLocked cfg h w = (r, w') -> sends w w' [].
Proof. apply (patchless_sends (or_path (recoveryPath cfg))). by apply touches_saveRecovery; [apply system_patchless|]. Qed.

(** telemt was left alone, or the last thing it was told is the upstreams it
    had. *)
Definition route_kept (w w' : world) : Prop :=
  exists ps, sends w w' ps /\
    (ps = [] \/ exists c, configured c w w' /\ head ps = Some (upstreams (or_empty (member c "upstreams")))).

Lemma sends_later w w' ps : sends w w' ps -> later w w'.
Proof. intros (l & Hl & _). by exists l. Qed.

Lemma configured_mono c w w1 w2 w' : later w w1 -> configured c w1 w2 -> later w2 w' -> configured c w w'.
Proof.
  intros [l1 E1] (l & rev & Hl & Hin) [l2 E2]. exists (l2 ++ l ++ l1), rev. split.
  - eapply history_trans; [|exact E2]. by eapply history_trans.
  - apply in_or_app. right. apply in_or_app. by left.
Qed.

Lemma route_kept_after w w1 w' : sends w w1 [] -> route_kept w1 w' -> route_kept w w'.
Proof.
  intros S1 (ps & S2 & Hps). exists ps. split; [by rewrite <- (app_nil_r ps); exact (sends_trans _ _ _ _ _ S1 S2)|].
  destruct Hps as [->|(c & Hc & Hh)]; [by left|right; exists c]. split; [|done].
  exact (configured_mono _ _ _ _ _ (sends_later _ _ _ S1) Hc (ex_intro _ [] eq_refl)).
Qed.

Lemma route_kept_nothing w w' : sends w w' [] -> route_kept w w'.
Proof. intros S. exists []. split; [done|by left]. Qed.

Lemma applyEgress_failed ctx addr w e w' : applyEgress cfg ctx addr w = (Err e, w') -> route_kept w w'.
Proof.
  intros [(S & _)|(c & w1 & w2 & ps & Hc & (l & Hl & _) & S2 & S & Hps)]%egress_cases; [by apply route_kept_nothing|].
  exists ps. split; [by rewrite <- (app_nil_r ps); exact (sends_trans _ _ _ _ _ S2 S)|]. right. exists c. split.
  - apply (configured_mono _ _ w w1); [by exists []|done|]. destruct S as (k & Hk & _).
    exists (k ++ l). by eapply history_trans.
  - by destruct Hps as [->| ->].
Qed.

Lemma applyEgress_later ctx addr w r w' : applyEgress cfg ctx addr w = (r, w') -> exists ps, sends w w' ps.
Proof.
  intros [(S & _)|(c & w1 & w2 & ps & _ & _ & S2 & S & _)]%egress_cases; [by exists []|].
  eexists. exact (sends_trans _ _ _ _ _ S2 S).
Qed.

(** The part of a change before the policy is kept. *)
Lemma moved_cases ctx p (b : bool) w r w' :
  (if b then
     try (c, _) ← textual (control ctx GetConfig);
     try _ ← applyEgress cfg ctx (if String.eqb (Egress p) "socks5" then SOCKSAddress p else EmptyString);
     mret (Ok (member c "upstreams"))
   else mret (Ok None) : M (result (option json))) w = (r, w') ->
  match r with
  | Err _ => route_kept w w'
  | Ok old => if b then exists c ps, configured c w w' /\ old = member c "upstreams" /\ sends w w' ps else sends w w' []
  end.
Proof.
  destruct b; [|intros [<- <-]%ret_inv; apply sends_refl].
  intros [(e & Hc & ->)|([c rev] & w1 & Hc & Hr)]%try_inv;
    assert (S1 := patchless_sends _ _ _ _ _ _ (touches_GetConfig nothing ctx) Hc); [by apply route_kept_nothing|].
  apply GetConfig_told in Hc; cbn [fst] in Hc. apply try_inv in Hr as [(e & Ha & ->)|(u & w2 & Ha & Hr)].
  - eapply route_kept_after; [exact S1|by eapply applyEgress_failed].
  - apply ret_inv in Hr as [<- <-]. apply applyEgress_later in Ha as [ps S2]. exists c, (ps ++ []). split_and!; [|done|].
    + exact (configured_mono _ _ _ _ _ (ex_intro _ [] eq_refl) Hc (sends_later _ _ _ S2)).
    + exact (sends_trans _ _ _ _ _ S1 S2).
Qed.

Lemma adopt_policy_cases ctx h p b w h' r w' : adopt_policy cfg ctx h p b w = ((h', r), w') ->
  match r with
  | Some _ => h' = h /\ route_kept w w'
  | None => recoveryPolicy h' = p /\ recoveryEvents h' = recoveryEvents h /\
      exists s, marshal_recovery h' = Ok s /\ content (fs w') (recoveryPath cfg) = Some s
  end.
Proof.
  unfold adopt_policy. cbv zeta. destruct (_ && _).
  { intros [[= <- <-] <-]%ret_inv. split; [done|]. apply route_kept_nothing, sends_refl. }
  intros (moved & w1 & Hm%moved_cases & Hr)%bind_inv. destruct moved as [old|e].
  2: { apply ret_inv in Hr as [[= <- <-] <-]. by split. }
  apply bind_inv in Hr as (saved & w2 & Hs & Hr). pose proof (save_sends _ _ _ _ Hs) as S2. destruct saved as [[]|e].
  - apply ret_inv in Hr as [[= <- <-] <-]. apply saveRecovery_ok in Hs. split_and!; [..|exact Hs]; by destruct (_ || _).
  - apply bind_inv in Hr as (v & w3 & Hv & Hr). apply ret_inv in Hr as [[= <- <-] <-]. enough (h = h /\ route_kept w w3) by (cbn; by destruct (failure v)).
    split; [done|]. destruct (change_route _ _ _ _).
    + destruct Hm as (c & ps & Hc & -> & S1). apply restore_sends in Hv. eexists.
      split; [exact (sends_trans _ _ _ _ _ (sends_trans _ _ _ _ _ S1 S2) Hv)|]. right. exists c. split; [|done].
      apply (configured_mono _ _ w w1); [by exists []|done|]. exact (sends_later _ _ _ (sends_trans _ _ _ _ _ S2 Hv)).
    + apply ret_inv in Hv as [_ <-]. apply route_kept_nothing. exact (sends_trans _ _ _ _ _ Hm S2).
Qed.

Lemma lock_sends b w w' u : set_maintenance b w = (u, w') -> sends w w' [] /\ fs w' = fs w.
Proof. intros [= _ <-]. split; [by exists []|done]. Qed.

(** A change of the policy is all or nothing: when it succeeds, the policy
    in force is the one the panel sent, valid and without its one-shot request,
    and the file on disk is the state that was answered; when it fails, the
    state in memory is the old one and telemt was left alone or last told to
    use the upstreams it had. *)
Theorem policy_all_or_nothing ctx h raw w h' r w' :
  configureReliability cfg ctx h raw w = ((h', r), w') ->
  match r with
  | Err _ => h' = h /\ route_kept w w'
  | Ok s => marshal_recovery h' = Ok s /\ recoveryEvents h' = recoveryEvents h /\
      ((raw = EmptyString /\ h' = h) \/
       exists p, unmarshal_policy raw = Ok p /\ Validate p = None /\ recoveryPolicy h' = once p /\
         content (fs w') (recoveryPath cfg) = Some s)
  end.
Proof.
  unfold configureReliability. intros (lk & w1 & Hl & Hr)%bind_inv. unfold try_lock in Hl. destruct (maintenance w) eqn:Em.
  { injection Hl as <- <-. cbn in Hr. apply ret_inv in Hr as [[= <- <-] <-]. split; [done|]. apply route_kept_nothing, sends_refl. }
  injection Hl as <- <-. cbn [negb] in Hr. apply bind_inv in Hr as ([h1 r1] & w2 & Hc & Hr).
  apply bind_inv in Hr as (u & w3 & [S3 F3]%lock_sends & Hr). apply ret_inv in Hr as [[= <- <-] <-]. rewrite F3.
  match type of Hc with configure_locked _ _ _ _ ?v = _ => set (w1 := v) in * end.
  assert (S1 : sends w w1 []) by by exists [].
  assert (Hend : route_kept w1 w2 -> route_kept w w3).
  { intros (ps & S & Hps). apply (route_kept_after _ w1); [done|]. exists ([] ++ ps).
    split; [exact (sends_trans _ _ _ _ _ S S3)|]. destruct Hps as [->|(c & Hcf & Hh)]; [by left|right; exists c; split; [|done]].
    exact (configured_mono _ _ _ _ _ (ex_intro _ [] eq_refl) Hcf (sends_later _ _ _ S3)). }
  unfold configure_locked in Hc. destruct (String.eqb_spec raw EmptyString) as [->|Hraw].
  { apply ret_inv in Hc as [[= <- <-] <-]. destruct (marshal_recovery h); [by split_and!; [..|left]|].
    split; [done|]. apply Hend, route_kept_nothing, sends_refl. }
  apply bind_inv in Hc as (j & w4 & Hj & Hc).
  assert (S4 : sends w1 w4 []) by (eapply (patchless_sends nothing); [|exact Hj]; apply touches_checkUpdateJournal, system_patchless).
  assert (Hno : w4 = w2 -> route_kept w w3) by (intros <-; by apply Hend, route_kept_nothing).
  destruct j as [?|e]; [|apply ret_inv in Hc as [[= <- <-] ?]; auto].
  destruct (negb _); [apply ret_inv in Hc as [[= <- <-] ?]; auto|].
  destruct (unmarshal_policy raw) as [p|e] eqn:Ep; [|apply ret_inv in Hc as [[= <- <-] ?]; auto].
  destruct (Validate p) as [e|] eqn:Ev; [apply ret_inv in Hc as [[= <- <-] ?]; auto|].
  apply bind_inv in Hc as ([h2 o] & w5 & Ha & Hc). apply adopt_policy_cases in Ha. destruct o as [e|]; apply ret_inv in Hc as [[= <- <-] ->].
  - destruct Ha as [-> Ha]. split; [done|]. apply Hend. by eapply route_kept_after.
  - destruct Ha as (Hp & He & s & Hs & Hd). cbn. rewrite Hs. split_and!; [done|done|]. right. by exists p.
Qed.

End Policy.

(** ** What a tick does *)

Section TickOrder.
Context `{Outside} `{JournalCodec} `{RecoveryCodec}.
Context (cfg : Config).
Local Open Scope go_scope.

(** The questions of a tick that only looks. *)
Definition looking : questions := fun _ e =>
  match e with
  | Exec argv => argv = ["systemctl"; "is-active"; "telemt"]%string
  | Control c => read_only c = true
  | Get _ | Decoy | Dial _ _ | Fetch _ _ | Rewritten _ => False
  | _ => True
  end.

Lemma system_looking : system_ok looking.
Proof. by split. Qed.

Lemma touches_observe S ctx p : touches S looking (observe cfg ctx p).
Proof.
  pose proof system_looking. pose proof (touches_checkUpdateJournal cfg S looking system_looking).
  assert (touches S looking (unitActive "telemt")).
  { unfold unitActive. apply touches_bind; [by apply touches_perform|]. touches. }
  assert (looking _ (Control GetWebStatus) /\ looking _ (Control GetReady) /\ looking _ (Control GetUpstreams)) as (? & ? & ?) by done.
  unfold observe. touches.
Qed.

(** Only looked: no file changed, nothing was asked for but the state of
    things, and the node's state is as it was but for the failures counted. *)
Definition only_looked (h h' : RecoveryState) (w w' : world) : Prop :=
  spans looking (same_off nothing (fs w)) w w' /\ fs w' = fs w /\
  recoveryEvents h' = recoveryEvents h /\ recoveryLast h' = recoveryLast h /\ activeEgress h' = activeEgress h.

(** What the policy lets recovery do at all. *)
Definition permits (p : Policy) : Prop :=
  Maintenance p = false /\ (Recovery p = "restart" \/ AutomaticFailover p = true).

(** An attempt is put on record, alone, at [w2]; without a record of it the
    tick ends there. *)
Definition recorded (h h' : RecoveryState) (w w' : world) : Prop :=
  exists t n w1 w2, let h1 := with_attempt (with_failures h n) t in
    held_back (with_failures h n) (recoveryPolicy h) t = false /\
    spans looking (same_off nothing (fs w)) w w1 /\ spans looking (same_off (or_path (recoveryPath cfg)) (fs w)) w1 w2 /\
    ((exists s, marshal_recovery h1 = Ok s /\ content (fs w2) (recoveryPath cfg) = Some s) \/ (events w' = events w2 /\ h' = h1)).

Lemma act_route ctx p a s r h w d w' : act cfg ctx p a s r h w = (d, w') ->
  activeEgress d.1 = activeEgress h \/ (AutomaticFailover p = true /\ activeEgress d.1 = ReserveSOCKSAddress p).
Proof.
  unfold act. destruct (r && AutomaticFailover p && _) eqn:E; [|destruct (s && _)].
  - intros (x & w1 & _ & [<- _]%ret_inv)%bind_inv. apply andb_true_iff in E as [[_ Ha]%andb_true_iff _].
    destruct x; [by right|by left].
  - intros (x & w1 & _ & [<- _]%ret_inv)%bind_inv. by left.
  - intros [<- _]%ret_inv. by left.
Qed.

Lemma tick_body_order ctx h w h' w' : tick_body cfg ctx h w = (h', w') ->
  only_looked h h' w w' \/
  (permits (recoveryPolicy h) /\ recorded h h' w w' /\
   (activeEgress h' = activeEgress h \/
    (AutomaticFailover (recoveryPolicy h) = true /\ activeEgress h' = ReserveSOCKSAddress (recoveryPolicy h)))).
Proof.
  unfold tick_body. cbv zeta. intros (seen & w1 & Ho & Hr)%bind_inv.
  assert (Hmt : seen <> None -> Maintenance (recoveryPolicy h) = false).
  { unfold observe in Ho. destruct (Maintenance _); [|done]. by apply ret_inv in Ho as [<- _]. }
  pose proof (touches_spans _ _ _ _ _ _ _ (touches_observe nothing ctx (recoveryPolicy h)) Ho) as S1.
  pose proof (nothing_fs _ _ _ _ _ _ (touches_observe nothing ctx (recoveryPolicy h)) Ho) as F1.
  destruct seen as [[service route]|]; [specialize (Hmt ltac:(done))|apply ret_inv in Hr as [<- <-]; by left].
  destruct (negb service && negb route); [apply ret_inv in Hr as [<- <-]; by left|].
  apply bind_inv in Hr as (t & w2 & [-> <-]%clock_inv & Hr).
  destruct (held_back _ _ _) eqn:Eh; [apply ret_inv in Hr as [<- <-]; by left|].
  destruct (negb _ && _) eqn:Ep; [apply ret_inv in Hr as [<- <-]; by left|].
  assert (Hp : permits (recoveryPolicy h)).
  { split; [done|]. destruct (String.eqb_spec (Recovery (recoveryPolicy h)) "restart"); [by left|right].
    cbn in Ep. apply orb_false_iff in Ep as [_ Ep]. by apply negb_false_iff in Ep. }
  right. split; [done|]. apply bind_inv in Hr as (saved & w2 & Hs & Hr).
  assert (Tw : touches (or_path (recoveryPath cfg)) looking (saveRecoveryLocked cfg (with_attempt (with_failures h (recoveryFailures h + 1)) (now w1))))
    by (by apply touches_saveRecovery; [apply system_looking|]).
  pose proof (touches_spans _ _ _ _ _ _ _ Tw Hs) as S2. rewrite F1 in S2.
  assert (Hrec : forall h2 w3, (exists s, marshal_recovery (with_attempt (with_failures h (recoveryFailures h + 1)) (now w1)) = Ok s /\
             content (fs w2) (recoveryPath cfg) = Some s) \/ (events w3 = events w2 /\ h2 = with_attempt (with_failures h (recoveryFailures h + 1)) (now w1)) ->
             recorded h h2 w w3) by (intros; by exists (now w1), (recoveryFailures h + 1), w1, w2).
  destruct saved as [[]|e]; [|apply ret_inv in Hr as [<- <-]; split; [apply Hrec; by right|by left]].
  apply saveRecovery_ok in Hs. split; [apply Hrec; by left|].
  apply bind_inv in Hr as (d & w3 & Ha%act_route & Hr). destruct d.2 as [r|].
  - unfold recoveryEvent in Hr. cbv zeta in Hr. apply bind_inv in Hr as (t & w4 & _ & Hr).
    by apply bind_inv in Hr as (x & w5 & _ & [<- _]%ret_inv).
  - by apply ret_inv in Hr as [<- _].
Qed.

(** Recovery acts only where the policy lets it, and never without a
    record: a tick either only looked, or the policy permits recovery, its
    limits did not hold it back, and the attempt was on disk before telemt was
    touched; when the attempt could not be written, nothing was done at all. *)
Theorem attempt_recorded_first ctx h w h' w' : recoveryTick cfg ctx h w = (h', w') ->
  only_looked h h' w w' \/
  (permits (recoveryPolicy h) /\ recorded h h' w w' /\
   (activeEgress h' = activeEgress h \/
    (AutomaticFailover (recoveryPolicy h) = true /\ activeEgress h' = ReserveSOCKSAddress (recoveryPolicy h)))).
Proof.
  unfold recoveryTick. assert (Hno : only_looked h h w w) by (split; [apply spans_refl|by split_and!]).
  destruct (negb _); [intros [<- <-]%ret_inv; by left|].
  intros (lk & w1 & Hl & Hr)%bind_inv. unfold try_lock in Hl.
  destruct (maintenance w); injection Hl as <- <-; cbn [negb] in Hr; [apply ret_inv in Hr as [<- <-]; by left|].
  apply bind_inv in Hr as (h1 & w2 & Hb & Hr). apply bind_inv in Hr as (u & w3 & [= _ <-] & [<- <-]%ret_inv).
  apply tick_body_order in Hb as [Hq|(Hp & Hrec & Ha)]; [left; exact Hq|right; split_and!; [done|exact Hrec|done]].
Qed.

End TickOrder.

(** ** The state on disk *)

Section Persist.
Context `{Outside} `{JournalCodec} `{RecoveryCodec}.
Context (cfg : Config).
Local Open Scope go_scope.

(** A system call failed. *)
Definition faulted (w w' : world) : Prop :=
  exists l op e, history w w' l /\ In (Did (Fault op) (Some e)) l.

Lemma check_cases op w r w' : check op w = (r, w') -> fs w' = fs w /\ later w w' /\ (r = Ok tt \/ faulted w w').
Proof.
  unfold check. intros (a & w1 & Hp & [<- <-]%ret_inv)%bind_inv. pose proof (perform_fs _ _ _ _ _ Hp) as F.
  apply perform_history in Hp. split_and!; [done|by eexists|]. destruct a as [e|]; [right|by left].
  eexists _, op, e. split; [exact Hp|by left].
Qed.

Lemma faulted_mono w w1 w2 w' : later w w1 -> faulted w1 w2 -> later w2 w' -> faulted w w'.
Proof.
  intros [l1 E1] (l & op & e & Hl & Hin) [l2 E2]. exists (l2 ++ l ++ l1), op, e. split.
  - eapply history_trans; [|exact E2]. by eapply history_trans.
  - apply in_or_app. right. apply in_or_app. by left.
Qed.

Lemma read_file_cases p w r w' : read_file p w = (r, w') -> r = Ok (content (fs w) p) \/ faulted w w'.
Proof.
  assert (Hnow : forall v : world, later v v) by (intros; by exists []).
  unfold read_file, stat. intros Hr. apply bind_inv in Hr as (a & w1 & Ha & Hr).
  apply bind_inv in Ha as (c & w2 & (F2 & L2 & Hc)%check_cases & Ha). destruct c as [[]|e].
  2: { apply ret_inv in Ha as [<- <-]. apply ret_inv in Hr as [<- <-]. destruct Hc as [[=]|Hc]. by right. }
  apply bind_inv in Ha as (f & w3 & [-> <-]%files_inv & Ha). apply ret_inv in Ha as [<- <-]. rewrite F2 in Hr. unfold content.
  destruct (fs w !! p) as [x|]; [|apply ret_inv in Hr as [<- <-]; by left].
  apply bind_inv in Hr as (c & w3 & (F3 & L3 & Hc3)%check_cases & Hr). destruct c as [[]|e].
  - apply ret_inv in Hr as [<- <-]. by left.
  - apply ret_inv in Hr as [<- <-]. destruct Hc3 as [[=]|Hc3]. right. eapply faulted_mono; [exact L2|exact Hc3|done].
Qed.

(** A restart of the agent resumes where it was: a state that was saved is
    the state loaded from its file, but for the consecutive failures, which
    start again; loading fails only when a system call does. *)
Theorem restart_resumes h0 h w w1 w2 r w3 : Validate (recoveryPolicy h) = None ->
  saveRecoveryLocked cfg h w = (Ok tt, w1) -> content (fs w2) (recoveryPath cfg) = content (fs w1) (recoveryPath cfg) ->
  loadRecovery cfg h0 w2 = (r, w3) -> r = Ok (with_failures h (recoveryFailures h0)) \/ faulted w2 w3.
Proof.
  intros Hv (s & Hs & Hd)%saveRecovery_ok Hc Hr. unfold loadRecovery in Hr. apply bind_inv in Hr as (b & w4 & Hb & Hr).
  assert (L : later w4 w3) by (destruct b; apply ret_inv in Hr as [_ <-]; by exists []).
  apply read_file_cases in Hb as [->|Hf]; [|right; eapply faulted_mono; [by exists []|exact Hf|exact L]].
  rewrite Hc, Hd in Hr. apply ret_inv in Hr as [<- _]. left. rewrite (unmarshal_marshal_recovery _ _ Hs), Hv. done.
Qed.

End Persist.
