(* ===== verification/RecoverySim.v ===== *)
(** * A simulated telemt that needs recovery

    A node behind [Outside] whose control API or whose direct route is dead, a
    JSON-like codec for the recovery state, and runs of [Recovery] on it: the
    witnesses of [RecoverySafety] and [RecoveryEgress]. *)

From S2P Require Import Prelude Crypto TelemtTypes Capabilities Node NodeLogic AgentFiles Upgrade TelemtClient UpdateState UpdateJournal TelemtUpdate UpdateSpecs UpdateSafety UpdateSim Reliability Recovery RecoverySafety RecoveryEgress.

Module RSim.

(** ** A text for the state *)

Definition event_fields (ev : ReliabilityEvent) : list string := [Sim.number (ev_At ev); Action ev; Result ev].

Fixpoint read_events (l : list string) : list ReliabilityEvent :=
  match l with
  | t :: a :: r :: l => {| ev_At := Sim.read_number t; Action := a; Result := r |} :: read_events l
  | _ => []
  end.

Lemma read_events_fields l : read_events (concat (map event_fields l)) = l.
Proof. induction l as [|[t a r] l IH]; [done|]. cbn. by rewrite Sim.read_number_number, IH. Qed.

Definition policy_fields (p : Policy) : list string :=
  [Sim.flag (RestorePrimary p); Reliability.Recovery p; Sim.flag (Maintenance p); Sim.number (FailureThreshold p); Sim.number (CooldownSeconds p);
   Sim.number (MaxActionsHour p); Egress p; SOCKSAddress p; ReserveSOCKSAddress p; Sim.flag (AutomaticFailover p)].

Definition read_policy (l : list string) : option (Policy * list string) :=
  match l with
  | rp :: rec :: m :: ft :: cd :: mx :: eg :: so :: re :: af :: l =>
      Some ({| RestorePrimary := String.eqb rp "t"; Reliability.Recovery := rec; Maintenance := String.eqb m "t";
               FailureThreshold := Sim.read_number ft; CooldownSeconds := Sim.read_number cd; MaxActionsHour := Sim.read_number mx;
               Egress := eg; SOCKSAddress := so; ReserveSOCKSAddress := re; AutomaticFailover := String.eqb af "t" |}, l)
  | _ => None
  end.

Lemma read_policy_fields p l : read_policy (policy_fields p ++ l) = Some (p, l).
Proof. destruct p. cbn. by rewrite !Sim.flag_eqb, !Sim.read_number_number. Qed.

Definition state_text (h : RecoveryState) : string :=
  Sim.fields (policy_fields (recoveryPolicy h) ++
              (activeEgress h :: Sim.number (recoveryLast h) :: concat (map event_fields (recoveryEvents h)))).

Definition read_state (s : string) : result (Policy * string * list ReliabilityEvent * Z) :=
  match l ← Sim.read_fields s; read_policy l with
  | Some (p, a :: t :: l) => Ok (p, a, read_events l, Sim.read_number t)
  | _ => Err "no recovery state"
  end.

#[export] Instance recovery_codec : RecoveryCodec.
Proof.
  refine {| marshal_recovery h := Ok (state_text h); unmarshal_recovery := read_state;
            unmarshal_policy s := match l ← Sim.read_fields s; read_policy l with Some (p, _) => Ok p | None => Err "no policy" end |}.
  intros h s [= <-]. unfold read_state, state_text. rewrite Sim.read_fields_fields. cbn [mbind option_bind].
  by rewrite read_policy_fields, read_events_fields, Sim.read_number_number.
Defined.

#[export] Existing Instance Sim.journal_codec.

(** ** A node *)

(** The routes telemt has, whether its control API answers, and the next
    random number. *)
Record proxy := { routes : json; answers : bool; seed : Z }.

Definition with_routes (t : proxy) (r : json) : proxy := {| routes := r; answers := answers t; seed := seed t |}.

(** The last route leads out through SOCKS. *)
Definition alive (t : proxy) : bool :=
  match routes t with
  | JArray l => match as_object (last l) with Some o => bool_decide (as_string (member o "type") = Some "socks5"%string) | None => false end
  | _ => false
  end.

Definition answer {A} (c : call A) (t : proxy) : (A + apierror) * proxy :=
  match c in call A return (A + apierror) * proxy with
  | GetReady => (if answers t then inl {| Ready := true; Reason := EmptyString |} else inr (Transport "connection refused"), t)
  | GetConfig => (inl ([("upstreams"%string, routes t)], EmptyString), t)
  | GetUpstreams => (inl {| us_Enabled := true; Upstreams := [{| us_Healthy := alive t; LastCheckAgeSecs := 5 |}] |}, t)
  | PatchConfig p _ => (inl {| RestartRequired := false; RuntimeReloadRequired := false; ProcessRestartRequired := false; DeferredProcessFields := [] |},
                      with_routes t (default JNull (member p "upstreams")))
  | _ => (inr (APIError 404 "not_found" "no such route"), t)
  end.

Definition proxy_react (A : Type) (e : effect A) (f : files) (t : proxy) : A * Z * proxy :=
  match e in effect A return A * Z * proxy with
  | Fault _ => (None, 0, t)
  | ShortWrite _ => (O, 0, t)
  | Random => (seed t, 0, {| routes := routes t; answers := answers t; seed := seed t + 1 |})
  | NewUUID => ("id", 0, t)
  | Select => (false, 0, t)
  | Exec argv => ((if bool_decide (argv !! 1%nat = Some "is-active"%string) then "active"%string else EmptyString, None), Tm.millisecond, t)
  | Get _ => (Err "unreachable", 0, t)
  | Decoy => (None, 0, t)
  | Fetch _ _ => (Err "unreachable"%string, 0, t)
  | Rewritten _ => (None, 0, t)
  | Dial via _ => (if String.eqb via "127.0.0.1:9" then Some "connection refused"%string else None, Tm.millisecond, t)
  | Control c => let '(a, t) := answer c t in (a, Tm.millisecond, t)
  end.

#[export] Instance proxy_node : Outside := {| outside := proxy; umask := 18; self := (0, 0); react := proxy_react |}.

Definition cfg : Config :=
  {| StateDir := "/var/lib/agent"; TelemtConfigPath := "/etc/telemt/telemt.toml"; TelemtBin := "/usr/local/bin/telemt";
     HealthWait := Tm.second; cfg_Engine := EngineTelemt; updatePoll := 0;
     TelemtSiteDir := "/srv/telemt-site"; RelaySiteDir := "/srv/tproxy-site"; ReloadWait := 60 * Tm.second;
     ProfilesPath := "/etc/tproxy-server/profiles.json"; MTProxyEnvPath := "/etc/mtproxy/mtproxy.env";
     TProxyBin := "/usr/local/bin/tproxy-server"; ConfigPath := "/etc/tproxy-server/config.json"; RelayAdminURL := "http://127.0.0.1:8081" |}.

Definition policy (reserve : string) : Policy :=
  {| RestorePrimary := false; Reliability.Recovery := "restart"; Maintenance := false; FailureThreshold := 2; CooldownSeconds := 300;
     MaxActionsHour := 2; Egress := "direct"; SOCKSAddress := EmptyString; ReserveSOCKSAddress := reserve; AutomaticFailover := true |}.

Definition reserve : string := "127.0.0.1:1080".

Definition idle : RecoveryState :=
  {| recoveryPolicy := policy reserve; activeEgress := "direct"; recoveryEvents := []; recoveryLast := Tm.zero; recoveryFailures := 0 |}.

Definition scoped_route : json := JObject [("type"%string, JString "direct"); ("scopes"%string, JString "media")].
Definition direct_route : json := JObject [("type"%string, JString "direct")].

Definition start (up : bool) : world :=
  {| now := 1700000000000000000; fs := ∅; events := [];
     out := {| routes := JArray [scoped_route; direct_route]; answers := up; seed := 1 |};
     instance := EmptyString; upd := None; maintenance := false |}.

Definition later_by (d : Z) (w : world) : world := (sleep_until (now w + d) w).2.

(** A tick every thirty seconds, with the attempts made. *)
Fixpoint ticking (n : nat) (s : RecoveryState * world * list Z) : RecoveryState * world * list Z :=
  match n with
  | O => s
  | S n =>
      let '(h, w, l) := s in
      let '(h', w') := recoveryTick cfg None h (later_by (30 * Tm.second) w) in
      ticking n (h', w', if recoveryLast h' =? recoveryLast h then l else recoveryLast h' :: l)
  end.

Definition ticks_of (s : RecoveryState * world * list Z) : Prop := ticks cfg (policy reserve) s.1.1 s.1.2 s.2.

Lemma ticking_ticks n s : ticks_of s -> ticks_of (ticking n s).
Proof.
  revert s. induction n as [|n IH]; intros [[h w] l] Hs; [done|]. cbn [ticking].
  destruct (recoveryTick cfg None h (later_by (30 * Tm.second) w)) as [h' w'] eqn:E. apply IH. unfold ticks_of in *. cbn [fst snd] in *.
  eapply ticks_tick; [|exact E]. eapply ticks_wait; [exact Hs|]. unfold later_by. cbn. lia.
Qed.

Definition day_of_ticks (up : bool) : RecoveryState * world * list Z := ticking 300 (idle, start up, []).

End RSim.

Import RSim.

(** With a dead direct route the second tick fails over to the reserve, and the
    scoped route stays. *)
Example failed_over :
  let s := day_of_ticks true in
  activeEgress s.1.1 = reserve /\ length s.2 = 1%nat /\
  routes (out s.1.2) = JArray [scoped_route; route_to reserve].
Proof. repeat (apply conj; [vm_compute; reflexivity|]). vm_compute; reflexivity. Qed.

Lemma recovery_paced_witness : length (day_of_ticks false).2 = 6%nat /\ paced (policy reserve) (day_of_ticks false).2.
Proof.
  split; [vm_compute; reflexivity|].
  refine (recovery_paced cfg (policy reserve) _ (day_of_ticks false).1.1 (day_of_ticks false).1.2 _ _); [vm_compute; reflexivity|].
  exact (ticking_ticks 300 (idle, start false, []) (ticks_start cfg (policy reserve) idle (start false) eq_refl eq_refl (le_S _ _ (le_n 0)))).
Defined.

(** A route telemt does not come up with is taken back. *)
Lemma egress_all_or_nothing_witness :
  let r := applyEgress cfg None reserve (start false) in
  routes (out r.2) = JArray [scoped_route; direct_route] /\ fs r.2 = ∅ /\
  ((sends (start false) r.2 [] /\ exists e, r.1 = Err e) \/
   exists c w1 w2 ps, configured c (start false) w1 /\ reachable reserve w1 w2 /\ sends (start false) w2 [] /\ sends w2 r.2 ps /\
     route_changed reserve c (match r.1 with Ok _ => true | Err _ => false end) ps).
Proof.
  split; [vm_compute; reflexivity|].
  exact (egress_all_or_nothing cfg None reserve (start false) _ _ (surjective_pairing _)).
Defined.



(** A policy that moves the route to a SOCKS endpoint. *)
Definition over_socks : Policy :=
  {| RestorePrimary := false; Reliability.Recovery := "observe"; Maintenance := false; FailureThreshold := 2; CooldownSeconds := 300;
     MaxActionsHour := 2; Egress := "socks5"; SOCKSAddress := reserve; ReserveSOCKSAddress := EmptyString; AutomaticFailover := false |}.

Definition configured_with (w : world) : RecoveryState * result string * world :=
  configureReliability cfg None idle (Sim.fields (policy_fields over_socks)) w.

Lemma policy_all_or_nothing_witness :
  (exists s p, (configured_with (start true)).1.2 = Ok s /\
     recoveryPolicy (configured_with (start true)).1.1 = once p /\
     content (fs (configured_with (start true)).2) (recoveryPath cfg) = Some s) /\
  ((configured_with (start false)).1.1 = idle /\ route_kept (start false) (configured_with (start false)).2).
Proof.
  assert (Hok : exists h s, (configured_with (start true)).1 = (h, Ok s)) by (vm_compute; eexists _, _; reflexivity).
  assert (Hno : exists h e, (configured_with (start false)).1 = (h, Err e)) by (vm_compute; eexists _, _; reflexivity).
  destruct Hok as (h & s & Hok), Hno as (h' & e & Hno). split.
  - destruct (policy_all_or_nothing cfg None idle (Sim.fields (policy_fields over_socks)) (start true) h (Ok s) (configured_with (start true)).2) as (Hm & _ & Hp).
    { rewrite <- Hok. apply surjective_pairing. }
    destruct Hp as [[Hraw _]|(p & _ & _ & Hp & Hd)]; [discriminate Hraw|].
    exists s, p. rewrite Hok. exact (conj eq_refl (conj Hp Hd)).
  - destruct (policy_all_or_nothing cfg None idle (Sim.fields (policy_fields over_socks)) (start false) h' (Err e) (configured_with (start false)).2) as [Hh Hk].
    { rewrite <- Hno. apply surjective_pairing. }
    rewrite Hno. exact (conj Hh Hk).
Defined.

(** The second tick of a node whose control API is dead. *)
Definition second_tick : RecoveryState * world :=
  let s := ticking 1 (idle, start false, []) in recoveryTick cfg None s.1.1 (later_by (30 * Tm.second) s.1.2).

Lemma attempt_recorded_first_witness :
  let s := ticking 1 (idle, start false, []) in let w := later_by (30 * Tm.second) s.1.2 in
  length (recoveryEvents second_tick.1) = 2%nat /\
  (only_looked s.1.1 second_tick.1 w second_tick.2 \/
   (permits (recoveryPolicy s.1.1) /\ recorded cfg s.1.1 second_tick.1 w second_tick.2 /\
    (activeEgress second_tick.1 = activeEgress s.1.1 \/
     (AutomaticFailover (recoveryPolicy s.1.1) = true /\ activeEgress second_tick.1 = ReserveSOCKSAddress (recoveryPolicy s.1.1))))).
Proof.
  split; [vm_compute; reflexivity|].
  exact (attempt_recorded_first cfg None _ _ _ _ (surjective_pairing second_tick)).
Defined.

(** The state of a node after its day, saved and loaded by the next agent. *)
Lemma restart_resumes_witness :
  let h := (day_of_ticks true).1.1 in let w := (saveRecoveryLocked cfg h (start true)).2 in
  recoveryEvents h <> [] /\
  ((loadRecovery cfg idle w).1 = Ok (with_failures h 0) \/ faulted w (loadRecovery cfg idle w).2).
Proof.
  assert (Hs : (saveRecoveryLocked cfg (day_of_ticks true).1.1 (start true)).1 = Ok tt) by (vm_compute; reflexivity).
  split; [vm_compute; discriminate|].
  refine (restart_resumes cfg idle _ (start true) (saveRecoveryLocked cfg (day_of_ticks true).1.1 (start true)).2 _ _ _ _ _ eq_refl (surjective_pairing _)).
  - vm_compute; reflexivity.
  - rewrite <- Hs. apply surjective_pairing.
Defined.
