(* ===== verification/RateLimit.v ===== *)
(** * The rate limiter of the panel's API

    internal/api/ratelimit.go: an [ipLimiter] lets an address through at most
    [max] times per window, then shuts it out for a while, and forgets idle
    addresses now and then.  The instant of a call is what [l.now()] gave it;
    the mutex makes the calls one sequence. *)

From S2P Require Import Prelude.

Record ipLimiter := {
  max_ : Z;
  window : Z;
  block : Z;
  attempts : gmap string (list Z);
  blocked : gmap string Z;
  calls : Z
}.

(** How many calls of [Allow] pass between two sweeps. *)
Definition pruneEvery : Z := 1000.

Definition newIPLimiter (max window block : Z) : ipLimiter :=
  {| max_ := max; window := window; block := block; attempts := ∅; blocked := ∅; calls := 0 |}.

Definition with_maps (l : ipLimiter) (a : gmap string (list Z)) (b : gmap string Z) : ipLimiter :=
  {| max_ := max_ l; window := window l; block := block l; attempts := a; blocked := b; calls := calls l |}.

(** The attempt [t] is inside the window at [now]. *)
Definition fresh (l : ipLimiter) (now t : Z) : bool := Tm.sub now t <? window l.

(** Drop the expired blocks, then the addresses that are not blocked and have
    no attempt in the window. *)
Definition prune (l : ipLimiter) (now : Z) : ipLimiter :=
  let b := filter (fun kv => Tm.before now kv.2 = true) (blocked l) in
  let a := filter (fun kv => is_Some (b !! kv.1) \/ existsb (fresh l now) kv.2 = true) (attempts l) in
  with_maps l a b.

Definition Blocked (l : ipLimiter) (now : Z) (ip : string) : bool :=
  match blocked l !! ip with
  | Some until => Tm.before now until
  | None => false
  end.

(** Count the call, and sweep when it is the turn. *)
Definition counted (l : ipLimiter) (now : Z) : ipLimiter :=
  let l := {| max_ := max_ l; window := window l; block := block l; attempts := attempts l; blocked := blocked l; calls := calls l + 1 |} in
  if Z.rem (calls l) pruneEvery =? 0 then prune l now else l.

(** Record an attempt of an address that is not shut out. *)
Definition record_attempt (l : ipLimiter) (now : Z) (ip : string) : bool * ipLimiter :=
  let keep := List.filter (fresh l now) (default [] (attempts l !! ip)) ++ [now] in
  let l := with_maps l (<[ip := keep]> (attempts l)) (blocked l) in
  if Z.of_nat (length keep) >? max_ l
  then (false, with_maps l (attempts l) (<[ip := Tm.add now (block l)]> (blocked l)))
  else (true, l).

(** An expired block goes with the attempts that led to it. *)
Definition attempt_by (l : ipLimiter) (now : Z) (ip : string) : bool * ipLimiter :=
  match blocked l !! ip with
  | Some until =>
      if Tm.before now until then (false, l)
      else record_attempt (with_maps l (delete ip (attempts l)) (delete ip (blocked l))) now ip
  | None => record_attempt l now ip
  end.

Definition Allow (l : ipLimiter) (now : Z) (ip : string) : bool * ipLimiter := attempt_by (counted l now) now ip.

(** ** Sequences of calls *)

Inductive request := AllowReq (ip : string) | BlockedReq (ip : string).

Definition serve (allow : ipLimiter -> Z -> string -> bool * ipLimiter) (l : ipLimiter) (now : Z) (r : request) : bool * ipLimiter :=
  match r with
  | AllowReq ip => allow l now ip
  | BlockedReq ip => (Blocked l now ip, l)
  end.

(** The answers to requests at the instants they come. *)
Fixpoint answers (allow : ipLimiter -> Z -> string -> bool * ipLimiter) (l : ipLimiter) (rs : list (Z * request)) : list bool :=
  match rs with
  | [] => []
  | (t, r) :: rs => let '(b, l) := serve allow l t r in b :: answers allow l rs
  end.

(** The clock does not go back. *)
Fixpoint in_order (t : Z) (rs : list (Z * request)) : bool :=
  match rs with
  | [] => true
  | (u, _) :: rs => (t <=? u) && in_order u rs
  end.

(** A limiter as the panel makes them: the block outlasts the window. *)
Record sound (l : ipLimiter) : Prop := {
  sound_window : 0 < window l <= block l;
  sound_width : block l <= Dec.max_int64
}.

Section Limits.

Lemma fresh_spec l now t : sound l -> fresh l now t = (now - t <? window l).
Proof. intros [? ?]. unfold fresh. apply Tm.sub_ltb. unfold Dec.min_int64, Dec.max_int64 in *. lia. Qed.

Lemma counted_params l now : max_ (counted l now) = max_ l /\ window (counted l now) = window l /\ block (counted l now) = block l.
Proof. unfold counted. by destruct (_ =? 0). Qed.

Lemma sound_params l l' : window l' = window l -> block l' = block l -> sound l -> sound l'.
Proof. intros E1 E2 [? ?]. split; by rewrite ?E1, ?E2. Qed.

Lemma record_params l now ip : max_ (record_attempt l now ip).2 = max_ l /\
  window (record_attempt l now ip).2 = window l /\ block (record_attempt l now ip).2 = block l.
Proof. unfold record_attempt. by destruct (_ >? _). Qed.

Lemma attempt_params l now ip : max_ (attempt_by l now ip).2 = max_ l /\
  window (attempt_by l now ip).2 = window l /\ block (attempt_by l now ip).2 = block l.
Proof.
  unfold attempt_by. destruct (blocked l !! ip) as [u|]; [|apply record_params].
  destruct (Tm.before now u); [done|]. edestruct record_params as (-> & -> & ->). done.
Qed.

(** What a sweep keeps of an address. *)
Lemma prune_blocked l now ip :
  blocked (prune l now) !! ip = match blocked l !! ip with Some u => if now <? u then Some u else None | None => None end.
Proof.
  cbn. rewrite map_lookup_filter. destruct (blocked l !! ip) as [u|]; [cbn|done]. unfold Tm.before.
  destruct (now <? u); by case_guard.
Qed.

Lemma prune_attempts l now ip :
  attempts (prune l now) !! ip = attempts l !! ip \/
  (attempts (prune l now) !! ip = None /\ blocked (prune l now) !! ip = None /\
   List.filter (fresh l now) (default [] (attempts l !! ip)) = []).
Proof.
  cbn. rewrite map_lookup_filter. destruct (attempts l !! ip) as [ts|]; [cbn|by left]. case_guard as Hg; [by left|right].
  apply Decidable.not_or in Hg as [Hb Hf]. split_and!; [done|by apply eq_None_not_Some|].
  apply not_true_is_false in Hf. induction ts as [|t ts IH]; [done|]. cbn in *. apply orb_false_iff in Hf as [-> ?]. auto.
Qed.

(** What an attempt leaves of each address. *)
Lemma record_spec l now ip : let keep := List.filter (fresh l now) (default [] (attempts l !! ip)) ++ [now] in
  let ok := negb (Z.of_nat (length keep) >? max_ l) in
  (record_attempt l now ip).1 = ok /\
  forall ip', blocked (record_attempt l now ip).2 !! ip' = (if decide (ip' = ip) then if ok then blocked l !! ip else Some (now + block l) else blocked l !! ip') /\
              attempts (record_attempt l now ip).2 !! ip' = (if decide (ip' = ip) then Some keep else attempts l !! ip').
Proof.
  cbv zeta. unfold record_attempt. cbv zeta. destruct (_ >? _); cbn; (split; [done|]); intros ip';
    destruct (decide (ip' = ip)) as [->|Hne]; rewrite ?lookup_insert_eq, ?lookup_insert_ne by done; by split.
Qed.

Lemma filter_weaken {A} (f g : A -> bool) l : (forall a, f a = true -> g a = true) -> List.filter g l = [] -> List.filter f l = [].
Proof.
  intros Hfg. induction l as [|a l IH]; [done|]. cbn. specialize (Hfg a). destruct (g a); [done|]. destruct (f a); [by specialize (Hfg eq_refl)|done].
Qed.

Lemma filter_none {A} (f : A -> bool) l : Forall (fun a => f a = false) l -> List.filter f l = [].
Proof. induction 1 as [|a l Ha _ IH]; [done|]. cbn. by rewrite Ha. Qed.

Lemma Forall_filter {A} (P : A -> Prop) f l : Forall P l -> Forall P (List.filter f l).
Proof. induction 1 as [|a l Ha _ IH]; [done|]. cbn. destruct (f a); by repeat constructor. Qed.

End Limits.

(** ** Sweeping cannot be noticed *)

Section Sweeping.
Context (win : Z).

Definition fresh_at (t a : Z) : bool := t - a <? win.

(** What a swept limiter ([bl], [al]) and an unswept one ([bs], [as_]) know of
    an address at the instant [t]. *)
Definition agree1 (t : Z) (bl : option Z) (al : list Z) (bs : option Z) (as_ : list Z) : Prop :=
  Forall (fun a => a <= t) al /\
  match bs with
  | Some u => (bl = Some u \/ (bl = None /\ u <= t)) /\ Forall (fun a => win <= u - a) al
  | None => bl = None /\ forall t', t <= t' -> List.filter (fresh_at t') al = List.filter (fresh_at t') as_
  end.

Lemma agree1_later t t' bl al bs as_ : t <= t' -> agree1 t bl al bs as_ -> agree1 t' bl al bs as_.
Proof.
  intros Ht [Ha Hb]. split; [eapply Forall_impl; [exact Ha|]; cbn; lia|]. destruct bs as [u|].
  - destruct Hb as [Hb Hw]. split; [|done]. destruct Hb as [?|[? ?]]; [by left|right; split; [done|lia]].
  - destruct Hb as [? Hf]. split; [done|]. intros u Hu. apply Hf. lia.
Qed.

Lemma agree1_prune t bl al al' bs as_ :
  (al' = al \/ (al' = [] /\ List.filter (fresh_at t) al = [])) ->
  agree1 t bl al bs as_ -> agree1 t (match bl with Some u => if t <? u then Some u else None | None => None end) al' bs as_.
Proof.
  intros Hal [Ha Hb]. split; [by destruct Hal as [->|[-> _]]|]. destruct bs as [u|].
  - destruct Hb as [Hbl Hw]. split; [|by destruct Hal as [->|[-> _]]].
    destruct Hbl as [->|[-> Hu]]; [|by right]. destruct (Z.ltb_spec t u); [by left|by right].
  - destruct Hb as [-> Hf]. split; [done|]. intros t' Ht'. destruct Hal as [->|[-> Hn]]; [by apply Hf|].
    rewrite <- Hf by done. symmetry. eapply filter_weaken; [|exact Hn]. unfold fresh_at. intros a Hlt. bprop. apply Z.ltb_lt. lia.
Qed.

End Sweeping.

Section Same.

Record agrees (t : Z) (l s : ipLimiter) : Prop := {
  ag_sound : sound s;
  ag_max : max_ l = max_ s;
  ag_window : window l = window s;
  ag_block : block l = block s;
  ag_ip : forall ip, agree1 (window s) t (blocked l !! ip) (default [] (attempts l !! ip)) (blocked s !! ip) (default [] (attempts s !! ip))
}.

Lemma agrees_later t t' l s : t <= t' -> agrees t l s -> agrees t' l s.
Proof. intros Ht [? ? ? ? Hip]. split; try done. intros ip. by eapply agree1_later. Qed.

Lemma fresh_ext l s now : sound s -> window l = window s -> fresh l now = fresh s now.
Proof. intros Hs E. unfold fresh. by rewrite E. Qed.

Lemma filter_fresh s now al : sound s -> List.filter (fresh s now) al = List.filter (fresh_at (window s) now) al.
Proof. intros Hs. induction al as [|a al IH]; [done|]. cbn. rewrite (fresh_spec s now a Hs), IH. done. Qed.

Lemma agrees_counted t l s : agrees t l s -> agrees t (counted l t) s.
Proof.
  intros [Hs E1 E2 E3 Hip]. destruct (counted_params l t) as (P1 & P2 & P3).
  split; [done|congruence..|]. intros ip. specialize (Hip ip). unfold counted. cbv zeta. destruct (_ =? 0); [|exact Hip].
  set (l' := {| max_ := _ |}). rewrite prune_blocked. apply (agree1_prune (window s) t _ (default [] (attempts l' !! ip))); [|exact Hip].
  destruct (prune_attempts l' t ip) as [->|(-> & _ & Hf)]; [by left|right]. split; [done|].
  rewrite <- (filter_fresh s) by done. by rewrite <- (fresh_ext l' s t Hs E2).
Qed.

(** An attempt that both limiters record over the same fresh attempts. *)
Lemma agrees_record t l s ip : agrees t l s ->
  blocked l !! ip = None -> blocked s !! ip = None ->
  (record_attempt l t ip).1 = (record_attempt s t ip).1 /\ agrees t (record_attempt l t ip).2 (record_attempt s t ip).2.
Proof.
  intros [Hs E1 E2 E3 Hip] Hl Hu. destruct (Hip ip) as [Ha Hf]. rewrite Hu in Hf. destruct Hf as [_ Hf].
  destruct (record_spec l t ip) as [L1 L2], (record_spec s t ip) as [S1 S2].
  assert (Hk : List.filter (fresh l t) (default [] (attempts l !! ip)) ++ [t] = List.filter (fresh s t) (default [] (attempts s !! ip)) ++ [t]).
  { rewrite (fresh_ext l s t Hs E2), !filter_fresh, Hf by (done || lia). done. }
  rewrite Hk, E1 in L1, L2. split; [by rewrite L1, S1|].
  destruct (record_params l t ip) as (P1 & P2 & P3), (record_params s t ip) as (Q1 & Q2 & Q3).
  split; [by eapply sound_params; [exact Q2|exact Q3|]|congruence..|].
  intros ip'. destruct (L2 ip') as [-> ->], (S2 ip') as [-> ->]. rewrite Q2. destruct (decide (ip' = ip)) as [->|Hne]; [|apply Hip].
  rewrite Hl, Hu, E3. cbn [from_option id]. rewrite <- Hk.
  assert (Hle : Forall (fun a => a <= t) (List.filter (fresh l t) (default [] (attempts l !! ip)) ++ [t])).
  { apply Forall_app. split; [by apply Forall_filter|by constructor]. }
  split; [exact Hle|].
  match goal with |- context [negb ?b] => generalize (negb b) end. intros []; [by split|]. split; [by left|].
  eapply Forall_impl; [exact Hle|]. destruct Hs. cbn. lia.
Qed.

Lemma agrees_attempt t l s ip : agrees t l s ->
  (attempt_by l t ip).1 = (attempt_by s t ip).1 /\ agrees t (attempt_by l t ip).2 (attempt_by s t ip).2.
Proof.
  intros Hag. pose proof Hag as [Hs E1 E2 E3 Hip]. destruct (Hip ip) as [Ha Hb]. unfold attempt_by.
  destruct (blocked s !! ip) as [u|] eqn:Es.
  2: { destruct Hb as [Hl _]. rewrite Hl. by apply agrees_record. }
  destruct Hb as [[Hl|[Hl Hu]] Hw]; rewrite Hl; unfold Tm.before.
  - destruct (Z.ltb_spec t u) as [|Hu]; [done|]. apply agrees_record; [|cbn; apply lookup_delete_eq..].
    split; [by eapply sound_params; [| |exact Hs]|done..|]. intros ip'. cbn. destruct (decide (ip' = ip)) as [->|Hne].
    + rewrite !lookup_delete_eq. by repeat split.
    + rewrite !lookup_delete_ne by done. apply Hip.
  - destruct (Z.ltb_spec t u) as [|_]; [lia|].
    assert (Hag' : agrees t l (with_maps s (delete ip (attempts s)) (delete ip (blocked s)))).
    { split; [by eapply sound_params; [| |exact Hs]|done..|]. intros ip'. cbn. destruct (decide (ip' = ip)) as [->|Hne].
      - rewrite !lookup_delete_eq. split; [done|]. split; [done|]. intros t' Ht'. cbn. apply filter_none.
        eapply Forall_impl; [exact Hw|]. unfold fresh_at. intros a Hga. apply Z.ltb_ge. cbn in *. lia.
      - rewrite !lookup_delete_ne by done. apply Hip. }
    apply agrees_record; [done|done|cbn; apply lookup_delete_eq].
Qed.

Lemma agrees_blocked t l s ip : agrees t l s -> Blocked l t ip = Blocked s t ip.
Proof.
  intros [_ _ _ _ Hip]. destruct (Hip ip) as [_ Hb]. unfold Blocked, Tm.before. destruct (blocked s !! ip) as [u|].
  - destruct Hb as [[->|[-> Hu]] _]; [done|]. symmetry. apply Z.ltb_ge. lia.
  - by destruct Hb as [-> _].
Qed.

Lemma agrees_new t m w b : sound (newIPLimiter m w b) -> agrees t (newIPLimiter m w b) (newIPLimiter m w b).
Proof. intros Hs. by split. Qed.

Lemma agrees_answers t l s rs : agrees t l s -> in_order t rs = true -> answers Allow l rs = answers attempt_by s rs.
Proof.
  revert t l s. induction rs as [|[u r] rs IH]; intros t l s Hag Ho; [done|].
  cbn in Ho. apply andb_true_iff in Ho as [Hu Ho]. apply Z.leb_le in Hu. apply (agrees_later _ u) in Hag; [|done].
  cbn [answers]. destruct r as [ip|ip]; cbn [serve].
  - apply agrees_counted, (agrees_attempt _ _ _ ip) in Hag as [E1 E2]. unfold Allow.
    destruct (attempt_by (counted l u) u ip) as [x l'], (attempt_by s u ip) as [y s']. cbn in E1, E2. rewrite E1. f_equal. by eapply IH.
  - rewrite (agrees_blocked _ _ _ ip Hag). f_equal. by eapply IH.
Qed.

(** The sweeps of the rate limiter cannot be noticed: a limiter whose block
    outlasts its window, as every limiter of the panel does, answers every
    sequence of calls as one that never forgets an address. *)
Theorem sweeping_unnoticed m w b t rs : sound (newIPLimiter m w b) -> in_order t rs = true ->
  answers Allow (newIPLimiter m w b) rs = answers attempt_by (newIPLimiter m w b) rs.
Proof. intros Hs Ho. eapply agrees_answers; [by apply (agrees_new t)|done]. Qed.

End Same.

(** ** The limit *)

Section Limit.
Context (who : string).

(** The instants at which the address was let through, newest first. *)
Fixpoint through (rs : list (Z * request)) (bs : list bool) (acc : list Z) : list Z :=
  match rs, bs with
  | (t, AllowReq ip) :: rs, b :: bs => through rs bs (if b && String.eqb ip who then t :: acc else acc)
  | _ :: rs, _ :: bs => through rs bs acc
  | _, _ => acc
  end.

(** At every one of these instants the window that ends there holds at most
    [m] of them. *)
Fixpoint held (m w : Z) (tr : list Z) : Prop :=
  match tr with
  | [] => True
  | t :: tr' => Z.of_nat (length (List.filter (fresh_at w t) tr)) <= m /\ held m w tr'
  end.

Definition count_at (w t : Z) (l : list Z) : nat := length (List.filter (fresh_at w t) l).

(** What the limiter remembers covers what it let through. *)
Record covers (m w : Z) (t : Z) (s : ipLimiter) (tr : list Z) : Prop := {
  co_sound : sound s;
  co_params : max_ s = m /\ window s = w;
  co_past : Forall (fun a => a <= t) tr;
  co_held : held m w tr;
  co_memory : match blocked s !! who with
              | Some u => Forall (fun a => w <= u - a) tr
              | None => forall t', t <= t' -> (count_at w t' tr <= count_at w t' (default [] (attempts s !! who)))%nat
              end
}.

Lemma covers_later m w t t' s tr : t <= t' -> covers m w t s tr -> covers m w t' s tr.
Proof.
  intros Ht [? ? Hp ? Hm]. split; try done; [eapply Forall_impl; [exact Hp|]; cbn; lia|].
  destruct (blocked s !! who); [done|]. intros u Hu. apply Hm. lia.
Qed.

Lemma filter_fresh_again w t t' l : t <= t' ->
  List.filter (fresh_at w t') (List.filter (fresh_at w t) l) = List.filter (fresh_at w t') l.
Proof.
  intros Ht. induction l as [|a l IH]; [done|]. cbn. destruct (fresh_at w t a) eqn:E; cbn; rewrite IH; [done|].
  assert (E' : fresh_at w t' a = false) by (unfold fresh_at in *; apply Z.ltb_ge; bprop; lia). by rewrite E'.
Qed.

Lemma count_weaken w t t' l : t <= t' -> (count_at w t' l <= count_at w t l)%nat.
Proof.
  intros Ht. unfold count_at. rewrite <- (filter_fresh_again w t t') by done. apply filter_length_le.
Qed.

(** An attempt of another address. *)
Lemma covers_other m w t s tr ip : ip <> who -> covers m w t s tr -> covers m w t (attempt_by s t ip).2 tr.
Proof.
  intros Hne [Hs [Hm Hw] Hp Hh Hmem]. destruct (attempt_params s t ip) as (P1 & P2 & P3).
  split; [by eapply sound_params|split; congruence|done|done|].
  assert (Hsame : blocked (attempt_by s t ip).2 !! who = blocked s !! who /\ attempts (attempt_by s t ip).2 !! who = attempts s !! who).
  { unfold attempt_by. destruct (blocked s !! ip) as [u|].
    - destruct (Tm.before t u); [done|]. match goal with |- context [record_attempt ?x _ _] => destruct (record_spec x t ip) as [_ L] end.
      destruct (L who) as [-> ->]. rewrite !decide_False by done. cbn. by rewrite !lookup_delete_ne by done.
    - destruct (record_spec s t ip) as [_ L]. destruct (L who) as [-> ->]. by rewrite !decide_False by done. }
  destruct Hsame as [-> ->]. exact Hmem.
Qed.

(** A recorded attempt, of an address that is not shut out. *)
Lemma covers_record m w t s tr : blocked s !! who = None -> covers m w t s tr ->
  covers m w t (record_attempt s t who).2 (if (record_attempt s t who).1 then t :: tr else tr).
Proof.
  intros Hb [Hs [Hm Hw] Hp Hh Hmem]. rewrite Hb in Hmem. destruct (record_params s t who) as (P1 & P2 & P3).
  destruct (record_spec s t who) as [R1 R2]. destruct (R2 who) as [B A]. rewrite !decide_True, Hb in B by done. rewrite decide_True in A by done.
  rewrite R1. set (keep := List.filter (fresh s t) (default [] (attempts s !! who)) ++ [t]) in *.
  assert (Hcount : forall t', t <= t' -> count_at w t' keep = (count_at w t' (default [] (attempts s !! who)) + count_at w t' [t])%nat).
  { intros t' Ht'. unfold count_at, keep. rewrite filter_fresh, Hw, List.filter_app, length_app, filter_fresh_again by done. done. }
  assert (Htr : forall t', t <= t' -> (count_at w t' (t :: tr) <= count_at w t' keep)%nat).
  { intros t' Ht'. rewrite Hcount by done. specialize (Hmem t' Ht'). unfold count_at in *. cbn. destruct (fresh_at w t' t); cbn; lia. }
  assert (Hkl : (count_at w t keep <= length keep)%nat) by apply filter_length_le.
  destruct (Z.gtb_spec (Z.of_nat (length keep)) (max_ s)) as [Hgt|Hle]; cbn [negb] in *.
  - split; [by eapply sound_params|split; congruence|done|done|]. rewrite B. eapply Forall_impl; [exact Hp|]. destruct Hs. cbn. intros; lia.
  - split; [by eapply sound_params|split; congruence|by constructor| |].
    + split; [|done]. specialize (Htr t ltac:(lia)). unfold count_at in *. lia.
    + rewrite B, A. exact Htr.
Qed.

Lemma covers_attempt m w t s tr : covers m w t s tr ->
  covers m w t (attempt_by s t who).2 (if (attempt_by s t who).1 then t :: tr else tr).
Proof.
  intros Hc. pose proof Hc as [Hs [Hm Hw] Hp Hh Hmem]. unfold attempt_by. destruct (blocked s !! who) as [u|] eqn:Eb; [|by apply covers_record].
  unfold Tm.before. destruct (Z.ltb_spec t u) as [|Hu]; [done|]. apply covers_record; [cbn; apply lookup_delete_eq|].
  split; [by eapply sound_params; [| |exact Hs]|done|done|done|]. cbn. rewrite !lookup_delete_eq. intros t' Ht'.
  unfold count_at. rewrite filter_none; [cbn; lia|]. eapply Forall_impl; [exact Hmem|]. unfold fresh_at. intros a Ha. apply Z.ltb_ge. cbn in *. lia.
Qed.

Lemma covers_through m w t s tr rs : covers m w t s tr -> in_order t rs = true ->
  held m w (through rs (answers attempt_by s rs) tr).
Proof.
  revert t s tr. induction rs as [|[u r] rs IH]; intros t s tr Hc Ho; [apply Hc|].
  cbn in Ho. apply andb_true_iff in Ho as [Hu Ho]. apply Z.leb_le in Hu. apply (covers_later _ _ _ u) in Hc; [|done].
  cbn [answers]. destruct r as [ip|ip]; cbn [serve]; [|eapply IH; [exact Hc|done]].
  destruct (attempt_by s u ip) as [b s'] eqn:E. cbn [through]. eapply IH; [|exact Ho].
  destruct (String.eqb_spec ip who) as [->|Hne].
  - apply covers_attempt in Hc. rewrite E in Hc. by rewrite andb_true_r.
  - apply (covers_other _ _ _ _ _ ip Hne) in Hc. rewrite E in Hc. by rewrite andb_false_r.
Qed.

(** C29: the rate limiter keeps its limit: whatever the sequence of calls, the
    window that ends at an instant at which an address is let through holds at
    most [m] instants at which it was. *)
Theorem limit_held m w b t rs : sound (newIPLimiter m w b) -> in_order t rs = true ->
  held m w (through rs (answers Allow (newIPLimiter m w b) rs) []).
Proof.
  intros Hs Ho. rewrite (agrees_answers t _ (newIPLimiter m w b)); [|by apply agrees_new|done].
  apply (covers_through m w t); [|done]. split; [done|done|constructor|done|]. by cbn; rewrite lookup_empty.
Qed.

End Limit.

(** ** A limiter at work *)

Definition attempts_of_a_minute : list (Z * request) :=
  [(0, AllowReq "1.2.3.4"); (1, AllowReq "1.2.3.4"); (2, AllowReq "1.2.3.4"); (3, BlockedReq "1.2.3.4"); (4, AllowReq "5.6.7.8");
   (15 * Tm.minute + 3, AllowReq "1.2.3.4"); (15 * Tm.minute + 4, AllowReq "1.2.3.4")]%string.

Definition small : ipLimiter := newIPLimiter 2 (10 * Tm.minute) (15 * Tm.minute).

Lemma small_sound : sound small.
Proof. split; cbn; unfold Dec.max_int64; time_lia. Qed.

(** With a block shorter than the window a sweep would let an address keep its
    attempts: the hypothesis is needed. *)
Example short_block_noticed :
  let l := {| max_ := 1; window := 10; block := 1; attempts := ∅; blocked := ∅; calls := 997 |} in
  let rs := [(0, AllowReq "a"); (0, AllowReq "a"); (5, AllowReq "b"); (6, AllowReq "a")]%string in
  answers Allow l rs = [true; false; true; false] /\ answers attempt_by l rs = [true; false; true; true].
Proof. by vm_compute. Qed.

Lemma sweeping_unnoticed_witness :
  answers Allow small attempts_of_a_minute = [true; true; false; true; true; true; true] /\
  answers Allow small attempts_of_a_minute = answers attempt_by small attempts_of_a_minute.
Proof.
  split; [vm_compute; reflexivity|].
  exact (sweeping_unnoticed 2 (10 * Tm.minute) (15 * Tm.minute) 0 attempts_of_a_minute small_sound eq_refl).
Defined.

Lemma limit_held_witness :
  let tr := through "1.2.3.4" attempts_of_a_minute (answers Allow small attempts_of_a_minute) [] in
  length tr = 4%nat /\ held 2 (10 * Tm.minute) tr.
Proof.
  split; [vm_compute; reflexivity|].
  exact (limit_held "1.2.3.4" 2 (10 * Tm.minute) (15 * Tm.minute) 0 attempts_of_a_minute small_sound eq_refl).
Defined.
