(* ===== verification/AdminTables.v ===== *)
(** * The tables of administrators

    The accounts of the panel with their sessions, API tokens and recovery
    codes, and the audit trail, as finite maps by primary key, with one
    definition per statement of internal/store/db (queries admins.sql,
    sessions.sql, api_tokens.sql and audit.sql).  Deleting an account takes its
    sessions, tokens and codes along.

    [now()] and [gen_random_uuid()] are arguments.  A bytea that is NULL is the
    empty byte string, as the driver hands it over. *)

From stdpp Require Import sorting.
From S2P Require Import Prelude TelemtTypes.

Record AdminRow := {
  Username : string; PasswordHash : string; Role : string;
  TotpSecretEnc : string; TotpPendingEnc : string; TotpEnabled : bool;
  FailedLogins : Z; LockedUntil : option Z; CreatedAt : Z
}.

(** What a query returns: the identity and the row. *)
Record AdminUser := { a_ID : string; a_row : AdminRow }.

Record Session := { s_Admin : string; s_ExpiresAt : Z; s_Ip : string; s_UserAgent : string }.

Record SessionRow := { sr_Admin : string; sr_ExpiresAt : Z; sr_Username : string; sr_Role : string }.

Record ApiToken := {
  t_Admin : string; t_Name : string; t_Prefix : string; t_Hash : string; t_Scopes : list string;
  t_CreatedAt : Z; t_ExpiresAt : Z; t_LastUsedAt : option Z; t_RevokedAt : option Z
}.

Record TokenRow := { tr_ID : string; tr_Admin : string; tr_Scopes : list string; tr_Username : string; tr_Role : string }.

Record RecoveryCode := { rc_Admin : string; rc_Hash : string; rc_UsedAt : option Z }.

Record AuditRow := { au_Admin : option string; au_Action : string; au_Type : string; au_ID : string; au_Meta : object; au_Ip : string }.

Record AdminStore := {
  admins : gmap string AdminRow;
  sessions : gmap string Session;
  api_tokens : gmap string ApiToken;
  recovery_codes : gmap string RecoveryCode;
  audit_log : list AuditRow
}.

Definition with_admins (s : AdminStore) (m : gmap string AdminRow) : AdminStore :=
  {| admins := m; sessions := sessions s; api_tokens := api_tokens s; recovery_codes := recovery_codes s; audit_log := audit_log s |}.
Definition with_sessions (s : AdminStore) (m : gmap string Session) : AdminStore :=
  {| admins := admins s; sessions := m; api_tokens := api_tokens s; recovery_codes := recovery_codes s; audit_log := audit_log s |}.
Definition with_api_tokens (s : AdminStore) (m : gmap string ApiToken) : AdminStore :=
  {| admins := admins s; sessions := sessions s; api_tokens := m; recovery_codes := recovery_codes s; audit_log := audit_log s |}.
Definition with_codes (s : AdminStore) (m : gmap string RecoveryCode) : AdminStore :=
  {| admins := admins s; sessions := sessions s; api_tokens := api_tokens s; recovery_codes := m; audit_log := audit_log s |}.
Definition with_audit (s : AdminStore) (l : list AuditRow) : AdminStore :=
  {| admins := admins s; sessions := sessions s; api_tokens := api_tokens s; recovery_codes := recovery_codes s; audit_log := l |}.

(** ** Statements *)

Definition DB (A : Type) : Type := AdminStore -> result (A * AdminStore).

#[export] Instance DB_ret : MRet DB := fun A a s => Ok (a, s).
#[export] Instance DB_bind : MBind DB := fun A B k m s => match m s with Ok (a, s) => k a s | Err e => Err e end.

Definition db_fail {A} (e : error) : DB A := fun _ => Err e.
Definition db_read {A} (f : AdminStore -> A) : DB A := fun s => Ok (f s, s).
Definition db_modify (f : AdminStore -> AdminStore) : DB unit := fun s => Ok (tt, f s).
Definition db_each {A} (f : A -> DB unit) : list A -> DB unit := foldr (fun a k => _ ← f a; k) (mret tt).

Definition ErrNoRows : error := "no rows in result set".
Definition ErrUnique : error := "duplicate key value violates unique constraint".
Definition ErrForeign : error := "violates foreign key constraint".
Definition ErrCheck : error := "violates check constraint".
Definition ErrRange : error := "integer out of range".

Definition db_one {A} (f : AdminStore -> option A) : DB A :=
  o ← db_read f; match o with Some a => mret a | None => db_fail ErrNoRows end.

Definition admin_row (f : AdminRow -> AdminRow) (id : string) : DB unit := db_modify (fun s => with_admins s (alter f id (admins s))).

Definition GetAdmin (id : string) : DB AdminUser := db_one (fun s => (fun r => {| a_ID := id; a_row := r |}) <$> admins s !! id).

(** [username] is unique. *)
Definition named (name : string) (m : gmap string AdminRow) : list AdminUser :=
  (fun kv => {| a_ID := kv.1; a_row := kv.2 |}) <$> List.filter (fun kv => String.eqb (Username kv.2) name) (map_to_list m).

Definition GetAdminByUsername (name : string) : DB AdminUser := db_one (fun s => head (named name (admins s))).

Definition new_admin (now : Z) (name hash role : string) : AdminRow :=
  {| Username := name; PasswordHash := hash; Role := role; TotpSecretEnc := EmptyString; TotpPendingEnc := EmptyString;
     TotpEnabled := false; FailedLogins := 0; LockedUntil := None; CreatedAt := now |}.

Definition CreateAdmin (now : Z) (id name hash role : string) : DB AdminUser :=
  s ← db_read (fun s => s);
  if bool_decide (is_Some (admins s !! id)) || negb (match named name (admins s) with [] => true | _ => false end) then db_fail ErrUnique
  else _ ← db_modify (fun s => with_admins s (<[id := new_admin now name hash role]> (admins s))); GetAdmin id.

(** [ORDER BY created_at] *)
Definition by_age (u v : AdminUser) : Prop := CreatedAt (a_row u) <= CreatedAt (a_row v).

#[export] Instance by_age_dec u v : Decision (by_age u v).
Proof. unfold by_age. apply _. Defined.

Definition ListAdmins : DB (list AdminUser) := db_read (fun s => merge_sort by_age ((fun kv => {| a_ID := kv.1; a_row := kv.2 |}) <$> map_to_list (admins s))).

Definition is_owner (r : AdminRow) : bool := String.eqb (Role r) "owner".

Definition CountOwnersForUpdate : DB Z := db_read (fun s => Z.of_nat (size (filter (fun kv => is_owner kv.2 = true) (admins s)))).

Definition set_password (hash : string) (r : AdminRow) : AdminRow :=
  {| Username := Username r; PasswordHash := hash; Role := Role r; TotpSecretEnc := TotpSecretEnc r; TotpPendingEnc := TotpPendingEnc r;
     TotpEnabled := TotpEnabled r; FailedLogins := FailedLogins r; LockedUntil := LockedUntil r; CreatedAt := CreatedAt r |}.
Definition UpdateAdminPassword (id hash : string) : DB unit := admin_row (set_password hash) id.

Definition with_failures (r : AdminRow) (n : Z) (until : option Z) : AdminRow :=
  {| Username := Username r; PasswordHash := PasswordHash r; Role := Role r; TotpSecretEnc := TotpSecretEnc r; TotpPendingEnc := TotpPendingEnc r;
     TotpEnabled := TotpEnabled r; FailedLogins := n; LockedUntil := until; CreatedAt := CreatedAt r |}.

Definition lockAfter : Z := 20.
Definition lockFor : Z := 15 * Tm.minute.

(** A lock that has run out starts a new count. *)
Definition failed_once (now : Z) (r : AdminRow) : AdminRow :=
  let over := match LockedUntil r with Some t => t <=? now | None => false end in
  with_failures r (if over then 1 else FailedLogins r + 1)
    (if over then None else if FailedLogins r + 1 >=? lockAfter then Some (now + lockFor) else LockedUntil r).

Definition RecordFailedLogin (now : Z) (id : string) : DB unit :=
  s ← db_read (fun s => s);
  match admins s !! id with
  | Some r => if FailedLogins (failed_once now r) <? 2 ^ 31 then admin_row (failed_once now) id else db_fail ErrRange
  | None => mret tt
  end.

Definition ResetFailedLogins (id : string) : DB unit := admin_row (fun r => with_failures r 0 None) id.

(** [ON DELETE SET NULL] *)
Definition orphaned (id : string) (a : AuditRow) : AuditRow :=
  {| au_Admin := if bool_decide (au_Admin a = Some id) then None else au_Admin a; au_Action := au_Action a; au_Type := au_Type a; au_ID := au_ID a;
     au_Meta := au_Meta a; au_Ip := au_Ip a |}.

Definition DeleteAdmin (id : string) : DB unit :=
  db_modify (fun s => {| admins := delete id (admins s); sessions := filter (fun kv => s_Admin kv.2 <> id) (sessions s);
    api_tokens := filter (fun kv => t_Admin kv.2 <> id) (api_tokens s); recovery_codes := filter (fun kv => rc_Admin kv.2 <> id) (recovery_codes s);
    audit_log := orphaned id <$> audit_log s |}).

Definition set_totp (secret : string) (on : bool) (r : AdminRow) : AdminRow :=
  {| Username := Username r; PasswordHash := PasswordHash r; Role := Role r; TotpSecretEnc := secret; TotpPendingEnc := EmptyString;
     TotpEnabled := on; FailedLogins := FailedLogins r; LockedUntil := LockedUntil r; CreatedAt := CreatedAt r |}.
Definition SetAdminTOTP (id secret : string) (on : bool) : DB unit := admin_row (set_totp secret on) id.

Definition set_pending (secret : string) (r : AdminRow) : AdminRow :=
  {| Username := Username r; PasswordHash := PasswordHash r; Role := Role r; TotpSecretEnc := TotpSecretEnc r; TotpPendingEnc := secret;
     TotpEnabled := TotpEnabled r; FailedLogins := FailedLogins r; LockedUntil := LockedUntil r; CreatedAt := CreatedAt r |}.
Definition SetAdminTOTPPending (id secret : string) : DB unit := admin_row (set_pending secret) id.

Definition InsertRecoveryCode (rid id hash : string) : DB unit :=
  s ← db_read (fun s => s);
  if bool_decide (is_Some (admins s !! id)) then db_modify (fun s => with_codes s (<[rid := {| rc_Admin := id; rc_Hash := hash; rc_UsedAt := None |}]> (recovery_codes s)))
  else db_fail ErrForeign.

Definition usable (id hash : string) (c : RecoveryCode) : bool :=
  String.eqb (rc_Admin c) id && String.eqb (rc_Hash c) hash && match rc_UsedAt c with None => true | Some _ => false end.

Definition burnt (now : Z) (id hash : string) (c : RecoveryCode) : RecoveryCode :=
  if usable id hash c then {| rc_Admin := rc_Admin c; rc_Hash := rc_Hash c; rc_UsedAt := Some now |} else c.

Definition UseRecoveryCode (now : Z) (id hash : string) : DB Z :=
  n ← db_read (fun s => Z.of_nat (size (filter (fun kv => usable id hash kv.2 = true) (recovery_codes s))));
  _ ← db_modify (fun s => with_codes s (burnt now id hash <$> recovery_codes s));
  mret n.

Definition DeleteRecoveryCodes (id : string) : DB unit :=
  db_modify (fun s => with_codes s (filter (fun kv => rc_Admin kv.2 <> id) (recovery_codes s))).

(** ** Sessions *)

Definition CreateSession (sid id : string) (expires : Z) (ip agent : string) : DB unit :=
  s ← db_read (fun s => s);
  if bool_decide (is_Some (sessions s !! sid)) then db_fail ErrUnique
  else if bool_decide (is_Some (admins s !! id)) then
    db_modify (fun s => with_sessions s (<[sid := {| s_Admin := id; s_ExpiresAt := expires; s_Ip := ip; s_UserAgent := agent |}]> (sessions s)))
  else db_fail ErrForeign.

Definition session_row (now : Z) (sid : string) (s : AdminStore) : option SessionRow :=
  match sessions s !! sid with
  | Some x =>
      match admins s !! s_Admin x with
      | Some u => if s_ExpiresAt x >? now then Some {| sr_Admin := s_Admin x; sr_ExpiresAt := s_ExpiresAt x; sr_Username := Username u; sr_Role := Role u |} else None
      | None => None
      end
  | None => None
  end.

Definition GetSession (now : Z) (sid : string) : DB SessionRow := db_one (session_row now sid).

Definition touched (expires : Z) (x : Session) : Session :=
  {| s_Admin := s_Admin x; s_ExpiresAt := expires; s_Ip := s_Ip x; s_UserAgent := s_UserAgent x |}.
Definition TouchSession (sid : string) (expires : Z) : DB unit := db_modify (fun s => with_sessions s (alter (touched expires) sid (sessions s))).

Definition DeleteSession (sid : string) : DB unit := db_modify (fun s => with_sessions s (delete sid (sessions s))).

Definition DeleteUserSessions (id : string) : DB unit :=
  db_modify (fun s => with_sessions s (filter (fun kv => s_Admin kv.2 <> id) (sessions s))).

Definition DeleteExpiredSessions (now : Z) : DB unit :=
  db_modify (fun s => with_sessions s (filter (fun kv => s_ExpiresAt kv.2 > now) (sessions s))).

(** ** API tokens *)

Definition LockAPITokenOwner (id : string) : DB string := db_one (fun s => (fun _ => id) <$> admins s !! id).

Definition active (now : Z) (t : ApiToken) : bool :=
  match t_RevokedAt t with None => t_ExpiresAt t >? now | Some _ => false end.

Definition CountActiveAPITokens (now : Z) (id : string) : DB Z :=
  db_read (fun s => Z.of_nat (size (filter (fun kv => t_Admin kv.2 = id /\ active now kv.2 = true) (api_tokens s)))).

Definition CreateAPIToken (now : Z) (tid id name prefix hash : string) (scopes : list string) (expires : Z) : DB ApiToken :=
  let t := {| t_Admin := id; t_Name := name; t_Prefix := prefix; t_Hash := hash; t_Scopes := scopes; t_CreatedAt := now; t_ExpiresAt := expires;
              t_LastUsedAt := None; t_RevokedAt := None |} in
  s ← db_read (fun s => s);
  if bool_decide (is_Some (api_tokens s !! tid)) || bool_decide (map_Exists (fun _ x => t_Hash x = hash) (api_tokens s)) then db_fail ErrUnique
  else if negb (bool_decide (is_Some (admins s !! id))) then db_fail ErrForeign
  else _ ← db_modify (fun s => with_api_tokens s (<[tid := t]> (api_tokens s))); mret t.

(** [token_hash] is unique. *)
Definition with_hash (hash : string) (m : gmap string ApiToken) : list (string * ApiToken) :=
  List.filter (fun kv => String.eqb (t_Hash kv.2) hash) (map_to_list m).

Definition token_row (now : Z) (hash : string) (s : AdminStore) : option TokenRow :=
  match head (with_hash hash (api_tokens s)) with
  | Some (tid, t) =>
      match admins s !! t_Admin t with
      | Some u => if active now t then Some {| tr_ID := tid; tr_Admin := t_Admin t; tr_Scopes := t_Scopes t; tr_Username := Username u; tr_Role := Role u |} else None
      | None => None
      end
  | None => None
  end.

Definition GetActiveAPIToken (now : Z) (hash : string) : DB TokenRow := db_one (token_row now hash).

Definition used (now : Z) (t : ApiToken) : ApiToken :=
  if match t_LastUsedAt t with None => true | Some u => u <? now - Tm.minute end then
    {| t_Admin := t_Admin t; t_Name := t_Name t; t_Prefix := t_Prefix t; t_Hash := t_Hash t; t_Scopes := t_Scopes t; t_CreatedAt := t_CreatedAt t;
       t_ExpiresAt := t_ExpiresAt t; t_LastUsedAt := Some now; t_RevokedAt := t_RevokedAt t |}
  else t.
Definition TouchAPIToken (now : Z) (tid : string) : DB unit := db_modify (fun s => with_api_tokens s (alter (used now) tid (api_tokens s))).

(** [COALESCE(revoked_at, now())] *)
Definition revoked (now : Z) (t : ApiToken) : ApiToken :=
  {| t_Admin := t_Admin t; t_Name := t_Name t; t_Prefix := t_Prefix t; t_Hash := t_Hash t; t_Scopes := t_Scopes t; t_CreatedAt := t_CreatedAt t;
     t_ExpiresAt := t_ExpiresAt t; t_LastUsedAt := t_LastUsedAt t; t_RevokedAt := Some (default now (t_RevokedAt t)) |}.

Definition RevokeAPIToken (now : Z) (tid id : string) : DB Z :=
  s ← db_read (fun s => s);
  match api_tokens s !! tid with
  | Some t => if String.eqb (t_Admin t) id then _ ← db_modify (fun s => with_api_tokens s (<[tid := revoked now t]> (api_tokens s))); mret 1 else mret 0
  | None => mret 0
  end.

Definition RevokeAdminAPITokens (now : Z) (id : string) : DB unit :=
  db_modify (fun s => with_api_tokens s ((fun t => if String.eqb (t_Admin t) id then revoked now t else t) <$> api_tokens s)).

Definition InsertAudit (a : AuditRow) : DB unit :=
  s ← db_read (fun s => s);
  if match au_Admin a with Some id => bool_decide (is_Some (admins s !! id)) | None => true end
  then db_modify (fun s => with_audit s (audit_log s ++ [a])) else db_fail ErrForeign.
