(* ===== verification/Routes.v ===== *)
(** * Who may call what

    internal/api/rbac.go and api_token_policy.go: the roles a route asks for,
    the catalog of routes a personal API token can reach, and the routes
    server.go and the mount functions register behind
    [authenticateManagement].  Matching a path to its pattern is chi's; a
    request carries the pattern chi matched. *)

From S2P Require Import Prelude.

Definition RoleOwner : string := "owner".
Definition RoleAdmin : string := "admin".
Definition RoleViewer : string := "viewer".

(** [APITokenID] is empty for a session; [SessionID] is empty for a token. *)
Record Principal := {
  UserID : string; p_Username : string; p_Role : string; SessionID : string;
  APITokenID : string; APITokenScopes : list string
}.

Definition by_token (p : Principal) : bool := negb (String.eqb (APITokenID p) EmptyString).

Definition mem (s : string) (l : list string) : bool := existsb (String.eqb s) l.

Inductive refusal := Unauthorized | Forbidden | BadCsrf.

(** ** Roles *)

Definition writers : list string := [RoleOwner; RoleAdmin].

Definition RequireRole (roles : list string) (p : option Principal) : option refusal :=
  match p with
  | None => Some Unauthorized
  | Some p => if mem (p_Role p) roles then None else Some Forbidden
  end.

(** ** The catalog *)

Record APIRoute := { Method : string; Path_ : string; Scope_ : string; Summary : string; OwnerOnly : bool }.

Definition api (m p s t : string) (o : bool) : APIRoute := {| Method := m; Path_ := p; Scope_ := s; Summary := t; OwnerOnly := o |}.

Definition managementAPIRoutes : list APIRoute := [
  api "GET" "/api/v1/nodes" "nodes:read" "List nodes" false;
  api "GET" "/api/v1/nodes/{id}" "nodes:read" "Get node" false;
  api "GET" "/api/v1/nodes/{id}/probes" "nodes:read" "List node probes" false;
  api "GET" "/api/v1/nodes/{id}/health" "nodes:read" "Get node health" false;
  api "GET" "/api/v1/nodes/{id}/reliability" "nodes:read" "Get node reliability" false;
  api "GET" "/api/v1/nodes/{id}/blocklist" "nodes:read" "Get node blocklist" false;
  api "GET" "/api/v1/nodes/{id}/profiles" "nodes:read" "List node profiles" false;
  api "GET" "/api/v1/nodes/{id}/stats" "nodes:read" "Get node statistics" false;
  api "GET" "/api/v1/nodes/{id}/metrics" "nodes:read" "Get node metrics" false;
  api "GET" "/api/v1/nodes/{id}/jobs" "nodes:write" "List node apply jobs" false;
  api "GET" "/api/v1/nodes/{id}/web-policy" "nodes:read" "Get node web policy" false;
  api "GET" "/api/v1/nodes/{id}/web/carriers" "nodes:read" "Get node web carriers" false;
  api "GET" "/api/v1/nodes/{id}/telemt-update" "nodes:write" "List node update jobs" false;
  api "GET" "/api/v1/nodes/{id}/diagnostics" "nodes:write" "List node diagnostics" false;
  api "GET" "/api/v1/fleet/updates" "nodes:write" "List fleet updates" false;
  api "GET" "/api/v1/status/update" "nodes:read" "Get panel update status" false;
  api "POST" "/api/v1/nodes/preflight/dns" "nodes:write" "Check node DNS" false;
  api "POST" "/api/v1/nodes" "nodes:write" "Create node" false;
  api "PUT" "/api/v1/nodes/order" "nodes:write" "Reorder nodes" false;
  api "PATCH" "/api/v1/nodes/{id}" "nodes:write" "Update node" false;
  api "DELETE" "/api/v1/nodes/{id}" "nodes:write" "Delete node" false;
  api "GET" "/api/v1/nodes/{id}/install-command" "nodes:write" "Issue node install command" false;
  api "GET" "/api/v1/nodes/{id}/registration-secret" "nodes:write" "Get node registration secret" false;
  api "GET" "/api/v1/nodes/{id}/logs" "nodes:write" "Stream node logs" false;
  api "PUT" "/api/v1/nodes/{id}/reliability" "nodes:write" "Update node reliability" false;
  api "PUT" "/api/v1/nodes/{id}/blocklist" "nodes:write" "Update node blocklist" false;
  api "POST" "/api/v1/nodes/{id}/restart" "nodes:write" "Restart node" false;
  api "POST" "/api/v1/nodes/{id}/apply" "nodes:write" "Apply node configuration" false;
  api "POST" "/api/v1/nodes/{id}/web/lifecycle" "nodes:write" "Control node web lifecycle" false;
  api "PUT" "/api/v1/nodes/{id}/web-policy" "nodes:write" "Update node web policy" false;
  api "POST" "/api/v1/nodes/{id}/check" "nodes:write" "Check node" false;
  api "POST" "/api/v1/nodes/{id}/telemt-update" "nodes:write" "Update node telemt" false;
  api "POST" "/api/v1/nodes/{id}/diagnostics/web" "nodes:write" "Run node web diagnostics" false;
  api "POST" "/api/v1/fleet/updates" "nodes:write" "Start fleet update" false;
  api "POST" "/api/v1/fleet/updates/{id}/stop" "nodes:write" "Stop fleet update" false;
  api "GET" "/api/v1/keys" "users:read" "List users" false;
  api "GET" "/api/v1/keys/summary" "users:read" "Get user summary" false;
  api "GET" "/api/v1/keys/{id}" "users:read" "Get user" false;
  api "GET" "/api/v1/keys/{id}/stats" "users:read" "Get user statistics" false;
  api "GET" "/api/v1/keys/{id}/presence" "users:read" "Get people online for a user" false;
  api "POST" "/api/v1/keys" "users:write" "Create user" false;
  api "POST" "/api/v1/keys/batch" "users:write" "Create users in batch" false;
  api "POST" "/api/v1/keys/import" "users:write" "Import users" false;
  api "POST" "/api/v1/keys/bulk" "users:write" "Perform bulk user action" false;
  api "PATCH" "/api/v1/keys/{id}" "users:write" "Update user" false;
  api "DELETE" "/api/v1/keys/{id}" "users:write" "Delete user" false;
  api "POST" "/api/v1/keys/{id}/revoke" "users:write" "Revoke user" false;
  api "POST" "/api/v1/keys/{id}/rotate" "users:write" "Rotate user secret" false;
  api "POST" "/api/v1/keys/{id}/disable" "users:write" "Disable user" false;
  api "POST" "/api/v1/keys/{id}/enable" "users:write" "Enable user" false;
  api "GET" "/api/v1/keys/{id}/links" "users:write" "Get user proxy links" false;
  api "GET" "/api/v1/keys/{id}/qr" "users:write" "Get user proxy QR code" false;
  api "POST" "/api/v1/keys/{id}/bindings" "users:write" "Bind user to node" false;
  api "DELETE" "/api/v1/keys/{id}/bindings/{node}" "users:write" "Unbind user from node" false;
  api "POST" "/api/v1/keys/{id}/subscription" "users:write" "Issue user subscription" false;
  api "DELETE" "/api/v1/keys/{id}/subscription" "users:write" "Revoke user subscription" false;
  api "GET" "/api/v1/keys/{id}/subscription/qr" "users:write" "Get user subscription QR code" false;
  api "GET" "/api/v1/monitoring/overview" "monitoring:read" "Get monitoring overview" false;
  api "GET" "/api/v1/monitoring/nodes/{id}/series" "monitoring:read" "Get node monitoring series" false;
  api "GET" "/api/v1/monitoring/web/carriers" "monitoring:read" "Get fleet web carriers" false;
  api "GET" "/api/v1/dashboard/summary" "monitoring:read" "Get dashboard summary" false;
  api "GET" "/api/v1/dashboard/trends" "monitoring:read" "Get dashboard trends" false;
  api "GET" "/api/v1/alerts" "monitoring:read" "List alerts" false;
  api "GET" "/api/v1/status/public" "monitoring:read" "Get public service status" false;
  api "POST" "/api/v1/alerts/resolve" "monitoring:write" "Resolve alerts" false;
  api "POST" "/api/v1/alerts/{id}/resolve" "monitoring:write" "Resolve alert" false;
  api "GET" "/api/v1/site-templates" "sites:read" "List site templates" false;
  api "GET" "/api/v1/site-templates/{id}" "sites:read" "Get site template" false;
  api "GET" "/api/v1/nodes/{id}/site" "sites:read" "Get node site" false;
  api "GET" "/api/v1/nodes/{id}/site/preview" "sites:read" "Preview node site" false;
  api "POST" "/api/v1/site-templates/import" "sites:write" "Import site template" false;
  api "POST" "/api/v1/site-templates" "sites:write" "Create site template" false;
  api "POST" "/api/v1/site-templates/validate" "sites:write" "Validate site template" false;
  api "POST" "/api/v1/site-templates/{id}/customize" "sites:write" "Customize site template" false;
  api "PUT" "/api/v1/site-templates/{id}" "sites:write" "Update site template" false;
  api "DELETE" "/api/v1/site-templates/{id}" "sites:write" "Delete site template" false;
  api "POST" "/api/v1/nodes/{id}/site" "sites:write" "Assign node site" false;
  api "POST" "/api/v1/nodes/{id}/site/upstream" "sites:write" "Assign node upstream site" false;
  api "GET" "/api/v1/branding/profiles" "branding:read" "List branding profiles" false;
  api "POST" "/api/v1/branding/profiles" "branding:write" "Create branding profile" false;
  api "PUT" "/api/v1/branding/profiles/{id}" "branding:write" "Update branding profile" false;
  api "DELETE" "/api/v1/branding/profiles/{id}" "branding:write" "Delete branding profile" false;
  api "POST" "/api/v1/branding/profiles/{id}/activate" "branding:write" "Activate branding profile" false;
  api "POST" "/api/v1/branding/profiles/{id}/upload" "branding:write" "Upload branding asset" false;
  api "GET" "/api/v1/settings" "settings:read" "Get panel settings" false;
  api "GET" "/api/v1/settings/subscription-page/preview" "settings:read" "Preview subscription page" false;
  api "PUT" "/api/v1/settings" "settings:write" "Update panel settings" true;
  api "POST" "/api/v1/settings/telegram/test" "settings:write" "Test Telegram notifications" true;
  api "GET" "/api/v1/audit" "audit:read" "List audit events" false
]%string.

Definition managementRoute (method pattern : string) : option APIRoute :=
  let pattern := Str.trim_suffix pattern "/" in
  find (fun r => String.eqb (Method r) method && String.eqb (Path_ r) pattern) managementAPIRoutes.

Definition tokenScopeAllowed (role scope : string) : bool :=
  mem role [RoleOwner; RoleAdmin; RoleViewer] && (negb (String.eqb role RoleViewer) || Str.has_suffix scope ":read").

Definition principalCanWrite (p : option Principal) (resource : string) : bool :=
  match p with
  | None => false
  | Some p => mem (p_Role p) writers && (negb (by_token p) || mem (resource +:+ ":write") (APITokenScopes p))
  end.

Definition enforceAPITokenPolicy (p : option Principal) (method pattern : string) : option refusal :=
  match p with
  | Some p =>
      if by_token p then
        match managementRoute method pattern with
        | Some r =>
            if negb (mem (Scope_ r) (APITokenScopes p)) || negb (tokenScopeAllowed (p_Role p) (Scope_ r)) ||
               (OwnerOnly r && negb (String.eqb (p_Role p) RoleOwner))
            then Some Forbidden else None
        | None => Some Forbidden
        end
      else None
  | None => None
  end.

(** What the panel offers when a token is made. *)
Definition apiTokenScopes (role : string) : list string :=
  List.filter (fun id =>
      negb (String.eqb id "audit:write") &&
      negb (negb (tokenScopeAllowed role id) || (String.eqb role RoleViewer && Str.has_prefix id "branding:") ||
            (negb (String.eqb role RoleOwner) && String.eqb id "settings:write")))
    (["nodes"; "users"; "monitoring"; "sites"; "branding"; "settings"; "audit"]%string ≫= fun r => [r +:+ ":read"; r +:+ ":write"]).

(** ** The routes *)

Inductive guard := Anyone | Writers | Owners.
Record route := { rt_Method : string; rt_Pattern : string; rt_Guard : guard }.
Definition on (m p : string) (g : guard) : route := {| rt_Method := m; rt_Pattern := p; rt_Guard := g |}.

Definition role_check (g : guard) (p : option Principal) : option refusal :=
  match g with
  | Anyone => None
  | Writers => RequireRole writers p
  | Owners => RequireRole [RoleOwner] p
  end.

(** [With(RequireRole(...))] comes before the policy the router adds. *)
Definition admission (rt : route) (p : option Principal) : option refusal :=
  match role_check (rt_Guard rt) p with
  | Some e => Some e
  | None => enforceAPITokenPolicy p (rt_Method rt) (rt_Pattern rt)
  end.

Definition account_routes : list route := [
  on "GET" "/api/v1/api-tokens" Anyone;
  on "GET" "/api/v1/api-tokens/scopes" Anyone;
  on "POST" "/api/v1/api-tokens" Anyone;
  on "DELETE" "/api/v1/api-tokens/{id}" Anyone;
  on "GET" "/api/v1/auth/me" Anyone;
  on "GET" "/api/v1/status/public" Anyone;
  on "POST" "/api/v1/auth/logout" Anyone;
  on "GET" "/api/v1/status/update" Anyone;
  on "POST" "/api/v1/me/password" Anyone;
  on "POST" "/api/v1/auth/totp/setup" Anyone;
  on "POST" "/api/v1/auth/totp/confirm" Anyone;
  on "POST" "/api/v1/auth/totp/disable" Anyone;
  on "GET" "/api/v1/admins" Owners;
  on "POST" "/api/v1/admins" Owners;
  on "DELETE" "/api/v1/admins/{id}" Owners
]%string.

Definition node_routes : list route := [
  on "GET" "/api/v1/nodes" Anyone;
  on "POST" "/api/v1/nodes/preflight/dns" Writers;
  on "POST" "/api/v1/nodes" Writers;
  on "PUT" "/api/v1/nodes/order" Writers;
  on "GET" "/api/v1/nodes/{id}/" Anyone;
  on "PATCH" "/api/v1/nodes/{id}/" Writers;
  on "DELETE" "/api/v1/nodes/{id}/" Writers;
  on "GET" "/api/v1/nodes/{id}/install-command" Writers;
  on "GET" "/api/v1/nodes/{id}/registration-secret" Writers;
  on "GET" "/api/v1/nodes/{id}/probes" Anyone;
  on "GET" "/api/v1/nodes/{id}/health" Anyone;
  on "GET" "/api/v1/nodes/{id}/reliability" Anyone;
  on "PUT" "/api/v1/nodes/{id}/reliability" Writers;
  on "GET" "/api/v1/nodes/{id}/blocklist" Anyone;
  on "PUT" "/api/v1/nodes/{id}/blocklist" Writers;
  on "GET" "/api/v1/nodes/{id}/profiles" Anyone;
  on "GET" "/api/v1/nodes/{id}/stats" Anyone;
  on "GET" "/api/v1/nodes/{id}/metrics" Anyone;
  on "GET" "/api/v1/nodes/{id}/logs" Anyone;
  on "GET" "/api/v1/nodes/{id}/jobs" Anyone;
  on "POST" "/api/v1/nodes/{id}/restart" Writers;
  on "POST" "/api/v1/nodes/{id}/apply" Writers;
  on "GET" "/api/v1/nodes/{id}/web-policy" Anyone;
  on "GET" "/api/v1/nodes/{id}/web/carriers" Anyone;
  on "POST" "/api/v1/nodes/{id}/web/lifecycle" Writers;
  on "PUT" "/api/v1/nodes/{id}/web-policy" Writers;
  on "POST" "/api/v1/nodes/{id}/check" Writers;
  on "POST" "/api/v1/nodes/{id}/telemt-update" Writers;
  on "GET" "/api/v1/nodes/{id}/telemt-update" Anyone;
  on "GET" "/api/v1/nodes/{id}/diagnostics" Anyone;
  on "POST" "/api/v1/nodes/{id}/diagnostics/web" Writers;
  on "POST" "/api/v1/nodes/{id}/site" Writers;
  on "POST" "/api/v1/nodes/{id}/site/upstream" Writers;
  on "GET" "/api/v1/nodes/{id}/site" Anyone;
  on "GET" "/api/v1/nodes/{id}/site/preview" Anyone
]%string.

Definition key_routes : list route := [
  on "GET" "/api/v1/keys" Anyone;
  on "GET" "/api/v1/keys/summary" Anyone;
  on "POST" "/api/v1/keys" Writers;
  on "POST" "/api/v1/keys/batch" Writers;
  on "POST" "/api/v1/keys/import" Writers;
  on "POST" "/api/v1/keys/bulk" Writers;
  on "GET" "/api/v1/keys/{id}/" Anyone;
  on "GET" "/api/v1/keys/{id}/stats" Anyone;
  on "GET" "/api/v1/keys/{id}/presence" Anyone;
  on "PATCH" "/api/v1/keys/{id}/" Writers;
  on "DELETE" "/api/v1/keys/{id}/" Writers;
  on "POST" "/api/v1/keys/{id}/revoke" Writers;
  on "POST" "/api/v1/keys/{id}/rotate" Writers;
  on "POST" "/api/v1/keys/{id}/disable" Writers;
  on "POST" "/api/v1/keys/{id}/enable" Writers;
  on "GET" "/api/v1/keys/{id}/links" Writers;
  on "GET" "/api/v1/keys/{id}/qr" Writers;
  on "POST" "/api/v1/keys/{id}/bindings" Writers;
  on "DELETE" "/api/v1/keys/{id}/bindings/{node}" Writers;
  on "POST" "/api/v1/keys/{id}/subscription" Writers;
  on "DELETE" "/api/v1/keys/{id}/subscription" Writers;
  on "GET" "/api/v1/keys/{id}/subscription/qr" Writers
]%string.

Definition service_routes : list route := [
  on "GET" "/api/v1/subscription-service" Writers;
  on "PUT" "/api/v1/subscription-service" Owners;
  on "POST" "/api/v1/subscription-service/token" Owners;
  on "DELETE" "/api/v1/subscription-service/token" Owners
]%string.

Definition site_routes : list route := [
  on "GET" "/api/v1/site-templates" Anyone;
  on "POST" "/api/v1/site-templates/import" Writers;
  on "POST" "/api/v1/site-templates" Writers;
  on "POST" "/api/v1/site-templates/validate" Writers;
  on "GET" "/api/v1/site-templates/{id}" Anyone;
  on "POST" "/api/v1/site-templates/{id}/customize" Writers;
  on "PUT" "/api/v1/site-templates/{id}" Writers;
  on "DELETE" "/api/v1/site-templates/{id}" Writers
]%string.

Definition branding_routes : list route := [
  on "GET" "/api/v1/branding/profiles" Writers;
  on "POST" "/api/v1/branding/profiles" Writers;
  on "PUT" "/api/v1/branding/profiles/{id}" Writers;
  on "DELETE" "/api/v1/branding/profiles/{id}" Writers;
  on "POST" "/api/v1/branding/profiles/{id}/activate" Writers;
  on "POST" "/api/v1/branding/profiles/{id}/upload" Writers
]%string.

Definition dashboard_routes : list route := [
  on "GET" "/api/v1/dashboard/summary" Anyone;
  on "GET" "/api/v1/dashboard/trends" Anyone;
  on "GET" "/api/v1/alerts" Anyone;
  on "POST" "/api/v1/alerts/resolve" Writers;
  on "POST" "/api/v1/alerts/{id}/resolve" Writers
]%string.

Definition fleet_routes : list route := [
  on "GET" "/api/v1/fleet/updates" Anyone;
  on "POST" "/api/v1/fleet/updates" Writers;
  on "POST" "/api/v1/fleet/updates/{id}/stop" Writers
]%string.

Definition monitoring_routes : list route := [
  on "GET" "/api/v1/monitoring/overview" Anyone;
  on "GET" "/api/v1/monitoring/nodes/{id}/series" Anyone;
  on "GET" "/api/v1/monitoring/web/carriers" Anyone
]%string.

Definition settings_routes : list route := [
  on "GET" "/api/v1/settings" Anyone;
  on "PUT" "/api/v1/settings" Owners;
  on "POST" "/api/v1/settings/telegram/test" Owners;
  on "GET" "/api/v1/settings/subscription-page/preview" Writers
]%string.

Definition backup_routes : list route := [
  on "GET" "/api/v1/backups" Owners;
  on "POST" "/api/v1/backups" Owners;
  on "GET" "/api/v1/backups/{id}/download" Owners;
  on "DELETE" "/api/v1/backups/{id}" Owners
]%string.

Definition audit_routes : list route := [
  on "GET" "/api/v1/audit" Anyone
]%string.

Definition mountProtected : list route :=
  node_routes ++ key_routes ++ service_routes ++ site_routes ++ branding_routes ++ dashboard_routes ++ fleet_routes ++
  monitoring_routes ++ settings_routes ++ backup_routes ++ audit_routes.

Definition protected_routes : list route := account_routes ++ mountProtected.

(** ** The policy and the routes agree *)

Definition same_route (a : APIRoute) (rt : route) : bool :=
  String.eqb (Method a) (rt_Method rt) && String.eqb (Path_ a) (Str.trim_suffix (rt_Pattern rt) "/").

Definition read_scope (a : APIRoute) : bool := Str.has_suffix (Scope_ a) ":read".
Definition owners_guard (rt : route) : bool := match rt_Guard rt with Owners => true | _ => false end.

(** Routes on which accounts, sessions, tokens and backups are handled. *)
Definition sensitive (rt : route) : bool :=
  existsb (fun p => Str.has_prefix (rt_Pattern rt) p)
    ["/api/v1/auth/"; "/api/v1/api-tokens"; "/api/v1/admins"; "/api/v1/me/"; "/api/v1/backups"; "/api/v1/subscription-service"]%string.

Lemma mem_spec s l : mem s l = true <-> s ∈ l.
Proof.
  unfold mem. rewrite existsb_exists, list_elem_of_In. split.
  - by intros (x & Hx & ->%String.eqb_eq).
  - intros Hs. exists s. by rewrite String.eqb_refl.
Qed.

Definition catalog_ok (a : APIRoute) : bool :=
  (length (List.filter (same_route a) protected_routes) =? 1)%nat &&
  forallb (fun rt => negb (same_route a rt) || (Bool.eqb (OwnerOnly a) (owners_guard rt) && negb (sensitive rt))) protected_routes &&
  (negb (read_scope a) || String.eqb (Method a) "GET").

Lemma catalog_checked : forallb catalog_ok managementAPIRoutes = true.
Proof. by vm_compute. Qed.

Lemma managementRoute_spec m p a : managementRoute m p = Some a ->
  a ∈ managementAPIRoutes /\ forall g, same_route a (on m p g) = true.
Proof.
  unfold managementRoute. intros H. apply find_some in H as [Hin Hb]. split; [by apply list_elem_of_In|]. intros g. unfold same_route. cbn [on rt_Method rt_Pattern]. exact Hb.
Qed.

#[local] Opaque protected_routes managementAPIRoutes.

(** C39: A request made with a personal API token reaches a route only when the
    catalog lists it and the token has the scope the catalog names; an
    owner-only route needs the owner's token and a viewer's token reaches
    nothing but GET routes of a read scope.  No token reaches an account, a
    session, another token or a backup.  And the catalog is true of the router:
    each entry is one registered route, owner-only exactly when the router
    guards it so. *)
Theorem token_confined p rt : by_token p = true -> rt ∈ protected_routes -> admission rt (Some p) = None ->
  sensitive rt = false /\
  exists a, a ∈ managementAPIRoutes /\ same_route a rt = true /\ Scope_ a ∈ APITokenScopes p /\
    (OwnerOnly a = owners_guard rt) /\ (OwnerOnly a = true -> p_Role p = RoleOwner) /\
    p_Role p ∈ [RoleOwner; RoleAdmin; RoleViewer] /\
    (p_Role p = RoleViewer -> read_scope a = true /\ Method a = "GET"%string) /\
    (forall rt', rt' ∈ protected_routes -> same_route a rt' = true -> rt' = rt).
Proof.
  intros Ht Hin Ha. unfold admission in Ha. destruct (role_check (rt_Guard rt) (Some p)); [done|].
  unfold enforceAPITokenPolicy in Ha. rewrite Ht in Ha. destruct (managementRoute _ _) as [a|] eqn:Ea; [|done].
  destruct (_ || _) eqn:Eb in Ha; [done|]. apply orb_false_iff in Eb as [Eb Eo]. apply orb_false_iff in Eb as [Es Er].
  apply negb_false_iff, mem_spec in Es. apply negb_false_iff in Er. unfold tokenScopeAllowed in Er. apply andb_true_iff in Er as [Er Ev]. apply mem_spec in Er.
  apply managementRoute_spec in Ea as [Hcat Hsame]. specialize (Hsame (rt_Guard rt)).
  assert (Hs : same_route a rt = true) by exact Hsame.
  apply list_elem_of_In in Hin as HinP. apply list_elem_of_In in Hcat as HinC.
  pose proof (proj1 (forallb_forall _ _) catalog_checked a HinC) as Hok. unfold catalog_ok in Hok.
  apply andb_true_iff in Hok as [Hok Hget]. apply andb_true_iff in Hok as [Hone Hall]. rewrite forallb_forall in Hall.
  specialize (Hall rt HinP) as Hrt. rewrite Hs in Hrt. cbn [negb orb] in Hrt. apply andb_true_iff in Hrt as [Howner Hsens].
  apply eqb_prop in Howner. apply negb_true_iff in Hsens. split; [done|]. exists a. split_and!; try done.
  - intros Ho. rewrite Ho in Eo. cbn in Eo. by apply negb_false_iff, String.eqb_eq in Eo.
  - intros Hv. rewrite Hv in Ev. change (negb (String.eqb RoleViewer RoleViewer)) with false in Ev. cbn [orb] in Ev. split; [exact Ev|].
    unfold read_scope in Hget. rewrite Ev in Hget. cbn [negb orb] in Hget. by apply String.eqb_eq.
  - intros rt' Hin' Hs'. apply Nat.eqb_eq in Hone. destruct (List.filter (same_route a) protected_routes) as [|x [|]] eqn:Ef; try done.
    assert (Hx : forall y, y ∈ protected_routes -> same_route a y = true -> y = x).
    { intros y Hy Hys. assert (In y [x]) by (rewrite <- Ef; apply filter_In; split; [by apply list_elem_of_In|done]). cbn in *. by destruct H. }
    by rewrite (Hx rt' Hin' Hs'), (Hx rt Hin Hs).
Qed.

(** The scopes the panel offers to a role are of use: a token with such a
    scope reaches a route, and what is not offered reaches none. *)
Definition reaches (role scope : string) : bool :=
  existsb (fun rt => match admission rt (Some {| UserID := "u"; p_Username := "u"; p_Role := role; SessionID := EmptyString; APITokenID := "t"; APITokenScopes := [scope] |})
                     with None => true | Some _ => false end) protected_routes.

Lemma offered_scopes_reach :
  forallb (fun role => forallb (fun id => Bool.eqb (mem id (apiTokenScopes role)) (reaches role id))
    (map Scope_ managementAPIRoutes)) [RoleOwner; RoleAdmin; RoleViewer] = true.
Proof. by vm_compute. Qed.

Definition reader : Principal :=
  {| UserID := "1"; p_Username := "v"; p_Role := RoleViewer; SessionID := EmptyString; APITokenID := "9"; APITokenScopes := ["nodes:read"; "nodes:write"]%string |}.

Lemma token_confined_witness :
  let rt := on "GET" "/api/v1/nodes/{id}/" Anyone in
  admission rt (Some reader) = None /\ sensitive rt = false /\ admission (on "POST" "/api/v1/nodes/{id}/apply" Writers) (Some reader) = Some Forbidden.
Proof.
  intros rt. split; [by vm_compute|]. split; [|by vm_compute]. refine (proj1 (token_confined reader rt eq_refl _ _)); [|by vm_compute].
  apply list_elem_of_In. vm_compute. repeat (first [by left|right]).
Defined.
