(* ===== verification/Auth.v ===== *)
(** * Signing in

    internal/api: auth.go, session.go, totp.go, known_device.go, csrf.go and
    api_tokens.go, with the middleware of server.go in front of them.

    A handler is a program ([prog]) that puts one statement after another
    ([stmt]): to the database, to the login limiter, to the clock, to the random
    source, to the password check and to the box that seals secrets; anything
    may answer an error.  What comes between two statements of one request is
    not the program's: [AuthSafety] runs many at once.

    A request carries what net/http and chi made of it: the cookies, the
    headers, the parameter of the path and the decoded body ([None] is the error
    of [decodeJSON]); [r_Visitor] is [VisitorKey] of the caller's address.  Log
    lines, the provisioning URL and the QR code of a set-up, and of an issued API
    token all but the secret are left out; the lists of tokens and scopes change
    nothing and are not modelled.  Parsing of UUIDs (google/uuid) and the
    one-time codes (pquerna/otp) are the classes [Uuid] and [Otp]. *)

From S2P Require Import Prelude Crypto TelemtTypes RateLimit AdminTables Routes.

Local Open Scope go_scope.

Class Uuid := {
  parse_uuid : string -> option string;
  parse_uuid_canonical : forall s u, parse_uuid s = Some u -> parse_uuid u = Some u;
  parse_uuid_plain : forall s u, parse_uuid s = Some u -> Str.index_byte s "|" = None
}.

Class Otp := {
  (** [totp.Validate]: period 30 s, one step of skew, six digits *)
  validate_code : string -> string -> Z -> bool
}.

(** ** Statements and programs *)

Inductive query : Type -> Type :=
| QGetAdminByUsername (name : string) : query AdminUser
| QGetAdmin (id : string) : query AdminUser
| QListAdmins : query (list AdminUser)
| QCreateAdmin (name hash role : string) : query AdminUser
| QDeleteAdmin (id : string) : query unit
| QRecordFailedLogin (id : string) : query unit
| QResetFailedLogins (id : string) : query unit
| QCreateSession (sid id : string) (expires : Z) (ip agent : string) : query unit
| QGetSession (sid : string) : query SessionRow
| QTouchSession (sid : string) (expires : Z) : query unit
| QDeleteSession (sid : string) : query unit
| QDeleteUserSessions (id : string) : query unit
| QSetAdminTOTPPending (id enc : string) : query unit
| QUseRecoveryCode (id hash : string) : query Z
| QGetActiveAPIToken (hash : string) : query TokenRow
| QTouchAPIToken (tid : string) : query unit
| QRevokeAPIToken (tid id : string) : query Z
| QInsertAudit (a : AuditRow) : query unit
(** transactions *)
| TxPassword (id hash : string) : query unit
| TxEnroll (id enc : string) (codes : list string) : query unit
| TxDisable (id : string) : query unit
| TxDeleteOwner (id self : string) : query bool
| TxIssueToken (p : Principal) (name prefix hash : string) (scopes : list string) (days : Z) : query (string * ApiToken).

(** [RandomBytes] is what the recovery codes are made of: the bytes of the random
    source until a read fails. *)
Inductive stmt : Type -> Type :=
| Now : stmt Z
| LimiterAllow (key : string) : stmt bool
| LimiterBlocked (key : string) : stmt bool
| CheckPassword (password phc : string) : stmt (result bool)
| NewHash (password : string) : stmt (result string)
| NewToken : stmt (result string)
| GenerateSecret : stmt (result string)
| RandomBytes : stmt (list Z)
| EncryptString (s : string) : stmt (result string)
| DecryptString (s : string) : stmt (result string)
| Db {A} (q : query A) : stmt (result A).

Inductive prog (A : Type) : Type :=
| Ret (a : A)
| Do {B} (s : stmt B) (k : B -> prog A).
Arguments Ret {A} _.
Arguments Do {A B} _ _.

Fixpoint prog_bind {A B} (m : prog A) (k : A -> prog B) : prog B :=
  match m with Ret a => k a | Do s f => Do s (fun b => prog_bind (f b) k) end.

#[export] Instance prog_ret : MRet prog := fun A => Ret.
#[export] Instance prog_mbind : MBind prog := fun A B k m => prog_bind m k.

Definition ask {B} (s : stmt B) : prog B := Do s Ret.
Definition db {A} (q : query A) : prog (result A) := ask (Db q).
(** [_ = q(...)] *)
Definition db_ {A} (q : query A) : prog unit := _ ← db q; mret tt.

(** ** Requests and responses *)

Record request := {
  r_Visitor : string; r_IP : string; r_UserAgent : string;
  r_Cookies : list (string * string);
  r_Authorization : list string;
  r_CsrfHeader : string
}.

Fixpoint find_cookie (name : string) (l : list (string * string)) : option string :=
  match l with [] => None | (n, v) :: l => if String.eqb n name then Some v else find_cookie name l end.
Definition Cookie (r : request) (name : string) : option string := find_cookie name (r_Cookies r).

Record cookie := { c_Name : string; c_Value : string; c_Path : string; c_HttpOnly : bool; c_Strict : bool; c_MaxAge : Z }.

Inductive payload :=
| NoBody
| ErrorBody (code msg : string) (fields : list (string * string))
| Challenge (token : string)
| Json (v : json).

Record response := { status : Z; body : payload; set_cookies : list cookie }.

Definition reply (st : Z) (b : payload) (c : list cookie) : response := {| status := st; body := b; set_cookies := c |}.
Definition writeError (st : Z) (code msg : string) (fields : list (string * string)) : response := reply st (ErrorBody code msg fields) [].
Definition badRequest (msg : string) : response := writeError 400 "bad_request" msg [].
Definition unauthorized : response := writeError 401 "unauthorized" "authentication required" [].
Definition forbidden : response := writeError 403 "forbidden" "not allowed" [].
Definition notFound : response := writeError 404 "not_found" "not found" [].
Definition conflict (msg : string) : response := writeError 409 "conflict" msg [].
Definition validation (f : list (string * string)) : response := writeError 422 "validation" "invalid input" f.
Definition internal : response := writeError 500 "internal" "internal error" [].
Definition decode_error : response := badRequest "invalid JSON body".

Definition ErrBusy : error := "password hashing is saturated".
Definition Canceled : error := "context canceled".
Definition DeadlineExceeded : error := "context deadline exceeded".

Definition passwordUnavailable {A} (r : result A) : bool :=
  match r with Err e => mem e [ErrBusy; Canceled; DeadlineExceeded] | Ok _ => false end.
Definition busy : response := writeError 503 "busy" "the server is busy, try again in a moment" [].

Definition dummyPasswordHash : string :=
  "$argon2id$v=19$m=65536,t=3,p=2$AAAAAAAAAAAAAAAAAAAAAA$AAAAAAAAAAAAAAAAAAAAAAAAAAAAAAAAAAAAAAAAAAA".

(** ** The panel *)

Definition sessionCookie : string := "tgwp_session".
Definition csrfCookie : string := "tgwp_csrf".
Definition deviceCookie : string := "tgwp_device".
Definition sessionTTL : Z := 24 * Tm.hour.
Definition deviceTTL : Z := 90 * 24 * Tm.hour.
Definition challengeTTL : Z := 5 * Tm.minute.
Definition devicePrefix : string := "device:".
Definition challengePrefix : string := "totp:".
Definition deviceScope : string := "/api/v1/auth".
Definition seconds (d : Z) : Z := d / Tm.second.

Section Panel.
Context `{Uuid} `{Otp}.
Context (signer : Signer) (FeatureTOTP : bool).

(** *** Audit *)

Definition token_meta (p : option Principal) (meta : object) : object :=
  match p with
  | Some p => if by_token p then meta ++ [("api_token_id", JString (APITokenID p))]%string else meta
  | None => meta
  end.

Definition Audit (r : request) (p : option Principal) (action kind id : string) (meta : object) : prog unit :=
  db_ (QInsertAudit {| au_Admin := UserID <$> p; au_Action := action; au_Type := kind; au_ID := id; au_Meta := token_meta p meta; au_Ip := r_IP r |}).

Definition maxLoggedUsername : nat := 64.
Definition clipUsername (u : string) : string :=
  if (maxLoggedUsername <? String.length u)%nat then Str.take maxLoggedUsername u +:+ "…" else u.

Definition recordLoginFailure (r : request) (p : option Principal) (reason username id : string) : prog unit :=
  Audit r p "auth.login_failed" "admin" id [("reason", JString reason); ("username", JString (clipUsername username))]%string.

(** *** Known devices *)

Definition credentialGeneration (u : AdminRow) : string :=
  let h := Sha.Sum256 (PasswordHash u +:+ String Ascii.zero (TotpSecretEnc u +:+ (if TotpEnabled u then String Ascii.one EmptyString else EmptyString))) in
  Hex.encode (Str.take 16 h).

Definition unix_seconds (t : Z) : Z := t / Tm.second.

Definition devicePayload (id : string) (expires : Z) : string := devicePrefix +:+ id +:+ "|" +:+ Dec.itoa expires.

(** The payload with the MAC of the payload and the generation. *)
Definition deviceToken (u : AdminUser) (now : Z) : string :=
  let payload := devicePayload (a_ID u) (unix_seconds (Tm.add now deviceTTL)) in
  let signed := Sign signer (payload +:+ "|" +:+ credentialGeneration (a_row u)) in
  payload +:+ match last_index_byte signed "." with Some i => Str.drop i signed | None => signed end.

Definition device_cookie (u : AdminUser) (now : Z) : cookie :=
  {| c_Name := deviceCookie; c_Value := deviceToken u now; c_Path := deviceScope; c_HttpOnly := true; c_Strict := true; c_MaxAge := seconds deviceTTL |}.

Definition knownDevice (r : request) (u : AdminUser) (now : Z) : bool :=
  match Cookie r deviceCookie with
  | None => false
  | Some v =>
      match last_index_byte v "." with
      | Some (S _ as i) =>
          let payload := Str.take i v in let mac := Str.drop i v in
          match Verify signer (payload +:+ "|" +:+ credentialGeneration (a_row u) +:+ mac) with
          | None => false
          | Some _ =>
              match Str.cut_prefix payload devicePrefix with
              | None => false
              | Some rest =>
                  let '(idStr, expStr, ok) := Str.cut rest "|" in
                  if negb ok then false
                  else match parse_uuid idStr with
                       | Some id =>
                           if negb (String.eqb id (a_ID u)) then false
                           else match Dec.atoi expStr with Some exp => Tm.before now (exp * Tm.second) | None => false end
                       | None => false
                       end
              end
          end
      | _ => false
      end
  end.

(** [refreshKnownDevice] *)
Definition refreshKnownDevice (id : string) : prog (list cookie) :=
  u ← db (QGetAdmin id);
  match u with
  | Ok u => now ← ask Now; mret [device_cookie u now]
  | Err _ => mret []
  end.

(** *** Sessions *)

Definition session_cookie (sid : string) : cookie :=
  {| c_Name := sessionCookie; c_Value := Sign signer sid; c_Path := "/"; c_HttpOnly := true; c_Strict := false; c_MaxAge := seconds sessionTTL |}.
Definition csrf_cookie (v : string) : cookie :=
  {| c_Name := csrfCookie; c_Value := v; c_Path := "/"; c_HttpOnly := false; c_Strict := false; c_MaxAge := seconds sessionTTL |}.

Definition issueSession (r : request) (id : string) : prog (result (list cookie)) :=
  sid ← ask NewToken;
  match sid with
  | Err e => mret (Err e)
  | Ok sid =>
      now ← ask Now;
      c ← db (QCreateSession sid id (Tm.add now sessionTTL) (r_IP r) (r_UserAgent r));
      match c with
      | Err e => mret (Err e)
      | Ok _ => csrf ← ask NewToken; mret (Ok [session_cookie sid; csrf_cookie (match csrf with Ok t => t | Err _ => EmptyString end)])
      end
  end.

Definition clearSession : list cookie :=
  (fun n => {| c_Name := n; c_Value := EmptyString; c_Path := "/"; c_HttpOnly := String.eqb n sessionCookie; c_Strict := false; c_MaxAge := -1 |})
    <$> [sessionCookie; csrfCookie].

Definition loadSession (r : request) : prog (option Principal) :=
  match Cookie r sessionCookie with
  | None => mret None
  | Some v =>
      match Verify signer v with
      | None => mret None
      | Some sid =>
          row ← db (QGetSession sid);
          match row with
          | Err _ => mret None
          | Ok x =>
              now ← ask Now;
              _ ← (if Tm.sub (sr_ExpiresAt x) now <? sessionTTL / 2
                   then t ← ask Now; db_ (QTouchSession sid (Tm.add t sessionTTL)) else mret tt);
              mret (Some {| UserID := sr_Admin x; p_Username := sr_Username x; p_Role := sr_Role x; SessionID := sid; APITokenID := EmptyString; APITokenScopes := [] |})
          end
      end
  end.

(** *** Bearer tokens *)

Definition isBearer (v : string) : bool := let '(scheme, _, _) := Str.cut (Str.trim_space v) " " in Str.equal_fold scheme "Bearer".

(** The token of the one Authorization header, when it is well formed. *)
Definition bearer_token (values : list string) : option string :=
  match values with
  | [v] =>
      match Str.split " " v with
      | [scheme; t] =>
          match Str.cut_prefix t "tgwp_" with
          | Some b =>
              if Str.equal_fold scheme "Bearer" then
                match RawURL.DecodeStrict b with Some bytes => if (String.length bytes =? 32)%nat then Some t else None | None => None end
              else None
          | None => None
          end
      | _ => None
      end
  | _ => None
  end.

(** The principal a request is served for; a bad token never falls back to the
    session. *)
Definition authenticateManagement (r : request) (session : option Principal) : prog (option Principal) :=
  if negb (existsb isBearer (r_Authorization r)) then mret session
  else match bearer_token (r_Authorization r) with
       | None => mret None
       | Some t =>
           row ← db (QGetActiveAPIToken (Sha.Sum256 t));
           match row with
           | Err _ => mret None
           | Ok x =>
               _ ← db_ (QTouchAPIToken (tr_ID x));
               mret (Some {| UserID := tr_Admin x; p_Username := tr_Username x; p_Role := tr_Role x; SessionID := EmptyString;
                             APITokenID := tr_ID x; APITokenScopes := tr_Scopes x |})
           end
       end.

Definition csrfCheck (r : request) (p : Principal) (method : string) : option refusal :=
  if by_token p then None
  else if mem method ["GET"; "HEAD"; "OPTIONS"]%string then None
  else match Cookie r csrfCookie with
       | Some v => if negb (String.eqb (r_CsrfHeader r) EmptyString) && String.eqb v (r_CsrfHeader r) then None else Some BadCsrf
       | None => Some BadCsrf
       end.

Definition refuse (e : refusal) : response :=
  match e with
  | Unauthorized => unauthorized
  | Forbidden => forbidden
  | BadCsrf => writeError 403 "csrf" "missing or invalid CSRF token" []
  end.

(** *** Signing in *)

Definition accountLocked (u : AdminRow) (now : Z) : bool := match LockedUntil u with Some t => Tm.after t now | None => false end.

Definition lockedOut (r : request) (u : AdminUser) : prog bool :=
  now ← ask Now; mret (accountLocked (a_row u) now && negb (knownDevice r u now)).

Definition completeLogin (r : request) (u : AdminUser) : prog (result (list cookie)) :=
  now ← ask Now;
  _ ← (if negb (accountLocked (a_row u) now) then db_ (QResetFailedLogins (a_ID u)) else mret tt);
  c ← issueSession r (a_ID u);
  match c with
  | Err e => mret (Err e)
  | Ok c => now ← ask Now; mret (Ok (c ++ [device_cookie u now]))
  end.

Definition meJSON (id username role : string) (on : bool) : json :=
  JObject [("id", JString id); ("username", JString username); ("role", JString role); ("totp_enabled", JBool on);
           ("features", JObject [("totp", JBool FeatureTOTP)])]%string.

Definition signed_in (u : AdminUser) : Principal :=
  {| UserID := a_ID u; p_Username := Username (a_row u); p_Role := Role (a_row u); SessionID := EmptyString; APITokenID := EmptyString; APITokenScopes := [] |}.

Definition newTOTPChallenge (id : string) (now : Z) : string :=
  Sign signer (challengePrefix +:+ id +:+ "|" +:+ Dec.itoa (unix_seconds (Tm.add now challengeTTL))).

Inductive challengeState := challengeInvalid | challengeExpired | challengeValid (id : string).

Definition parseTOTPChallenge (token : string) (now : Z) : challengeState :=
  match Verify signer token with
  | None => challengeInvalid
  | Some value =>
      match Str.cut_prefix value challengePrefix with
      | None => challengeInvalid
      | Some p =>
          let '(idStr, expStr, ok) := Str.cut p "|" in
          if negb ok then challengeInvalid
          else match Dec.atoi expStr with
               | None => challengeInvalid
               | Some exp =>
                   match parse_uuid idStr with
                   | None => challengeInvalid
                   | Some id => if Tm.after now (exp * Tm.second) then challengeExpired else challengeValid id
                   end
               end
      end
  end.

Record loginReq := { l_Username : string; l_Password : string }.

Definition invalid_credentials : response := writeError 401 "invalid_credentials" "wrong username or password" [].
Definition rate_limited : response := writeError 429 "rate_limited" "too many attempts, try later" [].

(** [s] is the principal [loadSession] found, for the audit trail. *)
Definition handleLogin (r : request) (s : option Principal) (req : option loginReq) : prog response :=
  allowed ← ask (LimiterAllow (r_Visitor r));
  if negb allowed then mret rate_limited
  else match req with
  | None => mret decode_error
  | Some q =>
      ur ← db (QGetAdminByUsername (l_Username q));
      match ur with
      | Err _ =>
          burn ← ask (CheckPassword (l_Password q) dummyPasswordHash);
          if passwordUnavailable burn then mret busy
          else _ ← recordLoginFailure r s "unknown_user" (l_Username q) EmptyString; mret invalid_credentials
      | Ok u =>
          locked ← lockedOut r u;
          if (locked : bool) then
            burn ← ask (CheckPassword (l_Password q) dummyPasswordHash);
            if passwordUnavailable burn then mret busy
            else
              _ ← db_ (QRecordFailedLogin (a_ID u));
              _ ← recordLoginFailure r s "locked" (Username (a_row u)) (a_ID u); mret invalid_credentials
          else
            ok ← ask (CheckPassword (l_Password q) (PasswordHash (a_row u)));
            if passwordUnavailable ok then mret busy
            else match ok with
            | Ok true =>
                if FeatureTOTP && TotpEnabled (a_row u) then
                  now ← ask Now; mret (reply 200 (Challenge (newTOTPChallenge (a_ID u) now)) [])
                else
                  c ← completeLogin r u;
                  match c with
                  | Err _ => mret internal
                  | Ok c =>
                      _ ← Audit r (Some (signed_in u)) "auth.login" "admin" (a_ID u) [];
                      mret (reply 200 (Json (meJSON (a_ID u) (Username (a_row u)) (Role (a_row u)) (TotpEnabled (a_row u)))) c)
                  end
            | _ =>
                _ ← db_ (QRecordFailedLogin (a_ID u));
                _ ← recordLoginFailure r s "bad_password" (Username (a_row u)) (a_ID u); mret invalid_credentials
            end
      end
  end.

Definition feature_disabled : response := writeError 404 "feature_disabled" "two-factor authentication is disabled" [].

(** The code in force, or a recovery code, which is burnt. *)
Definition acceptSecondFactor (u : AdminUser) (code recovery : string) : prog bool :=
  if negb (String.eqb recovery EmptyString) then
    n ← db (QUseRecoveryCode (a_ID u) (HashToken (Str.to_lower recovery)));
    mret (match n with Ok n => n =? 1 | Err _ => false end)
  else if String.eqb code EmptyString || String.eqb (TotpSecretEnc (a_row u)) EmptyString then mret false
  else
    secret ← ask (DecryptString (TotpSecretEnc (a_row u)));
    match secret with
    | Err _ => mret false
    | Ok secret => now ← ask Now; mret (validate_code secret code now)
    end.

Record totpVerifyReq := { v_Challenge : string; v_Code : string; v_RecoveryCode : string }.

Definition invalid_code : response := writeError 401 "invalid_code" "wrong code" [].

Definition handleTOTPVerify (r : request) (s : option Principal) (req : option totpVerifyReq) : prog response :=
  if negb FeatureTOTP then mret feature_disabled
  else
    blocked ← ask (LimiterBlocked (r_Visitor r));
    if (blocked : bool) then mret rate_limited
    else match req with
    | None => mret decode_error
    | Some q =>
        now ← ask Now;
        match parseTOTPChallenge (v_Challenge q) now with
        | challengeExpired => mret (writeError 401 "challenge_expired" "this sign-in attempt expired, start again" [])
        | challengeInvalid => mret invalid_code
        | challengeValid id =>
            ur ← db (QGetAdmin id);
            match ur with
            | Err _ => mret invalid_code
            | Ok u =>
                if negb (TotpEnabled (a_row u)) then mret invalid_code
                else
                  let recovery := Str.trim_space (v_RecoveryCode q) in
                  let usedRecovery := negb (String.eqb recovery EmptyString) in
                  locked ← lockedOut r u;
                  accepted ← (if (locked : bool) then mret false else acceptSecondFactor u (Str.trim_space (v_Code q)) recovery);
                  if negb accepted then
                    _ ← db_ (QRecordFailedLogin (a_ID u));
                    _ ← ask (LimiterAllow (r_Visitor r));
                    _ ← recordLoginFailure r s (if (locked : bool) then "locked" else if usedRecovery then "bad_recovery_code" else "bad_totp_code") (Username (a_row u)) (a_ID u);
                    mret invalid_code
                  else
                    c ← completeLogin r u;
                    match c with
                    | Err _ => mret internal
                    | Ok c =>
                        _ ← Audit r (Some (signed_in u)) "auth.login" "admin" (a_ID u) [((if usedRecovery then "recovery" else "totp"), JBool true)]%string;
                        mret (reply 200 (Json (meJSON (a_ID u) (Username (a_row u)) (Role (a_row u)) (TotpEnabled (a_row u)))) c)
                    end
            end
        end
    end.

(** *** The account of the caller *)

Definition handleMe (p : Principal) : prog response :=
  u ← db (QGetAdmin (UserID p));
  match u with
  | Err _ => mret internal
  | Ok u => mret (reply 200 (Json (meJSON (UserID p) (p_Username p) (p_Role p) (TotpEnabled (a_row u)))) [])
  end.

Definition handleLogout (p : Principal) : prog response :=
  _ ← db_ (QDeleteSession (SessionID p)); mret (reply 204 NoBody clearSession).

Record changePasswordReq := { cp_Current : string; cp_New : string }.

Definition handleChangePassword (r : request) (p : Principal) (req : option changePasswordReq) : prog response :=
  match req with
  | None => mret decode_error
  | Some q =>
      if (String.length (cp_New q) <? 10)%nat then mret (validation [("new", "at least 10 characters")]%string)
      else
        ur ← db (QGetAdmin (UserID p));
        match ur with
        | Err _ => mret internal
        | Ok u =>
            ok ← ask (CheckPassword (cp_Current q) (PasswordHash (a_row u)));
            if passwordUnavailable ok then mret busy
            else match ok with
            | Ok true =>
                hash ← ask (NewHash (cp_New q));
                if passwordUnavailable hash then mret busy
                else match hash with
                | Err _ => mret internal
                | Ok hash =>
                    t ← db (TxPassword (UserID p) hash);
                    match t with
                    | Err _ => mret internal
                    | Ok _ =>
                        c ← issueSession r (UserID p);
                        match c with
                        | Err _ => mret internal
                        | Ok c =>
                            d ← refreshKnownDevice (UserID p);
                            _ ← Audit r (Some p) "auth.password_changed" "admin" (UserID p) [];
                            mret (reply 204 NoBody (c ++ d))
                        end
                    end
                end
            | _ => mret (validation [("current", "wrong password")]%string)
            end
        end
  end.

(** *** The second factor *)

Definition handleTOTPSetup (p : Principal) : prog response :=
  if negb FeatureTOTP then mret feature_disabled
  else
    secret ← ask GenerateSecret;
    match secret with
    | Err _ => mret internal
    | Ok secret =>
        enc ← ask (EncryptString secret);
        match enc with
        | Err _ => mret internal
        | Ok enc =>
            t ← db (QSetAdminTOTPPending (UserID p) enc);
            match t with
            | Err _ => mret internal
            | Ok _ => mret (reply 200 (Json (JObject [("secret", JString secret)]%string)) [])
            end
        end
    end.

Definition recoveryAlphabet : string := "abcdefghijklmnopqrstuvwxyz0123456789".
Definition recoveryCodeCount : nat := 8.

(** [randomLetter]: the next byte below 252 picks the letter. *)
Fixpoint randomLetter (bytes : list Z) : result (ascii * list Z) :=
  match bytes with
  | [] => Err "totp: read random"
  | b :: bytes =>
      if b <? 256 - 256 mod 36 then
        match String.get (Z.to_nat (b mod 36)) recoveryAlphabet with Some c => Ok (c, bytes) | None => Err "index out of range" end
      else randomLetter bytes
  end.

Fixpoint letters (n : nat) (bytes : list Z) : result (string * list Z) :=
  match n with
  | O => Ok (EmptyString, bytes)
  | S n =>
      let? (c, bytes) := randomLetter bytes in
      let? (s, bytes) := letters n bytes in
      Ok (String c s, bytes)
  end.

Definition recoveryCode (bytes : list Z) : result (string * list Z) :=
  let? (a, bytes) := letters 5 bytes in
  let? (b, bytes) := letters 5 bytes in
  Ok (a +:+ "-" +:+ b, bytes).

Fixpoint more_codes (fuel n : nat) (out : list string) (bytes : list Z) : result (list string) :=
  if (n <=? length out)%nat then Ok out
  else match fuel with
       | O => Err "totp: could not generate distinct recovery codes"
       | S fuel =>
           let? (c, bytes) := recoveryCode bytes in
           more_codes fuel n (if mem c out then out else out ++ [c]) bytes
       end.

(** At most [100 * n + 1] codes are drawn. *)
Definition NewRecoveryCodes (n : nat) (bytes : list Z) : result (list string) :=
  if (n =? 0)%nat then Err "totp: recovery code count must be positive" else more_codes (S (100 * n)) n [] bytes.

Record totpConfirmReq := { tc_Password : string; tc_Code : string }.

Definition handleTOTPConfirm (r : request) (p : Principal) (req : option totpConfirmReq) : prog response :=
  if negb FeatureTOTP then mret feature_disabled
  else match req with
  | None => mret decode_error
  | Some q =>
      ur ← db (QGetAdmin (UserID p));
      match ur with
      | Err _ => mret internal
      | Ok u =>
          ok ← ask (CheckPassword (tc_Password q) (PasswordHash (a_row u)));
          if passwordUnavailable ok then mret busy
          else match ok with
          | Ok true =>
              if String.eqb (TotpPendingEnc (a_row u)) EmptyString then mret (conflict "start a setup first")
              else
                sr ← ask (DecryptString (TotpPendingEnc (a_row u)));
                match sr with
                | Err _ => mret internal
                | Ok secret =>
                    now ← ask Now;
                    if negb (validate_code secret (Str.trim_space (tc_Code q)) now) then mret (validation [("code", "wrong code")]%string)
                    else
                      enc ← ask (EncryptString secret);
                      match enc with
                      | Err _ => mret internal
                      | Ok enc =>
                          bytes ← ask RandomBytes;
                          match NewRecoveryCodes recoveryCodeCount bytes with
                          | Err _ => mret internal
                          | Ok codes =>
                              t ← db (TxEnroll (UserID p) enc codes);
                              match t with
                              | Err _ => mret internal
                              | Ok _ =>
                                  _ ← db_ (QDeleteUserSessions (UserID p));
                                  c ← issueSession r (UserID p);
                                  match c with
                                  | Err _ => mret internal
                                  | Ok c =>
                                      d ← refreshKnownDevice (UserID p);
                                      _ ← Audit r (Some p) "auth.totp_enabled" "admin" (UserID p) [];
                                      mret (reply 200 (Json (JObject [("recovery_codes", JArray (JString <$> codes))]%string)) (c ++ d))
                                  end
                              end
                          end
                      end
                end
          | _ => mret (validation [("password", "wrong password")]%string)
          end
      end
  end.

Record totpDisableReq := { td_Password : string; td_Code : string; td_RecoveryCode : string }.

Definition handleTOTPDisable (r : request) (p : Principal) (req : option totpDisableReq) : prog response :=
  if negb FeatureTOTP then mret feature_disabled
  else match req with
  | None => mret decode_error
  | Some q =>
      ur ← db (QGetAdmin (UserID p));
      match ur with
      | Err _ => mret internal
      | Ok u =>
          if negb (TotpEnabled (a_row u)) then mret (conflict "two-factor authentication is not enabled")
          else
            ok ← ask (CheckPassword (td_Password q) (PasswordHash (a_row u)));
            if passwordUnavailable ok then mret busy
            else match ok with
            | Ok true =>
                accepted ← acceptSecondFactor u (Str.trim_space (td_Code q)) (Str.trim_space (td_RecoveryCode q));
                if negb accepted then mret (validation [("code", "wrong code")]%string)
                else
                  t ← db (TxDisable (UserID p));
                  match t with
                  | Err _ => mret internal
                  | Ok _ =>
                      d ← refreshKnownDevice (UserID p);
                      _ ← Audit r (Some p) "auth.totp_disabled" "admin" (UserID p) [];
                      mret (reply 204 NoBody d)
                  end
            | _ => mret (validation [("password", "wrong password")]%string)
            end
      end
  end.

(** *** Administrators *)

Record createAdminReq := { ca_Username : string; ca_Password : string; ca_Role : string }.

Definition admin_json (u : AdminUser) : object := [("id", JString (a_ID u)); ("username", JString (Username (a_row u))); ("role", JString (Role (a_row u)))]%string.

(** [created_at] in nanoseconds; the answer has it as RFC 3339 text. *)
Definition admin_item (u : AdminUser) : json :=
  JObject (admin_json u ++ [("totp_enabled", JBool (TotpEnabled (a_row u))); ("created_at", JNumber (Dec.itoa (CreatedAt (a_row u))))]%string).

Definition handleListAdmins : prog response :=
  rows ← db QListAdmins;
  match rows with
  | Err _ => mret internal
  | Ok l => mret (reply 200 (Json (JObject [("items", JArray (admin_item <$> l)); ("total", JNumber (Dec.itoa (Z.of_nat (length l))))]%string)) [])
  end.

Definition create_fields (q : createAdminReq) : list (string * string) :=
  (if (String.length (ca_Username q) <? 2)%nat then [("username", "at least 2 characters")]%string else []) ++
  (if (String.length (ca_Password q) <? 10)%nat then [("password", "at least 10 characters")]%string else []) ++
  (if mem (ca_Role q) [RoleOwner; RoleAdmin; RoleViewer] then [] else [("role", "owner, admin or viewer")]%string).

Definition handleCreateAdmin (r : request) (p : Principal) (req : option createAdminReq) : prog response :=
  match req with
  | None => mret decode_error
  | Some q =>
      match create_fields q with
      | _ :: _ as f => mret (validation f)
      | [] =>
          hash ← ask (NewHash (ca_Password q));
          if passwordUnavailable hash then mret busy
          else match hash with
          | Err _ => mret internal
          | Ok hash =>
              u ← db (QCreateAdmin (ca_Username q) hash (ca_Role q));
              match u with
              | Err _ => mret (conflict "username already exists")
              | Ok u =>
                  _ ← Audit r (Some p) "admin.create" "admin" (a_ID u) [("username", JString (Username (a_row u))); ("role", JString (Role (a_row u)))]%string;
                  mret (reply 201 (Json (JObject (admin_json u))) [])
              end
          end
      end
  end.

Definition handleDeleteAdmin (r : request) (p : Principal) (param : string) : prog response :=
  match parse_uuid param with
  | None => mret notFound
  | Some id =>
      tr ← db (QGetAdmin id);
      match tr with
      | Err _ => mret notFound
      | Ok target =>
          if is_owner (a_row target) then
            t ← db (TxDeleteOwner id (UserID p));
            match t with
            | Err _ => mret internal
            | Ok lastOwner =>
                if (lastOwner : bool) then mret (conflict "cannot delete the last owner")
                else if String.eqb (UserID p) id then mret (conflict "cannot delete yourself")
                else _ ← Audit r (Some p) "admin.delete" "admin" id []; mret (reply 204 NoBody [])
            end
          else if String.eqb (UserID p) id then mret (conflict "cannot delete yourself")
          else
            t ← db (QDeleteAdmin id);
            match t with
            | Err _ => mret internal
            | Ok _ => _ ← Audit r (Some p) "admin.delete" "admin" id []; mret (reply 204 NoBody [])
            end
      end
  end.

(** *** API tokens *)

Definition maxAPITokens : Z := 50.
Definition maxAPITokenDays : Z := 365.

(** The runes of a text; what [encoding/json] decoded is valid UTF-8. *)
Fixpoint RuneCountInString (s : string) : Z :=
  match s with
  | EmptyString => 0
  | String c s => (if (128 <=? byte_of c) && (byte_of c <? 192) then 0 else 1) + RuneCountInString s
  end.

Record createTokenReq := { ct_Name : string; ct_ExpiresInDays : Z; ct_Scopes : list string }.

Definition token_fields (q : createTokenReq) (name : string) : list (string * string) :=
  (if (RuneCountInString name <? 1) || (RuneCountInString name >? 80) then [("name", "1–80 characters")]%string else []) ++
  (if (ct_ExpiresInDays q <? 1) || (ct_ExpiresInDays q >? maxAPITokenDays) then [("expires_in_days", "1–365 days")]%string else []) ++
  (if (length (ct_Scopes q) =? 0)%nat then [("scopes", "at least one scope is required")]%string else []).

Definition normalized_scopes (l : list string) : list string := foldl (fun out s => if mem s out then out else out ++ [s]) [] l.

Definition errAPITokenLimit : error := "API token limit reached".
Definition errAPITokenSessionExpired : error := "API token issuing session expired".
Definition errAPITokenScopeUnavailable : error := "API token scope unavailable".

Definition handleCreateAPIToken (r : request) (p : Principal) (req : option createTokenReq) : prog response :=
  match req with
  | None => mret decode_error
  | Some q =>
      let name := Str.trim_space (ct_Name q) in
      match token_fields q name with
      | _ :: _ as f => mret (validation f)
      | [] =>
          sr ← ask NewToken;
          match sr with
          | Err _ => mret internal
          | Ok s =>
              let secret := "tgwp_" +:+ s in
              t ← db (TxIssueToken p name (Str.take 13 secret) (Sha.Sum256 secret) (normalized_scopes (ct_Scopes q)) (ct_ExpiresInDays q));
              match t with
              | Ok (tid, t) =>
                  _ ← Audit r (Some p) "api_token.create" "api_token" tid [("name", JString (t_Name t)); ("scopes", JArray (JString <$> t_Scopes t))]%string;
                  mret (reply 201 (Json (JObject [("token", JString secret)]%string)) [])
              | Err e =>
                  if String.eqb e errAPITokenSessionExpired then mret unauthorized
                  else if String.eqb e errAPITokenScopeUnavailable then mret (validation [("scopes", "unknown or unavailable scope")]%string)
                  else if String.eqb e errAPITokenLimit then mret (conflict "maximum 50 active API tokens")
                  else mret internal
              end
          end
      end
  end.

Definition handleRevokeAPIToken (r : request) (p : Principal) (param : string) : prog response :=
  match parse_uuid param with
  | None => mret notFound
  | Some tid =>
      n ← db (QRevokeAPIToken tid (UserID p));
      match n with
      | Err _ => mret internal
      | Ok n => if n =? 0 then mret notFound else _ ← Audit r (Some p) "api_token.revoke" "api_token" tid []; mret (reply 204 NoBody [])
      end
  end.

(** ** The router *)

Inductive call :=
| CLogin (q : option loginReq)
| CVerify (q : option totpVerifyReq)
| CMe | CLogout
| CPassword (q : option changePasswordReq)
| CSetup | CConfirm (q : option totpConfirmReq) | CDisable (q : option totpDisableReq)
| CListAdmins | CCreateAdmin (q : option createAdminReq) | CDeleteAdmin (id : string)
| CCreateToken (q : option createTokenReq) | CRevokeToken (id : string).

(** The registered route of a call behind [authenticateManagement]. *)
Definition route_of (c : call) : option route :=
  match c with
  | CLogin _ | CVerify _ => None
  | CMe => Some (on "GET" "/api/v1/auth/me" Anyone)
  | CLogout => Some (on "POST" "/api/v1/auth/logout" Anyone)
  | CPassword _ => Some (on "POST" "/api/v1/me/password" Anyone)
  | CSetup => Some (on "POST" "/api/v1/auth/totp/setup" Anyone)
  | CConfirm _ => Some (on "POST" "/api/v1/auth/totp/confirm" Anyone)
  | CDisable _ => Some (on "POST" "/api/v1/auth/totp/disable" Anyone)
  | CListAdmins => Some (on "GET" "/api/v1/admins" Owners)
  | CCreateAdmin _ => Some (on "POST" "/api/v1/admins" Owners)
  | CDeleteAdmin _ => Some (on "DELETE" "/api/v1/admins/{id}" Owners)
  | CCreateToken _ => Some (on "POST" "/api/v1/api-tokens" Anyone)
  | CRevokeToken _ => Some (on "DELETE" "/api/v1/api-tokens/{id}" Anyone)
  end.

Definition handle (r : request) (s : option Principal) (p : Principal) (c : call) : prog response :=
  match c with
  | CLogin q => handleLogin r s q
  | CVerify q => handleTOTPVerify r s q
  | CMe => handleMe p
  | CLogout => handleLogout p
  | CPassword q => handleChangePassword r p q
  | CSetup => handleTOTPSetup p
  | CConfirm q => handleTOTPConfirm r p q
  | CDisable q => handleTOTPDisable r p q
  | CListAdmins => handleListAdmins
  | CCreateAdmin q => handleCreateAdmin r p q
  | CDeleteAdmin id => handleDeleteAdmin r p id
  | CCreateToken q => handleCreateAPIToken r p q
  | CRevokeToken id => handleRevokeAPIToken r p id
  end.

Definition serve (r : request) (c : call) : prog response :=
  s ← loadSession r;
  match route_of c, c with
  | Some rt, _ =>
      pr ← authenticateManagement r s;
      match pr with
      | None => mret unauthorized
      | Some p =>
          match csrfCheck r p (rt_Method rt) with
          | Some e => mret (refuse e)
          | None =>
              match admission rt (Some p) with
              | Some e => mret (refuse e)
              | None => handle r s p c
              end
          end
      end
  | None, CLogin q => handleLogin r s q
  | None, CVerify q => handleTOTPVerify r s q
  | None, _ => mret notFound
  end.

End Panel.

(** ** Running queries *)

Section Queries.
(** The instant of the statement, and the identities the database draws. *)
Context (now : Z) (draw : nat -> string).

Definition issue_token (p : Principal) (name prefix hash : string) (scopes : list string) (days : Z) : DB (string * ApiToken) :=
  let session_error {A} (m : DB A) : DB A := fun s => match m s with Err e => Err (if String.eqb e ErrNoRows then errAPITokenSessionExpired else e) | ok => ok end in
  _ ← session_error (LockAPITokenOwner (UserID p));
  x ← session_error (GetSession now (SessionID p));
  if negb (String.eqb (sr_Admin x) (UserID p)) || negb (Tm.after (sr_ExpiresAt x) now) then db_fail errAPITokenSessionExpired
  else if negb (forallb (fun s => mem s (apiTokenScopes (sr_Role x))) scopes) then db_fail errAPITokenScopeUnavailable
  else
    n ← CountActiveAPITokens now (UserID p);
    if n >=? maxAPITokens then db_fail errAPITokenLimit
    else t ← CreateAPIToken now (draw O) (UserID p) name prefix hash scopes (now + days * 24 * Tm.hour); mret (draw O, t).

Definition enroll (id enc : string) (codes : list string) : DB unit :=
  _ ← SetAdminTOTP id enc true;
  _ ← DeleteRecoveryCodes id;
  _ ← RevokeAdminAPITokens now id;
  db_each (fun ic => InsertRecoveryCode (draw ic.1) id (HashToken ic.2)) (zip (seq 0 (length codes)) codes).

Definition delete_owner (id self : string) : DB bool :=
  owners ← CountOwnersForUpdate;
  if owners <=? 1 then mret true
  else if String.eqb self id then mret false
  else _ ← DeleteAdmin id; mret false.

Definition change_password (id hash : string) : DB unit :=
  _ ← UpdateAdminPassword id hash;
  _ ← RevokeAdminAPITokens now id;
  DeleteUserSessions id.

Definition disable_totp (id : string) : DB unit :=
  _ ← SetAdminTOTP id EmptyString false;
  DeleteRecoveryCodes id.

Definition run_query {A} (q : query A) : DB A :=
  match q with
  | QGetAdminByUsername n => GetAdminByUsername n
  | QGetAdmin id => GetAdmin id
  | QListAdmins => ListAdmins
  | QCreateAdmin n h ro => CreateAdmin now (draw O) n h ro
  | QDeleteAdmin id => DeleteAdmin id
  | QRecordFailedLogin id => RecordFailedLogin now id
  | QResetFailedLogins id => ResetFailedLogins id
  | QCreateSession sid id e ip ag => CreateSession sid id e ip ag
  | QGetSession sid => GetSession now sid
  | QTouchSession sid e => TouchSession sid e
  | QDeleteSession sid => DeleteSession sid
  | QDeleteUserSessions id => DeleteUserSessions id
  | QSetAdminTOTPPending id e => SetAdminTOTPPending id e
  | QUseRecoveryCode id h => UseRecoveryCode now id h
  | QGetActiveAPIToken h => GetActiveAPIToken now h
  | QTouchAPIToken t => TouchAPIToken now t
  | QRevokeAPIToken t id => RevokeAPIToken now t id
  | QInsertAudit a => InsertAudit a
  | TxPassword id h => change_password id h
  | TxEnroll id enc codes => enroll id enc codes
  | TxDisable id => disable_totp id
  | TxDeleteOwner id self => delete_owner id self
  | TxIssueToken p n pre h sc d => issue_token p n pre h sc d
  end.

End Queries.
