(* ===== verification/AuthLogic.v ===== *)
(** * What a request does before it creates a session

    The evidence a request has gathered when it puts a statement: a session is
    created only after the password of the account was accepted, or a second
    factor on top of a signed challenge, or on behalf of a session of the same
    account ([serve_grounded]).  The logic ([guarded]) follows the program for
    every answer the statements may get. *)

From S2P Require Import Prelude Crypto TelemtTypes RateLimit AdminTables Routes Auth.

Local Open Scope go_scope.

(** ** Histories *)

Inductive event : Type :=
| Ev {B : Type} (s : stmt B) (b : B).
Abbreviation history := (list event).

Section Guard.
(** What an answer may be. *)
Context (fits : forall B, stmt B -> B -> Prop).

(** Every statement the program puts satisfies [P], and its result [Q], of the
    history so far. *)
Fixpoint guarded {A} (P : history -> forall B, stmt B -> Prop) (Q : history -> A -> Prop) (h : history) (p : prog A) : Prop :=
  match p with
  | Ret a => Q h a
  | Do s k => P h _ s /\ forall b, fits _ s b -> guarded P Q (h ++ [Ev s b]) (k b)
  end.

Lemma guarded_mono {A} P (Q Q' : history -> A -> Prop) h p :
  (forall h a, Q h a -> Q' h a) -> guarded P Q h p -> guarded P Q' h p.
Proof. intros HQ. revert h. induction p as [a|B s k IH]; intros h; cbn; [apply HQ|]. intros [Hs Hk]. split; [done|]. intros b Hb. by apply IH, Hk. Qed.

Lemma guarded_bind {A B} P (Q : history -> B -> Prop) h (m : prog A) (k : A -> prog B) :
  guarded P (fun h a => guarded P Q h (k a)) h m -> guarded P Q h (m ≫= k).
Proof. revert h. induction m as [a|C s f IH]; intros h; cbn; [done|]. intros [Hs Hf]. split; [done|]. intros b Hb. by apply IH, Hf. Qed.

(** A program that keeps a fact puts only statements that pass under it. *)
Lemma guarded_ask {B} P (Q : history -> B -> Prop) h (s : stmt B) :
  P h _ s -> (forall b, fits _ s b -> Q (h ++ [Ev s b]) b) -> guarded P Q h (ask s).
Proof. intros Hs Hq. split; [done|]. intros b Hb. by apply Hq. Qed.

End Guard.

Arguments guarded fits {A} P Q h p : simpl never.

(** ** Evidence *)

Create HintDb evidence.

Section Evidence.
Context `{Uuid} `{Otp}.
Context (signer : Signer) (FeatureTOTP : bool).

(** An identity of the tables is canonical and not empty, a row is read under
    its identity, and a token is the text of the bytes drawn. *)
Definition plausible {B} (s : stmt B) : B -> Prop :=
  match s in stmt B return B -> Prop with
  | NewToken => fun b => match b with Ok t => exists bytes, t = token_of bytes | Err _ => True end
  | Db q =>
      match q in query C return result C -> Prop with
      | QGetAdmin id => fun b => match b with Ok u => a_ID u = id /\ parse_uuid (a_ID u) = Some (a_ID u) | Err _ => True end
      | QGetActiveAPIToken _ => fun b => match b with Ok x => tr_ID x <> EmptyString | Err _ => True end
      | QGetAdminByUsername _ => fun b => match b with Ok u => parse_uuid (a_ID u) = Some (a_ID u) | Err _ => True end
      | _ => fun _ => True
      end
  | _ => fun _ => True
  end.

Definition password_checked (h : history) (u : AdminUser) : Prop :=
  (exists n, Ev (Db (QGetAdminByUsername n)) (Ok u) ∈ h) /\ (exists pw, Ev (CheckPassword pw (PasswordHash (a_row u))) (Ok true) ∈ h).

Definition factor_accepted (h : history) (u : AdminUser) : Prop :=
  TotpEnabled (a_row u) = true /\
  ((exists code, Ev (Db (QUseRecoveryCode (a_ID u) (HashToken code))) (Ok 1) ∈ h) \/
   (exists secret code t, Ev (DecryptString (TotpSecretEnc (a_row u))) (Ok secret) ∈ h /\ Ev Now t ∈ h /\ validate_code secret code t = true)).

Definition needs_factor (u : AdminUser) : bool := FeatureTOTP && TotpEnabled (a_row u).

(** Why a session of [uid] may be created: by call [c] with history [h]. *)
Inductive grounds (c : call) (h : history) (uid : string) : Prop :=
| by_password u : a_ID u = uid -> password_checked h u -> needs_factor u = false -> grounds c h uid
| by_factor q t u : c = CVerify (Some q) -> Ev Now t ∈ h -> parseTOTPChallenge signer (v_Challenge q) t = challengeValid uid ->
    a_ID u = uid -> factor_accepted h u -> grounds c h uid
| by_session sid row : Ev (Db (QGetSession sid)) (Ok row) ∈ h -> sr_Admin row = uid -> grounds c h uid.

Definition creates (e : event) : bool := match e with Ev s _ => match s with Db (QCreateSession _ _ _ _ _) => true | _ => false end end.
Definition none_created (h : history) : Prop := forallb (fun e => negb (creates e)) h = true.

(** A session has a new identity and is the only one the request creates; an
    account is deleted outside a transaction only when it is no owner's. *)
Definition grounded (c : call) (h : history) (B : Type) (s : stmt B) : Prop :=
  match s with
  | Db q =>
      match q with
      | QCreateSession sid uid _ _ _ => none_created h /\ Ev NewToken (Ok sid) ∈ h /\ grounds c h uid
      | QDeleteAdmin id => exists u, Ev (Db (QGetAdmin id)) (Ok u) ∈ h /\ is_owner (a_row u) = false
      | _ => True
      end
  | _ => True
  end.

(** What a response hands out: a challenge for a checked password, a session
    cookie for a token that was drawn. *)
Definition handed (h : history) (r : response) : Prop :=
  (forall t, body r = Challenge t -> exists u now, password_checked h u /\ needs_factor u = true /\
     parse_uuid (a_ID u) = Some (a_ID u) /\ t = newTOTPChallenge signer (a_ID u) now) /\
  (forall k, k ∈ set_cookies r -> c_Name k = sessionCookie -> c_Value k = EmptyString \/ exists bytes, c_Value k = Sign signer (token_of bytes)).

Abbreviation safe c Q h p := (guarded (@plausible) (grounded c) Q h p).

Lemma handed_plain h st b : (forall t, b <> Challenge t) -> handed h (reply st b []).
Proof. intros Hb. split; cbn; [intros t Ht; by destruct (Hb t)|]. by intros k ?%elem_of_nil. Qed.

Lemma none_created_app h e : none_created h -> creates e = false -> none_created (h ++ [e]).
Proof. unfold none_created. intros Hh He. rewrite forallb_app, Hh. cbn. by rewrite He. Qed.

Lemma here (h : history) e : e ∈ h ++ [e].
Proof. rewrite elem_of_app, list_elem_of_singleton. by right. Qed.
Lemma before_it (h : history) (e x : event) : x ∈ h -> x ∈ h ++ [e].
Proof. rewrite elem_of_app. by left. Qed.

#[local] Hint Resolve here before_it none_created_app : evidence.

(** ** Parts of a request *)

(** [h'] continues [h]. *)
Definition continues (h h' : history) : Prop := (forall e, e ∈ h -> e ∈ h') /\ (none_created h -> none_created h').

Lemma continues_refl h : continues h h.
Proof. by split. Qed.
Lemma continues_trans a b c : continues a b -> continues b c -> continues a c.
Proof. intros [H1 H2] [H3 H4]. split; auto. Qed.
Lemma continues_app h e : creates e = false -> continues h (h ++ [e]).
Proof. intros He. split; [by apply before_it|]. intros Hn. by apply none_created_app. Qed.

Lemma grounds_continue c h h' uid : (forall e, e ∈ h -> e ∈ h') -> grounds c h uid -> grounds c h' uid.
Proof.
  intros Hs [u Hu [[n Hn] [pw Hp]] Hf|q t u -> Ht Hv Hu [Ho Hf]|sid row Hr Hu].
  - eapply by_password; [done| |done]. split; eauto.
  - eapply by_factor; eauto. split; [done|]. destruct Hf as [[code Hf]|(secret & code & t' & H1 & H2 & H3)]; [left|right]; eauto 8.
  - eapply by_session; eauto.
Qed.

(** A program that creates nothing and may be put at any time. *)
Definition harmless {A} (m : prog A) : Prop := forall c h (Q : history -> A -> Prop),
  (forall h' a, continues h h' -> Q h' a) -> safe c Q h m.

Lemma harmless_ret {A} (a : A) : harmless (mret a).
Proof. intros c h Q HQ. apply HQ, continues_refl. Qed.

Lemma harmless_bind {A B} (m : prog A) (k : A -> prog B) : harmless m -> (forall a, harmless (k a)) -> harmless (m ≫= k).
Proof. intros Hm Hk c h Q HQ. apply guarded_bind, Hm. intros h' a H1. apply Hk. intros h'' b H2. apply HQ. by eapply continues_trans. Qed.

Definition plain_stmt {B} (s : stmt B) : Prop := (forall c h, grounded c h B s) /\ forall b, creates (Ev s b) = false.

Lemma harmless_ask {B} (s : stmt B) : plain_stmt s -> harmless (ask s).
Proof. intros [Hs Hc] c h Q HQ. apply guarded_ask; [apply Hs|]. intros b _. by apply HQ, continues_app. Qed.

Lemma harmless_if {A} (b : bool) (m n : prog A) : harmless m -> harmless n -> harmless (if b then m else n).
Proof. by destruct b. Qed.

Lemma harmless_then {A} c h (Q : history -> A -> Prop) (m : prog unit) (k : prog A) :
  harmless m -> (forall h', continues h h' -> safe c Q h' k) -> safe c Q h (_ ← m; k).
Proof. intros Hm Hk. apply guarded_bind, Hm. intros h' _ Hc. by apply Hk. Qed.

Ltac plain := split; [done|by intros].

Lemma harmless_Audit r p action kind id meta : harmless (Audit r p action kind id meta).
Proof. apply harmless_bind; [apply harmless_ask; plain|]. intros _. apply harmless_ret. Qed.

Lemma harmless_failure r p reason name id : harmless (recordLoginFailure r p reason name id).
Proof. apply harmless_Audit. Qed.

Lemma harmless_RecordFailedLogin id : harmless (db_ (QRecordFailedLogin id)).
Proof. apply harmless_bind; [apply harmless_ask; plain|]. intros _. apply harmless_ret. Qed.

Lemma harmless_refresh id : harmless (refreshKnownDevice signer id).
Proof.
  apply harmless_bind; [apply harmless_ask; plain|]. intros [u|e]; [|apply harmless_ret].
  apply harmless_bind; [apply harmless_ask; plain|]. intros t. apply harmless_ret.
Qed.

(** A device cookie is no session cookie. *)
Lemma refresh_cookies c h id (Q : history -> list cookie -> Prop) :
  (forall h' l, continues h h' -> (forall k, k ∈ l -> c_Name k = deviceCookie) -> Q h' l) -> safe c Q h (refreshKnownDevice signer id).
Proof.
  intros HQ. apply guarded_bind, guarded_ask; [done|]. intros [u|e] _.
  - apply guarded_bind, guarded_ask; [done|]. intros t _. apply HQ.
    + eapply continues_trans; apply continues_app; done.
    + intros k ->%list_elem_of_singleton. done.
  - apply HQ; [by apply continues_app|]. by intros k ?%elem_of_nil.
Qed.

Definition good_cookies (l : list cookie) : Prop :=
  forall k, k ∈ l -> c_Name k = sessionCookie -> c_Value k = EmptyString \/ exists bytes, c_Value k = Sign signer (token_of bytes).

Lemma issue_safe c h r id (Q : history -> result (list cookie) -> Prop) :
  none_created h -> grounds c h id ->
  (forall h' res, (forall e, e ∈ h -> e ∈ h') -> (forall l, res = Ok l -> good_cookies l) -> Q h' res) ->
  safe c Q h (issueSession signer r id).
Proof.
  intros Hn Hg HQ. apply guarded_bind, guarded_ask; [done|]. intros [sid|e] Hf; [|apply HQ; [by apply before_it|done]].
  apply guarded_bind, guarded_ask; [done|]. intros t _. set (h2 := (h ++ _) ++ _).
  assert (Hc : continues h h2) by (eapply continues_trans; apply continues_app; done).
  apply guarded_bind, guarded_ask.
  { split_and!; [by apply Hc|subst h2; auto with evidence|]. eapply grounds_continue; [|done]. by apply Hc. }
  intros [u|e] _; [|apply HQ; [|done]; intros e' He; apply before_it; by apply Hc].
  apply guarded_bind, guarded_ask; [done|]. intros csrf _. apply HQ; [intros e' He; do 2 apply before_it; by apply Hc|].
  intros l [= <-] k. rewrite !elem_of_cons, elem_of_nil. destruct Hf as [bytes ->]. intros [->|[->|[]]] Hk; [right; by exists bytes|done].
Qed.

Lemma complete_safe c h r u (Q : history -> result (list cookie) -> Prop) :
  none_created h -> grounds c h (a_ID u) ->
  (forall h' res, (forall e, e ∈ h -> e ∈ h') -> (forall l, res = Ok l -> good_cookies l) -> Q h' res) ->
  safe c Q h (completeLogin signer r u).
Proof.
  intros Hn Hg HQ. apply guarded_bind, guarded_ask; [done|]. intros t _.
  apply harmless_then.
  { apply harmless_if; [|apply harmless_ret]. apply harmless_bind; [apply harmless_ask; plain|]. intros _. apply harmless_ret. }
  intros h' Hc. assert (Hc' : continues h h') by (eapply continues_trans; [|done]; by apply continues_app).
  apply guarded_bind, issue_safe; [by apply Hc'|eapply grounds_continue; [|done]; apply Hc'|].
  intros h2 [l|e] Hsub Hl; [|apply HQ; [|done]; intros e' He; by apply Hsub, Hc'].
  apply guarded_bind, guarded_ask; [done|]. intros t' _. apply HQ; [intros e' He; by apply before_it, Hsub, Hc'|].
  intros l' [= <-] k. rewrite elem_of_app, list_elem_of_singleton. intros [Hk| ->] Hn'; [by eapply Hl|done].
Qed.

(** ** Handlers *)

Lemma harmless_value {A B} c h (Q : history -> B -> Prop) (m : prog A) (k : A -> prog B) :
  harmless m -> (forall h' a, continues h h' -> safe c Q h' (k a)) -> safe c Q h (m ≫= k).
Proof. intros Hm Hk. apply guarded_bind, Hm. intros h' a Hc. by apply Hk. Qed.

Lemma harmless_locked r u : harmless (lockedOut signer r u).
Proof. apply harmless_bind; [apply harmless_ask; plain|]. intros t. apply harmless_ret. Qed.

(** A response without a challenge and without cookies. *)
Definition dull (r : response) : Prop := (forall t, body r <> Challenge t) /\ set_cookies r = [].

Lemma dull_handed h r : dull r -> handed h r.
Proof. intros [Hb Hc]. split; [intros t Ht; by destruct (Hb t)|]. rewrite Hc. by intros k ?%elem_of_nil. Qed.

Lemma cookies_handed h st b l : (forall t, b <> Challenge t) -> good_cookies l -> handed h (reply st b l).
Proof. intros Hb Hl. split; [intros t Ht; by destruct (Hb t)|exact Hl]. Qed.

Lemma ret_dull c h r : dull r -> safe c handed h (mret r).
Proof. apply dull_handed. Qed.

Ltac dull := apply ret_dull; split; [by intros|done].

Lemma good_more l l' : good_cookies l -> (forall k, k ∈ l' -> c_Name k = deviceCookie) -> good_cookies (l ++ l').
Proof. intros Hl Hl' k [Hk|Hk]%elem_of_app Hn; [by apply Hl|]. apply Hl' in Hk. by rewrite Hk in Hn. Qed.

Lemma good_devices l : (forall k, k ∈ l -> c_Name k = deviceCookie) -> good_cookies l.
Proof. intros Hl. by apply (good_more [] l); [intros k ?%elem_of_nil|]. Qed.

(** The end of a sign-in. *)
Lemma signed_in_safe c h r u (meta : object) :
  none_created h -> grounds c h (a_ID u) ->
  safe c handed h (x ← completeLogin signer r u;
    match x with
    | Err _ => mret internal
    | Ok l => _ ← Audit r (Some (signed_in u)) "auth.login" "admin" (a_ID u) meta;
              mret (reply 200 (Json (meJSON FeatureTOTP (a_ID u) (Username (a_row u)) (Role (a_row u)) (TotpEnabled (a_row u)))) l)
    end).
Proof.
  intros Hn Hg. apply guarded_bind, complete_safe; [done..|]. intros h' [l|e] _ Hl; [|dull].
  apply harmless_then; [apply harmless_Audit|]. intros h2 _. apply cookies_handed; [by intros|]. by apply Hl.
Qed.

Lemma login_safe h r s req c : none_created h -> safe c handed h (handleLogin signer FeatureTOTP r s req).
Proof.
  intros Hn. apply guarded_bind, guarded_ask; [done|]. intros allowed _. destruct allowed; [|dull]. cbn [negb].
  destruct req as [q|]; [|dull]. apply guarded_bind, guarded_ask; [done|]. intros [u|e] Hu.
  - set (h1 := (h ++ _) ++ _). assert (Hn1 : none_created h1) by (subst h1; auto with evidence).
    apply harmless_value; [apply harmless_locked|]. intros h2 locked C2. destruct locked.
    + apply guarded_bind, guarded_ask; [done|]. intros burn _. destruct (passwordUnavailable burn); [dull|].
      apply harmless_then; [apply harmless_RecordFailedLogin|]. intros h3 _. apply harmless_then; [apply harmless_failure|]. intros h4 _. dull.
    + apply guarded_bind, guarded_ask; [done|]. intros ok _. destruct (passwordUnavailable ok); [dull|].
      assert (Hbad : safe c handed (h2 ++ [Ev (CheckPassword (l_Password q) (PasswordHash (a_row u))) ok])
        (_ ← db_ (QRecordFailedLogin (a_ID u)); _ ← recordLoginFailure r s "bad_password" (Username (a_row u)) (a_ID u); mret invalid_credentials)).
      { apply harmless_then; [apply harmless_RecordFailedLogin|]. intros h3 _. apply harmless_then; [apply harmless_failure|]. intros h4 _. dull. }
      destruct ok as [[]|e]; [|exact Hbad..]. clear Hbad. set (h3 := h2 ++ _).
      assert (Hp : password_checked h3 u).
      { split; [eexists; apply before_it, C2; subst h1; apply here|eexists; apply here]. }
      fold (needs_factor u). destruct (needs_factor u) eqn:En.
      * apply guarded_bind, guarded_ask; [done|]. intros t _. split; [|by intros k ?%elem_of_nil]. intros t' [= <-]. exists u, t.
        destruct Hp as [[n Hp1] [pw Hp2]]. split_and!; [split; [exists n|exists pw]; by apply before_it|done|exact Hu|done].
      * apply signed_in_safe; [subst h3; apply none_created_app; [by apply C2|done]|]. by eapply by_password.
  - apply guarded_bind, guarded_ask; [done|]. intros burn _. destruct (passwordUnavailable burn); [dull|].
    apply harmless_then; [apply harmless_failure|]. intros h4 _. dull.
Qed.

Lemma accept_safe c h u code recovery (Q : history -> bool -> Prop) :
  TotpEnabled (a_row u) = true ->
  (forall h' b, continues h h' -> (b = true -> factor_accepted h' u) -> Q h' b) -> safe c Q h (acceptSecondFactor u code recovery).
Proof.
  intros Ht HQ. unfold acceptSecondFactor. destruct (negb (String.eqb recovery EmptyString)).
  - apply guarded_bind, guarded_ask; [done|]. intros n _. apply HQ; [by apply continues_app|]. destruct n as [n|]; [|done].
    intros ->%Z.eqb_eq. split; [done|]. left. eexists. apply here.
  - destruct (_ || _); [by apply HQ; [apply continues_refl|]|]. apply guarded_bind, guarded_ask; [done|]. intros [secret|e] _; [|by apply HQ; [apply continues_app|]].
    apply guarded_bind, guarded_ask; [done|]. intros t _. apply HQ; [eapply continues_trans; by apply continues_app|].
    intros Hv. split; [done|]. right. exists secret, code, t. split_and!; [apply before_it, here|apply here|done].
Qed.

Lemma verify_safe h r s req : none_created h -> safe (CVerify req) handed h (handleTOTPVerify signer FeatureTOTP r s req).
Proof.
  intros Hn. unfold handleTOTPVerify. destruct (negb FeatureTOTP); [dull|]. apply guarded_bind, guarded_ask; [done|]. intros [] _; [dull|].
  destruct req as [q|]; [|dull]. apply guarded_bind, guarded_ask; [done|]. intros t _. set (h1 := (h ++ _) ++ _).
  assert (Hn1 : none_created h1) by (subst h1; auto with evidence).
  destruct (parseTOTPChallenge signer (v_Challenge q) t) as [| |id] eqn:Ep; [dull..|]. apply guarded_bind, guarded_ask; [done|]. intros [u|e] Hu; [|dull].
  destruct (negb (TotpEnabled (a_row u))) eqn:Et; [dull|]. apply negb_false_iff in Et. cbv zeta.
  apply harmless_value; [apply harmless_locked|]. intros h2 locked C2. assert (C1 : continues h1 h2) by (eapply continues_trans; [|exact C2]; by apply continues_app).
  apply guarded_bind. destruct Hu as [<- Hu].
  assert (Hrest : forall h3 b, continues h2 h3 -> (b = true -> factor_accepted h3 u) -> safe (CVerify (Some q)) handed h3
    (if negb b then _ ← db_ (QRecordFailedLogin (a_ID u)); _ ← ask (LimiterAllow (r_Visitor r));
       _ ← recordLoginFailure r s (if (locked : bool) then "locked" else if negb (String.eqb (Str.trim_space (v_RecoveryCode q)) EmptyString) then "bad_recovery_code" else "bad_totp_code") (Username (a_row u)) (a_ID u);
       mret invalid_code
     else x ← completeLogin signer r u;
       match x with
       | Err _ => mret internal
       | Ok l => _ ← Audit r (Some (signed_in u)) "auth.login" "admin" (a_ID u) [((if negb (String.eqb (Str.trim_space (v_RecoveryCode q)) EmptyString) then "recovery" else "totp"), JBool true)]%string;
                 mret (reply 200 (Json (meJSON FeatureTOTP (a_ID u) (Username (a_row u)) (Role (a_row u)) (TotpEnabled (a_row u)))) l)
       end)).
  { intros h3 b C3 Hb. destruct b; cbn [negb].
    - apply signed_in_safe; [by apply C3, C1|]. eapply by_factor; [done| |done|done|by apply Hb]. apply C3, C1. subst h1. apply here.
    - apply harmless_then; [apply harmless_RecordFailedLogin|]. intros h4 _. apply guarded_bind, guarded_ask; [done|]. intros b _.
      apply harmless_then; [apply harmless_failure|]. intros h5 _. dull. }
  destruct locked.
  - apply Hrest; [apply continues_refl|done].
  - apply accept_safe; [done|]. intros h3 b C3 Hb. by apply Hrest.
Qed.

(** *** For the caller of a session *)

Definition has_session (h : history) (p : Principal) : Prop :=
  exists row, Ev (Db (QGetSession (SessionID p))) (Ok row) ∈ h /\ sr_Admin row = UserID p.

Lemma own_grounds c h p : has_session h p -> grounds c h (UserID p).
Proof. intros (row & Hr & Hu). by eapply by_session. Qed.

(** What ends a change of credentials: a session, a device cookie, a line of
    the audit trail. *)
Lemma reissued_safe c h r p action st b :
  none_created h -> has_session h p -> (forall t, b <> Challenge t) ->
  safe c handed h (x ← issueSession signer r (UserID p);
    match x with
    | Err _ => mret internal
    | Ok l => d ← refreshKnownDevice signer (UserID p);
              _ ← Audit r (Some p) action "admin" (UserID p) []; mret (reply st b (l ++ d))
    end).
Proof.
  intros Hn Hp Hb. apply guarded_bind, issue_safe; [done|by apply own_grounds|]. intros h' [l|e] _ Hl; [|dull].
  apply guarded_bind, refresh_cookies. intros h2 d _ Hd. apply harmless_then; [apply harmless_Audit|]. intros h3 _.
  apply cookies_handed; [done|]. apply good_more; [by apply Hl|done].
Qed.

Lemma password_safe h r p q c : none_created h -> has_session h p -> safe c handed h (handleChangePassword signer r p q).
Proof.
  intros Hn Hp. destruct q as [q|]; [|dull]. unfold handleChangePassword. destruct (_ <? 10)%nat; [dull|].
  apply guarded_bind, guarded_ask; [done|]. intros [u|e] _; [|dull]. apply guarded_bind, guarded_ask; [done|]. intros ok _.
  destruct (passwordUnavailable ok); [dull|]. destruct ok as [[]|e]; [|dull..]. apply guarded_bind, guarded_ask; [done|]. intros hash _.
  destruct (passwordUnavailable hash); [dull|]. destruct hash as [hash|e]; [|dull]. apply guarded_bind, guarded_ask; [done|]. intros [x|e] _; [|dull].
  apply reissued_safe; [auto 10 with evidence| |by intros]. destruct Hp as (row & Hr & Hu). exists row. auto 10 with evidence.
Qed.

Lemma confirm_safe h r p q c : none_created h -> has_session h p -> safe c handed h (handleTOTPConfirm signer FeatureTOTP r p q).
Proof.
  intros Hn Hp. unfold handleTOTPConfirm. destruct (negb FeatureTOTP); [dull|]. destruct q as [q|]; [|dull].
  apply guarded_bind, guarded_ask; [done|]. intros [u|e] _; [|dull]. apply guarded_bind, guarded_ask; [done|]. intros ok _.
  destruct (passwordUnavailable ok); [dull|]. destruct ok as [[]|e]; [|dull..]. destruct (String.eqb _ _); [dull|].
  apply guarded_bind, guarded_ask; [done|]. intros [secret|e] _; [|dull]. apply guarded_bind, guarded_ask; [done|]. intros t _.
  destruct (negb _); [dull|]. apply guarded_bind, guarded_ask; [done|]. intros [enc|e] _; [|dull]. apply guarded_bind, guarded_ask; [done|]. intros bytes _.
  destruct (NewRecoveryCodes _ _) as [codes|e]; [|dull]. apply guarded_bind, guarded_ask; [done|]. intros [x|e] _; [|dull].
  set (h1 := h ++ _). assert (C : continues h h1) by (subst h1; by apply continues_app).
  match goal with |- context [guarded _ _ _ ?hh _] => assert (C1 : continues h hh) end.
  { subst h1. repeat (eapply continues_trans; [|by apply continues_app]). apply continues_refl. }
  apply harmless_then; [apply harmless_bind; [apply harmless_ask; plain|intros _; apply harmless_ret]|]. intros h2 C2.
  apply reissued_safe; [by apply C2, C1| |by intros]. destruct Hp as (row & Hr & Hu). exists row. split; [by apply C2, C1|done].
Qed.

Lemma disable_safe h r p q c : safe c handed h (handleTOTPDisable signer FeatureTOTP r p q).
Proof.
  unfold handleTOTPDisable. destruct (negb FeatureTOTP); [dull|]. destruct q as [q|]; [|dull].
  apply guarded_bind, guarded_ask; [done|]. intros [u|e] _; [|dull]. destruct (negb (TotpEnabled (a_row u))) eqn:Et; [dull|]. apply negb_false_iff in Et.
  apply guarded_bind, guarded_ask; [done|]. intros ok _. destruct (passwordUnavailable ok); [dull|]. destruct ok as [[]|e]; [|dull..].
  apply guarded_bind, accept_safe; [done|]. intros h2 b _ _. destruct b; [|dull]. cbn [negb]. apply guarded_bind, guarded_ask; [done|]. intros [x|e] _; [|dull].
  apply guarded_bind, refresh_cookies. intros h3 d _ Hd. apply harmless_then; [apply harmless_Audit|]. intros h4 _.
  apply cookies_handed; [by intros|]. by apply good_devices.
Qed.

Lemma setup_safe h p c : safe c handed h (handleTOTPSetup FeatureTOTP p).
Proof.
  unfold handleTOTPSetup. destruct (negb FeatureTOTP); [dull|]. apply guarded_bind, guarded_ask; [done|]. intros [secret|e] _; [|dull].
  apply guarded_bind, guarded_ask; [done|]. intros [enc|e] _; [|dull]. apply guarded_bind, guarded_ask; [done|]. intros [x|e] _; dull.
Qed.

Lemma logout_safe h p c : safe c handed h (handleLogout p).
Proof.
  apply harmless_then; [apply harmless_bind; [apply harmless_ask; plain|intros _; apply harmless_ret]|]. intros h' _.
  apply cookies_handed; [by intros|]. intros k [n [-> Hn]]%list_elem_of_fmap _. by left.
Qed.

Lemma admins_safe h r p c :
  safe c handed h handleListAdmins /\ (forall q, safe c handed h (handleCreateAdmin r p q)) /\ safe c handed h (handleMe FeatureTOTP p).
Proof.
  split_and!.
  - apply guarded_bind, guarded_ask; [done|]. intros [l|e] _; dull.
  - intros q. unfold handleCreateAdmin. destruct q as [q|]; [|dull]. destruct (create_fields q); [|dull].
    apply guarded_bind, guarded_ask; [done|]. intros hash _. destruct (passwordUnavailable hash); [dull|]. destruct hash as [hash|e]; [|dull].
    apply guarded_bind, guarded_ask; [done|]. intros [u|e] _; [|dull]. apply harmless_then; [apply harmless_Audit|]. intros h' _. dull.
  - apply guarded_bind, guarded_ask; [done|]. intros [u|e] _; dull.
Qed.

Lemma delete_safe h r p id c : safe c handed h (handleDeleteAdmin r p id).
Proof.
  unfold handleDeleteAdmin. destruct (parse_uuid id) as [aid|]; [|dull]. apply guarded_bind, guarded_ask; [done|]. intros [u|e] _; [|dull].
  destruct (is_owner (a_row u)) eqn:Eo.
  - apply guarded_bind, guarded_ask; [done|]. intros [last|e] _; [|dull]. destruct last; [dull|]. destruct (String.eqb _ _); [dull|].
    apply harmless_then; [apply harmless_Audit|]. intros h' _. dull.
  - destruct (String.eqb _ _); [dull|]. apply guarded_bind, guarded_ask; [exists u; split; [apply here|done]|]. intros [x|e] _; [|dull].
    apply harmless_then; [apply harmless_Audit|]. intros h' _. dull.
Qed.

Lemma tokens_safe h r p c : (forall q, safe c handed h (handleCreateAPIToken r p q)) /\ (forall id, safe c handed h (handleRevokeAPIToken r p id)).
Proof.
  split.
  - intros q. unfold handleCreateAPIToken. destruct q as [q|]; [|dull]. cbv zeta. destruct (token_fields _ _); [|dull].
    apply guarded_bind, guarded_ask; [done|]. intros [s|e] _; [|dull]. apply guarded_bind, guarded_ask; [done|]. intros [[tid t]|e] _.
    + apply harmless_then; [apply harmless_Audit|]. intros h' _. dull.
    + destruct (String.eqb e _); [dull|]. destruct (String.eqb e _); [dull|]. destruct (String.eqb e _); dull.
  - intros id. unfold handleRevokeAPIToken. destruct (parse_uuid id) as [tid|]; [|dull]. apply guarded_bind, guarded_ask; [done|]. intros [n|e] _; [|dull].
    destruct (n =? 0); [dull|]. apply harmless_then; [apply harmless_Audit|]. intros h' _. dull.
Qed.

(** *** The router *)

Lemma account_calls c rt : route_of c = Some rt -> managementRoute (rt_Method rt) (rt_Pattern rt) = None.
Proof. destruct c; intros [= <-]; by vm_compute. Qed.

Lemma handle_safe r s p c rt h : route_of c = Some rt -> none_created h -> has_session h p -> safe c handed h (handle signer FeatureTOTP r s p c).
Proof.
  intros Hc Hn Hp. destruct c; try done; cbn [handle].
  - by apply (admins_safe h r p).
  - apply logout_safe.
  - by apply password_safe.
  - apply setup_safe.
  - by apply confirm_safe.
  - apply disable_safe.
  - by apply (admins_safe h r p).
  - by apply (admins_safe h r p).
  - apply delete_safe.
  - by apply (tokens_safe h r p).
  - by apply (tokens_safe h r p).
Qed.

Lemma load_safe c h r (Q : history -> option Principal -> Prop) :
  (forall h' o, continues h h' -> (forall p, o = Some p -> has_session h' p) -> Q h' o) -> safe c Q h (loadSession signer r).
Proof.
  intros HQ. unfold loadSession. destruct (Cookie r sessionCookie) as [v|]; [|apply HQ; [apply continues_refl|done]].
  destruct (Verify signer v) as [sid|]; [|apply HQ; [apply continues_refl|done]].
  apply guarded_bind, guarded_ask; [done|]. intros [row|e] _; [|apply HQ; [by apply continues_app|done]].
  apply guarded_bind, guarded_ask; [done|]. intros t _. set (h2 := (h ++ _) ++ _).
  assert (C : continues h h2) by (eapply continues_trans; by apply continues_app).
  apply harmless_then.
  { apply harmless_if; [|apply harmless_ret]. apply harmless_bind; [apply harmless_ask; plain|]. intros t'.
    apply harmless_bind; [apply harmless_ask; plain|]. intros _. apply harmless_ret. }
  intros h3 C3. apply HQ; [by eapply continues_trans|]. intros p [= <-]. exists row. split; [|done]. apply C3. apply before_it, here.
Qed.

Lemma authenticate_safe c h r s (Q : history -> option Principal -> Prop) :
  (forall p, s = Some p -> has_session h p) ->
  (forall h' o, continues h h' -> (forall p, o = Some p -> by_token p = true \/ has_session h' p) -> Q h' o) ->
  safe c Q h (authenticateManagement r s).
Proof.
  intros Hs HQ. unfold authenticateManagement. destruct (negb _).
  { apply HQ; [apply continues_refl|]. intros p Hp. right. by apply Hs. }
  destruct (bearer_token _) as [t|]; [|apply HQ; [apply continues_refl|done]].
  apply guarded_bind, guarded_ask; [done|]. intros [row|e] Hf; [|apply HQ; [by apply continues_app|done]].
  apply harmless_then; [apply harmless_bind; [apply harmless_ask; plain|intros _; apply harmless_ret]|].
  intros h' C. apply HQ; [eapply continues_trans; [|done]; by apply continues_app|]. intros p [= <-]. left. unfold by_token. cbn.
  apply negb_true_iff. by apply String.eqb_neq.
Qed.

Lemma refuse_dull e : dull (refuse e).
Proof. by destruct e. Qed.

Lemma serve_grounded r c : safe c handed [] (serve signer FeatureTOTP r c).
Proof.
  apply guarded_bind, load_safe. intros h s C Hs. assert (Hn : none_created h) by by apply C.
  destruct (route_of c) as [rt|] eqn:Er.
  - apply guarded_bind, authenticate_safe; [done|]. intros h' [p|] C' Hp; [|dull].
    destruct (csrfCheck _ _ _) as [e|]; [apply ret_dull, refuse_dull|]. destruct (admission rt (Some p)) as [e|] eqn:Ea; [apply ret_dull, refuse_dull|].
    eapply handle_safe; [done|by apply C'|]. destruct (Hp p eq_refl) as [Ht|]; [|done]. exfalso. revert Ea. unfold admission.
    destruct (role_check _ _); [done|]. unfold enforceAPITokenPolicy. by rewrite Ht, (account_calls c rt).
  - destruct c; try done; [by apply login_safe|by apply verify_safe].
Qed.

End Evidence.

#[export] Hint Resolve here before_it none_created_app : evidence.
Arguments plausible {_ _} _ /.
