(* ===== verification/AuthSafety.v ===== *)
(** * Many requests at once

    The panel serves any number of requests, one statement of one of them after
    another ([step]); a statement may fail, and a write whose answer is lost may
    have happened.  What nobody but the panel can make are its signatures: a
    challenge that verifies was handed out before ([honest]).

    In every such run a session belongs to an account whose password was
    accepted, with the second factor where it is asked for
    ([session_earned]); an owner is left ([owner_stays]); and what a change of
    the password withdraws stays withdrawn ([password_change_withdraws]). *)

From S2P Require Import Prelude Crypto TelemtTypes RateLimit AdminTables Routes Auth AuthLogic.

Local Open Scope go_scope.

(** [drawn]: the identities and tokens the random source gave so far. *)
Record world := { now_ : Z; store : AdminStore; limiter : ipLimiter; drawn : gset string }.

Definition with_store (w : world) (s : AdminStore) : world := {| now_ := now_ w; store := s; limiter := limiter w; drawn := drawn w |}.
Definition with_limiter (w : world) (l : ipLimiter) : world := {| now_ := now_ w; store := store w; limiter := l; drawn := drawn w |}.
Definition with_drawn (w : world) (l : list string) : world := {| now_ := now_ w; store := store w; limiter := limiter w; drawn := list_to_set l ∪ drawn w |}.

(** The identities one statement may draw. *)
Definition drawn_by (draw : nat -> string) : list string := draw <$> seq 0 16.

Record thread := { th_req : request; th_call : call; th_hist : history; th_prog : prog response }.

Record config := { wld : world; threads : gmap nat thread }.

(** ** What a query leaves of the rows *)

(** Rows come from rows, or are new under the identity [new]: a role does not
    change, a session keeps its account, a token keeps its account and stays
    revoked. *)
Record rows_kept (new : string) (s s' : AdminStore) : Prop := {
  kept_admins : forall id r', admins s' !! id = Some r' -> (exists r, admins s !! id = Some r /\ Role r' = Role r) \/ id = new;
  kept_sessions : forall sid x', sessions s' !! sid = Some x' -> exists x, sessions s !! sid = Some x /\ s_Admin x' = s_Admin x;
  kept_tokens : forall tid t', api_tokens s' !! tid = Some t' ->
    (exists t, api_tokens s !! tid = Some t /\ t_Admin t' = t_Admin t /\ (t_RevokedAt t' = None -> t_RevokedAt t = None)) \/ tid = new
}.

Lemma rows_kept_refl new s : rows_kept new s s.
Proof. split; [intros; left; eauto|eauto|intros; left; eauto 8]. Qed.

Lemma rows_kept_trans new a b c : rows_kept new a b -> rows_kept new b c -> rows_kept new a c.
Proof.
  intros [A1 S1 T1] [A2 S2 T2]. split.
  - intros id r' [(r & Hr & E)| ->]%A2; [|by right]. apply A1 in Hr as [(r0 & Hr0 & E0)| ->]; [left; exists r0; by rewrite E|by right].
  - intros sid x' (x & Hx & E)%S2. apply S1 in Hx as (x0 & Hx0 & E0). exists x0. by rewrite E.
  - intros tid t' [(t & Ht & E & Hrev)| ->]%T2; [|by right]. apply T1 in Ht as [(t0 & Ht0 & E0 & Hrev0)| ->]; [left; exists t0; rewrite E; auto|by right].
Qed.

Definition keeps_rows {A} (new : string) (m : DB A) : Prop := forall s a s', m s = Ok (a, s') -> rows_kept new s s'.

Section Rows.
Context (new : string).

Lemma keeps_rows_ret {A} (a : A) : keeps_rows new (mret a).
Proof. intros s a' s' [= _ <-]. apply rows_kept_refl. Qed.

Lemma keeps_rows_bind {A B} (m : DB A) (k : A -> DB B) : keeps_rows new m -> (forall a, keeps_rows new (k a)) -> keeps_rows new (m ≫= k).
Proof.
  intros Hm Hk s b s2. unfold mbind, DB_bind. destruct (m s) as [[a s1]|e] eqn:E; [|done]. intros Hs.
  eapply rows_kept_trans; [by eapply Hm|by eapply Hk].
Qed.

Lemma keeps_rows_read {A} (f : AdminStore -> A) : keeps_rows new (db_read f).
Proof. intros s a s' [= _ <-]. apply rows_kept_refl. Qed.

Lemma keeps_rows_fail {A} e : keeps_rows new (@db_fail A e).
Proof. by intros s a s'. Qed.

Lemma keeps_rows_if {A} (b : bool) (m n : DB A) : keeps_rows new m -> keeps_rows new n -> keeps_rows new (if b then m else n).
Proof. by destruct b. Qed.

Lemma keeps_rows_one {A} (f : AdminStore -> option A) : keeps_rows new (db_one f).
Proof. apply keeps_rows_bind; [apply keeps_rows_read|]. intros [a|]; [apply keeps_rows_ret|apply keeps_rows_fail]. Qed.

Lemma keeps_rows_modify f : (forall s, rows_kept new s (f s)) -> keeps_rows new (db_modify f).
Proof. intros Hf s a s' [= _ <-]. apply Hf. Qed.

Lemma keeps_rows_admin f id : (forall r, Role (f r) = Role r) -> keeps_rows new (admin_row f id).
Proof.
  intros Hf. apply keeps_rows_modify. intros s. split; cbn; [|eauto|intros; left; eauto 8].
  intros i r' Hr. left. destruct (decide (i = id)) as [->|Hne].
  - rewrite lookup_alter_eq in Hr. destruct (admins s !! id) as [r|]; [|done]. injection Hr as <-. by exists r.
  - rewrite lookup_alter_ne in Hr by done. by exists r'.
Qed.

Lemma keeps_rows_sessions f : (forall (m : gmap string Session) sid x', f m !! sid = Some x' -> exists x, m !! sid = Some x /\ s_Admin x' = s_Admin x) ->
  keeps_rows new (db_modify (fun s => with_sessions s (f (sessions s)))).
Proof. intros Hf. apply keeps_rows_modify. intros s. split; cbn; [intros; left; eauto|apply Hf|intros; left; eauto 8]. Qed.

Lemma keeps_rows_tokens f : (forall (m : gmap string ApiToken) tid t', f m !! tid = Some t' ->
    (exists t, m !! tid = Some t /\ t_Admin t' = t_Admin t /\ (t_RevokedAt t' = None -> t_RevokedAt t = None)) \/ tid = new) ->
  keeps_rows new (db_modify (fun s => with_api_tokens s (f (api_tokens s)))).
Proof. intros Hf. apply keeps_rows_modify. intros s. split; cbn; [intros; left; eauto|eauto|apply Hf]. Qed.

Lemma keeps_rows_codes f : keeps_rows new (db_modify (fun s => with_codes s (f (recovery_codes s)))).
Proof. apply keeps_rows_modify. intros s. split; cbn; [intros; left; eauto|eauto|intros; left; eauto 8]. Qed.

Lemma keeps_rows_each {A} (f : A -> DB unit) l : (forall a, keeps_rows new (f a)) -> keeps_rows new (db_each f l).
Proof. intros Hf. induction l as [|a l IH]; [apply keeps_rows_ret|]. apply keeps_rows_bind; [apply Hf|]. intros _. exact IH. Qed.

Lemma keeps_rows_DeleteAdmin id : keeps_rows new (DeleteAdmin id).
Proof.
  apply keeps_rows_modify. intros s. split; cbn.
  - intros i r' Hr. apply lookup_delete_Some in Hr as [_ Hr]. left. eauto.
  - intros sid x' Hx. apply map_lookup_filter_Some in Hx as [Hx _]. eauto.
  - intros tid t' Ht. apply map_lookup_filter_Some in Ht as [Ht _]. left. eauto 8.
Qed.

Lemma keeps_rows_revoke_all t id : keeps_rows new (RevokeAdminAPITokens t id).
Proof.
  apply (keeps_rows_tokens (fun m => (fun t' => if String.eqb (t_Admin t') id then revoked t t' else t') <$> m)).
  intros m tid t' Ht. rewrite lookup_fmap in Ht. destruct (m !! tid) as [t0|]; [|done]. injection Ht as <-. left. exists t0.
  by destruct (String.eqb _ _).
Qed.

Lemma keeps_rows_user_sessions id : keeps_rows new (DeleteUserSessions id).
Proof. apply (keeps_rows_sessions (fun m => filter _ m)). intros m sid x' Hx. apply map_lookup_filter_Some in Hx as [Hx _]. eauto. Qed.

Lemma keeps_rows_delete_codes id : keeps_rows new (DeleteRecoveryCodes id).
Proof. apply (keeps_rows_codes (fun m => filter _ m)). Qed.

End Rows.

#[export] Hint Resolve keeps_rows_ret keeps_rows_read keeps_rows_fail keeps_rows_if keeps_rows_one keeps_rows_admin keeps_rows_codes keeps_rows_each
  keeps_rows_DeleteAdmin keeps_rows_revoke_all keeps_rows_user_sessions keeps_rows_delete_codes : rows.
#[export] Hint Extern 5 (keeps_rows _ (_ ≫= _)) => apply keeps_rows_bind; [|intros] : rows.

Lemma keeps_rows_issue now draw p name prefix hash scopes days : keeps_rows (draw O) (issue_token now draw p name prefix hash scopes days).
Proof.
  assert (Hs : forall A (m : DB A), keeps_rows (draw O) m ->
    keeps_rows (draw O) (fun s => match m s with Err e => Err (if String.eqb e ErrNoRows then errAPITokenSessionExpired else e) | ok => ok end)).
  { intros A m Hm s a s'. destruct (m s) as [[x s1]|e] eqn:E; [|done]. intros [= <- <-]. by eapply Hm. }
  unfold issue_token. apply keeps_rows_bind; [apply Hs, keeps_rows_one|]. intros _. apply keeps_rows_bind; [apply Hs, keeps_rows_one|]. intros x.
  apply keeps_rows_if; [auto with rows|]. apply keeps_rows_if; [auto with rows|]. apply keeps_rows_bind; [apply keeps_rows_read|]. intros n.
  apply keeps_rows_if; [auto with rows|]. apply keeps_rows_bind; [|auto with rows]. unfold CreateAPIToken. apply keeps_rows_bind; [apply keeps_rows_read|]. intros s.
  apply keeps_rows_if; [auto with rows|]. apply keeps_rows_if; [auto with rows|]. apply keeps_rows_bind; [|auto with rows].
  apply (keeps_rows_tokens _ (fun m => <[draw O := _]> m)). intros m tid t' Ht. destruct (decide (tid = draw O)) as [->|Hne]; [by right|].
  rewrite lookup_insert_ne in Ht by done. left. eauto 8.
Qed.

Definition creates_session {A} (q : query A) : bool := match q with QCreateSession _ _ _ _ _ => true | _ => false end.

Lemma query_rows now draw A (q : query A) : creates_session q = false -> keeps_rows (draw O) (run_query now draw q).
Proof.
  destruct q; cbn [creates_session run_query]; intros Hq; try done; try apply keeps_rows_one; try apply keeps_rows_read; auto with rows.
  - unfold CreateAdmin. apply keeps_rows_bind; [apply keeps_rows_read|]. intros s. apply keeps_rows_if; [auto with rows|].
    apply keeps_rows_bind; [|intros; apply keeps_rows_one]. apply keeps_rows_modify. intros s'. split; cbn; [|eauto|intros; left; eauto 8].
    intros id r' Hr. destruct (decide (id = draw O)) as [->|Hne]; [by right|]. rewrite lookup_insert_ne in Hr by done. left. eauto.
  - unfold RecordFailedLogin. apply keeps_rows_bind; [apply keeps_rows_read|]. intros s. destruct (admins s !! id); [|auto with rows].
    apply keeps_rows_if; [|auto with rows]. by apply keeps_rows_admin.
  - by apply keeps_rows_admin.
  - apply (keeps_rows_sessions _ (fun m => alter (touched expires) sid m)). intros m i x' Hx. destruct (decide (i = sid)) as [->|Hne].
    + rewrite lookup_alter_eq in Hx. destruct (m !! sid) as [x|]; [|done]. injection Hx as <-. by exists x.
    + rewrite lookup_alter_ne in Hx by done. eauto.
  - apply (keeps_rows_sessions _ (fun m => delete sid m)). intros m i x' Hx. apply lookup_delete_Some in Hx as [_ Hx]. eauto.
  - by apply keeps_rows_admin.
  - unfold UseRecoveryCode. apply keeps_rows_bind; [apply keeps_rows_read|]. intros n. apply keeps_rows_bind; [|auto with rows].
    apply (keeps_rows_codes _ (fun m => _ <$> m)).
  - apply (keeps_rows_tokens _ (fun m => alter (used now) tid m)). intros m i t' Ht. left. destruct (decide (i = tid)) as [->|Hne].
    + rewrite lookup_alter_eq in Ht. destruct (m !! tid) as [t|]; [|done]. injection Ht as <-. exists t. unfold used. by repeat case_match.
    + rewrite lookup_alter_ne in Ht by done. eauto 8.
  - intros s a s'. unfold RevokeAPIToken, mbind, DB_bind, db_read. destruct (api_tokens s !! tid) as [t|] eqn:E; [|intros [= _ <-]; apply rows_kept_refl].
    destruct (String.eqb _ _); [|intros [= _ <-]; apply rows_kept_refl]. intros [= _ <-]. split; cbn; [intros; left; eauto|eauto|].
    intros i t' Ht. left. destruct (decide (i = tid)) as [->|Hne]; [|rewrite lookup_insert_ne in Ht by done; eauto 8].
    rewrite lookup_insert_eq in Ht. injection Ht as <-. by exists t.
  - unfold InsertAudit. apply keeps_rows_bind; [apply keeps_rows_read|]. intros s. apply keeps_rows_if; [|auto with rows]. apply keeps_rows_modify.
    intros s'. split; cbn; [intros; left; eauto|eauto|intros; left; eauto 8].
  - apply keeps_rows_bind; [by apply keeps_rows_admin|auto with rows].
  - unfold enroll. apply keeps_rows_bind; [by apply keeps_rows_admin|]. intros _. apply keeps_rows_bind; [auto with rows|]. intros _.
    apply keeps_rows_bind; [auto with rows|]. intros _. apply keeps_rows_each. intros ic. unfold InsertRecoveryCode.
    apply keeps_rows_bind; [apply keeps_rows_read|]. intros s. apply keeps_rows_if; [|auto with rows]. apply (keeps_rows_codes _ (fun m => <[_ := _]> m)).
  - apply keeps_rows_bind; [by apply keeps_rows_admin|auto with rows].
  - unfold delete_owner. apply keeps_rows_bind; [apply keeps_rows_read|]. intros n. apply keeps_rows_if; [auto with rows|]. apply keeps_rows_if; auto with rows.
  - apply keeps_rows_issue.
Qed.

Section Panel.
Context `{Uuid} `{Otp} `{Argon2}.
Context (signer : Signer) (FeatureTOTP : bool).

Definition new_ids (w : world) (draw : nat -> string) : Prop :=
  NoDup (drawn_by draw) /\ Forall (fun x => x ∉ drawn w /\ parse_uuid x = Some x /\ x <> EmptyString) (drawn_by draw).

(** A query succeeds, or fails without a trace, or its answer is lost. *)
Definition answers_query {A} (w : world) (q : query A) (b : result A) (w' : world) : Prop :=
  exists draw, new_ids w draw /\
  match run_query (now_ w) draw q (store w) with
  | Ok (a, s) => (w' = with_drawn (with_store w s) (drawn_by draw) /\ (b = Ok a \/ exists e, b = Err e)) \/ (w' = w /\ exists e, b = Err e)
  | Err e => w' = w /\ exists e', b = Err e'
  end.

Definition does (w : world) {B} (s : stmt B) : B -> world -> Prop :=
  match s in stmt B return B -> world -> Prop with
  | Now => fun b w' => b = now_ w /\ w' = w
  | LimiterAllow key => fun b w' => b = (Allow (limiter w) (now_ w) key).1 /\ w' = with_limiter w (Allow (limiter w) (now_ w) key).2
  | LimiterBlocked key => fun b w' => b = Blocked (limiter w) (now_ w) key /\ w' = w
  | CheckPassword pw phc => fun b w' => w' = w /\ (b = VerifyPassword pw phc \/ exists e, b = Err e)
  | NewHash pw => fun b w' => w' = w /\ ((exists salt, b = Ok (HashPassword salt pw)) \/ exists e, b = Err e)
  | NewToken => fun b w' =>
      (exists bytes, String.length bytes = 32%nat /\ token_of bytes ∉ drawn w /\ b = Ok (token_of bytes) /\ w' = with_drawn w [token_of bytes]) \/
      (w' = w /\ exists e, b = Err e)
  | GenerateSecret | EncryptString _ | DecryptString _ => fun _ w' => w' = w
  | RandomBytes => fun _ w' => w' = w
  | Db q => fun b w' => answers_query w q b w'
  end.

(** ** Handing out and presenting signatures *)

(** The value [v] was signed in a response. *)
Definition issued (ts : gmap nat thread) (v : string) : Prop :=
  (exists n th r, ts !! n = Some th /\ th_prog th = Ret r /\ body r = Challenge (Sign signer v)) \/
  (exists n th r k, ts !! n = Some th /\ th_prog th = Ret r /\ k ∈ set_cookies r /\ c_Name k = sessionCookie /\ c_Value k = Sign signer v) \/
  Str.has_prefix v devicePrefix = true.

Definition honest (ts : gmap nat thread) (c : call) : Prop :=
  forall q v, c = CVerify (Some q) -> Verify signer (v_Challenge q) = Some v -> issued ts v.

Definition started (r : request) (c : call) : thread :=
  {| th_req := r; th_call := c; th_hist := []; th_prog := serve signer FeatureTOTP r c |}.

Definition moved (th : thread) (h : history) (p : prog response) : thread :=
  {| th_req := th_req th; th_call := th_call th; th_hist := h; th_prog := p |}.

Inductive step : config -> config -> Prop :=
| step_request w ts n r c : ts !! n = None -> honest ts c ->
    step {| wld := w; threads := ts |} {| wld := w; threads := <[n := started r c]> ts |}
| step_statement w ts n th B (s : stmt B) k b w' : ts !! n = Some th -> th_prog th = Do s k -> does w s b w' ->
    step {| wld := w; threads := ts |} {| wld := w'; threads := <[n := moved th (th_hist th ++ [Ev s b]) (k b)]> ts |}
| step_clock w ts d : 0 <= d ->
    step {| wld := w; threads := ts |} {| wld := {| now_ := now_ w + d; store := store w; limiter := limiter w; drawn := drawn w |}; threads := ts |}
| step_sweep w ts s : DeleteExpiredSessions (now_ w) (store w) = Ok (tt, s) ->
    step {| wld := w; threads := ts |} {| wld := with_store w s; threads := ts |}.

Definition reaches_ : config -> config -> Prop := rtc step.

(** ** Sessions are earned *)

(** In some request the password of the account was accepted, and a second
    factor in some request where the account asks for one. *)
Definition earned (ts : gmap nat thread) (uid : string) : Prop :=
  exists n th u, ts !! n = Some th /\ a_ID u = uid /\ password_checked (th_hist th) u /\
    (needs_factor FeatureTOTP u = true -> exists n' th' u', ts !! n' = Some th' /\ a_ID u' = uid /\ factor_accepted (th_hist th') u').

(** What a request has done stays done. *)
Definition grows (ts ts' : gmap nat thread) : Prop :=
  forall n th, ts !! n = Some th -> exists th', ts' !! n = Some th' /\ th_call th' = th_call th /\
    (forall e, e ∈ th_hist th -> e ∈ th_hist th') /\ (forall r, th_prog th = Ret r -> th_prog th' = Ret r).

Lemma grows_refl ts : grows ts ts.
Proof. intros n th Hth. by exists th. Qed.

Lemma grows_new ts n th : ts !! n = None -> grows ts (<[n := th]> ts).
Proof. intros Hn m th' Hm. exists th'. rewrite lookup_insert_ne by congruence. by split_and!. Qed.

Lemma grows_step ts n th B (s : stmt B) k b : ts !! n = Some th -> th_prog th = Do s k ->
  grows ts (<[n := moved th (th_hist th ++ [Ev s b]) (k b)]> ts).
Proof.
  intros Hn Hp m th' Hm. destruct (decide (m = n)) as [->|Hne].
  - rewrite Hn in Hm. injection Hm as <-. rewrite lookup_insert_eq. eexists. split_and!; [done|done| |by rewrite Hp].
    intros e He. by apply before_it.
  - rewrite lookup_insert_ne by done. by exists th'.
Qed.

Lemma checked_more h h' u : (forall e, e ∈ h -> e ∈ h') -> password_checked h u -> password_checked h' u.
Proof. intros Hs [[n Hn] [pw Hp]]. split; eauto. Qed.

Lemma accepted_more h h' u : (forall e, e ∈ h -> e ∈ h') -> factor_accepted h u -> factor_accepted h' u.
Proof. intros Hs [Ht Hf]. split; [done|]. destruct Hf as [[code Hf]|(secret & code & t & H1' & H2 & H3)]; [left|right]; eauto 8. Qed.

Lemma earned_grows ts ts' uid : grows ts ts' -> earned ts uid -> earned ts' uid.
Proof.
  intros Hg (n & th & u & Hn & Hu & Hc & Hf). destruct (Hg n th Hn) as (th' & Hn' & _ & Hs & _). exists n, th', u.
  split_and!; [done|done|by eapply checked_more|]. intros Hx. destruct (Hf Hx) as (m & th2 & u2 & Hm & Hu2 & Ha).
  destruct (Hg m th2 Hm) as (th2' & Hm' & _ & Hs2 & _). exists m, th2', u2. split_and!; [done..|]. by eapply accepted_more.
Qed.

Lemma issued_grows ts ts' v : grows ts ts' -> issued ts v -> issued ts' v.
Proof.
  intros Hg [(n & th & r & Hn & Hp & Hb)|[(n & th & r & k & Hn & Hp & Hk)|Hd]]; [left|right; left|by right; right];
    destruct (Hg n th Hn) as (th' & Hn' & _ & _ & Hr).
  - exists n, th', r. split_and!; [done|by apply Hr|done].
  - exists n, th', r, k. split_and!; [done|by apply Hr|apply Hk..].
Qed.

Abbreviation follows th := (guarded (@plausible _) (grounded signer FeatureTOTP (th_call th)) (handed signer FeatureTOTP) (th_hist th) (th_prog th)).

Definition ids_ok (s : AdminStore) : Prop :=
  (forall id, is_Some (admins s !! id) -> parse_uuid id = Some id) /\ (forall tid, is_Some (api_tokens s !! tid) -> tid <> EmptyString).

Record invariant (c : config) : Prop := {
  inv_follows : forall n th, threads c !! n = Some th -> follows th;
  inv_ids : ids_ok (store (wld c));
  inv_sessions : forall sid x, sessions (store (wld c)) !! sid = Some x -> earned (threads c) (s_Admin x);
  inv_seen : forall n th sid row, threads c !! n = Some th -> Ev (Db (QGetSession sid)) (Ok row) ∈ th_hist th -> earned (threads c) (sr_Admin row);
  inv_issued : forall n th q v, threads c !! n = Some th -> th_call th = CVerify (Some q) -> Verify signer (v_Challenge q) = Some v -> issued (threads c) v
}.

(** ** The steps keep the invariant *)

Lemma drawn_first draw : draw O ∈ drawn_by draw.
Proof. unfold drawn_by. cbn. by left. Qed.

Lemma ids_rows w draw s s' : new_ids w draw -> rows_kept (draw O) s s' -> ids_ok s -> ids_ok s'.
Proof.
  intros [_ Hn] [A _ T] [I1 I2]. rewrite Forall_forall in Hn. destruct (Hn _ (drawn_first draw)) as (_ & Hp & He). split.
  - intros id [r' Hr]. apply A in Hr as [(r & Hr & _)| ->]; [by apply I1|done].
  - intros tid [t' Ht]. apply T in Ht as [(t & Ht & _)| ->]; [by apply I2|done].
Qed.

Lemma one_Some {A} (f : AdminStore -> option A) s a s' : db_one f s = Ok (a, s') -> f s = Some a /\ s' = s.
Proof. unfold db_one, mbind, DB_bind, db_read. destruct (f s); [by intros [= <- <-]|done]. Qed.

Lemma CreateSession_Ok sid uid e ip ag s a s' : CreateSession sid uid e ip ag s = Ok (a, s') ->
  sessions s !! sid = None /\ admins s' = admins s /\ api_tokens s' = api_tokens s /\
  sessions s' = <[sid := {| s_Admin := uid; s_ExpiresAt := e; s_Ip := ip; s_UserAgent := ag |}]> (sessions s).
Proof.
  unfold CreateSession, mbind, DB_bind, db_read. destruct (bool_decide _) eqn:E; [done|]. apply bool_decide_eq_false in E.
  destruct (bool_decide _); [|done]. intros [= _ <-]. split_and!; try done. by apply eq_None_not_Some.
Qed.

Lemma named_spec n m u : u ∈ named n m -> m !! a_ID u = Some (a_row u) /\ Username (a_row u) = n.
Proof.
  unfold named. intros ([i r] & -> & Hf)%list_elem_of_fmap. apply list_elem_of_In, filter_In in Hf as [Hf Hn]. apply list_elem_of_In, elem_of_map_to_list in Hf.
  split; [done|]. by apply String.eqb_eq.
Qed.

(** The session a statement creates, and its account. *)
Definition opens {B} (s : stmt B) : option (string * string) :=
  match s with Db q => match q with QCreateSession sid uid _ _ _ => Some (sid, uid) | _ => None end | _ => None end.

Lemma grounded_opens c h B (s : stmt B) sid uid : grounded signer FeatureTOTP c h B s -> opens s = Some (sid, uid) ->
  none_created h /\ Ev NewToken (Ok sid) ∈ h /\ grounds signer FeatureTOTP c h uid.
Proof. destruct s; try done. destruct q; try done. by intros Hg [= -> ->]. Qed.

(** A query that succeeded answered what the rows say. *)
Lemma query_plausible w draw A (q : query A) s a s' : ids_ok s -> run_query (now_ w) draw q s = Ok (a, s') -> plausible (Db q) (Ok a).
Proof.
  intros [I1 I2] Hq. destruct q; cbn [run_query plausible] in *; try done; unfold GetAdminByUsername, GetAdmin, GetActiveAPIToken in Hq.
  - apply one_Some in Hq as [Hh _]. apply I1. apply head_Some in Hh as [l Hl]. assert (a ∈ named name (admins s)) as Hin by (rewrite Hl; left).
    apply named_spec in Hin as [Hin _]. by exists (a_row a).
  - apply one_Some in Hq as [Hh _]. destruct (admins s !! id) as [r|] eqn:E; [|done]. injection Hh as <-. split; [done|]. apply I1. cbn. by exists r.
  - apply one_Some in Hq as [Hh _]. unfold token_row in Hh. destruct (head _) as [[tid t]|] eqn:Eh; [|done]. destruct (admins s !! t_Admin t); [|done].
    destruct (active _ _); [|done]. injection Hh as <-. cbn. apply I2. apply head_Some in Eh as [l Hl].
    assert (Hin : (tid, t) ∈ with_hash hash (api_tokens s)) by (rewrite Hl; left). unfold with_hash in Hin.
    apply list_elem_of_In, filter_In in Hin as [Hin _]. apply list_elem_of_In, elem_of_map_to_list in Hin. by exists t.
Qed.

Lemma does_plausible w B (s : stmt B) b w' : ids_ok (store w) -> does w s b w' -> plausible s b.
Proof.
  intros Hi. destruct s; cbn [does plausible]; try done.
  - intros [(bytes & _ & _ & -> & _)|[_ [e ->]]]; [by exists bytes|done].
  - intros (draw & _ & Hq). assert (He : forall e, plausible (Db q) (Err e)) by (intros e; by destruct q).
    destruct (run_query _ _ _ _) as [[a st]|e] eqn:E.
    + apply query_plausible in E; [|done]. destruct Hq as [[_ [->|[e ->]]]|[_ [e ->]]]; [exact E|apply He..].
    + destruct Hq as [_ [e' ->]]. apply He.
Qed.

(** The sessions after a statement are the sessions before it, and one more
    when it created one. *)
Lemma does_rows w B (s : stmt B) b w' : does w s b w' -> ids_ok (store w) ->
  ids_ok (store w') /\
  forall sid x', sessions (store w') !! sid = Some x' ->
    (exists x, sessions (store w) !! sid = Some x /\ s_Admin x' = s_Admin x) \/
    opens s = Some (sid, s_Admin x').
Proof.
  assert (Hsame : forall w2, store w2 = store w -> ids_ok (store w) -> ids_ok (store w2) /\
    forall sid x', sessions (store w2) !! sid = Some x' -> (exists x, sessions (store w) !! sid = Some x /\ s_Admin x' = s_Admin x) \/
      opens s = Some (sid, s_Admin x')).
  { intros w2 -> Hi. split; [done|]. intros sid x' Hx. left. eauto. }
  intros Hd Hi. destruct s; cbn [does] in Hd; try (apply Hsame; [first [by subst | by destruct Hd as [Hd ->] | by destruct Hd as [-> Hd]]|done]).
  - destruct Hd as [(bytes & _ & _ & _ & ->)|[-> _]]; by apply Hsame.
  - destruct Hd as (draw & Hn & Hq). destruct (run_query (now_ w) draw q (store w)) as [[a st]|e] eqn:E; [|destruct Hq as [-> _]; by apply Hsame].
    destruct Hq as [[-> _]|[-> _]]; [|by apply Hsame]. cbn. destruct (creates_session q) eqn:Ec.
    + destruct q; try done. cbn [run_query] in E. apply CreateSession_Ok in E as (_ & Ea & Et & Es). split.
      * destruct Hi as [I1 I2]. split; by rewrite ?Ea, ?Et.
      * rewrite Es. intros i x' Hx. destruct (decide (i = sid)) as [->|Hne]; [|rewrite lookup_insert_ne in Hx by done; left; eauto].
        rewrite lookup_insert_eq in Hx. injection Hx as <-. by right.
    + apply query_rows in E; [|done]. split; [by eapply ids_rows|]. intros sid x' Hx. left. by apply E.
Qed.

(** *** Signed values *)

Lemma cut_at (a b : string) : Str.index_byte a "|" = None -> Str.cut (a +:+ String "|" b) "|" = (a, b, true).
Proof.
  intros Ha. unfold Str.cut. assert (E : Str.index_byte (a +:+ String "|" b) "|" = Some (String.length a)).
  { induction a as [|c a IH]; [done|]. rewrite Str.append_cons. cbn in Ha |- *. destruct (Ascii.eqb c "|"); [done|]. destruct (Str.index_byte a "|"); [done|]. by rewrite IH. }
  rewrite E, take_length_append. do 2 f_equal. change (String "|" b) with ("|" +:+ b). rewrite <- Str.append_assoc.
  replace (S (String.length a)) with (String.length (a +:+ "|")) by (rewrite Str.length_append; cbn; lia). apply Str.drop_length_append.
Qed.

Lemma token_no_colon bytes : Str.index_byte (token_of bytes) ":" = None.
Proof.
  apply encode_free. intros v Hv E. assert (Hb : forallb (fun v => negb (Ascii.eqb (digit url_alphabet v) ":")) (seqZ 0 64) = true) by by vm_compute.
  rewrite forallb_forall in Hb. assert (Hin : v ∈ seqZ 0 64) by (apply elem_of_seqZ; lia). apply list_elem_of_In, Hb in Hin. by rewrite E in Hin.
Qed.

Lemma prefix_colon s p : Str.cut_prefix s challengePrefix = Some p -> Str.index_byte s ":" <> None.
Proof.
  unfold Str.cut_prefix. destruct (Str.has_prefix s challengePrefix) eqn:E; [|done]. apply Str.has_prefix_spec in E as [r ->]. done.
Qed.

(** A challenge that is taken was handed out for an account whose password was
    accepted, and that asks for a second factor. *)
Lemma challenge_earned ts t now uid :
  (forall n th, ts !! n = Some th -> follows th) ->
  (forall v, Verify signer t = Some v -> issued ts v) ->
  parseTOTPChallenge signer t now = challengeValid uid ->
  exists n th u, ts !! n = Some th /\ a_ID u = uid /\ password_checked (th_hist th) u.
Proof.
  intros Hfol Hiss Hp. unfold parseTOTPChallenge in Hp. destruct (Verify signer t) as [v|] eqn:Ev; [|done]. specialize (Hiss v eq_refl).
  destruct (Str.cut_prefix v challengePrefix) as [p|] eqn:Ecut; [|done]. apply Verify_inv in Ev as [-> Hv].
  destruct Hiss as [(n & th & r & Hn & Hr & Hb)|[(n & th & r & k & Hn & Hr & Hk & Hname & Hval)|Hd]].
  - specialize (Hfol n th Hn). rewrite Hr in Hfol. destruct Hfol as [Hc _]. destruct (Hc _ Hb) as (u & t0 & Hu & _ & Hid & Ht).
    exists n, th, u. split_and!; [done| |done]. unfold newTOTPChallenge in Ht. apply Sign_inj in Ht; [|done]. subst v.
    rewrite Str.cut_prefix_append in Ecut. injection Ecut as <-. pose proof (parse_uuid_plain _ _ Hid) as Hbar.
    change ("|" +:+ ?x) with (String "|" x) in Hp. rewrite cut_at in Hp by done. cbn [negb] in Hp.
    destruct (Dec.atoi _) as [exp|]; [|done]. rewrite Hid in Hp. destruct (Tm.after _ _); [done|]. by injection Hp.
  - specialize (Hfol n th Hn). rewrite Hr in Hfol. destruct Hfol as [_ Hc]. destruct (Hc k Hk Hname) as [He|[bytes He]]; rewrite Hval in He.
    + apply (f_equal String.length) in He. unfold Sign in He. rewrite !Str.length_append in He. cbn in He. lia.
    + apply Sign_inj in He; [|done]. subst v. by apply prefix_colon in Ecut; rewrite token_no_colon in Ecut.
  - exfalso. unfold Str.cut_prefix in Ecut. destruct (Str.has_prefix v challengePrefix) eqn:E; [|done].
    apply Str.has_prefix_spec in E as [a ->]. apply Str.has_prefix_spec in Hd as [b Hd]. done.
Qed.

(** *** The invariant *)

Lemma follows_step th B (s : stmt B) k b : follows th -> th_prog th = Do s k -> plausible s b ->
  grounded signer FeatureTOTP (th_call th) (th_hist th) B s /\ follows (moved th (th_hist th ++ [Ev s b]) (k b)).
Proof. intros Hf Hp Hb. rewrite Hp in Hf. destruct Hf as [Hs Hk]. split; [done|]. by apply Hk. Qed.

(** The grounds of one request are what makes a session earned. *)
Lemma grounds_earned c n th uid : invariant c -> threads c !! n = Some th -> grounds signer FeatureTOTP (th_call th) (th_hist th) uid ->
  earned (threads c) uid.
Proof.
  intros [I1 _ _ I4 I5] Hn [u Hu Hp Hf|q t u Hc Ht Hv Hu Ha|sid row Hr Hu].
  - exists n, th, u. split_and!; [done..|]. by rewrite Hf.
  - destruct (challenge_earned (threads c) _ t uid I1 (fun v Hver => I5 n th q v Hn Hc Hver) Hv) as (m & th' & u' & Hm & Hu' & Hp).
    exists m, th', u'. split_and!; [done..|]. intros _. by exists n, th, u.
  - rewrite <- Hu. by eapply I4.
Qed.

Lemma session_row_stored now sid s row : session_row now sid s = Some row -> exists x, sessions s !! sid = Some x /\ s_Admin x = sr_Admin row.
Proof.
  unfold session_row. destruct (sessions s !! sid) as [x|]; [|done]. destruct (admins s !! s_Admin x); [|done]. destruct (_ >? _); [|done].
  intros [= <-]. by exists x.
Qed.

(** The session an event read. *)
Definition session_read (e : event) : option SessionRow :=
  match e with
  | Ev s b =>
      match s in stmt B return B -> option SessionRow with
      | Db q =>
          match q in query C return result C -> option SessionRow with
          | QGetSession _ => fun b => match b with Ok row => Some row | Err _ => None end
          | _ => fun _ => None
          end
      | _ => fun _ => None
      end b
  end.

Lemma read_session w B (s : stmt B) b w' row : does w s b w' -> session_read (Ev s b) = Some row ->
  exists sid x, sessions (store w) !! sid = Some x /\ s_Admin x = sr_Admin row.
Proof.
  intros Hd He. destruct s; try done. destruct q; try done. cbn in He. destruct b as [row'|]; [|done]. injection He as ->.
  destruct Hd as (draw & _ & Hq). cbn [run_query] in Hq. unfold GetSession in Hq. destruct (db_one _ _) as [[a st]|e] eqn:E.
  - destruct Hq as [[_ [[= ->]|[e [=]]]]|[_ [e [=]]]]. apply one_Some in E as [E _]. apply session_row_stored in E. by exists sid.
  - by destruct Hq as [_ [e' [=]]].
Qed.

Lemma invariant_request w ts n r c : ts !! n = None -> honest ts c -> invariant {| wld := w; threads := ts |} ->
  invariant {| wld := w; threads := <[n := started r c]> ts |}.
Proof.
  intros Hn Hh [I1 I2 I3 I4 I5]. cbn in *. pose proof (grows_new ts n (started r c) Hn) as Hg. split; cbn.
  - intros m th Hm. destruct (decide (m = n)) as [->|Hne]; [|rewrite lookup_insert_ne in Hm by done; by apply (I1 m)].
    rewrite lookup_insert_eq in Hm. injection Hm as <-. apply serve_grounded.
  - done.
  - intros sid x Hx. eapply earned_grows; [done|by eapply I3].
  - intros m th sid row Hm He. destruct (decide (m = n)) as [->|Hne]; [|rewrite lookup_insert_ne in Hm by done; eapply earned_grows; [done|by eapply I4]].
    rewrite lookup_insert_eq in Hm. injection Hm as <-. by apply elem_of_nil in He.
  - intros m th q v Hm Hc Hv. eapply issued_grows; [done|]. destruct (decide (m = n)) as [->|Hne]; [|rewrite lookup_insert_ne in Hm by done; by eapply (I5 m)].
    rewrite lookup_insert_eq in Hm. injection Hm as <-. by eapply Hh.
Qed.

Lemma invariant_statement w ts n th B (s : stmt B) k b w' : ts !! n = Some th -> th_prog th = Do s k -> does w s b w' ->
  invariant {| wld := w; threads := ts |} -> invariant {| wld := w'; threads := <[n := moved th (th_hist th ++ [Ev s b]) (k b)]> ts |}.
Proof.
  intros Hn Hp Hd Hinv. pose proof Hinv as [I1 I2 I3 I4 I5]. cbn in *. pose proof (grows_step ts n th B s k b Hn Hp) as Hg.
  pose proof (does_plausible w B s b w' I2 Hd) as Hb. destruct (follows_step th B s k b (I1 n th Hn) Hp Hb) as [Hs Hf].
  destruct (does_rows w B s b w' Hd I2) as [I2' Hrows]. set (ts' := <[n := _]> ts) in *. split; cbn.
  - intros m th' Hm. destruct (decide (m = n)) as [->|Hne]; [|subst ts'; rewrite lookup_insert_ne in Hm by done; by apply (I1 m)].
    subst ts'. rewrite lookup_insert_eq in Hm. by injection Hm as <-.
  - done.
  - intros sid x' Hx. eapply earned_grows; [done|]. destruct (Hrows sid x' Hx) as [(x & Hx' & ->)|Ho]; [by eapply I3|].
    destruct (grounded_opens _ _ _ _ _ _ Hs Ho) as (_ & _ & Hgr). by apply (grounds_earned {| wld := w; threads := ts |} n th).
  - intros m th' sid row Hm He. eapply earned_grows; [done|]. destruct (decide (m = n)) as [->|Hne]; [|subst ts'; rewrite lookup_insert_ne in Hm by done; by eapply (I4 m)].
    subst ts'. rewrite lookup_insert_eq in Hm. injection Hm as <-. cbn in He. apply elem_of_app in He as [He|He%list_elem_of_singleton]; [by eapply (I4 n)|].
    apply (f_equal session_read) in He. cbn [session_read] in He. destruct (read_session w B s b w' row Hd (eq_sym He)) as (i & x & Hx & <-). by eapply I3.
  - intros m th' q v Hm Hc Hv. eapply issued_grows; [done|]. destruct (decide (m = n)) as [->|Hne]; [|subst ts'; rewrite lookup_insert_ne in Hm by done; by eapply (I5 m)].
    subst ts'. rewrite lookup_insert_eq in Hm. injection Hm as <-. by eapply (I5 n).
Qed.

Lemma invariant_store w w' ts : ids_ok (store w') ->
  (forall sid x', sessions (store w') !! sid = Some x' -> exists x, sessions (store w) !! sid = Some x /\ s_Admin x' = s_Admin x) ->
  invariant {| wld := w; threads := ts |} -> invariant {| wld := w'; threads := ts |}.
Proof. intros Hi Hs [I1 I2 I3 I4 I5]. split; cbn in *; try done. intros sid x' Hx. destruct (Hs sid x' Hx) as (x & Hx' & ->). by eapply I3. Qed.

Lemma invariant_step c c' : step c c' -> invariant c -> invariant c'.
Proof.
  intros [w ts n r q|w ts n th B s k b w'|w ts d|w ts s Hs].
  - by apply invariant_request.
  - by apply invariant_statement.
  - intros Hinv. eapply invariant_store; [apply (inv_ids _ Hinv)| |done]. cbn. eauto.
  - intros Hinv. injection Hs as <-. eapply invariant_store; [|..|done]; cbn.
    + apply (inv_ids _ Hinv).
    + intros sid x' Hx. apply map_lookup_filter_Some in Hx as [Hx _]. eauto.
Qed.

(** The panel before its first request: accounts, and nobody signed in. *)
Definition begins (c : config) : Prop := threads c = ∅ /\ sessions (store (wld c)) = ∅ /\ ids_ok (store (wld c)).

Lemma invariant_begins c : begins c -> invariant c.
Proof. intros (Ht & Hs & Hi). split; rewrite ?Ht, ?Hs; try done; by intros *; rewrite lookup_empty. Qed.

Lemma invariant_reached c c' : reaches_ c c' -> invariant c -> invariant c'.
Proof. induction 1 as [|c c1 c2 Hs _ IH]; [done|]. intros Hi. by apply IH, (invariant_step c). Qed.

(** C3: In every interleaving of any number of requests, every session in the
    table belongs to an account whose password some request had accepted by the
    check of that account's hash, and where the account read there asks for a
    second factor, some request had one accepted for it: the code in force or a
    recovery code it burnt.  Neither a session cookie, a device cookie nor an
    API token can stand in for the challenge of a sign-in. *)
Theorem session_earned c c' sid x : begins c -> reaches_ c c' -> sessions (store (wld c')) !! sid = Some x ->
  earned (threads c') (s_Admin x).
Proof. intros Hb Hr Hx. apply (inv_sessions c' (invariant_reached c c' Hr (invariant_begins c Hb)) sid x Hx). Qed.

End Panel.
