(* ===== verification/AuthAccounts.v ===== *)
(** * Accounts over time

    Two promises about the accounts of the panel, in every interleaving of
    requests: there is always an owner ([owner_stays]), and what the change of a
    password withdraws, sessions and API tokens, never comes back
    ([password_change_withdraws]).  Both rest on identities being drawn once. *)

From S2P Require Import Prelude Crypto TelemtTypes RateLimit AdminTables Routes Auth AuthLogic AuthSafety.

Local Open Scope go_scope.

(** ** Accounts stay *)

Definition accounts_stay (s s' : AdminStore) : Prop :=
  forall id r, admins s !! id = Some r -> exists r', admins s' !! id = Some r' /\ Role r' = Role r.

Definition keeps_accounts {A} (m : DB A) : Prop := forall s a s', m s = Ok (a, s') -> accounts_stay s s'.

Lemma stay_refl s : accounts_stay s s.
Proof. intros id r Hr. by exists r. Qed.

Lemma stay_trans a b c : accounts_stay a b -> accounts_stay b c -> accounts_stay a c.
Proof. intros H1 H2 id r (r1 & Hr1 & <-)%H1. apply H2 in Hr1 as (r2 & Hr2 & E). by exists r2. Qed.

Lemma accounts_ret {A} (a : A) : keeps_accounts (mret a).
Proof. intros s a' s' [= _ <-]. apply stay_refl. Qed.

Lemma accounts_bind {A B} (m : DB A) (k : A -> DB B) : keeps_accounts m -> (forall a, keeps_accounts (k a)) -> keeps_accounts (m ≫= k).
Proof.
  intros Hm Hk s b s2. unfold mbind, DB_bind. destruct (m s) as [[a s1]|e] eqn:E; [|done]. intros Hs. eapply stay_trans; [by eapply Hm|by eapply Hk].
Qed.

Lemma accounts_read {A} (f : AdminStore -> A) : keeps_accounts (db_read f).
Proof. intros s a s' [= _ <-]. apply stay_refl. Qed.

Lemma accounts_fail {A} e : keeps_accounts (@db_fail A e).
Proof. by intros s a s'. Qed.

Lemma accounts_if {A} (b : bool) (m n : DB A) : keeps_accounts m -> keeps_accounts n -> keeps_accounts (if b then m else n).
Proof. by destruct b. Qed.

Lemma accounts_one {A} (f : AdminStore -> option A) : keeps_accounts (db_one f).
Proof. apply accounts_bind; [apply accounts_read|]. intros [a|]; [apply accounts_ret|apply accounts_fail]. Qed.

Lemma accounts_modify f : (forall s, admins (f s) = admins s) -> keeps_accounts (db_modify f).
Proof. intros Hf s a s' [= _ <-] id r Hr. exists r. by rewrite Hf. Qed.

Lemma accounts_row f id : (forall r, Role (f r) = Role r) -> keeps_accounts (admin_row f id).
Proof.
  intros Hf s a s' [= _ <-] i r Hr. cbn. destruct (decide (i = id)) as [->|Hne]; [|rewrite lookup_alter_ne by done; by exists r].
  rewrite lookup_alter_eq, Hr. cbn. by exists (f r).
Qed.

Lemma accounts_each {A} (f : A -> DB unit) l : (forall a, keeps_accounts (f a)) -> keeps_accounts (db_each f l).
Proof. intros Hf. induction l as [|a l IH]; [apply accounts_ret|]. apply accounts_bind; [apply Hf|]. intros _. exact IH. Qed.

Create HintDb accounts.
#[export] Hint Resolve accounts_ret accounts_read accounts_fail accounts_if accounts_one accounts_row accounts_each : accounts.
#[export] Hint Extern 3 (keeps_accounts (db_modify _)) => (apply accounts_modify; intros; reflexivity) : accounts.
#[export] Hint Extern 5 (keeps_accounts (_ ≫= _)) => apply accounts_bind; [|intros] : accounts.

Lemma accounts_issue now draw p name prefix hash scopes days : keeps_accounts (issue_token now draw p name prefix hash scopes days).
Proof.
  assert (Hs : forall A (m : DB A), keeps_accounts m ->
    keeps_accounts (fun s => match m s with Err e => Err (if String.eqb e ErrNoRows then errAPITokenSessionExpired else e) | ok => ok end)).
  { intros A m Hm s a s'. destruct (m s) as [[x s1]|e] eqn:E; [|done]. intros [= <- <-]. by eapply Hm. }
  unfold issue_token. apply accounts_bind; [apply Hs, accounts_one|]. intros _. apply accounts_bind; [apply Hs, accounts_one|]. intros x.
  unfold CountActiveAPITokens, CreateAPIToken. auto 20 with accounts.
Qed.

(** What a query may delete. *)
Definition deletes {A} (q : query A) : bool := match q with QDeleteAdmin _ | TxDeleteOwner _ _ => true | _ => false end.

Lemma query_accounts now draw A (q : query A) : deletes q = false -> keeps_accounts (run_query now draw q).
Proof.
  destruct q; cbn [deletes run_query]; intros Hq; try done; try apply accounts_one; try apply accounts_read; auto with accounts.
  - unfold CreateAdmin, GetAdmin. intros s a s'. unfold mbind, DB_bind, db_read. destruct (bool_decide (is_Some (admins s !! draw O))) eqn:E; cbn [orb]; [done|]. apply bool_decide_eq_false in E.
    cbn [orb]. destruct (negb _); [done|]. intros Hx. apply one_Some in Hx as [_ ->]. intros i r Hr. cbn. exists r. rewrite lookup_insert_ne; [done|]. intros <-. by apply E.
  - unfold RecordFailedLogin. apply accounts_bind; [apply accounts_read|]. intros s. destruct (admins s !! id); auto with accounts.
  - unfold ResetFailedLogins. auto with accounts.
  - unfold CreateSession. auto 10 with accounts.
  - unfold TouchSession. auto with accounts.
  - unfold DeleteSession. auto with accounts.
  - unfold DeleteUserSessions. auto with accounts.
  - unfold SetAdminTOTPPending. auto with accounts.
  - unfold UseRecoveryCode. auto 10 with accounts.
  - unfold TouchAPIToken. auto with accounts.
  - unfold RevokeAPIToken. apply accounts_bind; [apply accounts_read|]. intros s. destruct (api_tokens s !! tid); auto 10 with accounts.
  - unfold InsertAudit. auto 10 with accounts.
  - unfold change_password, UpdateAdminPassword, RevokeAdminAPITokens, DeleteUserSessions. auto 10 with accounts.
  - unfold enroll, SetAdminTOTP, DeleteRecoveryCodes, RevokeAdminAPITokens. apply accounts_bind; [auto with accounts|]. intros _.
    apply accounts_bind; [auto with accounts|]. intros _. apply accounts_bind; [auto with accounts|]. intros _. apply accounts_each. intros ic.
    unfold InsertRecoveryCode. auto 10 with accounts.
  - unfold disable_totp, SetAdminTOTP, DeleteRecoveryCodes. auto 10 with accounts.
  - apply accounts_issue.
Qed.

(** ** Identities are drawn once *)

Section Panel.
Context `{Uuid} `{Otp} `{Argon2}.
Context (signer : Signer) (FeatureTOTP : bool).

Definition has_owner (s : AdminStore) : Prop := exists id r, admins s !! id = Some r /\ is_owner r = true.

Definition drew (th : thread) (t : string) : Prop := Ev NewToken (Ok t) ∈ th_hist th.

(** What was drawn is known, a token by one request; a session in the table
    was created by the request that drew it; the role read of an account is its
    role for good. *)
Record known (c : config) : Prop := {
  known_rows : forall id, is_Some (admins (store (wld c)) !! id) \/ is_Some (api_tokens (store (wld c)) !! id) -> id ∈ drawn (wld c);
  known_draws : forall n th t, threads c !! n = Some th -> drew th t -> t ∈ drawn (wld c);
  known_once : forall n m th th' t, threads c !! n = Some th -> threads c !! m = Some th' -> drew th t -> drew th' t -> n = m;
  known_sessions : forall sid, is_Some (sessions (store (wld c)) !! sid) -> exists n th, threads c !! n = Some th /\ drew th sid /\ ~ none_created (th_hist th);
  known_roles : forall n th id u, threads c !! n = Some th -> Ev (Db (QGetAdmin id)) (Ok u) ∈ th_hist th ->
    id ∈ drawn (wld c) /\ forall r, admins (store (wld c)) !! id = Some r -> Role r = Role (a_row u)
}.

(** *** What one statement does *)

(** The token a statement drew, and the account one read. *)
Definition token_drawn (e : event) : option string :=
  match e with
  | Ev s b => match s in stmt B return B -> option string with NewToken => fun b => match b with Ok t => Some t | Err _ => None end | _ => fun _ => None end b
  end.

Definition account_read (e : event) : option (string * AdminUser) :=
  match e with
  | Ev s b =>
      match s in stmt B return B -> option (string * AdminUser) with
      | Db q =>
          match q in query C return result C -> option (string * AdminUser) with
          | QGetAdmin id => fun b => match b with Ok u => Some (id, u) | Err _ => None end
          | _ => fun _ => None
          end
      | _ => fun _ => None
      end b
  end.

Lemma drew_app th h e p t : drew (moved th (h ++ [e]) p) t -> Ev NewToken (Ok t) ∈ h \/ token_drawn e = Some t.
Proof.
  unfold drew. cbn. intros [Hh|He%list_elem_of_singleton]%elem_of_app; [by left|right]. by apply (f_equal token_drawn) in He.
Qed.

Definition statement_rows {B} (s : stmt B) (w w' : world) : Prop :=
  drawn w ⊆ drawn w' /\
  (forall id, is_Some (admins (store w') !! id) \/ is_Some (api_tokens (store w') !! id) ->
     is_Some (admins (store w) !! id) \/ is_Some (api_tokens (store w) !! id) \/ (id ∈ drawn w' /\ id ∉ drawn w)) /\
  (forall id r', admins (store w') !! id = Some r' -> (exists r, admins (store w) !! id = Some r /\ Role r' = Role r) \/ id ∉ drawn w) /\
  (forall tid t', api_tokens (store w') !! tid = Some t' ->
     (exists t, api_tokens (store w) !! tid = Some t /\ (t_RevokedAt t' = None -> t_RevokedAt t = None)) \/ tid ∉ drawn w).

Lemma statement_same {B} (s : stmt B) w w' : store w' = store w -> drawn w ⊆ drawn w' -> statement_rows s w w'.
Proof.
  intros Hs Hd. unfold statement_rows. rewrite Hs. split_and!; [done|intros id [?|?]; auto|intros id r Hr; left; eauto|intros tid t Ht; left; eauto].
Qed.

Lemma does_statement w B (s : stmt B) b w' : does w s b w' -> statement_rows s w w'.
Proof.
  intros Hd. destruct s; cbn [does] in Hd; try (apply statement_same; first [by subst | by destruct Hd as [Hd ->] | by destruct Hd as [-> Hd]]).
  - destruct Hd as [(bytes & _ & _ & _ & ->)|[-> _]]; apply statement_same; try done. unfold with_drawn. cbn [drawn]. set_solver.
  - destruct Hd as (draw & [Hnd Hn] & Hq). destruct (run_query (now_ w) draw q (store w)) as [[a st]|e] eqn:E; [|destruct Hq as [-> _]; by apply statement_same].
    destruct Hq as [[-> _]|[-> _]]; [|by apply statement_same]. rewrite Forall_forall in Hn. destruct (Hn _ (drawn_first draw)) as (Hnew & _).
    assert (Hin : draw O ∈ drawn (with_drawn (with_store w st) (drawn_by draw))).
    { unfold with_drawn. cbn [drawn]. apply elem_of_union_l, elem_of_list_to_set, drawn_first. }
    assert (Hk : rows_kept (draw O) (store w) st \/ (admins st = admins (store w) /\ api_tokens st = api_tokens (store w))).
    { destruct (creates_session q) eqn:Ec; [|left; by eapply query_rows]. right. destruct q; try done. cbn [run_query] in E. by apply CreateSession_Ok in E as (_ & ? & ? & _). }
    split; [unfold with_drawn; cbn [drawn with_store]; set_solver|]. destruct Hk as [[RA _ RT]|[Ea Et]]; cbn [with_drawn with_store store].
    + split_and!.
      * intros id [[r Hr]|[t Ht]].
        -- apply RA in Hr as [(r0 & Hr0 & _)| ->]; [left; by exists r0|by right; right].
        -- apply RT in Ht as [(t0 & Ht0 & _)| ->]; [right; left; by exists t0|by right; right].
      * intros id r' [Hr| ->]%RA; [by left|by right].
      * intros tid t' [(t & Ht & _ & Hr)| ->]%RT; [left; by exists t|by right].
    + rewrite Ea, Et. split_and!; [intros id [?|?]; auto|intros; left; eauto|intros; left; eauto].
Qed.

(** A token drawn now was not known. *)
Lemma drawn_now w B (s : stmt B) b w' t : does w s b w' -> token_drawn (Ev s b) = Some t -> t ∉ drawn w /\ t ∈ drawn w'.
Proof.
  intros Hd Ht. destruct s; try done. cbn in Ht, Hd. destruct Hd as [(bytes & _ & Hn & -> & ->)|[_ [e ->]]]; [|done]. injection Ht as <-.
  split; [done|]. unfold with_drawn. cbn [drawn]. set_solver.
Qed.

(** An account that was read is in the table. *)
Lemma read_now w B (s : stmt B) b w' id u : does w s b w' -> account_read (Ev s b) = Some (id, u) ->
  admins (store w) !! id = Some (a_row u) /\ store w' = store w.
Proof.
  intros Hd He. destruct s; try done. destruct q; try done. cbn in He. destruct b as [u'|]; [|done]. injection He as -> ->.
  destruct Hd as (draw & _ & Hq). cbn [run_query] in Hq. unfold GetAdmin in Hq. destruct (db_one _ _) as [[a st]|e] eqn:E.
  - destruct Hq as [[-> [[= ->]|[e [=]]]]|[_ [e [=]]]]. apply one_Some in E as [E ->]. destruct (admins (store w) !! id) as [r|]; [|done]. by injection E as <-.
  - by destruct Hq as [_ [e' [=]]].
Qed.

(** *** Steps *)

Abbreviation inv c := (invariant signer FeatureTOTP c).

Lemma known_store w w' ts : admins (store w') = admins (store w) -> api_tokens (store w') = api_tokens (store w) -> drawn w' = drawn w ->
  (forall sid, is_Some (sessions (store w') !! sid) -> is_Some (sessions (store w) !! sid)) ->
  known {| wld := w; threads := ts |} -> known {| wld := w'; threads := ts |}.
Proof. intros Ha Ht Hd Hs [K1 K2 K3 K4 K5]. split; cbn in *; rewrite ?Ha, ?Ht, ?Hd; try done. intros sid Hx. by apply K4, Hs. Qed.

Lemma known_request w ts n r c : ts !! n = None -> known {| wld := w; threads := ts |} ->
  known {| wld := w; threads := <[n := started signer FeatureTOTP r c]> ts |}.
Proof.
  intros Hn [K1 K2 K3 K4 K5].
  assert (Hold : forall m th e, (<[n := started signer FeatureTOTP r c]> ts) !! m = Some th -> e ∈ th_hist th -> ts !! m = Some th).
  { intros m th e Hm He. destruct (decide (m = n)) as [->|Hne]; [|by rewrite lookup_insert_ne in Hm]. rewrite lookup_insert_eq in Hm. injection Hm as <-. by apply elem_of_nil in He. }
  split; cbn in *; [done| | | |].
  - intros m th t Hm Hd. eapply K2; [by eapply Hold|done].
  - intros m m' th th' t Hm Hm' Hd Hd'. eapply K3; [by eapply Hold|by eapply Hold|done|done].
  - intros sid Hs. destruct (K4 sid Hs) as (m & th & Hm & Hd & Hc). exists m, th. split_and!; [|done..]. rewrite lookup_insert_ne; [done|]. intros <-. by rewrite Hn in Hm.
  - intros m th id u Hm He. eapply K5; [by eapply Hold|done].
Qed.

Lemma opens_creates B (s : stmt B) b p : opens s = Some p -> creates (Ev s b) = true.
Proof. destruct s; try done. by destruct q. Qed.

Lemma created_not_none h e : creates e = true -> ~ none_created (h ++ [e]).
Proof. unfold none_created. rewrite forallb_app. cbn. intros ->. by rewrite andb_false_r. Qed.

Lemma not_none_app h e : ~ none_created h -> ~ none_created (h ++ [e]).
Proof. unfold none_created. rewrite forallb_app. intros Hn [? _]%andb_true_iff. done. Qed.

Lemma known_statement w ts n th B (s : stmt B) k b w' : ts !! n = Some th -> th_prog th = Do s k -> does w s b w' ->
  inv {| wld := w; threads := ts |} -> known {| wld := w; threads := ts |} ->
  known {| wld := w'; threads := <[n := moved th (th_hist th ++ [Ev s b]) (k b)]> ts |}.
Proof.
  intros Hn Hp Hd [I1 I2 _ _ _] [K1 K2 K3 K4 K5]. cbn in *. pose proof (does_statement w B s b w' Hd) as (Hdr & Hids & Hroles & _).
  pose proof (does_plausible w B s b w' I2 Hd) as Hb. destruct (follows_step signer FeatureTOTP th B s k b (I1 n th Hn) Hp Hb) as [Hs _].
  destruct (does_rows w B s b w' Hd I2) as [_ Hrows]. set (th1 := moved th (th_hist th ++ [Ev s b]) (k b)).
  assert (Hlook : forall m x, <[n := th1]> ts !! m = Some x -> (m = n /\ x = th1) \/ (m <> n /\ ts !! m = Some x)).
  { intros m x Hm. destruct (decide (m = n)) as [->|Hne]; [rewrite lookup_insert_eq in Hm; injection Hm as <-; by left|rewrite lookup_insert_ne in Hm by done; by right]. }
  assert (Hdrew : forall m x t, <[n := th1]> ts !! m = Some x -> drew x t ->
    (exists y, ts !! m = Some y /\ drew y t) \/ (m = n /\ t ∉ drawn w /\ t ∈ drawn w')).
  { intros m x t Hm Ht. destruct (Hlook m x Hm) as [[-> ->]|[Hne Hm']]; [|left; eauto]. apply drew_app in Ht as [Ht|Ht]; [left; by exists th|].
    right. split; [done|]. by eapply drawn_now. }
  split; cbn.
  - intros id [Hx|[Hx|[Hx _]]]%Hids; [by apply Hdr, K1; left|by apply Hdr, K1; right|done].
  - intros m x t Hm Ht. destruct (Hdrew m x t Hm Ht) as [(y & Hy & Hyt)|(_ & _ & Hin)]; [|done]. by eapply Hdr, K2.
  - intros m m' x x' t Hm Hm' Ht Ht'. destruct (Hdrew m x t Hm Ht) as [(y & Hy & Hyt)|(-> & Hnot & _)], (Hdrew m' x' t Hm' Ht') as [(y' & Hy' & Hyt')|(-> & Hnot' & _)].
    + by eapply (K3 m m').
    + exfalso. apply Hnot'. by eapply K2.
    + exfalso. apply Hnot. by eapply K2.
    + done.
  - intros sid [x' Hx]. destruct (Hrows sid x' Hx) as [(x & Hx' & _)|Ho].
    + destruct (K4 sid (ex_intro _ x Hx')) as (m & y & Hm & Hy & Hc). destruct (decide (m = n)) as [->|Hne].
      * rewrite Hn in Hm. injection Hm as <-. exists n, th1. rewrite lookup_insert_eq. split_and!; [done|by apply before_it|by apply not_none_app].
      * exists m, y. by rewrite lookup_insert_ne.
    + exists n, th1. rewrite lookup_insert_eq. destruct (grounded_opens _ _ _ _ _ _ _ _ Hs Ho) as (_ & Hnew & _).
      split_and!; [done|by apply before_it|]. apply created_not_none. by eapply opens_creates.
  - intros m x id u Hm He. assert (Hcase : (exists y, ts !! m = Some y /\ Ev (Db (QGetAdmin id)) (Ok u) ∈ th_hist y) \/ account_read (Ev s b) = Some (id, u)).
    { destruct (Hlook m x Hm) as [[-> ->]|[Hne Hm']]; [|left; eauto]. cbn in He. apply elem_of_app in He as [He|He%list_elem_of_singleton]; [left; eauto|].
      right. by apply (f_equal account_read) in He. }
    destruct Hcase as [(y & Hy & Hev)|Hr].
    + destruct (K5 m y id u Hy Hev) as [Hin Hrole]. split; [by apply Hdr|]. intros r' Hr'. apply Hroles in Hr' as [(r & Hr & ->)|Hnot]; [by apply Hrole|done].
    + destruct (read_now w B s b w' id u Hd Hr) as [Ha Hst]. split; [apply Hdr, K1; left; eauto|]. rewrite Hst, Ha. by intros r [= <-].
Qed.

Lemma known_step c c' : step signer FeatureTOTP c c' -> inv c -> known c -> known c'.
Proof.
  intros [w ts n r q|w ts n th B s k b w'|w ts d|w ts s Hs] Hi Hk.
  - by apply known_request.
  - by eapply (known_statement w).
  - by refine (known_store w {| now_ := now_ w + d; store := store w; limiter := limiter w; drawn := drawn w |} ts eq_refl eq_refl eq_refl _ Hk).
  - injection Hs as <-. match goal with |- known {| wld := ?w'; threads := _ |} => refine (known_store w w' ts eq_refl eq_refl eq_refl _ Hk) end. cbn. intros sid [x Hx]. apply map_lookup_filter_Some in Hx as [Hx _]. by exists x.
Qed.

(** *** An owner stays *)

(** The account a statement deletes outside a transaction. *)
Definition removes {B} (s : stmt B) : option string := match s with Db q => match q with QDeleteAdmin id => Some id | _ => None end | _ => None end.

Lemma delete_keeps_owner id s : (forall r, admins s !! id = Some r -> is_owner r = false) -> has_owner s ->
  has_owner {| admins := delete id (admins s); sessions := filter (fun kv => s_Admin kv.2 <> id) (sessions s);
    api_tokens := filter (fun kv => t_Admin kv.2 <> id) (api_tokens s); recovery_codes := filter (fun kv => rc_Admin kv.2 <> id) (recovery_codes s);
    audit_log := orphaned id <$> audit_log s |}.
Proof.
  intros Hno (i & r & Hr & Ho). exists i, r. cbn. split; [|done]. rewrite lookup_delete_ne; [done|]. intros <-. by rewrite (Hno r Hr) in Ho.
Qed.

(** One owner of two remains. *)
Lemma owner_of_two s id : (1 < size (filter (fun kv => is_owner kv.2 = true) (admins s)))%nat -> exists i r, i <> id /\ admins s !! i = Some r /\ is_owner r = true.
Proof.
  intros Hsize. set (m := filter _ _) in Hsize. destruct (map_choose (delete id m)) as (i & r & Hr).
  - intros He. destruct (m !! id) as [r|] eqn:E.
    + pose proof (map_size_delete_Some id m (ex_intro _ r E)) as E'. rewrite He, map_size_empty in E'. lia.
    + rewrite delete_id in He by done. rewrite He, map_size_empty in Hsize. lia.
  - apply lookup_delete_Some in Hr as [Hne Hr]. apply map_lookup_filter_Some in Hr as [Hr Ho]. by exists i, r.
Qed.

Lemma statement_owner w B (s : stmt B) b w' : does w s b w' ->
  (forall id, removes s = Some id -> forall r, admins (store w) !! id = Some r -> is_owner r = false) -> has_owner (store w) -> has_owner (store w').
Proof.
  intros Hd Hrem Ho. assert (Hsame : forall w2, store w2 = store w -> has_owner (store w2)) by by intros w2 ->.
  destruct s; cbn [does] in Hd; try (apply Hsame; first [by subst | by destruct Hd as [Hd ->] | by destruct Hd as [-> Hd]]).
  - destruct Hd as [(bytes & _ & _ & _ & ->)|[-> _]]; by apply Hsame.
  - destruct Hd as (draw & _ & Hq). destruct (run_query (now_ w) draw q (store w)) as [[a st]|e] eqn:E; [|destruct Hq as [-> _]; by apply Hsame].
    destruct Hq as [[-> _]|[-> _]]; [|by apply Hsame]. cbn [with_drawn with_store store]. destruct (deletes q) eqn:Ed.
    + destruct q; try done; cbn [run_query] in E.
      * injection E as _ <-. apply delete_keeps_owner; [|done]. by apply Hrem.
      * unfold delete_owner, mbind, DB_bind, CountOwnersForUpdate, db_read in E. destruct (_ <=? 1) eqn:E1; [by injection E as _ <-|]. apply Z.leb_gt in E1.
        destruct (String.eqb self id); [by injection E as _ <-|]. unfold DeleteAdmin, db_modify in E. injection E as _ <-.
        destruct (owner_of_two (store w) id) as (i & r & Hne & Hr & Hor); [lia|]. exists i, r. cbn. by rewrite lookup_delete_ne.
    + destruct Ho as (i & r & Hr & Ho). destruct (query_accounts _ _ _ q Ed _ _ _ E i r Hr) as (r' & Hr' & Hrole). exists i, r'. split; [done|].
      unfold is_owner in *. by rewrite Hrole.
Qed.

Lemma grounded_removes c h B (s : stmt B) id : grounded signer FeatureTOTP c h B s -> removes s = Some id ->
  exists u, Ev (Db (QGetAdmin id)) (Ok u) ∈ h /\ is_owner (a_row u) = false.
Proof. destruct s; try done. destruct q; try done. by intros Hg [= ->]. Qed.

Lemma owner_step c c' : step signer FeatureTOTP c c' -> inv c -> known c -> has_owner (store (wld c)) -> has_owner (store (wld c')).
Proof.
  intros [w ts n r q|w ts n th B s k b w' Hn Hp Hd|w ts d|w ts s Hs] Hi Hk; cbn; try done.
  - apply (statement_owner w B s b w' Hd). intros id Hrem r Hr.
    pose proof (does_plausible w B s b w' (inv_ids _ _ _ Hi) Hd) as Hb. destruct (follows_step _ _ _ _ _ _ _ (inv_follows _ _ _ Hi n th Hn) Hp Hb) as [Hs _].
    destruct (grounded_removes _ _ _ _ _ Hs Hrem) as (u & Hu & Hno). destruct (known_roles _ Hk n th id u Hn Hu) as [_ Hrole].
    unfold is_owner in *. by rewrite (Hrole r Hr).
  - injection Hs as <-. done.
Qed.

(** The panel before its first request, its identities drawn. *)
Definition fresh_panel (c : config) : Prop :=
  begins c /\ forall id, is_Some (admins (store (wld c)) !! id) \/ is_Some (api_tokens (store (wld c)) !! id) -> id ∈ drawn (wld c).

Lemma known_fresh c : fresh_panel c -> known c.
Proof.
  intros [(Ht & Hs & _) Hi]. split; rewrite ?Ht, ?Hs; try done; try by intros *; rewrite lookup_empty.
Qed.

Lemma known_reached c c' : reaches_ signer FeatureTOTP c c' -> inv c -> known c -> inv c' /\ known c'.
Proof.
  induction 1 as [|c c1 c2 Hs _ IH]; [done|]. intros Hi Hk. apply IH; [by eapply invariant_step|by eapply known_step].
Qed.

(** C36: A panel with an owner has one after any interleaving of requests,
    owners deleting each other at the same time included. *)
Theorem owner_stays c c' : fresh_panel c -> has_owner (store (wld c)) -> reaches_ signer FeatureTOTP c c' -> has_owner (store (wld c')).
Proof.
  intros Hf Ho Hr. pose proof (invariant_begins signer FeatureTOTP c (proj1 Hf)) as Hi. pose proof (known_fresh c Hf) as Hk. clear Hf.
  revert Hi Hk Ho. induction Hr as [|c c1 c2 Hs _ IH]; [done|]. intros Hi Hk Ho.
  apply IH; [by eapply invariant_step|by eapply known_step|by eapply owner_step].
Qed.

(** *** What is withdrawn stays withdrawn *)

(** A session that is gone, drawn and used by a request. *)
Definition spent (c : config) (sid : string) : Prop :=
  sessions (store (wld c)) !! sid = None /\ exists n th, threads c !! n = Some th /\ drew th sid /\ ~ none_created (th_hist th).

Definition dead_token (c : config) (tid : string) : Prop :=
  tid ∈ drawn (wld c) /\ forall t, api_tokens (store (wld c)) !! tid = Some t -> t_RevokedAt t <> None.

Lemma spent_grows c c' sid : grows (threads c) (threads c') -> sessions (store (wld c')) !! sid = None ->
  (forall n th th', threads c !! n = Some th -> threads c' !! n = Some th' -> ~ none_created (th_hist th) -> ~ none_created (th_hist th')) ->
  spent c sid -> spent c' sid.
Proof.
  intros Hg Hs Hc [_ (n & th & Hn & Hd & Hcr)]. split; [done|]. destruct (Hg n th Hn) as (th' & Hn' & _ & Hsub & _). exists n, th'.
  split_and!; [done|by apply Hsub|by eapply Hc].
Qed.

Lemma spent_step c c' sid : step signer FeatureTOTP c c' -> inv c -> known c -> spent c sid -> spent c' sid.
Proof.
  intros Hstep Hi Hk Hsp. revert Hi Hk Hsp. destruct Hstep as [w ts n r q Hn Hh|w ts n th B s k b w' Hn Hp Hd|w ts d|w ts s Hs]; intros Hi Hk Hsp.
  - apply (spent_grows {| wld := w; threads := ts |}); [by apply (grows_new ts n)|apply Hsp| |exact Hsp]. cbn. intros m th th' Hm Hm'. destruct (decide (m = n)) as [->|Hne]; [by rewrite Hn in Hm|].
    rewrite lookup_insert_ne in Hm' by done. rewrite Hm in Hm'. by injection Hm' as <-.
  - pose proof Hi as [I1 I2 _ _ _]. cbn in I1, I2. pose proof (does_plausible w B s b w' I2 Hd) as Hb.
    destruct (follows_step signer FeatureTOTP th B s k b (I1 n th Hn) Hp Hb) as [Hg _]. destruct (does_rows w B s b w' Hd I2) as [_ Hrows].
    apply (spent_grows {| wld := w; threads := ts |}); [by apply (grows_step ts n th B s k b)| | |exact Hsp]; cbn.
    + destruct Hsp as [Hnone (m & y & Hm & Hy & Hc)]. cbn in Hnone, Hm. destruct (sessions (store w') !! sid) as [x'|] eqn:E; [|done]. exfalso.
      destruct (Hrows sid x' E) as [(x & Hx & _)|Ho]; [by rewrite Hnone in Hx|]. destruct (grounded_opens _ _ _ _ _ _ _ _ Hg Ho) as (Hn1 & Hd1 & _).
      assert (m = n) as -> by (by eapply (known_once _ Hk m n y th sid)). rewrite Hn in Hm. by injection Hm as <-.
    + intros m y y' Hm Hm'. destruct (decide (m = n)) as [->|Hne].
      * rewrite lookup_insert_eq in Hm'. injection Hm' as <-. rewrite Hn in Hm. injection Hm as <-. apply not_none_app.
      * rewrite lookup_insert_ne in Hm' by done. rewrite Hm in Hm'. by injection Hm' as <-.
  - destruct Hsp as [Hnone Hx]. by split.
  - injection Hs as <-. destruct Hsp as [Hnone Hx]. split; [|done]. cbn in *. apply map_lookup_filter_None. by left.
Qed.

Lemma dead_step c c' tid : step signer FeatureTOTP c c' -> dead_token c tid -> dead_token c' tid.
Proof.
  intros [w ts n r q|w ts n th B s k b w' Hn Hp Hd|w ts d|w ts s Hs] [Hin Ht]; cbn in *; try done.
  - destruct (does_statement w B s b w' Hd) as (Hdr & _ & _ & Htok). split; cbn; [by apply Hdr|]. intros t' Ht' Hnone.
    destruct (Htok tid t' Ht') as [(t & Hx & Hr)|Hnot]; [|done]. by apply (Ht t Hx), Hr.
  - injection Hs as <-. by split.
Qed.

(** The step in which the password of [uid] is changed. *)
Inductive password_changed (uid : string) : config -> config -> Prop :=
| password_changed_intro w ts n th hash k w' : ts !! n = Some th -> th_prog th = Do (Db (TxPassword uid hash)) k ->
    does w (Db (TxPassword uid hash)) (Ok tt) w' ->
    password_changed uid {| wld := w; threads := ts |}
      {| wld := w'; threads := <[n := moved th (th_hist th ++ [Ev (Db (TxPassword uid hash)) (Ok tt)]) (k (Ok tt))]> ts |}.

Lemma changed_store uid w hash w' : does w (Db (TxPassword uid hash)) (Ok tt) w' ->
  sessions (store w') = filter (fun kv => s_Admin kv.2 <> uid) (sessions (store w)) /\
  api_tokens (store w') = (fun t => if String.eqb (t_Admin t) uid then revoked (now_ w) t else t) <$> api_tokens (store w).
Proof. intros (draw & _ & Hq). cbn [run_query] in Hq. destruct Hq as [[-> _]|[_ [e [=]]]]. done. Qed.

(** C7: Changing the password of an account ends every session and every API
    token the account had, and for good: whatever requests come after, also
    those under way at that moment, none of these sessions is in the table
    again and none of these tokens is accepted. *)
Theorem password_change_withdraws c0 c1 c2 c3 uid : fresh_panel c0 -> reaches_ signer FeatureTOTP c0 c1 -> password_changed uid c1 c2 ->
  reaches_ signer FeatureTOTP c2 c3 ->
  (forall sid x, sessions (store (wld c1)) !! sid = Some x -> s_Admin x = uid -> sessions (store (wld c3)) !! sid = None) /\
  (forall tid t, api_tokens (store (wld c1)) !! tid = Some t -> t_Admin t = uid ->
     forall t', api_tokens (store (wld c3)) !! tid = Some t' -> t_RevokedAt t' <> None).
Proof.
  intros Hf H01 Hch H23. destruct (known_reached c0 c1 H01 (invariant_begins _ _ _ (proj1 Hf)) (known_fresh c0 Hf)) as [Hi1 Hk1].
  assert (Hstep : step signer FeatureTOTP c1 c2) by (destruct Hch; by eapply step_statement).
  assert (Hi2 : inv c2) by by eapply invariant_step. assert (Hk2 : known c2) by by eapply known_step.
  split.
  - intros sid x Hx Hu. assert (Hsp : spent c2 sid).
    { destruct (known_sessions _ Hk1 sid (ex_intro _ x Hx)) as (m & y & Hm & Hy & Hc). destruct Hch as [w ts n th hash k w' Hn Hp Hd].
      cbn in *. destruct (changed_store _ _ _ _ Hd) as [Es _]. split; cbn.
      - rewrite Es. apply map_lookup_filter_None. right. intros x' Hx'. cbn. rewrite Hx in Hx'. injection Hx' as <-. by intros Hne.
      - destruct (decide (m = n)) as [->|Hne]; [|exists m, y; by rewrite lookup_insert_ne].
        rewrite Hn in Hm. injection Hm as <-. eexists n, _. rewrite lookup_insert_eq. split_and!; [done|by apply before_it|by apply not_none_app]. }
    clear - H23 Hi2 Hk2 Hsp. revert Hi2 Hk2 Hsp. induction H23 as [|c c' c'' Hs _ IH]; [by intros _ _ [? _]|]. intros Hi Hk Hsp.
    apply IH; [by eapply invariant_step|by eapply known_step|by eapply spent_step].
  - intros tid t Ht Hu. assert (Hdead : dead_token c2 tid).
    { destruct Hch as [w ts n th hash k w' Hn Hp Hd]. cbn in *. destruct (changed_store _ _ _ _ Hd) as [_ Et]. split; cbn.
      - apply (does_statement w _ (Db (TxPassword uid hash)) _ w' Hd). apply (known_rows _ Hk1). right. by exists t.
      - rewrite Et, lookup_fmap, Ht. cbn. rewrite Hu, String.eqb_refl. by intros t' [= <-]. }
    clear - H23 Hdead. induction H23 as [|c c' c'' Hs _ IH]; [by apply Hdead|]. apply IH. by eapply dead_step.
Qed.

End Panel.
