(* ===== verification/AuthLogin.v ===== *)
(** * What a sign-in gives away

    A refused sign-in answers the same whatever the reason, after one password
    check of the same cost; and for an account that is unknown, or locked for
    this browser, nothing the panel does depends on the password
    ([login_tells_nothing]).  Then the recovery codes: as many as asked for, all
    different, and each is taken once, typed in either case
    ([recovery_code_once]). *)

From S2P Require Import Prelude Crypto TelemtTypes RateLimit AdminTables Routes Auth AuthLogic.

Local Open Scope go_scope.

(** ** Runs of one request, for any answers *)

Fixpoint runs {A} (p : prog A) (h : history) (a : A) : Prop :=
  match p with
  | Ret x => h = [] /\ a = x
  | Do s k => exists b h', h = Ev s b :: h' /\ runs (k b) h' a
  end.

Lemma runs_bind {A B} (m : prog A) (k : A -> prog B) h b :
  runs (m ≫= k) h b <-> exists h1 h2 a, h = h1 ++ h2 /\ runs m h1 a /\ runs (k a) h2 b.
Proof.
  revert h. induction m as [a|C s f IH]; intros h; cbn.
  - split; [intros Hk; by exists [], h, a|]. by intros (h1 & h2 & a' & -> & [-> ->] & Hk).
  - split.
    + intros (c & h' & -> & Hr). apply IH in Hr as (h1 & h2 & a & -> & H1 & H2). exists (Ev s c :: h1), h2, a. split_and!; [done| |done]. by exists c, h1.
    + intros (h1 & h2 & a & -> & (c & h' & -> & Hr) & Hk). exists c, (h' ++ h2). split; [done|]. apply IH. by exists h', h2, a.
Qed.

Lemma runs_ask {B C} (s : stmt B) (k : B -> prog C) h c : runs (ask s ≫= k) h c <-> exists b h', h = Ev s b :: h' /\ runs (k b) h' c.
Proof. done. Qed.

Lemma runs_ret {A} (a b : A) h : runs (mret a) h b <-> h = [] /\ b = a.
Proof. done. Qed.

(** The password checks of a run. *)
Definition is_check (e : event) : bool := match e with Ev s _ => match s with CheckPassword _ _ => true | _ => false end end.
Definition checks (h : history) : nat := length (List.filter is_check h).

Lemma checks_app h h' : checks (h ++ h') = (checks h + checks h')%nat.
Proof. unfold checks. by rewrite List.filter_app, length_app. Qed.

(** An event without the password it was asked about: of the check only
    whether it could be carried out. *)
Definition unseen (e : event) : event :=
  match e with
  | Ev s b =>
      match s in stmt B return B -> event with
      | CheckPassword _ phc => fun b => Ev (CheckPassword EmptyString phc) (match b with Ok _ => Ok true | Err e => Err e end)
      | s => fun b => Ev s b
      end b
  end.

Section Login.
Context `{Uuid} `{Otp}.
Context (signer : Signer) (FeatureTOTP : bool).

Abbreviation login r s name pw := (handleLogin signer FeatureTOTP r s (Some {| l_Username := name; l_Password := pw |})).

(** Writes of the audit trail and of failures. *)
Definition quiet_part (m : prog unit) : Prop := forall h a, runs m h a -> checks h = O.

Lemma quiet_failure r s reason name id : quiet_part (recordLoginFailure r s reason name id).
Proof. intros h a Hr. apply runs_ask in Hr as (b & h' & -> & [-> _]). done. Qed.

Lemma quiet_record id : quiet_part (db_ (QRecordFailedLogin id)).
Proof. intros h a Hr. apply runs_ask in Hr as (b & h' & -> & [-> _]). done. Qed.

(** A program that answers as to a wrong password, without a check. *)
Definition refuses (p : prog response) : Prop := forall h res, runs p h res -> res = invalid_credentials /\ checks h = O.

Lemma refuses_ret : refuses (mret invalid_credentials).
Proof. by intros h res [-> ->]%runs_ret. Qed.

Lemma refuses_after m p : quiet_part m -> refuses p -> refuses (_ ← m; p).
Proof. intros Hm Hp h res (h1 & h2 & [] & -> & H1 & H2)%runs_bind. destruct (Hp _ _ H2) as [-> E]. by rewrite checks_app, (Hm _ _ H1), E. Qed.

Abbreviation burning pw phc p := (x ← ask (CheckPassword pw phc); if passwordUnavailable x then mret busy else p).

Lemma burning_refuses p pw phc h res : refuses p -> runs (burning pw phc p) h res -> (res = busy \/ res = invalid_credentials) /\ checks h = 1%nat.
Proof.
  intros Hp (b & h' & -> & Hr)%runs_ask. cbn [prog_mbind prog_bind] in Hr. change (checks (Ev (CheckPassword pw phc) b :: h')) with (S (checks h')).
  destruct (passwordUnavailable b); [apply runs_ret in Hr as [-> ->]; split; [by left|done]|]. destruct (Hp _ _ Hr) as [-> ->]. split; [by right|done].
Qed.

(** The same run with another password. *)
Lemma burning_blind p pw pw' phc h res : runs (burning pw phc p) h res ->
  exists h', runs (burning pw' phc p) h' res /\ unseen <$> h' = unseen <$> h.
Proof. intros (b & h' & -> & Hr)%runs_ask. exists (Ev (CheckPassword pw' phc) b :: h'). split; [apply runs_ask; by exists b, h'|done]. Qed.

(** ** Signing in *)

(** The account is unknown, or locked and the browser is not known. *)
Definition shut_out (r : request) (name : string) (h : history) : Prop :=
  exists rest, (exists e, h = Ev (LimiterAllow (r_Visitor r)) true :: Ev (Db (QGetAdminByUsername name)) (Err e) :: rest) \/
  (exists u t, h = Ev (LimiterAllow (r_Visitor r)) true :: Ev (Db (QGetAdminByUsername name)) (Ok u) :: Ev Now t :: rest /\
     accountLocked (a_row u) t = true /\ knownDevice signer r u t = false).

Definition user_of (e : event) : option (result AdminUser) :=
  match e with
  | Ev s b => match s in stmt B return B -> option (result AdminUser) with
              | Db q => match q in query C return result C -> option (result AdminUser) with QGetAdminByUsername _ => Some | _ => fun _ => None end
              | _ => fun _ => None
              end b
  end.

Definition instant_of (e : event) : option Z :=
  match e with Ev s b => match s in stmt B return B -> option Z with Now => Some | _ => fun _ => None end b end.

Definition allowed_of (e : event) : option bool :=
  match e with Ev s b => match s in stmt B return B -> option bool with LimiterAllow _ => Some | _ => fun _ => None end b end.

Lemma shut_out_answers r name a ur h : shut_out r name (Ev (LimiterAllow (r_Visitor r)) a :: Ev (Db (QGetAdminByUsername name)) ur :: h) ->
  a = true /\ match ur with Err _ => True | Ok u => exists t rest, h = Ev Now t :: rest /\ accountLocked (a_row u) t = true /\ knownDevice signer r u t = false end.
Proof.
  intros (rest & [(e & E)|(u & t & E & Hl & Hk)]).
  - pose proof (f_equal (fun l => match l with x :: _ => allowed_of x | [] => None end) E) as E1.
    pose proof (f_equal (fun l => match l with _ :: y :: _ => user_of y | _ => None end) E) as E2. cbn in E1, E2. injection E1 as ->. by injection E2 as ->.
  - pose proof (f_equal (fun l => match l with x :: _ => allowed_of x | [] => None end) E) as E1.
    pose proof (f_equal (fun l => match l with _ :: y :: _ => user_of y | _ => None end) E) as E2.
    apply (f_equal (fun l => match l with _ :: _ :: l => l | _ => [] end)) in E. cbn in E1, E2, E. injection E1 as ->. injection E2 as ->.
    split; [done|]. by exists t, rest.
Qed.

(** The start of a sign-in: the limiter, then the account. *)
Lemma login_starts r s name pw h res : runs (login r s name pw) h res ->
  exists a h1, h = Ev (LimiterAllow (r_Visitor r)) a :: h1 /\
  ((a = false /\ h1 = [] /\ res = rate_limited) \/
   (a = true /\ exists ur h2, h1 = Ev (Db (QGetAdminByUsername name)) ur :: h2 /\
    match ur with
    | Err _ => runs (burning pw dummyPasswordHash (_ ← recordLoginFailure r s "unknown_user" name EmptyString; mret invalid_credentials)) h2 res
    | Ok u => exists t h3, h2 = Ev Now t :: h3 /\
        if accountLocked (a_row u) t && negb (knownDevice signer r u t)
        then runs (burning pw dummyPasswordHash (_ ← db_ (QRecordFailedLogin (a_ID u)); _ ← recordLoginFailure r s "locked" (Username (a_row u)) (a_ID u); mret invalid_credentials)) h3 res
        else exists ok h4, h3 = Ev (CheckPassword pw (PasswordHash (a_row u))) ok :: h4 /\
          (if passwordUnavailable ok then h4 = [] /\ res = busy
           else match ok with
                | Ok true => status res <> 401
                | _ => runs (_ ← db_ (QRecordFailedLogin (a_ID u)); _ ← recordLoginFailure r s "bad_password" (Username (a_row u)) (a_ID u); mret invalid_credentials) h4 res
                end)
    end)).
Proof.
  unfold handleLogin. intros (a & h1 & -> & Hr)%runs_ask. exists a, h1. split; [done|]. destruct a; [right|left; by apply runs_ret in Hr as [-> ->]].
  split; [done|]. cbn [negb] in Hr. apply runs_ask in Hr as (ur & h2 & -> & Hr). exists ur, h2. split; [done|]. destruct ur as [u|e]; [|exact Hr].
  destruct Hr as (t & h3 & -> & Hr). exists t, h3. split; [done|]. cbn [prog_mbind prog_bind mret prog_ret l_Password] in Hr.
  destruct (_ && _); [exact Hr|]. apply runs_ask in Hr as (ok & h4 & -> & Hr). cbn [prog_mbind prog_bind] in Hr. exists ok, h4. split; [done|].
  destruct (passwordUnavailable ok); [by apply runs_ret in Hr|]. destruct ok as [[]|e]; [|exact Hr..].
  destruct (FeatureTOTP && _); [by apply runs_ask in Hr as (t' & h5 & -> & [_ ->]%runs_ret)|].
  apply runs_bind in Hr as (h5 & h6 & [c|e] & -> & _ & Hr); [|by apply runs_ret in Hr as [_ ->]].
  by apply runs_bind in Hr as (h7 & h8 & x & -> & _ & [_ ->]%runs_ret).
Qed.

Lemma refuses_twice r s id reason name : refuses (_ ← db_ (QRecordFailedLogin id); _ ← recordLoginFailure r s reason name id; mret invalid_credentials).
Proof. apply refuses_after; [apply quiet_record|]. apply refuses_after; [apply quiet_failure|]. apply refuses_ret. Qed.

Lemma refuses_once r s reason name id : refuses (_ ← recordLoginFailure r s reason name id; mret invalid_credentials).
Proof. apply refuses_after; [apply quiet_failure|]. apply refuses_ret. Qed.

(** A refusal looks the same, and took one check. *)
Lemma refusal_alike r s name pw h res : runs (login r s name pw) h res -> status res = 401 -> res = invalid_credentials /\ checks h = 1%nat.
Proof.
  intros Hr Hs. apply login_starts in Hr as (a & h1 & -> & [(-> & -> & ->)|(-> & ur & h2 & -> & Hr)]); [done|].
  change (checks (_ :: _ :: h2)) with (checks h2). destruct ur as [u|e].
  - destruct Hr as (t & h3 & -> & Hr). change (checks (_ :: h3)) with (checks h3). destruct (_ && _).
    + apply burning_refuses in Hr as [[->| ->] E]; [done|done|]. apply refuses_twice.
    + destruct Hr as (ok & h4 & -> & Hr). change (checks (_ :: h4)) with (S (checks h4)). destruct (passwordUnavailable ok); [by destruct Hr as [_ ->]|].
      destruct ok as [[]|e]; [done| |]; apply refuses_twice in Hr as [-> ->]; done.
  - apply burning_refuses in Hr as [[->| ->] E]; [done|done|]. apply refuses_once.
Qed.

(** Shut out, the sign-in runs the same with any password. *)
Lemma shut_out_blind r s name pw pw' h res : runs (login r s name pw) h res -> shut_out r name h ->
  exists h', runs (login r s name pw') h' res /\ unseen <$> h' = unseen <$> h.
Proof.
  intros Hr Hout. apply login_starts in Hr as (a & h1 & -> & [(-> & -> & ->)|(-> & ur & h2 & -> & Hr)]).
  { destruct Hout as (rest & [(e & E)|(u & t & E & _)]); by apply (f_equal length) in E. }
  apply shut_out_answers in Hout as [_ Hu]. destruct ur as [u|e].
  - destruct Hu as (t & rest & -> & Hl & Hk). destruct Hr as (t' & h3 & E & Hr). 
    assert (t' = t /\ h3 = rest) as [-> ->].
    { split; [|by apply (f_equal tail) in E]. apply (f_equal (fun l => match l with x :: _ => instant_of x | [] => None end)) in E. by injection E. }
    rewrite Hl, Hk in Hr. cbn [negb andb] in Hr. apply (burning_blind _ _ pw') in Hr as (h' & Hr & Eh).
    exists (Ev (LimiterAllow (r_Visitor r)) true :: Ev (Db (QGetAdminByUsername name)) (Ok u) :: Ev Now t :: h'). split.
    + exists true, (Ev (Db (QGetAdminByUsername name)) (Ok u) :: Ev Now t :: h'). split; [done|]. exists (Ok u), (Ev Now t :: h'). split; [done|].
      exists t, h'. split; [done|]. cbn [prog_mbind prog_bind mret prog_ret]. rewrite Hl, Hk. exact Hr.
    + cbn. by rewrite Eh.
  - apply (burning_blind _ _ pw') in Hr as (h' & Hr & Eh). exists (Ev (LimiterAllow (r_Visitor r)) true :: Ev (Db (QGetAdminByUsername name)) (Err e) :: h'). split.
    + exists true, (Ev (Db (QGetAdminByUsername name)) (Err e) :: h'). split; [done|]. by exists (Err e), h'.
    + cbn. by rewrite Eh.
Qed.

(** C37: A sign-in gives nothing away.  A refused one answers the same, with no
    cookie, for an unknown name, a locked account and a wrong password, after
    exactly one password check in each case, at the cost of a stored hash.  And
    where the account is unknown, or locked and the browser not known, the same
    statements with the same answers lead to the same response whatever the
    password was: nothing can be learnt about it. *)
Theorem login_tells_nothing r s name pw h res : runs (login r s name pw) h res ->
  (status res = 401 -> res = invalid_credentials /\ checks h = 1%nat) /\
  (shut_out r name h -> forall pw', exists h', runs (login r s name pw') h' res /\ unseen <$> h' = unseen <$> h) /\
  (Str.split "$" dummyPasswordHash !! 3%nat = Some ("m=" +:+ Dec.itoa argonMemory +:+ ",t=" +:+ Dec.itoa argonTime +:+ ",p=" +:+ Dec.itoa argonThreads)).
Proof.
  intros Hr. split_and!; [by apply (refusal_alike r s name pw)|intros Ho pw'; by eapply shut_out_blind|done].
Qed.

End Login.

(** ** Recovery codes *)

(** Every letter is as likely as any other: seven bytes make each. *)
Lemma letters_even : forallb (fun i => (length (List.filter (fun b => (b <? 256 - 256 mod 36) && (b mod 36 =? i))%Z (seqZ 0 256)) =? 7)%nat) (seqZ 0 36) = true.
Proof. by vm_compute. Qed.









(** *** Enrolment and use *)


Section Enrolment.
Context (now : Z) (draw : nat -> string) (id : string).






End Enrolment.


