(* ===== verification/AuthSim.v ===== *)
(** * Signing in, run

    A panel that can be run: identities and random bytes are counted up, nothing
    fails, and every step of the runner is one of [AuthSafety.step]
    ([played_reaches]).  The runs are the witnesses of the theorems on signing
    in, and show what these do not promise: a sign-in and a challenge under way
    outlast a change of the password, and a lock is renewed by every further
    attempt. *)

From S2P Require Import Prelude Crypto TelemtTypes RateLimit AdminTables Routes Auth AuthLogic AuthSafety AuthAccounts AuthLogin.

Local Open Scope go_scope.

(** ** The world outside *)

Definition plain_uuid (s : string) : bool := negb (String.eqb s EmptyString) && match Str.index_byte s "|" with None => true | Some _ => false end.

Definition parse_plain (s : string) : option string := if plain_uuid s then Some s else None.

Lemma parse_plain_spec s u : parse_plain s = Some u -> u = s /\ plain_uuid s = true.
Proof. unfold parse_plain. destruct (plain_uuid s); [|done]. by intros [= <-]. Qed.

Lemma parse_plain_canonical s u : parse_plain s = Some u -> parse_plain u = Some u.
Proof. intros Hs. by destruct (parse_plain_spec s u Hs) as [-> _]. Qed.

Lemma parse_plain_bar s u : parse_plain s = Some u -> Str.index_byte s "|" = None.
Proof. intros [_ Hp]%parse_plain_spec. unfold plain_uuid in Hp. apply andb_true_iff in Hp as [_ Hp]. by destruct (Str.index_byte s "|"). Qed.

#[export] Instance sim_uuid : Uuid := {| parse_uuid := parse_plain; parse_uuid_canonical := parse_plain_canonical; parse_uuid_plain := parse_plain_bar |}.

(** The code of a secret is the number of the half minute. *)
#[export] Instance sim_otp : Otp := {| validate_code := fun secret code t => String.eqb code (secret +:+ Dec.itoa (t / (30 * Tm.second))) |}.

Fixpoint exactly (n : nat) (s : string) : string :=
  match n with O => EmptyString | S n => match s with String c s => String c (exactly n s) | EmptyString => String "0" (exactly n EmptyString) end end.

Lemma exactly_length n s : String.length (exactly n s) = n.
Proof. revert s. induction n as [|n IH]; intros [|c s]; cbn; by rewrite ?IH. Qed.

Lemma sim_key_length (pw salt : string) (t m p n : Z) : 0 <= n -> Z.of_nat (String.length (exactly (Z.to_nat n) (salt +:+ pw))) = n.
Proof. intros Hn. rewrite exactly_length. lia. Qed.

#[export] Instance sim_argon : Argon2 :=
  {| IDKey := fun pw salt _ _ _ n => exactly (Z.to_nat n) (salt +:+ pw); IDKey_length := sim_key_length |}.

Definition sim_salt : string := "0123456789abcdef".

(** Short identities keep the runs fast. *)
Definition uuid_of (n : nat) : string := Dec.itoa (Z.of_nat n).
Definition token_bytes (n : nat) : string := exactly 32 (Dec.itoa (Z.of_nat n) +:+ ".").

(** ** The runner *)

Section Run.
Context (signer : Signer) (FeatureTOTP : bool).

Definition fresh_draw (w : world) (draw : nat -> string) : bool :=
  bool_decide (NoDup (drawn_by draw)) &&
  forallb (fun x => bool_decide (x ∉ drawn w) && plain_uuid x) (drawn_by draw).

Definition drawn_token (seed : nat) (w : world) : option (result string * world) :=
  let bytes := token_bytes seed in
  if bool_decide (token_of bytes ∉ drawn w) && (String.length bytes =? 32)%nat then Some (Ok (token_of bytes), with_drawn w [token_of bytes]) else None.

Definition queried (seed : nat) (w : world) {A} (q : query A) : option (result A * world) :=
  let draw := fun i => uuid_of (seed + i) in
  if fresh_draw w draw then
    match run_query (now_ w) draw q (store w) with
    | Ok (a, s) => Some (Ok a, with_drawn (with_store w s) (drawn_by draw))
    | Err e => Some (Err e, w)
    end
  else None.

Definition answer (seed : nat) (w : world) {B} (s : stmt B) : option (B * world) :=
  match s in stmt B return option (B * world) with
  | Now => Some (now_ w, w)
  | LimiterAllow k => let '(b, l) := Allow (limiter w) (now_ w) k in Some (b, with_limiter w l)
  | LimiterBlocked k => Some (Blocked (limiter w) (now_ w) k, w)
  | CheckPassword pw phc => Some (VerifyPassword pw phc, w)
  | NewHash pw => Some (Ok (HashPassword sim_salt pw), w)
  | NewToken => drawn_token seed w
  | GenerateSecret => Some (Ok "secret", w)
  | RandomBytes => Some (seqZ 0 200, w)
  | EncryptString s | DecryptString s => Some (Ok s, w)
  | Db q => queried seed w q
  end.

Lemma fresh_draw_ids w draw : fresh_draw w draw = true -> new_ids w draw.
Proof.
  intros [Hnd%bool_decide_eq_true Hf]%andb_true_iff. split; [done|]. apply Forall_forall. intros x Hx. rewrite forallb_forall in Hf.
  apply list_elem_of_In, Hf, andb_true_iff in Hx as [Hx%bool_decide_eq_true Hp]. split_and!; [done|by cbn; unfold parse_plain; rewrite Hp|]. by intros ->.
Qed.

Lemma answer_does seed w B (s : stmt B) b w' : answer seed w s = Some (b, w') -> does w s b w'.
Proof.
  assert (Hkeep : forall C (x : C) (b : C) w', Some (x, w) = Some (b, w') -> b = x /\ w' = w) by (intros C x y w2 [=]; by subst).
  destruct s; cbn [answer does].
  - apply Hkeep.
  - destruct (Allow _ _ _) as [x l]. cbn [fst snd]. intros [=]. by subst.
  - apply Hkeep.
  - intros [-> ->]%Hkeep. split; [done|by left].
  - intros [-> ->]%Hkeep. split; [done|]. left. by exists sim_salt.
  - unfold drawn_token. destruct (_ && _) eqn:E; [|discriminate]. apply andb_true_iff in E as [Hn Hl]. apply bool_decide_eq_true in Hn. apply Nat.eqb_eq in Hl.
    intros Heq. injection Heq as <- <-. left. by exists (token_bytes seed).
  - by intros [_ ->]%Hkeep.
  - by intros [_ ->]%Hkeep.
  - by intros [_ ->]%Hkeep.
  - by intros [_ ->]%Hkeep.
  - unfold queried. destruct (fresh_draw _ _) eqn:E; [|discriminate]. apply fresh_draw_ids in E. unfold answers_query. destruct (run_query _ _ _ _) as [[a st]|e] eqn:Eq.
    + intros Heq. injection Heq as <- <-. eexists. split; [exact E|]. rewrite Eq. left. by split; [|left].
    + intros Heq. injection Heq as <- <-. eexists. split; [exact E|]. rewrite Eq. by split; [|exists e].
Qed.

(** Every statement has sixteen numbers of its own. *)
Definition seed_of (c : config) : nat := (16 * foldr (fun kv n => length (th_hist kv.2) + n)%nat 0%nat (map_to_list (threads c)))%nat.

(** One statement of a request. *)
Definition move (n : nat) (c : config) : option config :=
  match threads c !! n with
  | Some th =>
      match th_prog th with
      | Do s k => match answer (seed_of c) (wld c) s with Some (b, w') => Some {| wld := w'; threads := <[n := moved th (th_hist th ++ [Ev s b]) (k b)]> (threads c) |} | None => None end
      | Ret _ => None
      end
  | None => None
  end.

Lemma move_step n c c' : move n c = Some c' -> step signer FeatureTOTP c c'.
Proof.
  destruct c as [w ts]. unfold move. cbn. destruct (ts !! n) as [th|] eqn:En; [|done]. destruct (th_prog th) as [r|B s k] eqn:Ep; [done|].
  destruct (answer _ w s) as [[b w']|] eqn:Ea; [|done]. intros [= <-]. eapply step_statement; [done..|]. by eapply answer_does.
Qed.

Definition challenge_in (t : string) (th : thread) : bool :=
  match th_prog th with Ret r => match body r with Challenge t' => String.eqb t' t | _ => false end | Do _ _ => false end.

Definition honest_call (ts : gmap nat thread) (c : call) : bool :=
  match c with CVerify (Some q) => existsb (fun kv => challenge_in (v_Challenge q) kv.2) (map_to_list ts) | _ => true end.

Lemma honest_call_spec ts c : honest_call ts c = true -> honest signer ts c.
Proof.
  intros Hh q v -> Hv. cbn in Hh. apply existsb_exists in Hh as ([n th] & Hin & Hc). apply list_elem_of_In, elem_of_map_to_list in Hin.
  left. exists n, th. unfold challenge_in in Hc. cbn in Hc. destruct (th_prog th) as [r|]; [|done]. exists r. split_and!; [done..|].
  destruct (body r); try done. apply String.eqb_eq in Hc as ->. f_equal. by apply Verify_inv in Hv as [-> _].
Qed.

(** What happens next: a request comes, one moves by some statements, or to its
    end, time passes. *)
Inductive sim_act :=
| Comes (n : nat) (mk : config -> Auth.request * call)
| Moves (n k : nat)
| Ends (n : nat)
| Passes (d : Z).

Fixpoint moves (n k : nat) (c : config) : option config :=
  match k with O => Some c | S k => match move n c with Some c => moves n k c | None => None end end.

Fixpoint to_end (n fuel : nat) (c : config) : option config :=
  match threads c !! n with
  | Some th =>
      match th_prog th with
      | Ret _ => Some c
      | Do _ _ => match fuel with O => None | S fuel => match move n c with Some c => to_end n fuel c | None => None end end
      end
  | None => None
  end.

Definition later (c : config) (d : Z) : config :=
  {| wld := {| now_ := now_ (wld c) + d; store := store (wld c); limiter := limiter (wld c); drawn := drawn (wld c) |}; threads := threads c |}.

Definition act_on (a : sim_act) (c : config) : option config :=
  match a with
  | Comes n mk =>
      let '(r, q) := mk c in
      match threads c !! n with
      | Some _ => None
      | None => if honest_call (threads c) q then Some {| wld := wld c; threads := <[n := started signer FeatureTOTP r q]> (threads c) |} else None
      end
  | Moves n k => moves n k c
  | Ends n => to_end n 60 c
  | Passes d => if 0 <=? d then Some (later c d) else None
  end.

Definition play (l : list sim_act) (c : config) : option config := foldl (fun o a => o ≫= act_on a) (Some c) l.

Lemma moves_reaches n k c c' : moves n k c = Some c' -> reaches_ signer FeatureTOTP c c'.
Proof.
  revert c. induction k as [|k IH]; intros c; cbn [moves]; [intros [= <-]; apply rtc_refl|]. destruct (move n c) as [c1|] eqn:E; [|done].
  intros Hm. eapply rtc_l; [by eapply move_step|by apply IH].
Qed.

Lemma to_end_reaches n fuel c c' : to_end n fuel c = Some c' -> reaches_ signer FeatureTOTP c c'.
Proof.
  revert c. induction fuel as [|k IH]; intros c; cbn [to_end]; destruct (threads c !! n) as [th|]; try done; destruct (th_prog th) as [r|]; try done; try (intros [= <-]; apply rtc_refl).
  destruct (move n c) as [c1|] eqn:E; [|done]. intros Hm. eapply rtc_l; [by eapply move_step|by apply IH].
Qed.

Lemma act_reaches a c c' : act_on a c = Some c' -> reaches_ signer FeatureTOTP c c'.
Proof.
  destruct a as [n mk|n k|n|d]; cbn [act_on]; [|apply moves_reaches|apply to_end_reaches|].
  - destruct (mk c) as [r q]. destruct (threads c !! n) eqn:En; [done|]. destruct (honest_call _ q) eqn:Eh; [|done]. intros [= <-].
    apply rtc_once. destruct c as [w ts]. apply step_request; [done|]. by apply honest_call_spec.
  - destruct (0 <=? d) eqn:E; [|done]. apply Z.leb_le in E. intros [= <-]. apply rtc_once. destruct c as [w ts]. by apply step_clock.
Qed.

Lemma play_reaches l c c' : play l c = Some c' -> reaches_ signer FeatureTOTP c c'.
Proof.
  unfold play. revert c. induction l as [|a l IH]; intros c; cbn [foldl]; [intros [= <-]; apply rtc_refl|]. change (Some c ≫= act_on a) with (act_on a c). destruct (act_on a c) as [c1|] eqn:E.
  - intros Hl. unfold reaches_ in *. etrans; [by eapply act_reaches|by apply IH].
  - intros Hl. exfalso. clear IH. induction l as [|b l IH]; [done|]. by apply IH.
Qed.

Definition played (l : list sim_act) (c : config) : config := default c (play l c).
Definition plays (l : list sim_act) (c : config) : bool := match play l c with Some _ => true | None => false end.

Lemma played_reaches l c : plays l c = true -> reaches_ signer FeatureTOTP c (played l c).
Proof. unfold plays, played. destruct (play l c) as [c'|] eqn:E; [|done]. intros _. by apply play_reaches in E. Qed.

End Run.

(** ** A panel of three *)

Definition sim_signer : Signer := {| signer_key := "0123456789abcdef0123456789abcdef" |}.

Definition anna : string := uuid_of 9001.
Definition boris : string := uuid_of 9002.
Definition vera : string := uuid_of 9003.

Definition account (name pw role : string) : AdminRow := new_admin 0 name (HashPassword sim_salt pw) role.

(** Anna asks for a second factor; Anna and Boris are owners. *)
Definition three : gmap string AdminRow :=
  list_to_map [(anna, set_totp "JBSW" true (account "anna" "annas password" RoleOwner)); (boris, account "boris" "boriss password" RoleOwner);
               (vera, account "vera" "veras password" RoleViewer)].

Definition opened : config :=
  {| wld := {| now_ := 1800000000 * Tm.second;
               store := {| admins := three; sessions := ∅; api_tokens := ∅; recovery_codes := ∅; audit_log := [] |};
               limiter := newIPLimiter 10 (5 * Tm.minute) (15 * Tm.minute); drawn := {[anna; boris; vera]} |};
     threads := ∅ |}.

Lemma opened_fresh : fresh_panel opened.
Proof.
  assert (Hall : map_Forall (fun id _ => plain_uuid id = true /\ id ∈ drawn (wld opened)) three) by (apply (bool_decide_unpack _); by vm_compute).
  split; [split_and!; [done|done|]|].
  - split; [|by intros tid [t Ht]]. intros id [r Hr]. apply Hall in Hr as [Hp _]. cbn. unfold parse_plain. by rewrite Hp.
  - intros id [[r Hr]|[t Ht]]; [|done]. by apply Hall in Hr as [_ Hd].
Qed.

Lemma opened_owner : has_owner (store (wld opened)).
Proof. exists boris, (account "boris" "boriss password" RoleOwner). by split; vm_compute. Qed.

(** *** Requests *)

Definition from_home (cookies : list (string * string)) (csrf : string) : Auth.request :=
  {| r_Visitor := "198.51.100.7"; r_IP := "198.51.100.7"; r_UserAgent := "browser"; r_Cookies := cookies; r_Authorization := []; r_CsrfHeader := csrf |}.

Definition response_of (n : nat) (c : config) : option Auth.response :=
  match threads c !! n with Some th => match th_prog th with Ret r => Some r | Do _ _ => None end | None => None end.

Definition cookies_of (n : nat) (c : config) : list (string * string) :=
  match response_of n c with Some r => (fun k => (c_Name k, c_Value k)) <$> set_cookies r | None => [] end.
Definition challenge_of (n : nat) (c : config) : string :=
  match response_of n c with Some r => match body r with Challenge t => t | _ => EmptyString end | None => EmptyString end.
Definition status_of (n : nat) (c : config) : Z := match response_of n c with Some r => status r | None => 0 end.

(** A request with the cookies another one was answered. *)
Definition with_cookies_of (n : nat) (q : config -> call) : config -> Auth.request * call :=
  fun c => let l := cookies_of n c in (from_home l (default EmptyString (find_cookie csrfCookie l)), q c).

Definition signs_in (name pw : string) : config -> Auth.request * call :=
  fun _ => (from_home [] EmptyString, CLogin (Some {| l_Username := name; l_Password := pw |})).
Definition code_now (c : config) : string := "JBSW" +:+ Dec.itoa (now_ (wld c) / (30 * Tm.second)).
Definition verifies (n : nat) : config -> Auth.request * call :=
  fun c => (from_home [] EmptyString, CVerify (Some {| v_Challenge := challenge_of n c; v_Code := code_now c; v_RecoveryCode := EmptyString |})).

Abbreviation run_of l := (played sim_signer true l opened).
Abbreviation runs_through l := (plays sim_signer true l opened).

Definition sign_in_twice : list sim_act := [Comes 1 (signs_in "anna" "annas password"); Ends 1; Passes Tm.minute; Comes 2 (verifies 1); Ends 2].


(** The session whose cookie request [n] was answered, and its account. *)
Definition cookie_session (n : nat) (c : config) : string :=
  default EmptyString (find_cookie sessionCookie (cookies_of n c) ≫= Verify sim_signer).

Definition account_of_session (sid : string) (c : config) : option string := s_Admin <$> sessions (store (wld c)) !! sid.

(** *** Two owners delete each other *)

(** The requests 10 and 11, one statement after the other. *)
Definition deletes_account (n : nat) (id : string) : config -> Auth.request * call := with_cookies_of n (fun _ => CDeleteAdmin id).
Definition duel : list sim_act :=
  sign_in_twice ++ [Comes 3 (signs_in "boris" "boriss password"); Ends 3; Comes 10 (deletes_account 2 boris); Comes 11 (deletes_account 3 anna)] ++
  concat (replicate 3 [Moves 10 1; Moves 11 1]) ++ [Ends 10; Ends 11].

Definition statuses (l : list nat) (c : config) : list Z := (fun n => status_of n c) <$> l.
Definition owners_of (c : config) : list string := fst <$> List.filter (fun kv => is_owner kv.2) (map_to_list (admins (store (wld c)))).

(** One owner is gone, the other stays and is told so. *)
Lemma duel_one_left : (fun c => (statuses [10; 11]%nat c, owners_of c)) <$> play sim_signer true duel opened = Some ([204; 409], [anna]).
Proof. by vm_compute. Qed.

(** *** A password is changed *)

Definition boris_in : list sim_act := [Comes 1 (signs_in "boris" "boriss password"); Ends 1].
(** The request 3 waits for its transaction, the sign-in 4 has its password
    accepted. *)
Definition before_change : list sim_act :=
  boris_in ++ [Comes 2 (with_cookies_of 1 (fun _ => CCreateToken (Some {| ct_Name := "backup"; ct_ExpiresInDays := 30; ct_Scopes := ["nodes:read"] |}))); Ends 2;
               Comes 4 (signs_in "boris" "boriss password"); Moves 4 4;
               Comes 3 (with_cookies_of 1 (fun _ => CPassword (Some {| cp_Current := "boriss password"; cp_New := "a new password" |}))); Moves 3 5].

Definition at_change (uid : string) (p : prog Auth.response) : option string :=
  match p with
  | Do s k => match s with Db q => match q with TxPassword u h => if String.eqb u uid then Some h else None | _ => None end | _ => None end
  | Ret _ => None
  end.

Lemma at_change_spec uid p h : at_change uid p = Some h -> exists k, p = Do (Db (TxPassword uid h)) k.
Proof.
  destruct p as [r|B s k]; [done|]. destruct s; try done. destruct q; try done. cbn. destruct (String.eqb id uid) eqn:E; [|done].
  apply String.eqb_eq in E as ->. intros [= <-]. by exists k.
Qed.

(** The next statement of request [n] changes the password, and succeeds. *)
Definition about_to_change (uid : string) (n : nat) (c : config) : bool :=
  match threads c !! n with
  | Some th =>
      match at_change uid (th_prog th) with
      | Some h => match answer (seed_of c) (wld c) (Db (TxPassword uid h)) with Some (Ok _, _) => true | _ => false end
      | None => false
      end
  | None => false
  end.

Definition moved_on (n : nat) (c : config) : config := default c (move n c).

Lemma changes_password uid n c : about_to_change uid n c = true -> password_changed uid c (moved_on n c).
Proof.
  destruct c as [w ts]. unfold about_to_change, moved_on, move. cbn [threads wld]. destruct (ts !! n) as [th|] eqn:En; [|done].
  destruct (at_change uid (th_prog th)) as [h|] eqn:Ea; [|done]. apply at_change_spec in Ea as [k Ek]. rewrite Ek.
  destruct (answer _ w (Db (TxPassword uid h))) as [[[[]|e] w']|] eqn:Ew; [|done|done]. intros _. cbn [default from_option]. 
  eapply password_changed_intro; [done|done|]. by eapply answer_does.
Qed.

Definition waiting : config := run_of before_change.
Definition changed : config := moved_on 3 waiting.

(** After it: the two requests under way end, and the old password is tried again. *)
Definition after_change : list sim_act := [Ends 3; Ends 4; Comes 5 (signs_in "boris" "boriss password"); Ends 5].
Definition settled : config := played sim_signer true after_change changed.

Definition sessions_of (uid : string) (c : config) : list string := fst <$> List.filter (fun kv => String.eqb (s_Admin kv.2) uid) (map_to_list (sessions (store (wld c)))).
Definition live_tokens (c : config) : nat := length (List.filter (fun kv => active (now_ (wld c)) kv.2) (map_to_list (api_tokens (store (wld c))))).

(** The sign-in that had its password accepted before the change opens a session
    after it. *)
Lemma sign_in_outlasts_change :
  match play sim_signer true before_change opened with
  | Some c1 =>
      let c2 := moved_on 3 c1 in
      Some (account_of_session (cookie_session 1 c1) c1, live_tokens c1, about_to_change boris 3 c1, sessions_of boris c2, live_tokens c2,
            (fun c3 => (statuses [3; 4; 5]%nat c3, length (sessions_of boris c3))) <$> play sim_signer true after_change c2)
  | None => None
  end = Some (Some boris, 1%nat, true, [], 0%nat, Some ([204; 200; 401], 2%nat)).
Proof. by vm_compute. Qed.

(** The challenge of a sign-in outlasts the change of the password as well. *)
Definition late_factor : list sim_act :=
  sign_in_twice ++ [Comes 3 (signs_in "anna" "annas password"); Ends 3;
    Comes 4 (with_cookies_of 2 (fun _ => CPassword (Some {| cp_Current := "annas password"; cp_New := "a new password" |}))); Ends 4;
    Passes Tm.minute; Comes 5 (verifies 3); Ends 5].

Lemma challenge_outlasts_change :
  (fun c => (statuses [4; 5]%nat c, length (sessions_of anna c))) <$> play sim_signer true late_factor opened = Some ([204; 200], 2%nat).
Proof. by vm_compute. Qed.

(** *** A lock is renewed *)

(** [n] failures, one every 14 minutes. *)
Fixpoint tried (n : nat) (now : Z) (r : AdminRow) : AdminRow :=
  match n with O => r | S n => tried n (now + 14 * Tm.minute) (failed_once now r) end.

(** While an account is locked, a failure every 14 minutes keeps it locked. *)
Lemma lock_renewed n now r t : LockedUntil r = Some t -> now < t <= now + lockFor -> lockAfter <= FailedLogins r + 1 ->
  exists t', LockedUntil (tried n now r) = Some t' /\ now + Z.of_nat n * (14 * Tm.minute) < t'.
Proof.
  revert now r t. induction n as [|n IH]; intros now r t Hl Ht Hf; [exists t; split; [done|lia]|]. cbn [tried].
  assert (Hl' : LockedUntil (failed_once now r) = Some (now + lockFor)).
  { unfold failed_once. rewrite Hl. destruct (Z.leb_spec t now); [lia|]. cbn. destruct (Z.geb_spec (FailedLogins r + 1) lockAfter); [done|lia]. }
  assert (Hf' : FailedLogins (failed_once now r) = FailedLogins r + 1).
  { unfold failed_once. rewrite Hl. destruct (Z.leb_spec t now); [lia|done]. }
  destruct (IH (now + 14 * Tm.minute) _ _ Hl') as (t' & Ht' & Hlt).
  - unfold lockFor, Tm.minute, Tm.second in *. lia.
  - lia.
  - exists t'. split; [done|]. lia.
Qed.

(** ** The theorems at these runs *)

(** The runs reach what they reach. *)
Definition signed_twice : config := run_of sign_in_twice.
Definition dueled : config := run_of duel.

Lemma play_maps {A} (f : config -> A) l c a : f <$> play sim_signer true l c = Some a -> reaches_ sim_signer true c (played sim_signer true l c) /\ f (played sim_signer true l c) = a.
Proof. unfold played. destruct (play _ _ l c) as [c'|] eqn:E; [|done]. intros [= <-]. split; [by apply play_reaches in E|done]. Qed.

Lemma session_of sid c uid : account_of_session sid c = Some uid -> exists x, sessions (store (wld c)) !! sid = Some x /\ s_Admin x = uid.
Proof. unfold account_of_session. destruct (sessions (store (wld c)) !! sid) as [x|]; [|done]. intros [= <-]. by exists x. Qed.

Lemma signed_twice_session : (fun c => account_of_session (cookie_session 2 c) c) <$> play sim_signer true sign_in_twice opened = Some (Some anna).
Proof. by vm_compute. Qed.

Lemma reaches_signed_twice : reaches_ sim_signer true opened signed_twice /\
  exists x, sessions (store (wld signed_twice)) !! cookie_session 2 signed_twice = Some x /\ s_Admin x = anna.
Proof. destruct (play_maps _ _ _ _ signed_twice_session) as [Hr Hs]. split; [exact Hr|exact (session_of _ _ _ Hs)]. Qed.

Lemma reaches_dueled : reaches_ sim_signer true opened dueled.
Proof. exact (proj1 (play_maps _ _ _ _ duel_one_left)). Qed.

Lemma change_run : reaches_ sim_signer true opened waiting /\ password_changed boris waiting changed /\ reaches_ sim_signer true changed settled /\
  exists x, sessions (store (wld waiting)) !! cookie_session 1 waiting = Some x /\ s_Admin x = boris.
Proof.
  pose proof sign_in_outlasts_change as Hc. destruct (play _ _ before_change opened) as [c1|] eqn:E; [|discriminate Hc]. cbv zeta in Hc.
  injection Hc as Hs _ Hch _ _ Ha. assert (Hw : waiting = c1) by (unfold waiting, played; by rewrite E).
  unfold settled, changed. rewrite Hw. apply play_reaches in E. apply play_maps in Ha as [Ha _].
  split_and!; [exact E|exact (changes_password _ _ _ Hch)|exact Ha|exact (session_of _ _ _ Hs)].
Qed.

Lemma session_earned_witness :
  exists x, sessions (store (wld signed_twice)) !! cookie_session 2 signed_twice = Some x /\ earned true (threads signed_twice) (s_Admin x).
Proof.
  destruct reaches_signed_twice as [Hr (x & Hx & _)]. exists x. split; [exact Hx|].
  exact (session_earned sim_signer true opened signed_twice _ x (proj1 opened_fresh) Hr Hx).
Defined.

Lemma owner_stays_witness : fresh_panel opened /\ has_owner (store (wld dueled)).
Proof. split; [exact opened_fresh|]. exact (owner_stays sim_signer true opened dueled opened_fresh opened_owner reaches_dueled). Defined.

Lemma password_change_withdraws_witness :
  password_changed boris waiting changed /\ sessions (store (wld settled)) !! cookie_session 1 waiting = None.
Proof.
  destruct change_run as (H01 & Hch & H23 & x & Hx & Hu). split; [exact Hch|].
  exact (proj1 (password_change_withdraws sim_signer true opened waiting changed settled boris opened_fresh H01 Hch H23)
    (cookie_session 1 waiting) x Hx Hu).
Defined.

(** An unknown name: one check, and the answer of a wrong password. *)
Definition visitor : Auth.request := from_home [] EmptyString.
Definition unknown_name : history :=
  [Ev (LimiterAllow "198.51.100.7") true; Ev (Db (QGetAdminByUsername "nobody")) (Err ErrNoRows); Ev (CheckPassword "guess" dummyPasswordHash) (Ok false);
   Ev (Db (QInsertAudit {| au_Admin := None; au_Action := "auth.login_failed"; au_Type := "admin"; au_ID := EmptyString;
                           au_Meta := [("reason", JString "unknown_user"); ("username", JString "nobody")]%string; au_Ip := "198.51.100.7" |})) (Ok tt)].

Lemma login_tells_nothing_witness :
  checks unknown_name = 1%nat /\
  forall pw', exists h', runs (handleLogin sim_signer true visitor None (Some {| l_Username := "nobody"; l_Password := pw' |})) h' invalid_credentials.
Proof.
  assert (Hr : runs (handleLogin sim_signer true visitor None (Some {| l_Username := "nobody"; l_Password := "guess" |})) unknown_name invalid_credentials).
  { do 4 (eexists _, _; split; [reflexivity|]). by split. }
  destruct (login_tells_nothing sim_signer true visitor None "nobody" "guess" unknown_name invalid_credentials Hr) as (H1 & H2 & _).
  split; [by apply H1|]. intros pw'. destruct (H2 (ex_intro _ _ (or_introl (ex_intro _ _ eq_refl))) pw') as (h' & Hr' & _). by exists h'.
Defined.


