(* ===== verification/Findings.v ===== *)
(** * What a node's report says is wrong

    internal/reliability/types.go: the report of a node;
    internal/reliability/findings.go: the findings it supports.

    A float64 is a [spec_float] of the standard library's [SpecFloat], with the
    53-bit precision and the exponents of binary64; a [uint64] behind a pointer
    is an [option Z]. *)

From Stdlib Require Import SpecFloat.
From S2P Require Import Prelude Reliability.

(** ** float64 *)

Module F64.

Definition float64 : Type := spec_float.

(** The conversion of an integer rounds to the nearest even. *)
Definition of_int (z : Z) : float64 := binary_normalize 53 1024 z 0 false.
Definition div (a b : float64) : float64 := SFdiv 53 1024 a b.
Definition sub (a b : float64) : float64 := SFsub 53 1024 a b.
Definition add (a b : float64) : float64 := SFadd 53 1024 a b.

(** [a < b], [a <= b]: false when one is not a number. *)
Definition ltb (a b : float64) : bool := SFltb a b.
Definition leb (a b : float64) : bool := SFleb a b.

(** The constants .2, .5 and .9. *)
Definition c02 : float64 := S754_finite false 7205759403792794 (-55).
Definition c05 : float64 := S754_finite false 4503599627370496 (-53).
Definition c09 : float64 := S754_finite false 8106479329266893 (-53).

Example fifth : div (of_int 1) (of_int 5) = c02.
Proof. by vm_compute. Qed.
Example nine_tenths : div (of_int 9) (of_int 10) = c09.
Proof. by vm_compute. Qed.

End F64.

(** [int64] addition wraps around. *)
Definition add64 (a b : Z) : Z := (a + b + 2 ^ 63) mod 2 ^ 64 - 2 ^ 63.

(** ** The report *)

(** The span in seconds of a [Window], the number of DCs of a [Route] and the
    counters of [Resources] no finding looks at are left out. *)
Record Window := { Success : Z; Failed_ : Z; Window_At : Z }.

Record Route := { Healthy : bool; Age : Z }.

Record Resources := {
  FDUsed : option Z;
  FDLimit : option Z;
  ConntrackUsed : option Z;
  ConntrackLimit : option Z;
  InodesUsedPercent : option F64.float64
}.

Record DC := { ID : Z; Alive : Z; Required : Z }.

Record MEPoolState := {
  PendingGeneration : Z;
  PendingAgeSeconds : option Z;
  HardswapEnabled : bool;
  Pending : bool;
  PendingMapCurrent : option bool;
  WriterDeficit : option Z;
  MissingDCGroups : option Z;
  OrphanWarmWriters : option Z;
  ReplacementPreparing : option Z;
  ReplacementRetiring : option Z;
  OrphanObservedSeconds : option Z;
  ReplacementObservedSeconds : option Z
}.

Record MEPool := { MEPool_At : Z; Enabled : bool; MEPool_Reason : string; State : option MEPoolState }.

Record Report := {
  Report_Version : Z;
  Report_At : Z;
  MEPool_ : option MEPool;
  Connections : option Window;
  Routes : list Route;
  Resources_ : Resources;
  DCs : list DC;
  Report_Policy : Policy
}.

(** ** Findings *)

Record Finding := { Kind : string; Message : string; Failed : bool; Known : bool }.

Definition finding (kind msg : string) (failed known : bool) : Finding :=
  {| Kind := kind; Message := msg; Failed := failed; Known := known |}.

Definition freshMEPool (at_ now : Z) : bool :=
  negb (Tm.is_zero at_) && negb (Tm.after at_ now) && (Tm.sub now at_ <=? 2 * Tm.minute).

(** [p != nil && f *p] *)
Definition given {A} (o : option A) (f : A -> bool) : bool := match o with Some a => f a | None => false end.
Definition is_given {A} (o : option A) : bool := match o with Some _ => true | None => false end.

(** The five checks of the writer pool, in order: what each says, when the
    pool's state is to be believed. *)
Definition mePoolChecks (s : MEPoolState) : list (bool * bool) :=
  let pending := Pending s && negb (PendingGeneration s =? 0) in
  let noPending := negb (Pending s) && (PendingGeneration s =? 0) in
  let aged n := pending && given (PendingAgeSeconds s) (fun a => n <=? a) in
  let mature := aged 300 in
  let coverageKnown := mature && given (PendingMapCurrent s) id && is_given (WriterDeficit s) && is_given (MissingDCGroups s) in
  let backlog available busy observed :=
    let sustained := busy && given observed (fun o => 300 <=? o) in
    (available && sustained, available && (negb busy || sustained)) in
  let hardswap f k := (HardswapEnabled s && f, HardswapEnabled s && k) in
  [ hardswap (aged 1500) (noPending || aged 1500);
    hardswap (coverageKnown && (given (WriterDeficit s) (fun n => 0 <? n) || given (MissingDCGroups s) (fun n => 0 <? n)))
             (noPending || coverageKnown);
    hardswap (mature && given (PendingMapCurrent s) negb) (noPending || (mature && is_given (PendingMapCurrent s)));
    backlog (is_given (OrphanWarmWriters s)) (given (OrphanWarmWriters s) (fun n => 0 <? n)) (OrphanObservedSeconds s);
    backlog (is_given (ReplacementPreparing s) && is_given (ReplacementRetiring s))
            (given (ReplacementPreparing s) (fun n => 0 <? n) || given (ReplacementRetiring s) (fun n => 0 <? n))
            (ReplacementObservedSeconds s) ].

Definition mePoolTexts : list (string * string) :=
  [("me_hardswap_pending", "Middle Proxy hardswap has been pending for at least 25 minutes");
   ("me_hardswap_deficit", "Middle Proxy pending generation has a persistent writer or DC-family deficit");
   ("me_hardswap_stale_map", "Middle Proxy pending generation targets a stale endpoint map");
   ("me_orphan_warm_writers", "Middle Proxy orphan warm writers persist for at least 5 minutes");
   ("me_replacement_busy", "Middle Proxy writer replacements remain busy for at least 5 minutes")]%string.

Definition mePoolFindings (pool : option MEPool) (now : Z) : list Finding :=
  let unknown := map (fun t => finding t.1 t.2 false false) mePoolTexts in
  match pool with
  | None => unknown
  | Some pool =>
      match State pool with
      | None => unknown
      | Some s =>
          if negb (Enabled pool) || negb (String.eqb (MEPool_Reason pool) EmptyString) || negb (freshMEPool (MEPool_At pool) now)
          then unknown
          else zip_with (fun t fk => finding t.1 t.2 fk.1 fk.2) mePoolTexts (mePoolChecks s)
      end
  end.

(** The share of failed connections in the window exceeds a fifth. *)
Definition connection_finding (w : Window) : Finding :=
  finding "connection_failures" "Recent Telegram connection failures exceed 20%"
    (F64.ltb F64.c02 (F64.div (F64.of_int (Failed_ w)) (F64.of_int (add64 (Success w) (Failed_ w))))) true.

Definition route_finding (routes : list Route) : Finding :=
  finding "upstream_failure" "A Telegram egress route is unavailable"
    (existsb (fun r => negb (Healthy r)) routes) (forallb (fun r => Age r <=? 120) routes).

Definition dc_finding (dc : DC) : Finding :=
  finding ("dc_" +:+ Dec.itoa (ID dc)) "Telegram DC has no live Middle Proxy writers" (Alive dc =? 0) true.

(** [used] is at least nine tenths of a known, positive limit. *)
Definition ratio_finding (kind msg : string) (used limit : option Z) : list Finding :=
  match used, limit with
  | Some used, Some limit =>
      if 0 <? limit then [finding kind msg (F64.leb F64.c09 (F64.div (F64.of_int used) (F64.of_int limit))) true] else []
  | _, _ => []
  end.

Definition Findings (r : Report) (now : Z) : list Finding :=
  if (Report_Version r =? 0) || (2 * Tm.minute <? Tm.sub now (Report_At r)) then []
  else
    match Connections r with
    | Some w => if (Tm.sub now (Window_At w) <=? 2 * Tm.minute) && (0 <? add64 (Success w) (Failed_ w)) then [connection_finding w] else []
    | None => []
    end ++
    match Routes r with [] => [] | routes => [route_finding routes] end ++
    map dc_finding (List.filter (fun dc => 0 <? Required dc) (DCs r)) ++
    mePoolFindings (MEPool_ r) now ++
    ratio_finding "fd_pressure" "Telemt is using at least 90% of its file descriptors" (FDUsed (Resources_ r)) (FDLimit (Resources_ r)) ++
    ratio_finding "conntrack_pressure" "Connection tracking is at least 90% full" (ConntrackUsed (Resources_ r)) (ConntrackLimit (Resources_ r)) ++
    match InodesUsedPercent (Resources_ r) with
    | Some p => [finding "inode_pressure" "Filesystem inodes are at least 90% full" (F64.leb (F64.of_int 90) p) true]
    | None => []
    end.
