(* ===== verification/Notify.v ===== *)
(** * Notifications of the panel

    internal/worker/alerts.go, internal/worker/notification_state.go and
    internal/worker/reliability_notifications.go: the acknowledgements kept per
    node and kind, the delivery of a problem and of its recovery to the two
    destinations, and the summary of a server's findings that decides when one
    is due.

    What a destination answers, and whether a transaction took effect, are
    parameters of each call: every theorem holds for all of them.  The tables
    are finite maps; the clock of the panel ticks at the resolution of the
    store.  The mutexes make the calls for one node and kind one sequence; the
    text of a message is left out. *)

From S2P Require Import Prelude.

(** ** Acknowledgements *)

Record notificationState := {
  LastProblem : Z;
  Pending : bool;
  Telegram : bool;
  Webhook : bool
}.

(** The zero value, which a new row's [{}] decodes to. *)
Definition no_state : notificationState := {| LastProblem := Tm.zero; Pending := false; Telegram := false; Webhook := false |}.

Definition with_acks (s : notificationState) (tg wh : bool) : notificationState :=
  {| LastProblem := LastProblem s; Pending := Pending s; Telegram := tg; Webhook := wh |}.
Definition with_pending (s : notificationState) (b : bool) : notificationState :=
  {| LastProblem := LastProblem s; Pending := b; Telegram := Telegram s; Webhook := Webhook s |}.

Inductive destination := ToTelegram | ToWebhook.
#[export] Instance destination_eq : EqDecision destination.
Proof. solve_decision. Defined.

(** A message that was acknowledged. *)
Record delivered := { to_ : destination; recovery : bool }.

(** The settings at a call and what the destinations answer: [hook] is
    [a.Webhook] with its URL, [src] the enabled flag, token and chat. *)
Record channels := {
  hook : option string;
  hook_ok : bool;
  src : result (bool * string * string);
  tg_ok : bool
}.

(** [Webhook.Send]: without a URL there is nothing to send. *)
Definition hook_send (c : channels) (url : string) (rec : bool) : bool * list delivered :=
  if String.eqb url EmptyString then (true, [])
  else (hook_ok c, if hook_ok c then [{| to_ := ToWebhook; recovery := rec |}] else []).

Definition tg_usable (c : channels) : bool :=
  match src c with
  | Ok (enabled, token, chat) => enabled && negb (String.eqb token EmptyString) && negb (String.eqb chat EmptyString)
  | Err _ => false
  end.

Definition tg_send (c : channels) (rec : bool) : list delivered :=
  if tg_ok c then [{| to_ := ToTelegram; recovery := rec |}] else [].

(** Each step yields the state, whether it completed, and what was delivered. *)
Definition problem_webhook (c : channels) (s : notificationState) : notificationState * bool * list delivered :=
  match hook c with
  | Some url =>
      if negb (String.eqb url EmptyString) && negb (Webhook s) then
        let '(ok, sent) := hook_send c url false in (if ok then with_acks s (Telegram s) true else s, ok, sent)
      else (s, true, [])
  | None => (s, true, [])
  end.

Definition problem_telegram (c : channels) (s : notificationState) : notificationState * bool * list delivered :=
  let complete := match src c with Ok _ => true | Err _ => false end in
  if tg_usable c && negb (Telegram s)
  then (if tg_ok c then with_acks s true (Webhook s) else s, complete && tg_ok c, tg_send c false)
  else (s, complete, []).

Definition sendProblem (c : channels) (now : Z) (s : notificationState) : notificationState * list delivered :=
  let '(s, complete1, sent1) := problem_webhook c s in
  let '(s, complete2, sent2) := problem_telegram c s in
  (if (complete1 && complete2) && (Telegram s || Webhook s)
   then {| LastProblem := now; Pending := false; Telegram := Telegram s; Webhook := Webhook s |} else s,
   sent1 ++ sent2).

Definition sendRecovery (c : channels) (s : notificationState) : notificationState * list delivered :=
  let '(s, sent1) :=
    match hook c with
    | Some url => if Webhook s then let '(ok, sent) := hook_send c url true in (if ok then with_acks s (Telegram s) false else s, sent) else (s, [])
    | None => (s, [])
    end in
  if Telegram s && tg_usable c
  then (if tg_ok c then with_acks s false (Webhook s) else s, sent1 ++ tg_send c true)
  else (s, sent1).

Definition node_offline : string := "node_offline".

Definition offlineCooldown : Z := 15 * Tm.minute.
Definition applyCooldown : Z := Tm.hour.
Definition incidentCooldown : Z := 3 * Tm.hour.

(** The body of [problem]. *)
Definition problem_body (kind : string) (cooldown : Z) (c : channels) (now : Z) (s : notificationState) : notificationState * list delivered :=
  if negb (Pending s) && negb (Tm.is_zero (LastProblem s)) && (Tm.sub now (LastProblem s) <? cooldown) then (s, [])
  else
    let s := if negb (Pending s) && negb (String.eqb kind node_offline) then with_acks s false false else s in
    sendProblem c now (with_pending s true).

Definition recovered_body (c : channels) (s : notificationState) : notificationState * list delivered :=
  sendRecovery c (with_pending s false).

(** Whether the row could be read, and whether the new one was kept. *)
Record storage := { loaded : bool; saved : bool }.

(** [withState]: run [fn] on the row of a node and kind under its lock.  What
    it delivered is delivered even when the row is not kept. *)
Definition withState (st : storage) (fn : notificationState -> notificationState * list delivered) (row : option notificationState)
    : option notificationState * list delivered :=
  if loaded st then
    let '(s, sent) := fn (default no_state row) in (if saved st then Some s else row, sent)
  else (row, []).

Definition problem (st : storage) (kind : string) (cooldown : Z) (c : channels) (now : Z) := withState st (problem_body kind cooldown c now).
Definition recovered (st : storage) (c : channels) := withState st (recovered_body c).

Definition NodeOffline (st : storage) (c : channels) (now : Z) := problem st node_offline offlineCooldown c now.
Definition NodeOnline (st : storage) (c : channels) := recovered st c.
Definition ApplyFailed (st : storage) (c : channels) (now : Z) := problem st "apply_failed" applyCooldown c now.

(** ** The findings of a server *)

Record finding_row := { fr_source : string; fr_failed : bool; fr_known : bool; fr_observed : Z }.

Record Observation := { o_kind : string; o_failed : bool; o_known : bool }.

Definition reliabilityProblemDelay : Z := 5 * Tm.minute.
Definition reliabilityRecoveryDelay : Z := 10 * Tm.minute.
Definition reliabilityFreshness : Z := 2 * Tm.minute.
Definition reliabilityUnknownExpiry : Z := Tm.hour.

(** The rows of one node, by kind. *)
Abbreviation finding_table := (gmap string finding_row).

(** The source of a snapshot, told by its first finding. *)
Definition source_of (kind : string) : string :=
  if String.eqb kind "looks_like_blocking" then "blocking"
  else if Str.has_prefix kind "probe_" then Str.trim_suffix kind "_stale"
  else "health".

Definition forget_source (source : string) (now : Z) (r : finding_row) : finding_row :=
  if String.eqb (fr_source r) source
  then {| fr_source := fr_source r; fr_failed := fr_failed r; fr_known := false; fr_observed := if fr_known r then now else fr_observed r |}
  else r.

Definition upsert_finding (source : string) (now : Z) (t : finding_table) (f : Observation) : finding_table :=
  if o_known f then <[o_kind f := {| fr_source := source; fr_failed := o_failed f; fr_known := true; fr_observed := now |}]> t else t.

(** A row of this source that stayed unknown too long. *)
Definition expired_row (source : string) (now : Z) (r : finding_row) : bool :=
  String.eqb (fr_source r) source && negb (fr_known r) && Tm.before (fr_observed r) (Tm.add now (- reliabilityUnknownExpiry)).

(** One snapshot of a source, in one transaction. *)
Definition observeFindings (committed : bool) (now : Z) (fs : list Observation) (t : finding_table) : finding_table :=
  match fs with
  | [] => t
  | f :: _ =>
      if negb committed then t
      else
        let source := source_of (o_kind f) in
        let t := fold_left (upsert_finding source now) fs (forget_source source now <$> t) in
        filter (fun kv => expired_row source now kv.2 = false) t
  end.

(** ** When a summary is due *)

Record candidate := { phase : string; since : Z; observed_at : Z }.

Definition in_summary (r : finding_row) : bool := negb (String.eqb (fr_source r) "blocking_evidence").

(** [bool_or] over the rows of the summary. *)
Definition any_row (p : finding_row -> bool) (t : finding_table) : bool := existsb (fun kv => in_summary kv.2 && p kv.2) (map_to_list t).

Definition bad_row (now : Z) (r : finding_row) : bool :=
  fr_failed r && fr_known r && negb (Tm.before (fr_observed r) (Tm.add now (- reliabilityFreshness))).
Definition unknown_row (now : Z) (r : finding_row) : bool :=
  negb (fr_known r) || Tm.before (fr_observed r) (Tm.add now (- reliabilityFreshness)).

Definition phase_of (t : finding_table) (known diagnostic : bool) (now : Z) : string :=
  let bad := any_row (bad_row now) t || diagnostic in
  if known && bad then "bad"
  else if known && any_row (fun _ => true) t && negb (any_row (unknown_row now) t) then "healthy"
  else "unknown".

(** The row a summary of phase [ph] leaves. *)
Definition next_candidate (old : option candidate) (ph : string) (now : Z) : candidate :=
  {| phase := ph;
     since := match old with
              | Some o => if negb (String.eqb (phase o) ph) || Tm.before (observed_at o) (Tm.add now (- reliabilityFreshness)) || String.eqb ph "unknown"
                          then now else since o
              | None => now
              end;
     observed_at := now |}.

(** [None] when the store failed; the answer is whether to enqueue a delivery. *)
Definition observeReliability (read wrote : bool) (t : finding_table) (known : bool) (diagnostic : option bool) (now : Z)
    (old : option candidate) : bool * option candidate :=
  match diagnostic with
  | Some d => if read && wrote then (true, Some (next_candidate old (phase_of t known d now) now)) else (false, old)
  | None => (false, old)
  end.

(** The body of [sendReliability]; [blocking] is the query for the text, which
    can fail. *)
Definition reliability_body (c : channels) (cand : option candidate) (blocking : bool) (deliveryNow : Z) (s : notificationState)
    : notificationState * list delivered :=
  match cand with
  | None => (s, [])
  | Some r =>
      let now := observed_at r in
      if reliabilityFreshness <? Tm.sub deliveryNow now then (s, [])
      else if String.eqb (phase r) "bad" then
        if Tm.sub now (since r) <? reliabilityProblemDelay then (s, [])
        else if negb (Pending s) && negb (Tm.is_zero (LastProblem s)) && (Tm.sub deliveryNow (LastProblem s) <? incidentCooldown) then (s, [])
        else if negb blocking then (s, [])
        else sendProblem c deliveryNow (with_pending s true)
      else if String.eqb (phase r) "healthy" then
        if Tm.sub now (since r) <? reliabilityRecoveryDelay then (s, [])
        else sendRecovery c (with_pending s false)
      else (s, [])
  end.

Definition sendReliability (st : storage) (c : channels) (cand : option candidate) (blocking : bool) (deliveryNow : Z) :=
  withState st (reliability_body c cand blocking deliveryNow).
