(* ===== verification/NotifySafety.v ===== *)
(** * What the notifications promise

    For every answer of the destinations: a recovery is sent only to a
    destination that is owed one, an outage is announced once, a complete
    delivery starts the cooldown, and the summary of a server speaks only after
    it has seen the same thing for long enough. *)

From S2P Require Import Prelude Notify.

(** ** Deliveries to one destination *)

Definition ack (s : notificationState) (d : destination) : bool :=
  match d with ToTelegram => Telegram s | ToWebhook => Webhook s end.

Definition sent_to (d : destination) (l : list delivered) : list bool :=
  recovery <$> filter (fun m => to_ m = d) l.

Lemma sent_to_app d l l' : sent_to d (l ++ l') = sent_to d l ++ sent_to d l'.
Proof. unfold sent_to. by rewrite filter_app, fmap_app. Qed.

Lemma sendProblem_sent c now s d : let r := sendProblem c now s in
  sent_to d r.2 = (if ack r.1 d && negb (ack s d) then [false] else []) /\ (ack s d = true -> ack r.1 d = true).
Proof.
  unfold sendProblem, problem_webhook, problem_telegram, hook_send, tg_send. destruct s as [last p tg wh].
  destruct (hook c) as [url|]; cbn; [destruct (String.eqb url EmptyString); cbn|];
    destruct (tg_usable c), (src c); cbn; destruct wh, tg; cbn; destruct (hook_ok c), (tg_ok c), d; by cbn.
Qed.

Lemma sendRecovery_sent c s d : let r := sendRecovery c s in
  (sent_to d r.2 = (if ack s d && negb (ack r.1 d) then [true] else []) \/ (sent_to d r.2 = [] /\ hook c = Some EmptyString)) /\
  (ack r.1 d = true -> ack s d = true).
Proof.
  unfold sendRecovery, hook_send, tg_send. destruct s as [last p tg wh].
  destruct (hook c) as [url|] eqn:Eh; cbn; [destruct (String.eqb_spec url EmptyString) as [->|]; cbn|];
    destruct wh, tg; cbn; destruct (tg_usable c); cbn; destruct (hook_ok c), (tg_ok c), d; cbn; auto.
Qed.

Lemma sendRecovery_keeps c s : Pending (sendRecovery c s).1 = Pending s /\ LastProblem (sendRecovery c s).1 = LastProblem s.
Proof.
  unfold sendRecovery, hook_send. destruct s as [last p tg wh]. destruct (hook c) as [url|]; cbn; [destruct (String.eqb url EmptyString)|];
    destruct wh, tg; cbn; destruct (tg_usable c); cbn; destruct (hook_ok c), (tg_ok c); by cbn.
Qed.

(** ** Sequences of calls for one node and kind *)

Inductive notice :=
| Problem (st : storage) (cooldown : Z) (c : channels) (now : Z)
| Recovered (st : storage) (c : channels)
| Summary (st : storage) (c : channels) (cand : option candidate) (blocking : bool) (now : Z).

Definition notify (kind : string) (n : notice) (row : option notificationState) : option notificationState * list delivered :=
  match n with
  | Problem st cooldown c now => problem st kind cooldown c now row
  | Recovered st c => recovered st c row
  | Summary st c cand blocking now => sendReliability st c cand blocking now row
  end.

Fixpoint notifications (kind : string) (ns : list notice) (row : option notificationState) : option notificationState * list delivered :=
  match ns with
  | [] => (row, [])
  | n :: ns =>
      let '(row, sent) := notify kind n row in
      let '(row, rest) := notifications kind ns row in
      (row, sent ++ rest)
  end.

Definition storage_of (n : notice) : storage := match n with Problem st _ _ _ | Recovered st _ | Summary st _ _ _ _ => st end.
Definition channels_of (n : notice) : channels := match n with Problem _ _ c _ | Recovered _ c | Summary _ c _ _ _ => c end.

(** What was delivered is also kept. *)
Definition kept (n : notice) : Prop := loaded (storage_of n) = true -> saved (storage_of n) = true.
(** A webhook, where there is one, has an address. *)
Definition addressed (n : notice) : Prop := hook (channels_of n) <> Some EmptyString.

(** Every recovery follows a problem it answers. *)
Fixpoint answered (owed : bool) (l : list bool) : bool :=
  match l with
  | [] => true
  | rec :: l => if rec then owed && answered false l else answered true l
  end.

(** Problems and recoveries take turns. *)
Fixpoint alternates (owed : bool) (l : list bool) : bool :=
  match l with
  | [] => true
  | rec :: l => Bool.eqb rec owed && alternates (negb owed) l
  end.

(** One call, seen from one destination: nothing, a problem or a recovery. *)
Definition one_call (s s' : notificationState) (d : destination) (l : list bool) : Prop :=
  (l = [] /\ (ack s' d = true -> ack s d = true)) \/ (l = [false] /\ ack s' d = true) \/ (l = [true] /\ ack s d = true /\ ack s' d = false).

(** The same, where the acknowledgement says exactly what is owed. *)
Definition one_turn (s s' : notificationState) (d : destination) (l : list bool) : Prop :=
  (l = [] /\ ack s' d = ack s d) \/ (l = [false] /\ ack s d = false /\ ack s' d = true) \/ (l = [true] /\ ack s d = true /\ ack s' d = false).

Lemma problem_turn c now s d : let r := sendProblem c now (with_pending s true) in one_turn s r.1 d (sent_to d r.2).
Proof.
  cbv zeta. destruct (sendProblem_sent c now (with_pending s true) d) as [-> Hk].
  assert (E : ack (with_pending s true) d = ack s d) by by destruct d. rewrite E in *.
  unfold one_turn. revert Hk. generalize (ack (sendProblem c now (with_pending s true)).1 d). clear E.
  destruct (ack s d); intros [] Hk; cbn; auto 6.
Qed.

Lemma recovery_call c s d : let r := sendRecovery c (with_pending s false) in
  one_call s r.1 d (sent_to d r.2) /\ (hook c <> Some EmptyString -> one_turn s r.1 d (sent_to d r.2)).
Proof.
  cbv zeta. destruct (sendRecovery_sent c (with_pending s false) d) as [Hs Hk].
  assert (E : ack (with_pending s false) d = ack s d) by by destruct d. rewrite E in *.
  unfold one_call, one_turn. revert Hs Hk. generalize (ack (sendRecovery c (with_pending s false)).1 d).
  generalize (sent_to d (sendRecovery c (with_pending s false)).2). clear E.
  destruct (ack s d); intros l [] Hs Hk; cbn in *; destruct Hs as [->|[-> ?]]; auto 8; try by specialize (Hk eq_refl).
Qed.

Lemma turn_call s s' d l : one_turn s s' d l -> one_call s s' d l.
Proof. intros [[-> E]|[(-> & _ & E)|(-> & E1 & E2)]]; [left; split; [done|congruence]|right; by left|right; by right]. Qed.

Lemma same_turn s d : one_turn s s d [].
Proof. by left. Qed.

(** The body of each call, on the row it finds. *)
Definition body (kind : string) (n : notice) (s : notificationState) : notificationState * list delivered :=
  match n with
  | Problem _ cooldown c now => problem_body kind cooldown c now s
  | Recovered _ c => recovered_body c s
  | Summary _ c cand blocking now => reliability_body c cand blocking now s
  end.

Lemma notify_body kind n row : notify kind n row = withState (storage_of n) (body kind n) row.
Proof. by destruct n. Qed.

Lemma body_call kind n s d : one_call s (body kind n s).1 d (sent_to d (body kind n s).2) /\
  (kind = node_offline -> addressed n -> one_turn s (body kind n s).1 d (sent_to d (body kind n s).2)).
Proof.
  destruct n as [st cd c now|st c|st c cand b now]; cbn [body].
  - unfold problem_body. destruct (negb (Pending s) && negb (Tm.is_zero (LastProblem s)) && (Tm.sub now (LastProblem s) <? cd));
      [split; [apply turn_call|intros _ _]; apply same_turn|]. split.
    + destruct (negb (Pending s) && _); [|apply turn_call, problem_turn].
      destruct (problem_turn c now (with_acks s false false) d) as [[-> E]|[(-> & _ & E)|(-> & E & _)]].
      * left. split; [done|]. rewrite E. by destruct d.
      * right. left. by split.
      * by destruct d.
    + intros -> _. rewrite String.eqb_refl, andb_false_r. apply problem_turn.
  - split; [apply recovery_call|]. intros _. apply recovery_call.
  - assert (Hsame : one_call s s d [] /\ (kind = node_offline -> addressed (Summary st c cand b now) -> one_turn s s d [])).
    { split; [apply turn_call|intros]; apply same_turn. }
    unfold reliability_body. destruct cand as [r|]; [|exact Hsame]. destruct (_ <? _); [exact Hsame|].
    destruct (String.eqb (phase r) "bad").
    + destruct (_ <? _); [exact Hsame|]. destruct (_ && _); [exact Hsame|]. destruct (negb b); [exact Hsame|].
      split; [apply turn_call|intros _ _]; apply problem_turn.
    + destruct (String.eqb (phase r) "healthy"); [|exact Hsame]. destruct (_ <? _); [exact Hsame|].
      split; [apply recovery_call|]. intros _. apply recovery_call.
Qed.

Lemma notify_row kind n row : kept n ->
  (notify kind n row).2 = [] /\ default no_state (notify kind n row).1 = default no_state row \/
  (notify kind n row).1 = Some (body kind n (default no_state row)).1 /\ (notify kind n row).2 = (body kind n (default no_state row)).2.
Proof.
  intros Hk. rewrite notify_body. unfold withState. destruct (loaded (storage_of n)) eqn:E; [|by left].
  destruct (body kind n (default no_state row)) as [s sent]. rewrite (Hk E). by right.
Qed.

Lemma answered_mono o l : answered false l = true -> answered o l = true.
Proof. destruct l as [|[] l]; by destruct o. Qed.

Lemma notifications_answered kind d ns row o : Forall kept ns -> (ack (default no_state row) d = true -> o = true) ->
  answered o (sent_to d (notifications kind ns row).2) = true.
Proof.
  revert row o. induction ns as [|n ns IH]; intros row o Hk Ho; [done|]. inversion Hk as [|? ? Hn Hns]; subst.
  cbn [notifications]. pose proof (notify_row kind n row Hn) as Hrow. pose proof (proj1 (body_call kind n (default no_state row) d)) as Hb.
  destruct (notify kind n row) as [row' sent]. cbn in Hrow. specialize (IH row').
  destruct (notifications kind ns row') as [row'' rest]. cbn [snd] in IH |- *. rewrite sent_to_app.
  destruct Hrow as [[-> E]|[-> ->]]; [apply (IH o); [done|by rewrite E]|]. cbn [from_option id] in IH.
  destruct Hb as [[-> E]|[[-> E]|(-> & E1 & E2)]]; cbn.
  - apply IH; [done|]. auto.
  - by apply IH.
  - rewrite (Ho E1). apply IH; [done|]. cbn in *. congruence.
Qed.

Lemma notifications_alternate d ns row : Forall kept ns -> Forall addressed ns ->
  alternates (ack (default no_state row) d) (sent_to d (notifications node_offline ns row).2) = true.
Proof.
  revert row. induction ns as [|n ns IH]; intros row Hk Ha; [done|]. inversion Hk as [|? ? Hn Hns]; subst. inversion Ha as [|? ? An Ans]; subst.
  cbn [notifications]. pose proof (notify_row node_offline n row Hn) as Hrow.
  pose proof (proj2 (body_call node_offline n (default no_state row) d) eq_refl An) as Hb.
  destruct (notify node_offline n row) as [row' sent]. cbn in Hrow. specialize (IH row').
  destruct (notifications node_offline ns row') as [row'' rest]. cbn [snd] in IH |- *. rewrite sent_to_app.
  destruct Hrow as [[-> E]|[-> ->]]; [rewrite <- E; by apply IH|]. cbn [from_option id] in IH.
  destruct Hb as [[-> E]|[(-> & E1 & E2)|(-> & E1 & E2)]]; cbn.
  - rewrite <- E. by apply IH.
  - rewrite E1. rewrite E2 in IH. cbn. by apply IH.
  - rewrite E1. rewrite E2 in IH. cbn. by apply IH.
Qed.

(** C27: in any sequence of calls for a node and kind, with any failures of the
    two destinations, where the row of the acknowledgements is saved after each
    delivery, no destination hears of a recovery it was not told the problem of:
    every recovery delivered to it answers a problem delivered to it since its
    last recovery. And where a webhook that is in use has an address, an outage
    is announced once: for an offline node problems and recoveries take turns. A
    commit that fails after the message went out is outside it, and repeats the
    message. *)
Theorem deliveries_answered kind d ns : Forall kept ns ->
  answered false (sent_to d (notifications kind ns None).2) = true /\
  (kind = node_offline -> Forall addressed ns -> alternates false (sent_to d (notifications kind ns None).2) = true).
Proof.
  intros Hk. split; [apply notifications_answered; [done|by destruct d]|].
  intros -> Ha. pose proof (notifications_alternate d ns None Hk Ha) as H. by destruct d.
Qed.

(** ** The cooldown *)

(** A call that comes within the cooldown. *)
Definition within (cooldown t : Z) (n : notice) : Prop :=
  match n with
  | Problem _ cd _ now => cd = cooldown /\ Tm.sub now t < cooldown
  | Recovered _ _ => True
  | Summary _ _ _ _ _ => False
  end.

Lemma quiet_body kind cooldown t n s : within cooldown t n -> Pending s = false -> LastProblem s = t -> Tm.is_zero t = false ->
  let r := body kind n s in Pending r.1 = false /\ LastProblem r.1 = t /\ Forall (fun m => recovery m = true) r.2.
Proof.
  intros Hw Hp Hl Hz. cbv zeta. destruct n as [st cd c now|st c|]; cbn [within body] in *; [| |done].
  - destruct Hw as [-> Hlt]. unfold problem_body. rewrite Hp, Hl, Hz. apply Z.ltb_lt in Hlt. rewrite Hlt. cbn. by split_and!.
  - destruct (sendRecovery_keeps c (with_pending s false)) as [E1 E2]. split_and!; [exact E1|by transitivity (LastProblem s)|].
    unfold recovered_body, sendRecovery, hook_send, tg_send. destruct s as [last p tg wh].
    destruct (hook c) as [url|]; [destruct (String.eqb url EmptyString)|]; cbn; destruct wh, tg; cbn; destruct (tg_usable c); cbn; destruct (hook_ok c), (tg_ok c); cbn;
      repeat first [apply Forall_nil_2 | apply Forall_cons_2; [done|]].
Qed.

(** A complete delivery starts the cooldown: once a problem was delivered
    to every destination in use at [t], no later problem of that node and kind
    reaches anyone before the cooldown has passed, whatever recoveries come in
    between. *)
Theorem cooldown_quiet kind cooldown t s ns : Forall kept ns -> Forall (within cooldown t) ns ->
  Pending s = false -> LastProblem s = t -> Tm.is_zero t = false ->
  Forall (fun m => recovery m = true) (notifications kind ns (Some s)).2.
Proof.
  intros Hk Hw. revert s. induction ns as [|n ns IH]; intros s Hp Hl Hz; [done|].
  inversion Hk as [|? ? Hn Hns]; subst. inversion Hw as [|? ? Wn Wns]; subst.
  destruct (quiet_body kind _ _ n s Wn Hp eq_refl Hz) as (Q1 & Q2 & Q3).
  cbn [notifications]. rewrite notify_body. unfold withState. destruct (loaded (storage_of n)) eqn:E.
  - destruct (body kind n (default no_state (Some s))) as [s' sent] eqn:Eb. cbn in Eb. rewrite Eb in *. rewrite (Hn E).
    specialize (IH Hns Wns s' Q1). cbn in Q2. rewrite Q2 in IH. specialize (IH Wns eq_refl Hz) || specialize (IH eq_refl Hz).
    destruct (notifications kind ns (Some s')) as [row rest]. cbn in *. by apply Forall_app.
  - specialize (IH Hns Wns s Hp eq_refl Hz). destruct (notifications kind ns (Some s)) as [row rest]. exact IH.
Qed.

(** ** The summary *)

(** Observations in order, each at an instant with its phase. *)
Fixpoint candidates (old : option candidate) (obs : list (Z * string)) : option candidate :=
  match obs with
  | [] => old
  | (now, ph) :: obs => candidates (Some (next_candidate old ph now)) obs
  end.

(** A run of one phase, oldest first: from [first], never unobserved for more
    than two minutes. *)
Inductive steady (ph : string) : Z -> Z -> list (Z * string) -> Prop :=
| steady_one t : steady ph t t [(t, ph)]
| steady_more first last_ t obs : steady ph first last_ obs -> t - last_ <= reliabilityFreshness -> steady ph first t (obs ++ [(t, ph)]).

Lemma candidates_app old a b : candidates old (a ++ b) = candidates (candidates old a) b.
Proof. revert old. induction a as [|[t p] a IH]; intros old; [done|]. apply IH. Qed.

(** The row says since when its phase has been steady. *)
Lemma candidates_steady obs r : candidates None obs = Some r -> phase r <> "unknown" ->
  exists before run, obs = before ++ run /\ steady (phase r) (since r) (observed_at r) run.
Proof.
  revert r. induction obs as [|[t ph] obs IH] using rev_ind; intros r; [done|].
  rewrite candidates_app. cbn. intros [= <-] Hu. cbn in Hu |- *.
  destruct (candidates None obs) as [o|]; [|exists obs, [(t, ph)]; split; [done|constructor]].
  destruct (String.eqb_spec (phase o) ph) as [<-|Hne]; [|exists obs, [(t, ph)]; split; [done|constructor]].
  destruct (Tm.before (observed_at o) (Tm.add t (- reliabilityFreshness))) eqn:Eb; [exists obs, [(t, phase o)]; split; [done|constructor]|].
  destruct (String.eqb_spec (phase o) "unknown") as [?|_]; [done|]. cbn.
  destruct (IH o eq_refl Hu) as (before & run & -> & Hs). exists before, (run ++ [(t, phase o)]). split; [by rewrite app_assoc|].
  eapply steady_more; [exact Hs|]. unfold Tm.before, Tm.add in Eb. apply Z.ltb_ge in Eb. lia.
Qed.

Lemma sub_le t u d : Tm.sub t u <= d -> d < Dec.max_int64 -> t - u <= d.
Proof. unfold Tm.sub. lia. Qed.

Lemma le_sub t u d : d <= Tm.sub t u -> Dec.min_int64 < d -> d <= t - u.
Proof. unfold Tm.sub. lia. Qed.

(** The summary is patient: a server's summary is sent only on a run of
    observations that all saw the same thing, without a gap of more than two
    minutes, the last of them no older than that: for five minutes before a
    problem and for ten minutes before a recovery. *)
Theorem summary_patient st c blocking now obs row row' sent :
  sendReliability st c (candidates None obs) blocking now row = (row', sent) -> sent <> [] ->
  exists before run first last_ ph, obs = before ++ run /\ steady ph first last_ run /\ now - last_ <= reliabilityFreshness /\
    ((ph = "bad"%string /\ reliabilityProblemDelay <= last_ - first) \/ (ph = "healthy"%string /\ reliabilityRecoveryDelay <= last_ - first)).
Proof.
  unfold sendReliability, withState. destruct (loaded st); [|by intros [= _ <-]].
  destruct (reliability_body c (candidates None obs) blocking now (default no_state row)) as [s l] eqn:Eb.
  intros [= _ <-] Hl. unfold reliability_body in Eb.
  destruct (candidates None obs) as [r|] eqn:Ec; [|by injection Eb as _ <-].
  destruct (_ <? _) eqn:Ef in Eb; [by injection Eb as _ <-|]. apply Z.ltb_ge in Ef.
  apply sub_le in Ef; [|unfold reliabilityFreshness, Dec.max_int64; time_lia].
  destruct (String.eqb_spec (phase r) "bad") as [Ep|_].
  - destruct (_ <? _) eqn:Ed in Eb; [by injection Eb as _ <-|]. apply Z.ltb_ge in Ed.
    destruct (candidates_steady obs r Ec) as (before & run & -> & Hs); [by rewrite Ep|].
    exists before, run, (since r), (observed_at r), (phase r). split_and!; [done..|]. left. split; [done|].
    apply le_sub in Ed; [done|unfold reliabilityProblemDelay, Dec.min_int64; time_lia].
  - destruct (String.eqb_spec (phase r) "healthy") as [Ep|_]; [|by injection Eb as _ <-].
    destruct (_ <? _) eqn:Ed in Eb; [by injection Eb as _ <-|]. apply Z.ltb_ge in Ed.
    destruct (candidates_steady obs r Ec) as (before & run & -> & Hs); [by rewrite Ep|].
    exists before, run, (since r), (observed_at r), (phase r). split_and!; [done..|]. right. split; [done|].
    apply le_sub in Ed; [done|unfold reliabilityRecoveryDelay, Dec.min_int64; time_lia].
Qed.

(** ** Calls that exist *)

Definition disk : storage := {| loaded := true; saved := true |}.

(** Both destinations in use; each answers or not. *)
Definition both (wh tg : bool) : channels :=
  {| hook := Some "https://hook"%string; hook_ok := wh; src := Ok (true, "token"%string, "chat"%string); tg_ok := tg |}.

Definition t0 : Z := 1700000000 * Tm.second.

(** An outage Telegram hears of late, its end, and a second outage. *)
Definition outages : list notice :=
  [Problem disk offlineCooldown (both true false) t0; Problem disk offlineCooldown (both true true) (t0 + Tm.minute);
   Recovered disk (both true false); Recovered disk (both true true);
   Problem disk offlineCooldown (both true true) (t0 + Tm.hour)].

Lemma deliveries_answered_witness :
  sent_to ToTelegram (notifications node_offline outages None).2 = [false; true; false] /\
  answered false (sent_to ToTelegram (notifications node_offline outages None).2) = true /\
  alternates false (sent_to ToWebhook (notifications node_offline outages None).2) = true.
Proof.
  assert (Hk : Forall kept outages) by (repeat (apply Forall_cons_2; [by intros _|]); apply Forall_nil_2).
  assert (Ha : Forall addressed outages) by (repeat (apply Forall_cons_2; [discriminate|]); apply Forall_nil_2).
  split; [vm_compute; reflexivity|]. split.
  - exact (proj1 (deliveries_answered node_offline ToTelegram outages Hk)).
  - exact (proj2 (deliveries_answered node_offline ToWebhook outages Hk) eq_refl Ha).
Defined.

Definition announced : notificationState := {| LastProblem := t0; Pending := false; Telegram := true; Webhook := true |}.

Lemma cooldown_quiet_witness :
  let ns := [Problem disk applyCooldown (both true true) (t0 + Tm.minute); Recovered disk (both true true);
             Problem disk applyCooldown (both true true) (t0 + 59 * Tm.minute)] in
  length (notifications "apply_failed" ns (Some announced)).2 = 2%nat /\
  Forall (fun m => recovery m = true) (notifications "apply_failed" ns (Some announced)).2.
Proof.
  cbv zeta. split; [vm_compute; reflexivity|]. apply (cooldown_quiet "apply_failed" applyCooldown t0 announced).
  - repeat (apply Forall_cons_2; [by intros _|]); apply Forall_nil_2.
  - repeat (apply Forall_cons_2; [vm_compute; auto|]); apply Forall_nil_2.
  - reflexivity.
  - reflexivity.
  - vm_compute; reflexivity.
Defined.

(** A problem that reached only one destination does not start the cooldown:
    after its recovery the next problem reaches that destination at once. *)
Example partial_delivery_repeats :
  let ns := [Problem disk offlineCooldown (both false true) t0; Recovered disk (both false true);
             Problem disk offlineCooldown (both false true) (t0 + Tm.second)] in
  sent_to ToTelegram (notifications node_offline ns None).2 = [false; true; false].
Proof. vm_compute; reflexivity. Qed.

(** Six minutes of trouble, seen every minute. *)
Definition trouble : list (Z * string) := map (fun i => (t0 + i * Tm.minute, "bad"%string)) [0; 1; 2; 3; 4; 5; 6].

Lemma summary_patient_witness :
  exists before run first last_ ph, trouble = before ++ run /\ steady ph first last_ run /\
    (ph = "bad"%string /\ reliabilityProblemDelay <= last_ - first \/ ph = "healthy"%string /\ reliabilityRecoveryDelay <= last_ - first).
Proof.
  destruct (summary_patient disk (both true true) true (t0 + 6 * Tm.minute + Tm.second) trouble None _ _ (surjective_pairing _))
    as (before & run & first & last_ & ph & E & S & _ & H).
  - vm_compute. discriminate.
  - exists before, run, first, last_, ph. exact (conj E (conj S H)).
Defined.
