(* ===== verification/Incidents.v ===== *)
(** * Incidents of a server

    internal/worker/incidents.go: each sweep of the statistics worker turns a
    node's report into findings, and a finding that kept its state for three
    sweeps opens or closes an alert.

    The state is the streak of each node and kind, the table of alerts and the
    table of findings of [Notify]; whether a statement of the store succeeded
    is a parameter of the sweep.  The JSON of the node's row is decoded by the
    class [HealthCodec]. *)

From S2P Require Import Prelude Reliability Findings Notify.

(** ** The node's health *)

(** The parts of [HealthReport] the findings look at; [Admission] is whether
    admission is open, where the report carries a WEB lifecycle. *)
Record HealthReport := {
  hr_Reliability : string;
  Healthz : bool;
  Readyz : bool;
  MemUsedPercent : F64.float64;
  DiskUsedPercent : F64.float64;
  Admission : option bool
}.

Record Node := { node_ID : string; LastHealth : string; node_Engine : string; LastSeenAt : option Z }.

(** [decode_report] yields the value [json.Unmarshal] left in the report and
    whether it succeeded. *)
Class HealthCodec := {
  decode_health : string -> option HealthReport;
  decode_report : string -> Report * bool;
  decode_keys : string -> option (list string)
}.

Section Health.
Context `{HealthCodec}.

Definition freshNotificationHealth (n : Node) (now : Z) : bool :=
  match decode_health (LastHealth n) with
  | None => false
  | Some h =>
      let '(r, ok) := decode_report (hr_Reliability h) in
      if ok && (0 <? Report_Version r)
      then negb (Maintenance (Report_Policy r)) && (Tm.sub now (Report_At r) <=? reliabilityFreshness)
      else match decode_keys (LastHealth n) with
           | None => false
           | Some keys =>
               bool_decide ("Healthz"%string ∈ keys) && bool_decide ("Readyz"%string ∈ keys) && String.eqb (node_Engine n) "tproxy" &&
               String.eqb (hr_Reliability h) EmptyString &&
               match LastSeenAt n with Some t => Tm.sub now t <=? reliabilityFreshness | None => false end
           end
  end.

(** The findings of a sweep; [None] when nothing may be concluded. *)
Definition sweep_findings (n : Node) (now : Z) : option (list Finding) :=
  match decode_health (LastHealth n) with
  | None => None
  | Some h =>
      if negb (freshNotificationHealth n now) then None
      else Some (Findings (decode_report (hr_Reliability h)).1 now ++
        [finding "disk_pressure" "Server disk is at least 90% full" (F64.leb (F64.of_int 90) (DiskUsedPercent h)) true;
         finding "memory_pressure" "Server memory is at least 95% full" (F64.leb (F64.of_int 95) (MemUsedPercent h)) true;
         finding "engine_unready" "Proxy engine is not ready" (negb (Readyz h) || negb (Healthz h)) true] ++
        match Admission h with
        | Some open => [finding "web_admission_closed" "WEB admission is closed; inspect maintenance or pause state" (negb open) true]
        | None => []
        end)
  end.

End Health.

(** ** Streaks and alerts *)

Record alert := { al_node : string; al_kind : string; al_message : string; al_open : bool }.

Record Stats := { streak_of : gmap string Z; alert_rows : list alert; finding_rows : gmap string finding_table }.

Definition with_streaks (s : Stats) (m : gmap string Z) : Stats := {| streak_of := m; alert_rows := alert_rows s; finding_rows := finding_rows s |}.
Definition with_alerts (s : Stats) (l : list alert) : Stats := {| streak_of := streak_of s; alert_rows := l; finding_rows := finding_rows s |}.

Definition findingStreak : Z := 3.

(** The next value of a streak: positive while failing, negative while well. *)
Definition next_run (run : Z) (failed : bool) : Z :=
  if failed then if 0 <? run then run + 1 else 1
  else if run <? 0 then run - 1 else -1.

(** [findingRun]: how many sweeps in a row the finding has kept its state. *)
Definition findingRun (s : Stats) (key : string) (failed : bool) : Z * Stats :=
  let run := next_run (default 0 (streak_of s !! key)) failed in
  (Z.abs run, with_streaks s (<[key := run]> (streak_of s))).

Definition is_open (node kind : string) (a : alert) : bool :=
  String.eqb (al_node a) node && String.eqb (al_kind a) kind && al_open a.

(** [INSERT ... WHERE NOT EXISTS] an open alert. *)
Definition open_alert (node kind msg : string) (l : list alert) : list alert :=
  if existsb (is_open node kind) l then l else l ++ [{| al_node := node; al_kind := kind; al_message := msg; al_open := true |}].

(** [ResolveNodeAlerts] *)
Definition ResolveNodeAlerts (node kind : string) (l : list alert) : list alert :=
  map (fun a => if is_open node kind a then {| al_node := al_node a; al_kind := al_kind a; al_message := al_message a; al_open := false |} else a) l.

Definition streak_key (node kind : string) : string := node +:+ "|" +:+ kind.

(** One finding; [stored] is whether the store took the statement. *)
Definition recordFinding (node : string) (stored : bool) (s : Stats) (f : Finding) : Stats :=
  let kind := "reliability_" +:+ Kind f in
  if negb (Known f) then with_streaks s (delete (streak_key node kind) (streak_of s))
  else
    let '(run, s) := findingRun s (streak_key node kind) (Failed f) in
    if run <? findingStreak then s
    else if negb stored then s
    else with_alerts s (if Failed f then open_alert node kind (Message f) (alert_rows s) else ResolveNodeAlerts node kind (alert_rows s)).

Definition to_observation (f : Finding) : Observation := {| o_kind := Kind f; o_failed := Failed f; o_known := Known f |}.

(** [notifying] is whether the worker has a notifier, [committed] what became
    of the transaction of [observeFindings]. *)
Definition recordFindings (notifying committed : bool) (stored : string -> bool) (node : string) (now : Z) (s : Stats) (fs : list Finding) : Stats :=
  let t := default ∅ (finding_rows s !! node) in
  let t := if notifying then observeFindings committed now (map to_observation fs) t else t in
  let s := {| streak_of := streak_of s; alert_rows := alert_rows s; finding_rows := <[node := t]> (finding_rows s) |} in
  fold_left (fun s f => recordFinding node (stored (Kind f)) s f) fs s.

Definition collectIncidents `{HealthCodec} (notifying committed : bool) (stored : string -> bool) (n : Node) (now : Z) (s : Stats) : Stats :=
  match sweep_findings n now with
  | None => s
  | Some fs => recordFindings notifying committed stored (node_ID n) now s fs
  end.

(** ** Alerts and histories

    The observations of one node and kind, oldest first: what each finding
    said, [None] when it said that it did not know. *)

Section History.
Context (node kind : string).

Definition observation := option bool.

Definition observed (f : Finding) : list observation :=
  if String.eqb ("reliability_" +:+ Kind f) kind then [if Known f then Some (Failed f) else None] else [].

Definition history_of (fs : list Finding) : list observation := fs ≫= observed.

(** Whether the alert is open. *)
Definition alerted (s : Stats) : bool := existsb (is_open node kind) (alert_rows s).

(** The streak an observation leaves. *)
Definition run_after (run : Z) (o : observation) : Z := match o with Some b => next_run run b | None => 0 end.

(** What the alert is after an observation that left the streak [run]. *)
Definition alert_after (open : bool) (run : Z) (o : observation) : bool :=
  match o with
  | Some b => if Z.abs run <? findingStreak then open else b
  | None => open
  end.

Definition observe1 (st : Z * bool) (o : observation) : Z * bool :=
  let run := run_after st.1 o in (run, alert_after st.2 run o).

Definition observe_all (st : Z * bool) (l : list observation) : Z * bool := fold_left observe1 l st.

(** The list ends with [n] observations that say [b]. *)
Definition ends (b : bool) (n : nat) (l : list observation) : Prop := exists pre, l = pre ++ replicate n (Some b).

(** [run] counts the equal observations at the end of the list. *)
Definition counts (run : Z) (l : list observation) : Prop :=
  forall b n, ends b n l <-> (n <= Z.to_nat (if b then run else - run))%nat.

(** There are three recoveries in a row. *)
Definition recovers (l : list observation) : Prop := exists a b, l = a ++ replicate 3 (Some false) ++ b.

(** The latest three equal observations in a row were failures. *)
Definition raised (l : list observation) : Prop :=
  exists pre post, l = pre ++ replicate 3 (Some true) ++ post /\ ~ recovers post.

Lemma ends_snoc b n l o : ends b (S n) (l ++ [o]) <-> o = Some b /\ ends b n l.
Proof.
  unfold ends. setoid_rewrite replicate_S_end. setoid_rewrite app_assoc. split.
  - intros (pre & E). apply app_inj_tail in E as [-> ->]. split; [done|by exists pre].
  - intros (-> & pre & ->). by exists pre.
Qed.

Lemma counts_nil : counts 0 [].
Proof.
  intros b n. split.
  - intros (pre & E). symmetry in E. apply app_nil in E as [_ E]. destruct n; [lia|done].
  - intros Hn. exists []. destruct b; by replace n with 0%nat by lia.
Qed.

Lemma counts_snoc run l o : counts run l -> counts (run_after run o) (l ++ [o]).
Proof.
  intros Hc b n. destruct n as [|n]; [split; [lia|intros _; exists (l ++ [o]); by rewrite app_nil_r]|].
  rewrite ends_snoc, (Hc b n). destruct o as [x|]; cbn; [|split; [by intros [[=] _]|destruct b; lia]].
  unfold next_run. destruct x, b; cbn.
  - destruct (Z.ltb_spec 0 run); split; [intros [_ ?]; lia|intros ?; split; [done|lia]|intros [_ ?]; lia|intros ?; split; [done|lia]].
  - split; [by intros [[=] _]|]. destruct (Z.ltb_spec 0 run); lia.
  - split; [by intros [[=] _]|]. destruct (Z.ltb_spec run 0); lia.
  - destruct (Z.ltb_spec run 0); split; [intros [_ ?]; lia|intros ?; split; [done|lia]|intros [_ ?]; lia|intros ?; split; [done|lia]].
Qed.

Lemma recovers_snoc l o : ~ ends false 3 (l ++ [o]) -> recovers (l ++ [o]) -> recovers l.
Proof.
  intros He (a & b & E). destruct b as [|x b _] using rev_ind.
  - destruct He. exists a. by rewrite E, app_nil_r.
  - rewrite !app_assoc in E. apply app_inj_tail in E as [-> _]. exists a, b. by rewrite app_assoc.
Qed.

Lemma recovers_app l k : recovers l -> recovers (l ++ k).
Proof. intros (a & b & ->). exists a, (b ++ k). by rewrite !app_assoc. Qed.

(** An observation that ends neither kind of triple changes nothing. *)
Lemma raised_snoc l o : ~ ends false 3 (l ++ [o]) -> ~ ends true 3 (l ++ [o]) -> raised (l ++ [o]) <-> raised l.
Proof.
  intros Hf Ht. split.
  - intros (pre & post & E & Hp). destruct post as [|x post _] using rev_ind.
    + destruct Ht. exists pre. by rewrite E, app_nil_r.
    + rewrite !app_assoc in E. apply app_inj_tail in E as [-> _]. exists pre, post. split; [by rewrite app_assoc|].
      intros Hr. by apply Hp, recovers_app.
  - intros (pre & post & -> & Hp). exists pre, (post ++ [o]). split; [by rewrite !app_assoc|].
    intros Hr. apply Hp. eapply recovers_snoc; [|exact Hr]. intros (q & E). apply Hf.
    exists (pre ++ replicate 3 (Some true) ++ q). by rewrite <- !app_assoc, <- E, !app_assoc.
Qed.

Lemma ends_raised l : ends true 3 l -> raised l.
Proof.
  intros (pre & ->). exists pre, []. split; [by rewrite app_nil_r|]. intros (a & b & E).
  symmetry in E. apply app_nil in E as [_ E]. by apply app_nil in E as [E _].
Qed.

Lemma ends_not_raised l : ends false 3 l -> ~ raised l.
Proof.
  intros (q & ->) (pre & post & E & Hp). apply Hp. clear Hp.
  destruct post as [|z post _] using rev_ind.
  { rewrite app_nil_r in E. cbn in E. change [Some true; Some true; Some true] with ([Some true; Some true] ++ [Some true]) in E.
    change [Some false; Some false; Some false] with ([Some false; Some false] ++ [Some false]) in E.
    rewrite !app_assoc in E. by apply app_inj_tail in E as [_ [=]]. }
  change (replicate 3 (Some false)) with ([Some false; Some false] ++ [Some false]) in E.
  rewrite !app_assoc in E. apply app_inj_tail in E as [E <-]. rewrite <- !app_assoc in E.
  destruct post as [|y post _] using rev_ind.
  { rewrite app_nil_r in E. change (replicate 3 (Some true)) with ([Some true; Some true] ++ [Some true]) in E.
    change [Some false; Some false] with ([Some false] ++ [Some false]) in E. rewrite !app_assoc in E. by apply app_inj_tail in E as [_ [=]]. }
  change [Some false; Some false] with ([Some false] ++ [Some false]) in E.
  rewrite !app_assoc in E. apply app_inj_tail in E as [E <-]. rewrite <- !app_assoc in E.
  destruct post as [|x post _] using rev_ind.
  { rewrite app_nil_r in E. change (replicate 3 (Some true)) with ([Some true; Some true] ++ [Some true]) in E.
    rewrite !app_assoc in E. by apply app_inj_tail in E as [_ [=]]. }
  rewrite !app_assoc in E. apply app_inj_tail in E as [E <-]. exists post, []. by rewrite app_nil_r, <- !app_assoc.
Qed.

(** The streak and the alert together. *)
Lemma observe_all_spec l : counts (observe_all (0, false) l).1 l /\ ((observe_all (0, false) l).2 = true <-> raised l).
Proof.
  induction l as [|o l IH] using rev_ind.
  { split; [apply counts_nil|]. split; [done|]. intros (pre & post & E & _). symmetry in E.
    apply app_nil in E as [_ E]. by apply app_nil in E as [E _]. }
  unfold observe_all in *. rewrite fold_left_app. cbn [fold_left]. destruct (fold_left observe1 l (0, false)) as [run open]. cbn [fst snd] in IH.
  destruct IH as [Hc Ho]. pose proof (counts_snoc run l o Hc) as Hc'. split; [exact Hc'|].
  unfold observe1. cbn [fst snd]. pose proof (Hc' true 3%nat) as Ht. pose proof (Hc' false 3%nat) as Hf. cbn [alert_after].
  assert (Hsame : Z.abs (run_after run o) < 3 -> (open = true <-> raised (l ++ [o]))).
  { intros Hlt. rewrite raised_snoc, Ho; [done|rewrite Hf; lia|rewrite Ht; lia]. }
  unfold alert_after. destruct o as [b|]; [|apply Hsame; cbn; lia]. unfold findingStreak.
  destruct (Z.ltb_spec (Z.abs (run_after run (Some b))) 3) as [Hlt|Hge]; [by apply Hsame|].
  assert (Hsign : if b then 0 < run_after run (Some b) else run_after run (Some b) < 0).
  { cbn. unfold next_run. destruct b; [destruct (Z.ltb_spec 0 run)|destruct (Z.ltb_spec run 0)]; lia. }
  destruct b.
  - split; [|done]. intros _. apply ends_raised. rewrite Ht. lia.
  - split; [done|]. intros Hr. exfalso. revert Hr. apply ends_not_raised. rewrite Hf. lia.
Qed.

End History.

(** ** Sweeps *)

Record sweep := {
  sw_node : string;
  sw_now : Z;
  sw_findings : list Finding;
  sw_notifying : bool;
  sw_committed : bool;
  sw_stored : string -> bool
}.

Definition sweep_step (s : Stats) (w : sweep) : Stats :=
  recordFindings (sw_notifying w) (sw_committed w) (sw_stored w) (sw_node w) (sw_now w) s (sw_findings w).

Definition sweeps (ws : list sweep) : Stats := fold_left sweep_step ws {| streak_of := ∅; alert_rows := []; finding_rows := ∅ |}.

Section Sweeps.
Context (node kind : string).

(** What the sweeps saw of the node and kind. *)
Definition seen (w : sweep) : list observation := if String.eqb (sw_node w) node then history_of kind (sw_findings w) else [].

(** The identities of nodes are UUIDs, all of one length. *)
Definition a_node (w : sweep) : Prop := String.length (sw_node w) = String.length node.

Definition tracked (s : Stats) : Z * bool := (default 0 (streak_of s !! streak_key node kind), alerted node kind s).

Lemma append_inj_length a a' b b' : String.length a = String.length a' -> a +:+ b = a' +:+ b' -> a = a' /\ b = b'.
Proof.
  revert a'. induction a as [|c a IH]; intros [|c' a'] Hl E; try done. rewrite !Str.append_cons in E. injection E as -> E.
  cbn in Hl. destruct (IH a' ltac:(lia) E) as [-> ->]. done.
Qed.

Lemma streak_key_inj n k n' k' : String.length n = String.length n' -> streak_key n k = streak_key n' k' -> n = n' /\ k = k'.
Proof.
  unfold streak_key. intros Hl [-> E]%append_inj_length; [|done]. split; [done|].
  by apply (append_inj_length "|" "|") in E as [_ ->].
Qed.

Lemma existsb_map_false {A} (p : A -> bool) (f : A -> A) l : (forall a, p (f a) = false) -> existsb p (map f l) = false.
Proof. intros Hf. induction l as [|a l IH]; [done|]. cbn. by rewrite Hf, IH. Qed.

Lemma existsb_map_same {A} (p : A -> bool) (f : A -> A) l : (forall a, p (f a) = p a) -> existsb p (map f l) = existsb p l.
Proof. intros Hf. induction l as [|a l IH]; [done|]. cbn. by rewrite Hf, IH. Qed.

Lemma open_alert_spec n k msg l :
  existsb (is_open node kind) (open_alert n k msg l) = (String.eqb n node && String.eqb k kind) || existsb (is_open node kind) l.
Proof.
  unfold open_alert. destruct (existsb (is_open n k) l) eqn:E.
  - destruct (String.eqb_spec n node) as [->|], (String.eqb_spec k kind) as [->|]; cbn; try done.
  - rewrite existsb_app. cbn. unfold is_open at 2. cbn. by rewrite andb_true_r, orb_false_r, orb_comm.
Qed.

Lemma is_open_inj n k a : is_open n k a = true -> is_open node kind a = true -> n = node /\ k = kind.
Proof. unfold is_open. rewrite !andb_true_iff, !String.eqb_eq. by intros [[-> ->] _] [[<- <-] _]. Qed.

Lemma ResolveNodeAlerts_spec n k l :
  existsb (is_open node kind) (ResolveNodeAlerts n k l) = negb (String.eqb n node && String.eqb k kind) && existsb (is_open node kind) l.
Proof.
  unfold ResolveNodeAlerts. destruct (String.eqb_spec n node) as [->|Hn], (String.eqb_spec k kind) as [->|Hk]; cbn.
  - apply existsb_map_false. intros a. destruct (is_open node kind a) eqn:E; [|done]. unfold is_open. cbn. by rewrite andb_false_r.
  - apply existsb_map_same. intros a. destruct (is_open node k a) eqn:E; [|done]. unfold is_open at 1. cbn. rewrite andb_false_r.
    destruct (is_open node kind a) eqn:E'; [|done]. by destruct (is_open_inj _ _ _ E E').
  - apply existsb_map_same. intros a. destruct (is_open n kind a) eqn:E; [|done]. unfold is_open at 1. cbn. rewrite andb_false_r.
    destruct (is_open node kind a) eqn:E'; [|done]. by destruct (is_open_inj _ _ _ E E').
  - apply existsb_map_same. intros a. destruct (is_open n k a) eqn:E; [|done]. unfold is_open at 1. cbn. rewrite andb_false_r.
    destruct (is_open node kind a) eqn:E'; [|done]. by destruct (is_open_inj _ _ _ E E').
Qed.

Lemma filter_open_none p (l : list alert) : existsb p l = false -> List.filter p l = [].
Proof. induction l as [|a l IH]; [done|]. cbn. destruct (p a); [done|]. apply IH. Qed.

Lemma open_alert_one n k msg l : (length (List.filter (is_open node kind) l) <= 1)%nat ->
  (length (List.filter (is_open node kind) (open_alert n k msg l)) <= 1)%nat.
Proof.
  intros Hl. unfold open_alert. destruct (existsb (is_open n k) l) eqn:E; [done|].
  rewrite List.filter_app, length_app. cbn. destruct (is_open node kind _) eqn:Eo; [|cbn; lia].
  unfold is_open in Eo. cbn in Eo. rewrite andb_true_r, andb_true_iff, !String.eqb_eq in Eo. destruct Eo as [-> ->].
  rewrite filter_open_none by done. cbn. lia.
Qed.

Lemma ResolveNodeAlerts_one n k l : (length (List.filter (is_open node kind) l) <= 1)%nat ->
  (length (List.filter (is_open node kind) (ResolveNodeAlerts n k l)) <= 1)%nat.
Proof.
  intros Hl. etransitivity; [|exact Hl]. clear Hl. unfold ResolveNodeAlerts. induction l as [|a l IH]; [done|]. cbn [map List.filter].
  destruct (is_open n k a).
  - unfold is_open at 1. cbn [al_open]. rewrite andb_false_r. destruct (is_open node kind a); cbn [length]; lia.
  - destruct (is_open node kind a); cbn [length]; lia.
Qed.

Lemma recordFinding_tracked n s f : String.length n = String.length node ->
  tracked (recordFinding n true s f) =
  if String.eqb n node then fold_left observe1 (observed kind f) (tracked s) else tracked s.
Proof.
  intros Hl. unfold recordFinding, observed. cbv zeta. set (k := "reliability_" +:+ Kind f).
  assert (Hkey : streak_key n k = streak_key node kind -> n = node /\ k = kind) by by apply streak_key_inj.
  destruct (Known f) eqn:Ek; cbn [negb].
  - unfold findingRun. set (run := next_run _ (Failed f)).
    assert (Hstreak : default 0 (<[streak_key n k := run]> (streak_of s) !! streak_key node kind) =
                      if String.eqb n node && String.eqb k kind then next_run (tracked s).1 (Failed f) else (tracked s).1).
    { destruct (String.eqb_spec n node) as [->|Hn], (String.eqb_spec k kind) as [Hk|Hk]; cbn;
        [rewrite Hk; by rewrite lookup_insert_eq; unfold run; rewrite Hk|rewrite lookup_insert_ne; [done|]..]; intros E; destruct (Hkey E); congruence. }
    assert (Hal : forall l, existsb (is_open node kind) (if Failed f then open_alert n k (Message f) l else ResolveNodeAlerts n k l) =
                  if String.eqb n node && String.eqb k kind then Failed f else existsb (is_open node kind) l).
    { intros l. destruct (Failed f); rewrite ?open_alert_spec, ?ResolveNodeAlerts_spec; by destruct (String.eqb n node && String.eqb k kind). }
    unfold tracked, alerted in *. cbn [fst snd] in *.
    assert (Hrun : String.eqb n node && String.eqb k kind = true -> next_run (default 0 (streak_of s !! streak_key node kind)) (Failed f) = run).
    { rewrite andb_true_iff, !String.eqb_eq. by intros [-> ->]. }
    destruct (Z.abs run <? findingStreak) eqn:Er; cbn [streak_of alert_rows with_streaks with_alerts]; rewrite Hstreak, ?Hal;
      destruct (String.eqb n node) eqn:En, (String.eqb k kind) eqn:Ekk; cbn [andb fold_left] in *; try done;
      unfold observe1; cbn [fst snd run_after alert_after]; rewrite (Hrun eq_refl), Er; done.
  - unfold tracked, alerted. cbn [streak_of alert_rows with_streaks].
    destruct (String.eqb_spec n node) as [->|Hn], (String.eqb_spec k kind) as [Hk|Hk]; cbn;
      [rewrite Hk, lookup_delete_eq; done|rewrite lookup_delete_ne; [done|]..]; intros E; destruct (Hkey E); congruence.
Qed.

Lemma record_all_tracked n st fs s : String.length n = String.length node -> (forall k, st k = true) ->
  tracked (fold_left (fun s f => recordFinding n (st (Kind f)) s f) fs s) =
  if String.eqb n node then observe_all (tracked s) (history_of kind fs) else tracked s.
Proof.
  intros Hl Hst. revert s. induction fs as [|f fs IH]; intros s; [by destruct (String.eqb n node)|].
  cbn [fold_left]. rewrite IH, Hst, recordFinding_tracked by done. destruct (String.eqb n node); [|done].
  unfold history_of, observe_all. by rewrite bind_cons, fold_left_app.
Qed.

Lemma recordFindings_tracked w s : a_node w -> (forall k, sw_stored w k = true) ->
  tracked (sweep_step s w) = observe_all (tracked s) (seen w).
Proof.
  intros Hl Hst. unfold sweep_step, recordFindings, seen. rewrite record_all_tracked by done.
  by destruct (String.eqb (sw_node w) node).
Qed.

(** C28: an alert follows the streak: whatever findings the sweeps of all
    servers make, in any order, as long as the store takes the statements, the
    alert of a server and kind is open exactly when of the latest three equal
    observations in a row all were failures; an observation that does not know
    breaks a streak and leaves the alert as it is, and a sweep without the
    finding does neither. *)
Theorem alert_follows_streak ws : Forall a_node ws -> Forall (fun w => forall k, sw_stored w k = true) ws ->
  alerted node kind (sweeps ws) = true <-> raised (ws ≫= seen).
Proof.
  intros Hn Hs. assert (H : tracked (sweeps ws) = observe_all (0, false) (ws ≫= seen)).
  { unfold sweeps. change (0, false) with (tracked {| streak_of := ∅; alert_rows := []; finding_rows := ∅ |}) at 1.
    generalize {| streak_of := ∅; alert_rows := []; finding_rows := ∅ |}. induction ws as [|w ws IH]; intros s; [done|].
    inversion Hn; subst. inversion Hs; subst. cbn [fold_left]. rewrite IH, recordFindings_tracked by done.
    unfold observe_all. by rewrite bind_cons, fold_left_app. }
  change (alerted node kind (sweeps ws)) with (tracked (sweeps ws)).2. rewrite H. apply observe_all_spec.
Qed.

(** An incident has one alert: however the store fails, no sequence of
    sweeps leaves two open alerts of one server and kind. *)
Theorem one_open_alert ws : (length (List.filter (is_open node kind) (alert_rows (sweeps ws))) <= 1)%nat.
Proof.
  unfold sweeps. assert (H : (length (List.filter (is_open node kind) []) <= 1)%nat) by (cbn; lia). revert H.
  change (@nil alert) with (alert_rows {| streak_of := ∅; alert_rows := []; finding_rows := ∅ |}) at 1.
  generalize {| streak_of := ∅; alert_rows := []; finding_rows := ∅ |}. induction ws as [|w ws IH]; intros s Hs; [done|].
  cbn [fold_left]. apply IH. unfold sweep_step, recordFindings. cbv zeta.
  match goal with |- context [fold_left _ _ ?x] => assert (Hx : (length (List.filter (is_open node kind) (alert_rows x)) <= 1)%nat) by exact Hs; generalize dependent x end.
  clear Hs s. induction (sw_findings w) as [|f fs IHf]; intros x Hx; [done|]. cbn [fold_left]. apply IHf. unfold recordFinding. cbv zeta.
  destruct (negb (Known f)); [done|]. unfold findingRun. destruct (_ <? _); [done|]. destruct (negb _); [done|]. cbn [alert_rows with_alerts with_streaks].
  destruct (Failed f); [by apply open_alert_one|by apply ResolveNodeAlerts_one].
Qed.

End Sweeps.

(** ** A server whose DC is lost for a while *)

Definition uuid (c : ascii) : string := String c "0000000-0000-4000-8000-000000000000".

Definition dc_sweep (c : ascii) (alive : Z) (i : Z) : sweep :=
  {| sw_node := uuid c; sw_now := i * Tm.minute; sw_findings := [dc_finding {| ID := 2; Alive := alive; Required := 1 |}];
     sw_notifying := true; sw_committed := true; sw_stored := fun _ => true |}.

Definition lost_dc : list sweep :=
  [dc_sweep "a" 0 1; dc_sweep "b" 1 1; dc_sweep "a" 0 2; dc_sweep "b" 0 2; dc_sweep "a" 0 3; dc_sweep "b" 1 3; dc_sweep "a" 1 4; dc_sweep "a" 1 5].

Lemma alert_follows_streak_witness :
  alerted (uuid "a") "reliability_dc_2" (sweeps lost_dc) = true /\ alerted (uuid "b") "reliability_dc_2" (sweeps lost_dc) = false /\
  raised (lost_dc ≫= seen (uuid "a") "reliability_dc_2") /\ ~ raised (lost_dc ≫= seen (uuid "b") "reliability_dc_2").
Proof.
  assert (Hn : forall c, Forall (a_node (uuid c)) lost_dc) by (intros c; repeat (apply Forall_cons_2; [reflexivity|]); apply Forall_nil_2).
  assert (Hs : Forall (fun w => forall k, sw_stored w k = true) lost_dc) by (repeat (apply Forall_cons_2; [reflexivity|]); apply Forall_nil_2).
  assert (Ha : alerted (uuid "a") "reliability_dc_2" (sweeps lost_dc) = true) by (vm_compute; reflexivity).
  assert (Hb : alerted (uuid "b") "reliability_dc_2" (sweeps lost_dc) = false) by (vm_compute; reflexivity).
  split; [exact Ha|]. split; [exact Hb|]. split.
  - exact (proj1 (alert_follows_streak (uuid "a") "reliability_dc_2" lost_dc (Hn _) Hs) Ha).
  - intros Hr. apply (alert_follows_streak (uuid "b") "reliability_dc_2" lost_dc (Hn _) Hs) in Hr. rewrite Hb in Hr. discriminate Hr.
Defined.

(** The node's own report, decoded: one DC without writers, the rest well. *)
Definition quiet_report (dc : Z) : Report :=
  {| Report_Version := 1; Report_At := 0; MEPool_ := None; Connections := Some {| Success := 80; Failed_ := 20; Window_At := 0 |};
     Routes := [{| Healthy := true; Age := 10 |}];
     Resources_ := {| FDUsed := Some 9; FDLimit := Some 10; ConntrackUsed := None; ConntrackLimit := None; InodesUsedPercent := None |};
     DCs := [{| ID := dc; Alive := 0; Required := 1 |}]; Report_Policy := DefaultPolicy |}.

Definition toy_codec : HealthCodec :=
  {| decode_health _ := Some {| hr_Reliability := "r"; Healthz := true; Readyz := true; MemUsedPercent := F64.of_int 50;
                                DiskUsedPercent := F64.of_int 90; Admission := Some true |};
     decode_report _ := (quiet_report 2, true); decode_keys _ := None |}.

Definition a_server : Node := {| node_ID := uuid "a"; LastHealth := "h"; node_Engine := "telemt"; LastSeenAt := Some 0 |}.

(** A fifth of failed connections is not more than a fifth; nine of ten file
    descriptors are. *)
Example what_a_report_says :
  (map Kind <$> (List.filter (fun f => Failed f && Known f) <$> @sweep_findings toy_codec a_server Tm.second)) =
    Some ["dc_2"; "fd_pressure"; "disk_pressure"]%string /\
  @sweep_findings toy_codec a_server (3 * Tm.minute) = None.
Proof. by vm_compute. Qed.
