(* ===== verification/FleetUpdate.v ===== *)
(** * telemt updates seen from the panel

    internal/worker/telemtupdate.go: the panel starts an update on a node,
    polls it until the node reports the end or the deadline passes, has its own
    checks confirm a success, and records what became of it.

    The state is the part of the store the updater writes and the set of nodes
    it follows.  What the driver answers to each poll and after how long, what
    the verifier says, and whether the store took each write are parameters.
    [TelemtUpdate] of internal/nodedriver/update.go is the message of
    [TelemtTypes]; steps are kept as the node reported them. *)

From S2P Require Import Prelude TelemtTypes UpgradeRun.

Definition UpdateStatusRunning : string := "running".
Definition UpdateStatusOK : string := "ok".
Definition UpdateStatusRefused : string := "refused".
Definition UpdateStatusFailed : string := "failed".
Definition UpdateStatusRolledBack : string := "rolled_back".
Definition UpdateStatusRollbackFailed : string := "rollback_failed".
Definition UpdateStatusNeedsAttention : string := "needs_attention".

Definition updateStatusByOutcome : gmap string string := list_to_map
  [("updated", UpdateStatusOK); ("refused", UpdateStatusRefused); ("failed", UpdateStatusFailed); ("rolled_back", UpdateStatusRolledBack);
   ("rollback_failed", UpdateStatusRollbackFailed); ("updated_admission_closed", UpdateStatusNeedsAttention)]%string.

Definition defaultUpdatePollInterval : Z := 2 * Tm.second.
Definition defaultUpdateJobTimeout : Z := 30 * Tm.minute.

Definition poll (Poll : Z) : Z := if 0 <? Poll then Poll else defaultUpdatePollInterval.
Definition jobTimeout (JobTimeout : Z) : Z := if 0 <? JobTimeout then JobTimeout else defaultUpdateJobTimeout.

Definition Done (u : TelemtUpdate) : bool := String.eqb (Phase u) "done".

Definition statusFor (u : TelemtUpdate) : string := default UpdateStatusFailed (updateStatusByOutcome !! Outcome u).

Definition sameUpdateVersion (a b : string) : bool :=
  let normalize v := Str.trim_prefix (Str.trim_space v) "v" in
  negb (String.eqb (normalize a) EmptyString) && String.eqb (normalize a) (normalize b).

(** The zero [TelemtUpdate], with the version a job started from. *)
Definition no_update (from : string) : TelemtUpdate :=
  {| JobId := EmptyString; Phase := EmptyString; Outcome := EmptyString; UpdOk := false; RolledBack := false; FromVersion := from;
     ToVersion := EmptyString; StartedUnixMs := 0; FinishedUnixMs := 0; UpdError := EmptyString; Drained := false; Steps := [] |}.

(** ** The store *)

Record Job := {
  job_node : string;
  job_from : string;
  job_to : string;
  job_status : string;
  job_outcome : string;
  job_error : string;
  job_steps : list UpdateStep;
  job_verification : option string;
  job_finished : bool;
  job_started : Z
}.

(** The row of a node as the caller read it. *)
Record FleetNode := { fn_ID : string; TelemtVersion : string; TelemtUpdateAvailable : string }.

Record panel := {
  jobs : gmap Z Job;
  versions : gmap string string;
  available : gmap string string;
  raised : list (string * string);
  inFlight : gset string
}.

Definition with_jobs (p : panel) (j : gmap Z Job) : panel :=
  {| jobs := j; versions := versions p; available := available p; raised := raised p; inFlight := inFlight p |}.
Definition with_flight (p : panel) (s : gset string) : panel :=
  {| jobs := jobs p; versions := versions p; available := available p; raised := raised p; inFlight := s |}.

(** The writes of the updater; a failed one is logged and changes nothing. *)
Inductive write := WSteps | WVerification | WFinish | WVersion | WAvailable | WAlert.

Definition update_job (p : panel) (id : Z) (f : Job -> Job) : panel := with_jobs p (alter f id (jobs p)).

Definition storeSteps (ok : write -> bool) (id : Z) (st : TelemtUpdate) (p : panel) : panel :=
  if ok WSteps then
    update_job p id (fun j => {| job_node := job_node j; job_from := job_from j; job_to := job_to j; job_status := job_status j;
      job_outcome := job_outcome j; job_error := job_error j; job_steps := Steps st; job_verification := job_verification j;
      job_finished := job_finished j; job_started := job_started j |})
  else p.

Definition setVerification (ok : write -> bool) (id : Z) (detail : string) (p : panel) : panel :=
  if negb (String.eqb detail EmptyString) && negb (String.eqb detail "null") && ok WVerification then
    update_job p id (fun j => {| job_node := job_node j; job_from := job_from j; job_to := job_to j; job_status := job_status j;
      job_outcome := job_outcome j; job_error := job_error j; job_steps := job_steps j; job_verification := Some detail;
      job_finished := job_finished j; job_started := job_started j |})
  else p.

Definition finishJob (ok : write -> bool) (id : Z) (st : TelemtUpdate) (status errMsg : string) (p : panel) : panel :=
  if ok WFinish then
    update_job p id (fun j => {| job_node := job_node j;
      job_from := if String.eqb (FromVersion st) EmptyString then job_from j else FromVersion st;
      job_to := job_to j; job_status := status; job_outcome := Outcome st; job_error := errMsg; job_steps := Steps st;
      job_verification := job_verification j; job_finished := true; job_started := job_started j |})
  else p.

(** ** The end of a job *)

(** What the verifier answers: whether the node serves, the detail to keep and
    a summary. *)
Record verdict := { v_ok : bool; v_detail : string; v_summary : string }.

Definition recordNodeVersion (ok : write -> bool) (n : FleetNode) (req_version : string) (st : TelemtUpdate) (status : string) (p : panel) : panel :=
  let kept := String.eqb status UpdateStatusOK || String.eqb status UpdateStatusNeedsAttention in
  let version := if kept then req_version else FromVersion st in
  let avail := if kept then EmptyString else req_version in
  let vs := if negb (String.eqb version EmptyString) && negb (String.eqb version (TelemtVersion n)) && ok WVersion
            then <[fn_ID n := version]> (versions p) else versions p in
  let av := if negb (String.eqb avail (TelemtUpdateAvailable n)) && ok WAvailable
            then <[fn_ID n := avail]> (available p) else available p in
  {| jobs := jobs p; versions := vs; available := av; raised := raised p; inFlight := inFlight p |}.

Definition raiseAlert (ok : write -> bool) (n : FleetNode) (status errMsg : string) (p : panel) : panel :=
  let '(line, _, _) := Str.cut errMsg (ascii_of_nat 10) in
  let msg := "telemt update ended " +:+ status +:+ (if String.eqb errMsg EmptyString then EmptyString else ": " +:+ line) in
  if ok WAlert
  then {| jobs := jobs p; versions := versions p; available := available p; raised := raised p ++ [(fn_ID n, msg)]; inFlight := inFlight p |}
  else p.

(** The status and error after the panel's own check of a success. *)
Definition checked (verifier : option verdict) (req_version status errMsg : string) : string * string :=
  match verifier with
  | Some v =>
      if String.eqb status UpdateStatusOK && negb (v_ok v)
      then (UpdateStatusNeedsAttention, "telemt " +:+ req_version +:+ " is running but the panel's checks did not pass: " +:+ v_summary v)
      else (status, errMsg)
  | None => (status, errMsg)
  end.

Definition finish (ok : write -> bool) (verifier : option verdict) (id : Z) (n : FleetNode) (req_version : string)
    (st : TelemtUpdate) (status errMsg : string) (p : panel) : panel :=
  let p := match verifier with
           | Some v => if String.eqb status UpdateStatusOK then setVerification ok id (v_detail v) p else p
           | None => p
           end in
  let '(status, errMsg) := checked verifier req_version status errMsg in
  let p := finishJob ok id st status errMsg p in
  let p := recordNodeVersion ok n req_version st status p in
  if negb (String.eqb status UpdateStatusOK) then raiseAlert ok n status errMsg p else p.

(** ** Following a node *)

(** A status call: its answer, how long it took, and which of the deadline and
    the timer wins when both come at once. *)
Record poll_answer := { pa_status : result TelemtUpdate; pa_took : Z; pa_timer_first : bool }.

Section Follow.
Context (Poll JobTimeout : Z) (answers : nat -> poll_answer) (ok : nat -> write -> bool) (verifier : option verdict).
Context (id : Z) (n : FleetNode) (req_version : string).

(** The end at the deadline. *)
Definition gave_up (lastErr : option error) : error :=
  "the node stopped reporting on this update after " +:+ Dur.text (jobTimeout JobTimeout) +:+
  match lastErr with Some e => ": " +:+ e | None => EmptyString end.

(** From the [i]-th poll at the instant [t], until the context ends at
    [deadline]; [None] when the fuel runs out. *)
Fixpoint follow (fuel : nat) (deadline : Z) (i : nat) (t : Z) (p : panel) : option panel :=
  match fuel with
  | O => None
  | S fuel =>
      let a := answers i in
      let t := t + Z.max 0 (pa_took a) in
      let next (lastErr : option error) (p : panel) :=
        let wake := t + poll Poll in
        if (deadline <? wake) || ((deadline =? wake) && negb (pa_timer_first a)) || (deadline <=? t)
        then Some (finish (ok i) verifier id n req_version (no_update EmptyString) UpdateStatusFailed (gave_up lastErr) p)
        else follow fuel deadline (S i) wake p in
      match pa_status a with
      | Err e => next (Some e) p
      | Ok st =>
          if Done st then Some (finish (ok i) verifier id n req_version st (statusFor st) (UpdError st) p)
          else next None (storeSteps (ok i) id st p)
      end
  end.

End Follow.

(** ** Starting and resuming *)

Definition reserve (id : string) (p : panel) : bool * panel :=
  if bool_decide (id ∈ inFlight p) then (false, p) else (true, with_flight p ({[id]} ∪ inFlight p)).

Definition release (id : string) (p : panel) : panel := with_flight p (inFlight p ∖ {[id]}).

(** [GetRunningTelemtUpdateJob]: the job of the node that started last and is
    not finished. *)
Definition running_job (node : string) (js : gmap Z Job) : option (Z * Job) :=
  fold_right (fun kv best =>
    if String.eqb (job_node kv.2) node && negb (job_finished kv.2)
    then match best with Some b => if job_started kv.2 <=? job_started b.2 then best else Some kv | None => Some kv end
    else best) None (map_to_list js).

Definition ErrUpdateInFlight : error := "a telemt update is already running for this node".
Definition ErrOffline : error := "node offline".

(** What starting and resuming leave to do: follow a job to a deadline. *)
Inductive next_step := Follow (id : Z) (deadline : Z) | Nothing.

(** [Start]; [query] is whether the store answered, [created] the identity of
    the new row, [accepted] the node's answer. *)
Definition Start (ok : write -> bool) (verifier : option verdict) (JobTimeout now : Z) (online query : bool) (created : result Z)
    (accepted : result TelemtUpdate) (n : FleetNode) (req_version : string) (p : panel) : result Z * next_step * panel :=
  if negb online then (Err ErrOffline, Nothing, p)
  else if negb query then (Err "store", Nothing, p)
  else match running_job (fn_ID n) (jobs p) with
  | Some _ => (Err ErrUpdateInFlight, Nothing, p)
  | None =>
      let '(got, p) := reserve (fn_ID n) p in
      if negb got then (Err ErrUpdateInFlight, Nothing, p)
      else match created with
      | Err e => (Err e, Nothing, release (fn_ID n) p)
      | Ok id =>
          let job := {| job_node := fn_ID n; job_from := TelemtVersion n; job_to := req_version; job_status := UpdateStatusRunning;
                        job_outcome := EmptyString; job_error := EmptyString; job_steps := []; job_verification := None;
                        job_finished := false; job_started := now |} in
          let p := with_jobs p (<[id := job]> (jobs p)) in
          match accepted with
          | Err e =>
              let p := release (fn_ID n) p in
              (Err e, Nothing, finish ok verifier id n req_version (no_update EmptyString) UpdateStatusFailed e p)
          | Ok st => (Ok id, Follow id (now + jobTimeout JobTimeout), storeSteps ok id st p)
          end
      end
  end.

(** What [Reconcile] concludes of a job it reserved. *)
Inductive conclusion := Leave | Resume (deadline : Z) | Close (st : TelemtUpdate) (status errMsg : string).

Definition reconciled (JobTimeout now : Z) (online : bool) (status : result TelemtUpdate) (j : Job) : conclusion :=
  let elapsed := Tm.sub now (job_started j) in
  if negb online then
    if jobTimeout JobTimeout <=? elapsed
    then Close (no_update (job_from j)) UpdateStatusFailed
           "the panel restarted during this update and the node stayed offline until its update deadline"
    else Leave
  else match status with
  | Err e =>
      if jobTimeout JobTimeout <=? elapsed
      then Close (no_update (job_from j)) UpdateStatusFailed ("the panel restarted during this update and could not recover its state: " +:+ e)
      else Leave
  | Ok st =>
      if negb (String.eqb (ToVersion st) EmptyString) && negb (sameUpdateVersion (ToVersion st) (job_to j))
      then Close (no_update (job_from j)) UpdateStatusFailed
             ("the agent reports a different update target (" +:+ ToVersion st +:+ ") than this job (" +:+ job_to j +:+ ")")
      else if Done st then Close st (statusFor st) (UpdError st)
      else if negb (String.eqb (Phase st) "running")
      then Close (no_update (job_from j)) UpdateStatusFailed "the panel restarted during this update, but the agent no longer reports it"
      else
        let remaining := jobTimeout JobTimeout - elapsed in
        if remaining <=? 0 then Close st UpdateStatusFailed "the recovered update exceeded its deadline"
        else Resume (now + remaining)
  end.

Definition Reconcile (ok : write -> bool) (verifier : option verdict) (JobTimeout now : Z) (query online : bool) (status : result TelemtUpdate)
    (n : FleetNode) (p : panel) : option error * next_step * panel :=
  if negb query then (Some "store", Nothing, p)
  else match running_job (fn_ID n) (jobs p) with
  | None => (None, Nothing, p)
  | Some (id, j) =>
      let '(got, p) := reserve (fn_ID n) p in
      if negb got then (None, Nothing, p)
      else match reconciled JobTimeout now online status j with
      | Leave => (None, Nothing, release (fn_ID n) p)
      | Resume deadline => (None, Follow id deadline, p)
      | Close st status errMsg => (None, Nothing, release (fn_ID n) (finish ok verifier id n (job_to j) st status errMsg p))
      end
  end.

(** ** What a job ends in *)

Lemma statusFor_cases st : (statusFor st = UpdateStatusOK /\ Outcome st = "updated"%string) \/
  (statusFor st <> UpdateStatusOK /\ statusFor st <> UpdateStatusRunning).
Proof.
  unfold statusFor. destruct (updateStatusByOutcome !! Outcome st) as [s|] eqn:E; [|by right].
  apply elem_of_list_to_map_2 in E. repeat (apply elem_of_cons in E as [[= -> ->]|E]; [auto|]); try (by right). by apply elem_of_nil in E.
Qed.

Lemma checked_cases v rv s e : s <> UpdateStatusRunning ->
  ((checked v rv s e).1 = UpdateStatusOK /\ s = UpdateStatusOK /\ (forall w, v = Some w -> v_ok w = true)) \/
  ((checked v rv s e).1 <> UpdateStatusOK /\ (checked v rv s e).1 <> UpdateStatusRunning).
Proof.
  intros Hr. unfold checked. destruct v as [w|]; [destruct (String.eqb_spec s UpdateStatusOK) as [->|]; [destruct (v_ok w) eqn:E|]|]; cbn.
  - left. split_and!; [done..|]. by intros ? [= <-].
  - by right.
  - by right.
  - destruct (decide (s = UpdateStatusOK)); [left|right]; split_and!; done.
Qed.

(** The row of a job once it is closed. *)
Definition closed_row (id : Z) (status : string) (p : panel) : Prop :=
  exists j, jobs p !! id = Some j /\ job_finished j = true /\ job_status j = status.

Lemma finish_effect ok v id n rv st s e p (final := (checked v rv s e).1) (p' := finish ok v id n rv st s e p) :
  (ok WFinish = true -> is_Some (jobs p !! id) -> closed_row id final p') /\
  (forall i, i <> id -> jobs p' !! i = jobs p !! i) /\
  inFlight p' = inFlight p /\
  (ok WAlert = true -> raised p' = raised p <-> final = UpdateStatusOK) /\
  (ok WVersion = true -> ok WAvailable = true -> rv <> EmptyString -> final = UpdateStatusOK ->
     (versions p !! fn_ID n = Some (TelemtVersion n) -> versions p' !! fn_ID n = Some rv) /\
     (available p !! fn_ID n = Some (TelemtUpdateAvailable n) -> available p' !! fn_ID n = Some EmptyString)).
Proof.
  subst p' final. unfold finish. set (p0 := match v with Some _ => _ | None => p end).
  assert (Hj : (is_Some (jobs p !! id) -> is_Some (jobs p0 !! id)) /\ (forall i, i <> id -> jobs p0 !! i = jobs p !! i)).
  { subst p0. destruct v; [|done]. destruct (String.eqb _ _); [|done]. unfold setVerification. destruct (_ && _); [|done]. cbn.
    split; [|intros; by apply lookup_alter_ne]. rewrite lookup_alter_eq. by destruct (jobs p !! id). }
  assert (Hrest : versions p0 = versions p /\ available p0 = available p /\ raised p0 = raised p /\ inFlight p0 = inFlight p).
  { subst p0. destruct v; [|done]. destruct (String.eqb _ _); [|done]. unfold setVerification. by destruct (_ && _). }
  destruct Hrest as (Hv & Ha & Hr & Hf). clearbody p0. destruct (checked v rv s e) as [final e']. cbn [fst].
  set (p1 := finishJob ok id st final e' p0).
  assert (E1 : versions p1 = versions p /\ available p1 = available p /\ raised p1 = raised p /\ inFlight p1 = inFlight p).
  { subst p1. unfold finishJob. by destruct (ok WFinish). }
  destruct E1 as (Hv1 & Ha1 & Hr1 & Hf1).
  assert (Hj1 : (ok WFinish = true -> is_Some (jobs p !! id) -> closed_row id final p1) /\ (forall i, i <> id -> jobs p1 !! i = jobs p !! i)).
  { destruct Hj as [Hsome Hne]. subst p1. unfold finishJob. split.
    - intros -> [j Hj]%Hsome. unfold closed_row. cbn. rewrite lookup_alter_eq, Hj. cbn. by eexists.
    - intros i Hi. destruct (ok WFinish); cbn; [rewrite lookup_alter_ne by done|]; by apply Hne. }
  clearbody p1. unfold closed_row in *.
  set (p2 := recordNodeVersion ok n rv st final p1).
  assert (E2 : jobs p2 = jobs p1 /\ raised p2 = raised p1 /\ inFlight p2 = inFlight p1) by done. destruct E2 as (Hj2 & Hr2 & Hf2).
  assert (Hlast : jobs (if negb (String.eqb final UpdateStatusOK) then raiseAlert ok n final e' p2 else p2) = jobs p1 /\
    inFlight (if negb (String.eqb final UpdateStatusOK) then raiseAlert ok n final e' p2 else p2) = inFlight p).
  { unfold raiseAlert. destruct (negb _); [|by rewrite Hf2]. destruct (Str.cut e' _) as [[line ?] ?]. by destruct (ok WAlert). }
  destruct Hlast as [-> ->]. split_and!; [apply Hj1..|done| |].
  - intros Hok. unfold raiseAlert. destruct (String.eqb_spec final UpdateStatusOK) as [->|Hne]; cbn; [by rewrite Hr1|].
    destruct (Str.cut e' _) as [[line ?] ?]. rewrite Hok. cbn. rewrite Hr1. split; [|done].
    intros E%(f_equal length). rewrite length_app in E. cbn in E. lia.
  - intros Wv Wa Hrv ->. cbn. subst p2. unfold recordNodeVersion. cbn. rewrite Wv, Wa, Hv1, Ha1, !andb_true_r. split.
    + intros Hn. destruct (String.eqb_spec rv EmptyString); [done|]. cbn.
      destruct (String.eqb_spec rv (TelemtVersion n)) as [E|]; cbn; [by rewrite Hn, <- E|]. by rewrite lookup_insert_eq.
    + intros Hn. destruct (TelemtUpdateAvailable n); cbn; [done|]. by rewrite lookup_insert_eq.
Qed.

(** ** Following ends, and what the end says *)

Section FollowEnds.
Context (Poll JobTimeout : Z) (answers : nat -> poll_answer) (ok : nat -> write -> bool) (verifier : option verdict).
Context (id : Z) (n : FleetNode) (rv : string).

(** The close of a job at poll [k]: the node said it is done, or the deadline
    passed. *)
Definition closes_at (k : nat) (st : TelemtUpdate) (status : string) : Prop :=
  (pa_status (answers k) = Ok st /\ Done st = true /\ status = statusFor st) \/ status = UpdateStatusFailed.

Lemma poll_pos : 0 < poll Poll.
Proof. unfold poll, defaultUpdatePollInterval. destruct (Z.ltb_spec 0 Poll); [done|time_lia]. Qed.

Lemma follow_total fuel deadline i t p : (Z.to_nat ((deadline - t) / poll Poll) < fuel)%nat ->
  is_Some (follow Poll JobTimeout answers ok verifier id n rv fuel deadline i t p).
Proof.
  pose proof poll_pos as Hp. revert i t p. induction fuel as [|fuel IH]; intros i t p Hf; [lia|]. cbn [follow].
  set (t' := t + Z.max 0 (pa_took (answers i))). assert (Ht : t <= t') by (subst t'; lia).
  assert (Hnext : forall p q, is_Some (if (deadline <? t' + poll Poll) || ((deadline =? t' + poll Poll) && negb (pa_timer_first (answers i))) || (deadline <=? t')
            then Some q else follow Poll JobTimeout answers ok verifier id n rv fuel deadline (S i) (t' + poll Poll) p)).
  { intros p' q. destruct (_ || _) eqn:E; [by eexists|]. apply IH. bprop.
    assert ((deadline - (t' + poll Poll)) / poll Poll + 1 <= (deadline - t) / poll Poll).
    { rewrite <- Z.div_add by lia. apply Z.div_le_mono; lia. }
    pose proof (Z.div_pos (deadline - (t' + poll Poll)) (poll Poll)). lia. }
  destruct (pa_status (answers i)) as [st|e]; [destruct (Done st); [by eexists|]|]; apply Hnext.
Qed.

Lemma follow_shape fuel deadline i t p p' : follow Poll JobTimeout answers ok verifier id n rv fuel deadline i t p = Some p' ->
  exists k st status e q, closes_at k st status /\ p' = finish (ok k) verifier id n rv st status e q /\
    (is_Some (jobs p !! id) -> is_Some (jobs q !! id)) /\ (forall j, j <> id -> jobs q !! j = jobs p !! j) /\
    versions q = versions p /\ available q = available p /\ raised q = raised p /\ inFlight q = inFlight p.
Proof.
  revert i t p. induction fuel as [|fuel IH]; intros i t p; [done|]. cbn [follow].
  set (t' := t + Z.max 0 (pa_took (answers i))). destruct (pa_status (answers i)) as [st|e] eqn:Ea; [destruct (Done st) eqn:Ed|].
  - intros [= <-]. exists i, st, (statusFor st), (UpdError st), p. split_and!; try done. left. by rewrite Ea.
  - destruct (_ || _).
    + intros [= <-]. do 5 eexists. split; [by right|]. split; [done|]. unfold storeSteps. destruct (ok i WSteps); [|done]. cbn.
      rewrite lookup_alter_eq. split_and!; try done; [by destruct (jobs p !! id)|intros; by apply lookup_alter_ne].
    + intros (k & s & status & e & q & Hc & -> & Hj & Ho & Hr)%IH. exists k, s, status, e, q. split; [done|]. split; [done|].
      revert Hj Ho Hr. unfold storeSteps. destruct (ok i WSteps); [|done]. cbn. rewrite lookup_alter_eq. intros Hj Ho Hr.
      split; [intros [j Ej]; apply Hj; by rewrite Ej|]. split; [|done]. intros j Hne. rewrite Ho by done. by apply lookup_alter_ne.
  - destruct (_ || _).
    + intros [= <-]. do 5 eexists. split; [by right|]. done.
    + intros (k & s & status & e' & q & Hc & H)%IH. by exists k, s, status, e', q.
Qed.

Lemma closes_status k st status : closes_at k st status -> status <> UpdateStatusRunning.
Proof. intros [(_ & _ & ->)| ->]; [|done]. destruct (statusFor_cases st) as [[-> _]|[_ ?]]; done. Qed.

End FollowEnds.

Lemma running_job_spec node js id j : running_job node js = Some (id, j) -> js !! id = Some j /\ job_node j = node /\ job_finished j = false.
Proof.
  unfold running_job. rewrite <- elem_of_map_to_list. induction (map_to_list js) as [|[i k] l IH]; [done|]. cbn [fold_right fst snd].
  set (best := fold_right _ _ l) in *. destruct (String.eqb_spec (job_node k) node) as [<-|]; cbn.
  - destruct (job_finished k) eqn:E; cbn; [intros (? & ? & ?)%IH; split_and!; [by right|done..]|].
    destruct best as [b|]; [destruct (_ <=? _); [intros (? & ? & ?)%IH; split_and!; [by right|done..]|]|]; intros [= <- <-];
      (split_and!; [left|done..]).
  - intros (? & ? & ?)%IH. split_and!; [by right|done..].
Qed.

(** C25: an update is always followed to its end: whatever the node answers,
    however long its answers take and whatever the panel's checks say, the
    following ends within one poll per interval left to the deadline, and if
    the store takes the closing write the job is closed with a status other
    than running, with an alert exactly when that status is not ok. *)
Theorem follow_ends Poll JobTimeout answers ok verifier id n rv deadline t p :
  is_Some (jobs p !! id) -> (forall k, ok k WFinish = true /\ ok k WAlert = true) ->
  exists p' status,
    follow Poll JobTimeout answers ok verifier id n rv (S (Z.to_nat ((deadline - t) / poll Poll))) deadline 0 t p = Some p' /\
    closed_row id status p' /\ status <> UpdateStatusRunning /\ (raised p' = raised p <-> status = UpdateStatusOK) /\
    (forall j, j <> id -> jobs p' !! j = jobs p !! j).
Proof.
  intros Hj Hok. destruct (follow_total Poll JobTimeout answers ok verifier id n rv _ deadline 0 t p (Nat.lt_succ_diag_r _)) as [p' E].
  rewrite E. destruct (follow_shape _ _ _ _ _ _ _ _ _ _ _ _ _ _ E) as (k & st & status & e & q & Hc & -> & Hq & Ho & Hv & Ha & Hr & Hf).
  destruct (finish_effect (ok k) verifier id n rv st status e q) as (Hclose & Hne & _ & Hal & _).
  destruct (Hok k) as [Wf Wa]. eexists _, (checked verifier rv status e).1. split; [done|]. split; [by apply Hclose; auto|].
  rewrite <- Hr. split_and!; [|by apply Hal|intros j Hj'; by rewrite Hne, Ho].
  by destruct (checked_cases verifier rv status e (closes_status _ _ _ _ Hc)) as [[-> _]|[_ ?]].
Qed.

(** What a job that ended ok tells of the node. *)
Definition served (verifier : option verdict) (st : TelemtUpdate) : Prop :=
  Done st = true /\ Outcome st = "updated"%string /\ forall v, verifier = Some v -> v_ok v = true.

(** C26: a job closed as ok means the node serves: the node itself reported the
    update done with the outcome updated, and the panel's verifier, where
    there is one, passed.  With the other writes taken, the recorded version
    of the node is then the one requested and no update is listed for it. *)
Theorem ok_means_serving Poll JobTimeout answers ok verifier id n rv fuel deadline t p p' :
  follow Poll JobTimeout answers ok verifier id n rv fuel deadline 0 t p = Some p' ->
  closed_row id UpdateStatusOK p' -> is_Some (jobs p !! id) -> rv <> EmptyString ->
  versions p !! fn_ID n = Some (TelemtVersion n) -> available p !! fn_ID n = Some (TelemtUpdateAvailable n) -> (forall k w, ok k w = true) ->
  (exists k st, pa_status (answers k) = Ok st /\ served verifier st) /\
  versions p' !! fn_ID n = Some rv /\ available p' !! fn_ID n = Some EmptyString.
Proof.
  intros E Hcl Hj Hrv Hver Hav Hok.
  destruct (follow_shape _ _ _ _ _ _ _ _ _ _ _ _ _ _ E) as (k & st & status & e & q & Hc & -> & Hq & _ & Hv & Ha & _).
  destruct (finish_effect (ok k) verifier id n rv st status e q) as (Hclose & _ & _ & _ & Hrec).
  destruct (Hclose (Hok _ _) (Hq Hj)) as (j' & Ej' & _ & Es'). destruct Hcl as (j & Ej & _ & Es).
  rewrite Ej' in Ej. injection Ej as ->. rewrite Es' in Es.
  destruct (Hrec (Hok _ _) (Hok _ _) Hrv Es) as [R1 R2]. split; [|split; [apply R1|apply R2]; congruence].
  destruct (checked_cases verifier rv status e (closes_status _ _ _ _ Hc)) as [(_ & -> & Hw)|[? _]]; [|done].
  destruct Hc as [(Ea & Hd & Hs)|?]; [|done]. exists k, st. split; [done|]. split_and!; [done| |done].
  by destruct (statusFor_cases st) as [[_ ?]|[? _]].
Qed.

(** The node reports the job of row [j] done and updated. *)
Definition reports (online : bool) (status : result TelemtUpdate) (j : Job) (st : TelemtUpdate) : Prop :=
  online = true /\ status = Ok st /\ Done st = true /\ Outcome st = "updated"%string /\
  (ToVersion st = EmptyString \/ sameUpdateVersion (ToVersion st) (job_to j) = true).

Lemma reconciled_cases JobTimeout now online status j : Dec.min_int64 <= now - job_started j <= Dec.max_int64 ->
  match reconciled JobTimeout now online status j with
  | Leave => now < job_started j + jobTimeout JobTimeout /\ (online = false \/ exists e, status = Err e)
  | Resume deadline => deadline = job_started j + jobTimeout JobTimeout /\ now < deadline
  | Close st s _ => s <> UpdateStatusRunning /\ (s = UpdateStatusOK -> reports online status j st)
  end.
Proof.
  intros Hrange. assert (Hsub : Tm.sub now (job_started j) = now - job_started j) by (unfold Tm.sub; lia).
  unfold reconciled. rewrite Hsub. destruct online; cbn [negb].
  2: { destruct (Z.leb_spec (jobTimeout JobTimeout) (now - job_started j)); [done|]. split; [lia|by left]. }
  destruct status as [st|e].
  2: { destruct (Z.leb_spec (jobTimeout JobTimeout) (now - job_started j)); [done|]. split; [lia|right; by exists e]. }
  destruct (negb (String.eqb (ToVersion st) EmptyString) && negb (sameUpdateVersion (ToVersion st) (job_to j))) eqn:Ev; [done|].
  destruct (Done st) eqn:Ed.
  - split; [by destruct (statusFor_cases st) as [[-> _]|[_ ?]]|]. intros Hs.
    destruct (statusFor_cases st) as [[_ Ho]|[? _]]; [|done]. unfold reports. split_and!; [done..|].
    destruct (String.eqb_spec (ToVersion st) EmptyString); [by left|right]. by destruct (sameUpdateVersion _ _).
  - destruct (negb (String.eqb (Phase st) "running")); [done|].
    destruct (Z.leb_spec (jobTimeout JobTimeout - (now - job_started j)) 0); [done|]. split; lia.
Qed.

(** After a restart of the panel an unfinished job is settled: it is
    followed again, to the deadline it had, or closed with a status other than
    running, or left for the next pass only while its time is not over and the
    node cannot be asked.  It is closed as ok only where the node reports the
    same version, done and updated, and the reservation of the node is kept
    exactly while the job is followed. *)
Theorem reconcile_settles ok verifier JobTimeout now online status n p id j :
  running_job (fn_ID n) (jobs p) = Some (id, j) -> fn_ID n ∉ inFlight p -> ok WFinish = true ->
  Dec.min_int64 <= now - job_started j <= Dec.max_int64 ->
  let '(err, step, p') := Reconcile ok verifier JobTimeout now true online status n p in
  err = None /\
  match step with
  | Follow id' deadline => id' = id /\ deadline = job_started j + jobTimeout JobTimeout /\ now < deadline /\ inFlight p' = {[fn_ID n]} ∪ inFlight p /\ jobs p' = jobs p
  | Nothing => inFlight p' = inFlight p /\
      ((jobs p' = jobs p /\ now < job_started j + jobTimeout JobTimeout /\ (online = false \/ exists e, status = Err e)) \/
       exists s, closed_row id s p' /\ s <> UpdateStatusRunning /\
         (s = UpdateStatusOK -> exists st, reports online status j st /\ served verifier st))
  end.
Proof.
  intros Hrun Hfree Wf Hrange. destruct (running_job_spec _ _ _ _ Hrun) as (Ej & _ & _).
  unfold Reconcile. cbn [negb]. rewrite Hrun. unfold reserve. rewrite bool_decide_false by done. cbn.
  set (p1 := with_flight p _). assert (Hrel : inFlight p1 ∖ {[fn_ID n]} = inFlight p) by (cbn; set_solver).
  pose proof (reconciled_cases JobTimeout now online status j Hrange) as Hc.
  destruct (reconciled JobTimeout now online status j) as [|deadline|st s e]; (split; [done|]).
  - split; [done|]. by left.
  - destruct Hc. by split_and!.
  - destruct (finish_effect ok verifier id n (job_to j) st s e p1) as (Hcl & _ & Hf & _). destruct Hc as [Hs Hst].
    cbn [release with_flight inFlight]. rewrite Hf. split; [done|]. right. exists (checked verifier (job_to j) s e).1.
    split; [by apply Hcl; [done|cbn; rewrite Ej]|]. destruct (checked_cases verifier (job_to j) s e Hs) as [(-> & -> & Hv)|[Hno ?]]; [|done].
    split; [done|]. intros _. exists st. specialize (Hst eq_refl). split; [done|]. by destruct Hst as (_ & _ & ? & ? & _).
Qed.

(** ** A fleet of one node *)

Module Fleet.

Definition node : FleetNode := {| fn_ID := "n1"; TelemtVersion := "3.4.20"; TelemtUpdateAvailable := "3.4.21" |}.

Definition job : Job := {| job_node := "n1"; job_from := "3.4.20"; job_to := "3.4.21"; job_status := UpdateStatusRunning; job_outcome := EmptyString;
  job_error := EmptyString; job_steps := []; job_verification := None; job_finished := false; job_started := 0 |}.

Definition board : panel := {| jobs := {[7 := job]}; versions := {["n1" := "3.4.20"]}%string; available := {["n1" := "3.4.21"]}%string;
  raised := []; inFlight := ∅ |}.

Definition reporting (phase outcome : string) : TelemtUpdate :=
  {| JobId := "u1"; Phase := phase; Outcome := outcome; UpdOk := String.eqb outcome "updated"; RolledBack := false; FromVersion := "3.4.20";
     ToVersion := "v3.4.21"; StartedUnixMs := 1; FinishedUnixMs := 0; UpdError := EmptyString; Drained := true; Steps := [] |}.

(** The node is busy, then out of reach, then done. *)
Definition answers (k : nat) : poll_answer :=
  {| pa_status := match k with O => Ok (reporting "running" EmptyString) | 1%nat => Err "timeout" | _ => Ok (reporting "done" "updated") end;
     pa_took := Tm.second; pa_timer_first := true |}.

Definition silent (k : nat) : poll_answer := {| pa_status := Err "timeout"; pa_took := 20 * Tm.second; pa_timer_first := true |}.

Definition passes : verdict := {| v_ok := true; v_detail := "{}"; v_summary := EmptyString |}.

Definition always (k : nat) (w : write) : bool := true.

End Fleet.

Lemma follow_ends_witness : exists p' status,
  follow 0 0 Fleet.silent Fleet.always None 7 Fleet.node "3.4.21" (S (Z.to_nat ((Tm.minute - 0) / poll 0))) Tm.minute 0 0 Fleet.board = Some p' /\
  closed_row 7 status p' /\ status <> UpdateStatusRunning /\ (raised p' = raised Fleet.board <-> status = UpdateStatusOK) /\
  (forall j, j <> 7 -> jobs p' !! j = jobs Fleet.board !! j).
Proof. apply follow_ends; [by eexists|done]. Defined.

Lemma ok_means_serving_witness : let p' := default Fleet.board (follow 0 0 Fleet.answers Fleet.always (Some Fleet.passes) 7 Fleet.node "3.4.21" 5 Tm.minute 0 0 Fleet.board) in
  (exists k st, pa_status (Fleet.answers k) = Ok st /\ served (Some Fleet.passes) st) /\
  versions p' !! "n1"%string = Some "3.4.21"%string /\ available p' !! "n1"%string = Some EmptyString.
Proof.
  apply (ok_means_serving 0 0 Fleet.answers Fleet.always (Some Fleet.passes) 7 Fleet.node "3.4.21" 5 Tm.minute 0 Fleet.board).
  - vm_compute. reflexivity.
  - eexists. split; [vm_compute; reflexivity|done].
  - by eexists.
  - done.
  - reflexivity.
  - reflexivity.
  - done.
Defined.

Lemma reconcile_settles_witness :
  let '(err, step, p') := Reconcile (Fleet.always 0) None 0 Tm.minute true true (Ok (Fleet.reporting "done" "updated")) Fleet.node Fleet.board in
  err = None /\
  match step with
  | Follow id' deadline => id' = 7 /\ deadline = 0 + jobTimeout 0 /\ Tm.minute < deadline /\ inFlight p' = {["n1"%string]} ∪ inFlight Fleet.board /\ jobs p' = jobs Fleet.board
  | Nothing => inFlight p' = inFlight Fleet.board /\
      ((jobs p' = jobs Fleet.board /\ Tm.minute < 0 + jobTimeout 0 /\ (true = false \/ exists e, Ok (Fleet.reporting "done" "updated") = Err e)) \/
       exists s, closed_row 7 s p' /\ s <> UpdateStatusRunning /\
         (s = UpdateStatusOK -> exists st, reports true (Ok (Fleet.reporting "done" "updated")) Fleet.job st /\ served None st))
  end.
Proof.
  apply (reconcile_settles (Fleet.always 0) None 0 Tm.minute true (Ok (Fleet.reporting "done" "updated")) Fleet.node Fleet.board 7 Fleet.job).
  - vm_compute. reflexivity.
  - done.
  - done.
  - vm_compute. by split.
Defined.

(** A node that stays silent is given up at the deadline, and the panel says
    why. *)
Example silence_is_failure :
  raised <$> follow 0 0 Fleet.silent Fleet.always None 7 Fleet.node "3.4.21" 4 Tm.minute 0 0 Fleet.board =
  Some [("n1", "telemt update ended failed: the node stopped reporting on this update after 30m0s: timeout")]%string.
Proof. vm_compute. reflexivity. Qed.
