(* ===== verification/Tables.v ===== *)
(** * The tables of the panel

    The part of the panel's database the key service and the applies use:
    access keys, profiles, bindings, nodes, sites, subscription links, apply
    jobs and alerts, as finite maps by primary key, with one definition per
    statement of internal/store/db.  A statement that breaks a constraint fails
    and with it the transaction around it; foreign keys cascade as the schema
    says.

    [gen_random_uuid()] and [now()] are arguments.  The text of a jsonb column
    is what the database makes of the text written ([jsonb], whose documented
    property is that its own output is kept). *)

From S2P Require Import Prelude Incidents.

Inductive KeyStatus := StatusPending | StatusActive | StatusRevoked.
Inductive SyncState := SyncPending | SyncSynced | SyncFailed.

#[export] Instance KeyStatus_dec : EqDecision KeyStatus.
Proof. solve_decision. Defined.
#[export] Instance SyncState_dec : EqDecision SyncState.
Proof. solve_decision. Defined.

Class Jsonb := {
  jsonb : string -> string;
  jsonb_idem : forall s, jsonb (jsonb s) = jsonb s
}.

Record AccessKey := {
  k_Label : string; k_OwnerLabel : string; k_Note : string;
  k_Type : string;
  k_SecretEnc : string;
  k_Status : KeyStatus;
  k_CarrierMode : string;
  k_Limits : string;
  k_TelemtLimits : string;
  k_ExpiresAt : option Z;
  k_RevokedAt : option Z;
  k_DisabledAt : option Z;
  k_ExpiredAt : option Z;
  k_SubSlug : option string;
  k_CreatedBy : option string
}.

Record Profile := {
  p_NodeID : string;
  p_KeyID : option string;
  p_Name : string;
  p_SecretEnc : string;
  p_Backend : string;
  p_CarrierMode : string;
  p_Limits : string;
  p_Sync : SyncState;
  p_CreatedAt : Z
}.

Record Node := {
  n_Hostname : string; n_Engine : string;
  n_TlsDomain : string; n_TlsDomains : list string; n_ClassicPort : Z; n_PublicIp : string; n_AdTag : string;
  n_WebPolicy : string; n_WebCapacity : option Z; n_WebAppliedBasePath : string;
  n_TelemtVersion : string; n_AgentVersion : string;
  n_MaxProfiles : Z;
  n_Dirty : bool; n_DirtySeq : Z; n_DirtySince : option Z; n_LastApplyAt : option Z
}.

Record Site := { s_BundleHash : string; s_Bundle : string; s_DeployedHash : option string }.

Record SubToken := { t_KeyID : string; t_Enc : string; t_RevokedAt : option Z }.

Record ApplyJob := { j_NodeID : string; j_Kind : string; j_Status : string; j_Error : string; j_Log : string }.

(** A binding is the profile a key has on a node. *)
Record Store := {
  keys : gmap string AccessKey;
  profiles : gmap string Profile;
  bindings : gmap (string * string) string;
  nodes : gmap string Node;
  sites : gmap string Site;
  tokens : gmap string SubToken;
  jobs : gmap string ApplyJob;
  alerts : list alert
}.

Definition with_keys (s : Store) (m : gmap string AccessKey) : Store :=
  {| keys := m; profiles := profiles s; bindings := bindings s; nodes := nodes s; sites := sites s; tokens := tokens s; jobs := jobs s; alerts := alerts s |}.
Definition with_profiles (s : Store) (m : gmap string Profile) (b : gmap (string * string) string) : Store :=
  {| keys := keys s; profiles := m; bindings := b; nodes := nodes s; sites := sites s; tokens := tokens s; jobs := jobs s; alerts := alerts s |}.
Definition with_nodes (s : Store) (m : gmap string Node) : Store :=
  {| keys := keys s; profiles := profiles s; bindings := bindings s; nodes := m; sites := sites s; tokens := tokens s; jobs := jobs s; alerts := alerts s |}.
Definition with_sites (s : Store) (m : gmap string Site) : Store :=
  {| keys := keys s; profiles := profiles s; bindings := bindings s; nodes := nodes s; sites := m; tokens := tokens s; jobs := jobs s; alerts := alerts s |}.
Definition with_tokens (s : Store) (m : gmap string SubToken) : Store :=
  {| keys := keys s; profiles := profiles s; bindings := bindings s; nodes := nodes s; sites := sites s; tokens := m; jobs := jobs s; alerts := alerts s |}.
Definition with_jobs (s : Store) (m : gmap string ApplyJob) : Store :=
  {| keys := keys s; profiles := profiles s; bindings := bindings s; nodes := nodes s; sites := sites s; tokens := tokens s; jobs := m; alerts := alerts s |}.
Definition with_alerts (s : Store) (l : list alert) : Store :=
  {| keys := keys s; profiles := profiles s; bindings := bindings s; nodes := nodes s; sites := sites s; tokens := tokens s; jobs := jobs s; alerts := l |}.

(** ** Transactions *)

Definition Tx (A : Type) : Type := Store -> result (A * Store).

#[export] Instance Tx_ret : MRet Tx := fun A a s => Ok (a, s).
#[export] Instance Tx_bind : MBind Tx := fun A B k m s =>
  match m s with Ok (a, s) => k a s | Err e => Err e end.

Definition fail {A} (e : error) : Tx A := fun _ => Err e.
Definition read {A} (f : Store -> A) : Tx A := fun s => Ok (f s, s).
Definition modify (f : Store -> Store) : Tx unit := fun s => Ok (tt, f s).
Definition require (b : bool) (e : error) : Tx unit := if b then mret tt else fail e.

(** One statement after another for each item; the first error ends it. *)
Fixpoint each {A} (f : A -> Tx unit) (l : list A) : Tx unit :=
  match l with [] => mret tt | a :: l => _ ← f a; each f l end.

(** [Store.Tx]: a transaction that fails, or that the database could not carry
    through, leaves nothing behind.  A transaction is one step here: the model
    is of transactions that run one after another.  The code runs them READ
    COMMITTED without a lock on the node, where the statements of one may fall
    between those of another; what that changes is run in [ApplySim]
    ([two_bindings_one_place], [deleted_after_listing]). *)
Definition run_tx {A} (fault : option error) (m : Tx A) (s : Store) : result A * Store :=
  match fault with
  | Some e => (Err e, s)
  | None => match m s with Ok (a, s') => (Ok a, s') | Err e => (Err e, s) end
  end.

Definition errNoRows : error := "no rows in result set".
Definition errUnique : error := "duplicate key value violates unique constraint".
Definition errForeign : error := "violates foreign key constraint".

Definition one {A} (o : option A) : Tx A := match o with Some a => mret a | None => fail errNoRows end.

(** ** Nodes *)

Definition GetNode (id : string) : Tx Node := n ← read (fun s => nodes s !! id); one n.

Definition bump (now : Z) (n : Node) : Node :=
  {| n_Hostname := n_Hostname n; n_Engine := n_Engine n; n_TlsDomain := n_TlsDomain n; n_TlsDomains := n_TlsDomains n;
     n_ClassicPort := n_ClassicPort n; n_PublicIp := n_PublicIp n; n_AdTag := n_AdTag n; n_WebPolicy := n_WebPolicy n;
     n_WebCapacity := n_WebCapacity n; n_WebAppliedBasePath := n_WebAppliedBasePath n; n_TelemtVersion := n_TelemtVersion n;
     n_AgentVersion := n_AgentVersion n; n_MaxProfiles := n_MaxProfiles n;
     n_Dirty := true; n_DirtySeq := n_DirtySeq n + 1; n_DirtySince := Some (default now (n_DirtySince n)); n_LastApplyAt := n_LastApplyAt n |}.

(** [SetNodeDirty] with [dirty] true, which is how it is always called. *)
Definition SetNodeDirty (now : Z) (id : string) : Tx unit := modify (fun s => with_nodes s (alter (bump now) id (nodes s))).

Definition applied (now : Z) (n : Node) : Node :=
  {| n_Hostname := n_Hostname n; n_Engine := n_Engine n; n_TlsDomain := n_TlsDomain n; n_TlsDomains := n_TlsDomains n;
     n_ClassicPort := n_ClassicPort n; n_PublicIp := n_PublicIp n; n_AdTag := n_AdTag n; n_WebPolicy := n_WebPolicy n;
     n_WebCapacity := n_WebCapacity n; n_WebAppliedBasePath := n_WebAppliedBasePath n; n_TelemtVersion := n_TelemtVersion n;
     n_AgentVersion := n_AgentVersion n; n_MaxProfiles := n_MaxProfiles n;
     n_Dirty := false; n_DirtySeq := n_DirtySeq n; n_DirtySince := None; n_LastApplyAt := Some now |}.

Definition SetNodeApplied (now : Z) (id : string) (seq : Z) : Tx unit :=
  modify (fun s => with_nodes s (alter (fun n => if n_DirtySeq n =? seq then applied now n else n) id (nodes s))).

Definition with_base_path (path : string) (n : Node) : Node :=
  {| n_Hostname := n_Hostname n; n_Engine := n_Engine n; n_TlsDomain := n_TlsDomain n; n_TlsDomains := n_TlsDomains n;
     n_ClassicPort := n_ClassicPort n; n_PublicIp := n_PublicIp n; n_AdTag := n_AdTag n; n_WebPolicy := n_WebPolicy n;
     n_WebCapacity := n_WebCapacity n; n_WebAppliedBasePath := path; n_TelemtVersion := n_TelemtVersion n;
     n_AgentVersion := n_AgentVersion n; n_MaxProfiles := n_MaxProfiles n;
     n_Dirty := n_Dirty n; n_DirtySeq := n_DirtySeq n; n_DirtySince := n_DirtySince n; n_LastApplyAt := n_LastApplyAt n |}.

Definition SetNodeWebAppliedBasePath (id path : string) : Tx unit :=
  modify (fun s => with_nodes s (alter (with_base_path path) id (nodes s))).

(** ** Profiles and bindings *)

Definition on_node (id : string) (p : Profile) : bool := String.eqb (p_NodeID p) id.
Definition of_key (id : string) (p : Profile) : bool := match p_KeyID p with Some k => String.eqb k id | None => false end.

Definition CountNodeProfiles (id : string) : Tx Z :=
  read (fun s => Z.of_nat (size (filter (fun kv => on_node id kv.2 = true) (profiles s)))).

Definition name_taken (node name : string) (m : gmap string Profile) : bool :=
  existsb (fun kv => on_node node kv.2 && String.eqb (p_Name kv.2) name) (map_to_list m).

Definition CreateProfile `{Jsonb} (id : string) (now : Z) (node : string) (key : option string) (name secret backend carrier limits : string) : Tx string :=
  s ← read (fun s => s);
  _ ← require (bool_decide (profiles s !! id = None)) errUnique;
  _ ← require (negb (name_taken node name (profiles s))) errUnique;
  _ ← require (bool_decide (is_Some (nodes s !! node))) errForeign;
  _ ← require (match key with Some k => bool_decide (is_Some (keys s !! k)) | None => true end) errForeign;
  let p := {| p_NodeID := node; p_KeyID := key; p_Name := name; p_SecretEnc := secret; p_Backend := backend; p_CarrierMode := carrier;
              p_Limits := jsonb limits; p_Sync := SyncPending; p_CreatedAt := now |} in
  _ ← modify (fun s => with_profiles s (<[id := p]> (profiles s)) (bindings s));
  mret id.

Definition CreateBinding (key node profile : string) : Tx unit :=
  s ← read (fun s => s);
  _ ← require (bool_decide (bindings s !! (key, node) = None)) errUnique;
  _ ← require (bool_decide (is_Some (keys s !! key) /\ is_Some (nodes s !! node) /\ is_Some (profiles s !! profile))) errForeign;
  modify (fun s => with_profiles s (profiles s) (<[(key, node) := profile]> (bindings s))).

Definition DeleteBinding (key node : string) : Tx unit :=
  modify (fun s => with_profiles s (profiles s) (delete (key, node) (bindings s))).

(** Deleting profiles takes their bindings along. *)
Definition drop_profiles (keep : string -> Profile -> bool) (s : Store) : Store :=
  let ps := filter (fun kv => keep kv.1 kv.2 = true) (profiles s) in
  with_profiles s ps (filter (fun kv => is_Some (ps !! kv.2)) (bindings s)).

Definition DeleteProfile (id : string) : Tx unit := modify (drop_profiles (fun i _ => negb (String.eqb i id))).
Definition DeleteProfilesByKey (key : string) : Tx unit := modify (drop_profiles (fun _ p => negb (of_key key p))).

Definition ListProfilesByKey (key : string) : Tx (list string) :=
  read (fun s => (map_to_list (filter (fun kv => of_key key kv.2 = true) (profiles s))).*1).

(** The nodes and profiles a key is bound to.  The order of the rows plays no
    part: a key is bound to a node once. *)
Definition ListKeyBindings (key : string) : Tx (list (string * string)) :=
  read (fun s => map (fun kv => (kv.1.2, kv.2))
    (map_to_list (filter (fun kv => kv.1.1 = key /\ is_Some (nodes s !! kv.1.2) /\ is_Some (profiles s !! kv.2)) (bindings s)))).

Definition on_profile (id : string) (f : Profile -> Profile) : Tx unit :=
  modify (fun s => with_profiles s (alter f id (profiles s)) (bindings s)).

Definition UpdateProfileSecret (id secret : string) : Tx unit :=
  on_profile id (fun p => {| p_NodeID := p_NodeID p; p_KeyID := p_KeyID p; p_Name := p_Name p; p_SecretEnc := secret; p_Backend := p_Backend p;
    p_CarrierMode := p_CarrierMode p; p_Limits := p_Limits p; p_Sync := SyncPending; p_CreatedAt := p_CreatedAt p |}).

Definition UpdateProfileSettings `{Jsonb} (id carrier limits : string) : Tx unit :=
  on_profile id (fun p => {| p_NodeID := p_NodeID p; p_KeyID := p_KeyID p; p_Name := p_Name p; p_SecretEnc := p_SecretEnc p; p_Backend := p_Backend p;
    p_CarrierMode := carrier; p_Limits := jsonb limits; p_Sync := SyncPending; p_CreatedAt := p_CreatedAt p |}).

Definition with_sync (st : SyncState) (p : Profile) : Profile :=
  {| p_NodeID := p_NodeID p; p_KeyID := p_KeyID p; p_Name := p_Name p; p_SecretEnc := p_SecretEnc p; p_Backend := p_Backend p;
     p_CarrierMode := p_CarrierMode p; p_Limits := p_Limits p; p_Sync := st; p_CreatedAt := p_CreatedAt p |}.

Definition SetProfilesSyncByIDs (ids : list string) (st : SyncState) : Tx unit :=
  modify (fun s => with_profiles s (map_imap (fun i p => Some (if bool_decide (i ∈ ids) then with_sync st p else p)) (profiles s)) (bindings s)).

(** ** Keys *)

Definition GetKey (id : string) : Tx AccessKey := k ← read (fun s => keys s !! id); one k.

(** The row as it is stored: the other columns take their defaults. *)
Definition stored_key `{Jsonb} (k : AccessKey) : AccessKey :=
  {| k_Label := k_Label k; k_OwnerLabel := k_OwnerLabel k; k_Note := k_Note k; k_Type := k_Type k;
     k_SecretEnc := k_SecretEnc k; k_Status := StatusPending; k_CarrierMode := k_CarrierMode k; k_Limits := jsonb (k_Limits k);
     k_TelemtLimits := jsonb (k_TelemtLimits k); k_ExpiresAt := k_ExpiresAt k; k_RevokedAt := None; k_DisabledAt := None; k_ExpiredAt := None;
     k_SubSlug := None; k_CreatedBy := k_CreatedBy k |}.

Definition CreateKey `{Jsonb} (id : string) (k : AccessKey) : Tx unit :=
  s ← read (fun s => s);
  _ ← require (bool_decide (keys s !! id = None)) errUnique;
  modify (fun s => with_keys s (<[id := stored_key k]> (keys s))).

Definition on_key (id : string) (f : AccessKey -> AccessKey) : Tx unit := modify (fun s => with_keys s (alter f id (keys s))).

Definition set_status (st : KeyStatus) (revoked : option Z) (k : AccessKey) : AccessKey :=
  {| k_Label := k_Label k; k_OwnerLabel := k_OwnerLabel k; k_Note := k_Note k; k_Type := k_Type k; k_SecretEnc := k_SecretEnc k;
     k_Status := st; k_CarrierMode := k_CarrierMode k; k_Limits := k_Limits k; k_TelemtLimits := k_TelemtLimits k;
     k_ExpiresAt := k_ExpiresAt k; k_RevokedAt := revoked; k_DisabledAt := k_DisabledAt k; k_ExpiredAt := k_ExpiredAt k;
     k_SubSlug := k_SubSlug k; k_CreatedBy := k_CreatedBy k |}.

Definition SetKeyStatus (now : Z) (id : string) (st : KeyStatus) : Tx unit :=
  on_key id (fun k => set_status st (if bool_decide (st = StatusRevoked) then Some now else k_RevokedAt k) k).

Definition SetKeySecret (id secret : string) : Tx unit :=
  on_key id (fun k => {| k_Label := k_Label k; k_OwnerLabel := k_OwnerLabel k; k_Note := k_Note k; k_Type := k_Type k; k_SecretEnc := secret;
     k_Status := StatusPending; k_CarrierMode := k_CarrierMode k; k_Limits := k_Limits k; k_TelemtLimits := k_TelemtLimits k;
     k_ExpiresAt := k_ExpiresAt k; k_RevokedAt := None; k_DisabledAt := k_DisabledAt k; k_ExpiredAt := k_ExpiredAt k;
     k_SubSlug := k_SubSlug k; k_CreatedBy := k_CreatedBy k |}).

Definition set_times (expires disabled expired : option Z) (k : AccessKey) : AccessKey :=
  {| k_Label := k_Label k; k_OwnerLabel := k_OwnerLabel k; k_Note := k_Note k; k_Type := k_Type k; k_SecretEnc := k_SecretEnc k;
     k_Status := k_Status k; k_CarrierMode := k_CarrierMode k; k_Limits := k_Limits k; k_TelemtLimits := k_TelemtLimits k;
     k_ExpiresAt := expires; k_RevokedAt := k_RevokedAt k; k_DisabledAt := disabled; k_ExpiredAt := expired;
     k_SubSlug := k_SubSlug k; k_CreatedBy := k_CreatedBy k |}.

Definition SetKeyExpiry (id : string) (expires : option Z) : Tx unit := on_key id (fun k => set_times expires (k_DisabledAt k) None k).
Definition SetKeyDisabled (id : string) (at_ : option Z) : Tx unit := on_key id (fun k => set_times (k_ExpiresAt k) at_ (k_ExpiredAt k) k).
Definition SetKeyExpired (now : Z) (id : string) : Tx unit := on_key id (fun k => set_times (k_ExpiresAt k) (k_DisabledAt k) (Some now) k).

Definition slug_taken (slug id : string) (m : gmap string AccessKey) : bool :=
  existsb (fun kv => negb (String.eqb kv.1 id) && bool_decide (k_SubSlug kv.2 = Some slug)) (map_to_list m).

Definition SetKeySlug (id : string) (slug : option string) : Tx unit :=
  s ← read (fun s => s);
  _ ← require (match slug with Some v => negb (slug_taken v id (keys s)) | None => true end) errUnique;
  on_key id (fun k => {| k_Label := k_Label k; k_OwnerLabel := k_OwnerLabel k; k_Note := k_Note k; k_Type := k_Type k; k_SecretEnc := k_SecretEnc k;
     k_Status := k_Status k; k_CarrierMode := k_CarrierMode k; k_Limits := k_Limits k; k_TelemtLimits := k_TelemtLimits k;
     k_ExpiresAt := k_ExpiresAt k; k_RevokedAt := k_RevokedAt k; k_DisabledAt := k_DisabledAt k; k_ExpiredAt := k_ExpiredAt k;
     k_SubSlug := slug; k_CreatedBy := k_CreatedBy k |}).

Definition updated `{Jsonb} (now : Z) (label owner note : string) (expires : option Z) (carrier limits telemt : string) (k : AccessKey) : AccessKey :=
  {| k_Label := label; k_OwnerLabel := owner; k_Note := note; k_Type := k_Type k; k_SecretEnc := k_SecretEnc k;
     k_Status := k_Status k; k_CarrierMode := carrier; k_Limits := jsonb limits; k_TelemtLimits := jsonb telemt;
     k_ExpiresAt := expires; k_RevokedAt := k_RevokedAt k; k_DisabledAt := k_DisabledAt k;
     k_ExpiredAt := match expires with Some t => if now <? t then None else k_ExpiredAt k | None => None end;
     k_SubSlug := k_SubSlug k; k_CreatedBy := k_CreatedBy k |}.

Definition UpdateKey `{Jsonb} (now : Z) (id label owner note : string) (expires : option Z) (carrier limits telemt : string) : Tx AccessKey :=
  _ ← on_key id (updated now label owner note expires carrier limits telemt); GetKey id.

(** Profiles, bindings and links of the key go with it. *)
Definition DeleteKey (id : string) : Tx unit :=
  modify (fun s =>
    let s := drop_profiles (fun _ p => negb (of_key id p)) s in
    let s := with_profiles s (profiles s) (filter (fun kv => kv.1.1 <> id) (bindings s)) in
    let s := with_tokens s (filter (fun kv => t_KeyID kv.2 <> id) (tokens s)) in
    with_keys s (delete id (keys s))).

(** [ActivatePendingKeysForNode] looks at the keys of every node. *)
Definition all_synced (id : string) (m : gmap string Profile) : bool :=
  let mine := (map_to_list (filter (fun kv => of_key id kv.2 = true) m)).*2 in
  negb (bool_decide (mine = [])) && forallb (fun p => bool_decide (p_Sync p = SyncSynced)) mine.

Definition ActivatePendingKeysForNode : Tx unit :=
  modify (fun s => with_keys s (map_imap (fun id k =>
    Some (if bool_decide (k_Status k = StatusPending) && all_synced id (profiles s) then set_status StatusActive (k_RevokedAt k) k else k)) (keys s))).

Definition ListExpiredActiveKeys (now : Z) : Tx (list string) :=
  read (fun s => (map_to_list (filter (fun kv => (k_Status kv.2 = StatusPending \/ k_Status kv.2 = StatusActive) /\
    match k_ExpiresAt kv.2 with Some t => t <=? now | None => false end = true /\ k_ExpiredAt kv.2 = None) (keys s))).*1).

(** The sealed secrets of the keys that are not revoked and of the profiles
    without a key. *)
Definition ListSecretsInUse : Tx (list string) :=
  read (fun s => (k_SecretEnc <$> (map_to_list (filter (fun kv => k_Status kv.2 <> StatusRevoked) (keys s))).*2) ++
                 (p_SecretEnc <$> (map_to_list (filter (fun kv => p_KeyID kv.2 = None) (profiles s))).*2)).

(** ** Links, jobs, sites and alerts *)

Definition RevokeSubscriptionTokensForKey (now : Z) (key : string) : Tx unit :=
  modify (fun s => with_tokens s ((fun t => if String.eqb (t_KeyID t) key && bool_decide (t_RevokedAt t = None)
    then {| t_KeyID := t_KeyID t; t_Enc := t_Enc t; t_RevokedAt := Some now |} else t) <$> tokens s)).

Definition CreateSubscriptionToken (hash key enc : string) : Tx unit :=
  s ← read (fun s => s);
  _ ← require (bool_decide (tokens s !! hash = None)) errUnique;
  _ ← require (bool_decide (is_Some (keys s !! key))) errForeign;
  modify (fun s => with_tokens s (<[hash := {| t_KeyID := key; t_Enc := enc; t_RevokedAt := None |}]> (tokens s))).

Definition CreateApplyJob (id node kind : string) : Tx string :=
  s ← read (fun s => s);
  _ ← require (bool_decide (jobs s !! id = None)) errUnique;
  _ ← require (bool_decide (is_Some (nodes s !! node))) errForeign;
  _ ← modify (fun s => with_jobs s (<[id := {| j_NodeID := node; j_Kind := kind; j_Status := "running"; j_Error := EmptyString; j_Log := EmptyString |}]> (jobs s)));
  mret id.

Definition FinishApplyJob (id status err log : string) : Tx unit :=
  modify (fun s => with_jobs s (alter (fun j => {| j_NodeID := j_NodeID j; j_Kind := j_Kind j; j_Status := status; j_Error := err; j_Log := log |}) id (jobs s))).

Definition GetNodeSite (node : string) : Tx (option Site) := read (fun s => sites s !! node).

Definition SetNodeSiteDeployed (node hash : string) : Tx unit :=
  modify (fun s => with_sites s (alter (fun x => if String.eqb (s_BundleHash x) hash
    then {| s_BundleHash := s_BundleHash x; s_Bundle := s_Bundle x; s_DeployedHash := Some hash |} else x) node (sites s))).

Definition InsertAlertOnce (node kind msg : string) : Tx unit := modify (fun s => with_alerts s (open_alert node kind msg (alerts s))).
Definition InsertAlert (node kind msg : string) : Tx unit :=
  modify (fun s => with_alerts s (alerts s ++ [{| al_node := node; al_kind := kind; al_message := msg; al_open := true |}])).
Definition ResolveAlerts (node kind : string) : Tx unit := modify (fun s => with_alerts s (ResolveNodeAlerts node kind (alerts s))).

(** ** A profile with its key *)

(** The columns of the key a profile is read with. *)
Record KeyView := { kv_TelemtLimits : string; kv_ExpiresAt : option Z; kv_Status : KeyStatus; kv_DisabledAt : option Z }.

Definition key_view (k : AccessKey) : KeyView :=
  {| kv_TelemtLimits := k_TelemtLimits k; kv_ExpiresAt := k_ExpiresAt k; kv_Status := k_Status k; kv_DisabledAt := k_DisabledAt k |}.

Record ProfileRow := { r_ID : string; r_Profile : Profile; r_Key : option KeyView }.

Definition row_of (s : Store) (id : string) (p : Profile) : ProfileRow :=
  {| r_ID := id; r_Profile := p; r_Key := key ← p_KeyID p; key_view <$> keys s !! key |}.

(** [ORDER BY created_at]; rows of one instant come in any order. *)
Fixpoint insert_row (r : ProfileRow) (l : list ProfileRow) : list ProfileRow :=
  match l with
  | [] => [r]
  | x :: l => if p_CreatedAt (r_Profile r) <=? p_CreatedAt (r_Profile x) then r :: x :: l else x :: insert_row r l
  end.

Definition ListNodeProfilesWithKey `{MapOrder} (node : string) : Tx (list ProfileRow) :=
  read (fun s => fold_right insert_row [] (range_order (map (fun kv => row_of s kv.1 kv.2)
    (map_to_list (filter (fun kv => on_node node kv.2 = true) (profiles s)))))).
