(* ===== verification/Keys.v ===== *)
(** * The key service

    internal/keys: creating, binding, changing, turning off, expiring, revoking
    and importing access keys.  Every operation is one transaction over
    [Tables.Store]; [fault] is the error the database ends it with, if any, and
    then nothing of it remains.

    What is drawn at random is handed in ([draw]): the bytes of a secret, the
    sealed form of a secret and of a token, and the identities of the new rows.
    One clock serves the panel and the database.  The JSON of the limits is the
    text [encoding/json] gives ([LimitsJson]). *)

From S2P Require Import Prelude Regex DomainTypes Crypto Tables.
Import DomainTypes.Types DomainTypes.Names.

Local Open Scope go_scope.

Class LimitsJson := { limits_json : ProfileLimits -> string; telemt_json : TelemtLimits -> string }.

Definition KeyShared : string := "SHARED".
Definition KeyPersonal : string := "PERSONAL".

Definition ErrCapacity : error := "node profile capacity reached".
Definition ErrNotFound : error := "key not found".
Definition ErrRevoked : error := "key is revoked".

(** The entries a [ValidationError] was given, one after another. *)
Definition ValidationError : Type := list (string * string).

Fixpoint insert_entry (e : string * string) (l : list (string * string)) : list (string * string) :=
  match l with
  | [] => [e]
  | x :: l => if String.leb e.1 x.1 then e :: x :: l else x :: insert_entry e l
  end.

(** [fmt] prints a map by key; a later entry of a key replaces an earlier one. *)
Definition validation_error (ve : ValidationError) : error :=
  let m : gmap string string := list_to_map (rev ve) in
  "validation failed: map[" +:+ Str.join " " (map (fun kv => kv.1 +:+ ":" +:+ kv.2) (fold_right insert_entry [] (map_to_list m))) +:+ "]".

(** [^[a-z0-9][a-z0-9-]{1,30}[a-z0-9]$] *)
Definition slugRe : re :=
  Seq (Cls edge_class) (Seq (Cls inner_class) (Seq (upto 29 (Cls inner_class)) (Cls edge_class))).

Definition ValidSlug (s : string) : bool := accepts slugRe s.

Record CreateInput := {
  Label : string; OwnerLabel : string; Note : string;
  Type_ : string;
  CarrierMode : string;
  Limits : ProfileLimits;
  InTelemtLimits : TelemtLimits;
  ExpiresAt : option Z;
  NodeIDs : list string;
  CreatedBy : option string;
  SubSlug : string;
  Secret : string
}.

(** What the operation draws. *)
Record draw := {
  dr_secret : result string;
  dr_seal : string -> result string;
  dr_key : string;
  dr_profile : string -> string;
  dr_token : result string;
  dr_seal_token : string -> result string
}.

Definition drawn {A} (r : result A) : Tx A := fun s => match r with Ok a => Ok (a, s) | Err e => Err e end.

(** [NewSecretHex]: sixteen random bytes in hexadecimal. *)
Definition NewSecretHex (bytes : result string) : result string :=
  match bytes with Ok b => Ok (Hex.encode b) | Err e => Err e end.

Definition HashToken (token : string) : string := Sha.hex token.

Section Service.
Context `{MapOrder} `{Jsonb} `{LimitsJson}.

Definition complaint (bad : bool) (field msg : string) : ValidationError := if bad then [(field, msg)] else [].

Definition validate (now : Z) (requireLabel : bool) (i : CreateInput) : ValidationError :=
  complaint (negb (carrier_mode_valid (CarrierMode i))) "carrier_mode" "https, https-lanes, websocket or websocket-lanes" ++
  complaint (match ExpiresAt i with Some t => t <? now | None => false end) "expires_at" "must be in the future" ++
  complaint (requireLabel && String.eqb (Str.trim_space (Label i)) EmptyString) "label" "required" ++
  match validate_profile_limits (Limits i) with Some e => [("limits", e)] | None => [] end ++
  complaint (bool_decide (NodeIDs i = [])) "node_ids" "bind at least one node" ++
  complaint (negb (String.eqb (SubSlug i) EmptyString) && (negb (ValidSlug (SubSlug i)) || negb (String.eqb (Type_ i) KeyShared)))
    "sub_slug" "3-32 characters: a-z, 0-9 and dashes, shared keys only" ++
  match validate_telemt_limits (InTelemtLimits i) with Some e => [("telemt_limits", e)] | None => [] end ++
  complaint (negb (String.eqb (Type_ i) KeyShared) && negb (String.eqb (Type_ i) KeyPersonal)) "type" "SHARED or PERSONAL".

Definition valid (ve : ValidationError) : Tx unit := require (bool_decide (ve = [])) (validation_error ve).

(** A node the caller named; an unknown one is the caller's mistake. *)
Definition named_node (id : string) : Tx Node :=
  n ← read (fun s => nodes s !! id);
  match n with Some n => mret n | None => fail (validation_error [("node_ids", "unknown node " +:+ id)]) end.

Definition checkCapacity (nodeIDs : list string) (count : Z) : Tx unit :=
  each (fun id =>
    n ← named_node id;
    used ← CountNodeProfiles id;
    require (used + count <=? n_MaxProfiles n)
      (ErrCapacity +:+ ": " +:+ n_Hostname n +:+ " has " +:+ Dec.itoa used +:+ "/" +:+ Dec.itoa (n_MaxProfiles n) +:+ " profiles, only " +:+
       Dec.itoa (n_MaxProfiles n - used) +:+ " free but " +:+ Dec.itoa count +:+ " requested")) nodeIDs.

Definition default_backend : string := "127.0.0.1:2398".

Definition bindTx (now : Z) (pid key : string) (k : AccessKey) (node : string) : Tx unit :=
  n ← named_node node;
  count ← CountNodeProfiles node;
  _ ← require (count <? n_MaxProfiles n)
    (ErrCapacity +:+ ": " +:+ n_Hostname n +:+ " has " +:+ Dec.itoa count +:+ "/" +:+ Dec.itoa (n_MaxProfiles n) +:+ " profiles");
  _ ← CreateProfile pid now node (Some key) (ProfileName key) (k_SecretEnc k) default_backend (k_CarrierMode k) (k_Limits k);
  _ ← CreateBinding key node pid;
  SetNodeDirty now node.

Definition issueSubscriptionTx (now : Z) (d : draw) (key : string) : Tx string :=
  token ← drawn (dr_token d);
  enc ← drawn (dr_seal_token d token);
  _ ← RevokeSubscriptionTokensForKey now key;
  _ ← CreateSubscriptionToken (HashToken token) key enc;
  mret token.

(** The row a new key starts with. *)
Definition new_key (i : CreateInput) (enc : string) : AccessKey :=
  {| k_Label := Label i; k_OwnerLabel := OwnerLabel i; k_Note := Note i; k_Type := Type_ i; k_SecretEnc := enc; k_Status := StatusPending;
     k_CarrierMode := CarrierMode i; k_Limits := limits_json (Limits i); k_TelemtLimits := telemt_json (InTelemtLimits i);
     k_ExpiresAt := ExpiresAt i; k_RevokedAt := None; k_DisabledAt := None; k_ExpiredAt := None; k_SubSlug := None; k_CreatedBy := CreatedBy i |}.

(** A unique violation of the short address is the caller's mistake. *)
Definition take_slug (id slug : string) : Tx unit := fun s =>
  match SetKeySlug id (Some slug) s with
  | Err e => Err (if String.eqb e errUnique then validation_error [("sub_slug", "taken")] else e)
  | r => r
  end.

Definition createTx (now : Z) (d : draw) (i : CreateInput) : Tx string :=
  secret ← drawn (if String.eqb (Secret i) EmptyString then NewSecretHex (dr_secret d) else Ok (Secret i));
  enc ← drawn (dr_seal d secret);
  _ ← CreateKey (dr_key d) (new_key i enc);
  k ← GetKey (dr_key d);
  _ ← each (fun node => bindTx now (dr_profile d node) (dr_key d) k node) (NodeIDs i);
  _ ← issueSubscriptionTx now d (dr_key d);
  _ ← (if String.eqb (SubSlug i) EmptyString then mret tt else take_slug (dr_key d) (SubSlug i));
  mret (dr_key d).

Definition create_body (now : Z) (d : draw) (i : CreateInput) : Tx string :=
  _ ← valid (validate now true i); createTx now d i.

Definition Create (fault : option error) (now : Z) (d : draw) (i : CreateInput) (s : Store) : result string * Store :=
  run_tx fault (create_body now d i) s.

Definition with_label (i : CreateInput) (label owner secret : string) : CreateInput :=
  {| Label := label; OwnerLabel := owner; Note := Note i; Type_ := Type_ i; CarrierMode := CarrierMode i; Limits := Limits i;
     InTelemtLimits := InTelemtLimits i; ExpiresAt := ExpiresAt i; NodeIDs := NodeIDs i; CreatedBy := CreatedBy i; SubSlug := EmptyString; Secret := secret |}.

(** One key after another, as [i] counts them. *)
Fixpoint create_items (now : Z) (draws : nat -> draw) (check : bool) (i : nat) (items : list CreateInput) : Tx (list string) :=
  match items with
  | [] => mret []
  | item :: items =>
      _ ← (if check then valid (validate now true item) else mret tt);
      k ← createTx now (draws i) item;
      ks ← create_items now draws check (S i) items;
      mret (k :: ks)
  end.

Definition batch_items (i : CreateInput) (prefix : string) (count : Z) : list CreateInput :=
  map (fun k => with_label i (prefix +:+ "-" +:+ Dec.itoa (Z.of_nat k)) (OwnerLabel i) (Secret i)) (seq 1 (Z.to_nat count)).

Definition batch_body (now : Z) (draws : nat -> draw) (i : CreateInput) (prefix : string) (count : Z) : Tx (list string) :=
  _ ← require (negb ((count <? 1) || (count >? 100))) (validation_error [("count", "1..100")]);
  _ ← require (negb (String.eqb (Str.trim_space prefix) EmptyString)) (validation_error [("prefix", "required")]);
  _ ← checkCapacity (NodeIDs i) count;
  create_items now draws true 0 (batch_items i prefix count).

Definition CreateBatch (fault : option error) (now : Z) (draws : nat -> draw) (i : CreateInput) (prefix : string) (count : Z) (s : Store)
    : result (list string) * Store := run_tx fault (batch_body now draws i prefix count) s.

(** The key as the caller was told of it; a failed read counts as unknown. *)
Definition known_key (id : string) : Tx AccessKey :=
  k ← read (fun s => keys s !! id);
  match k with Some k => mret k | None => fail ErrNotFound end.

Definition not_revoked (k : AccessKey) : Tx unit :=
  require (negb (bool_decide (k_Status k = StatusRevoked))) (validation_error [("status", "key is revoked")]).

(** [Bind] reads the key before the transaction that uses it. *)
Definition Bind_read (key : string) : Tx AccessKey := k ← known_key key; _ ← not_revoked k; mret k.

Definition Bind (fault : option error) (now : Z) (pid key : string) (k : AccessKey) (node : string) (s : Store) : result unit * Store :=
  run_tx fault (bindTx now pid key k node) s.

Definition unbind_body (now : Z) (key node : string) : Tx unit :=
  bs ← ListKeyBindings key;
  match List.find (fun b => String.eqb b.1 node) bs with
  | None => mret tt
  | Some b =>
      _ ← DeleteBinding key node;
      _ ← DeleteProfile b.2;
      SetNodeDirty now node
  end.

Definition Unbind (fault : option error) (now : Z) (key node : string) := run_tx fault (unbind_body now key node).

Definition dirtyKeyNodes (now : Z) (key : string) : Tx unit :=
  bs ← ListKeyBindings key; each (fun b => SetNodeDirty now b.1) bs.

Definition revoke_body (now : Z) (key : string) : Tx unit :=
  _ ← known_key key;
  _ ← dirtyKeyNodes now key;
  _ ← DeleteProfilesByKey key;
  SetKeyStatus now key StatusRevoked.

Definition Revoke (fault : option error) (now : Z) (key : string) := run_tx fault (revoke_body now key).

Definition rotate_body (now : Z) (d : draw) (key : string) : Tx AccessKey :=
  secret ← drawn (NewSecretHex (dr_secret d));
  enc ← drawn (dr_seal d secret);
  old ← known_key key;
  _ ← not_revoked old;
  _ ← SetKeySecret key enc;
  ps ← ListProfilesByKey key;
  _ ← each (fun p => UpdateProfileSecret p enc) ps;
  _ ← dirtyKeyNodes now key;
  GetKey key.

Definition Rotate (fault : option error) (now : Z) (d : draw) (key : string) := run_tx fault (rotate_body now d key).

Definition delete_body (now : Z) (key : string) : Tx unit := _ ← dirtyKeyNodes now key; DeleteKey key.
Definition Delete (fault : option error) (now : Z) (key : string) := run_tx fault (delete_body now key).

Record UpdateInput := {
  up_Label : string; up_OwnerLabel : string; up_Note : string;
  up_ExpiresAt : option Z;
  up_CarrierMode : string;
  up_Limits : ProfileLimits;
  up_TelemtLimits : TelemtLimits
}.

Definition update_body (now : Z) (key : string) (i : UpdateInput) : Tx AccessKey :=
  _ ← require (negb (String.eqb (Str.trim_space (up_Label i)) EmptyString)) (validation_error [("label", "required")]);
  _ ← require (carrier_mode_valid (up_CarrierMode i)) (validation_error [("carrier_mode", "invalid")]);
  _ ← (match validate_profile_limits (up_Limits i) with Some e => fail (validation_error [("limits", e)]) | None => mret tt end);
  _ ← (match validate_telemt_limits (up_TelemtLimits i) with Some e => fail (validation_error [("telemt_limits", e)]) | None => mret tt end);
  let carrier := up_CarrierMode i in
  let raw := limits_json (up_Limits i) in
  let telemtRaw := telemt_json (up_TelemtLimits i) in
  old ← known_key key;
  k ← UpdateKey now key (up_Label i) (up_OwnerLabel i) (up_Note i) (up_ExpiresAt i) carrier raw telemtRaw;
  if negb (String.eqb (k_CarrierMode old) carrier) || negb (String.eqb (k_Limits old) raw) || negb (String.eqb (k_TelemtLimits old) telemtRaw) then
    ps ← ListProfilesByKey key;
    _ ← each (fun p => UpdateProfileSettings p carrier raw) ps;
    _ ← dirtyKeyNodes now key;
    mret k
  else if negb (bool_decide (k_ExpiresAt old = up_ExpiresAt i)) then
    _ ← dirtyKeyNodes now key;
    mret k
  else mret k.

Definition Update (fault : option error) (now : Z) (key : string) (i : UpdateInput) := run_tx fault (update_body now key i).

Definition extend_body (now : Z) (key : string) (expires : Z) : Tx unit :=
  _ ← require (now <? expires) (validation_error [("expires_at", "must be in the future")]);
  k ← known_key key;
  _ ← not_revoked k;
  _ ← SetKeyExpiry key (Some expires);
  dirtyKeyNodes now key.

Definition Extend (fault : option error) (now : Z) (key : string) (expires : Z) := run_tx fault (extend_body now key expires).

Definition disable_body (now : Z) (key : string) (disabled : bool) : Tx unit :=
  k ← known_key key;
  _ ← not_revoked k;
  if Bool.eqb (bool_decide (is_Some (k_DisabledAt k))) disabled then mret tt
  else
    _ ← SetKeyDisabled key (if disabled then Some now else None);
    dirtyKeyNodes now key.

Definition SetDisabled (fault : option error) (now : Z) (key : string) (disabled : bool) := run_tx fault (disable_body now key disabled).

Definition expire_body (now : Z) (key : string) : Tx unit := _ ← SetKeyExpired now key; dirtyKeyNodes now key.
Definition Expire (fault : option error) (now : Z) (key : string) := run_tx fault (expire_body now key).

(** [Expiry.RunOnce]: each key in a transaction of its own; one that fails is
    left for the next pass. *)
Definition RunOnce (query : bool) (faults : string -> option error) (now : Z) (s : Store) : result Z * Store :=
  if negb query then (Err "store", s)
  else match ListExpiredActiveKeys now s with
  | Err e => (Err e, s)
  | Ok (ids, _) =>
      let '(n, s) := fold_left (fun '(n, s) id => match Expire (faults id) now id s with (Ok _, s) => (n + 1, s) | (Err _, s) => (n, s) end) ids (0, s) in
      (Ok n, s)
  end.

Definition issue_body (now : Z) (d : draw) (key : string) : Tx string :=
  k ← known_key key;
  _ ← require (negb (bool_decide (k_Status k = StatusRevoked))) ErrRevoked;
  issueSubscriptionTx now d key.

Definition IssueSubscription (fault : option error) (now : Z) (d : draw) (key : string) := run_tx fault (issue_body now d key).

Definition slug_body (key slug : string) : Tx unit :=
  _ ← require (String.eqb slug EmptyString || ValidSlug slug) (validation_error [("sub_slug", "3-32 characters: a-z, 0-9 and dashes, not at the ends")]);
  k ← known_key key;
  _ ← require (String.eqb slug EmptyString || String.eqb (k_Type k) KeyShared) (validation_error [("sub_slug", "only shared keys have a short address")]);
  if String.eqb slug EmptyString then SetKeySlug key None else take_slug key slug.

Definition SetSlug (fault : option error) (key slug : string) := run_tx fault (slug_body key slug).

(** ** Import *)

Definition MaxImport : Z := 500.

Record ImportItem := { it_Label : string; it_OwnerLabel : string; it_Secret : string }.

Definition NormalizeSecret (s : string) : string * bool :=
  let s := Str.to_lower (Str.trim_space s) in (s, accepts secretRe s).

Definition item_field (i : nat) : string := "items." +:+ Dec.itoa (Z.of_nat i).

(** The loop over the items from the [i]-th on: the complaints, and the line
    each secret was last seen on. *)
Fixpoint check_items (i : nat) (seen : gmap string nat) (items : list ImportItem) : list (string * string) * gmap string nat :=
  match items with
  | [] => ([], seen)
  | it :: items =>
      let '(secret, ok) := NormalizeSecret (it_Secret it) in
      let '(ve, seen) :=
        if String.eqb (Str.trim_space (it_Label it)) EmptyString then ([(item_field i, "name required"%string)], seen)
        else if negb ok then ([(item_field i, "secret must be 32 hex characters"%string)], seen)
        else (match seen !! secret with
              | Some j => [(item_field i, "same secret as line " +:+ Dec.itoa (Z.of_nat j + 1))]
              | None => []
              end, <[secret := i]> seen) in
      let '(rest, seen) := check_items (S i) seen items in
      (ve ++ rest, seen)
  end.

(** The lines whose secret a live key or profile already has. *)
Definition taken_lines (open_ : string -> result string) (seen : gmap string nat) (used : list string) : list (string * string) :=
  used ≫= (fun enc => match open_ enc with
                      | Ok plain => match seen !! plain with
                                    | Some i => [(item_field i, "secret already belongs to another user"%string)]
                                    | None => []
                                    end
                      | Err _ => []
                      end).

Definition import_items (i : CreateInput) (items : list ImportItem) : list CreateInput :=
  map (fun it => with_label i (Str.trim_space (it_Label it)) (Str.trim_space (it_OwnerLabel it)) (NormalizeSecret (it_Secret it)).1) items.

(** [open_] is the opening of a sealed secret.  An import waits for the
    others. *)
Definition import_body (now : Z) (draws : nat -> draw) (open_ : string -> result string) (i : CreateInput) (items : list ImportItem) : Tx (list string) :=
  _ ← require (negb (bool_decide (items = [])) && (Z.of_nat (length items) <=? MaxImport))
        (validation_error [("items", "1.." +:+ Dec.itoa MaxImport +:+ " users")]);
  let '(ve, seen) := check_items 0 ∅ items in
  _ ← valid ve;
  _ ← (match items with it :: _ => valid (validate now true (with_label i (it_Label it) (OwnerLabel i) (Secret i))) | [] => mret tt end);
  used ← ListSecretsInUse;
  _ ← valid (taken_lines open_ seen used);
  _ ← checkCapacity (NodeIDs i) (Z.of_nat (length items));
  create_items now draws false 0 (import_items i items).

Definition Import (fault : option error) (now : Z) (draws : nat -> draw) (open_ : string -> result string) (i : CreateInput) (items : list ImportItem)
    (s : Store) : result (list string) * Store := run_tx fault (import_body now draws open_ i items) s.

End Service.
