(* ===== verification/Desired.v ===== *)
(** * What a node should be running

    internal/worker/desired.go and internal/nodesvc: the request an apply sends
    to a node, built from the database, and the fingerprint of each profile in
    it.

    Parsing of JSON columns, opening of sealed secrets and base64 are given
    ([DesiredCodec]); the instant of the build is an argument. *)

From S2P Require Import Prelude WebPolicy DomainTypes Capabilities Crypto Tables Keys.
Import WebPolicy.Policy WebPolicy.Capacity DomainTypes.Types.

Local Open Scope go_scope.

#[export] Instance ProfileLimits_dec : EqDecision ProfileLimits.
Proof. solve_decision. Defined.
#[export] Instance TelemtLimits_dec : EqDecision TelemtLimits.
Proof. solve_decision. Defined.

Definition no_limits : ProfileLimits :=
  {| MaxSessions := 0; MaxStreams := 0; MaxBackendDialsInFlight := 0; NewSessionsPerMinute := 0; NewSessionsBurst := 0;
     NewStreamsPerMinute := 0; NewStreamsBurst := 0; MaxStreamsPerSession := 0; MaxPendingPerSession := 0 |}.
Definition no_telemt_limits : TelemtLimits :=
  {| DataQuotaBytes := 0; RateLimitUpBps := 0; RateLimitDownBps := 0; MaxUniqueIPs := 0; MaxTCPConns := 0; DataQuotaPeriod := EmptyString |}.

Class DesiredCodec := {
  limits_of : string -> option ProfileLimits;
  telemt_of : string -> option TelemtLimits;
  policy_of : string -> option WebPolicy;
  files_of : string -> result (list (string * string));
  decodeB64 : string -> result string;
  DecryptString : string -> result string
}.

(** ** nodesvc *)

Definition node_engine_telemt : string := "telemt".

Definition WebPolicyOf `{DesiredCodec} (raw : string) : WebPolicy :=
  if String.eqb raw EmptyString then DefaultWebPolicy else default DefaultWebPolicy (policy_of raw).

Definition WebAdvancedSupported (n : Node) : bool :=
  String.eqb (n_Engine n) node_engine_telemt && VersionAtLeast (n_TelemtVersion n) (3, 5, 14) && VersionAtLeast (n_AgentVersion n) (2, 17, 0).

Definition MinAgentForWebCapacity : string := "2.17.4".
Definition MinAgentForLargeWebCapacity : string := "2.17.5".

(** Why a node cannot take a preset; [EmptyString] when it can. *)
Definition WebCapacityUnsupported (n : Node) : string :=
  if negb (String.eqb (n_Engine n) node_engine_telemt) then "WEB capacity applies to telemt nodes only"
  else if negb (VersionAtLeast (n_AgentVersion n) (2, 17, 4))
  then "WEB capacity needs agent " +:+ MinAgentForWebCapacity +:+ " or newer; run tgwp-agent upgrade on the node first"
  else if negb (VersionAtLeast (n_TelemtVersion n) (3, 5, 14)) then "WEB capacity needs Telemt 3.5.14 or newer; update Telemt on the node first"
  else EmptyString.

Definition WebCapacityPresetUnsupported (n : Node) (capacity : Z) : string :=
  let msg := WebCapacityUnsupported n in
  if negb (String.eqb msg EmptyString) then msg
  else if (capacity >? 1024) && negb (VersionAtLeast (n_AgentVersion n) (2, 17, 5))
  then "WEB capacity above 1024 needs agent " +:+ MinAgentForLargeWebCapacity +:+ " or newer; run tgwp-agent upgrade on the node first"
  else EmptyString.

Definition WebCapacityOf (n : Node) : Z := default 0 (n_WebCapacity n).

(** ** The fingerprint of a profile *)

Definition wrap64 (x : Z) : Z := (x + 2 ^ 63) mod 2 ^ 64 - 2 ^ 63.

Definition status_text (st : KeyStatus) : string :=
  match st with StatusPending => "pending" | StatusActive => "active" | StatusRevoked => "revoked" end.

Definition bool_text (b : bool) : string := if b then "true" else "false".

(** [%v] and a zero byte *)
Definition part (v : string) : string := v +:+ String (ascii_of_nat 0) EmptyString.

Definition revision_input (r : ProfileRow) : string :=
  let p := r_Profile r in
  part (p_Name p) +:+ part (p_Backend p) +:+ part (p_CarrierMode p) +:+
  p_SecretEnc p +:+ p_Limits p +:+ (match r_Key r with Some k => kv_TelemtLimits k | None => EmptyString end) +:+
  part (match (match r_Key r with Some k => kv_ExpiresAt k | None => None end) with Some t => Dec.itoa (wrap64 t) | None => "no-expiry" end) +:+
  (match r_Key r with
   | Some k => part (status_text (kv_Status k)) +:+ part (bool_text (bool_decide (is_Some (kv_DisabledAt k))))
   | None => part "no-key"
   end).

Definition profileRevision (r : ProfileRow) : string := Sha.hex (revision_input r).

(** Of the profiles sent, those whose row still has the fingerprint it was
    sent with. *)
Definition ProfilesStillAtRevision `{MapOrder} (node : string) (sent : gmap string string) : Tx (list string) :=
  rows ← ListNodeProfilesWithKey node;
  mret (r_ID <$> List.filter (fun r => match sent !! r_ID r with Some rev => String.eqb rev (profileRevision r) | None => false end) rows).

Definition profileEnabled (r : ProfileRow) (now : Z) : bool :=
  match r_Key r with
  | None => true
  | Some k =>
      if bool_decide (kv_Status k = StatusRevoked) || bool_decide (is_Some (kv_DisabledAt k)) then false
      else match kv_ExpiresAt k with None => true | Some t => now <? t end
  end.

(** ** The request *)

(** [nodedriver.Profile] *)
Record SentProfile := {
  sp_Name : string; sp_Secret : string; sp_Backend : string; sp_CarrierMode : string;
  sp_Limits : option ProfileLimits;
  sp_Telemt : option TelemtLimits;
  sp_ExpiresAt : option Z;
  sp_Enabled : bool;
  sp_QuotaResetAt : option Z
}.

Record ApplyRequest := {
  ApplyProfiles : bool;
  Profiles : list SentProfile;
  MTProxySecrets : list string;
  ar_Site : option (gmap string string);
  TLSDomain : string; TLSDomains : list string; ClassicPort : Z; PublicIP : string; AdTag : string;
  ar_WebPolicy : option WebPolicy;
  ManagedWebHost : string;
  ar_WebCapacity : Z;
  MaxProfiles : Z
}.

Record DesiredState := {
  Req : ApplyRequest;
  ProfileIDs : list string;
  Revisions : gmap string string;
  DirtySeq : Z;
  SiteHash : string
}.

Definition uint32 (x : Z) : Z := x mod 2 ^ 32.

(** The profiles called default first, the others after them in their order. *)
Definition default_first (rows : list ProfileRow) : list ProfileRow :=
  let is_default r := String.eqb (p_Name (r_Profile r)) "default" in
  List.filter is_default rows ++ List.filter (fun r => negb (is_default r)) rows.

Section Desired.
Context `{MapOrder} `{DesiredCodec}.

(** Limits that are absent, unreadable or all zero are not sent. *)
Definition sent_limits (raw : string) : option ProfileLimits :=
  if String.eqb raw EmptyString || String.eqb raw "{}" then None
  else match limits_of raw with
       | Some l => if bool_decide (l = no_limits) then None else Some l
       | None => None
       end.

Definition sent_telemt (r : ProfileRow) : option TelemtLimits :=
  match r_Key r with
  | None => None
  | Some k =>
      if String.eqb (kv_TelemtLimits k) EmptyString then None
      else match telemt_of (kv_TelemtLimits k) with
           | Some t => if bool_decide (t = no_telemt_limits) then None else Some t
           | None => None
           end
  end.

Definition quota_reset (now : Z) (t : option TelemtLimits) : option Z :=
  match t with
  | Some t =>
      if DataQuotaBytes t >? 0 then
        let start := Quota.Start (DataQuotaPeriod t) now in
        if Tm.is_zero start then None else Some start
      else None
  | None => None
  end.

Definition row_expiry (r : ProfileRow) : option Z := match r_Key r with Some k => kv_ExpiresAt k | None => None end.

(** One profile as it is sent. *)
Definition send_profile (now : Z) (r : ProfileRow) (secret : string) : SentProfile :=
  let p := r_Profile r in
  {| sp_Name := p_Name p; sp_Secret := secret; sp_Backend := p_Backend p; sp_CarrierMode := p_CarrierMode p;
     sp_Limits := sent_limits (p_Limits p); sp_Telemt := sent_telemt r; sp_ExpiresAt := row_expiry r;
     sp_Enabled := profileEnabled r now; sp_QuotaResetAt := quota_reset now (sent_telemt r) |}.

(** The loop over the rows: the profiles, and the secrets of the enabled ones,
    each once. *)
Fixpoint send_profiles (now : Z) (seen : gset string) (rows : list ProfileRow) : result (list SentProfile * list string) :=
  match rows with
  | [] => Ok ([], [])
  | r :: rows =>
      match DecryptString (p_SecretEnc (r_Profile r)) with
      | Err e => Err ("decrypt profile " +:+ p_Name (r_Profile r) +:+ ": " +:+ e)
      | Ok secret =>
          let prof := send_profile now r secret in
          let new := sp_Enabled prof && negb (bool_decide (secret ∈ seen)) in
          let? (ps, ss) := send_profiles now (if new then {[secret]} ∪ seen else seen) rows in
          Ok (prof :: ps, if new then secret :: ss else ss)
      end
  end.

(** The part of the request that only a telemt node has. *)
Definition telemt_request (n : Node) : result ApplyRequest :=
  let policy := WebPolicyOf (n_WebPolicy n) in
  if HasAdvancedOptions policy && negb (WebAdvancedSupported n)
  then Err "advanced WEB options require Telemt 3.5.14 and agent 2.17.0 or newer"
  else
    let capacity := WebCapacityOf n in
    let msg := WebCapacityPresetUnsupported n capacity in
    let req cap := Ok {| ApplyProfiles := true; Profiles := []; MTProxySecrets := []; ar_Site := None; TLSDomain := n_TlsDomain n; TLSDomains := n_TlsDomains n;
      ClassicPort := uint32 (n_ClassicPort n); PublicIP := n_PublicIp n; AdTag := n_AdTag n; ar_WebPolicy := Some policy;
      ManagedWebHost := n_Hostname n; ar_WebCapacity := cap; MaxProfiles := uint32 (n_MaxProfiles n) |} in
    if capacity =? 0 then req 0
    else if String.eqb msg EmptyString then req (uint32 capacity)
    else if negb (capacity =? WebCapacityStandard) then Err msg
    else req 0.

Definition plain_request : ApplyRequest :=
  {| ApplyProfiles := true; Profiles := []; MTProxySecrets := []; ar_Site := None; TLSDomain := EmptyString; TLSDomains := []; ClassicPort := 0; PublicIP := EmptyString;
     AdTag := EmptyString; ar_WebPolicy := None; ManagedWebHost := EmptyString; ar_WebCapacity := 0; MaxProfiles := 0 |}.

Definition base_request (n : Node) : result ApplyRequest :=
  if String.eqb (n_Engine n) node_engine_telemt then telemt_request n else Ok plain_request.

Definition with_profiles_of (r : ApplyRequest) (ps : list SentProfile) (ss : list string) (site : option (gmap string string)) : ApplyRequest :=
  {| ApplyProfiles := ApplyProfiles r; Profiles := ps; MTProxySecrets := ss; ar_Site := site; TLSDomain := TLSDomain r; TLSDomains := TLSDomains r; ClassicPort := ClassicPort r;
     PublicIP := PublicIP r; AdTag := AdTag r; ar_WebPolicy := ar_WebPolicy r; ManagedWebHost := ManagedWebHost r;
     ar_WebCapacity := ar_WebCapacity r; MaxProfiles := MaxProfiles r |}.

Fixpoint decode_files (files : list (string * string)) : result (gmap string string) :=
  match files with
  | [] => Ok ∅
  | (p, b64) :: files =>
      match decodeB64 b64 with
      | Err e => Err ("site file " +:+ p +:+ ": " +:+ e)
      | Ok raw => let? m := decode_files files in Ok (<[p := raw]> m)
      end
  end.

(** A site that is not deployed yet, with its hash. *)
Definition site_to_send (s : option Site) : result (option (gmap string string) * string) :=
  match s with
  | None => Ok (None, EmptyString)
  | Some s =>
      if bool_decide (s_DeployedHash s = Some (s_BundleHash s)) then Ok (None, EmptyString)
      else match files_of (s_Bundle s) with
      | Err e => Err ("site bundle: " +:+ e)
      | Ok files => let? m := decode_files (range_order files) in Ok (Some m, s_BundleHash s)
      end
  end.

(** From what was read: the node, its rows, and its site. *)
Definition build (now : Z) (n : Node) (rows : list ProfileRow) (site : option Site) : result DesiredState :=
  let rows := default_first rows in
  let? base := base_request n in
  let? (ps, ss) := send_profiles now ∅ rows in
  let? (files, hash) := site_to_send site in
  Ok {| Req := with_profiles_of base ps ss files; ProfileIDs := r_ID <$> rows;
        Revisions := list_to_map (rev (map (fun r => (r_ID r, profileRevision r)) rows));
        DirtySeq := n_DirtySeq n; SiteHash := hash |}.

(** [desiredState]: three reads, one after another. *)
Definition desiredState (now : Z) (node : string) : Tx DesiredState :=
  n ← GetNode node;
  rows ← ListNodeProfilesWithKey node;
  site ← GetNodeSite node;
  drawn (build now n rows site).

End Desired.
