(* ===== verification/Convert.v ===== *)
(** * Between the panel's types and the messages to the agent

    internal/nodedriver: convert.go, webconvert.go, update.go and the
    conversions of firewall.go and gateway.go.  Go's integer conversions keep
    the low bits ([Module Int]), so each round trip holds for the values that
    fit the field of the message, and the theorems say which those are.

    [Desired.SentProfile] and [Desired.ApplyRequest] are nodedriver.Profile and
    nodedriver.ApplyRequest.  An instant is in nanoseconds; a message carries
    whole seconds or milliseconds. *)

From Stdlib Require Import SpecFloat.
From stdpp Require Import sorting.
From S2P Require Import Prelude WebPolicy DomainTypes AgentProto Desired.

Local Open Scope go_scope.

(** ** Integers of a width *)

Module Int.

Definition signed (w x : Z) : Z := (x + 2 ^ (w - 1)) mod 2 ^ w - 2 ^ (w - 1).
Definition unsigned (w x : Z) : Z := x mod 2 ^ w.

Definition int32 : Z -> Z := signed 32.
Definition int64 : Z -> Z := signed 64.
Definition uint32 : Z -> Z := unsigned 32.
Definition uint64 : Z -> Z := unsigned 64.

Definition is_int32 (x : Z) : Prop := - 2 ^ 31 <= x < 2 ^ 31.
Definition is_int64 (x : Z) : Prop := - 2 ^ 63 <= x < 2 ^ 63.
Definition is_uint32 (x : Z) : Prop := 0 <= x < 2 ^ 32.
Definition is_uint64 (x : Z) : Prop := 0 <= x < 2 ^ 64.

#[export] Instance is_int32_dec x : Decision (is_int32 x).
Proof. unfold is_int32. apply _. Defined.
#[export] Instance is_uint32_dec x : Decision (is_uint32 x).
Proof. unfold is_uint32. apply _. Defined.

Lemma int32_id x : is_int32 x -> int32 x = x.
Proof. unfold is_int32, int32, signed. intros H. rewrite Z.mod_small; lia. Qed.
Lemma int64_id x : is_int64 x -> int64 x = x.
Proof. unfold is_int64, int64, signed. intros H. rewrite Z.mod_small; lia. Qed.
Lemma uint32_id x : is_uint32 x -> uint32 x = x.
Proof. apply Z.mod_small. Qed.
Lemma uint64_id x : is_uint64 x -> uint64 x = x.
Proof. apply Z.mod_small. Qed.

Lemma int32_range x : is_int32 (int32 x).
Proof. unfold is_int32, int32, signed. pose proof (Z.mod_pos_bound (x + 2 ^ (32 - 1)) (2 ^ 32) eq_refl). lia. Qed.

End Int.
Import Int.

(** ** Profiles *)

Definition unix (t : Z) : Z := t / Tm.second.

Definition limits_to_proto (l : Types.ProfileLimits) : Pb.ProfileLimits :=
  {| Pb.MaxSessions := int32 (Types.MaxSessions l); Pb.MaxStreams := int32 (Types.MaxStreams l);
     Pb.MaxBackendDialsInFlight := int32 (Types.MaxBackendDialsInFlight l);
     Pb.NewSessionsPerMinute := int32 (Types.NewSessionsPerMinute l); Pb.NewSessionsBurst := int32 (Types.NewSessionsBurst l);
     Pb.NewStreamsPerMinute := int32 (Types.NewStreamsPerMinute l); Pb.NewStreamsBurst := int32 (Types.NewStreamsBurst l);
     Pb.MaxStreamsPerSession := int32 (Types.MaxStreamsPerSession l); Pb.MaxPendingPerSession := int32 (Types.MaxPendingPerSession l) |}.

Definition limits_from_proto (l : Pb.ProfileLimits) : Types.ProfileLimits :=
  {| Types.MaxSessions := Pb.MaxSessions l; Types.MaxStreams := Pb.MaxStreams l;
     Types.MaxBackendDialsInFlight := Pb.MaxBackendDialsInFlight l;
     Types.NewSessionsPerMinute := Pb.NewSessionsPerMinute l; Types.NewSessionsBurst := Pb.NewSessionsBurst l;
     Types.NewStreamsPerMinute := Pb.NewStreamsPerMinute l; Types.NewStreamsBurst := Pb.NewStreamsBurst l;
     Types.MaxStreamsPerSession := Pb.MaxStreamsPerSession l; Types.MaxPendingPerSession := Pb.MaxPendingPerSession l |}.

Definition ProfileToProto (p : SentProfile) : Pb.Profile :=
  let t f := match sp_Telemt p with Some t => f t | None => 0 end in
  {| Pb.Name := sp_Name p; Pb.Secret := sp_Secret p; Pb.Backend := sp_Backend p; Pb.CarrierMode := sp_CarrierMode p;
     Pb.Limits := limits_to_proto <$> sp_Limits p;
     Pb.DataQuotaBytes := uint64 (t Types.DataQuotaBytes); Pb.RateLimitUpBps := uint64 (t Types.RateLimitUpBps);
     Pb.RateLimitDownBps := uint64 (t Types.RateLimitDownBps);
     Pb.MaxUniqueIps := uint32 (t Types.MaxUniqueIPs); Pb.MaxTcpConns := uint32 (t Types.MaxTCPConns);
     Pb.ExpiresAtUnix := match sp_ExpiresAt p with Some t => unix t | None => 0 end;
     Pb.Enabled := sp_Enabled p;
     Pb.QuotaResetUnix := match sp_QuotaResetAt p with Some t => unix t | None => 0 end |}.

(** An instant of whole seconds; zero stands for none. *)
Definition at_unix (v : Z) : option Z := if v =? 0 then None else Some (v * Tm.second).

Definition ProfileFromProto (p : Pb.Profile) : SentProfile :=
  let tl := {| Types.DataQuotaBytes := int64 (Pb.DataQuotaBytes p); Types.RateLimitUpBps := int64 (Pb.RateLimitUpBps p);
               Types.RateLimitDownBps := int64 (Pb.RateLimitDownBps p); Types.MaxUniqueIPs := Pb.MaxUniqueIps p;
               Types.MaxTCPConns := Pb.MaxTcpConns p; Types.DataQuotaPeriod := EmptyString |} in
  {| sp_Name := Pb.Name p; sp_Secret := Pb.Secret p; sp_Backend := Pb.Backend p; sp_CarrierMode := Pb.CarrierMode p;
     sp_Limits := limits_from_proto <$> Pb.Limits p;
     sp_Telemt := if bool_decide (tl = no_telemt_limits) then None else Some tl;
     sp_ExpiresAt := at_unix (Pb.ExpiresAtUnix p); sp_Enabled := Pb.Enabled p;
     sp_QuotaResetAt := at_unix (Pb.QuotaResetUnix p) |}.

(** ** The site and the WEB policy *)

Definition SiteToProto `{MapOrder} (s : gmap string string) : Pb.SiteBundle := range_order (map_to_list s).
Definition SiteFromProto (s : Pb.SiteBundle) : gmap string string := list_to_map (reverse s).

Definition timeouts_to_proto (t : Policy.WebTimeouts) : Pb.WebTimeouts :=
  {| Pb.NegotiationDeadlinesSecs := int32 <$> Policy.NegotiationDeadlinesSecs t;
     Pb.CarrierHealthSecs := int32 (Policy.CarrierHealthSecs t); Pb.CarrierLearningSecs := int32 (Policy.CarrierLearningSecs t);
     Pb.BridgeRequestSecs := int32 (Policy.BridgeRequestSecs t); Pb.BridgeRetrySecs := int32 (Policy.BridgeRetrySecs t);
     Pb.ProbeCoalesceMs := int32 (Policy.ProbeCoalesceMs t) |}.

Definition WebPolicyToProto (p : option Policy.WebPolicy) : option Pb.WebPolicy :=
  (fun p =>
    {| Pb.Carrier := Policy.Carrier p; Pb.Carriers := default [] (Policy.Carriers p);
       Pb.CarrierLearning := Policy.CarrierLearning p; Pb.Aggressiveness := Policy.Aggressiveness p;
       Pb.Timeouts := Some (timeouts_to_proto (Policy.Timeouts p));
       Pb.ConnectionCapacityAction := Policy.connection_capacity_action (Policy.Overload p);
       Pb.CarrierMethod := Policy.CarrierMethod p; Pb.Conveyor := Policy.Conveyor p; Pb.BasePath := Policy.BasePath p;
       Pb.DecoyResolve := Policy.DecoyResolve p |}) <$> p.

Definition PresetCustom : string := "custom".
Definition OverloadCustom : string := "custom".

Definition timeouts_from_proto (t : option Pb.WebTimeouts) : Policy.WebTimeouts :=
  let get f := match t with Some t => f t | None => 0 end in
  {| Policy.NegotiationDeadlinesSecs := match t with Some t => Pb.NegotiationDeadlinesSecs t | None => [] end;
     Policy.CarrierHealthSecs := get Pb.CarrierHealthSecs; Policy.CarrierLearningSecs := get Pb.CarrierLearningSecs;
     Policy.BridgeRequestSecs := get Pb.BridgeRequestSecs; Policy.BridgeRetrySecs := get Pb.BridgeRetrySecs;
     Policy.ProbeCoalesceMs := get Pb.ProbeCoalesceMs |}.

Definition WebPolicyFromProto (p : option Pb.WebPolicy) : option Policy.WebPolicy :=
  (fun p =>
    let action := Pb.ConnectionCapacityAction p in
    {| Policy.CarrierMethod := Pb.CarrierMethod p; Policy.Conveyor := Pb.Conveyor p; Policy.BasePath := Pb.BasePath p;
       Policy.DecoyResolve := Pb.DecoyResolve p; Policy.Preset := PresetCustom; Policy.Carrier := Pb.Carrier p;
       Policy.Carriers := match Pb.Carriers p with [] => None | l => Some l end;
       Policy.CarrierLearning := Pb.CarrierLearning p; Policy.Aggressiveness := Pb.Aggressiveness p;
       Policy.Overload := {| Policy.overload_preset := OverloadCustom;
         Policy.connection_capacity_action := if String.eqb action EmptyString
           then Policy.connection_capacity_action (Policy.Overload Policy.DefaultWebPolicy) else action |};
       Policy.Timeouts := timeouts_from_proto (Pb.Timeouts p) |}) <$> p.

(** ** The request and its answer *)

Definition apply_request `{MapOrder} (r : ApplyRequest) : Pb.ApplyRequest :=
  {| Pb.ApplyProfiles := ApplyProfiles r; Pb.Profiles := ProfileToProto <$> Profiles r; Pb.MtproxySecrets := MTProxySecrets r;
     Pb.Site := SiteToProto <$> ar_Site r; Pb.TlsDomain := TLSDomain r; Pb.ClassicPort := ClassicPort r; Pb.PublicIp := PublicIP r;
     Pb.AdTag := AdTag r; Pb.RWebPolicy := WebPolicyToProto (ar_WebPolicy r); Pb.ManagedWebHost := ManagedWebHost r;
     Pb.TlsDomains := TLSDomains r; Pb.WebCapacity := ar_WebCapacity r; Pb.MaxProfiles := MaxProfiles r |}.

(** [applyResultFrom]: the answer, if there was one, and the error of the call. *)
Definition applyResultFrom (resp : option Pb.ApplyResult) (err : option error) : option Pb.ApplyResult * option error :=
  match resp with
  | Some a => (Some a, match err with Some e => Some e | None => if Pb.Ok_ a then None else Some "apply failed on node"%string end)
  | None => (None, match err with Some e => Some e | None => Some "empty apply response"%string end)
  end.

(** ** Health and WEB telemetry *)

Module Driver.

Record WebCounterSample := { Carrier : string; Label : string; Phase : string; Value : spec_float }.
Record WebCounterFamily := { Samples : list WebCounterSample }.

Record WebLearningState := {
  Enabled : bool; PolicyGeneration : Z; LearningEpoch : Z; Entries : Z; Capacity : Z;
  LifetimeSecs : Z; HealthSecs : Z; LearningAgeMs : Z
}.
Record WebDrainState := {
  OperationID : string; DrainState : string; Outcome : string; TimeoutSecs : Z;
  StartedEpochMillis : Z; DeadlineEpochMillis : Z;
  RemainingSessions : Z; RemainingStreams : Z; RemainingWebsockets : Z; ForceCloseSignalled : bool
}.
Record WebLifecycleState := {
  State : string; Epoch : Z; AgeMs : Z; AdmissionOpen : bool; EffectiveNewWorkAdmission : bool; Drain : option WebDrainState
}.
Record WebCapacityResource := { Resource : string; Unit : string; Used : Z; Available : Z; Limit : Z; Closed : bool }.
Record WebCapacityState := {
  ConnectionCapacityAction : string; MaxHTTPOverloadConnections : Z; HTTPOverloadTimeoutMs : Z;
  Resources : list WebCapacityResource; SaturatedResources : list string; Partial : list string;
  OverloadOutcomes : option WebCounterFamily
}.
Record WebRuntimeState := {
  RuntimeInstance : string; CarrierNegotiation : bool;
  Learning : option WebLearningState; Lifecycle : option WebLifecycleState; RuntimeCapacity : option WebCapacityState
}.
Record WebTelemetry := {
  CarrierSelections : option WebCounterFamily; CarrierFailures : option WebCounterFamily;
  LearningOutcomes : option WebCounterFamily; LearningEntries : option WebCounterFamily;
  Rejections : option WebCounterFamily; SessionClosures : option WebCounterFamily; BridgeRecovery : option WebCounterFamily;
  Runtime : option WebRuntimeState
}.

(** A nil value is a capability the probe could not settle; a nil map is no
    report. *)
Definition TelemtCapabilities : Type := gmap string (option bool).

Record DcLatency := { DC : Z; LatencyMs : spec_float; Known : bool; IPPreference : string }.
Record FirewallCounter := { Entry : string; Packets : Z; Bytes : Z }.
Record FirewallStatus := {
  Revision : Z; FwEntries : Z; DroppedPackets : Z; DroppedBytes : Z; Counters : list FirewallCounter; FwError : string
}.

Record HealthReport := {
  Reliability : string;
  RelayActive : bool; MTProxyActive : bool; CaddyActive : bool; Healthz : bool; Readyz : bool;
  TProxyVersion : string; AgentVersion : string;
  UptimeSeconds : Z;
  CPUPercent : spec_float; MemUsedPercent : spec_float; DiskUsedPercent : spec_float;
  ProfileCount : Z;
  CPUUtilisationPercent : option spec_float;
  LoadAverage1 : option spec_float; LoadAverage5 : option spec_float; LoadAverage15 : option spec_float;
  DCs : list DcLatency;
  UpstreamHealthy : bool; UpstreamFails : Z; EffectiveLatencyMs : spec_float;
  ConnectSuccessTotal : Z; ConnectFailTotal : Z; UpstreamLastCheckAgeSecs : Z; DcDataAvailable : bool;
  Web : option WebTelemetry;
  Firewall : option FirewallStatus;
  Capabilities : option TelemtCapabilities;
  TelemtBuild : string;
  HrWebCapacity : Z; MaxConnections : Z
}.

(** [Total] and [Get]; no value is "absent". *)
Definition Total (f : option WebCounterFamily) : option spec_float :=
  (fun f => fold_left (fun v s => SFadd 53 1024 v (Value s)) (Samples f) (S754_zero false)) <$> f.

Definition Get (f : option WebCounterFamily) (carrier label : string) : option spec_float :=
  f ← f;
  Value <$> List.find (fun s => String.eqb (Carrier s) carrier && String.eqb (Label s) label) (Samples f).

(** The value of a capability, when it was settled. *)
Definition Determined (c : TelemtCapabilities) (name : string) : option bool := mjoin (c !! name).

End Driver.

Definition webFamilyFromProto (f : option PbHealth.WebCounterFamily) : option Driver.WebCounterFamily :=
  (fun f => {| Driver.Samples :=
     (fun s => {| Driver.Carrier := PbHealth.Carrier s; Driver.Label := PbHealth.Label s; Driver.Phase := PbHealth.Phase s;
                  Driver.Value := PbHealth.Value s |}) <$> (f : list PbHealth.WebCounterSample) |}) <$> f.

Definition webFamilyToProto (f : option Driver.WebCounterFamily) : option PbHealth.WebCounterFamily :=
  (fun f =>
     (fun s => {| PbHealth.Carrier := Driver.Carrier s; PbHealth.Label := Driver.Label s; PbHealth.Phase := Driver.Phase s;
                  PbHealth.Value := Driver.Value s |}) <$> Driver.Samples f) <$> f.

Definition learning_from_proto (l : PbHealth.WebLearningState) : Driver.WebLearningState :=
  {| Driver.Enabled := PbHealth.Enabled l; Driver.PolicyGeneration := PbHealth.PolicyGeneration l;
     Driver.LearningEpoch := PbHealth.LearningEpoch l; Driver.Entries := PbHealth.Entries l; Driver.Capacity := PbHealth.Capacity l;
     Driver.LifetimeSecs := PbHealth.LifetimeSecs l; Driver.HealthSecs := PbHealth.HealthSecs l;
     Driver.LearningAgeMs := PbHealth.LearningAgeMs l |}.

Definition learning_to_proto (l : Driver.WebLearningState) : PbHealth.WebLearningState :=
  {| PbHealth.Enabled := Driver.Enabled l; PbHealth.PolicyGeneration := Driver.PolicyGeneration l;
     PbHealth.LearningEpoch := Driver.LearningEpoch l; PbHealth.Entries := int32 (Driver.Entries l);
     PbHealth.Capacity := int32 (Driver.Capacity l);
     PbHealth.LifetimeSecs := Driver.LifetimeSecs l; PbHealth.HealthSecs := Driver.HealthSecs l;
     PbHealth.LearningAgeMs := Driver.LearningAgeMs l |}.

Definition drain_from_proto (d : PbHealth.WebDrainState) : Driver.WebDrainState :=
  {| Driver.OperationID := PbHealth.OperationId d; Driver.DrainState := PbHealth.DrainState d; Driver.Outcome := PbHealth.Outcome d;
     Driver.TimeoutSecs := PbHealth.TimeoutSecs d; Driver.StartedEpochMillis := PbHealth.StartedEpochMillis d;
     Driver.DeadlineEpochMillis := PbHealth.DeadlineEpochMillis d; Driver.RemainingSessions := PbHealth.RemainingSessions d;
     Driver.RemainingStreams := PbHealth.RemainingStreams d; Driver.RemainingWebsockets := PbHealth.RemainingWebsockets d;
     Driver.ForceCloseSignalled := PbHealth.ForceCloseSignalled d |}.

Definition drain_to_proto (d : Driver.WebDrainState) : PbHealth.WebDrainState :=
  {| PbHealth.OperationId := Driver.OperationID d; PbHealth.DrainState := Driver.DrainState d; PbHealth.Outcome := Driver.Outcome d;
     PbHealth.TimeoutSecs := int32 (Driver.TimeoutSecs d); PbHealth.StartedEpochMillis := Driver.StartedEpochMillis d;
     PbHealth.DeadlineEpochMillis := Driver.DeadlineEpochMillis d; PbHealth.RemainingSessions := Driver.RemainingSessions d;
     PbHealth.RemainingStreams := Driver.RemainingStreams d; PbHealth.RemainingWebsockets := Driver.RemainingWebsockets d;
     PbHealth.ForceCloseSignalled := Driver.ForceCloseSignalled d |}.

Definition lifecycle_from_proto (l : PbHealth.WebLifecycleState) : Driver.WebLifecycleState :=
  {| Driver.State := PbHealth.State l; Driver.Epoch := PbHealth.Epoch l; Driver.AgeMs := PbHealth.AgeMs l;
     Driver.AdmissionOpen := PbHealth.AdmissionOpen l; Driver.EffectiveNewWorkAdmission := PbHealth.EffectiveNewWorkAdmission l;
     Driver.Drain := drain_from_proto <$> PbHealth.Drain l |}.

Definition lifecycle_to_proto (l : Driver.WebLifecycleState) : PbHealth.WebLifecycleState :=
  {| PbHealth.State := Driver.State l; PbHealth.Epoch := Driver.Epoch l; PbHealth.AgeMs := Driver.AgeMs l;
     PbHealth.AdmissionOpen := Driver.AdmissionOpen l; PbHealth.EffectiveNewWorkAdmission := Driver.EffectiveNewWorkAdmission l;
     PbHealth.Drain := drain_to_proto <$> Driver.Drain l |}.

Definition resource_from_proto (r : PbHealth.WebCapacityResource) : Driver.WebCapacityResource :=
  {| Driver.Resource := PbHealth.Resource r; Driver.Unit := PbHealth.Unit r; Driver.Used := PbHealth.Used r;
     Driver.Available := PbHealth.Available r; Driver.Limit := PbHealth.Limit r; Driver.Closed := PbHealth.Closed r |}.

Definition resource_to_proto (r : Driver.WebCapacityResource) : PbHealth.WebCapacityResource :=
  {| PbHealth.Resource := Driver.Resource r; PbHealth.Unit := Driver.Unit r; PbHealth.Used := Driver.Used r;
     PbHealth.Available := Driver.Available r; PbHealth.Limit := Driver.Limit r; PbHealth.Closed := Driver.Closed r |}.

Definition capacity_from_proto (c : PbHealth.WebCapacityState) : Driver.WebCapacityState :=
  {| Driver.ConnectionCapacityAction := PbHealth.ConnectionCapacityAction c;
     Driver.MaxHTTPOverloadConnections := PbHealth.MaxHttpOverloadConnections c;
     Driver.HTTPOverloadTimeoutMs := PbHealth.HttpOverloadTimeoutMs c;
     Driver.Resources := resource_from_proto <$> PbHealth.Resources c;
     Driver.SaturatedResources := PbHealth.SaturatedResources c; Driver.Partial := PbHealth.Partial c;
     Driver.OverloadOutcomes := webFamilyFromProto (PbHealth.OverloadOutcomes c) |}.

Definition capacity_to_proto (c : Driver.WebCapacityState) : PbHealth.WebCapacityState :=
  {| PbHealth.ConnectionCapacityAction := Driver.ConnectionCapacityAction c;
     PbHealth.MaxHttpOverloadConnections := Driver.MaxHTTPOverloadConnections c;
     PbHealth.HttpOverloadTimeoutMs := Driver.HTTPOverloadTimeoutMs c;
     PbHealth.Resources := resource_to_proto <$> Driver.Resources c;
     PbHealth.SaturatedResources := Driver.SaturatedResources c; PbHealth.Partial := Driver.Partial c;
     PbHealth.OverloadOutcomes := webFamilyToProto (Driver.OverloadOutcomes c) |}.

Definition webRuntimeFromProto (r : option PbHealth.WebRuntimeState) : option Driver.WebRuntimeState :=
  (fun r => {| Driver.RuntimeInstance := PbHealth.RuntimeInstance r; Driver.CarrierNegotiation := PbHealth.CarrierNegotiation r;
     Driver.Learning := learning_from_proto <$> PbHealth.Learning r; Driver.Lifecycle := lifecycle_from_proto <$> PbHealth.Lifecycle r;
     Driver.RuntimeCapacity := capacity_from_proto <$> PbHealth.RuntimeCapacity r |}) <$> r.

Definition webRuntimeToProto (r : option Driver.WebRuntimeState) : option PbHealth.WebRuntimeState :=
  (fun r => {| PbHealth.RuntimeInstance := Driver.RuntimeInstance r; PbHealth.CarrierNegotiation := Driver.CarrierNegotiation r;
     PbHealth.Learning := learning_to_proto <$> Driver.Learning r; PbHealth.Lifecycle := lifecycle_to_proto <$> Driver.Lifecycle r;
     PbHealth.RuntimeCapacity := capacity_to_proto <$> Driver.RuntimeCapacity r |}) <$> r.

Definition WebTelemetryFromProto (w : option PbHealth.WebTelemetry) : option Driver.WebTelemetry :=
  (fun w => {| Driver.CarrierSelections := webFamilyFromProto (PbHealth.CarrierSelections w);
     Driver.CarrierFailures := webFamilyFromProto (PbHealth.CarrierFailures w);
     Driver.LearningOutcomes := webFamilyFromProto (PbHealth.LearningOutcomes w);
     Driver.LearningEntries := webFamilyFromProto (PbHealth.LearningEntries w);
     Driver.Rejections := webFamilyFromProto (PbHealth.Rejections w);
     Driver.SessionClosures := webFamilyFromProto (PbHealth.SessionClosures w);
     Driver.BridgeRecovery := webFamilyFromProto (PbHealth.BridgeRecovery w);
     Driver.Runtime := webRuntimeFromProto (PbHealth.Runtime w) |}) <$> w.

Definition WebTelemetryToProto (w : option Driver.WebTelemetry) : option PbHealth.WebTelemetry :=
  (fun w => {| PbHealth.CarrierSelections := webFamilyToProto (Driver.CarrierSelections w);
     PbHealth.CarrierFailures := webFamilyToProto (Driver.CarrierFailures w);
     PbHealth.LearningOutcomes := webFamilyToProto (Driver.LearningOutcomes w);
     PbHealth.LearningEntries := webFamilyToProto (Driver.LearningEntries w);
     PbHealth.Rejections := webFamilyToProto (Driver.Rejections w);
     PbHealth.SessionClosures := webFamilyToProto (Driver.SessionClosures w);
     PbHealth.BridgeRecovery := webFamilyToProto (Driver.BridgeRecovery w);
     PbHealth.Runtime := webRuntimeToProto (Driver.Runtime w) |}) <$> w.

(** The settled capabilities, then the undetermined ones, which win. *)
Definition CapabilitiesFromProto (c : option PbHealth.TelemtCapabilities) : option Driver.TelemtCapabilities :=
  (fun c => foldl (fun m n => <[n := None]> m) (Some <$> PbHealth.Supported c) (PbHealth.Undetermined c)) <$> c.

Definition name_le (a b : string) : Prop := String.leb a b = true.
#[export] Instance name_le_dec : RelDecision name_le.
Proof. intros a b. unfold name_le. solve_decision. Defined.

Definition CapabilitiesToProto (c : option Driver.TelemtCapabilities) (build : string) : option PbHealth.TelemtCapabilities :=
  (fun c => {| PbHealth.Supported := omap id c;
     PbHealth.Undetermined := merge_sort name_le (fst <$> map_to_list (filter (fun e => e.2 = None) c));
     PbHealth.Build := build |}) <$> c.

Definition FirewallFromProto (s : option PbHealth.FirewallStatus) : option Driver.FirewallStatus :=
  (fun s => {| Driver.Revision := PbHealth.Revision s; Driver.FwEntries := PbHealth.FwEntries s;
     Driver.DroppedPackets := PbHealth.DroppedPackets s; Driver.DroppedBytes := PbHealth.DroppedBytes s;
     Driver.Counters := (fun c => {| Driver.Entry := PbHealth.Entry c; Driver.Packets := PbHealth.Packets c; Driver.Bytes := PbHealth.Bytes c |}) <$> PbHealth.Counters s;
     Driver.FwError := PbHealth.FwError s |}) <$> s.

Definition FirewallToProto (s : option Driver.FirewallStatus) : option PbHealth.FirewallStatus :=
  (fun s => {| PbHealth.Revision := Driver.Revision s; PbHealth.FwEntries := int32 (Driver.FwEntries s);
     PbHealth.DroppedPackets := Driver.DroppedPackets s; PbHealth.DroppedBytes := Driver.DroppedBytes s;
     PbHealth.Counters := (fun c => {| PbHealth.Entry := Driver.Entry c; PbHealth.Packets := Driver.Packets c; PbHealth.Bytes := Driver.Bytes c |}) <$> Driver.Counters s;
     PbHealth.FwError := Driver.FwError s |}) <$> s.

Definition HealthFromProto (h : PbHealth.HealthReport) : Driver.HealthReport :=
  {| Driver.Reliability := PbHealth.ReliabilityJson h;
     Driver.RelayActive := PbHealth.RelayActive h; Driver.MTProxyActive := PbHealth.MtproxyActive h; Driver.CaddyActive := PbHealth.CaddyActive h;
     Driver.Healthz := PbHealth.Healthz h; Driver.Readyz := PbHealth.Readyz h;
     Driver.TProxyVersion := PbHealth.TproxyVersion h; Driver.AgentVersion := PbHealth.AgentVersion h;
     Driver.UptimeSeconds := PbHealth.UptimeSeconds h; Driver.CPUPercent := PbHealth.CpuPercent h;
     Driver.MemUsedPercent := PbHealth.MemUsedPercent h; Driver.DiskUsedPercent := PbHealth.DiskUsedPercent h;
     Driver.ProfileCount := PbHealth.ProfileCount h; Driver.CPUUtilisationPercent := PbHealth.CpuUtilisationPercent h;
     Driver.LoadAverage1 := PbHealth.LoadAverage_1 h; Driver.LoadAverage5 := PbHealth.LoadAverage_5 h; Driver.LoadAverage15 := PbHealth.LoadAverage_15 h;
     Driver.DCs := (fun d => {| Driver.DC := PbHealth.Dc d; Driver.LatencyMs := PbHealth.LatencyMs d; Driver.Known := PbHealth.Known d;
                                Driver.IPPreference := PbHealth.IpPreference d |}) <$> PbHealth.Dcs h;
     Driver.UpstreamHealthy := PbHealth.UpstreamHealthy h; Driver.UpstreamFails := PbHealth.UpstreamFails h;
     Driver.EffectiveLatencyMs := PbHealth.EffectiveLatencyMs h; Driver.ConnectSuccessTotal := PbHealth.ConnectSuccessTotal h;
     Driver.ConnectFailTotal := PbHealth.ConnectFailTotal h; Driver.UpstreamLastCheckAgeSecs := PbHealth.UpstreamLastCheckAgeSecs h;
     Driver.DcDataAvailable := PbHealth.DcDataAvailable h; Driver.Web := WebTelemetryFromProto (PbHealth.Web h);
     Driver.Firewall := FirewallFromProto (PbHealth.Firewall h); Driver.Capabilities := CapabilitiesFromProto (PbHealth.Capabilities h);
     Driver.TelemtBuild := match PbHealth.Capabilities h with Some c => PbHealth.Build c | None => EmptyString end;
     Driver.HrWebCapacity := PbHealth.HrWebCapacity h; Driver.MaxConnections := PbHealth.MaxConnections h |}.

Definition HealthToProto (h : Driver.HealthReport) : PbHealth.HealthReport :=
  {| PbHealth.RelayActive := Driver.RelayActive h; PbHealth.MtproxyActive := Driver.MTProxyActive h; PbHealth.CaddyActive := Driver.CaddyActive h;
     PbHealth.Healthz := Driver.Healthz h; PbHealth.Readyz := Driver.Readyz h;
     PbHealth.TproxyVersion := Driver.TProxyVersion h; PbHealth.AgentVersion := Driver.AgentVersion h;
     PbHealth.UptimeSeconds := Driver.UptimeSeconds h; PbHealth.CpuPercent := Driver.CPUPercent h;
     PbHealth.MemUsedPercent := Driver.MemUsedPercent h; PbHealth.DiskUsedPercent := Driver.DiskUsedPercent h;
     PbHealth.ProfileCount := int32 (Driver.ProfileCount h);
     PbHealth.Dcs := (fun d => {| PbHealth.Dc := int32 (Driver.DC d); PbHealth.LatencyMs := Driver.LatencyMs d; PbHealth.Known := Driver.Known d;
                                  PbHealth.IpPreference := Driver.IPPreference d |}) <$> Driver.DCs h;
     PbHealth.UpstreamHealthy := Driver.UpstreamHealthy h; PbHealth.UpstreamFails := int32 (Driver.UpstreamFails h);
     PbHealth.EffectiveLatencyMs := Driver.EffectiveLatencyMs h; PbHealth.ConnectSuccessTotal := Driver.ConnectSuccessTotal h;
     PbHealth.ConnectFailTotal := Driver.ConnectFailTotal h; PbHealth.UpstreamLastCheckAgeSecs := Driver.UpstreamLastCheckAgeSecs h;
     PbHealth.DcDataAvailable := Driver.DcDataAvailable h; PbHealth.Web := WebTelemetryToProto (Driver.Web h);
     PbHealth.Capabilities := CapabilitiesToProto (Driver.Capabilities h) (Driver.TelemtBuild h);
     PbHealth.CpuUtilisationPercent := Driver.CPUUtilisationPercent h;
     PbHealth.LoadAverage_1 := Driver.LoadAverage1 h; PbHealth.LoadAverage_5 := Driver.LoadAverage5 h; PbHealth.LoadAverage_15 := Driver.LoadAverage15 h;
     PbHealth.ReliabilityJson := Driver.Reliability h; PbHealth.Firewall := FirewallToProto (Driver.Firewall h);
     PbHealth.HrWebCapacity := uint32 (Driver.HrWebCapacity h); PbHealth.MaxConnections := uint32 (Driver.MaxConnections h) |}.

(** ** What arrives *)

(** A profile as a message can carry it: whole seconds, and no quota period. *)
Definition whole_seconds (t : Z) : Z := unix t * Tm.second.

Definition sent_alike (p : SentProfile) : SentProfile :=
  {| sp_Name := sp_Name p; sp_Secret := sp_Secret p; sp_Backend := sp_Backend p; sp_CarrierMode := sp_CarrierMode p;
     sp_Limits := sp_Limits p;
     sp_Telemt := (fun t => {| Types.DataQuotaBytes := Types.DataQuotaBytes t; Types.RateLimitUpBps := Types.RateLimitUpBps t;
        Types.RateLimitDownBps := Types.RateLimitDownBps t; Types.MaxUniqueIPs := Types.MaxUniqueIPs t;
        Types.MaxTCPConns := Types.MaxTCPConns t; Types.DataQuotaPeriod := EmptyString |}) <$> sp_Telemt p;
     sp_ExpiresAt := whole_seconds <$> sp_ExpiresAt p; sp_Enabled := sp_Enabled p;
     sp_QuotaResetAt := whole_seconds <$> sp_QuotaResetAt p |}.

Definition limits_fit (l : Types.ProfileLimits) : Prop :=
  is_int32 (Types.MaxSessions l) /\ is_int32 (Types.MaxStreams l) /\ is_int32 (Types.MaxBackendDialsInFlight l) /\
  is_int32 (Types.NewSessionsPerMinute l) /\ is_int32 (Types.NewSessionsBurst l) /\ is_int32 (Types.NewStreamsPerMinute l) /\
  is_int32 (Types.NewStreamsBurst l) /\ is_int32 (Types.MaxStreamsPerSession l) /\ is_int32 (Types.MaxPendingPerSession l).

(** What validated telemt limits are, those that are sent besides: not all
    zero. *)
Definition telemt_fit `{MapOrder} (t : Types.TelemtLimits) : Prop :=
  Types.validate_telemt_limits t = None /\
  ~ (Types.DataQuotaBytes t = 0 /\ Types.RateLimitUpBps t = 0 /\ Types.RateLimitDownBps t = 0 /\
     Types.MaxUniqueIPs t = 0 /\ Types.MaxTCPConns t = 0).

Definition profile_fits `{MapOrder} (p : SentProfile) : Prop :=
  (forall l, sp_Limits p = Some l -> limits_fit l) /\
  (forall t, sp_Telemt p = Some t -> telemt_fit t) /\
  (forall t, sp_ExpiresAt p = Some t -> unix t <> 0) /\ (forall t, sp_QuotaResetAt p = Some t -> unix t <> 0).

Lemma limits_arrive l : limits_fit l -> limits_from_proto (limits_to_proto l) = l.
Proof.
  intros (? & ? & ? & ? & ? & ? & ? & ? & ?). unfold limits_from_proto, limits_to_proto. cbn.
  rewrite !int32_id by done. by destruct l.
Qed.

Lemma at_unix_whole t : unix t <> 0 -> at_unix (unix t) = Some (whole_seconds t).
Proof. intros H. unfold at_unix. by rewrite (proj2 (Z.eqb_neq _ _) H). Qed.

Lemma instant_arrives (o : option Z) : (forall t, o = Some t -> unix t <> 0) ->
  at_unix (match o with Some t => unix t | None => 0 end) = whole_seconds <$> o.
Proof. intros H. destruct o as [t|]; [|done]. cbn. by apply at_unix_whole, H. Qed.

(** The range of the limits an accepted limit has. *)
Lemma valid_fit `{MapOrder} t : Types.validate_telemt_limits t = None ->
  is_uint64 (Types.DataQuotaBytes t) /\ is_uint64 (Types.RateLimitUpBps t) /\ is_uint64 (Types.RateLimitDownBps t) /\
  is_uint32 (Types.MaxUniqueIPs t) /\ is_uint32 (Types.MaxTCPConns t) /\
  is_int64 (Types.DataQuotaBytes t) /\ is_int64 (Types.RateLimitUpBps t) /\ is_int64 (Types.RateLimitDownBps t).
Proof.
  rewrite Types.validate_telemt_limits_iff. unfold Types.MaxTelemtQuotaBytes, Types.MaxTelemtRateBps, Types.MaxTelemtCounter.
  unfold is_uint64, is_uint32, is_int64. lia.
Qed.

(** Nodedriver.ProfileToProto and ProfileFromProto: a profile whose limits
    the panel accepts is read back as it was sent, with its instants cut to
    whole seconds and without the period, which the panel keeps to itself. *)
Theorem profile_arrives `{MapOrder} p : profile_fits p -> ProfileFromProto (ProfileToProto p) = sent_alike p.
Proof.
  intros (Hl & Ht & He & Hq). unfold ProfileFromProto, ProfileToProto, sent_alike. cbn.
  rewrite (instant_arrives _ He), (instant_arrives _ Hq). f_equal.
  - destruct (sp_Limits p) as [l|]; [|done]. cbn. by rewrite (limits_arrive _ (Hl l eq_refl)).
  - destruct (sp_Telemt p) as [t|]; [|done]. cbn. destruct (Ht t eq_refl) as [Hv Hz].
    destruct (valid_fit _ Hv) as (? & ? & ? & ? & ? & ? & ? & ?).
    rewrite !uint64_id, !uint32_id, !int64_id by done. rewrite bool_decide_false; [done|].
    unfold no_telemt_limits. intros [= ? ? ? ? ?]. by apply Hz.
Qed.

(** ** The WEB policy *)

Definition custom (p : Policy.WebPolicy) : Policy.WebPolicy :=
  {| Policy.CarrierMethod := Policy.CarrierMethod p; Policy.Conveyor := Policy.Conveyor p; Policy.BasePath := Policy.BasePath p;
     Policy.DecoyResolve := Policy.DecoyResolve p; Policy.Preset := PresetCustom; Policy.Carrier := Policy.Carrier p;
     Policy.Carriers := Policy.Carriers p; Policy.CarrierLearning := Policy.CarrierLearning p;
     Policy.Aggressiveness := Policy.Aggressiveness p;
     Policy.Overload := {| Policy.overload_preset := OverloadCustom;
       Policy.connection_capacity_action := Policy.connection_capacity_action (Policy.Overload p) |};
     Policy.Timeouts := Policy.Timeouts p |}.

(** The two times telemt sets no bound for. *)
Definition times_fit (t : Policy.WebTimeouts) : Prop :=
  Forall is_int32 (Policy.NegotiationDeadlinesSecs t) /\ is_int32 (Policy.CarrierHealthSecs t).

Lemma timeouts_arrive t : Policy.validate_timeouts t = None -> times_fit t -> timeouts_from_proto (Some (timeouts_to_proto t)) = t.
Proof.
  rewrite Policy.validate_timeouts_ok. intros [_ _ _ ? ? ? ?] [Hd ?]. unfold timeouts_from_proto, timeouts_to_proto. cbn.
  assert (Hm : int32 <$> Policy.NegotiationDeadlinesSecs t = Policy.NegotiationDeadlinesSecs t).
  { rewrite <- (list_fmap_id (Policy.NegotiationDeadlinesSecs t)) at 2. apply list_fmap_ext. intros i x Hi.
    apply int32_id. rewrite Forall_forall in Hd. apply Hd. by eapply list_elem_of_lookup_2. }
  rewrite Hm, !int32_id by (done || unfold is_int32; lia). by destruct t.
Qed.

(** Nodedriver.WebPolicyToProto and WebPolicyFromProto: a policy the panel
    validated, with no deadline or health time past 32 bits, reaches the agent
    as it is, its presets called custom, and validates there too. *)
Theorem policy_arrives p : Policy.Validate p = None -> times_fit (Policy.Timeouts p) ->
  WebPolicyFromProto (WebPolicyToProto (Some p)) = Some (custom p) /\ Policy.Validate (custom p) = None.
Proof.
  intros Hv Hf. unfold Policy.Validate in Hv. rewrite !or_else_None, !fail_if_None in Hv.
  destruct Hv as (H1 & H2 & H3 & H4 & H5 & H6 & H7 & H8 & H9 & H10). split.
  - unfold WebPolicyToProto, WebPolicyFromProto, custom. cbn. f_equal. rewrite (timeouts_arrive _ H10 Hf).
    destruct (String.eqb_spec (Policy.connection_capacity_action (Policy.Overload p)) EmptyString) as [E|_];
      [by rewrite E in H7|]. by destruct (Policy.Carriers p) as [[|]|].
  - unfold Policy.Validate. rewrite !or_else_None, !fail_if_None. done.
Qed.

(** A time the panel accepts and the message cannot carry. *)
Definition long_health : Policy.WebPolicy :=
  let p := Policy.DefaultWebPolicy in let t := Policy.Timeouts p in
  {| Policy.CarrierMethod := None; Policy.Conveyor := None; Policy.BasePath := None; Policy.DecoyResolve := None;
     Policy.Preset := Policy.Preset p; Policy.Carrier := Policy.Carrier p; Policy.Carriers := Policy.Carriers p;
     Policy.CarrierLearning := true; Policy.Aggressiveness := Policy.Aggressiveness p; Policy.Overload := Policy.Overload p;
     Policy.Timeouts := {| Policy.NegotiationDeadlinesSecs := Policy.NegotiationDeadlinesSecs t; Policy.CarrierHealthSecs := 2 ^ 32 + 1;
       Policy.CarrierLearningSecs := Policy.CarrierLearningSecs t; Policy.BridgeRequestSecs := Policy.BridgeRequestSecs t;
       Policy.BridgeRetrySecs := Policy.BridgeRetrySecs t; Policy.ProbeCoalesceMs := Policy.ProbeCoalesceMs t |} |}.

Example long_health_arrives_short : Policy.Validate long_health = None /\
  (fun p => Policy.CarrierHealthSecs (Policy.Timeouts p)) <$> WebPolicyFromProto (WebPolicyToProto (Some long_health)) = Some 1.
Proof. vm_compute. done. Qed.

(** ** The health of a node *)

Definition runtime_fits (r : Driver.WebRuntimeState) : Prop :=
  (forall l, Driver.Learning r = Some l -> is_int32 (Driver.Entries l) /\ is_int32 (Driver.Capacity l)) /\
  (forall l d, Driver.Lifecycle r = Some l -> Driver.Drain l = Some d -> is_int32 (Driver.TimeoutSecs d)).

Record health_fits (h : Driver.HealthReport) : Prop := {
  hf_profiles : is_int32 (Driver.ProfileCount h);
  hf_fails : is_int32 (Driver.UpstreamFails h);
  hf_dcs : Forall (fun d => is_int32 (Driver.DC d)) (Driver.DCs h);
  hf_capacity : is_uint32 (Driver.HrWebCapacity h);
  hf_connections : is_uint32 (Driver.MaxConnections h);
  hf_firewall : forall f, Driver.Firewall h = Some f -> is_int32 (Driver.FwEntries f);
  hf_runtime : forall w r, Driver.Web h = Some w -> Driver.Runtime w = Some r -> runtime_fits r;
  hf_build : Driver.Capabilities h = None -> Driver.TelemtBuild h = EmptyString
}.

(** A list read back element by element. *)
Lemma fmap_back {A B} (f : A -> B) (g : B -> A) (P : A -> Prop) (l : list A) :
  (forall x, P x -> g (f x) = x) -> Forall P l -> g <$> (f <$> l) = l.
Proof. intros H Hl. rewrite <- list_fmap_compose. rewrite <- (list_fmap_id l) at 2. apply list_fmap_ext.
  intros i x Hi. apply H. rewrite Forall_forall in Hl. apply Hl. by eapply list_elem_of_lookup_2. Qed.

Lemma fmap_all_back {A B} (f : A -> B) (g : B -> A) (l : list A) : (forall x, g (f x) = x) -> g <$> (f <$> l) = l.
Proof. intros H. apply (fmap_back f g (fun _ => True)); [auto|]. by apply Forall_forall. Qed.

Lemma option_back {A B} (f : A -> B) (g : B -> A) (o : option A) : (forall x, o = Some x -> g (f x) = x) -> g <$> (f <$> o) = o.
Proof. intros H. destruct o as [x|]; [|done]. cbn. by rewrite H. Qed.

Lemma family_back f : webFamilyFromProto (webFamilyToProto f) = f.
Proof.
  apply option_back. intros [l] _. cbn. f_equal. apply fmap_all_back. by intros [].
Qed.

Lemma runtime_back r : (forall x, r = Some x -> runtime_fits x) -> webRuntimeFromProto (webRuntimeToProto r) = r.
Proof.
  intros H. apply option_back. intros x Hx. destruct (H x Hx) as [Hl Hd]. destruct x as [i n l lc c]. cbn in *. f_equal.
  - apply option_back. intros y ->. destruct (Hl y eq_refl). destruct y. unfold learning_from_proto, learning_to_proto. cbn in *.
    by rewrite !int32_id.
  - apply option_back. intros y ->. destruct y as [? ? ? ? ? d]. unfold lifecycle_from_proto, lifecycle_to_proto. cbn. f_equal.
    apply option_back. intros z ->. specialize (Hd _ z eq_refl eq_refl). destruct z. unfold drain_from_proto, drain_to_proto. cbn in *.
    by rewrite int32_id.
  - apply option_back. intros y ->. destruct y as [? ? ? rs ? ? o]. unfold capacity_from_proto, capacity_to_proto. cbn.
    rewrite family_back. f_equal. apply fmap_all_back. by intros [].
Qed.

Lemma lookup_undetermined (l : list string) (m : gmap string (option bool)) n :
  foldl (fun m n => <[n := None]> m) m l !! n = if bool_decide (n ∈ l) then Some None else m !! n.
Proof.
  revert m. induction l as [|x l IH]; intros m; [done|]. cbn [foldl]. rewrite IH.
  destruct (decide (n ∈ l)) as [Hn|Hn]; [rewrite !bool_decide_true; [done|by right|done]|]. rewrite (bool_decide_false (n ∈ l)) by done.
  destruct (decide (x = n)) as [->|Hx].
  - rewrite lookup_insert_eq, bool_decide_true; [done|left].
  - rewrite lookup_insert_ne by done. rewrite bool_decide_false; [done|]. rewrite elem_of_cons. naive_solver.
Qed.

Lemma capabilities_back c b : CapabilitiesFromProto (CapabilitiesToProto c b) = c.
Proof.
  apply option_back. intros m _. change Driver.TelemtCapabilities with (gmap string (option bool)) in m.
  unfold CapabilitiesToProto. cbn. apply map_eq. intros n. rewrite lookup_undetermined.
  case_bool_decide as Hn.
  - rewrite merge_sort_Permutation in Hn. apply list_elem_of_fmap in Hn as ([k v] & -> & Hk). apply elem_of_map_to_list in Hk.
    apply map_lookup_filter_Some in Hk as [Hk Hv]. cbn in *. by rewrite Hk, Hv.
  - rewrite lookup_fmap, lookup_omap. destruct (m !! n) as [[v|]|] eqn:E; [done| |done]. exfalso. apply Hn.
    rewrite merge_sort_Permutation. apply list_elem_of_fmap. exists (n, None). split; [done|]. apply elem_of_map_to_list.
    by apply map_lookup_filter_Some.
Qed.

Lemma firewall_back s : (forall x, s = Some x -> is_int32 (Driver.FwEntries x)) -> FirewallFromProto (FirewallToProto s) = s.
Proof.
  intros H. apply option_back. intros x Hx. specialize (H x Hx). destruct x. cbn in *. rewrite int32_id by done. f_equal.
  apply fmap_all_back. by intros [].
Qed.

(** Nodedriver.HealthToProto and HealthFromProto: a report of a node whose
    counts fit the message is read back as it was sent: an absent family or
    section stays absent, and a capability that could not be settled is never
    read as one the node does not have. *)
Theorem health_arrives h : health_fits h -> HealthFromProto (HealthToProto h) = h.
Proof.
  intros [H1 H2 H3 H4 H5 H6 H7 H8]. unfold HealthFromProto, HealthToProto.
  cbn -[WebTelemetryFromProto WebTelemetryToProto CapabilitiesFromProto CapabilitiesToProto FirewallFromProto FirewallToProto].
  rewrite !int32_id, !uint32_id, capabilities_back, firewall_back by done.
  assert (Hw : WebTelemetryFromProto (WebTelemetryToProto (Driver.Web h)) = Driver.Web h).
  { apply option_back. intros w Hw. cbn. rewrite !family_back, runtime_back; [by destruct w|]. intros r Hr. by eapply H7. }
  assert (Hd : (fun d => {| Driver.DC := PbHealth.Dc d; Driver.LatencyMs := PbHealth.LatencyMs d; Driver.Known := PbHealth.Known d;
      Driver.IPPreference := PbHealth.IpPreference d |}) <$> ((fun d => {| PbHealth.Dc := int32 (Driver.DC d);
      PbHealth.LatencyMs := Driver.LatencyMs d; PbHealth.Known := Driver.Known d; PbHealth.IpPreference := Driver.IPPreference d |}) <$> Driver.DCs h) = Driver.DCs h).
  { apply (fmap_back _ _ (fun d => is_int32 (Driver.DC d))); [|done]. intros []. cbn. intros ?. by rewrite int32_id. }
  rewrite Hw, Hd. destruct h as [? ? ? ? ? ? ? ? ? ? ? ? ? ? ? ? ? ? ? ? ? ? ? ? ? ? ? caps build ? ?]. cbn in *.
  destruct caps; cbn; [done|]. by rewrite H8.
Qed.

(** ** Witnesses *)

Definition sample_profile : SentProfile :=
  {| sp_Name := "key-1"; sp_Secret := "0123456789abcdef0123456789abcdef"; sp_Backend := EmptyString; sp_CarrierMode := "https";
     sp_Limits := Some {| Types.MaxSessions := 4; Types.MaxStreams := 64; Types.MaxBackendDialsInFlight := 0; Types.NewSessionsPerMinute := 0;
       Types.NewSessionsBurst := 0; Types.NewStreamsPerMinute := 0; Types.NewStreamsBurst := 0; Types.MaxStreamsPerSession := 16;
       Types.MaxPendingPerSession := 0 |};
     sp_Telemt := Some {| Types.DataQuotaBytes := 2 ^ 40; Types.RateLimitUpBps := 0; Types.RateLimitDownBps := 1000000;
       Types.MaxUniqueIPs := 3; Types.MaxTCPConns := 0; Types.DataQuotaPeriod := "month" |};
     sp_ExpiresAt := Some (1767225600 * Tm.second + 5); sp_Enabled := true; sp_QuotaResetAt := Some (1764547200 * Tm.second) |}.

Lemma profile_arrives_witness :
  @ProfileFromProto (ProfileToProto sample_profile) = sent_alike sample_profile.
Proof.
  apply (@profile_arrives written_order). split_and!.
  - intros l [= <-]. unfold limits_fit, is_int32. cbn. lia.
  - intros t [= <-]. split; [by vm_compute|]. cbn. lia.
  - intros t [= <-]. by vm_compute.
  - intros t [= <-]. by vm_compute.
Defined.

Lemma policy_arrives_witness :
  WebPolicyFromProto (WebPolicyToProto (Some Policy.DefaultWebPolicy)) = Some (custom Policy.DefaultWebPolicy) /\
  Policy.Validate (custom Policy.DefaultWebPolicy) = None.
Proof.
  apply (policy_arrives Policy.DefaultWebPolicy).
  - by vm_compute.
  - split; [|cbn; unfold is_int32; lia]. cbn. repeat (constructor; [unfold is_int32; lia|]). constructor.
Defined.

Definition sample_web : Driver.WebTelemetry :=
  {| Driver.CarrierSelections := Some {| Driver.Samples := [{| Driver.Carrier := "https"; Driver.Label := "applied"; Driver.Phase := EmptyString;
       Driver.Value := S754_finite false 1 3 |}] |};
     Driver.CarrierFailures := Some {| Driver.Samples := [] |}; Driver.LearningOutcomes := None; Driver.LearningEntries := None;
     Driver.Rejections := None; Driver.SessionClosures := None; Driver.BridgeRecovery := None;
     Driver.Runtime := Some {| Driver.RuntimeInstance := "r1"; Driver.CarrierNegotiation := true;
       Driver.Learning := Some {| Driver.Enabled := true; Driver.PolicyGeneration := 1; Driver.LearningEpoch := 2; Driver.Entries := 3;
         Driver.Capacity := 1024; Driver.LifetimeSecs := 600; Driver.HealthSecs := 30; Driver.LearningAgeMs := 5 |};
       Driver.Lifecycle := Some {| Driver.State := "open"; Driver.Epoch := 1; Driver.AgeMs := 2; Driver.AdmissionOpen := true;
         Driver.EffectiveNewWorkAdmission := true; Driver.Drain := None |};
       Driver.RuntimeCapacity := None |} |}.

Definition sample_health : Driver.HealthReport :=
  {| Driver.Reliability := EmptyString; Driver.RelayActive := true; Driver.MTProxyActive := true; Driver.CaddyActive := true;
     Driver.Healthz := true; Driver.Readyz := true; Driver.TProxyVersion := "3.5.14"; Driver.AgentVersion := "2.17.5";
     Driver.UptimeSeconds := 86400; Driver.CPUPercent := S754_finite false 3 2; Driver.MemUsedPercent := S754_finite false 5 3;
     Driver.DiskUsedPercent := S754_zero false; Driver.ProfileCount := 12; Driver.CPUUtilisationPercent := None;
     Driver.LoadAverage1 := Some (S754_finite false 1 (-1)); Driver.LoadAverage5 := None; Driver.LoadAverage15 := None;
     Driver.DCs := [{| Driver.DC := -2; Driver.LatencyMs := S754_finite false 7 1; Driver.Known := true; Driver.IPPreference := "v4" |}];
     Driver.UpstreamHealthy := true; Driver.UpstreamFails := 0; Driver.EffectiveLatencyMs := S754_zero false;
     Driver.ConnectSuccessTotal := 100; Driver.ConnectFailTotal := 1; Driver.UpstreamLastCheckAgeSecs := 3; Driver.DcDataAvailable := true;
     Driver.Web := Some sample_web;
     Driver.Firewall := Some {| Driver.Revision := 4; Driver.FwEntries := 1; Driver.DroppedPackets := 9; Driver.DroppedBytes := 540;
       Driver.Counters := [{| Driver.Entry := "192.0.2.0/24"; Driver.Packets := 9; Driver.Bytes := 540 |}]; Driver.FwError := EmptyString |};
     Driver.Capabilities := Some (<["web" := Some true]> (<["web_pause" := Some false]> {["web_drain" := None]}));
     Driver.TelemtBuild := "abc"; Driver.HrWebCapacity := 128; Driver.MaxConnections := 10000 |}.

Lemma health_arrives_witness : HealthFromProto (HealthToProto sample_health) = sample_health.
Proof.
  apply (health_arrives sample_health). split; cbn; unfold is_int32, is_uint32; try lia; try done.
  - constructor; [cbn; lia|constructor].
  - intros f [= <-]. cbn. lia.
  - intros w r [= <-] [= <-]. split; cbn.
    + intros l [= <-]. cbn. unfold is_int32. lia.
    + intros l d [= <-]. done.
Defined.
