(* ===== verification/Gateway.v ===== *)
(** * The gateway: agent sessions and the calls the panel makes through them

    internal/gateway/registry.go and server.go with the hooks of
    internal/nodesvc/presence.go.

    Every goroutine is a program counter: the handler of a stream with its
    sender and its receiver, a [Call], a [Stream].  A step is the code up to the
    next lock, channel operation, statement or message of one of them, chosen
    by an [action] together with what the outside answers there; a run is a
    list of actions.  The objects the goroutines share (connections, channels)
    live on a heap and are named by their place in it.  What a mutex makes
    atomic is one step; [conn.close] holds none, so its test and its close are
    two.  Log lines are left out. *)

From S2P Require Import Prelude Crypto AgentProto Convert.

Local Open Scope go_scope.

(** ** Messages *)

(** What an answer and a request carry beside the fields read here. *)
Record Response := { Error : string; payload : string }.
Record LogChunk := { Lines : list string; Done : bool }.
Record Hello := { h_AgentVersion : string; h_TproxyVersion : string }.
Inductive Request := Cancel (request_id : string) | Other (what : string).

Inductive body :=
| BHello (h : Hello)
| BHeartbeat (h : option PbHealth.HealthReport)
| BRequest (r : Request)
| BResponse (r : Response)
| BLogChunk (c : LogChunk)
| BNone.

Record Envelope := { RequestId : string; Body : body }.

Definition GetResponse (e : Envelope) : option Response := match Body e with BResponse r => Some r | _ => None end.
Definition GetLogChunk (e : Envelope) : option LogChunk := match Body e with BLogChunk c => Some c | _ => None end.

(** ** Connections *)

(** A channel made by [register], with the connection and the id it is for. *)
Record channel := { ch_of : nat * string; ch_buf : list Envelope }.

Record conn := { nodeID : string; send_ : list Envelope; pending : gmap string nat; closed : bool }.

Definition newConn (id : string) : conn := {| nodeID := id; send_ := []; pending := ∅; closed := false |}.
Definition send_cap : nat := 64.
Definition chan_cap : nat := 32.
Definition out_cap : nat := 32.

Definition with_send (l : list Envelope) (c : conn) : conn := {| nodeID := nodeID c; send_ := l; pending := pending c; closed := closed c |}.
Definition with_pending (m : gmap string nat) (c : conn) : conn := {| nodeID := nodeID c; send_ := send_ c; pending := m; closed := closed c |}.
Definition set_closed (c : conn) : conn := {| nodeID := nodeID c; send_ := send_ c; pending := pending c; closed := true |}.
Definition push (e : Envelope) (x : channel) : channel := {| ch_of := ch_of x; ch_buf := ch_buf x ++ [e] |}.

(** ** The rows of the nodes *)

Inductive NodeStatus := Pending | Online | Degraded | Offline.

(** The columns the hooks read and write; the JSON columns by their value. *)
Record NodeRow := {
  AgentTokenHash : option string; Engine : string; Status : NodeStatus; LastSeenAt : option Z;
  TproxyVersion : string; AgentVersion : string; TelemtVersion : string; TelemtBuild : string;
  LastHealth : option Driver.HealthReport;
  TelemtCapabilities : option Driver.TelemtCapabilities; CapabilitiesCheckedAt : option Z
}.

(** [COALESCE(NULLIF(new, ''), old)] *)
Definition coalesce (new old : string) : string := if String.eqb new EmptyString then old else new.

Definition SetNodeOnline (now : Z) (tproxy agent telemt : string) (r : NodeRow) : NodeRow := {|
  AgentTokenHash := AgentTokenHash r; Engine := Engine r; Status := Online; LastSeenAt := Some now;
  TproxyVersion := coalesce tproxy (TproxyVersion r); AgentVersion := coalesce agent (AgentVersion r);
  TelemtVersion := if String.eqb (Engine r) "telemt" then coalesce telemt (TelemtVersion r) else TelemtVersion r;
  TelemtBuild := TelemtBuild r; LastHealth := LastHealth r;
  TelemtCapabilities := TelemtCapabilities r; CapabilitiesCheckedAt := CapabilitiesCheckedAt r
|}.

Definition SetNodeHeartbeat (now : Z) (status : NodeStatus) (health : Driver.HealthReport) (tproxy telemt build : string) (caps : option Driver.TelemtCapabilities) (r : NodeRow) : NodeRow := {|
  AgentTokenHash := AgentTokenHash r; Engine := Engine r; Status := status; LastSeenAt := Some now;
  TproxyVersion := coalesce tproxy (TproxyVersion r); AgentVersion := AgentVersion r;
  TelemtVersion := if String.eqb (Engine r) "telemt" then coalesce telemt (TelemtVersion r) else TelemtVersion r;
  TelemtBuild := coalesce build (TelemtBuild r); LastHealth := Some health;
  TelemtCapabilities := match caps with Some c => Some c | None => TelemtCapabilities r end;
  CapabilitiesCheckedAt := match caps with Some _ => Some now | None => CapabilitiesCheckedAt r end
|}.

Definition SetNodeStatus (status : NodeStatus) (r : NodeRow) : NodeRow := {|
  AgentTokenHash := AgentTokenHash r; Engine := Engine r; Status := status; LastSeenAt := LastSeenAt r;
  TproxyVersion := TproxyVersion r; AgentVersion := AgentVersion r; TelemtVersion := TelemtVersion r;
  TelemtBuild := TelemtBuild r; LastHealth := LastHealth r;
  TelemtCapabilities := TelemtCapabilities r; CapabilitiesCheckedAt := CapabilitiesCheckedAt r
|}.

(** No two nodes have the same hash. *)
Definition GetNodeByAgentToken (rows : gmap string NodeRow) (hash : string) : option string :=
  fst <$> head (filter (fun nr => AgentTokenHash nr.2 = Some hash) (map_to_list rows)).

Definition NodeByToken (rows : gmap string NodeRow) (token : string) : result string :=
  if String.eqb token EmptyString then Err "missing token"
  else match GetNodeByAgentToken rows (HashToken token) with Some n => Ok n | None => Err "unknown token" end.

(** ** The hooks *)

Definition telemtVersion (v : string) : string := Str.trim_space (Str.trim_prefix v "telemt ").

Definition heartbeat_status (h : PbHealth.HealthReport) : NodeStatus :=
  if negb (PbHealth.RelayActive h) || negb (PbHealth.MtproxyActive h) || negb (PbHealth.Healthz h) || negb (PbHealth.Readyz h) then Degraded else Online.

(** Each is one UPDATE of the row; [now] is when it ran, [None] when it failed,
    which the log alone tells.  A heartbeat without its health report is not
    one of them: [HealthFromProto] dereferences it. *)
Definition OnHello (now : option Z) (id : string) (h : Hello) (rows : gmap string NodeRow) : gmap string NodeRow :=
  match now with
  | Some t => alter (SetNodeOnline t (h_TproxyVersion h) (h_AgentVersion h) (telemtVersion (h_TproxyVersion h))) id rows
  | None => rows
  end.

Definition OnHeartbeat (now : option Z) (id : string) (h : PbHealth.HealthReport) (rows : gmap string NodeRow) : gmap string NodeRow :=
  match now with
  | Some t =>
      let report := HealthFromProto h in
      alter (SetNodeHeartbeat t (heartbeat_status h) report (PbHealth.TproxyVersion h) (telemtVersion (PbHealth.TproxyVersion h))
               (Driver.TelemtBuild report) (Driver.Capabilities report)) id rows
  | None => rows
  end.

Definition OnDisconnect (now : option Z) (id : string) (rows : gmap string NodeRow) : gmap string NodeRow :=
  match now with Some _ => alter (SetNodeStatus Offline) id rows | None => rows end.

Fixpoint bearer (md : list string) : string :=
  match md with
  | [] => EmptyString
  | v :: md => if Str.has_prefix v "Bearer " then Str.trim_prefix v "Bearer " else bearer md
  end.

(** ** Goroutines *)

(** The handler of a stream: [Session] up to its return. *)
Inductive handler :=
| HAuth
| HHello (node : string)
| HAdd (node : string) (hello : Hello)
| HReplace (c : nat) (hello : Hello) (old : nat)
| HReplaceClose (c : nat) (hello : Hello) (old : nat)
| HOnHello (c : nat) (hello : Hello)
| HSelect (c : nat)
| HClose (c : nat) (ret : option error)
| HCloseChan (c : nat) (ret : option error)
| HRemove (c : nat) (ret : option error)
| HOnDisconnect (c : nat) (ret : option error)
| HDone (c : option nat) (ret : option error).

Inductive sender := SOff | SLoop (c : nat) | SSend (c : nat) (e : Envelope) | SEnd.

Inductive receiver :=
| ROff
| RLoop (c : nat)
| RHeartbeat (c : nat) (h : option PbHealth.HealthReport)
| RDeliver (c : nat) (e : Envelope) (wait : bool)
| RTry (c : nat) (e : Envelope) (ch : nat) (wait : bool)
| RWait (c : nat) (e : Envelope) (ch : nat)
| REnd.

(** [ctx] is done when it is cancelled; [sendErr] and [recvErr] are the
    channels of the two goroutines. *)
Record session := {
  md : list string; s_ctx : bool; hnd : handler; snd_ : sender; rcv : receiver;
  sendErr : option (option error); recvErr : option error
}.

Inductive kind := KCall | KStream.

(** What [Call] returns. *)
Record returned := { resp : option Response; err : option error }.

(** [Call], [Stream] and the goroutine of the latter. *)
Inductive pc :=
| PGet
| PRegister (c : nat)
| PSend (c : nat) (rid : string) (ch : nat)
| PWait (c : nat) (rid : string) (ch : nat)
| PYield (c : nat) (rid : string) (ch : nat) (chunk : LogChunk)
| PCancel (c : nat) (rid : string)
| PUnregister (c : nat) (rid : string) (r : returned)
| PDone (rid : string) (r : returned).

(** [k_out] is what [out] holds: the consumer takes from it. *)
Record call := { k_kind : kind; k_node : string; k_req : Request; k_ctx : bool; k_pc : pc; k_out : list LogChunk }.

Record gateway := {
  conns : gmap string nat;
  heap : list conn; chans : list channel;
  sessions : list session; calls : list call;
  rows : gmap string NodeRow;
  panicked : bool
}.

Definition start (rows : gmap string NodeRow) : gateway :=
  {| conns := ∅; heap := []; chans := []; sessions := []; calls := []; rows := rows; panicked := false |}.

Definition set_conns (m : gmap string nat) (g : gateway) : gateway := {| conns := m; heap := heap g; chans := chans g; sessions := sessions g; calls := calls g; rows := rows g; panicked := panicked g |}.
Definition set_heap (l : list conn) (g : gateway) : gateway := {| conns := conns g; heap := l; chans := chans g; sessions := sessions g; calls := calls g; rows := rows g; panicked := panicked g |}.
Definition set_chans (l : list channel) (g : gateway) : gateway := {| conns := conns g; heap := heap g; chans := l; sessions := sessions g; calls := calls g; rows := rows g; panicked := panicked g |}.
Definition set_sessions (l : list session) (g : gateway) : gateway := {| conns := conns g; heap := heap g; chans := chans g; sessions := l; calls := calls g; rows := rows g; panicked := panicked g |}.
Definition set_calls (l : list call) (g : gateway) : gateway := {| conns := conns g; heap := heap g; chans := chans g; sessions := sessions g; calls := l; rows := rows g; panicked := panicked g |}.
Definition set_rows (m : gmap string NodeRow) (g : gateway) : gateway := {| conns := conns g; heap := heap g; chans := chans g; sessions := sessions g; calls := calls g; rows := m; panicked := panicked g |}.
Definition panic (g : gateway) : gateway := {| conns := conns g; heap := heap g; chans := chans g; sessions := sessions g; calls := calls g; rows := rows g; panicked := true |}.

Definition on_conn (c : nat) (f : conn -> conn) (g : gateway) : gateway := set_heap (alter f c (heap g)) g.
Definition is_closed (g : gateway) (c : nat) : bool := match heap g !! c with Some x => closed x | None => false end.

(** [close(c.closed)]: closing twice panics. *)
Definition close_chan (c : nat) (g : gateway) : gateway := if is_closed g c then panic g else on_conn c set_closed g.

Definition to_handler (h : handler) (s : session) : session := {| md := md s; s_ctx := s_ctx s; hnd := h; snd_ := snd_ s; rcv := rcv s; sendErr := sendErr s; recvErr := recvErr s |}.
Definition to_sender (x : sender) (e : option (option error)) (s : session) : session := {| md := md s; s_ctx := s_ctx s; hnd := hnd s; snd_ := x; rcv := rcv s; sendErr := e; recvErr := recvErr s |}.
Definition to_receiver (x : receiver) (e : option error) (s : session) : session := {| md := md s; s_ctx := s_ctx s; hnd := hnd s; snd_ := snd_ s; rcv := x; sendErr := sendErr s; recvErr := e |}.
Definition ctx_done (s : session) : session := {| md := md s; s_ctx := true; hnd := hnd s; snd_ := snd_ s; rcv := rcv s; sendErr := sendErr s; recvErr := recvErr s |}.

Definition at_session (i : nat) (s : session) (g : gateway) : gateway := set_sessions (<[i := s]> (sessions g)) g.
Definition at_call (i : nat) (k : call) (g : gateway) : gateway := set_calls (<[i := k]> (calls g)) g.
Definition to_pc (p : pc) (k : call) : call := {| k_kind := k_kind k; k_node := k_node k; k_req := k_req k; k_ctx := k_ctx k; k_pc := p; k_out := k_out k |}.

(** ** Steps *)

(** What the outside, or the choice of a [select], puts into a step. *)
Inductive input :=
| Go
| Query (failed : option error)
| Message (m : result Envelope)
| Wrote (now : option Z)
| Sent (e : option error)
| Id (rid : string)
| OnSendErr | OnRecvErr | OnClosed | OnCtx | OnChan | OnTimeout.

(** The [select] the handler waits in, and what it returns then. *)
Definition session_end (s : session) (c : nat) (x : input) (g : gateway) : option (option error) :=
  match x with
  | OnSendErr => sendErr s
  | OnRecvErr => e ← recvErr s; Some (if s_ctx s then None else Some e)
  | OnClosed => if is_closed g c then Some (Some "replaced by a newer session"%string) else None
  | _ => None
  end.

Definition handler_step (i : nat) (s : session) (x : input) (g : gateway) : option gateway :=
  let to h g := Some (at_session i (to_handler h s) g) in
  match hnd s, x with
  | HAuth, Query (Some _) => to (HDone None (Some "invalid node token"%string)) g
  | HAuth, Query None =>
      match NodeByToken (rows g) (bearer (md s)) with
      | Ok n => to (HHello n) g
      | Err _ => to (HDone None (Some "invalid node token"%string)) g
      end
  | HHello n, Message (Err e) => to (HDone None (Some e)) g
  | HHello n, Message (Ok env) =>
      match Body env with
      | BHello h => to (HAdd n h) g
      | _ => to (HDone None (Some "first message must be Hello"%string)) g
      end
  | HAdd n h, Go =>
      let c := length (heap g) in
      let g' := set_conns (<[n := c]> (conns g)) (set_heap (heap g ++ [newConn n]) g) in
      match conns g !! n with
      | Some old => to (HReplace c h old) g'
      | None => to (HOnHello c h) g'
      end
  | HReplace c h old, Go => if is_closed g old then to (HOnHello c h) g else to (HReplaceClose c h old) g
  | HReplaceClose c h old, Go => to (HOnHello c h) (close_chan old g)
  | HOnHello c h, Wrote now =>
      n ← nodeID <$> heap g !! c;
      Some (at_session i {| md := md s; s_ctx := s_ctx s; hnd := HSelect c; snd_ := SLoop c; rcv := RLoop c; sendErr := None; recvErr := None |}
              (set_rows (OnHello now n h (rows g)) g))
  | HSelect c, _ => r ← session_end s c x g; to (HClose c r) g
  | HClose c r, Go => if is_closed g c then to (HRemove c r) g else to (HCloseChan c r) g
  | HCloseChan c r, Go => to (HRemove c r) (close_chan c g)
  | HRemove c r, Go =>
      n ← nodeID <$> heap g !! c;
      if decide (conns g !! n = Some c) then to (HOnDisconnect c r) (set_conns (delete n (conns g)) g)
      else to (HDone (Some c) r) g
  | HOnDisconnect c r, Wrote now =>
      n ← nodeID <$> heap g !! c;
      to (HDone (Some c) r) (set_rows (OnDisconnect now n (rows g)) g)
  | _, _ => None
  end.

(** The goroutine that writes to the stream. *)
Definition sender_step (i : nat) (s : session) (x : input) (g : gateway) : option gateway :=
  let to a e g := Some (at_session i (to_sender a e s) g) in
  match snd_ s, x with
  | SLoop c, OnChan =>
      k ← heap g !! c;
      match send_ k with
      | e :: l => to (SSend c e) (sendErr s) (on_conn c (with_send l) g)
      | [] => None
      end
  | SLoop c, OnClosed => if is_closed g c then to SEnd (Some None) g else None
  | SLoop c, OnCtx => if s_ctx s then to SEnd (Some (Some "context canceled"%string)) g else None
  | SSend c _, Sent None => to (SLoop c) (sendErr s) g
  | SSend c _, Sent (Some e) => to SEnd (Some (Some e)) g
  | _, _ => None
  end.

Definition deliver_to (ch : nat) (e : Envelope) (g : gateway) : option gateway :=
  x ← chans g !! ch;
  if (length (ch_buf x) <? chan_cap)%nat then Some (set_chans (<[ch := push e x]> (chans g)) g) else None.

(** The goroutine that reads from it, with [deliver] and [deliverNoWait]. *)
Definition receiver_step (i : nat) (s : session) (x : input) (g : gateway) : option gateway :=
  let to a g := Some (at_session i (to_receiver a (recvErr s) s) g) in
  match rcv s, x with
  | RLoop c, Message (Err e) => Some (at_session i (to_receiver REnd (Some e) s) g)
  | RLoop c, Message (Ok env) =>
      match Body env with
      | BHeartbeat h => to (RHeartbeat c h) g
      | BResponse _ => to (RDeliver c env true) g
      | BLogChunk _ => to (RDeliver c env false) g
      | _ => to (RLoop c) g
      end
  | RHeartbeat c None, _ => Some (panic g)
  | RHeartbeat c (Some h), Wrote now =>
      n ← nodeID <$> heap g !! c;
      to (RLoop c) (set_rows (OnHeartbeat now n h (rows g)) g)
  | RDeliver c env wait, Go =>
      k ← heap g !! c;
      match pending k !! RequestId env with
      | Some ch => to (RTry c env ch wait) g
      | None => to (RLoop c) g
      end
  | RTry c env ch wait, Go =>
      match deliver_to ch env g with
      | Some g' => to (RLoop c) g'
      | None => to (if wait then RWait c env ch else RLoop c) g
      end
  | RWait c env ch, OnChan => g' ← deliver_to ch env g; to (RLoop c) g'
  | RWait c env ch, OnClosed => if is_closed g c then to (RLoop c) g else None
  | RWait c env ch, OnTimeout => to (RLoop c) g
  | _, _ => None
  end.

(** [Registry.send], the branch of its [select] by the input: [None] is sent. *)
Definition registry_send (c : nat) (done : bool) (e : Envelope) (x : input) (g : gateway) : option (gateway * option error) :=
  match x with
  | OnChan => k ← heap g !! c; if (length (send_ k) <? send_cap)%nat then Some (on_conn c (with_send (send_ k ++ [e])) g, None) else None
  | OnClosed => if is_closed g c then Some (g, Some "node offline"%string) else None
  | OnCtx => if done then Some (g, Some "context canceled"%string) else None
  | _ => None
  end.

Definition failed (e : error) : returned := {| resp := None; err := Some e |}.

(** The answer of [Call] to an envelope on its channel. *)
Definition call_answer (env : Envelope) : returned :=
  match GetResponse env with
  | None => failed "agent sent non-response"
  | Some r => {| resp := Some r; err := if String.eqb (Error r) EmptyString then None else Some (Error r) |}
  end.

Definition stream_over : returned := {| resp := None; err := None |}.
Definition request_of (k : call) (rid : string) : Envelope := {| RequestId := rid; Body := BRequest (k_req k) |}.
Definition cancel_of (rid : string) : Envelope := {| RequestId := EmptyString; Body := BRequest (Cancel rid) |}.
Definition take_chan (ch : nat) (g : gateway) : option (Envelope * gateway) :=
  x ← chans g !! ch;
  match ch_buf x with
  | e :: l => Some (e, set_chans (<[ch := {| ch_of := ch_of x; ch_buf := l |}]> (chans g)) g)
  | [] => None
  end.

Definition over (k : call) (c : nat) (rid : string) : pc :=
  match k_kind k with KCall => PUnregister c rid (failed "node offline") | KStream => PCancel c rid end.
Definition given_up (k : call) (c : nat) (rid : string) : pc :=
  match k_kind k with KCall => PUnregister c rid (failed "context canceled") | KStream => PCancel c rid end.

(** [uuid.NewString] is the input of the step that registers. *)
Definition call_step (i : nat) (k : call) (x : input) (g : gateway) : option gateway :=
  let to p g := Some (at_call i (to_pc p k) g) in
  match k_pc k, x with
  | PGet, Go => match conns g !! k_node k with Some c => to (PRegister c) g | None => to (PDone EmptyString (failed "node offline")) g end
  | PRegister c, Id rid =>
      let ch := length (chans g) in
      kc ← heap g !! c;
      to (PSend c rid ch) (on_conn c (with_pending (<[rid := ch]> (pending kc))) (set_chans (chans g ++ [{| ch_of := (c, rid); ch_buf := [] |}]) g))
  | PSend c rid ch, _ =>
      '(g, e) ← registry_send c (k_ctx k) (request_of k rid) x g;
      match e with None => to (PWait c rid ch) g | Some e => to (PUnregister c rid (failed e)) g end
  | PWait c rid ch, OnChan =>
      '(env, g) ← take_chan ch g;
      match k_kind k with
      | KCall => to (PUnregister c rid (call_answer env)) g
      | KStream => match GetLogChunk env with Some chunk => to (PYield c rid ch chunk) g | None => to (PWait c rid ch) g end
      end
  | PWait c rid _, OnClosed => if is_closed g c then to (over k c rid) g else None
  | PWait c rid _, OnCtx => if k_ctx k then to (given_up k c rid) g else None
  | PYield c rid ch chunk, OnChan =>
      if (length (k_out k) <? out_cap)%nat
      then let k' := {| k_kind := k_kind k; k_node := k_node k; k_req := k_req k; k_ctx := k_ctx k;
                        k_pc := if Done chunk then PCancel c rid else PWait c rid ch; k_out := k_out k ++ [chunk] |} in
           Some (at_call i k' g)
      else None
  | PYield c rid _ _, OnCtx => if k_ctx k then to (PCancel c rid) g else None
  | PCancel c rid, OnTimeout => to (PUnregister c rid stream_over) g
  | PCancel c rid, _ => '(g, _) ← registry_send c false (cancel_of rid) x g; to (PUnregister c rid stream_over) g
  | PUnregister c rid r, Go =>
      kc ← heap g !! c;
      to (PDone rid r) (on_conn c (with_pending (delete rid (pending kc))) g)
  | _, _ => None
  end.

(** ** Runs *)

Inductive action :=
| Connect (md : list string)
| Handler (i : nat) (x : input)
| Sender (i : nat) (x : input)
| Receiver (i : nat) (x : input)
| CtxEnd (i : nat)
| NewCall (k : kind) (node : string) (req : Request)
| CallStep (i : nat) (x : input)
| CallCtxEnd (i : nat)
| Read (i : nat)
| Elsewhere (rows : gmap string NodeRow).

Definition new_session (m : list string) : session := {| md := m; s_ctx := false; hnd := HAuth; snd_ := SOff; rcv := ROff; sendErr := None; recvErr := None |}.
Definition new_call (k : kind) (node : string) (req : Request) : call := {| k_kind := k; k_node := node; k_req := req; k_ctx := false; k_pc := PGet; k_out := [] |}.

(** The consumer of a stream takes a chunk; the context of a call or of a
    stream of the agent ends; the rest of the panel changes the rows. *)
Definition step (a : action) (g : gateway) : option gateway :=
  if panicked g then None
  else match a with
  | Connect m => Some (set_sessions (sessions g ++ [new_session m]) g)
  | Handler i x => s ← sessions g !! i; handler_step i s x g
  | Sender i x => s ← sessions g !! i; sender_step i s x g
  | Receiver i x => s ← sessions g !! i; receiver_step i s x g
  | CtxEnd i => s ← sessions g !! i; Some (at_session i (ctx_done s) g)
  | NewCall k n r => Some (set_calls (calls g ++ [new_call k n r]) g)
  | CallStep i x => k ← calls g !! i; call_step i k x g
  | CallCtxEnd i =>
      k ← calls g !! i;
      Some (at_call i {| k_kind := k_kind k; k_node := k_node k; k_req := k_req k; k_ctx := true; k_pc := k_pc k; k_out := k_out k |} g)
  | Read i =>
      k ← calls g !! i;
      match k_out k with
      | _ :: l => Some (at_call i {| k_kind := k_kind k; k_node := k_node k; k_req := k_req k; k_ctx := k_ctx k; k_pc := k_pc k; k_out := l |} g)
      | [] => None
      end
  | Elsewhere r => Some (set_rows r g)
  end.

(** What happened, from the panel's start on. *)
Inductive reach (r : gmap string NodeRow) : list action -> gateway -> Prop :=
| reach_start : reach r [] (start r)
| reach_step acts g a g' : reach r acts g -> step a g = Some g' -> reach r (acts ++ [a]) g'.

Fixpoint run (l : list action) (g : gateway) : option gateway :=
  match l with [] => Some g | a :: l => g ← step a g; run l g end.
