(* ===== verification/GatewaySafety.v ===== *)
(** * What the gateway promises

    Whatever the order of the goroutines, an answer comes from the node that
    was asked and a request goes to no other ([nodes_kept_apart]).  The
    invariants are kept operation by operation on the shared objects; a step is
    a few of them in a row.  The registry and the end of a call are in
    GatewayRegistry.v. *)

From S2P Require Import Prelude Crypto AgentProto Convert Gateway.

Local Open Scope go_scope.

(** ** The shared objects grow *)

Definition node_of (g : gateway) (c : nat) : option string := nodeID <$> heap g !! c.
Definition chan_of (g : gateway) (ch : nat) : option (nat * string) := ch_of <$> chans g !! ch.

(** A connection keeps its node and a channel what it was made for. *)
Record ext (g g' : gateway) : Prop := {
  ext_node : forall c n, node_of g c = Some n -> node_of g' c = Some n;
  ext_chan : forall ch o, chan_of g ch = Some o -> chan_of g' ch = Some o
}.

Lemma ext_same g g' : heap g' = heap g -> chans g' = chans g -> ext g g'.
Proof. intros Eh Ec. split; intros *; unfold node_of, chan_of; by rewrite ?Eh, ?Ec. Qed.

Lemma ext_refl g : ext g g.
Proof. by apply ext_same. Qed.

Lemma ext_trans g1 g2 g3 : ext g1 g2 -> ext g2 g3 -> ext g1 g3.
Proof. intros [A B] [C D]. split; auto. Qed.

Lemma node_alter g c f c' : (forall k, nodeID (f k) = nodeID k) -> node_of (on_conn c f g) c' = node_of g c'.
Proof.
  intros Hf. unfold node_of, on_conn. cbn. destruct (decide (c = c')) as [->|Hne]; [|by rewrite list_lookup_alter_ne].
  rewrite list_lookup_alter_eq. destruct (heap g !! c') as [k|]; [|done]. cbn. by rewrite Hf.
Qed.

Lemma ext_on_conn g c f : (forall k, nodeID (f k) = nodeID k) -> ext g (on_conn c f g).
Proof. intros Hf. split; [|done]. intros c' n. by rewrite node_alter. Qed.

Lemma ext_append_conn g k : ext g (set_heap (heap g ++ [k]) g).
Proof. split; [|done]. intros c n. unfold node_of. cbn. intros E. destruct (heap g !! c) as [x|] eqn:Ex; [|done]. by rewrite (lookup_app_l_Some _ _ _ _ Ex). Qed.

Lemma ext_append_chan g x : ext g (set_chans (chans g ++ [x]) g).
Proof. split; [done|]. intros c n. unfold chan_of. cbn. intros E. destruct (chans g !! c) as [y|] eqn:Ey; [|done]. by rewrite (lookup_app_l_Some _ _ _ _ Ey). Qed.

Lemma ext_set_chan g ch x y : chans g !! ch = Some x -> ch_of y = ch_of x -> ext g (set_chans (<[ch := y]> (chans g)) g).
Proof.
  intros Ex Ey. split; [done|]. intros c o. unfold chan_of. cbn. destruct (decide (c = ch)) as [->|Hne].
  - rewrite Ex. rewrite list_lookup_insert_eq by (by eapply lookup_lt_Some). cbn. by rewrite Ey.
  - by rewrite list_lookup_insert_ne by done.
Qed.

Lemma ext_close c g : ext g (close_chan c g).
Proof. unfold close_chan. destruct (is_closed g c); [by apply ext_same|by apply ext_on_conn]. Qed.

#[export] Hint Resolve ext_on_conn ext_append_conn ext_append_chan ext_close : gateway.

(** ** Attribution *)

Section Attribution.
Context (r0 : gmap string NodeRow).

(** The stream [i] came with the token of node [n], as the rows were when it
    was looked up. *)
Definition authenticated (acts : list action) (i : nat) (n : string) : Prop :=
  exists acts1 acts2 g s, acts = acts1 ++ Handler i (Query None) :: acts2 /\ reach r0 acts1 g /\
    sessions g !! i = Some s /\ hnd s = HAuth /\ NodeByToken (rows g) (bearer (md s)) = Ok n.

(** The agent of node [n] sent the envelope. *)
Definition said (acts : list action) (n : string) (e : Envelope) : Prop := exists i, authenticated acts i n /\ Receiver i (Message (Ok e)) ∈ acts.

Definition held (acts : list action) (g : gateway) (i c : nat) : Prop := exists n, node_of g c = Some n /\ authenticated acts i n.

Definition handler_ok (acts : list action) (g : gateway) (i : nat) (h : handler) : Prop :=
  match h with
  | HAuth | HDone None _ => True
  | HHello n | HAdd n _ => authenticated acts i n
  | HReplace c _ _ | HReplaceClose c _ _ | HOnHello c _ | HSelect c | HClose c _ | HCloseChan c _ | HRemove c _ | HOnDisconnect c _ | HDone (Some c) _ => held acts g i c
  end.

Definition receiver_ok (acts : list action) (g : gateway) (i : nat) (r : receiver) : Prop :=
  match r with
  | ROff | REnd => True
  | RLoop c | RHeartbeat c _ => held acts g i c
  | RDeliver c e _ => held acts g i c /\ Receiver i (Message (Ok e)) ∈ acts
  | RTry c e ch _ | RWait c e ch => held acts g i c /\ Receiver i (Message (Ok e)) ∈ acts /\ chan_of g ch = Some (c, RequestId e)
  end.

Definition sender_ok (acts : list action) (g : gateway) (i : nat) (a : sender) : Prop :=
  match a with SLoop c | SSend c _ => held acts g i c | SOff | SEnd => True end.

Definition session_ok (acts : list action) (g : gateway) (i : nat) (s : session) : Prop :=
  handler_ok acts g i (hnd s) /\ receiver_ok acts g i (rcv s) /\ sender_ok acts g i (snd_ s).

Definition conn_ok (g : gateway) (c : nat) (k : conn) : Prop := forall rid ch, pending k !! rid = Some ch -> chan_of g ch = Some (c, rid).

Definition from_node (acts : list action) (g : gateway) (o : nat * string) (e : Envelope) : Prop :=
  RequestId e = o.2 /\ exists n, node_of g o.1 = Some n /\ said acts n e.

Definition chan_ok (acts : list action) (g : gateway) (x : channel) : Prop := forall e, e ∈ ch_buf x -> from_node acts g (ch_of x) e.

(** An answer and a chunk of the node asked, under the request's own id. *)
Definition returned_ok (acts : list action) (n rid : string) (r : returned) : Prop :=
  forall a, resp r = Some a -> exists e, said acts n e /\ RequestId e = rid /\ Body e = BResponse a.
Definition chunk_ok (acts : list action) (n rid : string) (x : LogChunk) : Prop :=
  exists e, said acts n e /\ RequestId e = rid /\ Body e = BLogChunk x.

Definition call_rid (p : pc) : option string :=
  match p with
  | PGet | PRegister _ => None
  | PSend _ rid _ | PWait _ rid _ | PYield _ rid _ _ | PCancel _ rid | PUnregister _ rid _ | PDone rid _ => Some rid
  end.

Definition pc_ok (acts : list action) (g : gateway) (kd : kind) (n : string) (p : pc) : Prop :=
  match p with
  | PGet => True
  | PRegister c => node_of g c = Some n
  | PSend c rid ch | PWait c rid ch => node_of g c = Some n /\ chan_of g ch = Some (c, rid)
  | PYield c rid ch x => kd = KStream /\ node_of g c = Some n /\ chan_of g ch = Some (c, rid) /\ chunk_ok acts n rid x
  | PCancel c rid => kd = KStream /\ node_of g c = Some n
  | PUnregister c rid r => node_of g c = Some n /\ returned_ok acts n rid r
  | PDone rid r => returned_ok acts n rid r
  end.

Definition call_ok (acts : list action) (g : gateway) (k : call) : Prop :=
  pc_ok acts g (k_kind k) (k_node k) (k_pc k) /\ forall x, x ∈ k_out k -> exists rid, call_rid (k_pc k) = Some rid /\ chunk_ok acts (k_node k) rid x.

Record attributed (acts : list action) (g : gateway) : Prop := {
  at_conns : forall n c, conns g !! n = Some c -> node_of g c = Some n;
  at_heap : forall c k, heap g !! c = Some k -> conn_ok g c k;
  at_chans : forall ch x, chans g !! ch = Some x -> chan_ok acts g x;
  at_sessions : forall i s, sessions g !! i = Some s -> session_ok acts g i s;
  at_calls : forall i k, calls g !! i = Some k -> call_ok acts g k
}.

(** *** Growing history and objects *)

Lemma authenticated_more acts a i n : authenticated acts i n -> authenticated (acts ++ a) i n.
Proof. intros (a1 & a2 & g & s & -> & H). exists a1, (a2 ++ a), g, s. by rewrite <- app_assoc. Qed.

Lemma said_more acts a n e : said acts n e -> said (acts ++ a) n e.
Proof. intros (i & Ha & Hm). exists i. split; [by apply authenticated_more|]. apply elem_of_app. by left. Qed.

Lemma held_more acts a g g' i c : ext g g' -> held acts g i c -> held (acts ++ a) g' i c.
Proof. intros He (n & Hn & Ha). exists n. split; [by apply (ext_node _ _ He)|by apply authenticated_more]. Qed.

Lemma chunk_more acts a n rid x : chunk_ok acts n rid x -> chunk_ok (acts ++ a) n rid x.
Proof. intros (e & Hs & He). exists e. split; [by apply said_more|done]. Qed.

Lemma returned_more acts a n rid r : returned_ok acts n rid r -> returned_ok (acts ++ a) n rid r.
Proof. intros Hr x Hx. destruct (Hr x Hx) as (e & Hs & He). exists e. split; [by apply said_more|done]. Qed.

Lemma session_more acts a g g' i s : ext g g' -> session_ok acts g i s -> session_ok (acts ++ a) g' i s.
Proof.
  intros He (Hh & Hr & Hw). split_and!; [| |destruct (snd_ s); cbn in *; try done; by eapply held_more].
  - destruct (hnd s) as [| | | | | | | | | | |[c|]]; cbn in *; try done; by (eapply held_more || apply authenticated_more).
  - destruct (rcv s); cbn in *; try done; try by eapply held_more.
    + destruct Hr as [Hr Hm]. split; [by eapply held_more|]. apply elem_of_app. by left.
    + destruct Hr as (Hr & Hm & Hc). split_and!; [by eapply held_more|apply elem_of_app; by left|by apply (ext_chan _ _ He)].
    + destruct Hr as (Hr & Hm & Hc). split_and!; [by eapply held_more|apply elem_of_app; by left|by apply (ext_chan _ _ He)].
Qed.

Lemma chan_more acts a g g' x : ext g g' -> chan_ok acts g x -> chan_ok (acts ++ a) g' x.
Proof. intros He Hx e Hin. destruct (Hx e Hin) as (Hr & n & Hn & Hs). split; [done|]. exists n. split; [by apply (ext_node _ _ He)|by apply said_more]. Qed.

Lemma pc_more acts a g g' kd n p : ext g g' -> pc_ok acts g kd n p -> pc_ok (acts ++ a) g' kd n p.
Proof.
  intros [Hn Hc]. destruct p; cbn; intros; destruct_and?; split_and?; eauto using chunk_more, returned_more.
Qed.

Lemma call_more acts a g g' k : ext g g' -> call_ok acts g k -> call_ok (acts ++ a) g' k.
Proof. intros He [Hp Ho]. split; [by eapply pc_more|]. intros x Hx. destruct (Ho x Hx) as (rid & Hr & Hc). exists rid. split; [done|by apply chunk_more]. Qed.

(** *** Operations on the shared objects *)

Notation attr := attributed (only parsing).

Lemma attr_ext acts g g' : attr acts g -> ext g g' -> conns g' = conns g -> sessions g' = sessions g -> calls g' = calls g ->
  (forall c k, heap g' !! c = Some k -> conn_ok g' c k) -> (forall ch x, chans g' !! ch = Some x -> chan_ok acts g' x) -> attr acts g'.
Proof.
  intros [Hc _ _ Hs Hk] He Ec Es Ek Hh Hx. split; [|done|done|..].
  - intros n c. rewrite Ec. intros E. by apply (ext_node _ _ He), Hc.
  - intros i s. rewrite Es. intros E. rewrite <- (app_nil_r acts). by eapply session_more, Hs.
  - intros i k. rewrite Ek. intros E. rewrite <- (app_nil_r acts). by eapply call_more, Hk.
Qed.

Lemma attr_acts acts a g : attr acts g -> attr (acts ++ a) g.
Proof.
  assert (He : ext g g) by (by apply ext_same). intros [Hc Hh Hx Hs Hk]. split; try done.
  - intros ch x E. by eapply chan_more, Hx.
  - intros i s E. by eapply session_more, Hs.
  - intros i k E. by eapply call_more, Hk.
Qed.

Lemma attr_session acts g i s : attr acts g -> session_ok acts g i s -> attr acts (at_session i s g).
Proof.
  intros [Hc Hh Hx Hs Hk] Hok. split; try done. intros j s'. cbn. intros [(-> & <- & _)|[_ E]]%list_lookup_insert_Some; [done|by apply Hs].
Qed.

Lemma attr_call acts g i k : attr acts g -> call_ok acts g k -> attr acts (at_call i k g).
Proof.
  intros [Hc Hh Hx Hs Hk] Hok. split; try done. intros j k'. cbn. intros [(-> & <- & _)|[_ E]]%list_lookup_insert_Some; [done|by eapply Hk].
Qed.

Lemma attr_rows acts g r : attr acts g -> attr acts (set_rows r g).
Proof. by intros []. Qed.

Lemma attr_panic acts g : attr acts g -> attr acts (panic g).
Proof. by intros []. Qed.

Lemma conn_more g g' c k : ext g g' -> conn_ok g c k -> conn_ok g' c k.
Proof. intros He Hk rid ch E. by apply (ext_chan _ _ He), Hk. Qed.

Lemma attr_on_conn acts g c f : attr acts g -> (forall k, nodeID (f k) = nodeID k) -> (forall k, conn_ok g c k -> conn_ok g c (f k)) -> attr acts (on_conn c f g).
Proof.
  intros Ha Hn Hf. pose proof (ext_on_conn g c f Hn) as He. apply (attr_ext acts g); try done.
  - intros c' k. cbn. destruct (decide (c = c')) as [<-|Hne].
    + rewrite list_lookup_alter_eq. destruct (heap g !! c) as [k0|] eqn:E; [|done]. intros [= <-]. by eapply conn_more, Hf, at_heap.
    + rewrite list_lookup_alter_ne by done. intros E. by eapply conn_more, at_heap.
  - intros ch x E. rewrite <- (app_nil_r acts). by eapply chan_more, at_chans.
Qed.

Lemma attr_close acts g c : attr acts g -> attr acts (close_chan c g).
Proof. intros Ha. unfold close_chan. destruct (is_closed g c); [by apply attr_panic|by apply attr_on_conn]. Qed.

Lemma attr_chans acts g l : attr acts g -> ext g (set_chans l g) -> (forall ch x, l !! ch = Some x -> chan_ok acts g x) -> attr acts (set_chans l g).
Proof.
  intros Ha He Hx. apply (attr_ext acts g); try done. intros c k E. by eapply conn_more, at_heap.
Qed.

Lemma attr_new_chan acts g o : attr acts g -> attr acts (set_chans (chans g ++ [{| ch_of := o; ch_buf := [] |}]) g).
Proof.
  intros Ha. apply attr_chans; [done|apply ext_append_chan|]. intros ch x [E|[_ [_ <-]%list_lookup_singleton_Some]]%lookup_app_Some; [by eapply at_chans|].
  by intros e He%elem_of_nil.
Qed.

Lemma deliver_keeps acts g g' ch e o : attr acts g -> deliver_to ch e g = Some g' -> chan_of g ch = Some o -> from_node acts g o e -> attr acts g' /\ ext g g'.
Proof.
  intros Ha. unfold deliver_to, chan_of. destruct (chans g !! ch) as [x|] eqn:Ex; [|done]. cbn [mbind option_bind fmap option_fmap option_map]. destruct (_ <? _)%nat; [|done]. intros [= <-] [= <-] Hf.
  assert (He : ext g (set_chans (<[ch := push e x]> (chans g)) g)) by (by eapply ext_set_chan). split; [|done]. apply attr_chans; [done..|].
  intros ch' x' [(_ & <- & _)|[_ E]]%list_lookup_insert_Some; [|by eapply at_chans]. cbn. intros e' Hin. apply elem_of_app in Hin as [Hin| ->%list_elem_of_singleton]; [|done].
  by eapply at_chans in Ex; [apply Ex|].
Qed.

Lemma take_keeps acts g g' ch e o : attr acts g -> take_chan ch g = Some (e, g') -> chan_of g ch = Some o -> attr acts g' /\ ext g g' /\ from_node acts g o e.
Proof.
  intros Ha. unfold take_chan, chan_of. destruct (chans g !! ch) as [x|] eqn:Ex; [|done]. cbn. destruct (ch_buf x) as [|e0 l] eqn:El; [done|]. intros [= -> <-] [= <-].
  assert (Hx : chan_ok acts g x) by (by eapply at_chans). unfold chan_ok in Hx. rewrite El in Hx.
  assert (He : ext g (set_chans (<[ch := {| ch_of := ch_of x; ch_buf := l |}]> (chans g)) g)) by (by eapply ext_set_chan).
  split_and!; [|done|apply Hx; by left]. apply attr_chans; [done..|].
  intros ch' x' [(_ & <- & _)|[_ E]]%list_lookup_insert_Some; [|by eapply at_chans]. intros e' Hin. cbn in *. apply Hx. by right.
Qed.

Lemma send_keeps acts g g' c done_ e x r : attr acts g -> registry_send c done_ e x g = Some (g', r) -> attr acts g' /\ ext g g'.
Proof.
  intros Ha. assert (He : ext g g) by (by apply ext_same). unfold registry_send. destruct x; try done.
  - destruct (is_closed g c); [|done]. by intros [= <- _].
  - destruct done_; [|done]. by intros [= <- _].
  - destruct (heap g !! c); [|done]. cbn [mbind option_bind fmap option_fmap option_map]. destruct (_ <? _)%nat; [|done]. intros [= <- _]. split; [by apply attr_on_conn|by apply ext_on_conn].
Qed.

Lemma attr_add acts g n : attr acts g ->
  let g' := set_conns (<[n := length (heap g)]> (conns g)) (set_heap (heap g ++ [newConn n]) g) in attr acts g' /\ ext g g' /\ node_of g' (length (heap g)) = Some n.
Proof.
  intros Ha g'. assert (He : ext g g') by (destruct (ext_append_conn g (newConn n)); by split).
  assert (Hn : node_of g' (length (heap g)) = Some n) by (unfold node_of, g'; cbn; by rewrite lookup_app_r, Nat.sub_diag by lia).
  split_and!; try done. destruct Ha as [Hc Hh Hx Hs Hk]. split.
  - intros m c. unfold g'. cbn. intros [[<- <-]|[_ E]]%lookup_insert_Some; [done|]. by apply (ext_node _ _ He), Hc.
  - intros c k. unfold g'. cbn. intros [E|[_ [_ <-]%list_lookup_singleton_Some]]%lookup_app_Some; [by eapply conn_more, Hh|]. intros rid ch. cbn. by rewrite lookup_empty.
  - intros ch x E. rewrite <- (app_nil_r acts). by eapply chan_more, Hx.
  - intros i s E. rewrite <- (app_nil_r acts). by eapply session_more, Hs.
  - intros i k E. rewrite <- (app_nil_r acts). by eapply call_more, Hk.
Qed.

Lemma attr_delete acts g n : attr acts g -> attr acts (set_conns (delete n (conns g)) g).
Proof. intros [Hc Hh Hx Hs Hk]. split; try done. intros m c. cbn. intros [_ E]%lookup_delete_Some. by apply Hc. Qed.

(** *** Steps *)

Lemma session_ext acts g g' i s : ext g g' -> session_ok acts g i s -> session_ok acts g' i s.
Proof. intros He Hs. rewrite <- (app_nil_r acts). by eapply session_more. Qed.

Lemma held_ext acts g g' i c : ext g g' -> held acts g i c -> held acts g' i c.
Proof. intros He Hs. rewrite <- (app_nil_r acts). by eapply held_more. Qed.

Lemma handler_to acts g g1 i s h : attr acts g1 -> ext g g1 -> session_ok acts g i s -> handler_ok acts g1 i h -> attr acts (at_session i (to_handler h s) g1).
Proof. intros Ha He Hs Hh. apply attr_session; [done|]. destruct (session_ext _ _ _ _ _ He Hs) as (_ & Hr & Hw). by split. Qed.

Lemma receiver_to acts g g1 i s r e : attr acts g1 -> ext g g1 -> session_ok acts g i s -> receiver_ok acts g1 i r -> attr acts (at_session i (to_receiver r e s) g1).
Proof. intros Ha He Hs Hr. apply attr_session; [done|]. destruct (session_ext _ _ _ _ _ He Hs) as (Hh & _ & Hw). by split. Qed.

Lemma sender_to acts g g1 i s x e : attr acts g1 -> ext g g1 -> session_ok acts g i s -> sender_ok acts g1 i x -> attr acts (at_session i (to_sender x e s) g1).
Proof. intros Ha He Hs Hx. apply attr_session; [done|]. destruct (session_ext _ _ _ _ _ He Hs) as (Hh & Hr & _). by split. Qed.

Lemma GetNodeByAgentToken_spec rows h n : GetNodeByAgentToken rows h = Some n -> exists r, rows !! n = Some r /\ AgentTokenHash r = Some h.
Proof.
  unfold GetNodeByAgentToken. destruct (filter _ _) as [|[m r] l] eqn:E; [done|]. intros [= <-]. exists r.
  assert (Hin : (m, r) ∈ filter (fun nr => AgentTokenHash nr.2 = Some h) (map_to_list rows)) by (rewrite E; by left).
  apply list_elem_of_filter in Hin as [Hh Hm%elem_of_map_to_list]. done.
Qed.

Lemma handler_keeps acts g i s x g' : reach r0 acts g -> attr acts g -> sessions g !! i = Some s -> handler_step i s x g = Some g' -> attr (acts ++ [Handler i x]) g'.
Proof.
  intros Hreach Ha Hs Hstep. pose proof (at_sessions _ _ Ha _ _ Hs) as Hok. eapply (session_more _ [Handler i x] g g) in Hok; [|apply ext_refl].
  eapply (attr_acts _ [Handler i x]) in Ha. pose proof Hok as (Hh & Hr & _). unfold handler_step in Hstep. destruct (hnd s) as [|n|n h|c h o|c h o|c h|c|c r|c r|c r|c r|] eqn:Eh; destruct x as [|q|[env|e]|now|e|rid| | | | | |]; try done; cbn in Hh.
  - destruct q as [q|]; [injection Hstep as <-; by apply (handler_to _ g); [..|done|]; [|apply ext_refl|]|].
    destruct (NodeByToken (rows g) (bearer (md s))) as [n|] eqn:En; injection Hstep as <-; (apply (handler_to _ g); [done|apply ext_refl|done|]); [|done].
    exists acts, [], g, s. done.
  - destruct (Body env); injection Hstep as <-; by apply (handler_to _ g); [..|apply ext_refl|done|].
  - injection Hstep as <-. by apply (handler_to _ g); [..|apply ext_refl|done|].
  - destruct (attr_add _ _ n Ha) as (Ha' & He' & Hn').
    destruct (conns g !! n) as [old|]; injection Hstep as <-; (apply (handler_to _ g); [done..|]); by exists n.
  - destruct (is_closed g o); injection Hstep as <-; by apply (handler_to _ g); [..|apply ext_refl|done|].
  - injection Hstep as <-. apply (handler_to _ g); [by apply attr_close|apply ext_close|done|]. by apply (held_ext _ g); [apply ext_close|].
  - destruct (heap g !! c) as [k|] eqn:Ek; [|done]. cbn in Hstep. injection Hstep as <-. apply attr_session; [by apply attr_rows|]. by split.
  - destruct (session_end _ _ _ _); [|done]. injection Hstep as <-. by apply (handler_to _ g); [..|apply ext_refl|done|].
  - destruct (session_end _ _ _ _); [|done]. injection Hstep as <-. by apply (handler_to _ g); [..|apply ext_refl|done|].
  - destruct (session_end _ _ _ _); [|done]. injection Hstep as <-. by apply (handler_to _ g); [..|apply ext_refl|done|].
  - destruct (is_closed g c); injection Hstep as <-; by apply (handler_to _ g); [..|apply ext_refl|done|].
  - injection Hstep as <-. apply (handler_to _ g); [by apply attr_close|apply ext_close|done|]. by apply (held_ext _ g); [apply ext_close|].
  - destruct (heap g !! c) as [k|] eqn:Ek; [|done]. cbn in Hstep. destruct (decide _); injection Hstep as <-.
    + by apply (handler_to _ g); [apply attr_delete| |done|].
    + by apply (handler_to _ g); [..|apply ext_refl|done|].
  - destruct (heap g !! c) as [k|] eqn:Ek; [|done]. cbn in Hstep. injection Hstep as <-. by apply (handler_to _ g); [apply attr_rows| |done|].
Qed.

Lemma sender_keeps acts g i s x g' : attr acts g -> sessions g !! i = Some s -> sender_step i s x g = Some g' -> attr acts g'.
Proof.
  intros Ha Hs Hstep. pose proof (at_sessions _ _ Ha _ _ Hs) as Hok. pose proof (ext_refl g) as He.
  pose proof Hok as (_ & _ & Hw). unfold sender_step in Hstep. destruct (snd_ s) as [|c|c e|]; destruct x as [| | | |e'| | | | | | |]; try done; cbn in Hstep, Hw.
  - destruct (is_closed g c); [|done]. injection Hstep as <-. by apply (sender_to _ g).
  - destruct (s_ctx s); [|done]. injection Hstep as <-. by apply (sender_to _ g).
  - destruct (heap g !! c) as [k|]; [|done]. cbn in Hstep. destruct (send_ k) as [|e l]; [done|]. injection Hstep as <-.
    apply (sender_to _ g); [by apply attr_on_conn|by apply ext_on_conn|done|]. by apply (held_ext _ g); [apply ext_on_conn|].
  - destruct e'; injection Hstep as <-; by apply (sender_to _ g).
Qed.

Lemma held_node acts g i c n : held acts g i c -> node_of g c = Some n -> authenticated acts i n.
Proof. intros (m & Hm & Ha) Hn. congruence. Qed.

(** What a receiver has in hand is the node's word. *)
Lemma in_hand acts g i c e : held acts g i c -> Receiver i (Message (Ok e)) ∈ acts -> from_node acts g (c, RequestId e) e.
Proof. intros (n & Hn & Ha) Hm. split; [done|]. exists n. split; [done|]. by exists i. Qed.

Lemma receiver_keeps acts g i s x g' : attr acts g -> sessions g !! i = Some s -> receiver_step i s x g = Some g' -> attr (acts ++ [Receiver i x]) g'.
Proof.
  intros Ha Hs Hstep. pose proof (at_sessions _ _ Ha _ _ Hs) as Hok. pose proof (ext_refl g) as He. eapply (session_more _ [Receiver i x] g g) in Hok; [|done].
  eapply (attr_acts _ [Receiver i x]) in Ha. pose proof Hok as (_ & Hr & _). assert (Hx : Receiver i x ∈ acts ++ [Receiver i x]) by (apply elem_of_app; right; by left).
  unfold receiver_step in Hstep. destruct (rcv s) as [|c|c [h|]|c e w|c e ch w|c e ch|]; try done; cbn in Hr.
  - destruct x as [| |[env|e]| | | | | | | | |]; try done.
    + destruct (Body env); injection Hstep as <-; by apply (receiver_to _ g).
    + injection Hstep as <-. by apply (receiver_to _ g).
  - destruct x; try done. destruct (heap g !! c) as [k|] eqn:Ek; [|done]. cbn in Hstep. injection Hstep as <-. by apply (receiver_to _ g); [apply attr_rows| |done|].
  - injection Hstep as <-. by apply attr_panic.
  - destruct Hr as [Hc Hm]. destruct x; try done. destruct (heap g !! c) as [k|] eqn:Ek; [|done]. cbn in Hstep.
    destruct (pending k !! RequestId e) as [ch|] eqn:Ep; injection Hstep as <-; apply (receiver_to _ g); try done. cbn. split_and!; try done. by eapply at_heap.
  - destruct Hr as (Hc & Hm & Ho). destruct x; try done. destruct (deliver_to ch e g) as [g1|] eqn:Ed; injection Hstep as <-.
    + eapply deliver_keeps in Ed as [Ha' He']; [|done..|by eapply in_hand]. apply (receiver_to _ g); try done. by apply (held_ext _ g).
    + apply (receiver_to _ g); try done. by destruct w.
  - destruct Hr as (Hc & Hm & Ho). destruct x; try done.
    + destruct (is_closed g c); [|done]. injection Hstep as <-. by apply (receiver_to _ g).
    + destruct (deliver_to ch e g) as [g1|] eqn:Ed; [|done]. cbn in Hstep. injection Hstep as <-.
      eapply deliver_keeps in Ed as [Ha' He']; [|done..|by eapply in_hand]. apply (receiver_to _ g); try done. by apply (held_ext _ g).
    + injection Hstep as <-. by apply (receiver_to _ g).
Qed.

(** *** Calls *)

Lemma call_ext acts g g' k : ext g g' -> call_ok acts g k -> call_ok acts g' k.
Proof. intros He Hk. rewrite <- (app_nil_r acts). by eapply call_more. Qed.

(** A program counter that keeps the id of the call. *)
Lemma call_to acts g g1 i k p : attr acts g1 -> ext g g1 -> call_ok acts g k -> pc_ok acts g1 (k_kind k) (k_node k) p -> (call_rid (k_pc k) = None \/ call_rid p = call_rid (k_pc k)) ->
  attr acts (at_call i (to_pc p k) g1).
Proof.
  intros Ha He Hk Hp Hr. apply attr_call; [done|]. destruct (call_ext _ _ _ _ He Hk) as [_ Ho]. split; [done|]. intros y Hy. destruct (Ho y Hy) as (rid & E & Hc).
  exists rid. split; [|done]. cbn. destruct Hr as [Hr|Hr]; congruence.
Qed.

Lemma failed_ok acts n rid e : returned_ok acts n rid (failed e).
Proof. by intros a. Qed.

Lemma over_ok acts n rid : returned_ok acts n rid stream_over.
Proof. by intros a. Qed.

Lemma answer_ok acts g c n rid e : node_of g c = Some n -> from_node acts g (c, rid) e -> returned_ok acts n rid (call_answer e).
Proof.
  intros Hn (Hr & m & Hm & Hs) a. cbn in *. unfold call_answer, GetResponse. destruct (Body e) eqn:Eb; try done. intros [= <-]. exists e. split_and!; congruence.
Qed.

Lemma call_keeps acts g i k x g' : attr acts g -> calls g !! i = Some k -> call_step i k x g = Some g' -> attr acts g'.
Proof.
  intros Ha Hk Hstep. pose proof (at_calls _ _ Ha _ _ Hk) as Hok. pose proof (ext_refl g) as He. pose proof Hok as [Hp _].
  unfold call_step in Hstep. destruct (k_pc k) as [|c|c rid ch|c rid ch|c rid ch y|c rid|c rid r|] eqn:Epc; cbn in Hp.
  - destruct x; try done. destruct (conns g !! k_node k) as [c|] eqn:Ec; injection Hstep as <-; apply (call_to _ g); try done; rewrite ?Epc; try (by left).
    by apply (at_conns _ _ Ha).
  - destruct x as [| | | | |rid| | | | | |]; try done. destruct (heap g !! c) as [kc|] eqn:Ekc; [|done]. cbn in Hstep. injection Hstep as <-.
    set (g1 := set_chans (chans g ++ [{| ch_of := (c, rid); ch_buf := [] |}]) g). pose proof (ext_append_chan g {| ch_of := (c, rid); ch_buf := [] |}) as He1. fold g1 in He1.
    assert (Ha1 : attr acts g1) by (by apply attr_new_chan). assert (Hch : chan_of g1 (length (chans g)) = Some (c, rid)) by (unfold chan_of, g1; cbn; by rewrite lookup_app_r, Nat.sub_diag by lia).
    assert (He2 : ext g1 (on_conn c (with_pending (<[rid := length (chans g)]> (pending kc))) g1)) by (by apply ext_on_conn).
    apply (call_to _ g); [|by eapply ext_trans|done| |rewrite Epc; by left].
    + apply attr_on_conn; [done|done|]. intros k0 _ rid' ch'. cbn. intros [[<- <-]|[_ E]]%lookup_insert_Some; [done|]. by eapply (at_heap _ _ Ha1).
    + split; [by apply (ext_node _ _ He2), (ext_node _ _ He1)|by apply (ext_chan _ _ He2)].
  - destruct Hp as [Hn Hc]. destruct (registry_send _ _ _ _ _) as [[g1 e]|] eqn:Es; [|done]. cbn in Hstep. eapply send_keeps in Es as [Ha1 He1]; [|done].
    destruct e; injection Hstep as <-; (apply (call_to _ g); [done..| |rewrite Epc; by right]); (split; [by apply (ext_node _ _ He1)|]); [apply failed_ok|by apply (ext_chan _ _ He1)].
  - destruct Hp as [Hn Hc]. destruct x; try done.
    + destruct (is_closed g c); [|done]. injection Hstep as <-. unfold over. destruct (k_kind k) eqn:Ekd; (apply (call_to _ g); [done..| |rewrite Epc; by right]); [split; [done|apply failed_ok]|done].
    + destruct (k_ctx k); [|done]. injection Hstep as <-. unfold given_up. destruct (k_kind k) eqn:Ekd; (apply (call_to _ g); [done..| |rewrite Epc; by right]); [split; [done|apply failed_ok]|done].
    + destruct (take_chan ch g) as [[env g1]|] eqn:Et; [|done]. cbn in Hstep. eapply take_keeps in Et as (Ha1 & He1 & Hf); [|done..]. pose proof (ext_node _ _ He1 _ _ Hn) as Hn1.
      destruct (k_kind k) eqn:Ekd; [|destruct (GetLogChunk env) as [y|] eqn:Ey]; injection Hstep as <-; (apply (call_to _ g); [done..| |rewrite Epc; by right]).
      * split; [done|by apply (answer_ok _ g c)].
      * split_and!; [done|done|by apply (ext_chan _ _ He1)|]. destruct Hf as (Hr & m & Hm & Hs). exists env. unfold GetLogChunk in Ey. destruct (Body env); try done. cbn in *.
        split_and!; congruence.
      * split; [done|by apply (ext_chan _ _ He1)].
  - destruct Hp as (Hkd & Hn & Hc & Hy). destruct x; try done.
    + destruct (k_ctx k); [|done]. injection Hstep as <-. by apply (call_to _ g); [..|rewrite Epc; right].
    + destruct (_ <? _)%nat; [|done]. injection Hstep as <-. apply attr_call; [done|]. split; [cbn; by destruct (Done y); split_and!|]. cbn. intros z [Hz| ->%list_elem_of_singleton]%elem_of_app.
      * destruct Hok as [_ Ho]. destruct (Ho z Hz) as (rid' & E & Hch). rewrite Epc in E. injection E as <-. exists rid. split; [by destruct (Done y)|done].
      * exists rid. split; [by destruct (Done y)|done].
  - destruct Hp as [Hkd Hn]. assert (Hsend : ('(g1, _) ← registry_send c false (cancel_of rid) x g; Some (at_call i (to_pc (PUnregister c rid stream_over) k) g1)) = Some g' -> attr acts g').
    { destruct (registry_send _ _ _ _ _) as [[g1 e]|] eqn:Es; [|done]. cbn. intros [= <-]. eapply send_keeps in Es as [Ha1 He1]; [|done].
      apply (call_to _ g); [done..| |rewrite Epc; by right]. split; [by apply (ext_node _ _ He1)|apply over_ok]. }
    destruct x; try (by apply Hsend). injection Hstep as <-. apply (call_to _ g); [done..| |rewrite Epc; by right]. split; [done|apply over_ok].
  - destruct Hp as [Hn Hr]. destruct x; try done. destruct (heap g !! c) as [kc|] eqn:Ekc; [|done]. cbn in Hstep. injection Hstep as <-.
    apply (call_to _ g); [|by apply ext_on_conn|done|done|rewrite Epc; by right]. apply attr_on_conn; [done|done|].
    intros k0 _ rid' ch'. cbn. intros [_ E]%lookup_delete_Some. by eapply (at_heap _ _ Ha).
  - done.
Qed.

Lemma attributed_reach acts g : reach r0 acts g -> attributed acts g.
Proof.
  induction 1 as [|acts g a g' Hr IH Hstep]; [split; intros *; [cbn; by rewrite lookup_empty|discriminate..]|].
  unfold step in Hstep. destruct (panicked g); [done|]. destruct a as [m|i x|i x|i x|i|kd n rq|i x|i|i|rs].
  - injection Hstep as <-. apply attr_acts. destruct IH as [Hc Hh Hx Hs Hk]. split; try done. intros j s. cbn. intros [E|[_ [_ <-]%list_lookup_singleton_Some]]%lookup_app_Some; [by apply Hs|by split].
  - destruct (sessions g !! i) as [s|] eqn:Es; [|done]. by eapply handler_keeps.
  - destruct (sessions g !! i) as [s|] eqn:Es; [|done]. apply attr_acts. by eapply sender_keeps.
  - destruct (sessions g !! i) as [s|] eqn:Es; [|done]. by eapply receiver_keeps.
  - destruct (sessions g !! i) as [s|] eqn:Es; [|done]. injection Hstep as <-. apply attr_acts, attr_session; [done|]. exact (at_sessions _ _ IH _ _ Es).
  - injection Hstep as <-. apply attr_acts. destruct IH as [Hc Hh Hx Hs Hk]. split; try done. intros j k. cbn. intros [E|[_ [_ <-]%list_lookup_singleton_Some]]%lookup_app_Some; [exact (Hk _ _ E)|].
    split; [done|]. by intros y ?%elem_of_nil.
  - destruct (calls g !! i) as [k|] eqn:Ek; [|done]. apply attr_acts. by eapply call_keeps.
  - destruct (calls g !! i) as [k|] eqn:Ek; [|done]. injection Hstep as <-. apply attr_acts, attr_call; [done|]. exact (at_calls _ _ IH _ _ Ek).
  - destruct (calls g !! i) as [k|] eqn:Ek; [|done]. cbn in Hstep. destruct (k_out k) as [|y l] eqn:Eo; [done|]. injection Hstep as <-. apply attr_acts, attr_call; [done|].
    destruct (at_calls _ _ IH _ _ Ek) as [Hp Ho]. split; [done|]. intros z Hz. apply Ho. rewrite Eo. by right.
  - injection Hstep as <-. by apply attr_acts, attr_rows.
Qed.

End Attribution.

(** ** Addressing *)

(** The envelope is a request of a call to node [n], or takes one back. *)
Definition asked (g : gateway) (n : string) (e : Envelope) : Prop :=
  exists i k rid, calls g !! i = Some k /\ k_node k = n /\ (e = request_of k rid \/ e = cancel_of rid).

Record addressed (g : gateway) : Prop := {
  ad_queue : forall c kc e, heap g !! c = Some kc -> e ∈ send_ kc -> asked g (nodeID kc) e;
  ad_sender : forall i s c e, sessions g !! i = Some s -> snd_ s = SSend c e -> exists n, node_of g c = Some n /\ asked g n e
}.

(** The calls of [g] are still there. *)
Definition calls_stay (g g' : gateway) : Prop :=
  forall i k, calls g !! i = Some k -> exists k', calls g' !! i = Some k' /\ k_node k' = k_node k /\ k_req k' = k_req k.

Lemma asked_stays g g' n e : calls_stay g g' -> asked g n e -> asked g' n e.
Proof.
  intros Hc (i & k & rid & Ek & En & He). destruct (Hc i k Ek) as (k' & Ek' & En' & Er). exists i, k', rid. split_and!; [done|congruence|].
  unfold request_of in *. by rewrite Er.
Qed.

Lemma stay_same g g' : calls g' = calls g -> calls_stay g g'.
Proof. intros E i k Ek. exists k. by rewrite E. Qed.

Lemma stay_at g i k k' : calls g !! i = Some k -> k_node k' = k_node k -> k_req k' = k_req k -> calls_stay g (at_call i k' g).
Proof.
  intros Ek En Er j k0 Ej. cbn. destruct (decide (j = i)) as [->|Hne].
  - rewrite list_lookup_insert_eq by (by eapply lookup_lt_Some). exists k'. split_and!; congruence.
  - rewrite list_lookup_insert_ne by done. by exists k0.
Qed.

Lemma ad_session g i s : addressed g -> (forall c e, snd_ s = SSend c e -> exists n, node_of g c = Some n /\ asked g n e) -> addressed (at_session i s g).
Proof.
  intros [Hq Hs] Hok. split; [done|]. intros j s' c e. cbn. intros [(_ & <- & _)|[_ E]]%list_lookup_insert_Some; [by apply Hok|by eapply Hs].
Qed.

Lemma ad_call g i k k' : addressed g -> calls g !! i = Some k -> k_node k' = k_node k -> k_req k' = k_req k -> addressed (at_call i k' g).
Proof.
  intros [Hq Hs] Ek En Er. pose proof (stay_at g i k k' Ek En Er) as Hst. split.
  - intros c kc e Ec He. eapply asked_stays, Hq; done.
  - intros j s c e Ej Es. destruct (Hs j s c e Ej Es) as (n & Hn & Ha). exists n. split; [done|by eapply asked_stays].
Qed.

Lemma ad_on_conn g c f : addressed g -> (forall k, nodeID (f k) = nodeID k) -> (forall k e, heap g !! c = Some k -> e ∈ send_ (f k) -> e ∈ send_ k \/ asked g (nodeID k) e) -> addressed (on_conn c f g).
Proof.
  intros [Hq Hs] Hn Hf. split.
  - intros c' kc e. cbn. destruct (decide (c = c')) as [<-|Hne].
    + rewrite list_lookup_alter_eq. destruct (heap g !! c) as [k|] eqn:Ek; [|done]. intros [= <-] He. rewrite Hn. destruct (Hf k e eq_refl He) as [Hin|Ha]; [by eapply Hq|done].
    + rewrite list_lookup_alter_ne by done. intros E He. by eapply Hq.
  - intros i s c' e Es Ea. destruct (Hs i s c' e Es Ea) as (n & Hno & Ha). exists n. split; [by rewrite node_alter|done].
Qed.

Lemma ad_close g c : addressed g -> addressed (close_chan c g).
Proof.
  intros Ha. unfold close_chan. destruct (is_closed g c); [by destruct Ha|]. apply ad_on_conn; [done..|]. intros k e _ He. by left.
Qed.

Lemma ad_send g i k c done_ rid e x g' r : addressed g -> calls g !! i = Some k -> node_of g c = Some (k_node k) -> (e = request_of k rid \/ e = cancel_of rid) ->
  registry_send c done_ e x g = Some (g', r) -> addressed g' /\ calls g' = calls g.
Proof.
  intros Ha Ek Hc He. unfold registry_send. destruct x; try done.
  - destruct (is_closed g c); [|done]. by intros [= <- _].
  - destruct done_; [|done]. by intros [= <- _].
  - destruct (heap g !! c) as [kc|] eqn:Ec; [|done]. cbn [mbind option_bind]. destruct (_ <? _)%nat; [|done]. intros [= <- _]. split; [|done].
    apply ad_on_conn; [done..|]. intros k' e' Ek' [Hin| ->%list_elem_of_singleton]%elem_of_app.
    + left. congruence.
    + right. exists i, k, rid. split_and!; [done| |done]. unfold node_of in Hc. rewrite Ek' in Hc. by injection Hc.
Qed.

Lemma ad_same g g' : addressed g -> heap g' = heap g -> sessions g' = sessions g -> calls g' = calls g -> addressed g'.
Proof.
  intros [Hq Hs] Eh Es Ek. split.
  - intros c kc e. rewrite Eh. intros E He. eapply asked_stays, Hq; [by apply stay_same|done..].
  - intros i s c e. rewrite Es. intros E Ex. destruct (Hs i s c e E Ex) as (n & Hn & Ha). exists n. unfold node_of. rewrite Eh. split; [done|by eapply asked_stays; [apply stay_same|]].
Qed.

Lemma ad_handler g i s h : addressed g -> (forall c e, snd_ s = SSend c e -> exists n, node_of g c = Some n /\ asked g n e) -> addressed (at_session i (to_handler h s) g).
Proof. intros Ha Hs. by apply ad_session. Qed.

Lemma handler_addressed g i s x g' : addressed g -> sessions g !! i = Some s -> handler_step i s x g = Some g' -> addressed g'.
Proof.
  intros Ha Hs Hstep. assert (Hsnd : forall c e, snd_ s = SSend c e -> exists n, node_of g c = Some n /\ asked g n e) by (intros c e; by apply (ad_sender _ Ha i)).
  assert (Hto : forall h g1, addressed g1 -> calls g1 = calls g -> ext g g1 -> addressed (at_session i (to_handler h s) g1)).
  { intros h g1 Ha1 Ec He. apply ad_session; [done|]. intros c e E. destruct (Hsnd c e E) as (n & Hn & Hk). exists n. split; [by apply (ext_node _ _ He)|by eapply asked_stays; [apply stay_same|]]. }
  assert (Hto0 : forall h, addressed (at_session i (to_handler h s) g)) by (intros h; apply Hto; [done|done|apply ext_refl]).
  assert (Hclose : forall h c, addressed (at_session i (to_handler h s) (close_chan c g))).
  { intros h c. apply Hto; [by apply ad_close|unfold close_chan; by destruct (is_closed g c)|apply ext_close]. }
  unfold handler_step in Hstep. destruct (hnd s) as [|n|n h|c h o|c h o|c h|c|c r|c r|c r|c r|] eqn:Eh; destruct x as [|q|[env|e]|now|e|rid| | | | | |]; try done.
  - destruct q as [q|]; [|destruct (NodeByToken (rows g) (bearer (md s)))]; injection Hstep as <-; by apply Hto0.
  - destruct (Body env); injection Hstep as <-; by apply Hto0.
  - injection Hstep as <-. by apply Hto0.
  - assert (Hadd : addressed (set_conns (<[n := length (heap g)]> (conns g)) (set_heap (heap g ++ [newConn n]) g))).
    { pose proof (ad_queue _ Ha) as Hq. split.
      - intros c kc e. cbn. intros [E|[_ [_ <-]%list_lookup_singleton_Some]]%lookup_app_Some; [by apply (Hq c)|]. by intros ?%elem_of_nil.
      - intros j s' c e Ej Es. destruct (ad_sender _ Ha j s' c e Ej Es) as (m & Hm & Hk). exists m. split; [|done]. by apply (ext_node _ _ (ext_append_conn g (newConn n))). }
    assert (He : ext g (set_conns (<[n := length (heap g)]> (conns g)) (set_heap (heap g ++ [newConn n]) g))) by (destruct (ext_append_conn g (newConn n)); by split).
    destruct (conns g !! n); injection Hstep as <-; by apply Hto.
  - destruct (is_closed g o); injection Hstep as <-; by apply Hto0.
  - injection Hstep as <-. by apply Hclose.
  - destruct (heap g !! c); [|done]. cbn in Hstep. injection Hstep as <-. apply ad_session; [by apply (ad_same g)|done].
  - destruct (session_end _ _ _ _); [|done]. injection Hstep as <-. by apply Hto0.
  - destruct (session_end _ _ _ _); [|done]. injection Hstep as <-. by apply Hto0.
  - destruct (session_end _ _ _ _); [|done]. injection Hstep as <-. by apply Hto0.
  - destruct (is_closed g c); injection Hstep as <-; by apply Hto0.
  - injection Hstep as <-. by apply Hclose.
  - destruct (heap g !! c); [|done]. cbn in Hstep. destruct (decide _); injection Hstep as <-; [|by apply Hto0]. apply Hto; [by apply (ad_same g)|done|by apply ext_same].
  - destruct (heap g !! c); [|done]. cbn in Hstep. injection Hstep as <-. apply Hto; [by apply (ad_same g)|done|by apply ext_same].
Qed.

Lemma sender_addressed g i s x g' : addressed g -> sessions g !! i = Some s -> sender_step i s x g = Some g' -> addressed g'.
Proof.
  intros Ha Hs Hstep. unfold sender_step in Hstep. destruct (snd_ s) as [|c|c e|] eqn:Es; destruct x as [| | | |e'| | | | | | |]; try done; cbn in Hstep.
  - destruct (is_closed g c); [|done]. injection Hstep as <-. by apply ad_session.
  - destruct (s_ctx s); [|done]. injection Hstep as <-. by apply ad_session.
  - destruct (heap g !! c) as [k|] eqn:Ek; [|done]. cbn in Hstep. destruct (send_ k) as [|e l] eqn:El; [done|]. injection Hstep as <-. apply ad_session.
    + apply ad_on_conn; [done..|]. intros k' e' Ek' Hin. left. cbn in Hin. assert (k' = k) as -> by congruence. rewrite El. by right.
    + intros c' e' [= <- <-]. exists (nodeID k). split; [rewrite node_alter by done; unfold node_of; by rewrite Ek|]. apply (ad_queue _ Ha c); [done|rewrite El; by left].
  - destruct e'; injection Hstep as <-; by apply ad_session.
Qed.

Lemma receiver_addressed g i s x g' : addressed g -> sessions g !! i = Some s -> receiver_step i s x g = Some g' -> addressed g'.
Proof.
  intros Ha Hs Hstep. assert (Hto : forall a e g1, heap g1 = heap g -> sessions g1 = sessions g -> calls g1 = calls g -> addressed (at_session i (to_receiver a e s) g1)).
  { intros a e g1 Eh Es Ek. apply ad_session; [by apply (ad_same g)|]. cbn. intros c e' Esn. destruct (ad_sender _ Ha _ _ _ _ Hs Esn) as (n & Hn & Hk). exists n.
    unfold node_of. rewrite Eh. split; [done|by eapply asked_stays; [apply stay_same|]]. }
  assert (Hdel : forall ch e g1, deliver_to ch e g = Some g1 -> heap g1 = heap g /\ sessions g1 = sessions g /\ calls g1 = calls g).
  { intros ch e g1. unfold deliver_to. destruct (chans g !! ch) as [y|]; [|done]. cbn [mbind option_bind]. destruct (_ <? _)%nat; [|done]. by intros [= <-]. }
  unfold receiver_step in Hstep. destruct (rcv s) as [|c|c [h|]|c e w|c e ch w|c e ch|]; try done.
  - destruct x as [| |[env|e]| | | | | | | | |]; try done; [destruct (Body env)|]; injection Hstep as <-; by apply Hto.
  - destruct x; try done. destruct (heap g !! c); [|done]. cbn in Hstep. injection Hstep as <-. by apply Hto.
  - injection Hstep as <-. by apply (ad_same g).
  - destruct x; try done. destruct (heap g !! c) as [k|]; [|done]. cbn in Hstep. destruct (pending k !! RequestId e); injection Hstep as <-; by apply Hto.
  - destruct x; try done. destruct (deliver_to ch e g) as [g1|] eqn:Ed; injection Hstep as <-; [|by apply Hto]. apply Hdel in Ed as (? & ? & ?). by apply Hto.
  - destruct x; try done.
    + destruct (is_closed g c); [|done]. injection Hstep as <-. by apply Hto.
    + destruct (deliver_to ch e g) as [g1|] eqn:Ed; [|done]. cbn in Hstep. injection Hstep as <-. apply Hdel in Ed as (? & ? & ?). by apply Hto.
    + injection Hstep as <-. by apply Hto.
Qed.

Lemma call_addressed acts r0 g i k x g' : attributed r0 acts g -> addressed g -> calls g !! i = Some k -> call_step i k x g = Some g' -> addressed g'.
Proof.
  intros Hat Ha Hk Hstep. pose proof (at_calls _ _ _ Hat _ _ Hk) as [Hp _].
  assert (Hto : forall p g1, addressed g1 -> calls g1 = calls g -> addressed (at_call i (to_pc p k) g1)).
  { intros p g1 Ha1 Ec. apply (ad_call _ _ k); [done|by rewrite Ec|done..]. }
  assert (Hpend : forall c m g1, addressed g1 -> addressed (on_conn c (with_pending m) g1)).
  { intros c m g1 Ha1. apply ad_on_conn; [done..|]. intros k' e _ He. by left. }
  assert (Hcancel : forall c rid, node_of g c = Some (k_node k) -> ('(g1, _) ← registry_send c false (cancel_of rid) x g; Some (at_call i (to_pc (PUnregister c rid stream_over) k) g1)) = Some g' -> addressed g').
  { intros c rid Hc. destruct (registry_send _ _ _ _ _) as [[g1 e]|] eqn:Es; [|done]. cbn. intros [= <-].
    eapply ad_send in Es as [Ha1 Ec1]; [|done|done|done|by right]. by apply Hto. }
  unfold call_step in Hstep. destruct (k_pc k) as [|c|c rid ch|c rid ch|c rid ch y|c rid|c rid r|] eqn:Epc; cbn in Hp.
  - destruct x; try done. destruct (conns g !! k_node k); injection Hstep as <-; by apply Hto.
  - destruct x as [| | | | |rid| | | | | |]; try done. destruct (heap g !! c) as [kc|]; [|done]. cbn in Hstep. injection Hstep as <-. apply Hto; [|done].
    apply Hpend. by apply (ad_same g).
  - destruct Hp as [Hn _]. destruct (registry_send _ _ _ _ _) as [[g1 e]|] eqn:Es; [|done]. cbn in Hstep. eapply ad_send in Es as [Ha1 Ec1]; [|done|done|done|by left].
    destruct e; injection Hstep as <-; by apply Hto.
  - destruct x; try done.
    + destruct (is_closed g c); [|done]. injection Hstep as <-. by apply Hto.
    + destruct (k_ctx k); [|done]. injection Hstep as <-. by apply Hto.
    + destruct (take_chan ch g) as [[env g1]|] eqn:Et; [|done]. cbn in Hstep. unfold take_chan in Et. destruct (chans g !! ch) as [y|]; [|done]. cbn in Et. destruct (ch_buf y); [done|].
      injection Et as _ <-. destruct (k_kind k); [|destruct (GetLogChunk env)]; injection Hstep as <-; (apply Hto; [by apply (ad_same g)|done]).
  - destruct x; try done; [destruct (k_ctx k); [|done]; injection Hstep as <-; by apply Hto|]. destruct (_ <? _)%nat; [|done]. injection Hstep as <-. by apply (ad_call _ _ k).
  - destruct Hp as [_ Hn]. destruct x; try (by apply (Hcancel c rid)). injection Hstep as <-. by apply Hto.
  - destruct x; try done. destruct (heap g !! c) as [kc|]; [|done]. cbn in Hstep. injection Hstep as <-. apply Hto; [by apply Hpend|done].
  - done.
Qed.

Lemma addressed_reach r0 acts g : reach r0 acts g -> addressed g.
Proof.
  induction 1 as [|acts g a g' Hr IH Hstep]; [split; intros *; discriminate|]. pose proof (attributed_reach _ _ _ Hr) as Hat.
  unfold step in Hstep. destruct (panicked g); [done|]. destruct a as [m|i x|i x|i x|i|kd n rq|i x|i|i|rs].
  - injection Hstep as <-. split; [apply (ad_queue _ IH)|]. intros j s c e. cbn. intros [E|[_ [_ <-]%list_lookup_singleton_Some]]%lookup_app_Some; [|done]. by apply (ad_sender _ IH j).
  - destruct (sessions g !! i) as [s|] eqn:Es; [|done]. by eapply handler_addressed.
  - destruct (sessions g !! i) as [s|] eqn:Es; [|done]. by eapply sender_addressed.
  - destruct (sessions g !! i) as [s|] eqn:Es; [|done]. by eapply receiver_addressed.
  - destruct (sessions g !! i) as [s|] eqn:Es; [|done]. injection Hstep as <-. apply ad_session; [done|]. intros c e. by apply (ad_sender _ IH i s).
  - injection Hstep as <-. assert (Hst : calls_stay g (set_calls (calls g ++ [new_call kd n rq]) g)).
    { intros j k Ej. exists k. cbn. by rewrite (lookup_app_l_Some _ _ _ _ Ej). }
    split; [intros c kc e Ec He; by eapply asked_stays, (ad_queue _ IH)|]. intros j s c e Ej Es. destruct (ad_sender _ IH j s c e Ej Es) as (m & Hm & Hk). exists m. split; [done|by eapply asked_stays].
  - destruct (calls g !! i) as [k|] eqn:Ek; [|done]. by eapply call_addressed.
  - destruct (calls g !! i) as [k|] eqn:Ek; [|done]. injection Hstep as <-. by apply (ad_call _ _ k).
  - destruct (calls g !! i) as [k|] eqn:Ek; [|done]. cbn in Hstep. destruct (k_out k) as [|y l] eqn:Eo; [done|]. injection Hstep as <-. by apply (ad_call _ _ k).
  - injection Hstep as <-. by apply (ad_same g).
Qed.

(** C8: the gateway keeps the nodes apart, in every interleaving: what a call
    returns as the node's answer, and every line a stream hands on, was sent
    under the id of that very request on a stream opened with the agent token
    of the node that was asked; and what the panel writes on such a stream is
    a request made to that node, or takes one back. *)
Theorem nodes_kept_apart r0 acts g :
  reach r0 acts g ->
  (forall i k rid ret a, calls g !! i = Some k -> k_pc k = PDone rid ret -> resp ret = Some a ->
     exists e, said r0 acts (k_node k) e /\ RequestId e = rid /\ Body e = BResponse a) /\
  (forall i k x, calls g !! i = Some k -> x ∈ k_out k ->
     exists rid e, call_rid (k_pc k) = Some rid /\ said r0 acts (k_node k) e /\ RequestId e = rid /\ Body e = BLogChunk x) /\
  (forall i s c e, sessions g !! i = Some s -> snd_ s = SSend c e -> exists n, authenticated r0 acts i n /\ asked g n e).
Proof.
  intros Hr. pose proof (attributed_reach _ _ _ Hr) as Ha. split_and!.
  - intros i k rid ret a Ek Ep Ea. destruct (at_calls _ _ _ Ha _ _ Ek) as [Hp _]. rewrite Ep in Hp. by apply Hp.
  - intros i k x Ek Hx. destruct (at_calls _ _ _ Ha _ _ Ek) as [_ Ho]. destruct (Ho x Hx) as (rid & E & e & He). by exists rid, e.
  - intros i s c e Es Ex. destruct (ad_sender _ (addressed_reach _ _ _ Hr) _ _ _ _ Es Ex) as (n & Hn & Hk). exists n. split; [|done].
    pose proof (at_sessions _ _ _ Ha _ _ Es) as (_ & _ & Hw). rewrite Ex in Hw. by eapply held_node.
Qed.
