(* ===== verification/GatewayRegistry.v ===== *)
(** * The registry of sessions, and the end of a call

    In every interleaving the registry names, for each node, the newest session
    while it is up ([registry_exact]); a session that is over has closed its
    connection, and a call on a closed connection, or one that was given up,
    comes back by steps of its own ([waiters_released]).  Module [Sim] runs two
    agents and the races the code leaves open. *)

From S2P Require Import Prelude Crypto AgentProto Convert Gateway GatewaySafety.

Local Open Scope go_scope.

(** Between the step that adds the connection and the one that removes it. *)
Definition live (h : handler) : option nat :=
  match h with
  | HReplace c _ _ | HReplaceClose c _ _ | HOnHello c _ | HSelect c | HClose c _ | HCloseChan c _ | HRemove c _ => Some c
  | _ => None
  end.

(** Past the close of the connection. *)
Definition past (h : handler) : option nat :=
  match h with HRemove c _ | HOnDisconnect c _ | HDone (Some c) _ => Some c | _ => None end.

Definition live_at (g : gateway) (i : nat) : option nat := s ← sessions g !! i; live (hnd s).
Definition past_at (g : gateway) (i : nat) : option nat := s ← sessions g !! i; past (hnd s).

(** No later connection of the node. *)
Definition newest (g : gateway) (n : string) (c : nat) : Prop := node_of g c = Some n /\ forall c', node_of g c' = Some n -> (c' <= c)%nat.

Record exact (g : gateway) : Prop := {
  x_bound : forall i c, live_at g i = Some c -> is_Some (node_of g c);
  x_unique : forall i j c, live_at g i = Some c -> live_at g j = Some c -> i = j;
  x_reg : forall n c, conns g !! n = Some c -> newest g n c /\ exists i, live_at g i = Some c;
  x_live : forall i n c, live_at g i = Some c -> newest g n c -> conns g !! n = Some c;
  x_past : forall i c, past_at g i = Some c -> is_closed g c = true
}.

(** Nothing the registry is about changes. *)
Record quiet (g g' : gateway) : Prop := {
  q_conns : conns g' = conns g;
  q_node : forall c, node_of g' c = node_of g c;
  q_live : forall i, live_at g' i = live_at g i;
  q_past : forall i, past_at g' i = past_at g i;
  q_closed : forall c, is_closed g c = true -> is_closed g' c = true
}.

Lemma exact_quiet g g' : quiet g g' -> exact g -> exact g'.
Proof.
  intros [Qc Qn Ql Qp Qx] [Xb Xu Xr Xl Xp].
  assert (Hn : forall n c, newest g' n c <-> newest g n c) by (intros n c; unfold newest; setoid_rewrite Qn; done).
  split.
  - intros i c. rewrite Ql, Qn. apply Xb.
  - intros i j c. rewrite !Ql. apply Xu.
  - intros n c. rewrite Qc, Hn. setoid_rewrite Ql. apply Xr.
  - intros i n c. rewrite Ql, Hn, Qc. apply Xl.
  - intros i c. rewrite Qp. intros E. by eapply Qx, Xp.
Qed.

Lemma quiet_same g g' : conns g' = conns g -> heap g' = heap g -> sessions g' = sessions g -> quiet g g'.
Proof. intros E1 E2 E3. split; intros *; unfold node_of, live_at, past_at, is_closed; by rewrite ?E1, ?E2, ?E3. Qed.

Lemma quiet_refl g : quiet g g.
Proof. by apply quiet_same. Qed.

Lemma quiet_trans g1 g2 g3 : quiet g1 g2 -> quiet g2 g3 -> quiet g1 g3.
Proof. intros [A1 A2 A3 A4 A5] [B1 B2 B3 B4 B5]. split; intros; [congruence..|by apply B5, A5]. Qed.

Lemma closed_alter g c f c' : (forall k, closed k = true -> closed (f k) = true) -> is_closed g c' = true -> is_closed (on_conn c f g) c' = true.
Proof.
  intros Hf. unfold is_closed, on_conn. cbn. destruct (decide (c = c')) as [->|Hne]; [|by rewrite list_lookup_alter_ne].
  rewrite list_lookup_alter_eq. destruct (heap g !! c') as [k|]; [apply Hf|done].
Qed.

Lemma quiet_on_conn g c f : (forall k, nodeID (f k) = nodeID k) -> (forall k, closed k = true -> closed (f k) = true) -> quiet g (on_conn c f g).
Proof. intros Hn Hc. split; [done|intros c'; by apply node_alter|done|done|intros c'; by apply closed_alter]. Qed.

Lemma quiet_close c g : quiet g (close_chan c g).
Proof. unfold close_chan. destruct (is_closed g c); [by apply quiet_same|by apply quiet_on_conn]. Qed.

Lemma close_closes c g : is_Some (node_of g c) -> is_closed (close_chan c g) c = true.
Proof.
  unfold close_chan, node_of. destruct (is_closed g c) eqn:E; [by intros _|]. unfold is_closed, on_conn. cbn. rewrite list_lookup_alter_eq. by destruct (heap g !! c); [|intros []].
Qed.

(** What a session is replaced by, its handler aside. *)
Lemma at_live g i s j : sessions g !! i <> None -> live_at (at_session i s g) j = if decide (j = i) then live (hnd s) else live_at g j.
Proof.
  intros Hi. unfold live_at. cbn. destruct (decide (j = i)) as [->|Hne]; [|by rewrite list_lookup_insert_ne]. rewrite list_lookup_insert_eq; [done|].
  by apply lookup_lt_is_Some_1, not_eq_None_Some.
Qed.

Lemma at_past g i s j : sessions g !! i <> None -> past_at (at_session i s g) j = if decide (j = i) then past (hnd s) else past_at g j.
Proof.
  intros Hi. unfold past_at. cbn. destruct (decide (j = i)) as [->|Hne]; [|by rewrite list_lookup_insert_ne]. rewrite list_lookup_insert_eq; [done|].
  by apply lookup_lt_is_Some_1, not_eq_None_Some.
Qed.

Lemma quiet_session g g1 i s s' : quiet g g1 -> sessions g1 = sessions g -> sessions g !! i = Some s -> live (hnd s') = live (hnd s) -> past (hnd s') = past (hnd s) -> quiet g (at_session i s' g1).
Proof.
  intros Q Es Hs Hl Hp. assert (Hi : sessions g1 !! i <> None) by (rewrite Es; congruence). split; try apply Q.
  - intros j. rewrite at_live by done. destruct (decide (j = i)) as [->|_]; [|apply Q]. rewrite Hl. unfold live_at. by rewrite Hs.
  - intros j. rewrite at_past by done. destruct (decide (j = i)) as [->|_]; [|apply Q]. rewrite Hp. unfold past_at. by rewrite Hs.
Qed.

Lemma sender_quiet g i s x g' : sessions g !! i = Some s -> sender_step i s x g = Some g' -> quiet g g'.
Proof.
  intros Hs Hstep. unfold sender_step in Hstep. destruct (snd_ s) as [|c|c e|]; destruct x as [| | | |e'| | | | | | |]; try done; cbn in Hstep.
  - destruct (is_closed g c); [|done]. injection Hstep as <-. by apply (quiet_session g g i s); [apply quiet_refl| | | |].
  - destruct (s_ctx s); [|done]. injection Hstep as <-. by apply (quiet_session g g i s); [apply quiet_refl| | | |].
  - destruct (heap g !! c) as [k|]; [|done]. cbn in Hstep. destruct (send_ k); [done|]. injection Hstep as <-. by apply (quiet_session g _ i s); [apply quiet_on_conn| | | |].
  - destruct e'; injection Hstep as <-; by apply (quiet_session g g i s); [apply quiet_refl| | | |].
Qed.

Lemma deliver_quiet ch e g g' : deliver_to ch e g = Some g' -> quiet g g' /\ sessions g' = sessions g.
Proof.
  unfold deliver_to. destruct (chans g !! ch); [|done]. cbn [mbind option_bind]. destruct (_ <? _)%nat; [|done]. intros [= <-]. split; [by apply quiet_same|done].
Qed.

Lemma receiver_quiet g i s x g' : sessions g !! i = Some s -> receiver_step i s x g = Some g' -> quiet g g'.
Proof.
  intros Hs Hstep. assert (Hto : forall a e, quiet g (at_session i (to_receiver a e s) g)) by (intros a e; by apply (quiet_session g g i s); [apply quiet_refl| | | |]).
  assert (Hdel : forall a e ch env g1, deliver_to ch env g = Some g1 -> quiet g (at_session i (to_receiver a e s) g1)).
  { intros a e ch env g1 [Q Es]%deliver_quiet. by apply (quiet_session g g1 i s). }
  unfold receiver_step in Hstep. destruct (rcv s) as [|c|c [h|]|c e w|c e ch w|c e ch|]; try done.
  - destruct x as [| |[env|e]| | | | | | | | |]; try done; [destruct (Body env)|]; by injection Hstep as <-.
  - destruct x; try done. destruct (heap g !! c); [|done]. cbn in Hstep. injection Hstep as <-. by apply (quiet_session g _ i s); [apply quiet_same| | | |].
  - injection Hstep as <-. by apply quiet_same.
  - destruct x; try done. destruct (heap g !! c) as [k|]; [|done]. cbn in Hstep. by destruct (pending k !! RequestId e); injection Hstep as <-.
  - destruct x; try done. destruct (deliver_to ch e g) as [g1|] eqn:Ed; injection Hstep as <-; [by eapply Hdel|done].
  - destruct x; try done.
    + destruct (is_closed g c); [|done]. by injection Hstep as <-.
    + destruct (deliver_to ch e g) as [g1|] eqn:Ed; [|done]. cbn in Hstep. injection Hstep as <-. by eapply Hdel.
    + by injection Hstep as <-.
Qed.

Lemma send_quiet g c b e x g' r : registry_send c b e x g = Some (g', r) -> quiet g g'.
Proof.
  unfold registry_send. destruct x; try done.
  - destruct (is_closed g c); [|done]. intros [= <- _]. apply quiet_refl.
  - destruct b; [|done]. intros [= <- _]. apply quiet_refl.
  - destruct (heap g !! c); [|done]. cbn [mbind option_bind]. destruct (_ <? _)%nat; [|done]. intros [= <- _]. by apply quiet_on_conn.
Qed.

Lemma call_quiet g i k x g' : call_step i k x g = Some g' -> quiet g g'.
Proof.
  intros Hstep. assert (Hat : forall k' g1, quiet g g1 -> quiet g (at_call i k' g1)) by (intros k' g1 Q; eapply quiet_trans; [exact Q|by apply quiet_same]).
  assert (H0 : forall k', quiet g (at_call i k' g)) by (intros k'; apply Hat, quiet_refl).
  unfold call_step in Hstep. destruct (k_pc k) as [|c|c rid ch|c rid ch|c rid ch y|c rid|c rid r|].
  - destruct x; try done. by destruct (conns g !! k_node k); injection Hstep as <-.
  - destruct x; try done. destruct (heap g !! c); [|done]. cbn in Hstep. injection Hstep as <-. apply Hat. eapply quiet_trans; [|by apply quiet_on_conn]. by apply quiet_same.
  - destruct (registry_send _ _ _ _ _) as [[g1 e]|] eqn:Es; [|done]. cbn in Hstep. apply send_quiet in Es. destruct e; injection Hstep as <-; by apply Hat.
  - destruct x; try done.
    + destruct (is_closed g c); [|done]. by injection Hstep as <-.
    + destruct (k_ctx k); [|done]. by injection Hstep as <-.
    + destruct (take_chan ch g) as [[env g1]|] eqn:Et; [|done]. cbn in Hstep. unfold take_chan in Et. destruct (chans g !! ch) as [y|]; [|done]. cbn in Et. destruct (ch_buf y); [done|].
      injection Et as _ <-. destruct (k_kind k); [|destruct (GetLogChunk env)]; injection Hstep as <-; apply Hat; by apply quiet_same.
  - destruct x; try done; [destruct (k_ctx k); [|done]; by injection Hstep as <-|]. destruct (_ <? _)%nat; [|done]. by injection Hstep as <-.
  - assert (Hsend : ('(g1, _) ← registry_send c false (cancel_of rid) x g; Some (at_call i (to_pc (PUnregister c rid stream_over) k) g1)) = Some g' -> quiet g g').
    { destruct (registry_send _ _ _ _ _) as [[g1 e]|] eqn:Es; [|done]. cbn. intros [= <-]. apply send_quiet in Es. by apply Hat. }
    destruct x; try (by apply Hsend). by injection Hstep as <-.
  - destruct x; try done. destruct (heap g !! c); [|done]. cbn in Hstep. injection Hstep as <-. apply Hat. by apply quiet_on_conn.
  - done.
Qed.

(** The connection a session adds is the newest of its node. *)
Lemma exact_add g i s n h' : exact g -> sessions g !! i = Some s -> live (hnd s) = None -> past (hnd s) = None -> live h' = Some (length (heap g)) -> past h' = None ->
  exact (at_session i (to_handler h' s) (set_conns (<[n := length (heap g)]> (conns g)) (set_heap (heap g ++ [newConn n]) g))).
Proof.
  intros Hx Hs Hl Hp Hl' Hp'. set (c := length (heap g)). set (g1 := set_conns _ _). assert (Hi : sessions g1 !! i <> None) by (cbn; congruence).
  assert (Hnode : forall c' m, node_of g1 c' = Some m <-> node_of g c' = Some m \/ c' = c /\ m = n).
  { intros c' m. unfold node_of. cbn. fold c. destruct (decide (c' < c)%nat) as [Hlt|Hge].
    - rewrite lookup_app_l by done. split; [by left|]. intros [E|[-> _]]; [done|lia].
    - rewrite (lookup_ge_None_2 (heap g)) by (unfold c in Hge; lia). rewrite lookup_app_r by (unfold c in Hge; lia). fold c. split.
      + destruct (decide (c' = c)) as [->|]; [rewrite Nat.sub_diag; cbn; intros [= ->]; by right|]. rewrite (lookup_ge_None_2 [newConn n]) by (cbn; lia). done.
      + intros [?|[-> ->]]; [done|]. by rewrite Nat.sub_diag. }
  assert (Hlt : forall c' m, node_of g c' = Some m -> (c' < c)%nat).
  { intros c' m. unfold node_of, c. destruct (heap g !! c') eqn:E; [|done]. intros _. by eapply lookup_lt_Some. }
  assert (Hlive : forall j, live_at (at_session i (to_handler h' s) g1) j = if decide (j = i) then Some c else live_at g j).
  { intros j. rewrite at_live by done. destruct (decide (j = i)); [exact Hl'|done]. }
  assert (Hnew : forall m c', newest g1 m c' <-> m = n /\ c' = c \/ m <> n /\ newest g m c').
  { intros m c'. unfold newest. rewrite Hnode. split.
    - intros [Hm Hall]. destruct (decide (m = n)) as [->|Hne].
      + left. split; [done|]. specialize (Hall c (proj2 (Hnode c n) (or_intror (conj eq_refl eq_refl)))). destruct Hm as [Hm%Hlt|[-> _]]; [lia|done].
      + right. split; [done|]. split; [by destruct Hm as [?|[_ ?]]|]. intros d Hd. apply Hall, Hnode. by left.
    - intros [[-> ->]|[Hne [Hm Hall]]].
      + split; [by right|]. intros d [Hd%Hlt|[-> _]]%Hnode; lia.
      + split; [by left|]. intros d [Hd|[_ ?]]%Hnode; [by apply Hall|done]. }
  destruct Hx as [Xb Xu Xr Xl Xp]. split.
  - intros j d. rewrite Hlive. change (node_of (at_session i (to_handler h' s) g1) d) with (node_of g1 d). destruct (decide (j = i)) as [->|_].
    + intros [= <-]. exists n. apply Hnode. by right.
    + intros E. destruct (Xb j d E) as [m Hm]. exists m. apply Hnode. by left.
  - intros j k d. rewrite !Hlive. destruct (decide (j = i)) as [->|Hj], (decide (k = i)) as [->|Hk]; try done; [..|by apply Xu].
    + intros [= <-] E. destruct (Xb k c E) as [m Hm%Hlt]. lia.
    + intros E [= <-]. destruct (Xb j c E) as [m Hm%Hlt]. lia.
  - intros m d. cbn. setoid_rewrite Hlive. change (newest (at_session i (to_handler h' s) g1) m d) with (newest g1 m d). rewrite Hnew. intros [[<- <-]|[Hne E]]%lookup_insert_Some.
    + split; [by left|]. exists i. by rewrite decide_True.
    + destruct (Xr m d E) as [Hn [j Hj]]. split; [by right|]. exists j. destruct (decide (j = i)) as [->|_]; [|done]. unfold live_at in Hj. rewrite Hs in Hj. cbn in Hj. congruence.
  - intros j m d. rewrite Hlive. change (newest (at_session i (to_handler h' s) g1) m d) with (newest g1 m d). rewrite Hnew. cbn. destruct (decide (j = i)) as [->|Hj].
    + intros [= <-] [[-> _]|[Hne [Hm%Hlt _]]]; [by rewrite lookup_insert_eq|lia].
    + intros E [[-> ->]|[Hne Hn]]; [destruct (Xb j c E) as [m' Hm%Hlt]; lia|]. rewrite lookup_insert_ne by done. by eapply Xl.
  - intros j d. rewrite at_past by done. destruct (decide (j = i)) as [_|Hj]; [change (past h' = Some d -> is_closed g1 d = true); by rewrite Hp'|]. intros E. apply Xp in E. unfold is_closed in *. cbn.
    destruct (heap g !! d) as [k|] eqn:Ek; [|done]. by rewrite (lookup_app_l_Some _ _ _ _ Ek).
Qed.

Lemma exact_handler g g1 i s s' : exact g -> quiet g g1 -> sessions g1 = sessions g -> sessions g !! i = Some s -> live (hnd s') = live (hnd s) ->
  (forall c, past (hnd s') = Some c -> past (hnd s) = Some c \/ is_closed g1 c = true) -> exact (at_session i s' g1).
Proof.
  intros Hx Q Es Hs Hl Hp. eapply exact_quiet in Hx; [|done]. assert (Hi : sessions g1 !! i <> None) by (rewrite Es; congruence).
  assert (Hlive : forall j, live_at (at_session i s' g1) j = live_at g1 j).
  { intros j. rewrite at_live by done. destruct (decide (j = i)) as [->|_]; [|done]. unfold live_at. by rewrite Es, Hs, Hl. }
  destruct Hx as [Xb Xu Xr Xl Xp]. split.
  - intros j c. rewrite Hlive. apply Xb.
  - intros j k c. rewrite !Hlive. apply Xu.
  - intros n c. setoid_rewrite Hlive. apply Xr.
  - intros j n c. rewrite Hlive. apply Xl.
  - intros j c. rewrite at_past by done. destruct (decide (j = i)) as [->|_]; [|apply Xp]. intros E. destruct (Hp c E) as [Hold|Hc]; [|done].
    apply (Xp i). unfold past_at. by rewrite Es, Hs.
Qed.

(** A session takes its own connection out, and no other. *)
Lemma exact_remove g i s c n h : exact g -> sessions g !! i = Some s -> live (hnd s) = Some c -> past (hnd s) = Some c -> node_of g c = Some n -> live h = None -> past h = Some c ->
  exact (at_session i (to_handler h s) (if decide (conns g !! n = Some c) then set_conns (delete n (conns g)) g else g)).
Proof.
  intros Hx Hs Hl Hp Hc Hl' Hp'. set (g1 := if decide _ then _ else g). assert (Hi : sessions g1 !! i <> None) by (unfold g1; destruct (decide _); cbn; congruence).
  assert (Hconns : forall m d, conns g1 !! m = Some d <-> conns g !! m = Some d /\ d <> c).
  { intros m d. unfold g1. destruct (decide _) as [E|E]; cbn.
    - rewrite lookup_delete_Some. split.
      + intros [Hne Em]. split; [done|]. intros ->. destruct (x_reg _ Hx _ _ Em) as [[Hm _] _]. congruence.
      + intros [Em Hd]. split; [|done]. intros <-. congruence.
    - split; [|by intros []]. intros Em. split; [done|]. intros ->. destruct (x_reg _ Hx _ _ Em) as [[Hm _] _]. congruence. }
  assert (Hnew : forall m d, newest (at_session i (to_handler h s) g1) m d <-> newest g m d) by (intros m d; unfold g1; by destruct (decide _)).
  assert (Hlive : forall j, live_at (at_session i (to_handler h s) g1) j = if decide (j = i) then None else live_at g j).
  { intros j. rewrite at_live by done. destruct (decide (j = i)); [exact Hl'|]. unfold g1. by destruct (decide _). }
  assert (Hli : live_at g i = Some c) by (unfold live_at; by rewrite Hs). destruct Hx as [Xb Xu Xr Xl Xp]. split.
  - intros j d. rewrite Hlive. destruct (decide (j = i)); [done|]. intros E. destruct (Xb j d E) as [m Hm]. exists m. unfold g1. by destruct (decide _).
  - intros j k d. rewrite !Hlive. destruct (decide (j = i)), (decide (k = i)); try done. apply Xu.
  - intros m d. cbn. rewrite Hconns. intros [E Hd]. rewrite Hnew. destruct (Xr m d E) as [Hn [j Hj]]. split; [done|]. exists j. rewrite Hlive.
    destruct (decide (j = i)) as [->|]; [congruence|done].
  - intros j m d. rewrite Hlive, Hnew. cbn. rewrite Hconns. destruct (decide (j = i)) as [|Hj]; [done|]. intros E Hn. split; [by eapply Xl|]. intros ->. apply Hj. by eapply Xu.
  - intros j d. rewrite at_past by done. assert (Hcl : is_closed (at_session i (to_handler h s) g1) d = is_closed g d) by (unfold g1; by destruct (decide _)). rewrite Hcl.
    assert (Hpg : past_at g1 j = past_at g j) by (unfold g1; by destruct (decide _)). rewrite Hpg. destruct (decide (j = i)) as [->|]; [|apply Xp].
    change (past h = Some d -> is_closed g d = true). rewrite Hp'. intros [= <-]. apply (Xp i). unfold past_at. by rewrite Hs.
Qed.

Lemma handler_exact g i s x g' : exact g -> sessions g !! i = Some s -> handler_step i s x g = Some g' -> exact g'.
Proof.
  intros Hx Hs Hstep.
  assert (Hto : forall s' g1, quiet g g1 -> sessions g1 = sessions g -> live (hnd s') = live (hnd s) -> (forall c, past (hnd s') = Some c -> past (hnd s) = Some c \/ is_closed g1 c = true) ->
    exact (at_session i s' g1)) by (intros; by eapply exact_handler).
  assert (Hto0 : forall h, live h = live (hnd s) -> (forall c, past h = Some c -> past (hnd s) = Some c \/ is_closed g c = true) -> exact (at_session i (to_handler h s) g)).
  { intros h Hl Hp. by apply Hto; [apply quiet_refl|..]. }
  assert (Hclosed : forall c, sessions (close_chan c g) = sessions g) by (intros c; unfold close_chan; by destruct (is_closed g c)).
  unfold handler_step in Hstep. destruct (hnd s) as [|n|n h|c h o|c h o|c h|c|c r|c r|c r|c r|] eqn:Eh; destruct x as [|q|[env|e]|now|e|rid| | | | | |]; try done.
  - destruct q as [q|]; [|destruct (NodeByToken (rows g) (bearer (md s)))]; injection Hstep as <-; by apply Hto0.
  - destruct (Body env); injection Hstep as <-; by apply Hto0.
  - injection Hstep as <-. by apply Hto0.
  - destruct (conns g !! n) as [old|] eqn:Ec; injection Hstep as <-; (apply exact_add; [done..|by rewrite Eh|by rewrite Eh|done|done]).
  - destruct (is_closed g o); injection Hstep as <-; by apply Hto0.
  - injection Hstep as <-. apply Hto; [apply quiet_close|apply Hclosed|done|done].
  - destruct (heap g !! c); [|done]. cbn in Hstep. injection Hstep as <-. by apply Hto; [apply quiet_same|..].
  - destruct (session_end _ _ _ _); [|done]. injection Hstep as <-. by apply Hto0.
  - destruct (session_end _ _ _ _); [|done]. injection Hstep as <-. by apply Hto0.
  - destruct (session_end _ _ _ _); [|done]. injection Hstep as <-. by apply Hto0.
  - destruct (is_closed g c) eqn:E; injection Hstep as <-; [|by apply Hto0]. apply Hto0; [done|]. intros d [= <-]. by right.
  - injection Hstep as <-. apply Hto; [apply quiet_close|apply Hclosed|done|]. intros d [= <-]. right. apply close_closes. apply (x_bound _ Hx i). unfold live_at. by rewrite Hs; cbn; rewrite Eh.
  - destruct (heap g !! c) as [k|] eqn:Ek; [|done]. cbn in Hstep. assert (Hn : node_of g c = Some (nodeID k)) by (unfold node_of; by rewrite Ek).
    pose proof (exact_remove g i s c (nodeID k)) as Hrem. rewrite Eh in Hrem. destruct (decide _) as [E|E]; injection Hstep as <-; by apply Hrem.
  - destruct (heap g !! c); [|done]. cbn in Hstep. injection Hstep as <-. apply Hto; [by apply quiet_same|done|done|]. intros d E. by left.
Qed.

Lemma exact_reach r0 acts g : reach r0 acts g -> exact g.
Proof.
  induction 1 as [|acts g a g' Hr IH Hstep]; [split; intros *; try discriminate; cbn; by rewrite lookup_empty|].
  unfold step in Hstep. destruct (panicked g); [done|]. destruct a as [m|i x|i x|i x|i|kd n rq|i x|i|i|rs].
  - injection Hstep as <-. eapply exact_quiet, IH. split; try done; intros i; unfold live_at, past_at; cbn.
    + destruct (sessions g !! i) as [s|] eqn:E; [by rewrite (lookup_app_l_Some _ _ _ _ E)|]. destruct ((sessions g ++ [new_session m]) !! i) as [s|] eqn:E'; [|done].
      apply lookup_app_Some in E' as [?|[_ [_ <-]%list_lookup_singleton_Some]]; [congruence|done].
    + destruct (sessions g !! i) as [s|] eqn:E; [by rewrite (lookup_app_l_Some _ _ _ _ E)|]. destruct ((sessions g ++ [new_session m]) !! i) as [s|] eqn:E'; [|done].
      apply lookup_app_Some in E' as [?|[_ [_ <-]%list_lookup_singleton_Some]]; [congruence|done].
  - destruct (sessions g !! i) as [s|] eqn:Es; [|done]. by eapply handler_exact.
  - destruct (sessions g !! i) as [s|] eqn:Es; [|done]. by eapply exact_quiet; [eapply sender_quiet|].
  - destruct (sessions g !! i) as [s|] eqn:Es; [|done]. by eapply exact_quiet; [eapply receiver_quiet|].
  - destruct (sessions g !! i) as [s|] eqn:Es; [|done]. injection Hstep as <-. eapply exact_quiet, IH. by apply (quiet_session g g i s); [apply quiet_refl| | | |].
  - injection Hstep as <-. eapply exact_quiet, IH. by apply quiet_same.
  - destruct (calls g !! i) as [k|] eqn:Ek; [|done]. by eapply exact_quiet; [eapply call_quiet|].
  - destruct (calls g !! i) as [k|] eqn:Ek; [|done]. injection Hstep as <-. eapply exact_quiet, IH. by apply quiet_same.
  - destruct (calls g !! i) as [k|] eqn:Ek; [|done]. cbn in Hstep. destruct (k_out k); [done|]. injection Hstep as <-. eapply exact_quiet, IH. by apply quiet_same.
  - injection Hstep as <-. eapply exact_quiet, IH. by apply quiet_same.
Qed.

(** C9: the registry is exact in every interleaving: it names a connection for
    a node exactly when that is the last one the node made and its session has
    not taken it out yet.  A session that is replaced, however late it ends,
    never takes the newer one offline there, and a session that is over is not
    found again. *)
Theorem registry_exact r0 acts g n c :
  reach r0 acts g -> conns g !! n = Some c <-> newest g n c /\ exists i, live_at g i = Some c.
Proof. intros Hx%exact_reach. split; [apply (x_reg _ Hx)|]. intros [Hn [i Hi]]. by eapply x_live. Qed.

(** ** The end of a call *)

Definition pc_conn (p : pc) : option nat :=
  match p with
  | PGet | PDone _ _ => None
  | PRegister c | PSend c _ _ | PWait c _ _ | PYield c _ _ _ | PCancel c _ | PUnregister c _ _ => Some c
  end.

(** The handler of the session behind the connection has returned. *)
Definition session_over (g : gateway) (c : nat) : Prop := exists j s ret, sessions g !! j = Some s /\ hnd s = HDone (Some c) ret.

(** The caller gave up, or, for a [Call], the session it goes through is over,
    or it found none.  The lines of a [Stream] wait for who reads them, so it
    is left to its context. *)
Definition released (g : gateway) (k : call) : Prop :=
  k_ctx k = true \/
  k_kind k = KCall /\ match pc_conn (k_pc k) with Some c => session_over g c | None => conns g !! k_node k = None end.

(** [k_pc] has come to its end, with nothing of it left on the connection. *)
Definition finished (i : nat) (g : gateway) : Prop :=
  exists k rid ret, calls g !! i = Some k /\ k_pc k = PDone rid ret.

Definition own (i : nat) (l : list action) : Prop := Forall (fun a => exists x, a = CallStep i x) l.

Definition finishes (i : nat) (g : gateway) : Prop := exists l g', own i l /\ run l g = Some g' /\ finished i g'.

Lemma finishes_step i k x g g1 : panicked g = false -> calls g !! i = Some k -> call_step i k x g = Some g1 -> finishes i g1 -> finishes i g.
Proof.
  intros Hp Hk Hs (l & g' & Ho & Hr & Hf). exists (CallStep i x :: l), g'. split_and!; [constructor; [by exists x|done]| |done].
  cbn. unfold step. rewrite Hp, Hk. cbn. by rewrite Hs.
Qed.

Section Ends.
Context (i : nat).

Lemma ends_unregister g k c rid r : panicked g = false -> calls g !! i = Some k -> k_pc k = PUnregister c rid r -> is_Some (node_of g c) -> finishes i g.
Proof.
  intros Hp Hk Epc [n Hn]. unfold node_of in Hn. destruct (heap g !! c) as [kc|] eqn:Ec; [|done].
  eapply (finishes_step i k Go); [done|done|unfold call_step; by rewrite Epc, Ec|].
  eexists [], _. split_and!; [constructor|done|]. exists (to_pc (PDone rid r) k), rid, r. split; [|done]. cbn. apply list_lookup_insert_eq. by eapply lookup_lt_Some.
Qed.

(** One step of the call to a program counter from where it ends. *)
Lemma ends_at g g1 k p x : panicked g = false -> panicked g1 = false -> calls g !! i = Some k -> calls g1 = calls g ->
  call_step i k x g = Some (at_call i (to_pc p k) g1) -> (calls (at_call i (to_pc p k) g1) !! i = Some (to_pc p k) -> finishes i (at_call i (to_pc p k) g1)) -> finishes i g.
Proof.
  intros Hp Hp1 Hk Ek Hs Hf. eapply finishes_step; [done..|]. apply Hf. cbn. rewrite Ek. apply list_lookup_insert_eq. by eapply lookup_lt_Some.
Qed.

Lemma ends_cancel g k c rid : panicked g = false -> calls g !! i = Some k -> k_pc k = PCancel c rid -> is_Some (node_of g c) -> finishes i g.
Proof.
  intros Hp Hk Epc Hn. eapply (ends_at g g k _ OnTimeout); [done..|unfold call_step; by rewrite Epc|]. intros E. by eapply ends_unregister.
Qed.

Lemma ends_wait g k c rid ch : panicked g = false -> calls g !! i = Some k -> k_pc k = PWait c rid ch -> is_Some (node_of g c) ->
  k_ctx k = true \/ k_kind k = KCall /\ is_closed g c = true -> finishes i g.
Proof.
  intros Hp Hk Epc Hn [Hc|[Hk' Hc]].
  - eapply (ends_at g g k _ OnCtx); [done..|unfold call_step; by rewrite Epc, Hc|]. intros E. unfold given_up in E |- *.
    destruct (k_kind k); [by eapply ends_unregister|by eapply ends_cancel].
  - eapply (ends_at g g k _ OnClosed); [done..|unfold call_step; by rewrite Epc, Hc|]. intros E. unfold over in E |- *. rewrite Hk' in E |- *. by eapply ends_unregister.
Qed.

Lemma ends_send g k c rid ch : panicked g = false -> calls g !! i = Some k -> k_pc k = PSend c rid ch -> is_Some (node_of g c) ->
  k_ctx k = true \/ k_kind k = KCall /\ is_closed g c = true -> finishes i g.
Proof.
  intros Hp Hk Epc Hn [Hc|[_ Hc]].
  - eapply (ends_at g g k _ OnCtx); [done..|unfold call_step, registry_send; by rewrite Epc, Hc|]. intros E. by eapply ends_unregister.
  - eapply (ends_at g g k _ OnClosed); [done..|unfold call_step, registry_send; by rewrite Epc, Hc|]. intros E. by eapply ends_unregister.
Qed.

Lemma ends_register g k c : panicked g = false -> calls g !! i = Some k -> k_pc k = PRegister c -> is_Some (node_of g c) ->
  k_ctx k = true \/ k_kind k = KCall /\ is_closed g c = true -> finishes i g.
Proof.
  intros Hp Hk Epc [n Hn] Hc. unfold node_of in Hn. destruct (heap g !! c) as [kc|] eqn:Ec; [|done].
  eapply (ends_at g _ k _ (Id "id")); [done| |done| |unfold call_step; by rewrite Epc, Ec|]; [done..|]. intros E. eapply ends_send; [done|exact E|done| |].
  - exists n. change (node_of (on_conn c (with_pending (<["id"%string := length (chans g)]> (pending kc))) g) c = Some n). rewrite node_alter by done. unfold node_of. by rewrite Ec.
  - destruct Hc as [Hc|[Hk' Hc]]; [by left|right; split; [done|]].
    change (is_closed (on_conn c (with_pending (<["id"%string := length (chans g)]> (pending kc))) g) c = true). by apply closed_alter.
Qed.

Lemma ends_yield g k c rid ch y : panicked g = false -> calls g !! i = Some k -> k_pc k = PYield c rid ch y -> is_Some (node_of g c) -> k_ctx k = true -> finishes i g.
Proof.
  intros Hp Hk Epc Hn Hc. eapply (ends_at g g k _ OnCtx); [done..|unfold call_step; by rewrite Epc, Hc|]. intros E. by eapply ends_cancel.
Qed.

End Ends.

(** C40: a call does not outlast its session: in every state the panel can come
    to, a [Call] whose session is over, or whose node has none, and a call or
    stream whose context is done, wherever it is, before or after its request
    was sent and with every channel full, comes to its end by steps of its
    own, whatever the agent or any other goroutine does or omits. *)
Theorem waiters_released r0 acts g i k :
  reach r0 acts g -> panicked g = false -> calls g !! i = Some k -> released g k -> finishes i g.
Proof.
  intros Hr Hp Hk Hrel. pose proof (attributed_reach _ _ _ Hr) as Ha. pose proof (exact_reach _ _ _ Hr) as Hx. pose proof (at_calls _ _ _ Ha _ _ Hk) as [Hok _].
  assert (Hover : forall c, session_over g c -> is_closed g c = true).
  { intros c (j & s & ret & Hs & Hh). apply (x_past _ Hx j). unfold past_at. rewrite Hs. cbn. by rewrite Hh. }
  assert (Hend : forall c, pc_conn (k_pc k) = Some c -> k_ctx k = true \/ k_kind k = KCall /\ is_closed g c = true).
  { intros c Ec. destruct Hrel as [?|[Hkind Hs]]; [by left|]. rewrite Ec in Hs. right. split; [done|by apply Hover]. }
  destruct (k_pc k) as [|c|c rid ch|c rid ch|c rid ch y|c rid|c rid r|rid r] eqn:Epc; cbn in Hok.
  - destruct (conns g !! k_node k) as [c|] eqn:Ec.
    + destruct Hrel as [Hc|[_ Hn]]; [|rewrite Epc in Hn; cbn in Hn; congruence]. pose proof (at_conns _ _ _ Ha _ _ Ec) as Hn.
      eapply (ends_at i g g k _ Go); [done..|unfold call_step; by rewrite Epc, Ec|]. intros E. eapply ends_register; [done|exact E|done|by eexists|by left].
    + eapply (ends_at i g g k _ Go); [done..|unfold call_step; by rewrite Epc, Ec|]. intros E. eexists [], _. split_and!; [constructor|done|]. by eexists _, _, _.
  - eapply ends_register; [done..| |by apply Hend]. by eexists.
  - destruct Hok as [Hn _]. eapply ends_send; [done..| |by apply Hend]. by eexists.
  - destruct Hok as [Hn _]. eapply ends_wait; [done..| |by apply Hend]. by eexists.
  - destruct Hok as (Hkd & Hn & _). destruct (Hend c eq_refl) as [Hc|[Hkind _]]; [|congruence]. eapply ends_yield; [done..| |done]. by eexists.
  - destruct Hok as [_ Hn]. eapply ends_cancel; [done..|]. by eexists.
  - destruct Hok as [Hn _]. eapply ends_unregister; [done..|]. by eexists.
  - eexists [], g. split_and!; [constructor|done|]. by eexists _, _, _.
Qed.

(** ** Runs *)

Module Sim.

Lemma run_reach r acts l g g' : reach r acts g -> run l g = Some g' -> reach r (acts ++ l) g'.
Proof.
  revert acts g. induction l as [|a l IH]; intros acts g Hr; cbn; [intros [= <-]; by rewrite app_nil_r|].
  destruct (step a g) as [g1|] eqn:E; [|done]. cbn. intros Hl. replace (acts ++ a :: l) with ((acts ++ [a]) ++ l) by (by rewrite <- app_assoc). eapply IH; [|done]. by econstructor.
Qed.

Definition node_row (token : string) : NodeRow := {|
  AgentTokenHash := Some (HashToken token); Engine := "telemt"; Status := Offline; LastSeenAt := None;
  TproxyVersion := EmptyString; AgentVersion := EmptyString; TelemtVersion := EmptyString; TelemtBuild := EmptyString;
  LastHealth := None; TelemtCapabilities := None; CapabilitiesCheckedAt := None
|}.
Definition rows_ex : gmap string NodeRow := {[ "n1"%string := node_row "t1"; "n2"%string := node_row "t2" ]}.

Definition envelope (id : string) (b : body) : Envelope := {| RequestId := id; Body := b |}.
Definition hello : Envelope := envelope EmptyString (BHello {| h_AgentVersion := "2.17.5"; h_TproxyVersion := "telemt 3.5.14" |}).

(** Stream [i], opened with [token], up to the wait for its end. *)
Definition opening (i : nat) (token : string) : list action :=
  [Connect [("Bearer " +:+ token)%string]; Handler i (Query None); Handler i (Message (Ok hello)); Handler i Go].
Definition connected (i : nat) (token : string) : list action := opening i token ++ [Handler i (Wrote (Some 1))].

Definition health_of (from : string) : body := BResponse {| Error := EmptyString; payload := from |}.
Definition answered (i : nat) (from : string) : list action :=
  [Receiver i (Message (Ok (envelope "r1" (health_of from)))); Receiver i Go].

(** The second node answers under the id of a request to the first, before it
    does. *)
Definition two_nodes : list action :=
  connected 0 "t1" ++ connected 1 "t2" ++
  [NewCall KCall "n1" (Other "health"); CallStep 0 Go; CallStep 0 (Id "r1"); CallStep 0 OnChan; Sender 0 OnChan] ++
  answered 1 "n2" ++ answered 0 "n1" ++ [Receiver 0 Go; CallStep 0 OnChan; CallStep 0 Go].

Definition after (l : list action) : gateway := default (start rows_ex) (run l (start rows_ex)).
Definition status_of (g : gateway) (n : string) : option NodeStatus := Status <$> rows g !! n.

Definition health_call : call := {|
  k_kind := KCall; k_node := "n1"; k_req := Other "health"; k_ctx := false;
  k_pc := PDone "r1" {| resp := Some {| Error := EmptyString; payload := "n1" |}; err := None |}; k_out := []
|}.

Example two_nodes_run :
  calls (after two_nodes) !! 0%nat = Some health_call /\
  status_of (after two_nodes) "n1" = Some Online.
Proof. split; by vm_compute. Qed.

Lemma nodes_kept_apart_witness :
  exists e, said rows_ex two_nodes "n1" e /\ RequestId e = "r1"%string /\ Body e = health_of "n1".
Proof.
  assert (Hr : reach rows_ex two_nodes (after two_nodes)) by (apply (run_reach _ [] _ (start rows_ex)); [constructor|by vm_compute]).
  by apply (proj1 (nodes_kept_apart _ _ _ Hr) 0%nat health_call "r1"%string {| resp := Some {| Error := EmptyString; payload := "n1" |}; err := None |}); [vm_compute|..].
Defined.

(** The agent comes back before the panel has noticed that its first stream
    broke. *)
Definition replaced : list action := connected 0 "t1" ++ opening 1 "t1" ++ [Handler 1 Go; Handler 1 Go; Handler 1 (Wrote (Some 2))].
(** The first handler runs to its end. *)
Definition late_end : list action := [Handler 0 OnClosed; Handler 0 Go; Handler 0 Go].

Lemma registry_exact_witness :
  conns (after (replaced ++ late_end)) !! "n1"%string = Some 1%nat /\ newest (after (replaced ++ late_end)) "n1" 1 /\ status_of (after (replaced ++ late_end)) "n1" = Some Online.
Proof.
  assert (Hr : reach rows_ex (replaced ++ late_end) (after (replaced ++ late_end))) by (apply (run_reach _ [] _ (start rows_ex)); [constructor|by vm_compute]).
  assert (Hc : conns (after (replaced ++ late_end)) !! "n1"%string = Some 1%nat) by (by vm_compute).
  split_and!; [done|exact (proj1 (proj1 (registry_exact _ _ _ "n1"%string 1%nat Hr) Hc))|by vm_compute].
Defined.

(** A call that waits for its answer when the stream breaks. *)
Definition broken : list action :=
  connected 0 "t1" ++ [NewCall KCall "n1" (Other "apply"); CallStep 0 Go; CallStep 0 (Id "r1"); CallStep 0 OnChan; Sender 0 OnChan;
    Receiver 0 (Message (Err "EOF"%string)); Handler 0 OnRecvErr; Handler 0 Go; Handler 0 Go; Handler 0 Go; Handler 0 (Wrote (Some 3))].

Lemma waiters_released_witness : finishes 0 (after broken) /\ status_of (after broken) "n1" = Some Offline.
Proof.
  assert (Hr : reach rows_ex broken (after broken)) by (apply (run_reach _ [] _ (start rows_ex)); [constructor|by vm_compute]).
  split; [|by vm_compute]. eapply (waiters_released _ _ _ 0%nat); [exact Hr|by vm_compute|by vm_compute|].
  right. split; [done|]. eexists 0%nat, _, _. split; [by vm_compute|reflexivity].
Defined.

(** The old session ends while the new one replaces it: both have found the
    connection open when the first of them closes it. *)
Example closed_twice :
  panicked (after (connected 0 "t1" ++ [Receiver 0 (Message (Err "EOF"%string)); Handler 0 OnRecvErr] ++ opening 1 "t1" ++ [Handler 0 Go; Handler 1 Go; Handler 0 Go; Handler 1 Go])) = true.
Proof. by vm_compute. Qed.

(** A heartbeat that carries no report. *)
Example heartbeat_panics :
  panicked (after (connected 0 "t1" ++ [Receiver 0 (Message (Ok (envelope EmptyString (BHeartbeat None)))); Receiver 0 Go])) = true.
Proof. by vm_compute. Qed.

(** The agent is back between the two steps of the old session's end: its row
    says offline while it is connected. *)
Example stale_offline :
  let g := after (connected 0 "t1" ++ [Receiver 0 (Message (Err "EOF"%string)); Handler 0 OnRecvErr; Handler 0 Go; Handler 0 Go; Handler 0 Go] ++ connected 1 "t1" ++ [Handler 0 (Wrote (Some 2))]) in
  conns g !! "n1"%string = Some 1%nat /\ status_of g "n1" = Some Offline.
Proof. split; by vm_compute. Qed.

End Sim.
