(* ===== verification/SiteFiles.v ===== *)
(** * The website of a node

    internal/agent/files.go and internal/agent/apply.go: the paths of a site,
    walking and copying directories, and deploying a site by preparing it next
    to the one that is served and exchanging the two in one system call.

    A directory is the files below it.  That an empty directory exists, or
    that there is none, is known to the outside alone: it is what a call on a
    directory with nothing below it answers.  A site holds regular files only. *)

From stdpp Require Import sorting.
From S2P Require Import Prelude Calendar TelemtTypes Node NodeLogic AgentFiles UpdateState Convert Upstream.

Local Open Scope go_scope.

(** ** Paths of a site *)

(** [filepath.Clean] of a path that starts with a slash and has no parent
    component. *)
Definition clean_components (p : string) : list string :=
  filter (fun c => c <> EmptyString /\ c <> "."%string) (Path.components p).

Definition safeSitePath (p : string) : result string :=
  let clean := clean_components p in
  if Str.contains p ".." || bool_decide (clean = []) then Err ("invalid site path " +:+ Str.quote p)
  else Ok (Str.join "/" clean).

(** ** Directories *)

Definition below (d p : string) : bool := Str.has_prefix p (d +:+ "/").

Definition below_ (d r : string) : string := if String.eqb r EmptyString then d else d +:+ "/" +:+ r.

Definition rel (d p : string) : string := Str.drop (S (String.length d)) p.

(** The order of [filepath.Walk]: component by component. *)
Fixpoint comps_leb (a b : list string) : bool :=
  match a, b with
  | [], _ => true
  | _, [] => false
  | x :: a, y :: b => if String.eqb x y then comps_leb a b else String.leb x y
  end.

Definition walk_le (a b : string) : Prop := comps_leb (Path.components a) (Path.components b) = true.
#[export] Instance walk_le_dec : RelDecision walk_le.
Proof. intros a b. unfold walk_le. apply _. Defined.

(** The names of the files below a directory. *)
Definition names_below (d : string) (f : files) : list string :=
  merge_sort walk_le (rel d <$> filter (fun p => below d p = true) (fst <$> map_to_list f)).

Inductive entry := Directory (r : string) | Regular (r : string).
#[export] Instance entry_dec : EqDecision entry.
Proof. solve_decision. Defined.

(** The directories on the way to a file. *)
Fixpoint parents_of (at_ : string) (cs : list string) : list string :=
  match cs with
  | [] | [_] => []
  | c :: cs => let d := if String.eqb at_ EmptyString then c else at_ +:+ "/" +:+ c in d :: parents_of d cs
  end.

Definition parents (r : string) : list string := parents_of EmptyString (Path.components r).

Fixpoint walk_entries (seen names : list string) : list entry :=
  match names with
  | [] => []
  | r :: names =>
      let fresh := filter (fun d => d ∉ seen) (parents r) in
      (Directory <$> fresh) ++ Regular r :: walk_entries (fresh ++ seen) names
  end.

(** What [filepath.Walk] visits, by its path below the root. *)
Definition walk (d : string) (f : files) : list entry := Directory EmptyString :: walk_entries [] (names_below d f).

Section Site.
Context `{Outside} `{O : MapOrder}.
Context (cfg : Config).

Definition siteDir : string := if String.eqb (cfg_Engine cfg) "telemt" then TelemtSiteDir cfg else RelaySiteDir cfg.

(** [os.MkdirAll] *)
Definition mkdir_all (p : string) : M (result unit) :=
  try _ ← check (MkdirAll p);
  f ← the_files;
  mret (if existsb (fun q => String.eqb q p || below q p) (fst <$> map_to_list f)
        then Err ("mkdir " +:+ p +:+ ": not a directory") else Ok tt).

(** [os.WriteFile] *)
Definition write_file (p data : string) (mode : Z) : M (result unit) :=
  f ← the_files;
  if existsb (below p) (fst <$> map_to_list f) then mret (Err ("open " +:+ p +:+ ": is a directory"))
  else
    try _ ← open_trunc p mode;
    wrote ← write p data;
    closed ← check (Close p);
    mret (match wrote with Err e => Err e | Ok _ => closed end).

Fixpoint remove_each (l : list string) : M unit :=
  match l with
  | [] => mret tt
  | p :: l => f ← the_files; _ ← set_files (delete p f); remove_each l
  end.

(** [os.RemoveAll]; one that fails has removed some of the files. *)
Definition remove_all (d : string) : M (result unit) :=
  f ← the_files;
  let inside := filter (fun p => p = d \/ below d p = true) (fst <$> map_to_list f) in
  fault ← perform (Fault (RemoveAll d));
  match fault with
  | None => _ ← remove_each inside; mret (Ok tt)
  | Some e => n ← perform (ShortWrite d); _ ← remove_each (take n inside); mret (Err e)
  end.

(** Where a path is after two directories changed places. *)
Definition swapped (a b p : string) : string :=
  if below a p then b +:+ Str.drop (String.length a) p
  else if below b p then a +:+ Str.drop (String.length b) p else p.

Definition swap_dirs (a b : string) (f : files) : files := kmap (swapped a b) f.

(** exchangeDirectories: [renameat2] with [RENAME_EXCHANGE]. *)
Definition exchangeDirectories (a b : string) : M (result unit) :=
  try _ ← check (Exchange a b);
  f ← the_files; _ ← set_files (swap_dirs a b f); mret (Ok tt).

(** [os.Rename] of a directory to a name that is not taken. *)
Definition rename_dir (a b : string) : M (result unit) :=
  try _ ← check (Rename a b);
  f ← the_files; _ ← set_files (swap_dirs a b f); mret (Ok tt).

(** ** Copying *)

Definition copy_entry (src dst : string) (e : entry) : M (result unit) :=
  match e with
  | Directory r =>
      try _ ← check (Stat (below_ src r));
      try _ ← check (ReadDir (below_ src r));
      mkdir_all (below_ dst r)
  | Regular r =>
      try info ← stat (Stat (below_ src r)) (below_ src r);
      match info with
      | None => mret (Err (errNotExist "lstat" (below_ src r)))
      | Some info =>
          try data ← must_read (below_ src r);
          write_file (below_ dst r) data (Z.land (fmode info) 511)
      end
  end.

Fixpoint copy_entries (src dst : string) (l : list entry) : M (result unit) :=
  match l with
  | [] => mret (Ok tt)
  | e :: l => try _ ← copy_entry src dst e; copy_entries src dst l
  end.

Definition copyDir (src dst : string) : M (result unit) :=
  f ← the_files; copy_entries src dst (walk src f).

(** ** Reading the site *)

Definition under (skipped : list string) (r : string) : bool :=
  existsb (fun s => String.eqb s EmptyString || String.eqb s r || below s r) skipped.

(** The walk of readSite: what cannot be read is passed over. *)
Fixpoint read_entries (d : string) (skipped : list string) (l : list entry) (out : bundle) : M bundle :=
  match l with
  | [] => mret out
  | Directory r :: l =>
      if under skipped r then read_entries d skipped l out
      else
        listed ← (try _ ← check (Stat (below_ d r)); check (ReadDir (below_ d r)));
        read_entries d (match listed with Ok _ => skipped | Err _ => r :: skipped end) l out
  | Regular r :: l =>
      if under skipped r then read_entries d skipped l out
      else
        data ← (try _ ← check (Stat (below_ d r)); read_file (below_ d r));
        read_entries d skipped l (match data with Ok (Some data) => <[r := data]> out | _ => out end)
  end.

Definition readSite : M bundle :=
  f ← the_files; read_entries siteDir [] (walk siteDir f) ∅.

Definition same_site (current files : bundle) : bool :=
  (size current =? size files)%nat &&
  forallb (fun e => String.eqb (default EmptyString (current !! e.1)) e.2) (map_to_list files).

Definition siteEquals (files : bundle) : M bool :=
  current ← readSite; mret (same_site current files).

(** ** Deploying *)

(** Put the prepared directory in the place of the site. *)
Definition take_place (tmp dir : string) : M (result unit) :=
  f ← the_files;
  found ← check (Stat dir);
  match found with
  | Ok _ => wrapped (fun e => "atomic website exchange: " +:+ e) (exchangeDirectories tmp dir)
  | Err e =>
      if String.eqb e (errNotExist "lstat" dir) && negb (existsb (below dir) (fst <$> map_to_list f))
      then rename_dir tmp dir else mret (Err e)
  end.

Definition swap_of (dir : string) : string := dir +:+ ".swap".
Definition new_of (dir : string) : string := dir +:+ ".new".

Definition swapSiteDir (src : string) : M (result unit) :=
  let tmp := swap_of siteDir in
  _ ← ignore (remove_all tmp);
  done ← (try _ ← copyDir src tmp;
          try _ ← take_place tmp siteDir;
          _ ← (if Str.has_suffix src ".new" then ignore (remove_all src) else mret tt : M unit);
          mret (Ok tt));
  _ ← ignore (remove_all tmp);
  mret done.

Fixpoint stage_site (staging : string) (l : list (string * string)) : M (result unit) :=
  match l with
  | [] => mret (Ok tt)
  | (p, content) :: l =>
      let full := staging +:+ "/" +:+ p in
      try _ ← mkdir_all (Path.Dir full);
      try _ ← write_file full content 420;
      stage_site staging l
  end.

Definition writeSiteDir (files : bundle) : M (result unit) :=
  let staging := new_of siteDir in
  _ ← ignore (remove_all staging);
  try _ ← stage_site staging (range_order (map_to_list files));
  swapSiteDir staging.

(** ** Backups *)

Definition keptBackups : nat := 5.

(** The layout 20060102T150405Z. *)
Definition stamp (t : Z) : string :=
  let s := unix t in
  let '(y, m, d) := Cal.civil (s / 86400) in
  let c := s mod 86400 in
  Rfc3339.year y +:+ Rfc3339.two m +:+ Rfc3339.two d +:+ "T" +:+
  Rfc3339.two (c / 3600) +:+ Rfc3339.two (c / 60 mod 60) +:+ Rfc3339.two (c mod 60) +:+ "Z".

(** Two random bytes in hexadecimal. *)
Definition randSuffix : M string :=
  r ← perform Random;
  let n := Z.to_nat (r mod 65536) in
  mret (String (Str.hex_digit (n / 4096)) (String (Str.hex_digit (n / 256 mod 16))
    (String (Str.hex_digit (n / 16 mod 16)) (String (Str.hex_digit (n mod 16)) EmptyString)))).

Definition backup_root : string := Path.Join (StateDir cfg) "backup".

Definition backup_dir : M string :=
  t ← clock; r ← randSuffix; mret (Path.Join backup_root (stamp t +:+ "-" +:+ r)).

(** The directories of the backups, oldest first. *)
Definition backups (f : files) : list string :=
  remove_dups (omap (fun r => match Path.components r with d :: _ :: _ => Some d | _ => None end) (names_below backup_root f)).

Fixpoint remove_backups (l : list string) (removed : nat) (err : option error) : M (nat * option error) :=
  match l with
  | [] => mret (removed, err)
  | d :: l =>
      r ← remove_all (Path.Join backup_root d);
      match r with
      | Err e => remove_backups l removed (match err with Some e0 => Some e0 | None => Some e end)
      | Ok _ => remove_backups l (S removed) err
      end
  end.

Definition pruneBackups (keep : nat) : M (nat * option error) :=
  f ← the_files;
  listed ← check (ReadDir backup_root);
  match listed with
  | Err e => mret (0%nat, if String.eqb e (errNotExist "open" backup_root) then None else Some e)
  | Ok _ =>
      let names := backups f in
      remove_backups (take (length names - keep) names) 0 None
  end.

End Site.
