(* ===== verification/SiteSafety.v ===== *)
(** * The site is served whole

    Deploying a site ([SiteFiles.writeSiteDir], [SiteFiles.swapSiteDir])
    replaces what the website directory holds in one step: at every instant
    the directory holds the old site or the new one, a deployment that failed
    left the old one, and one that succeeded left the files it was given. *)

From stdpp Require Import sorting.
From S2P Require Import Prelude TelemtTypes Node NodeLogic AgentFiles UpdateState Upstream SiteFiles.

Local Open Scope go_scope.

(** ** Paths below directories *)

Lemma below_spec d p : below d p = true <-> exists r, p = d +:+ "/" +:+ r.
Proof.
  unfold below. rewrite Str.has_prefix_spec. split; intros [r ->]; exists r; by rewrite ?Str.append_assoc.
Qed.

Lemma append_inj p a b : p +:+ a = p +:+ b -> a = b.
Proof. induction p as [|c p IH]; [done|]. rewrite !Str.append_cons. intros [= E]. auto. Qed.

(** Two directories neither of which is inside the other. *)
Definition apart (a b : string) : Prop := forall p, below a p = true -> below b p = true -> False.

Lemma apart_sym a b : apart a b -> apart b a.
Proof. intros H p Hb Ha. by apply (H p). Qed.

Lemma apart_below a b : apart a b -> below a b = true -> False.
Proof.
  intros Hab H. apply (Hab (b +:+ "/" +:+ EmptyString)); apply below_spec; [|by exists EmptyString].
  apply below_spec in H as [r ->]. exists (r +:+ "/" +:+ EmptyString). by rewrite !Str.append_assoc.
Qed.

Lemma apart_suffix d c s : c <> "/"%char -> apart (d +:+ String c s) d.
Proof.
  intros Hc p [r ->]%below_spec [q E]%below_spec. rewrite Str.append_assoc in E. apply append_inj in E.
  rewrite Str.append_cons in E. injection E as E _. done.
Qed.

Lemma apart_swap d : apart (swap_of d) d.
Proof. by apply apart_suffix. Qed.

Lemma apart_new d : apart (new_of d) d.
Proof. by apply apart_suffix. Qed.

Lemma apart_new_swap d : apart (new_of d) (swap_of d).
Proof.
  intros p [r ->]%below_spec [q E]%below_spec. unfold new_of, swap_of in E. rewrite !Str.append_assoc in E.
  apply append_inj in E. discriminate E.
Qed.

Lemma below_in d r : below d (d +:+ "/" +:+ r) = true.
Proof. apply below_spec. by exists r. Qed.

Lemma drop_length_app d s : Str.drop (String.length d) (d +:+ s) = s.
Proof. apply Str.drop_length_append. Qed.

Lemma rel_below d r : rel d (d +:+ "/" +:+ r) = r.
Proof.
  unfold rel. assert (E : S (String.length d) = String.length (d +:+ "/")) by (rewrite Str.length_append; cbn; lia).
  by rewrite E, <- Str.append_assoc, drop_length_app.
Qed.

Lemma swapped_left a b r : swapped a b (a +:+ "/" +:+ r) = b +:+ "/" +:+ r.
Proof. unfold swapped. by rewrite below_in, drop_length_app. Qed.

Lemma swapped_right a b r : apart a b -> swapped a b (b +:+ "/" +:+ r) = a +:+ "/" +:+ r.
Proof.
  intros Hab. unfold swapped. destruct (below a _) eqn:E; [|by rewrite below_in, drop_length_app].
  exfalso. eapply Hab; [exact E|apply below_in].
Qed.

Lemma swapped_involutive a b p : apart a b -> swapped a b (swapped a b p) = p.
Proof.
  intros Hab. destruct (below a p) eqn:Ea; [apply below_spec in Ea as [r ->]; by rewrite swapped_left, swapped_right|].
  destruct (below b p) eqn:Eb; [apply below_spec in Eb as [r ->]; by rewrite swapped_right, swapped_left|].
  unfold swapped. by rewrite Ea, Eb, Ea, Eb.
Qed.

Lemma swap_lookup a b f p : apart a b -> swap_dirs a b f !! p = f !! swapped a b p.
Proof.
  intros Hab. assert (Inj eq eq (swapped a b)).
  { intros x y E. rewrite <- (swapped_involutive a b x), E by done. by apply swapped_involutive. }
  unfold swap_dirs. rewrite <- (swapped_involutive a b p) at 1 by done. by rewrite lookup_kmap.
Qed.

(** ** What a directory holds *)

Definition holds (d : string) (f : files) (r : string) : option string := fdata <$> f !! (d +:+ "/" +:+ r).

(** A directory and what is in it. *)
Definition region (d : string) : paths := fun p => p = d \/ below d p = true.

(** [g] has in a directory what [f] has. *)
Definition as_in (d : string) (f g : files) : Prop := forall r, holds d g r = holds d f r.

Lemma as_in_off (S : paths) d f g : (forall r, ~ S (d +:+ "/" +:+ r)) -> same_off S f g -> as_in d f g.
Proof. intros HS Hf r. unfold holds. by rewrite (Hf _ (HS r)). Qed.

Lemma as_in_trans d f g h : as_in d f g -> as_in d g h -> as_in d f h.
Proof. intros H1 H2 r. by rewrite H2. Qed.

Section Safety.
Context `{Outside} `{O : MapOrder}.
Context (cfg : Config).
Context (E : questions).
Hypothesis HE : system_ok E.

(** ** Footprints *)

Lemma touches_remove_each (S : paths) l : (forall p, p ∈ l -> S p) -> touches S E (remove_each l).
Proof.
  induction l as [|p l IH]; intros HS; cbn [remove_each]; [touches|].
  apply (touches_set_files S E (fun f => delete p f)).
  - intros f. apply same_off_delete. apply HS. by left.
  - apply IH. intros q Hq. apply HS. by right.
Qed.

Lemma touches_remove_all (S : paths) d : (forall p, region d p -> S p) -> touches S E (remove_all d).
Proof.
  intros HS. pose proof HE as [Hf Hs _ _]. unfold remove_all. apply touches_bind; [touches|]. intros f. cbv zeta.
  set (l := filter _ _). assert (Hl : forall p, p ∈ l -> S p).
  { intros p [Hp _]%list_elem_of_filter. by apply HS. }
  clearbody l. apply touches_bind; [apply touches_perform, Hf|]. intros [e|].
  - apply touches_bind; [apply touches_perform, Hs|]. intros n. apply touches_bind; [|touches]. apply touches_remove_each.
    intros p Hp. apply Hl. by apply elem_of_take in Hp as (i & Hi%list_elem_of_lookup_2 & _).
  - apply touches_bind; [|touches]. by apply touches_remove_each.
Qed.

Lemma touches_mkdir_all S p : touches S E (mkdir_all p).
Proof. pose proof HE. unfold mkdir_all. touches. Qed.

Lemma touches_write_file (S : paths) p data mode : S p -> touches S E (write_file p data mode).
Proof. intros Hp. pose proof HE. unfold write_file. touches. Qed.

Lemma region_below d r : region d (below_ d r).
Proof. unfold below_, region. destruct (String.eqb r EmptyString); [by left|]. right. apply below_in. Qed.

Lemma touches_copy_entry (S : paths) src dst e : (forall p, region dst p -> S p) -> touches S E (copy_entry src dst e).
Proof.
  intros HS. pose proof HE. pose proof touches_mkdir_all. destruct e as [r|r]; cbn [copy_entry]; [touches|].
  apply touches_try; [touches|]. intros [x|]; [|touches]. apply touches_try; [touches|]. intros data.
  apply touches_write_file, HS, region_below.
Qed.

Lemma touches_copyDir (S : paths) src dst : (forall p, region dst p -> S p) -> touches S E (copyDir src dst).
Proof.
  intros HS. unfold copyDir. apply touches_bind; [touches|]. intros f. generalize (walk src f). intros l.
  induction l as [|e l IH]; cbn [copy_entries]; [touches|]. apply touches_try; [by apply touches_copy_entry|]. done.
Qed.

Lemma touches_stage_site (S : paths) d l : (forall p, region d p -> S p) -> touches S E (stage_site d l).
Proof.
  intros HS. pose proof touches_mkdir_all. induction l as [|[p c] l IH]; cbn [stage_site]; cbv zeta; [touches|].
  apply touches_try; [done|]. intros _. apply touches_try; [|done]. apply touches_write_file, HS. right. apply below_in.
Qed.

(** ** What the steps did *)

Lemma remove_each_fs l w u w' p : remove_each l w = (u, w') ->
  fs w' !! p = fs w !! p \/ fs w' !! p = None.
Proof.
  revert w. induction l as [|q l IH]; intros w; cbn [remove_each]; [intros [_ <-]%ret_inv; by left|].
  intros (f & w1 & [-> <-]%files_inv & Hr)%bind_inv. apply bind_inv in Hr as (? & w2 & Hs%set_files_fs & Hr).
  destruct (IH _ Hr) as [E'|E']; [|by right]. rewrite E', Hs. destruct (decide (q = p)) as [<-|Hn].
  - right. apply lookup_delete_eq.
  - left. by apply lookup_delete_ne.
Qed.

Lemma remove_all_fs d w r w' p : remove_all d w = (r, w') -> fs w' !! p = fs w !! p \/ fs w' !! p = None.
Proof.
  intros (f & w1 & [-> <-]%files_inv & Hr)%bind_inv. cbv zeta in Hr.
  apply bind_inv in Hr as (a & w2 & Hf%perform_fs & Hr). rewrite <- Hf. destruct a as [e|].
  - apply bind_inv in Hr as (n & w3 & Hn%perform_fs & Hr). rewrite <- Hn.
    apply bind_inv in Hr as (u & w4 & Hr & [_ <-]%ret_inv). by eapply remove_each_fs.
  - apply bind_inv in Hr as (u & w4 & Hr & [_ <-]%ret_inv). by eapply remove_each_fs.
Qed.

Lemma write_file_ok p data mode w u w' : write_file p data mode w = (Ok u, w') ->
  exists x, fs w' = <[p := x]> (fs w) /\ fdata x = data.
Proof.
  intros (f & w1 & [-> <-]%files_inv & Hr)%bind_inv. destruct (existsb _ _); [by apply ret_inv in Hr as [[=] _]|].
  apply try_ok in Hr as (v & w2 & Hopen & Hr). apply open_trunc_ok in Hopen as (x & Ho & Hx).
  apply bind_inv in Hr as (r & w3 & Hw & Hr). apply bind_inv in Hr as (c & w4 & Hc%check_fs & [Hr <-]%ret_inv).
  destruct r as [[]|e]; [|done]. assert (Hl : fs w2 !! p = Some x) by (rewrite Ho; apply lookup_insert_eq).
  pose proof (write_ok _ _ _ _ _ _ Hw Hl) as Hw'.
  exists (with_data x (fdata x +:+ data)). rewrite Hc, Hw', Ho, insert_insert_eq. split; [done|]. cbn. by rewrite Hx.
Qed.

(** A walk meets exactly the files below its root. *)
Lemma names_below_spec d f r : r ∈ names_below d f <-> is_Some (f !! (d +:+ "/" +:+ r)).
Proof.
  unfold names_below. rewrite merge_sort_Permutation, list_elem_of_fmap. split.
  - intros (p & -> & [Hb Hp]%list_elem_of_filter). apply below_spec in Hb as [q ->]. rewrite rel_below.
    apply list_elem_of_fmap in Hp as ([p x] & -> & Hp). apply elem_of_map_to_list in Hp. by exists x.
  - intros [x Hx]. exists (d +:+ "/" +:+ r). split; [by rewrite rel_below|].
    apply list_elem_of_filter. split; [apply below_in|]. apply list_elem_of_fmap. exists (d +:+ "/" +:+ r, x).
    split; [done|]. by apply elem_of_map_to_list.
Qed.

Lemma walk_entries_spec seen names r : Regular r ∈ walk_entries seen names <-> r ∈ names.
Proof.
  revert seen. induction names as [|n names IH]; intros seen; cbn [walk_entries]; [by rewrite !elem_of_nil|].
  rewrite elem_of_app, !elem_of_cons, IH. split.
  - intros [(d & [=] & _)%list_elem_of_fmap|[[= ->]|]]; auto.
  - intros [->|]; auto.
Qed.

Lemma walk_spec d f r : Regular r ∈ walk d f <-> is_Some (f !! (d +:+ "/" +:+ r)).
Proof.
  unfold walk. rewrite elem_of_cons, walk_entries_spec, names_below_spec. split; [intros [[=]|]; done|auto].
Qed.

Lemma below_path d r : r <> EmptyString -> below_ d r = d +:+ "/" +:+ r.
Proof. intros Hr. unfold below_. by rewrite (proj2 (String.eqb_neq _ _) Hr). Qed.

(** One entry is copied as it is. *)
Lemma copy_entry_ok src dst e w u w' : copy_entry src dst e w = (Ok u, w') ->
  match e with
  | Directory _ => fs w' = fs w
  | Regular r => exists x y, fs w !! below_ src r = Some x /\ fs w' = <[below_ dst r := y]> (fs w) /\ fdata y = fdata x
  end.
Proof.
  destruct e as [r|r]; cbn [copy_entry]; intros Hr; inv_ok.
  - unfold mkdir_all in Hr. inv_ok. apply bind_inv in Hr as (f & w3 & [-> <-]%files_inv & [_ <-]%ret_inv). congruence.
  - apply stat_inv in Hm as [Hf Hx]. destruct Hx as [[= ->]|[? [=]]]. destruct (fs w !! below_ src r) as [x|] eqn:Ex; [|by apply ret_inv in Hr as [[=] _]].
    apply try_ok in Hr as (data & w1 & Hm & Hr). apply must_read_ok in Hm as [Hf1 (x' & Hx' & <-)].
    apply write_file_ok in Hr as (y & Hy & Hd). exists x, y. rewrite Hf, Ex in Hx'. injection Hx' as <-.
    split; [done|]. split; [by rewrite Hy, Hf1, Hf|done].
Qed.

(** A copy that succeeded: the names that were there have their data, the
    other ones are as they were. *)
Lemma copy_entries_ok src dst l w u w' : apart src dst -> copy_entries src dst l w = (Ok u, w') ->
  (forall r, r <> EmptyString -> Regular r ∈ l -> is_Some (holds src (fs w) r) /\ holds dst (fs w') r = holds src (fs w) r) /\
  (forall r, Regular r ∉ l -> holds dst (fs w') r = holds dst (fs w) r).
Proof.
  intros Ha. revert w. induction l as [|e l IH]; intros w; cbn [copy_entries].
  - intros [_ <-]%ret_inv. split; [by intros r _ ?%elem_of_nil|done].
  - intros (v0 & w1 & He & Hr)%try_ok. destruct (IH _ Hr) as [Hd Ho]. apply copy_entry_ok in He. destruct e as [q|q].
    + rewrite He in Hd, Ho. split; [|intros r Hn; apply Ho; set_solver].
      intros r Hr' [[=]|Hin]%elem_of_cons. auto.
    + destruct He as (x & y & Hx & Hf & Hdata).
      assert (Hsrc : forall r, holds src (fs w1) r = holds src (fs w) r).
      { intros r. unfold holds. rewrite Hf, lookup_insert_ne; [done|]. intros E'.
        destruct (region_below dst q) as [E''|E'']; rewrite E' in E''; [|by eapply Ha; [apply below_in|]].
        eapply apart_below; [exact Ha|]. rewrite <- E''. apply below_in. }
      assert (Hdst : forall r, r <> q -> holds dst (fs w1) r = holds dst (fs w) r).
      { intros r Hn. unfold holds. rewrite Hf, lookup_insert_ne; [done|]. intros E'.
        destruct (String.eqb_spec q EmptyString) as [->|Hq].
        - assert (El : String.length dst = String.length (dst +:+ "/" +:+ r)) by by rewrite <- E'.
          rewrite !Str.length_append in El. cbn in El. lia.
        - rewrite below_path in E' by done. apply append_inj, append_inj in E'. done. }
      split; [|intros r Hn; rewrite Ho, Hdst by set_solver; done].
      intros r Hr' Hin. destruct (decide (Regular r ∈ l)) as [Hl|Hl].
      * rewrite <- (Hsrc r). by apply Hd.
      * assert (r = q) as -> by set_solver. rewrite Ho by done. unfold holds. rewrite Hf, <- !below_path by done.
        rewrite lookup_insert_eq, Hx. cbn. by rewrite Hdata.
Qed.

Lemma copyDir_ok src dst w u w' : apart src dst -> copyDir src dst w = (Ok u, w') ->
  forall r, r <> EmptyString -> holds dst (fs w') r = match holds src (fs w) r with Some c => Some c | None => holds dst (fs w) r end.
Proof.
  intros Ha (f & w1 & [-> <-]%files_inv & Hr)%bind_inv r Hne. destruct (copy_entries_ok _ _ _ _ _ _ Ha Hr) as [Hd Ho].
  unfold holds at 2. destruct (fs w !! (src +:+ "/" +:+ r)) as [x|] eqn:Ex; cbn.
  - assert (Hin : Regular r ∈ walk src (fs w)) by (by apply walk_spec; rewrite Ex).
    destruct (Hd r Hne Hin) as [_ ->]. unfold holds. by rewrite Ex.
  - apply Ho. rewrite walk_spec, Ex. by intros [? [=]].
Qed.

(** A staged site: the files with their data, the other names as they were. *)
Lemma stage_site_ok d l w u w' : NoDup l.*1 -> stage_site d l w = (Ok u, w') ->
  (forall p c, (p, c) ∈ l -> holds d (fs w') p = Some c) /\ (forall r, r ∉ l.*1 -> holds d (fs w') r = holds d (fs w) r).
Proof.
  revert w. induction l as [|[p c] l IH]; intros w Hnd; cbn [stage_site]; cbv zeta.
  - intros [_ <-]%ret_inv. split; [by intros p c ?%elem_of_nil|done].
  - rewrite fmap_cons in Hnd. apply NoDup_cons in Hnd as [Hp Hnd]. intros Hr. inv_ok.
    unfold mkdir_all in Hm. inv_ok. apply bind_inv in Hm as (f & w3 & [-> <-]%files_inv & [_ <-]%ret_inv).
    apply write_file_ok in Hm0 as (x & Hf & Hx). destruct (IH _ Hnd Hr) as [Hd Ho]. split.
    + intros q e [[= -> ->]|Hin]%elem_of_cons; [|by apply Hd]. rewrite Ho by done. unfold holds. rewrite Hf, lookup_insert_eq. cbn. by rewrite Hx.
    + intros r Hr'. rewrite fmap_cons, not_elem_of_cons in Hr'. destruct Hr' as [Hne Hr']. rewrite Ho by done.
      unfold holds. rewrite Hf, lookup_insert_ne; [by rewrite Hm1|]. intros E'. by apply append_inj, append_inj in E'.
Qed.

(** ** The exchange *)

Lemma same_off_nothing f g : same_off (fun _ => False) f g -> g = f.
Proof. intros Hf. apply map_eq. intros p. symmetry. apply Hf. by intros []. Qed.

Lemma move_spec op k w r w' : (try _ ← check op; f ← the_files; _ ← set_files (k f); mret (Ok tt)) w = (r, w') ->
  spans E (fun g => g = fs w') w w' /\ (r = Ok tt /\ fs w' = k (fs w) \/ (exists e, r = Err e) /\ fs w' = fs w).
Proof.
  intros Hr. apply try_inv in Hr as [(e & Hc & ->)|(a & w1 & Hc & Hr)].
  - split; [|right; split; [by eexists|by eapply check_fs]].
    eapply spans_mono; [done| |eapply (touches_spans (fun _ => False)); [by apply touches_check|exact Hc]].
    intros g Hg. rewrite (check_fs _ _ _ _ Hc). by apply same_off_nothing.
  - pose proof (check_fs _ _ _ _ Hc) as Hf. apply bind_inv in Hr as (f & w2 & [-> <-]%files_inv & Hr).
    apply bind_inv in Hr as (u & w3 & Hs & [<- <-]%ret_inv). pose proof (set_files_fs _ _ _ _ Hs) as Hf'.
    split; [|left; by rewrite Hf', Hf].
    assert (Hc' : exists l, history w w1 l /\ Forall (event_in E (fun _ => False)) l).
    { revert Hc. unfold check, perform, mbind, M_bind. destruct (react _ _ _) as [[b d] o]. intros [= _ <-].
      exists [Did (Fault op) b]. split; [done|]. repeat constructor. apply HE. }
    destruct Hc' as (l & Hl & HF). exists (Wrote (k (fs w1)) :: l). injection Hs as _ <-. split.
    + unfold history in *. cbn. by rewrite Hl.
    + constructor; [done|]. eapply Forall_impl; [exact HF|]. by intros [g|A e b].
Qed.

Lemma take_place_spec tmp dir w r w' : take_place tmp dir w = (r, w') ->
  spans E (fun g => g = fs w \/ g = fs w') w w' /\
  (r = Ok tt /\ fs w' = swap_dirs tmp dir (fs w) \/ (exists e, r = Err e) /\ fs w' = fs w).
Proof.
  intros (f & w1 & [-> <-]%files_inv & Hr)%bind_inv. apply bind_inv in Hr as (found & w1 & Hc & Hr).
  assert (Hs : spans E (fun g => g = fs w) w w1).
  { eapply spans_mono; [done| |eapply (touches_spans (fun _ => False)); [by apply touches_check|exact Hc]].
    intros g Hg. by apply same_off_nothing. }
  pose proof (check_fs _ _ _ _ Hc) as Hf. rewrite <- Hf in *.
  assert (Hcat : forall r' w', spans E (fun g => g = fs w') w1 w' /\ (r' = Ok tt /\ fs w' = swap_dirs tmp dir (fs w1) \/ (exists e, r' = Err e) /\ fs w' = fs w1) ->
    spans E (fun g => g = fs w1 \/ g = fs w') w w' /\ (r' = Ok tt /\ fs w' = swap_dirs tmp dir (fs w1) \/ (exists e, r' = Err e) /\ fs w' = fs w1)).
  { intros r' w2 [Hs' ?]. split; [|done]. eapply spans_trans; (eapply spans_mono; [done| |done]); auto. }
  destruct found as [[]|e].
  - apply bind_inv in Hr as (r1 & w2 & Hx & Hr). apply ret_inv in Hr as [Hr <-]. apply (move_spec (Exchange tmp dir) (swap_dirs tmp dir)), Hcat in Hx as [Hs' Hx].
    split; [done|]. destruct Hx as [[-> ?]|[[e ->] ?]]; [left; by subst|right; split; [|done]]. subst. by eexists.
  - destruct (_ && _); [by apply (move_spec (Rename tmp dir) (swap_dirs tmp dir)), Hcat in Hr|]. apply ret_inv in Hr as [<- <-].
    split; [|right; split; [by eexists|done]]. eapply spans_mono; [done| |exact Hs]. auto.
Qed.

Lemma region_apart a b r : apart a b -> ~ region a (b +:+ "/" +:+ r).
Proof.
  intros Hab [E'|E']; [|by apply (Hab _ E'), below_in]. eapply apart_below; [by apply apart_sym|]. rewrite <- E'. apply below_in.
Qed.

(** A step that stays out of a directory. *)
Lemma quiet (S : paths) A (m : M A) d w a w' : (forall r, ~ S (d +:+ "/" +:+ r)) -> touches S E m -> m w = (a, w') ->
  spans E (as_in d (fs w)) w w' /\ as_in d (fs w) (fs w') /\ same_off S (fs w) (fs w').
Proof.
  intros HS Hm Hw. pose proof (touches_fs _ _ _ _ _ _ _ Hm Hw) as Hf. split_and!; [|by eapply as_in_off|done].
  eapply spans_mono; [done| |by eapply touches_spans]. intros g. by apply as_in_off.
Qed.

Abbreviation dir := (siteDir cfg).
Abbreviation tmp := (swap_of (siteDir cfg)).

(** The new site is what was to be deployed; where that has nothing, only what
    was left over can be. *)
Definition deployed (new left_over : string -> option string) (f : files) : Prop :=
  forall r, r <> EmptyString -> holds dir f r = new r \/ new r = None /\ holds dir f r = left_over r.

(** From the exchange on. *)
Lemma swap_tail src w r w' : apart src dir ->
  (try _ ← take_place tmp dir; _ ← (if Str.has_suffix src ".new" then ignore (remove_all src) else mret tt : M unit); mret (Ok tt)) w = (r, w') ->
  spans E (fun g => as_in dir (fs w) g \/ r = Ok tt /\ as_in dir (fs w') g) w w' /\
  same_off (fun p => region dir p \/ region tmp p \/ region src p) (fs w) (fs w') /\
  match r with Err _ => as_in dir (fs w) (fs w') | Ok _ => forall q, holds dir (fs w') q = holds tmp (fs w) q end.
Proof.
  intros Hsd Hr. apply bind_inv in Hr as (x & w1 & Ht & Hr). apply take_place_spec in Ht as [Hs Hx].
  destruct Hx as [[-> Hf]|[[e ->] Hf]].
  - apply bind_inv in Hr as (u & w2 & Hq & [<- <-]%ret_inv).
    assert (Htq : touches (region src) E (if Str.has_suffix src ".new" then ignore (remove_all src) else mret tt : M unit)).
    { pose proof (touches_remove_all (region src)). destruct (Str.has_suffix _ _); touches. }
    destruct (quiet (region src) _ _ dir _ _ _ (fun r => region_apart _ _ r Hsd) Htq Hq) as (Hs2 & Ha & Ho).
    split_and!.
    + eapply spans_trans; [eapply spans_mono; [done| |exact Hs]|eapply spans_mono; [done| |exact Hs2]].
      * intros g [-> | ->]; [left; by intros q|right; split; [done|]]. intros q. symmetry. apply Ha.
      * intros g Hg. right. split; [done|]. intros q. by rewrite Hg, Ha.
    + eapply same_off_trans; [|eapply same_off_mono; [|exact Ho]; cbn; auto].
      intros p Hp. rewrite Hf, swap_lookup by apply apart_swap. f_equal. unfold swapped.
      destruct (below tmp p) eqn:E1; [exfalso; apply Hp; right; left; by right|].
      destruct (below dir p) eqn:E2; [exfalso; apply Hp; left; by right|done].
    + intros q. rewrite Ha. unfold holds. by rewrite Hf, swap_lookup, swapped_right by apply apart_swap.
  - apply ret_inv in Hr as [<- <-]. split_and!; [|by rewrite Hf|by rewrite Hf].
    eapply spans_mono; [done| |exact Hs]. intros g [-> | ->]; left; [by intros q|by rewrite Hf].
Qed.

Lemma swapSiteDir_spec src w r w' : apart src dir -> apart src tmp -> swapSiteDir cfg src w = (r, w') ->
  spans E (fun g => as_in dir (fs w) g \/ r = Ok tt /\ as_in dir (fs w') g) w w' /\
  same_off (fun p => region dir p \/ region tmp p \/ region src p) (fs w) (fs w') /\
  match r with Err _ => as_in dir (fs w) (fs w') | Ok _ => deployed (holds src (fs w)) (holds tmp (fs w)) (fs w') end.
Proof.
  intros Hsd Hst Hr. unfold swapSiteDir in Hr. cbv zeta in Hr.
  pose proof (fun r => region_apart _ _ r (apart_swap dir)) as Hout.
  assert (Hrm : touches (region tmp) E (ignore (remove_all tmp))) by (pose proof (touches_remove_all (region tmp)); touches).
  apply bind_inv in Hr as (u1 & w1 & H1 & Hr). apply bind_inv in Hr as (x & w3 & H3 & Hr).
  apply bind_inv in Hr as (u4 & w4 & H4 & [-> <-]%ret_inv).
  destruct (quiet _ _ _ dir _ _ _ Hout Hrm H1) as (S1 & A1 & O1). destruct (quiet _ _ _ dir _ _ _ Hout Hrm H4) as (S4 & A4 & O4).
  apply bind_inv in H3 as (c & w2 & H2 & H3).
  destruct (quiet (region tmp) _ _ dir _ _ _ Hout (touches_copyDir _ src tmp (fun p Hp => Hp)) H2) as (S2 & A2 & O2).
  assert (HO : forall a b, same_off (region tmp) a b -> same_off (fun p => region dir p \/ region tmp p \/ region src p) a b).
  { intros a b. apply same_off_mono. auto. }
  assert (A02 : as_in dir (fs w) (fs w2)) by by eapply as_in_trans.
  assert (S02 : spans E (as_in dir (fs w)) w w2).
  { eapply spans_trans; [exact S1|]. eapply spans_mono; [done| |exact S2]. intros g. by apply as_in_trans. }
  destruct c as [[]|e].
  - destruct (swap_tail src w2 r w3 Hsd H3) as (S3 & O3 & X3). split_and!.
    + eapply spans_trans; [eapply spans_mono; [done| |exact S02]; auto|].
      eapply spans_trans; [eapply spans_mono; [done| |exact S3]|eapply spans_mono; [done| |exact S4]].
      * intros g [Hg|[-> Hg]]; [left; by eapply as_in_trans|]. right. split; [done|]. intros q. by rewrite A4, Hg.
      * intros g Hg. destruct r as [[]|e]; [right; split; [done|]; intros q; by rewrite A4, Hg|].
        left. eapply as_in_trans; [exact A02|]. by eapply as_in_trans.
    + eapply same_off_trans; [by apply HO, O1|]. eapply same_off_trans; [by apply HO, O2|]. eapply same_off_trans; [exact O3|by apply HO].
    + destruct r as [[]|e]; [|eapply as_in_trans; [exact A02|]; by eapply as_in_trans].
      intros q Hq. rewrite A4, X3, (copyDir_ok _ _ _ _ _ Hst H2) by done.
      assert (as_in src (fs w) (fs w1)) as -> by (eapply as_in_off; [|exact O1]; intros x; by apply region_apart, apart_sym).
      destruct (holds src (fs w) q) as [d|]; [by left|]. apply bind_inv in H1 as (z & w5 & H1 & [_ <-]%ret_inv).
      unfold holds. destruct (remove_all_fs _ _ _ _ (tmp +:+ "/" +:+ q) H1) as [-> | ->]; [by right|by left].
  - apply ret_inv in H3 as [<- <-]. split_and!.
    + eapply spans_trans; [eapply spans_mono; [done| |exact S02]; auto|]. eapply spans_mono; [done| |exact S4].
      intros g Hg. left. by eapply as_in_trans.
    + eapply same_off_trans; [by apply HO, O1|]. eapply same_off_trans; by apply HO.
    + by eapply as_in_trans.
Qed.

(** ** Deploying a bundle *)

(** The staging directory after it was emptied and filled. *)
Lemma staged (files : bundle) d w u w1 c w2 p :
  ignore (remove_all d) w = (u, w1) -> stage_site d (range_order (map_to_list files)) w1 = (Ok c, w2) ->
  holds d (fs w2) p = files !! p \/ files !! p = None /\ holds d (fs w2) p = holds d (fs w) p.
Proof.
  intros H1 H2. pose proof (range_order_perm _ (map_to_list files)) as HP.
  assert (Hnd : NoDup (range_order (map_to_list files)).*1) by (rewrite HP; apply NoDup_fst_map_to_list).
  destruct (stage_site_ok _ _ _ _ _ Hnd H2) as [Hd Ho]. destruct (files !! p) as [x|] eqn:Ep.
  - left. apply Hd. rewrite HP. by apply elem_of_map_to_list.
  - rewrite Ho.
    + apply bind_inv in H1 as (z & w5 & H1 & [_ <-]%ret_inv). unfold holds.
      destruct (remove_all_fs _ _ _ _ (d +:+ "/" +:+ p) H1) as [-> | ->]; [by right|by left].
    + rewrite HP. intros ([q y] & -> & Hq%elem_of_map_to_list)%list_elem_of_fmap. cbn in Ep. congruence.
Qed.

(** Everything a deployment does to the website directory. *)
Lemma writeSiteDir_spec files w r w' : writeSiteDir cfg files w = (r, w') ->
  spans E (fun g => as_in dir (fs w) g \/ r = Ok tt /\ as_in dir (fs w') g) w w' /\
  same_off (fun p => region dir p \/ region tmp p \/ region (new_of dir) p) (fs w) (fs w') /\
  match r with
  | Err _ => as_in dir (fs w) (fs w')
  | Ok _ => forall p, p <> EmptyString -> holds dir (fs w') p = files !! p \/
              files !! p = None /\ (holds dir (fs w') p = holds (new_of dir) (fs w) p \/ holds dir (fs w') p = holds tmp (fs w) p)
  end.
Proof.
  intros Hr. unfold writeSiteDir in Hr. cbv zeta in Hr.
  apply bind_inv in Hr as (u1 & w1 & H1 & Hr). apply bind_inv in Hr as (c & w2 & H2 & Hr).
  assert (Hrm : touches (region (new_of dir)) E (ignore (remove_all (new_of dir)))) by (pose proof (touches_remove_all (region (new_of dir))); touches).
  pose proof (fun q => region_apart _ _ q (apart_new dir)) as Hout.
  destruct (quiet _ _ _ dir _ _ _ Hout Hrm H1) as (S1 & A1 & O1).
  destruct (quiet _ _ _ dir _ _ _ Hout (touches_stage_site _ _ _ (fun p Hp => Hp)) H2) as (S2 & A2 & O2).
  assert (A02 : as_in dir (fs w) (fs w2)) by by eapply as_in_trans.
  assert (S02 : spans E (as_in dir (fs w)) w w2).
  { eapply spans_trans; [exact S1|]. eapply spans_mono; [done| |exact S2]. intros g. by apply as_in_trans. }
  assert (O02 : same_off (fun p => region dir p \/ region tmp p \/ region (new_of dir) p) (fs w) (fs w2)).
  { eapply (same_off_mono (region (new_of dir))); [auto|]. by eapply same_off_trans. }
  destruct c as [[]|e].
  - destruct (swapSiteDir_spec _ _ _ _ (apart_new dir) (apart_new_swap dir) Hr) as (S3 & O3 & X3). split_and!.
    + eapply spans_trans; [eapply spans_mono; [done| |exact S02]; auto|]. eapply spans_mono; [done| |exact S3].
      intros g [Hg|Hg]; [left; by eapply as_in_trans|by right].
    + by eapply same_off_trans.
    + destruct r as [[]|e]; [|by eapply as_in_trans]. intros p Hp.
      assert (Hnew : holds (new_of dir) (fs w2) p = files !! p \/ files !! p = None /\ holds (new_of dir) (fs w2) p = holds (new_of dir) (fs w) p).
      { by eapply staged. }
      assert (Htmp : holds tmp (fs w2) p = holds tmp (fs w) p).
      { eapply (as_in_off (region (new_of dir))); [intros x; apply region_apart, apart_new_swap|by eapply same_off_trans]. }
      destruct (X3 p Hp) as [-> |[Hn ->]].
      * destruct Hnew as [-> |[? ->]]; [by left|right; split; [done|by left]].
      * rewrite Hn in Hnew. rewrite Htmp. destruct Hnew as [Hnew|[? _]]; right; (split; [done|by right]).
  - apply ret_inv in Hr as [<- <-]. split_and!; [|done|done]. eapply spans_mono; [done| |exact S02]. auto.
Qed.

(** C11: writeSiteDir: at every instant the website directory holds the old site
    or the new one, whole, whatever call fails and wherever the agent dies. A
    failed deployment leaves the old site; a successful one leaves exactly the
    bundle, but for files an earlier attempt left next to the site that could
    not be removed. Nothing outside the site, its staging and its swap
    directory is touched. *)
Theorem deployment_atomic files w r w' : writeSiteDir cfg files w = (r, w') ->
  spans E (fun g => as_in dir (fs w) g \/ r = Ok tt /\ as_in dir (fs w') g) w w' /\
  same_off (fun p => region dir p \/ region tmp p \/ region (new_of dir) p) (fs w) (fs w') /\
  match r with
  | Err _ => as_in dir (fs w) (fs w')
  | Ok _ => forall p, p <> EmptyString -> holds dir (fs w') p = files !! p \/
              files !! p = None /\ (holds dir (fs w') p = holds (new_of dir) (fs w) p \/ holds dir (fs w') p = holds tmp (fs w) p)
  end.
Proof. apply writeSiteDir_spec. Qed.

End Safety.

(** ** A node that deploys a site

    A disk that works until a given number of system calls were made, and
    deployments on it: one that succeeds and one that fails while the new
    files are copied.  The witness of [SiteSafety.deployment_atomic]. *)

Local Open Scope go_scope.

Module SiteSim.

(** A disk: the calls left before it gives out. A directory is there when
    something is in it. *)
Definition disk_fault (op : sysop) (f : files) (left_ : nat) : option error * nat :=
  match left_ with
  | O => (Some "input/output error"%string, O)
  | S n =>
      (match op with
       | Stat p => if existsb (fun q => String.eqb q p || below p q) (fst <$> map_to_list f) then None
                   else Some (errNotExist "lstat" p)
       | _ => None
       end, n)
  end.

Definition disk_react (A : Type) (e : effect A) (f : files) (o : nat) : A * Z * nat :=
  match e in effect A return A * Z * nat with
  | Fault op => let '(r, o) := disk_fault op f o in (r, 0, o)
  | ShortWrite _ => (O, 0, o)
  | Random => (258, 0, o)
  | NewUUID => ("id", 0, o)
  | Select => (false, 0, o)
  | Exec _ => ((EmptyString, None), 0, o)
  | Get _ => (Err "unreachable"%string, 0, o)
  | Decoy => (None, 0, o)
  | Fetch _ _ => (Err "unreachable"%string, 0, o)
  | Rewritten _ => (None, 0, o)
  | Dial _ _ => (None, 0, o)
  | Control _ => (inr (Transport "unreachable"), 0, o)
  end.

#[export] Instance disk : Outside := {| outside := nat; umask := 18; self := (0, 0); react := disk_react |}.
#[local] Instance order : MapOrder := written_order.

Definition cfg : Config :=
  {| StateDir := "/var/lib/node-agent"; TelemtConfigPath := "/etc/telemt/telemt.toml"; TelemtBin := "/opt/telemt/telemt";
     HealthWait := 60000000000; cfg_Engine := "telemt"; updatePoll := 1000000000; TelemtSiteDir := "/var/www/site";
     RelaySiteDir := "/var/www/relay"; ReloadWait := 0; ProfilesPath := "/etc/relay/profiles.json";
     MTProxyEnvPath := "/etc/relay/mtproxy.env"; TProxyBin := "/opt/relay/tproxy"; ConfigPath := "/etc/node-agent.json";
     RelayAdminURL := "http://127.0.0.1:9100" |}.

Definition file (c : string) : File := {| fdata := c; fmode := 420; fowner := (0, 0) |}.

Definition before (calls : nat) : world :=
  {| now := 0; fs := {[ "/var/www/site/index.html"%string := file "old"; "/var/www/site/old.css"%string := file "a {}";
                        "/etc/hosts"%string := file "localhost" ]};
     events := []; out := calls; instance := EmptyString; upd := None; maintenance := true |}.

Definition new_site : bundle := {[ "index.html"%string := "new"%string; "css/main.css"%string := "b {}"%string ]}.

Definition deploy (calls : nat) : result unit * world := writeSiteDir cfg new_site (before calls).

(** The new site replaced the old one, and nothing else is left. *)
Example deploy_works :
  (deploy 100).1 = Ok tt /\
  (fun f => fdata <$> f) (fs (deploy 100).2) =
    {[ "/var/www/site/index.html"%string := "new"%string; "/var/www/site/css/main.css"%string := "b {}"%string;
       "/etc/hosts"%string := "localhost"%string ]}.
Proof. split; vm_compute; reflexivity. Qed.

(** The disk fails in the middle of the copy. *)
Example deploy_fails :
  (deploy 26).1 = Err "input/output error" /\
  holds "/var/www/site" (fs (deploy 26).2) "index.html" = Some "old"%string /\
  holds "/var/www/site.swap" (fs (deploy 26).2) "css/main.css" = Some "b {}"%string.
Proof. split_and!; vm_compute; reflexivity. Qed.

Lemma site_run_eq {A} (m : M A) w : m w = ((m w).1, (m w).2).
Proof. by destruct (m w). Qed.

Lemma deployment_atomic_witness :
  (deploy 100).1 = Ok tt /\
  spans anything (fun g => as_in (siteDir cfg) (fs (before 100)) g \/
    (deploy 100).1 = Ok tt /\ as_in (siteDir cfg) (fs (deploy 100).2) g) (before 100) (deploy 100).2 /\
  (deploy 26).1 = Err "input/output error" /\ as_in (siteDir cfg) (fs (before 26)) (fs (deploy 26).2).
Proof.
  assert (H1 : (deploy 100).1 = Ok tt) by by vm_compute. assert (H2 : (deploy 26).1 = Err "input/output error") by by vm_compute.
  destruct (deployment_atomic cfg anything system_anything new_site _ _ _ (site_run_eq _ (before 100))) as (S1 & _ & _).
  destruct (deployment_atomic cfg anything system_anything new_site _ _ _ (site_run_eq _ (before 26))) as (_ & _ & R2).
  change (writeSiteDir cfg new_site (before 26)) with (deploy 26) in R2. rewrite H2 in R2. split_and!; [exact H1|exact S1|exact H2|exact R2].
Defined.

End SiteSim.
