(* ===== verification/RelayApply.v ===== *)
(** * Applying a desired state on a relay node

    internal/agent/apply.go with the engine "tproxy": the profiles file and
    the environment file of mtproxy are rendered, checked by the relay, kept
    as a backup, written, and the services restarted; when a step fails the
    backup is restored.

    The answer comes with the error that ended the apply; its log is left
    out.  [chown] by owner name is a command the agent runs: the owner it
    gives a file is not recorded in the files of the model. *)

From S2P Require Import Prelude TelemtTypes Json Node NodeLogic AgentFiles UpdateState UpdateJournal Convert Upstream AgentProto TelemtConfig Users SiteFiles.

Local Open Scope go_scope.

(** ** profiles.json *)

Definition limits_entries (l : Pb.ProfileLimits) : list (string * Z) := [
  ("max_sessions", Pb.MaxSessions l); ("max_streams", Pb.MaxStreams l);
  ("max_backend_dials_in_flight", Pb.MaxBackendDialsInFlight l);
  ("new_sessions_per_minute", Pb.NewSessionsPerMinute l); ("new_sessions_burst", Pb.NewSessionsBurst l);
  ("new_streams_per_minute", Pb.NewStreamsPerMinute l); ("new_streams_burst", Pb.NewStreamsBurst l);
  ("max_streams_per_session", Pb.MaxStreamsPerSession l); ("max_pending_per_session", Pb.MaxPendingPerSession l)]%string.

Definition limitsJSON (l : option Pb.ProfileLimits) : option json :=
  match l with
  | None => None
  | Some l =>
      let m : gmap string Z := list_to_map (filter (fun e => 0 < e.2) (limits_entries l)) in
      if bool_decide (m = ∅) then None else Some (map_json jint m)
  end.

(** A member left out when it is empty. *)
Definition omitempty (k : string) (v : option json) : object :=
  match v with Some v => [(k, v)] | None => [] end.

Definition profileJSON (p : Pb.Profile) : json :=
  let backend := if String.eqb (Pb.Backend p) EmptyString then "127.0.0.1:2398"%string else Pb.Backend p in
  JObject ([("name", JString (Pb.Name p)); ("secret", JString (Pb.Secret p)); ("backend", JString backend)]%string ++
           omitempty "carrier_mode" (if String.eqb (Pb.CarrierMode p) EmptyString then None else Some (JString (Pb.CarrierMode p))) ++
           omitempty "limits" (limitsJSON (Pb.Limits p))).

Definition newline : ascii := ascii_of_nat 10.
Definition lf : string := String newline EmptyString.

Definition RenderProfilesJSON (ps : list Pb.Profile) : result string :=
  match ps with
  | [] => Err "at least one profile is required"
  | _ => Ok (Json.marshal (JObject [("profiles"%string, JArray (map profileJSON ps))]) +:+ lf)
  end.

(** ** mtproxy.env *)

Definition lines (s : string) : list string := Str.split newline s.

(** The value of the first line that sets [key], of those [ok] accepts. *)
Fixpoint setting (key : string) (ok : string -> bool) (l : list string) : option string :=
  match l with
  | [] => None
  | line :: l =>
      match Str.cut_prefix (Str.trim_space line) key with
      | Some v => if ok v then Some v else setting key ok l
      | None => setting key ok l
      end
  end.

Definition existingMTProxySecrets (env : string) : list string :=
  match setting "MTPROXY_SECRETS=" (fun _ => true) (lines env) with
  | Some v => filter (fun tok => tok <> "-S"%string) (Str.fields v)
  | None =>
      match setting "MTPROXY_SECRET=" (fun v => negb (String.eqb v EmptyString)) (lines env) with
      | Some v => [v]
      | None => []
      end
  end.

(** A line the rendering keeps. *)
Definition kept_line (line : string) : bool :=
  let t := Str.trim_space line in
  negb (String.eqb t EmptyString || Str.has_prefix t "MTPROXY_SECRET=" || Str.has_prefix t "MTPROXY_SECRETS=").

Definition kept_lines (existing : string) : list string := filter (fun line => kept_line line = true) (lines existing).

(** Lines, each ended by a newline. *)
Definition text_of (l : list string) : string := foldr (fun line t => line +:+ lf +:+ t) EmptyString l.

Definition with_default (t key line : string) : string := if Str.contains t key then t else t +:+ line +:+ lf.

Definition RenderMTProxyEnv (existing : string) (secrets : list string) : string :=
  let buf := text_of (kept_lines existing) in
  let buf := with_default buf "MTPROXY_WORKERS=" "MTPROXY_WORKERS=1" in
  let buf := with_default buf "MTPROXY_MAX_CONNECTIONS=" "MTPROXY_MAX_CONNECTIONS=4096" in
  buf +:+ "MTPROXY_SECRET=" +:+ default EmptyString (head secrets) +:+ lf +:+
  "MTPROXY_SECRETS=" +:+ Str.join " " (map (fun s => "-S " +:+ s) secrets) +:+ lf.

Section Apply.
Context `{Outside} `{O : MapOrder}.
Context (cfg : Config).

(** ** What is to change *)

Record relay_plan := {
  newProfiles : string; newEnv : string; profilesChanged : bool; envChanged : bool;
  newSite : bundle; siteChanged : bool
}.

Definition candidate : string := Path.Join (StateDir cfg) "candidate-profiles.json".

(** The content of a file, empty when it cannot be read. *)
Definition or_empty (p : string) : M string := r ← must_read p; mret (match r with Ok d => d | Err _ => EmptyString end).

(** The relay's own check of the rendered profiles. *)
Definition relay_check (profiles : string) : M (result unit) :=
  try _ ← writeAtomic candidate profiles 384;
  run ← perform (Exec [TProxyBin cfg; "-config"; ConfigPath cfg; "-profiles-file"; candidate; "-check"]%string);
  _ ← ignore (remove candidate);
  mret (match run with
        | (out, Some _) => Err ("relay -check rejected profiles: " +:+ Str.trim_space out)
        | (_, None) => Ok tt
        end).

Definition profiles_plan (req : Pb.ApplyRequest) : M (result (string * string * bool * bool)) :=
  if Pb.ApplyProfiles req then
    match RenderProfilesJSON (Pb.Profiles req) with
    | Err e => mret (Err e)
    | Ok profiles =>
        oldProfiles ← or_empty (ProfilesPath cfg);
        let changed := negb (String.eqb (Str.trim_right_byte oldProfiles newline) (Str.trim_right_byte profiles newline)) in
        oldEnv ← or_empty (MTProxyEnvPath cfg);
        let env := RenderMTProxyEnv oldEnv (Pb.MtproxySecrets req) in
        let canonicalOldEnv := RenderMTProxyEnv oldEnv (existingMTProxySecrets oldEnv) in
        let env_changed := negb (String.eqb canonicalOldEnv env) in
        try _ ← ((if changed then relay_check profiles else mret (Ok tt)) : M (result unit));
        mret (Ok (profiles, env, changed, env_changed))
    end
  else mret (Ok (EmptyString, EmptyString, false, false)).

Fixpoint site_files (l : Pb.SiteBundle) (out : bundle) : result bundle :=
  match l with
  | [] => Ok out
  | (path, content) :: l =>
      match safeSitePath path with
      | Err e => Err e
      | Ok p => site_files l (<[p := content]> out)
      end
  end.

Definition site_plan (req : Pb.ApplyRequest) : M (result (bundle * bool)) :=
  match Pb.Site req with
  | None => mret (Ok (∅, false))
  | Some l =>
      match site_files l ∅ with
      | Err e => mret (Err e)
      | Ok files =>
          if bool_decide (is_Some (files !! "index.html"%string)) then
            same ← siteEquals cfg files;
            mret (Ok (files, negb same))
          else mret (Err "site bundle must contain index.html")
      end
  end.

Definition the_plan (req : Pb.ApplyRequest) : M (result relay_plan) :=
  try p ← profiles_plan req;
  try s ← site_plan req;
  let '(profiles, env, changed, env_changed) := p in
  mret (Ok {| newProfiles := profiles; newEnv := env; profilesChanged := changed; envChanged := env_changed;
              newSite := s.1; siteChanged := s.2 |}).

(** ** The backup *)

Definition backup_of (dir p : string) : string := Path.Join dir (Path.Base p).

Definition backup_error (e : error) : error := "backup: " +:+ e.

Definition keep_file (dir p : string) : M (result unit) :=
  try data ← wrapped backup_error (read_file p);
  match data with
  | None => mret (Ok tt)
  | Some data => wrapped backup_error (write_file (backup_of dir p) data 384)
  end.

Definition keep_backup (dir : string) (site : bool) : M (result unit) :=
  try _ ← keep_file dir (ProfilesPath cfg);
  try _ ← keep_file dir (MTProxyEnvPath cfg);
  if site then wrapped backup_error (copyDir (siteDir cfg) (Path.Join dir "site")) else mret (Ok tt).

(** ** Writing, restarting, waiting *)

Definition chownLogged (path owner : string) : M unit := ignore (perform (Exec ["chown"%string; owner; path])).

Definition write_owned (path data : string) (mode : Z) (owner : string) : M (result unit) :=
  try _ ← writeAtomic path data mode;
  _ ← chownLogged path owner;
  mret (Ok tt).

Definition write_profiles (data : string) : M (result unit) := write_owned (ProfilesPath cfg) data 256 "root:tproxy".
Definition write_env (data : string) : M (result unit) := write_owned (MTProxyEnvPath cfg) data 416 "root:mtproxy".

Definition restart (unit_ : string) : M (result unit) :=
  run ← perform (Exec ["systemctl"%string; "restart"%string; unit_]);
  mret (match run with
        | (out, Some _) => Err ("restart " +:+ unit_ +:+ ": " +:+ Str.trim_space out)
        | (_, None) => Ok tt
        end).

Definition probe (ctx : context) (path : string) : M bool :=
  t ← clock;
  if expired ctx t then mret false
  else
    resp ← perform (Get (RelayAdminURL cfg +:+ path));
    t' ← clock;
    mret (negb (expired ctx t') && match resp with Ok r => resp_status r =? 200 | Err _ => false end).

Definition healthy_once (ctx : context) (deadline : Z) : M (option (result unit)) :=
  alive ← probe ctx "/healthz";
  ready ← ((if (alive : bool) then probe ctx "/readyz" else mret false) : M bool);
  if (ready : bool) then mret (Some (Ok tt))
  else
    t ← clock;
    mret (if deadline <? t then Some (Err "relay did not become healthy in time") else None).

Definition waitHealthy (ctx : context) : M (result unit) :=
  t ← clock;
  poll (ready_fuel cfg) ctx readyPoll (healthy_once ctx (t + HealthWait cfg)) (fun e => mret (Err e)).

(** ** Rolling back *)

Definition succeeded {A} (r : result A) : bool := match r with Ok _ => true | Err _ => false end.

(** Put a file of the backup back, if it has it. *)
Definition restore_file (dir p : string) (put : string -> M (result unit)) : M bool :=
  data ← read_file (backup_of dir p);
  match data with
  | Ok (Some data) => r ← put data; mret (succeeded r)
  | Ok None => mret true
  | Err _ => mret false
  end.

Definition ok_when (b : bool) (m : M (result unit)) : M bool :=
  if b then (r ← m; mret (succeeded r)) else mret true.

(** Whether every step of the restore succeeded. *)
Definition relay_rollback (dir : string) (env site : bool) : M bool :=
  t ← clock;
  let ctx := with_timeout None rollbackTimeout t in
  profiles_back ← restore_file dir (ProfilesPath cfg) write_profiles;
  env_back ← restore_file dir (MTProxyEnvPath cfg) write_env;
  site_back ← ok_when site (swapSiteDir cfg (Path.Join dir "site"));
  mtproxy ← ok_when env (restart "mtproxy");
  relay ← restart "tproxy-server";
  healthy ← waitHealthy ctx;
  mret (profiles_back && env_back && site_back && mtproxy && succeeded relay && succeeded healthy).

(** ** The apply *)

(** [if changed { ... }] *)
Definition when (b : bool) (m : M (result unit)) : M (result unit) := if b then m else mret (Ok tt).

Definition write_changes (p : relay_plan) : M (result unit) :=
  try _ ← when (profilesChanged p) (write_profiles (newProfiles p));
  try _ ← when (envChanged p) (write_env (newEnv p));
  when (siteChanged p) (writeSiteDir cfg (newSite p)).

(** Which services were restarted, and the error that ended it. *)
Definition carry_out (ctx : context) (p : relay_plan) : M (bool * bool * option error) :=
  wrote ← write_changes p;
  match wrote with
  | Err e => mret (false, false, Some e)
  | Ok _ =>
      mtproxy ← when (envChanged p) (restart "mtproxy");
      match mtproxy with
      | Err e => mret (false, false, Some e)
      | Ok _ =>
          relay ← restart "tproxy-server";
          match relay with
          | Err e => mret (false, envChanged p, Some e)
          | Ok _ =>
              healthy ← waitHealthy ctx;
              mret (true, envChanged p, match healthy with Err e => Some e | Ok _ => None end)
          end
      end
  end.

Definition apply_result (ok relay mtproxy rolled_back : bool) : Pb.ApplyResult :=
  {| Pb.Ok_ := ok; Pb.RestartedRelay := relay; Pb.RestartedMtproxy := mtproxy; Pb.RolledBack := rolled_back;
     Pb.DeferredFields := []; Pb.RestartRequired := false; Pb.AppliedWebBasePath := None |}.

Definition refused (e : error) : Pb.ApplyResult * option error := (apply_result false false false false, Some e).

Definition relayApply (ctx : context) (req : Pb.ApplyRequest) : M (Pb.ApplyResult * option error) :=
  dir ← backup_dir cfg;
  made ← mkdir_all dir;
  match made with
  | Err e => mret (refused e)
  | Ok _ =>
      plan ← the_plan req;
      match plan with
      | Err e => mret (refused e)
      | Ok p =>
          if negb (profilesChanged p) && negb (envChanged p) && negb (siteChanged p)
          then mret (apply_result true false false false, None)
          else
            kept ← keep_backup dir (siteChanged p);
            match kept with
            | Err e => mret (refused e)
            | Ok _ =>
                done ← carry_out ctx p;
                let '(relay, mtproxy, err) := done in
                match err with
                | Some e =>
                    restored ← relay_rollback dir (envChanged p) (siteChanged p);
                    mret (apply_result false relay mtproxy restored, Some e)
                | None =>
                    _ ← ignore (pruneBackups cfg keptBackups);
                    mret (apply_result true relay mtproxy false, None)
                end
            end
      end
  end.

End Apply.
