(* ===== verification/RelayEnv.v ===== *)
(** * The environment file of mtproxy

    Rendering mtproxy.env ([RelayApply.RenderMTProxyEnv]) keeps the lines that
    hold no secret, is unchanged by an earlier rendering, and gives back the
    secrets it was given when it is read. *)

From S2P Require Import Prelude TelemtTypes Node RelayApply.

Local Open Scope go_scope.

(** ** Lines and fields of a text *)

Definition has_newline (s : string) : bool := Str.contains_byte s newline.

Lemma contains_byte_cons c s b : Str.contains_byte (String c s) b = Ascii.eqb c b || Str.contains_byte s b.
Proof. unfold Str.contains_byte. cbn. destruct (Ascii.eqb c b); [done|]. by destruct (Str.index_byte s b). Qed.

Lemma contains_byte_app a t b : Str.contains_byte (a +:+ t) b = Str.contains_byte a b || Str.contains_byte t b.
Proof. induction a as [|c a IH]; [done|]. rewrite Str.append_cons, !contains_byte_cons, IH. by destruct (Ascii.eqb c b). Qed.

(** The pieces of a split have no separator in them. *)
Lemma split_pieces sep s : Forall (fun w => Str.contains_byte w sep = false) (Str.split sep s).
Proof.
  induction s as [|c s IH]; [by repeat constructor|]. cbn. destruct (Ascii.eqb c sep) eqn:E; [by constructor|].
  destruct (Str.split sep s) as [|w ws]; [by repeat constructor; rewrite contains_byte_cons, E|].
  apply Forall_cons in IH as [Hw Hws]. constructor; [|done]. by rewrite contains_byte_cons, E.
Qed.

Lemma lines_cons line t : has_newline line = false -> lines (line +:+ lf +:+ t) = line :: lines t.
Proof.
  unfold has_newline, lines. induction line as [|c line IH]; intros Hl; [done|].
  rewrite contains_byte_cons in Hl. apply orb_false_iff in Hl as [Hc Hl].
  rewrite Str.append_cons. cbn [Str.split]. by rewrite Hc, IH.
Qed.

Lemma lines_text l t : Forall (fun line => has_newline line = false) l -> lines (text_of l +:+ t) = l ++ lines t.
Proof.
  induction l as [|line l IH]; intros Hl; [done|]. apply Forall_cons in Hl as [H1 Hl].
  change (text_of (line :: l)) with (line +:+ lf +:+ text_of l). by rewrite !Str.append_assoc, lines_cons, IH.
Qed.

Lemma text_app l k : text_of (l ++ k) = text_of l +:+ text_of k.
Proof. induction l as [|a l IH]; [done|]. cbn [text_of app foldr]. fold text_of. change (foldr _ _ (l ++ k)) with (text_of (l ++ k)). by rewrite IH, !Str.append_assoc. Qed.

(** ** What the rendering is, line by line *)

Definition plain_line (line : string) : Prop := has_newline line = false /\ kept_line line = true.

Lemma kept_plain e : Forall plain_line (kept_lines e).
Proof.
  unfold kept_lines, lines. rewrite Forall_forall. intros x [Hk Hx]%list_elem_of_filter. split; [|done].
  pose proof (split_pieces newline e) as HF. rewrite Forall_forall in HF. by apply HF.
Qed.

(** The lines of the settings the file must have. *)
Definition defaults (t : string) : list string :=
  let w := if Str.contains t "MTPROXY_WORKERS=" then [] else ["MTPROXY_WORKERS=1"%string] in
  w ++ (if Str.contains (t +:+ text_of w) "MTPROXY_MAX_CONNECTIONS=" then [] else ["MTPROXY_MAX_CONNECTIONS=4096"%string]).

Lemma defaults_plain t : Forall plain_line (defaults t).
Proof. unfold defaults. destruct (Str.contains t _); cbv zeta; destruct (Str.contains (_ +:+ _) _); repeat constructor. Qed.

Definition flags (secrets : list string) : string := Str.join " " (map (fun s => "-S " +:+ s) secrets).

Definition secret_lines (secrets : list string) : list string :=
  ["MTPROXY_SECRET=" +:+ default EmptyString (head secrets); "MTPROXY_SECRETS=" +:+ flags secrets]%string.

Definition rendered (e : string) : list string := kept_lines e ++ defaults (text_of (kept_lines e)).

Lemma with_default_text l key line :
  with_default (text_of l) key line = text_of (l ++ if Str.contains (text_of l) key then [] else [line]).
Proof.
  unfold with_default. destruct (Str.contains (text_of l) key); [by rewrite app_nil_r|].
  by rewrite text_app.
Qed.

Lemma render_lines e secrets : RenderMTProxyEnv e secrets = text_of (rendered e ++ secret_lines secrets).
Proof.
  unfold RenderMTProxyEnv, rendered, defaults. cbv zeta. rewrite !with_default_text, !text_app, !Str.append_assoc.
  do 3 f_equal.
Qed.

(** ** Containment *)

Lemma has_prefix_app s t k : Str.has_prefix s k = true -> Str.has_prefix (s +:+ t) k = true.
Proof. rewrite !Str.has_prefix_spec. intros [r ->]. exists (r +:+ t). by rewrite Str.append_assoc. Qed.

Lemma contains_left s t k : Str.contains s k = true -> Str.contains (s +:+ t) k = true.
Proof.
  induction s as [|c s IH]; intros Hk.
  - cbn [Str.contains] in Hk. rewrite orb_false_r in Hk. apply (has_prefix_app _ t) in Hk. rewrite Str.append_nil_l in *.
    destruct t; cbn [Str.contains]; by rewrite Hk.
  - rewrite Str.append_cons. cbn [Str.contains] in *. apply orb_true_iff in Hk as [Hk|Hk]; apply orb_true_iff.
    + left. rewrite <- Str.append_cons. by apply has_prefix_app.
    + right. auto.
Qed.

Lemma contains_right s t k : Str.contains t k = true -> Str.contains (s +:+ t) k = true.
Proof. intros Hk. induction s as [|c s IH]; [done|]. rewrite Str.append_cons. cbn [Str.contains]. apply orb_true_iff. by right. Qed.

Lemma defaults_there t : defaults (t +:+ text_of (defaults t)) = [].
Proof.
  set (w := if Str.contains t "MTPROXY_WORKERS=" then [] else ["MTPROXY_WORKERS=1"%string]).
  set (m := if Str.contains (t +:+ text_of w) "MTPROXY_MAX_CONNECTIONS=" then [] else ["MTPROXY_MAX_CONNECTIONS=4096"%string]).
  change (defaults t) with (w ++ m). unfold defaults. cbv zeta. rewrite text_app, <- Str.append_assoc.
  assert (Hw : Str.contains (t +:+ text_of w) "MTPROXY_WORKERS=" = true).
  { unfold w. destruct (Str.contains t _) eqn:E; [by apply contains_left|]. by apply contains_right. }
  rewrite (contains_left _ (text_of m) _ Hw). cbn [app]. rewrite Str.append_nil_r.
  assert (Str.contains ((t +:+ text_of w) +:+ text_of m) "MTPROXY_MAX_CONNECTIONS=" = true) as ->; [|done].
  unfold m. destruct (Str.contains (t +:+ text_of w) _) eqn:E; [by apply contains_left|]. by apply contains_right.
Qed.

(** ** Trimming and fields *)

Lemma trim_right_solid a c b : Str.is_space c = false ->
  Str.trim_right (a +:+ String c b) = a +:+ String c (Str.trim_right b).
Proof.
  intros Hc. induction a as [|x a IH].
  - rewrite !Str.append_nil_l. cbn [Str.trim_right]. rewrite Hc. by destruct (Str.trim_right b).
  - rewrite !Str.append_cons. cbn [Str.trim_right]. rewrite IH. by destruct a.
Qed.

Lemma fields_blank s w : Str.trim_right s = EmptyString -> Str.fields_aux s w = Str.fields_aux EmptyString w.
Proof.
  revert w. induction s as [|c s IH]; intros w; [done|]. cbn [Str.trim_right]. destruct (Str.trim_right s) eqn:E; [|done].
  destruct (Str.is_space c) eqn:Hc; [|done]. intros _. cbn [Str.fields_aux]. rewrite Hc. destruct w; by rewrite !IH.
Qed.

Lemma fields_trim s w : Str.fields_aux (Str.trim_right s) w = Str.fields_aux s w.
Proof.
  revert w. induction s as [|c s IH]; intros w; [done|]. destruct (Str.trim_right s) as [|d t] eqn:E.
  - cbn [Str.trim_right]. rewrite E. destruct (Str.is_space c) eqn:Hc; cbn [Str.fields_aux]; rewrite Hc.
    + destruct w; by rewrite (fields_blank s _ E).
    + by rewrite (fields_blank s _ E).
  - cbn [Str.trim_right]. rewrite E. cbn [Str.fields_aux] in *. destruct (Str.is_space c); [destruct w|]; by rewrite <- IH.
Qed.

Definition no_space (s : string) : Prop := forallb (fun c => negb (Str.is_space c)) (Str.bytes s) = true.

Lemma fields_word s w t : no_space s -> Str.fields_aux (s +:+ t) w = Str.fields_aux t (w +:+ s).
Proof.
  revert w. induction s as [|c s IH]; intros w Hs; [by rewrite Str.append_nil_r|].
  unfold no_space in Hs. cbn in Hs. apply andb_true_iff in Hs as [Hc Hs]. apply negb_true_iff in Hc.
  rewrite Str.append_cons. cbn [Str.fields_aux]. rewrite Hc, IH by done. by rewrite Str.append_assoc.
Qed.

(** A secret that can stand in the list of flags. *)
Definition token (s : string) : Prop := s <> EmptyString /\ s <> "-S"%string /\ no_space s.

Lemma fields_flag s t : token s ->
  Str.fields_aux ("-S " +:+ s +:+ t) EmptyString = "-S"%string :: Str.fields_aux t s.
Proof.
  intros (_ & _ & Hs). change ("-S " +:+ s +:+ t) with ("-S" +:+ String " " (s +:+ t)). rewrite fields_word by done.
  change (Str.fields_aux (String " " (s +:+ t)) (EmptyString +:+ "-S")) with ("-S"%string :: Str.fields_aux (s +:+ t) EmptyString).
  by rewrite fields_word.
Qed.

Lemma fields_flags secrets : Forall token secrets ->
  Str.fields (flags secrets) = flat_map (fun s => ["-S"%string; s]) secrets.
Proof.
  unfold Str.fields, flags. induction secrets as [|s l IH]; intros Hl; [done|]. apply Forall_cons in Hl as [Hs Hl].
  destruct l as [|s' l].
  - cbn [map Str.join flat_map app]. rewrite <- (Str.append_nil_r s) at 1. rewrite fields_flag by done. destruct Hs as (Hs & _ & _). by destruct s.
  - specialize (IH Hl). change (Str.join " " (map (fun s => "-S " +:+ s) (s :: s' :: l))) with
      (("-S " +:+ s) +:+ " " +:+ Str.join " " (map (fun s => "-S " +:+ s) (s' :: l))).
    rewrite Str.append_assoc, fields_flag by done. cbn [flat_map app] in *. rewrite <- IH. destruct Hs as (Hs & _ & _). by destruct s.
Qed.

(** ** Reading the secrets back *)

Definition sets (key line : string) : bool := Str.has_prefix (Str.trim_space line) key.

Lemma setting_skip key ok l k : Forall (fun line => sets key line = false) l -> setting key ok (l ++ k) = setting key ok k.
Proof.
  induction l as [|line l IH]; intros Hl; [done|]. apply Forall_cons in Hl as [H1 Hl]. cbn [app setting].
  unfold Str.cut_prefix. unfold sets in H1. rewrite H1. auto.
Qed.

Lemma kept_sets line : kept_line line = true -> sets "MTPROXY_SECRETS=" line = false /\ sets "MTPROXY_SECRET=" line = false.
Proof.
  unfold kept_line, sets. cbv zeta. rewrite negb_true_iff, !orb_false_iff. tauto.
Qed.

Lemma rendered_plain e : Forall plain_line (rendered e).
Proof. apply Forall_app. split; [apply kept_plain|apply defaults_plain]. Qed.

Lemma space_newline s : no_space s -> has_newline s = false.
Proof.
  unfold no_space, has_newline. induction s as [|c s IH]; [done|]. cbn [Str.bytes forallb]. rewrite contains_byte_cons.
  intros [Hc Hs]%andb_true_iff. rewrite IH by done. destruct (Ascii.eqb_spec c newline) as [->|]; [done|done].
Qed.

Lemma flags_newline secrets : Forall token secrets -> has_newline (flags secrets) = false.
Proof.
  unfold flags. induction secrets as [|s l IH]; intros Hl; [done|]. apply Forall_cons in Hl as [(_ & _ & Hs%space_newline) Hl].
  unfold has_newline in *. destruct l as [|s' l].
  - change (Str.join " " (map (fun s => "-S " +:+ s) [s])) with ("-S " +:+ s). by rewrite contains_byte_app, Hs.
  - change (Str.join " " (map (fun s => "-S " +:+ s) (s :: s' :: l))) with
      (("-S " +:+ s) +:+ " " +:+ Str.join " " (map (fun s => "-S " +:+ s) (s' :: l))).
    by rewrite !contains_byte_app, Hs, IH.
Qed.

Lemma secret_lines_newline secrets : Forall token secrets -> Forall (fun line => has_newline line = false) (secret_lines secrets).
Proof.
  intros Hs. pose proof (flags_newline _ Hs) as Hf. unfold secret_lines, has_newline in *. repeat constructor.
  - rewrite contains_byte_app. destruct secrets as [|s l]; [done|]. by apply Forall_cons in Hs as [(_ & _ & Hs%space_newline) _].
  - by rewrite contains_byte_app, Hf.
Qed.

Lemma plain_newline l : Forall plain_line l -> Forall (fun line => has_newline line = false) l.
Proof. intros Hl. eapply Forall_impl; [exact Hl|]. by intros x [? _]. Qed.

Lemma lines_render e secrets : Forall token secrets ->
  lines (RenderMTProxyEnv e secrets) = rendered e ++ secret_lines secrets ++ [EmptyString].
Proof.
  intros Hs. rewrite render_lines, <- (Str.append_nil_r (text_of _)), lines_text.
  - by rewrite <- app_assoc.
  - apply Forall_app. split; [apply plain_newline, rendered_plain|by apply secret_lines_newline].
Qed.

Lemma trim_secrets v : Str.trim_space ("MTPROXY_SECRETS=" +:+ v) = "MTPROXY_SECRETS=" +:+ Str.trim_right v.
Proof. unfold Str.trim_space. exact (trim_right_solid "MTPROXY_SECRETS" "=" v eq_refl). Qed.

Lemma trim_secret v : Str.trim_space ("MTPROXY_SECRET=" +:+ v) = "MTPROXY_SECRET=" +:+ Str.trim_right v.
Proof. unfold Str.trim_space. exact (trim_right_solid "MTPROXY_SECRET" "=" v eq_refl). Qed.

(** Reading a rendering. *)
Lemma read_back e secrets : Forall token secrets -> existingMTProxySecrets (RenderMTProxyEnv e secrets) = secrets.
Proof.
  intros Hs. unfold existingMTProxySecrets. rewrite lines_render by done.
  rewrite setting_skip by (eapply Forall_impl; [apply rendered_plain|]; intros x [_ ?%kept_sets]; tauto).
  unfold secret_lines. cbn [app setting]. rewrite trim_secret. unfold Str.cut_prefix at 1.
  assert (Str.has_prefix ("MTPROXY_SECRET=" +:+ Str.trim_right (default EmptyString (head secrets))) "MTPROXY_SECRETS=" = false) as -> by done.
  rewrite trim_secrets, Str.cut_prefix_append. unfold Str.fields. rewrite fields_trim. fold (Str.fields (flags secrets)).
  rewrite fields_flags by done. induction Hs as [|s l (_ & Hne & _) Hl IH]; [done|]. cbn [flat_map app].
  rewrite filter_cons_False by tauto. by rewrite filter_cons_True, IH.
Qed.

Lemma plain_kept l : Forall plain_line l -> filter (fun line => kept_line line = true) l = l.
Proof. intros Hl. induction Hl as [|x l [_ Hx] Hl IH]; [done|]. by rewrite filter_cons_True, IH. Qed.

(** The lines without a secret, and the defaults, survive a rendering. *)
Lemma kept_render e secrets : Forall token secrets -> kept_lines (RenderMTProxyEnv e secrets) = rendered e.
Proof.
  intros Hs. unfold kept_lines. rewrite lines_render, !filter_app by done.
  rewrite (plain_kept (rendered e)) by apply rendered_plain.
  unfold secret_lines. rewrite !filter_cons_False, !filter_nil, app_nil_r; [done| | |].
  - by vm_compute.
  - unfold kept_line. cbv zeta. rewrite trim_secrets, Str.has_prefix_append, orb_true_r. done.
  - unfold kept_line. cbv zeta. rewrite trim_secret, Str.has_prefix_append, orb_true_r. done.
Qed.

Lemma rendered_fixed e secrets : Forall token secrets -> rendered (RenderMTProxyEnv e secrets) = rendered e.
Proof.
  intros Hs. unfold rendered at 1. rewrite kept_render by done. unfold rendered. rewrite text_app, defaults_there.
  by rewrite app_nil_r.
Qed.

(** A rendering forgets the secrets an earlier one wrote, and nothing else. *)
Lemma render_again e secrets secrets' : Forall token secrets ->
  RenderMTProxyEnv (RenderMTProxyEnv e secrets) secrets' = RenderMTProxyEnv e secrets'.
Proof. intros Hs. by rewrite (render_lines (RenderMTProxyEnv _ _)), (render_lines e secrets'), rendered_fixed. Qed.

(** ** Files the rendering leaves alone *)

Lemma fields_tokens s w : no_space w -> Forall (fun x => x <> EmptyString /\ no_space x) (Str.fields_aux s w).
Proof.
  revert w. induction s as [|c s IH]; intros w Hw; cbn [Str.fields_aux]; [destruct w; by repeat constructor|].
  destruct (Str.is_space c) eqn:Hc.
  - destruct w; [by apply IH|]. constructor; [done|by apply IH].
  - apply IH. unfold no_space in *. rewrite Str.bytes_append, forallb_app, Hw. cbn. by rewrite Hc.
Qed.

Lemma trim_right_byte_free s b : Str.contains_byte s b = false -> Str.contains_byte (Str.trim_right s) b = false.
Proof.
  induction s as [|c s IH]; [done|]. rewrite contains_byte_cons. intros [Hc Hs]%orb_false_iff. cbn [Str.trim_right]. specialize (IH Hs).
  destruct (Str.trim_right s); [destruct (Str.is_space c); [done|]|]; by rewrite contains_byte_cons, Hc, ?IH.
Qed.

Lemma trim_left_byte_free s b : Str.contains_byte s b = false -> Str.contains_byte (Str.trim_left s) b = false.
Proof.
  induction s as [|c s IH]; [done|]. intros Hs. cbn [Str.trim_left]. destruct (Str.is_space c); [|done]. apply IH.
  rewrite contains_byte_cons in Hs. by apply orb_false_iff in Hs as [_ ?].
Qed.

Lemma setting_spec key ok l v : setting key ok l = Some v -> ok v = true /\ exists line, line ∈ l /\ Str.trim_space line = key +:+ v.
Proof.
  induction l as [|line l IH]; [done|]. cbn [setting]. destruct (Str.cut_prefix (Str.trim_space line) key) as [x|] eqn:E.
  - destruct (ok x) eqn:Ho; intros Hv; [injection Hv as ->|apply IH in Hv as (? & y & Hy & ?); split; [done|]; exists y; by split; [right|]].
    split; [done|]. exists line. split; [by left|]. unfold Str.cut_prefix in E. destruct (Str.has_prefix _ key) eqn:Hp; [|done].
    apply Str.has_prefix_spec in Hp as [r Hr]. rewrite Hr in *. rewrite Str.drop_length_append in E. by injection E as ->.
  - intros Hv. apply IH in Hv as (? & y & Hy & ?). split; [done|]. exists y. by split; [right|].
Qed.

(** What is read is a list of tokens, or one text without a newline. *)
Lemma existing_shape e : Forall token (existingMTProxySecrets e) \/
  exists v, existingMTProxySecrets e = [v] /\ v <> EmptyString /\ has_newline v = false.
Proof.
  unfold existingMTProxySecrets. destruct (setting "MTPROXY_SECRETS=" _ _) as [v|].
  - left. rewrite Forall_forall. intros x [Hx Hin]%list_elem_of_filter. pose proof (fields_tokens v EmptyString eq_refl) as HF.
    rewrite Forall_forall in HF. destruct (HF x Hin). by split_and!.
  - destruct (setting "MTPROXY_SECRET=" _ _) as [v|] eqn:E; [|by left]. right. exists v. split; [done|].
    apply setting_spec in E as (Hv & line & Hl & Ht). split; [by intros ->|].
    pose proof (split_pieces newline e) as HF. rewrite Forall_forall in HF. specialize (HF _ Hl).
    apply (trim_left_byte_free _ newline), trim_right_byte_free in HF. fold (Str.trim_space line) in HF. rewrite Ht, contains_byte_app in HF.
    by apply orb_false_iff in HF as [_ ?].
Qed.

(** A file whose rendering with its own secrets is the rendering with others
    has those. *)
Lemma same_secrets e secrets : Forall token secrets ->
  RenderMTProxyEnv e (existingMTProxySecrets e) = RenderMTProxyEnv e secrets -> existingMTProxySecrets e = secrets.
Proof.
  intros Hs E. assert (Ht : Forall token (existingMTProxySecrets e) -> existingMTProxySecrets e = secrets).
  { intros Ht. by rewrite <- (read_back e _ Ht), E, read_back. }
  destruct (existing_shape e) as [?|(v & Hv & Hne & Hn)]; [auto|]. apply Ht. rewrite Hv in *. clear Ht.
  rewrite !render_lines, !text_app in E. apply (f_equal (fun x => Str.drop (String.length (text_of (rendered e))) x)) in E.
  rewrite !Str.drop_length_append in E. apply (f_equal lines) in E.
  pose proof (secret_lines_newline _ Hs) as Hl. apply Forall_cons in Hl as [Hl _].
  unfold secret_lines, text_of in E. cbn [foldr head default] in E.
  rewrite (lines_cons ("MTPROXY_SECRET=" +:+ v)) in E by (unfold has_newline in *; by rewrite contains_byte_app, Hn).
  rewrite (lines_cons ("MTPROXY_SECRET=" +:+ default EmptyString (head secrets))) in E by done.
  injection E as E _. destruct secrets as [|s l]; [by subst|]. rewrite !Str.append_nil_l in E. apply Forall_cons in Hs as [Hs _]. subst. by constructor.
Qed.

(** The secrets written into the environment file of mtproxy are the
    secrets read from it, whatever the file held before; writing others
    forgets the first ones and keeps every other line; and a file that an
    apply leaves alone, because a rendering would not change it, has the
    secrets that apply asked for. *)
Theorem secrets_round_trip e secrets : Forall token secrets ->
  existingMTProxySecrets (RenderMTProxyEnv e secrets) = secrets /\
  (forall others, RenderMTProxyEnv (RenderMTProxyEnv e secrets) others = RenderMTProxyEnv e others) /\
  (RenderMTProxyEnv e (existingMTProxySecrets e) = RenderMTProxyEnv e secrets -> existingMTProxySecrets e = secrets).
Proof. intros Hs. split_and!; [by apply read_back|intros others; by apply render_again|by apply same_secrets]. Qed.

(** ** An environment file *)

Definition old_env : string := text_of ["# mtproxy"; "MTPROXY_WORKERS=4"; "MTPROXY_SECRETS=-S 00"]%string.

Example rendered_env : lines (RenderMTProxyEnv old_env ["aa"; "bb"]%string) =
  ["# mtproxy"; "MTPROXY_WORKERS=4"; "MTPROXY_MAX_CONNECTIONS=4096"; "MTPROXY_SECRET=aa"; "MTPROXY_SECRETS=-S aa -S bb"; ""]%string.
Proof. by vm_compute. Qed.

Lemma secrets_round_trip_witness : Forall token ["aa"; "bb"]%string /\
  existingMTProxySecrets (RenderMTProxyEnv old_env ["aa"; "bb"]%string) = ["aa"; "bb"]%string.
Proof.
  assert (Ht : Forall token ["aa"; "bb"]%string) by (constructor; [|constructor; [|constructor]]; by split_and!).
  split; [exact Ht|exact (proj1 (secrets_round_trip old_env _ Ht))].
Defined.
