(* ===== verification/RelaySafety.v ===== *)
(** * A relay node keeps what it had

    What [RelayApply.relayApply] leaves on the disk: a successful apply left
    the profiles, the secrets and the site it was asked for (a site left in
    place is the bundle as far as [siteEquals] can tell), and one that reports a
    roll-back left every file that was there with the content it had. *)

From S2P Require Import Prelude TelemtTypes Json Node NodeLogic AgentFiles UpdateState UpdateJournal Upstream TelemtConfig AgentProto Users Convert SiteFiles SiteSafety RelayApply RelayEnv.

Local Open Scope go_scope.

Definition content_at (f : files) (p : string) : option string := fdata <$> f !! p.

Lemma content_off (S : paths) f g p : same_off S f g -> ~ S p -> content_at g p = content_at f p.
Proof. intros Hf Hp. unfold content_at. by rewrite (Hf p Hp). Qed.

(** ** Paths *)

(** A file and the temporary ones next to it. *)
Definition near (path : string) : paths := fun p => p = path \/ exists n, no_slash n /\ p = Path.Join (Path.Dir path) n.





Section Relay.
Context `{Outside} `{O : MapOrder}.
Context (cfg : Config).

Abbreviation Prof := (ProfilesPath cfg).
Abbreviation Env := (MTProxyEnvPath cfg).
Abbreviation dir := (siteDir cfg).
Abbreviation home := (StateDir cfg).

(** The website directory and the two next to it. *)
Definition site_dirs : list string := [dir; swap_of dir; new_of dir].

(** The paths of the configuration are clean and apart from each other. *)
Record relay_paths : Prop := {
  rp_state : Str.has_suffix home "/" = false;
  rp_dir : Path.Dir (candidate cfg) = home;
  rp_bases : Path.Base Prof <> Path.Base Env;
  rp_files : forall p, p = Prof \/ p = Env ->
    no_slash (Path.Base p) /\ Path.Base p <> "site"%string /\ ~ is_temp p /\
    forall d, d ∈ home :: site_dirs -> forall q, near p q -> ~ region d q;
  rp_apart : forall d, d ∈ site_dirs -> apart home d
}.
Hypothesis paths_ok : relay_paths.





(** ** Footprints *)





(** ** Keeping a backup *)







(** ** Putting the backup back *)









(** ** Writing the changes *)










(** ** Planning *)

(** The content of a file, or nothing when it could not be read. *)
Definition read_as (f : files) (p d : string) : Prop := content_at f p = Some d \/ d = EmptyString.













Lemma home_file f g p : same_off (region home) f g -> p = Prof \/ p = Env -> content_at g p = content_at f p.
Proof.
  intros Hf Hp. apply (content_off _ _ _ _ Hf). destruct (rp_files paths_ok p Hp) as (_ & _ & _ & Hn). apply (Hn home); [by left|by left].
Qed.




(** ** The backup directory, and old ones *)






(** ** What an apply leaves *)




Lemma read_as_kept f g p d : (p = Prof \/ p = Env) -> same_off (region home) f g -> read_as f p d -> read_as g p d.
Proof. intros Hp Hf. unfold read_as. by rewrite (home_file _ _ _ Hf Hp). Qed.


(** Waiting for the relay ends: the attempts the model counts are as many as
    the health wait allows. *)
Lemma probe_advances ctx p : advances (probe cfg ctx p).
Proof.
  unfold probe. apply advances_bind; [by apply advances_same|]. intros t. destruct (expired ctx t); [apply advances_ret|].
  apply advances_bind; [apply advances_perform|]. intros r. apply advances_bind; [by apply advances_same|]. intros t'. apply advances_ret.
Qed.

Lemma healthy_once_advances ctx deadline : advances (healthy_once cfg ctx deadline).
Proof.
  unfold healthy_once. apply advances_bind; [apply probe_advances|]. intros a. apply advances_bind; [destruct a; [apply probe_advances|apply advances_ret]|].
  intros []; [apply advances_ret|]. apply advances_bind; [by apply advances_same|]. intros t. apply advances_ret.
Qed.

Lemma healthy_once_late ctx deadline w : deadline < now w -> (healthy_once cfg ctx deadline w).1 <> None.
Proof.
  intros Hd. unfold healthy_once, mbind, M_bind. pose proof (probe_advances ctx "/healthz" w) as H1.
  destruct (probe cfg ctx "/healthz" w) as [a w1]. cbn in H1.
  assert (H2 : now w1 <= now (((if a then probe cfg ctx "/readyz" else mret false) : M bool) w1).2) by (destruct a; [apply probe_advances|done]).
  destruct (((if a then probe cfg ctx "/readyz" else mret false) : M bool) w1) as [b w2]. cbn in H2.
  destruct b; [done|]. cbn. destruct (Z.ltb_spec deadline (now w2)); [done|lia].
Qed.

Lemma waitHealthy_terminates ctx w m : (ready_fuel cfg <= m)%nat ->
  waitHealthy cfg ctx w = poll m ctx readyPoll (healthy_once cfg ctx (now w + HealthWait cfg)) (fun e => mret (Err e)) w.
Proof.
  intros Hm. change (waitHealthy cfg ctx w) with
    (poll (ready_fuel cfg) ctx readyPoll (healthy_once cfg ctx (now w + HealthWait cfg)) (fun e => mret (Err e)) w).
  unfold ready_fuel in *. destruct m as [|m]; [lia|]. symmetry.
  apply (poll_total _ _ _ _ _ (now w + HealthWait cfg)); [apply readyPoll_pos|apply healthy_once_advances| | |lia].
  - intros. by apply healthy_once_late.
  - pose proof readyPoll_pos as Hp. pose proof (Z.mul_succ_div_gt (HealthWait cfg) readyPoll Hp). nia.
Qed.


End Relay.

(** ** A relay node

    A node whose disk works and whose relay starts or not, as told, and
    applies on it: one that succeeds, one whose relay does not come up with
    the new profiles and comes up with the old ones.  The witness of
    [RelaySafety.relay_serves_or_restores]. *)

Local Open Scope go_scope.

Module RelaySim.

(** What becomes of the next restarts of the relay; later ones work. *)
Definition starts : Type := list bool.

Definition node_react (A : Type) (e : effect A) (f : files) (o : starts) : A * Z * starts :=
  match e in effect A return A * Z * starts with
  | Fault op => ((SiteSim.disk_fault op f 1).1, 0, o)
  | ShortWrite _ => (O, 0, o)
  | Random => (258, 0, o)
  | NewUUID => ("id", 0, o)
  | Select => (false, 0, o)
  | Exec argv =>
      if bool_decide (argv = ["systemctl"; "restart"; "tproxy-server"]%string) && negb (default true (head o))
      then (("job failed"%string, Some "exit status 1"%string), 0, tail o)
      else ((EmptyString, None), 0, if bool_decide (argv = ["systemctl"; "restart"; "tproxy-server"]%string) then tail o else o)
  | Get _ => (Ok {| resp_status := 200; resp_body := EmptyString; resp_body_err := None |}, Tm.millisecond, o)
  | Decoy => (None, 0, o)
  | Fetch _ _ => (Err "unreachable"%string, 0, o)
  | Rewritten _ => (None, 0, o)
  | Dial _ _ => (None, 0, o)
  | Control _ => (inr (Transport "unreachable"), 0, o)
  end.

#[export] Instance relay_node : Outside := {| outside := starts; umask := 18; self := (0, 0); react := node_react |}.
#[local] Instance order : MapOrder := written_order.

Definition cfg : Config :=
  {| StateDir := "/var/lib/node-agent"; TelemtConfigPath := "/etc/telemt/telemt.toml"; TelemtBin := "/opt/telemt/telemt";
     HealthWait := 60000000000; cfg_Engine := "tproxy"; updatePoll := 1000000000; TelemtSiteDir := "/var/www/site";
     RelaySiteDir := "/var/www/relay"; ReloadWait := 0; ProfilesPath := "/etc/relay/profiles.json";
     MTProxyEnvPath := "/etc/relay/mtproxy.env"; TProxyBin := "/opt/relay/tproxy"; ConfigPath := "/etc/relay/config.json";
     RelayAdminURL := "http://127.0.0.1:9100" |}.

Lemma relay_paths : relay_paths cfg.
Proof.
  split; try done.
  - intros p Hp. assert (Hd : Path.Dir p = "/etc/relay"%string) by by destruct Hp as [-> | ->].
    split_and!; try (by destruct Hp as [-> | ->]).
    + intros [Hh _]. by destruct Hp as [-> | ->].
    + intros d Hin q Hq Hr. unfold site_dirs in Hin. rewrite !elem_of_cons, elem_of_nil in Hin.
      unfold near in Hq. rewrite Hd in Hq.
      destruct Hin as [-> |[-> |[-> |[-> |[]]]]], Hq as [-> |(n & _ & ->)], Hr as [Hr|Hr]; try discriminate Hr; by destruct Hp as [-> | ->].
  - intros d Hin. unfold site_dirs in Hin. rewrite !elem_of_cons, elem_of_nil in Hin.
    destruct Hin as [-> |[-> |[-> |[]]]]; intros p Hp Hq; apply below_spec in Hp as [r ->]; discriminate Hq.
Qed.

Definition profile (name secret : string) : Pb.Profile :=
  {| Pb.Name := name; Pb.Secret := secret; Pb.Backend := EmptyString; Pb.CarrierMode := "websocket"; Pb.Limits := None;
     Pb.DataQuotaBytes := 0; Pb.RateLimitUpBps := 0; Pb.RateLimitDownBps := 0; Pb.MaxUniqueIps := 0; Pb.MaxTcpConns := 0;
     Pb.ExpiresAtUnix := 0; Pb.Enabled := true; Pb.QuotaResetUnix := 0 |}.

Definition request : Pb.ApplyRequest :=
  {| Pb.ApplyProfiles := true; Pb.Profiles := [profile "k1" "aa"]; Pb.MtproxySecrets := ["aa"; "bb"]%string;
     Pb.Site := Some [("index.html", "new"); ("css/main.css", "b {}")]%string; Pb.TlsDomain := EmptyString; Pb.ClassicPort := 0;
     Pb.PublicIp := EmptyString; Pb.AdTag := EmptyString; Pb.RWebPolicy := None; Pb.ManagedWebHost := EmptyString;
     Pb.TlsDomains := []; Pb.WebCapacity := 0; Pb.MaxProfiles := 0 |}.

Definition before (o : starts) : world :=
  {| now := 0; fs := {[ "/var/www/relay/index.html"%string := SiteSim.file "old"; "/etc/relay/profiles.json"%string := SiteSim.file "{}";
                        "/etc/relay/mtproxy.env"%string := SiteSim.file old_env ]};
     events := []; out := o; instance := EmptyString; upd := None; maintenance := true |}.

Definition run (o : starts) := relayApply cfg None request (before o).

(** Success. *)
Example applied :
  (run []).1 = (apply_result true true true false, None) /\
  content_at (fs (run []).2) "/etc/relay/mtproxy.env" = Some (RenderMTProxyEnv old_env ["aa"; "bb"]%string) /\
  holds "/var/www/relay" (fs (run []).2) "css/main.css" = Some "b {}"%string.
Proof. split_and!; vm_compute; reflexivity. Qed.

(** The relay does not start with the new profiles. *)
Example rolled_back :
  (run [false]).1 = (apply_result false false true true, Some "restart tproxy-server: job failed"%string) /\
  content_at (fs (run [false]).2) "/etc/relay/profiles.json" = Some "{}"%string /\
  holds "/var/www/relay" (fs (run [false]).2) "index.html" = Some "old"%string.
Proof. split_and!; vm_compute; reflexivity. Qed.

(** Nor with the old ones. *)
Example not_rolled_back : (run [false; false]).1 = (apply_result false false true false, Some "restart tproxy-server: job failed"%string).
Proof. vm_compute. reflexivity. Qed.

(** The files an apply created are left behind by its roll-back. *)
Definition bare (o : starts) : world :=
  {| now := 0; fs := {[ "/var/www/relay/index.html"%string := SiteSim.file "old" ]}; events := []; out := o;
     instance := EmptyString; upd := None; maintenance := true |}.

Example created_files_stay :
  let r := relayApply cfg None request (bare [false]) in
  Pb.RolledBack r.1.1 = true /\ is_Some (content_at (fs r.2) "/etc/relay/profiles.json").
Proof. split; vm_compute; [reflexivity|by eexists]. Qed.

(** Two empty files are taken for the same site. *)
Example empty_files_look_alike :
  (siteEquals cfg {[ "b.txt"%string := EmptyString ]}
     {| now := 0; fs := {[ "/var/www/relay/a.txt"%string := SiteSim.file EmptyString ]}; events := []; out := []; instance := EmptyString;
        upd := None; maintenance := true |}).1 = true.
Proof. vm_compute. reflexivity. Qed.



End RelaySim.
