(* ===== verification/Toml.v ===== *)
(** * The connection limit in telemt.toml

    internal/agent/telemtcapacity.go: telemt.toml holds a limit the control
    API cannot change, so the agent edits that one line of the file.  Reading
    the limit back gives what was written, and every other line stays as it
    was. *)

From S2P Require Import Prelude Regex Json Node RelayApply RelayEnv.

Local Open Scope go_scope.

Definition telemtDefaultMaxConnections : Z := 10000.

(** ** The patterns *)

(** The class \s of package regexp. *)
Definition toml_space (c : ascii) : bool := existsb (Nat.eqb (nat_of_ascii c)) [9; 10; 12; 13; 32]%nat.

Definition space_class : class :=
  map (fun n => (ascii_of_nat n, ascii_of_nat n)) [9; 10; 12; 13; 32]%nat.
Definition any_class : class := [(ascii_of_nat 0, ascii_of_nat 255)].
Definition spaces : re := Star (Cls space_class).
Definition byte_re (c : ascii) : re := Cls [(c, c)].
Fixpoint word (s : string) : re := match s with EmptyString => Eps | String c s => Seq (byte_re c) (word s) end.

Definition tomlServerHeaderRe : re :=
  Seq spaces (Seq (byte_re "[") (Seq spaces (Seq (word "server") (Seq spaces (Seq (byte_re "]") (Seq spaces
    (opt (Seq (byte_re "#") (Star (Cls any_class)))))))))).

Fixpoint skip_spaces (s : string) : string :=
  match s with
  | String c t => if toml_space c then skip_spaces t else s
  | EmptyString => EmptyString
  end.

Fixpoint drop_spaces_right (s : string) : string :=
  match s with
  | EmptyString => EmptyString
  | String c t =>
      match drop_spaces_right t with
      | EmptyString => if toml_space c then EmptyString else String c EmptyString
      | u => String c u
      end
  end.

(** tomlTableHeaderRe *)
Definition is_table_header (line : string) : bool := Str.has_prefix (skip_spaces line) "[".

(** tomlMaxConnRe: the indentation, the value and the comment of a line that
    sets max_connections. *)
Definition max_conn_line (line : string) : option (string * string * string) :=
  let body := skip_spaces line in
  let indent := Str.take (String.length line - String.length body) line in
  match Str.cut_prefix body "max_connections" with
  | None => None
  | Some rest =>
      match Str.cut_prefix (skip_spaces rest) "=" with
      | None => None
      | Some rest =>
          let '(value, comment, found) := Str.cut (skip_spaces rest) "#" in
          Some (indent, drop_spaces_right value, if (found : bool) then "#" +:+ comment else EmptyString)
      end
  end.

(** ** The table *)

Fixpoint server_section (i : nat) (header : option nat) (l : list string) : result (nat * nat) :=
  match l with
  | [] => match header with Some h => Ok (h, i) | None => Err "telemt config has no [server] table" end
  | line :: l =>
      match header with
      | None => server_section (S i) (if accepts tomlServerHeaderRe line then Some i else None) l
      | Some h => if is_table_header line then Ok (h, i) else server_section (S i) header l
      end
  end.

Definition tomlServerSection (l : list string) : result (nat * nat) := server_section 0 None l.

(** The lines of the table. *)
Definition section_body (l : list string) (header end_ : nat) : list string := take (end_ - S header) (drop (S header) l).

(** The first line that sets the limit. *)
Fixpoint first_max_conn (i : nat) (l : list string) : option (nat * (string * string * string)) :=
  match l with
  | [] => None
  | line :: l => match max_conn_line line with Some m => Some (i, m) | None => first_max_conn (S i) l end
  end.

Fixpoint without_underscores (s : string) : string :=
  match s with
  | EmptyString => EmptyString
  | String c s => if Ascii.eqb c "_" then without_underscores s else String c (without_underscores s)
  end.

Definition tomlServerMaxConnections (raw : string) : result Z :=
  let l := lines raw in
  let? (header, end_) := tomlServerSection l in
  match first_max_conn 0 (section_body l header end_) with
  | Some (_, (_, value, _)) =>
      match Dec.atoi (without_underscores value) with
      | Some v => Ok v
      | None => Err ("server.max_connections " +:+ Str.quote value +:+ " is not an integer")
      end
  | None => Ok telemtDefaultMaxConnections
  end.

Definition limit_line (indent comment : string) (v : Z) : string :=
  indent +:+ "max_connections = " +:+ Dec.itoa v +:+ (if String.eqb comment EmptyString then EmptyString else " " +:+ comment).

Definition setTomlServerMaxConnections (raw : string) (v : Z) : result string :=
  let l := lines raw in
  let? (header, end_) := tomlServerSection l in
  match first_max_conn (S header) (section_body l header end_) with
  | Some (i, (indent, _, comment)) => Ok (Str.join lf (<[i := limit_line indent comment v]> l))
  | None => Ok (Str.join lf (take (S header) l ++ limit_line EmptyString EmptyString v :: drop (S header) l))
  end.

(** ** The table, taken apart *)

Definition server_header (line : string) : bool := accepts tomlServerHeaderRe line.

Record section_parts (l pre : list string) (hd : string) (body post : list string) : Prop := {
  sp_lines : l = pre ++ hd :: body ++ post;
  sp_pre : Forall (fun x => server_header x = false) pre;
  sp_header : server_header hd = true;
  sp_body : Forall (fun x => is_table_header x = false) body;
  sp_post : match post with [] => True | x :: _ => is_table_header x = true end
}.

Lemma body_section i h l : (forall e, server_section i (Some h) l = Ok (h, e) <->
  exists body post, l = body ++ post /\ e = (i + length body)%nat /\ Forall (fun x => is_table_header x = false) body /\
    match post with [] => True | x :: _ => is_table_header x = true end).
Proof.
  revert i. induction l as [|x l IH]; intros i e; cbn [server_section].
  - split; [intros [= <-]; exists [], []; split_and!; [done|cbn; lia|constructor|done]|].
    intros (body & post & E & -> & _). symmetry in E. apply app_eq_nil in E as [-> ->]. cbn. do 2 f_equal. lia.
  - destruct (is_table_header x) eqn:Ex.
    + split; [intros [= <-]; exists [], (x :: l); split_and!; [done|cbn; lia|constructor|done]|].
      intros ([|y body] & post & E & -> & HF & _); [cbn; do 2 f_equal; lia|]. injection E as <- _. apply Forall_cons in HF as [HF _]. congruence.
    + rewrite IH. split.
      * intros (body & post & -> & -> & HF & Hp). exists (x :: body), post. split_and!; [done|cbn; lia|by constructor|done].
      * intros ([|y body] & post & E & -> & HF & Hp).
        -- cbn in E. subst post. congruence.
        -- injection E as <- ->. apply Forall_cons in HF as [_ HF]. exists body, post. split_and!; [done|cbn; lia|done|done].
Qed.

Lemma section_header_fixed i h l h' e : server_section i (Some h) l = Ok (h', e) -> h' = h.
Proof.
  revert i. induction l as [|x l IH]; intros i; cbn [server_section]; [by intros [= <- _]|].
  destruct (is_table_header x); [by intros [= <- _]|apply IH].
Qed.

Lemma section_spec i l h e : server_section i None l = Ok (h, e) <->
  exists pre hd body post, section_parts l pre hd body post /\ h = (i + length pre)%nat /\ e = (S h + length body)%nat.
Proof.
  revert i. induction l as [|x l IH]; intros i; cbn [server_section].
  - split; [done|]. intros (pre & hd & body & post & [E _ _ _ _] & _). by destruct pre.
  - fold (server_header x). destruct (server_header x) eqn:Ex.
    + split.
      * intros Hr. pose proof (section_header_fixed _ _ _ _ _ Hr) as ->. apply body_section in Hr as (body & post & -> & -> & HF & Hp).
        exists [], x, body, post. split_and!; [by split|cbn; lia|lia].
      * intros (pre & hd & body & post & [E Hpre Hhd HF Hp] & -> & ->). destruct pre as [|y pre].
        -- injection E as -> ->. cbn. rewrite Nat.add_0_r. apply body_section. exists body, post. split_and!; [done|lia|done|done].
        -- injection E as <- _. apply Forall_cons in Hpre as [Hpre _]. congruence.
    + rewrite IH. split.
      * intros (pre & hd & body & post & [-> Hpre Hhd HF Hp] & -> & ->). exists (x :: pre), hd, body, post.
        split_and!; [split; [done|by constructor|done..]|cbn; lia|cbn; lia].
      * intros (pre & hd & body & post & [E Hpre Hhd HF Hp] & -> & ->). destruct pre as [|y pre].
        -- injection E as -> ->. congruence.
        -- injection E as <- ->. apply Forall_cons in Hpre as [_ Hpre]. exists pre, hd, body, post. split_and!; [by split|cbn; lia|cbn; lia].
Qed.

Lemma body_of_parts l pre hd body post : section_parts l pre hd body post ->
  section_body l (length pre) (S (length pre) + length body) = body.
Proof.
  intros [-> _ _ _ _]. unfold section_body. rewrite (cons_middle hd pre), app_assoc, drop_app_length' by (rewrite length_app; cbn; lia).
  apply take_app_length'. lia.
Qed.

Lemma first_max_conn_spec i l : match first_max_conn i l with
  | Some (k, m) => exists a x b, l = a ++ x :: b /\ k = (i + length a)%nat /\ Forall (fun y => max_conn_line y = None) a /\ max_conn_line x = Some m
  | None => Forall (fun y => max_conn_line y = None) l
  end.
Proof.
  revert i. induction l as [|x l IH]; intros i; cbn [first_max_conn]; [constructor|].
  destruct (max_conn_line x) as [m|] eqn:Ex; [by exists [], x, l; split_and!; [|cbn; lia|..]|].
  specialize (IH (S i)). destruct (first_max_conn (S i) l) as [[k m]|]; [|by constructor].
  destruct IH as (a & y & b & -> & -> & HF & Hy). exists (x :: a), y, b. split_and!; [done|cbn; lia|by constructor|done].
Qed.

Lemma first_max_conn_here i a x b m : Forall (fun y => max_conn_line y = None) a -> max_conn_line x = Some m ->
  first_max_conn i (a ++ x :: b) = Some ((i + length a)%nat, m).
Proof.
  revert i. induction a as [|y a IH]; intros i HF Hx; cbn [first_max_conn app]; [rewrite Hx; do 2 f_equal; cbn; lia|].
  apply Forall_cons in HF as [-> HF]. rewrite IH by done. do 2 f_equal. cbn. lia.
Qed.

(** ** A line that sets the limit *)

Definition each_byte (f : ascii -> bool) (s : string) : Prop := forallb f (Str.bytes s) = true.

Lemma each_app f a b : each_byte f (a +:+ b) <-> each_byte f a /\ each_byte f b.
Proof. unfold each_byte. by rewrite Str.bytes_append, forallb_app, andb_true_iff. Qed.

Lemma each_cons f c s : each_byte f (String c s) <-> f c = true /\ each_byte f s.
Proof. unfold each_byte. cbn. by rewrite andb_true_iff. Qed.

Lemma each_without f s b : each_byte f s -> f b = false -> Str.contains_byte s b = false.
Proof.
  induction s as [|c s IH]; [done|]. intros [Hc Hs]%each_cons Hb. rewrite contains_byte_cons, IH by done.
  destruct (Ascii.eqb_spec c b); [congruence|done].
Qed.

Lemma take_append a b : Str.take (String.length a) (a +:+ b) = a.
Proof. induction a as [|c a IH]; [by destruct b|]. rewrite Str.append_cons. cbn. by rewrite IH. Qed.

Lemma skip_split s : exists a, s = a +:+ skip_spaces s /\ each_byte toml_space a.
Proof.
  induction s as [|c s (a & E & Ha)]; [by exists EmptyString|]. cbn [skip_spaces]. destruct (toml_space c) eqn:Hc; [|by exists EmptyString].
  exists (String c a). split; [|by apply each_cons]. by rewrite Str.append_cons, <- E.
Qed.

Lemma skip_over a c s : each_byte toml_space a -> toml_space c = false -> skip_spaces (a +:+ String c s) = String c s.
Proof.
  intros Ha Hc. induction a as [|x a IH]; [rewrite Str.append_nil_l; cbn [skip_spaces]; by rewrite Hc|]. apply each_cons in Ha as [Hx Ha].
  rewrite Str.append_cons. cbn [skip_spaces]. rewrite Hx. auto.
Qed.

Lemma drop_right_solid a c b : toml_space c = false -> each_byte toml_space b ->
  drop_spaces_right (a +:+ String c b) = a +:+ String c EmptyString.
Proof.
  intros Hc Hb. assert (E : drop_spaces_right b = EmptyString).
  { induction b as [|x b IH]; [done|]. apply each_cons in Hb as [Hx Hb]. cbn [drop_spaces_right]. by rewrite IH, Hx. }
  induction a as [|x a IH].
  - rewrite !Str.append_nil_l. cbn [drop_spaces_right]. by rewrite E, Hc.
  - rewrite !Str.append_cons. cbn [drop_spaces_right]. rewrite IH. by destruct a.
Qed.

(** The shape of what a match gives back. *)
Definition comment_ok (c : string) : Prop := c = EmptyString \/ exists t, c = "#" +:+ t.

Lemma max_conn_line_shape line indent value comment : max_conn_line line = Some (indent, value, comment) ->
  each_byte toml_space indent /\ comment_ok comment /\ (has_newline line = false -> has_newline indent = false /\ has_newline comment = false).
Proof.
  unfold max_conn_line. destruct (skip_split line) as (a & E & Ha).
  assert (Hi : Str.take (String.length line - String.length (skip_spaces line)) line = a).
  { rewrite E at 1 3. rewrite Str.length_append, Nat.add_sub. apply take_append. }
  rewrite Hi. destruct (Str.cut_prefix (skip_spaces line) "max_connections") as [r1|] eqn:E1; [|done].
  destruct (Str.cut_prefix (skip_spaces r1) "=") as [r2|] eqn:E2; [|done].
  destruct (Str.cut (skip_spaces r2) "#") as [[v c] found] eqn:Ec. intros [= <- <- <-].
  split_and!; [done|destruct found; [right; by eexists|by left]|]. intros Hn.
  assert (Hcp : forall s p r, Str.cut_prefix s p = Some r -> exists q, s = q +:+ r).
  { intros s p r. unfold Str.cut_prefix. destruct (Str.has_prefix s p) eqn:Hp; [|done]. apply Str.has_prefix_spec in Hp as [q ->].
    rewrite Str.drop_length_append. intros [= ->]. by eexists. }
  destruct (Hcp _ _ _ E1) as [q1 F1], (Hcp _ _ _ E2) as [q2 F2]. destruct (skip_split r1) as (b1 & G1 & _), (skip_split r2) as (b2 & G2 & _).
  unfold has_newline in *. rewrite E, contains_byte_app in Hn. apply orb_false_iff in Hn as [Hna Hn]. split; [done|].
  rewrite F1, contains_byte_app in Hn. apply orb_false_iff in Hn as [_ Hn]. rewrite G1, contains_byte_app in Hn. apply orb_false_iff in Hn as [_ Hn].
  rewrite F2, contains_byte_app in Hn. apply orb_false_iff in Hn as [_ Hn]. rewrite G2, contains_byte_app in Hn. apply orb_false_iff in Hn as [_ Hn].
  destruct found; [|done]. unfold Str.cut in Ec. destruct (Str.index_byte _ _) as [i|]; [|done]. apply (f_equal (fun x => x.1.2)) in Ec. change (Str.drop (S i) (skip_spaces r2) = c) in Ec.
  rewrite <- (Str.take_drop (S i) (skip_spaces r2)), contains_byte_app in Hn. apply orb_false_iff in Hn as [_ Hn].
  rewrite Ec in Hn. by rewrite contains_byte_app, Hn.
Qed.

(** A byte of a decimal number. *)
Lemma itoa_bytes v : each_byte Json.is_number_char (Dec.itoa v).
Proof. pose proof (Json.number_ok_itoa v) as Hv. unfold Json.number_ok in Hv. by apply andb_true_iff in Hv as [? _]. Qed.

Lemma itoa_split v : exists a c, Dec.itoa v = a +:+ String c EmptyString /\ Json.is_number_char c = true.
Proof.
  pose proof (itoa_bytes v) as Hb. assert (Hne : Dec.itoa v <> EmptyString).
  { intros E. pose proof (Json.number_ok_itoa v) as Hv. by rewrite E in Hv. }
  revert Hb Hne. induction (Dec.itoa v) as [|c s IH]; [done|]. intros [Hc Hs]%each_cons _. destruct s as [|d s].
  - by exists EmptyString, c.
  - destruct IH as (a & e & -> & He); [done|done|]. exists (String c a), e. by rewrite Str.append_cons.
Qed.

Lemma number_char_plain c : Json.is_number_char c = true -> toml_space c = false /\ Ascii.eqb c "#" = false /\ Ascii.eqb c "_" = false /\ Ascii.eqb c newline = false.
Proof. destruct c as [[] [] [] [] [] [] [] []]; cbn; done. Qed.

Lemma itoa_free v b : Json.is_number_char b = false -> Str.contains_byte (Dec.itoa v) b = false.
Proof. intros Hb. eapply each_without; [apply itoa_bytes|done]. Qed.

Lemma cut_here a b s : Str.contains_byte a b = false -> Str.cut (a +:+ String b s) b = (a, s, true).
Proof.
  intros Ha. assert (E : Str.index_byte (a +:+ String b s) b = Some (String.length a)).
  { induction a as [|c a IH]; [rewrite Str.append_nil_l; cbn [Str.index_byte]; by rewrite Ascii.eqb_refl|]. rewrite contains_byte_cons in Ha. apply orb_false_iff in Ha as [Hc Ha].
    rewrite Str.append_cons. cbn [Str.index_byte]. by rewrite Hc, IH. }
  unfold Str.cut. rewrite E, take_append. f_equal. f_equal.
  assert (S (String.length a) = String.length (a +:+ String b EmptyString)) as -> by (rewrite Str.length_append; cbn; lia).
  assert (a +:+ String b s = (a +:+ String b EmptyString) +:+ s) as -> by (by rewrite Str.append_assoc). apply Str.drop_length_append.
Qed.

Lemma cut_none a b : Str.contains_byte a b = false -> Str.cut a b = (a, EmptyString, false).
Proof. unfold Str.contains_byte, Str.cut. by destruct (Str.index_byte a b). Qed.

Lemma limit_line_parses indent comment v : each_byte toml_space indent -> comment_ok comment ->
  max_conn_line (limit_line indent comment v) = Some (indent, Dec.itoa v, comment).
Proof.
  intros Hi Hc. unfold max_conn_line, limit_line. set (tail := if String.eqb comment EmptyString then EmptyString else " " +:+ comment).
  assert (E : skip_spaces (indent +:+ "max_connections = " +:+ Dec.itoa v +:+ tail) = "max_connections = " +:+ Dec.itoa v +:+ tail) by by apply skip_over.
  rewrite E, Str.length_append, Nat.add_sub, take_append.
  change ("max_connections = " +:+ Dec.itoa v +:+ tail) with ("max_connections" +:+ " = " +:+ Dec.itoa v +:+ tail).
  rewrite Str.cut_prefix_append. change (skip_spaces (" = " +:+ Dec.itoa v +:+ tail)) with ("=" +:+ " " +:+ Dec.itoa v +:+ tail).
  rewrite Str.cut_prefix_append. change (skip_spaces (" " +:+ Dec.itoa v +:+ tail)) with (skip_spaces (Dec.itoa v +:+ tail)).
  destruct (itoa_split v) as (a & c & Ev & Hcc). pose proof (number_char_plain c Hcc) as (Hsp & _ & _).
  assert (Es : skip_spaces (Dec.itoa v +:+ tail) = Dec.itoa v +:+ tail).
  { pose proof (itoa_bytes v) as Hb. destruct (Dec.itoa v) as [|d s] eqn:Ed; [by destruct a|]. apply each_cons in Hb as [Hd _].
    apply number_char_plain in Hd as (Hd & _). by apply (skip_over EmptyString). }
  rewrite Es. destruct Hc as [->|[t ->]].
  - unfold tail. rewrite String.eqb_refl, Str.append_nil_r. rewrite cut_none by by apply itoa_free.
    by rewrite Ev, (drop_right_solid a c EmptyString).
  - unfold tail. rewrite (proj2 (String.eqb_neq _ _)) by done.
    change (" " +:+ "#" +:+ t) with (" " +:+ String "#" t). rewrite <- Str.append_assoc, cut_here.
    + rewrite Ev, Str.append_assoc. change (String c EmptyString +:+ " ") with (String c " "). by rewrite (drop_right_solid a c " ").
    + by rewrite contains_byte_app, itoa_free.
Qed.

Lemma limit_line_table indent comment v : each_byte toml_space indent -> is_table_header (limit_line indent comment v) = false.
Proof.
  intros Hi. unfold is_table_header, limit_line.
  set (rest := "ax_connections = " +:+ Dec.itoa v +:+ (if String.eqb comment EmptyString then EmptyString else " " +:+ comment)).
  change (Str.has_prefix (skip_spaces (indent +:+ String "m" rest)) "[" = false). by rewrite skip_over.
Qed.

Lemma limit_line_newline indent comment v : has_newline indent = false -> has_newline comment = false ->
  has_newline (limit_line indent comment v) = false.
Proof.
  unfold has_newline, limit_line. intros Hi Hc. rewrite !contains_byte_app, Hi, itoa_free by done.
  destruct (String.eqb comment EmptyString); [done|]. by rewrite contains_byte_app, Hc.
Qed.

Lemma plain_underscores s : Str.contains_byte s "_" = false -> without_underscores s = s.
Proof.
  induction s as [|c s IH]; [done|]. rewrite contains_byte_cons. intros [Hc Hs]%orb_false_iff. cbn [without_underscores]. by rewrite Hc, IH.
Qed.

(** ** Writing lines *)

Lemma lines_join l : l <> [] -> Forall (fun x => has_newline x = false) l -> lines (Str.join lf l) = l.
Proof.
  induction l as [|x l IH]; [done|]. intros _ [Hx Hl]%Forall_cons. destruct l as [|y l].
  - cbn [Str.join]. unfold lines. by apply Path.split_no_sep.
  - change (Str.join lf (x :: y :: l)) with (x +:+ lf +:+ Str.join lf (y :: l)). rewrite lines_cons by done. f_equal. by apply IH.
Qed.

Lemma lines_plain s : Forall (fun x => has_newline x = false) (lines s).
Proof. apply split_pieces. Qed.

(** The file with one line of its table replaced or added. *)
Lemma set_spec raw v raw' : setTomlServerMaxConnections raw v = Ok raw' ->
  exists pre hd body post a b indent comment, section_parts (lines raw) pre hd body post /\
    lines raw' = pre ++ hd :: a ++ limit_line indent comment v :: b ++ post /\
    each_byte toml_space indent /\ comment_ok comment /\ Forall (fun y => max_conn_line y = None) a /\
    (body = a ++ b /\ a = [] \/ exists old, body = a ++ old :: b /\ max_conn_line old <> None).
Proof.
  unfold setTomlServerMaxConnections, tomlServerSection, rbind. destruct (server_section 0 None (lines raw)) as [[h e]|] eqn:Es; [|done].
  apply section_spec in Es as (pre & hd & body & post & Hp & Hh & He). cbn in Hh. subst h e.
  rewrite (body_of_parts _ _ _ _ _ Hp). pose proof (first_max_conn_spec (S (length pre)) body) as Hf.
  pose proof (lines_plain raw) as Hn. pose proof (sp_lines _ _ _ _ _ Hp) as El. rewrite El in *.
  destruct (first_max_conn _ body) as [[k [[indent value] comment]]|]; intros [= <-].
  - destruct Hf as (a & x & b & -> & -> & Ha & Hx). destruct (max_conn_line_shape _ _ _ _ Hx) as (Hi & Hc & Hnl).
    exists pre, hd, (a ++ x :: b), post, a, b, indent, comment.
    assert (E : <[(S (length pre) + length a)%nat := limit_line indent comment v]> (pre ++ hd :: (a ++ x :: b) ++ post) =
                pre ++ hd :: a ++ limit_line indent comment v :: b ++ post).
    { rewrite <- (app_assoc a), (cons_middle hd pre), app_assoc, (app_assoc (pre ++ [hd]) a).
      assert (S (length pre) + length a = length ((pre ++ [hd]) ++ a) + 0)%nat as -> by (rewrite !length_app; cbn; lia).
      rewrite insert_app_r. cbn. by rewrite <- !app_assoc. }
    rewrite E. split_and!; [done| |done|done|done|right; by exists x; rewrite Hx].
    rewrite !Forall_app, Forall_cons, !Forall_app, Forall_cons in Hn. destruct Hn as (N1 & N2 & (N3 & N4 & N5) & N6).
    destruct (Hnl N4) as [Ni Nc]. apply lines_join; [by destruct pre|].
    rewrite !Forall_app, Forall_cons, !Forall_app, Forall_cons, Forall_app. split_and!; try done. by apply limit_line_newline.
  - exists pre, hd, body, post, [], body, EmptyString, EmptyString.
    rewrite (cons_middle hd pre (body ++ post)), app_assoc.
    rewrite take_app_length', drop_app_length' by (rewrite length_app; cbn; lia). rewrite <- app_assoc.
    split_and!; [exact Hp| |done|by left|constructor|by left].
    rewrite <- app_assoc. apply lines_join; [by destruct pre|]. cbn. rewrite !Forall_app, Forall_cons, Forall_app in Hn. destruct Hn as (N1 & N2 & N3 & N4).
    rewrite Forall_app, !Forall_cons, Forall_app. split_and!; try done. by apply limit_line_newline.
Qed.

(** The connection limit written into telemt.toml is the one read from it,
    and every other line of the file is as it was, at most one line added; a
    file has a limit to read exactly when it has a table to write it to. *)
Theorem limit_round_trip raw v :
  (forall raw', Dec.min_int64 <= v <= Dec.max_int64 -> setTomlServerMaxConnections raw v = Ok raw' ->
    tomlServerMaxConnections raw' = Ok v /\
    exists before line after, lines raw' = before ++ line :: after /\
      (lines raw = before ++ after \/ exists old, lines raw = before ++ old :: after /\ max_conn_line old <> None)) /\
  ((exists raw', setTomlServerMaxConnections raw v = Ok raw') <-> exists s, tomlServerSection (lines raw) = Ok s).
Proof.
  split.
  - intros raw' Hv Hset. apply set_spec in Hset as (pre & hd & body & post & a & b & indent & comment & [El Hpre Hhd Hbody Hpost] & El' & Hi & Hc & Ha & Hb).
    set (line := limit_line indent comment v) in *.
    assert (Hparts : section_parts (lines raw') pre hd (a ++ line :: b) post).
    { split; [by rewrite El', <- app_assoc|done|done| |done]. rewrite Forall_app, Forall_cons.
      assert (Forall (fun x => is_table_header x = false) a /\ Forall (fun x => is_table_header x = false) b) as [Fa Fb].
      { destruct Hb as [[-> _]|(old & -> & _)]; rewrite Forall_app in Hbody; [done|]. rewrite Forall_cons in Hbody. tauto. }
      split_and!; [done|by apply limit_line_table|done]. }
    split.
    + unfold tomlServerMaxConnections, tomlServerSection, rbind.
      assert (server_section 0 None (lines raw') = Ok (length pre, S (length pre) + length (a ++ line :: b)))%nat as ->
        by (apply section_spec; exists pre, hd, (a ++ line :: b), post; by split_and!).
      rewrite (body_of_parts _ _ _ _ _ Hparts), (first_max_conn_here 0 a line b _ Ha (limit_line_parses _ _ _ Hi Hc)).
      rewrite plain_underscores by by apply itoa_free. by rewrite Json.atoi_itoa.
    + exists (pre ++ hd :: a), line, (b ++ post). split; [by rewrite El', <- app_assoc|].
      destruct Hb as [[-> ->]|(old & -> & Ho)]; [left; by rewrite El, <- (app_assoc pre)|right; exists old; split; [by rewrite El, <- !app_assoc|done]].
  - unfold setTomlServerMaxConnections, rbind. destruct (tomlServerSection (lines raw)) as [[h e]|e]; [|split; [by intros [? ?]|by intros [? ?]]].
    split; [by eexists|]. intros _. destruct (first_max_conn _ _) as [[k [[i x] c]]|]; by eexists.
Qed.

(** ** A configuration *)

Definition sample : string := text_of ["[general]"; "x = 1"; " [ server ] # edge"; "  max_connections = 10_000  # soft"; "port = 443"; "[web]"]%string.

Example sample_limit : tomlServerMaxConnections sample = Ok 10000.
Proof. by vm_compute. Qed.

Example sample_set : lines <$> (match setTomlServerMaxConnections sample 16384 with Ok s => Some s | Err _ => None end) =
  Some ["[general]"; "x = 1"; " [ server ] # edge"; "  max_connections = 16384 # soft"; "port = 443"; "[web]"; ""]%string.
Proof. by vm_compute. Qed.

(** A table written with a quoted name, or as a dotted key, is not found. *)
Example no_table : tomlServerMaxConnections "server.max_connections = 5" = Err "telemt config has no [server] table".
Proof. by vm_compute. Qed.

Lemma limit_round_trip_witness : exists raw', setTomlServerMaxConnections sample 16384 = Ok raw' /\ tomlServerMaxConnections raw' = Ok 16384.
Proof.
  destruct (setTomlServerMaxConnections sample 16384) as [raw'|e] eqn:E; [|exfalso; by vm_compute in E].
  exists raw'. split; [done|]. refine (proj1 (proj1 (limit_round_trip sample 16384) raw' _ E)). split; by vm_compute.
Defined.
