(* ===== verification/MasterKey.v ===== *)
(** * The master key and its rotation

    internal/crypto/box.go (values sealed under a numbered key),
    internal/store/rotate.go (the transaction that seals every stored value
    again), the keys of internal/config/config.go and the command
    [panel keys rotate] of cmd/panel/main.go.  The theorem is
    [rotation_keeps_secrets]; [Runs] has concrete rotations.

    AES-256-GCM is the class [Aead]; what a number in a JSON text becomes as a
    float64 and back, when it fits one, is [FloatText].  A column of the database is a map from
    the row's id to the value, NULL left out; a statement may fail, and so may
    the commit, before or after its effect ([rotation_env]). *)

From S2P Require Import Prelude Crypto TelemtTypes Json Toml.

Local Open Scope go_scope.

(** ** base64.StdEncoding *)

Module Std64.

Definition padding (n : nat) : string :=
  match (n mod 4)%nat with 2%nat => "==" | 3%nat => "=" | _ => EmptyString end.

Definition EncodeToString (s : string) : string := let e := RawStd.EncodeToString s in e +:+ padding (String.length e).

Definition DecodeString (s : string) : option string :=
  let s := without_line_ends s in
  if negb (String.length s mod 4 =? 0)%nat then None
  else if Str.has_suffix s "==" then quanta std_alphabet false (Str.trim_suffix s "==")
  else quanta std_alphabet false (Str.trim_suffix s "=").

End Std64.

(** ** The box *)

Class Aead := {
  (** key, nonce, plaintext, additional data *)
  Seal : string -> string -> string -> string -> string;
  Open : string -> string -> string -> string -> option string;
  Open_Seal : forall k n p a, String.length k = 32%nat -> String.length n = 12%nat -> Open k n (Seal k n p a) a = Some p
}.

Class FloatText := {
  float_text : string -> option string;
  float_text_again : forall t u, float_text t = Some u -> float_text u = Some u
}.

Definition maxKeyVersion : Z := 65535.
Definition NonceSize : nat := 12.

Record Box := { current : Z; aeads : gmap Z string }.

(** [binary.BigEndian] of two bytes. *)
Definition PutUint16 (v : Z) : string := String (of_byte (v / 256 mod 256)) (String (of_byte (v mod 256)) EmptyString).

Definition Version (blob : string) : Z :=
  match blob with String a (String b _) => byte_of a * 256 + byte_of b | _ => 0 end.

Section Box.
Context `{Aead} `{MapOrder}.

Definition key_refused (kv : Z * string) : option error :=
  if (kv.1 <? 1) || (kv.1 >? maxKeyVersion) then Some ("key version " +:+ Dec.itoa kv.1 +:+ " out of range 1..65535")
  else if negb (String.length kv.2 =? 32)%nat then Some ("key v" +:+ Dec.itoa kv.1 +:+ ": must be 32 bytes")
  else None.

Definition NewBox (cur : Z) (keys : gmap Z string) : result Box :=
  if (cur <? 1) || (cur >? maxKeyVersion) then Err ("current key version " +:+ Dec.itoa cur +:+ " out of range 1..65535")
  else match foldl (fun e kv => or_else e (key_refused kv)) None (range_order (map_to_list keys)) with
       | Some e => Err e
       | None =>
           match keys !! cur with
           | None => Err ("current key version " +:+ Dec.itoa cur +:+ " not provided")
           | Some _ => Ok {| current := cur; aeads := keys |}
           end
       end.

(** The cipher of the current version is there in every box [NewBox] made. *)
Definition Encrypt (b : Box) (nonce plain : string) : result string :=
  match aeads b !! current b with
  | None => Err "nil pointer dereference"
  | Some k => let prefix := PutUint16 (current b) in Ok (prefix +:+ nonce +:+ Seal k nonce plain prefix)
  end.

Definition Decrypt (b : Box) (blob : string) : result string :=
  match aeads b !! Version blob with
  | None => Err ("unknown key version " +:+ Dec.itoa (Version blob))
  | Some k =>
      if (String.length blob <? 2 + NonceSize)%nat then Err "ciphertext too short"
      else match Open k (Str.take NonceSize (Str.drop 2 blob)) (Str.drop (2 + NonceSize) blob) (Str.take 2 blob) with
           | Some p => Ok p
           | None => Err "cipher: message authentication failed"
           end
  end.

End Box.

(** ** The stored values *)

Abbreviation encColumn := (string * string)%type.

Definition rotatableColumns : list encColumn := [
  ("profiles", "secret_enc");
  ("access_keys", "secret_enc");
  ("admin_users", "totp_secret_enc");
  ("admin_users", "totp_pending_enc");
  ("subscription_tokens", "token_enc")]%string.

(** The values by column and id, and the setting telegram_alerts. *)
Record Secrets := { blobs : gmap encColumn (gmap string string); telegram : option json }.

Record Report := { r_Profiles : Z; r_Keys : Z; TOTPSecrets : Z; TOTPPending : Z; r_Settings : Z; SubLinks : Z }.
Definition no_report : Report := {| r_Profiles := 0; r_Keys := 0; TOTPSecrets := 0; TOTPPending := 0; r_Settings := 0; SubLinks := 0 |}.

(** [switch] on the table, then on the column. *)
Definition reported (c : encColumn) (n : Z) (r : Report) : Report :=
  if String.eqb c.1 "profiles" then {| r_Profiles := n; r_Keys := r_Keys r; TOTPSecrets := TOTPSecrets r; TOTPPending := TOTPPending r; r_Settings := r_Settings r; SubLinks := SubLinks r |}
  else if String.eqb c.1 "access_keys" then {| r_Profiles := r_Profiles r; r_Keys := n; TOTPSecrets := TOTPSecrets r; TOTPPending := TOTPPending r; r_Settings := r_Settings r; SubLinks := SubLinks r |}
  else if String.eqb c.2 "totp_secret_enc" then {| r_Profiles := r_Profiles r; r_Keys := r_Keys r; TOTPSecrets := n; TOTPPending := TOTPPending r; r_Settings := r_Settings r; SubLinks := SubLinks r |}
  else if String.eqb c.2 "totp_pending_enc" then {| r_Profiles := r_Profiles r; r_Keys := r_Keys r; TOTPSecrets := TOTPSecrets r; TOTPPending := n; r_Settings := r_Settings r; SubLinks := SubLinks r |}
  else if String.eqb c.1 "subscription_tokens" then {| r_Profiles := r_Profiles r; r_Keys := r_Keys r; TOTPSecrets := TOTPSecrets r; TOTPPending := TOTPPending r; r_Settings := r_Settings r; SubLinks := n |}
  else r.
Definition with_settings (r : Report) (n : Z) : Report :=
  {| r_Profiles := r_Profiles r; r_Keys := r_Keys r; TOTPSecrets := TOTPSecrets r; TOTPPending := TOTPPending r; r_Settings := n; SubLinks := SubLinks r |}.

(** ** The transaction *)

Inductive commit_outcome := Committed | Refused (e : error) | AnswerLost (e : error).

(** The n-th statement or reading of the random source. *)
Record rotation_env := { stmt_fault : nat -> option error; rand_read : nat -> result string; commit : commit_outcome }.

(** [io.ReadFull] fills the nonce or fails. *)
Definition reads_nonces (e : rotation_env) : Prop := forall n s, rand_read e n = Ok s -> String.length s = NonceSize.

Record rotating := { rows_ : Secrets; ticks : nat }.

Definition Tx (A : Type) : Type := rotation_env -> rotating -> result (A * rotating).
#[export] Instance tx_ret : MRet Tx := fun A a e s => Ok (a, s).
#[export] Instance tx_bind : MBind Tx := fun A B k m e s => match m e s with Ok (a, s) => k a e s | Err e => Err e end.

Definition lift {A} (r : result A) : Tx A := fun e s => let? a := r in Ok (a, s).
Definition about {A} (what : string) (m : Tx A) : Tx A := fun e s => match m e s with Err x => Err (what +:+ x) | ok => ok end.
Definition ticked (s : rotating) : rotating := {| rows_ := rows_ s; ticks := S (ticks s) |}.
Definition statement {A} (f : Secrets -> A * Secrets) : Tx A :=
  fun e s => match stmt_fault e (ticks s) with
             | Some x => Err x
             | None => let '(a, r) := f (rows_ s) in Ok (a, {| rows_ := r; ticks := S (ticks s) |})
             end.
Definition random_nonce : Tx string := fun e s => let? n := rand_read e (ticks s) in Ok (n, ticked s).

Definition col (s : Secrets) (c : encColumn) : gmap string string := default ∅ (blobs s !! c).
Definition put (c : encColumn) (id v : string) (s : Secrets) : Secrets :=
  {| blobs := <[c := alter (fun _ => v) id (col s c)]> (blobs s); telegram := telegram s |}.
Definition named (c : encColumn) : string := c.1 +:+ "." +:+ c.2.

Section Rotation.
Context `{Aead} `{MapOrder} `{FloatText}.

Definition selectRows (c : encColumn) : Tx (list (string * string)) :=
  about (named c +:+ ": ") (statement (fun s => (range_order (map_to_list (col s c)), s))).

Definition reencrypt (from to : Box) (blob : string) : Tx string :=
  plain ← about "decrypt: " (lift (Decrypt from blob));
  newBlob ← about "encrypt: " (nonce ← random_nonce; lift (Encrypt to nonce plain));
  verify ← about "verify: " (lift (Decrypt to newBlob));
  if String.eqb verify plain then mret newBlob
  else lift (Err "verify: re-encrypted blob does not decrypt back to the original plaintext").

Definition rotateRow (from to : Box) (c : encColumn) (row : string * string) (count : Z) : Tx Z :=
  if Version row.2 =? current to then mret count
  else
    newBlob ← about (named c +:+ " id=" +:+ row.1 +:+ ": ") (reencrypt from to row.2);
    _ ← about (named c +:+ " id=" +:+ row.1 +:+ ": update: ") (statement (fun s => (tt, put c row.1 newBlob s)));
    mret (count + 1).

Fixpoint rotateRows (from to : Box) (c : encColumn) (l : list (string * string)) (count : Z) : Tx Z :=
  match l with
  | [] => mret count
  | row :: l => count ← rotateRow from to c row count; rotateRows from to c l count
  end.

Definition rotateColumn (from to : Box) (c : encColumn) : Tx Z :=
  rows ← selectRows c; rotateRows from to c rows 0.

(** Every number is one a float64 holds. *)
Fixpoint floats (j : json) : bool :=
  match j with
  | JNumber t => match float_text t with Some _ => true | None => false end
  | JArray l => forallb floats l
  | JObject o => forallb (fun kv => floats kv.2) o
  | _ => true
  end.

(** [json.Unmarshal] into a [map[string]any]: null is the nil map. *)
Definition decode_map (v : json) : result object :=
  match v with
  | JObject o => if floats v then Ok o else Err "json: cannot unmarshal number into Go value of type float64"
  | JNull => Ok []
  | _ => Err "json: cannot unmarshal into Go value of type map[string]interface {}"
  end.

Definition enc_text (o : object) : string := match member o "bot_token_enc" with Some (JString s) => s | _ => EmptyString end.

(** What a decoded value is marshalled as; jsonb orders the keys itself. *)
Fixpoint through_any (j : json) : json :=
  match j with
  | JNumber t => JNumber (default t (float_text t))
  | JArray l => JArray (map through_any l)
  | JObject o => JObject (map (fun kv => (kv.1, through_any kv.2)) o)
  | j => j
  end.

Definition with_token (v : string) (o : object) : object :=
  map (fun kv => (kv.1, if String.eqb kv.1 "bot_token_enc" then JString v else through_any kv.2)) o.

Definition telegramAlertsBlob (s : Secrets) : result (option string) :=
  match telegram s with
  | None => Ok None
  | Some raw =>
      match decode_map raw with
      | Err e => Err ("settings.telegram_alerts: " +:+ e)
      | Ok o =>
          if String.eqb (enc_text o) EmptyString then Ok None
          else match Std64.DecodeString (enc_text o) with
               | Some blob => Ok (Some blob)
               | None => Err "settings.telegram_alerts.bot_token_enc: invalid base64"
               end
      end
  end.

Definition rotateTelegramAlerts (from to : Box) : Tx Z :=
  s ← about "settings.telegram_alerts: " (statement (fun s => (s, s)));
  blob ← lift (telegramAlertsBlob s);
  match telegram s, blob with
  | Some raw, Some blob =>
      if Version blob =? current to then mret 0
      else
        newBlob ← about "settings.telegram_alerts.bot_token_enc: " (reencrypt from to blob);
        o ← lift (decode_map raw);
        _ ← about "settings.telegram_alerts: update: "
          (statement (fun s => (tt, {| blobs := blobs s; telegram := Some (JObject (with_token (Std64.EncodeToString newBlob) o)) |})));
        mret 1
  | _, _ => mret 0
  end.

Fixpoint rotateColumns (from to : Box) (l : list encColumn) (r : Report) : Tx Report :=
  match l with
  | [] => mret r
  | c :: l => n ← rotateColumn from to c; rotateColumns from to l (reported c n r)
  end.

Definition rotation (from to : Box) : Tx Report :=
  _ ← statement (fun s => (tt, s));
  r ← rotateColumns from to rotatableColumns no_report;
  n ← rotateTelegramAlerts from to;
  mret (with_settings r n).

(** What is left of an error is the roll-back. *)
Definition Rotate (e : rotation_env) (from to : Box) (db : Secrets) : result Report * Secrets :=
  match rotation from to e {| rows_ := db; ticks := 0 |} with
  | Err x => (Err x, db)
  | Ok (r, s) =>
      match commit e with
      | Committed => (Ok r, rows_ s)
      | Refused x => (Err x, db)
      | AnswerLost x => (Err x, rows_ s)
      end
  end.

Definition pending (to : Box) (c : encColumn) (db : Secrets) : Z :=
  Z.of_nat (length (List.filter (fun kv => negb (Version kv.2 =? current to)) (map_to_list (col db c)))).

(** [CountPending], when its reads come through. *)
Definition CountPending (to : Box) (db : Secrets) : result Report :=
  let r := foldl (fun r c => reported c (pending to c db) r) no_report rotatableColumns in
  let? blob := telegramAlertsBlob db in
  Ok (match blob with Some b => if Version b =? current to then r else with_settings r 1 | None => r end).

End Rotation.

(** ** The keys of the environment *)

Definition key32 (b64 : string) : result string :=
  if String.eqb b64 EmptyString then Err "required (base64 of 32 random bytes)"
  else match Std64.DecodeString b64 with
       | None => Err "must be standard base64"
       | Some raw => if negb (String.length raw =? 32)%nat then Err ("must decode to 32 bytes, got " +:+ Dec.itoa (Z.of_nat (String.length raw))) else Ok raw
       end.

Record Config := { MasterKey : string; SessionSecret : string; MasterKeyVersion : Z; OldMasterKeys : gmap Z string }.

Section Environment.
Context (getenv : string -> string).

Definition get (k def : string) : string := let v := Str.trim_space (getenv k) in if String.eqb v EmptyString then def else v.

Definition old_key_name (v : Z) : string := "MASTER_KEY_V" +:+ Dec.itoa v.

Definition load_old (r : result (gmap Z string)) (v : Z) : result (gmap Z string) :=
  let? m := r in
  let raw := getenv (old_key_name v) in
  if String.eqb raw EmptyString then Ok m
  else match key32 raw with Ok k => Ok (<[v := k]> m) | Err e => Err (old_key_name v +:+ ": " +:+ e) end.

(** The part of [Load] that reads the keys. *)
Definition LoadKeys : result Config :=
  match key32 (get "MASTER_KEY" EmptyString) with
  | Err e => Err ("MASTER_KEY: " +:+ e)
  | Ok k =>
      match key32 (get "SESSION_SECRET" EmptyString) with
      | Err e => Err ("SESSION_SECRET: " +:+ e)
      | Ok secret =>
          match Dec.atoi (get "MASTER_KEY_VERSION" "1") with
          | None => Err "MASTER_KEY_VERSION must be a positive integer"
          | Some v =>
              if v <? 1 then Err "MASTER_KEY_VERSION must be a positive integer"
              else let? old := foldl load_old (Ok ∅) (seqZ 1 (v - 1)) in
                   Ok {| MasterKey := k; SessionSecret := secret; MasterKeyVersion := v; OldMasterKeys := old |}
          end
      end
  end.

End Environment.

Definition masterKeys (cfg : Config) : gmap Z string := <[MasterKeyVersion cfg := MasterKey cfg]> (OldMasterKeys cfg).

Inductive printed := PendingRows (r : Report) | ReEncrypted (r : Report).

Section Command.
Context `{Aead} `{MapOrder} `{FloatText}.

(** The box of the panel, in [serve]. *)
Definition panel_box (cfg : Config) : result Box := NewBox (MasterKeyVersion cfg) (masterKeys cfg).

Definition keysUsage : error := "usage: panel keys rotate [--dry-run]".

(** [lock]: why the lock of the panel could not be had. *)
Definition keysRotate (e : rotation_env) (cfg : Config) (getenv : string -> string) (args : list string) (lock : option error) (db : Secrets) : result printed * Secrets :=
  if negb (forallb (String.eqb "--dry-run") args) then (Err keysUsage, db)
  else match lock with
  | Some x => (Err x, db)
  | None =>
      let newKeyB64 := Str.trim_space (getenv "MASTER_KEY_NEW") in
      if String.eqb newKeyB64 EmptyString then (Err "MASTER_KEY_NEW is required (base64 of 32 random bytes; generate with: openssl rand -base64 32)", db)
      else match Std64.DecodeString newKeyB64 with
      | None => (Err "MASTER_KEY_NEW must be standard base64", db)
      | Some newKey =>
          if negb (String.length newKey =? 32)%nat then (Err ("MASTER_KEY_NEW must decode to 32 bytes, got " +:+ Dec.itoa (Z.of_nat (String.length newKey))), db)
          else if String.eqb newKey (MasterKey cfg) then (Err "MASTER_KEY_NEW must not equal the current MASTER_KEY - rotation would encrypt every row under a new version number but the same key material, which is pointless and likely means the wrong env var was set", db)
          else
            let newVersion := MasterKeyVersion cfg + 1 in
            match NewBox (MasterKeyVersion cfg) (masterKeys cfg) with
            | Err x => (Err x, db)
            | Ok from =>
                match NewBox newVersion (<[newVersion := newKey]> (masterKeys cfg)) with
                | Err x => (Err x, db)
                | Ok to =>
                    if negb (match args with [] => true | _ => false end) then
                      (let? r := CountPending to db in Ok (PendingRows r), db)
                    else
                      let '(r, db) := Rotate e from to db in
                      (let? r := r in Ok (ReEncrypted r), db)
                end
            end
      end
  end.

(** The environment after the lines the command prints were followed. *)
Definition edited (getenv : string -> string) (cfg : Config) (k : string) : string :=
  if String.eqb k "MASTER_KEY" then getenv "MASTER_KEY_NEW"
  else if String.eqb k "MASTER_KEY_VERSION" then Dec.itoa (MasterKeyVersion cfg + 1)
  else if String.eqb k (old_key_name (MasterKeyVersion cfg)) then Str.trim_space (getenv "MASTER_KEY")
  else getenv k.

End Command.

(** ** base64, there and back *)

(** Digits come in fours, with two or three at the end. *)
Lemma encode_length a s : exists k, String.length (encode a s) = (4 * k)%nat \/ String.length (encode a s) = (4 * k + 2)%nat \/ String.length (encode a s) = (4 * k + 3)%nat.
Proof.
  induction s as [|x|x y|x y z s (k & IH)] using string_ind3; cbn [encode String.length]; [exists O; by left|exists O; right; left; done|exists O; right; right; done|].
  exists (S k). lia.
Qed.

Lemma mod4 k r : (r < 4)%nat -> ((4 * k + r) mod 4 = r)%nat.
Proof. intros Hr. rewrite Nat.add_comm, Nat.mul_comm, Nat.Div0.mod_add. by apply Nat.mod_small. Qed.

Lemma suffix_append a b : Str.has_suffix (a +:+ b) b = true.
Proof.
  unfold Str.has_suffix. rewrite Str.length_append. replace (String.length a + String.length b - String.length b)%nat with (String.length a) by lia.
  rewrite Str.drop_length_append, String.eqb_refl, andb_true_r. apply Nat.leb_le. lia.
Qed.

Lemma trim_suffix_append a b : Str.trim_suffix (a +:+ b) b = a.
Proof.
  unfold Str.trim_suffix. rewrite suffix_append, Str.length_append. replace (String.length a + String.length b - String.length b)%nat with (String.length a) by lia.
  apply take_length_append.
Qed.

Lemma lines_append a b : without_line_ends (a +:+ b) = without_line_ends a +:+ without_line_ends b.
Proof. induction a as [|c a IH]; [done|]. rewrite Str.append_cons. cbn [without_line_ends]. destruct (_ || _); by rewrite IH. Qed.

(** A digit of the alphabet is no padding. *)
Lemma digit_no_pad v : 0 <= v < 64 -> digit std_alphabet v <> "="%char.
Proof.
  intros Hv E. assert (Hb : forallb (fun v => negb (Ascii.eqb (digit std_alphabet v) "=")) (seqZ 0 64) = true) by by vm_compute.
  rewrite forallb_forall in Hb. assert (Hin : v ∈ seqZ 0 64) by (apply elem_of_seqZ; lia). apply list_elem_of_In, Hb in Hin. by rewrite E in Hin.
Qed.

Lemma pad_suffix s : Str.has_suffix s "=" = true -> Str.index_byte s "=" <> None.
Proof.
  unfold Str.has_suffix. intros [_ Hs]%andb_true_iff. apply String.eqb_eq in Hs. intros Hn. revert Hs Hn. generalize (String.length s - String.length "=")%nat as n.
  induction s as [|c s IH]; intros [|n]; cbn [Str.drop]; try done.
  - intros [= -> ->]. done.
  - intros Hs. cbn. destruct (Ascii.eqb c "="); [done|]. destruct (Str.index_byte s "=") eqn:E; [done|]. intros _. by apply (IH n).
Qed.

Lemma suffix_two s : Str.has_suffix s "==" = true -> Str.has_suffix s "=" = true.
Proof.
  unfold Str.has_suffix. cbn [String.length]. intros [Hl%Nat.leb_le Hs%String.eqb_eq]%andb_true_iff. apply andb_true_iff. split; [apply Nat.leb_le; lia|].
  assert (Hd : forall n t, Str.drop (S n) t = Str.drop 1 (Str.drop n t)).
  { induction n as [|n IH]; intros [|c t]; try done. cbn [Str.drop]. apply IH. }
  replace (String.length s - 1)%nat with (S (String.length s - 2)) by lia. by rewrite Hd, Hs.
Qed.

Lemma std64_back s : Std64.DecodeString (Std64.EncodeToString s) = Some s.
Proof.
  unfold Std64.DecodeString, Std64.EncodeToString, RawStd.EncodeToString. cbv zeta. set (e := encode std_alphabet s).
  assert (Hp : forall n, without_line_ends (Std64.padding n) = Std64.padding n) by (intros n; unfold Std64.padding; by destruct (n mod 4)%nat as [|[|[|[|]]]]).
  assert (He : without_line_ends e = e) by apply encode_lines, std_sound. rewrite lines_append, Hp, He.
  assert (Hfree : Str.index_byte e "=" = None) by (apply encode_free; intros v Hv; by apply digit_no_pad).
  assert (Hq : quanta std_alphabet false e = Some s) by apply quanta_encode, std_sound.
  destruct (encode_length std_alphabet s) as (k & [El|[El|El]]); fold e in El; unfold Std64.padding; rewrite El.
  - replace (4 * k)%nat with (4 * k + 0)%nat by lia. rewrite mod4 by lia. rewrite Str.append_nil_r, El. replace (4 * k)%nat with (4 * k + 0)%nat by lia. rewrite mod4 by lia. cbn [negb Nat.eqb].
    assert (H1 : Str.has_suffix e "=" = false) by (apply not_true_iff_false; by intros ?%pad_suffix).
    assert (H2 : Str.has_suffix e "==" = false) by (apply not_true_iff_false; intros ?%suffix_two; congruence). rewrite H2.
    unfold Str.trim_suffix. by rewrite H1.
  - rewrite mod4 by lia. rewrite Str.length_append, El. replace (4 * k + 2 + String.length "==")%nat with (4 * S k + 0)%nat by (cbn; lia). rewrite mod4 by lia. cbn [negb Nat.eqb].
    by rewrite suffix_append, trim_suffix_append.
  - rewrite mod4 by lia. rewrite Str.length_append, El. replace (4 * k + 3 + String.length "=")%nat with (4 * S k + 0)%nat by (cbn; lia). rewrite mod4 by lia. cbn [negb Nat.eqb].
    assert (H2 : Str.has_suffix (e +:+ "=") "==" = false); [|by rewrite H2, trim_suffix_append].
    apply not_true_iff_false. unfold Str.has_suffix. rewrite Str.length_append, El. cbn [String.length]. intros [_ Hs%String.eqb_eq]%andb_true_iff.
    replace (4 * k + 3 + 1 - 2)%nat with (String.length e - 1)%nat in Hs by lia.
    assert (Hd : forall t n, Str.index_byte t "=" = None -> (n < String.length t)%nat -> Str.drop n (t +:+ "=") <> "==").
    { induction t as [|c t IH]; intros n Hn Hlt; cbn in Hlt; [lia|]. cbn in Hn. destruct (Ascii.eqb c "=") eqn:Ec; [done|]. destruct (Str.index_byte t "=") eqn:Et; [done|].
      rewrite Str.append_cons. destruct n as [|n]; cbn [Str.drop]; [intros [= -> _]; done|]. apply IH; [done|lia]. }
    apply (Hd e (String.length e - 1)%nat); [done|lia|done].
Qed.

(** ** What a rotation does to a value *)

Section Sealing.
Context `{Aead} `{MapOrder} `{FloatText}.
Context (from to : Box).

(** The value is at the current version of the new box: it was, or it reads
    there as it read before. *)
Definition resealed (v v' : string) : Prop :=
  Version v' = current to /\ (v' = v \/ exists p, Decrypt from v = Ok p /\ Decrypt to v' = Ok p).

Lemma tx_bind_Ok {A B} (m : Tx A) (k : A -> Tx B) e s b s2 : (m ≫= k) e s = Ok (b, s2) -> exists a s1, m e s = Ok (a, s1) /\ k a e s1 = Ok (b, s2).
Proof. unfold mbind, tx_bind. destruct (m e s) as [[a s1]|]; [|done]. intros Hk. by exists a, s1. Qed.

Lemma about_Ok {A} what (m : Tx A) e s b s2 : about what m e s = Ok (b, s2) -> m e s = Ok (b, s2).
Proof. unfold about. by destruct (m e s) as [[a s1]|]. Qed.

Lemma lift_Ok {A} (r : result A) e s a s2 : lift r e s = Ok (a, s2) -> r = Ok a /\ s2 = s.
Proof. unfold lift. destruct r; cbn; [|done]. by intros [= <- <-]. Qed.

Lemma statement_Ok {A} (f : Secrets -> A * Secrets) e s a s2 : statement f e s = Ok (a, s2) -> f (rows_ s) = (a, rows_ s2).
Proof. unfold statement. destruct (stmt_fault e (ticks s)); [done|]. destruct (f (rows_ s)) as [x r]. by intros [= <- <-]. Qed.

Lemma nonce_Ok e s a s2 : random_nonce e s = Ok (a, s2) -> rows_ s2 = rows_ s.
Proof. unfold random_nonce. destruct (rand_read e (ticks s)); cbn; [|done]. by intros [= _ <-]. Qed.

Lemma uint16_back v rest : 0 <= v < 65536 -> Version (PutUint16 v +:+ rest) = v.
Proof.
  intros Hv. unfold PutUint16. rewrite !Str.append_cons. cbn [Version]. unfold byte_of, of_byte. rewrite !nat_ascii_embedding by (Z.to_euclidean_division_equations; lia).
  Z.to_euclidean_division_equations; lia.
Qed.

Lemma Encrypt_version b n p v : 1 <= current b <= maxKeyVersion -> Encrypt b n p = Ok v -> Version v = current b.
Proof. unfold Encrypt, maxKeyVersion. intros Hb. destruct (aeads b !! current b); [|done]. intros [= <-]. apply uint16_back. lia. Qed.

Lemma reencrypt_Ok e s v v' s' : 1 <= current to <= maxKeyVersion -> reencrypt from to v e s = Ok (v', s') -> resealed v v' /\ rows_ s' = rows_ s.
Proof.
  intros Hb Hr. apply tx_bind_Ok in Hr as (p & s1 & Hp & Hr). apply about_Ok, lift_Ok in Hp as [Hp ->].
  apply tx_bind_Ok in Hr as (nb & s2 & Hn & Hr). apply about_Ok, tx_bind_Ok in Hn as (n & s3 & Hn & He). apply nonce_Ok in Hn. apply lift_Ok in He as [He ->].
  apply tx_bind_Ok in Hr as (q & s4 & Hq & Hr). apply about_Ok, lift_Ok in Hq as [Hq ->]. destruct (String.eqb q p) eqn:E; [|by apply lift_Ok in Hr as [? _]].
  apply String.eqb_eq in E as ->. injection Hr as <- <-. split; [|done]. split; [by eapply Encrypt_version|]. right. by exists p.
Qed.

Lemma col_put c id v s c' : col (put c id v s) c' = if decide (c' = c) then alter (fun _ => v) id (col s c) else col s c'.
Proof. unfold put, col. cbn. destruct (decide (c' = c)) as [->|Hne]; [by rewrite lookup_insert_eq|by rewrite lookup_insert_ne]. Qed.

(** Rows [l] of a column done, the rest as before. *)
Record rows_done (c : encColumn) (l : list (string * string)) (s s' : Secrets) : Prop := {
  done_rest : forall c', c' <> c -> col s' c' = col s c';
  done_telegram : telegram s' = telegram s;
  done_others : forall id, id ∉ fst <$> l -> col s' c !! id = col s c !! id;
  done_rows : forall id v, (id, v) ∈ l -> exists v', col s' c !! id = Some v' /\ resealed v v'
}.

Lemma rotateRow_Ok c id v n e s m s' : 1 <= current to <= maxKeyVersion -> col (rows_ s) c !! id = Some v ->
  rotateRow from to c (id, v) n e s = Ok (m, s') -> rows_done c [(id, v)] (rows_ s) (rows_ s').
Proof.
  intros Hb Hv Hr. unfold rotateRow in Hr. cbn [snd fst] in Hr. destruct (Z.eqb_spec (Version v) (current to)) as [E|E].
  - injection Hr as _ <-. split; try done. intros id' v' [= -> ->]%list_elem_of_singleton. exists v. split; [done|]. split; [done|by left].
  - apply tx_bind_Ok in Hr as (nb & s1 & Hn & Hr). apply about_Ok, reencrypt_Ok in Hn as [Hn Hs]; [|done].
    apply tx_bind_Ok in Hr as ([] & s2 & Hu & Hr). apply about_Ok, statement_Ok in Hu. injection Hr as _ <-. rewrite Hs in Hu. injection Hu as <-. split.
    + intros c' Hne. rewrite col_put. by rewrite decide_False.
    + done.
    + intros id' Hid. rewrite col_put, decide_True by done. apply lookup_alter_ne. intros ->. apply Hid. cbn. by left.
    + intros id' v' [= -> ->]%list_elem_of_singleton. exists nb. split; [|done]. by rewrite col_put, decide_True, lookup_alter_eq, Hv by done.
Qed.

Lemma rotateRows_Ok c l n e s m s' : 1 <= current to <= maxKeyVersion -> NoDup (fst <$> l) -> (forall id v, (id, v) ∈ l -> col (rows_ s) c !! id = Some v) ->
  rotateRows from to c l n e s = Ok (m, s') -> rows_done c l (rows_ s) (rows_ s').
Proof.
  intros Hb. revert n s. induction l as [|[id v] l IH]; intros n s Hnd Hv Hr; cbn [rotateRows] in Hr.
  - injection Hr as _ <-. split; try done. by intros id v ?%elem_of_nil.
  - apply NoDup_cons in Hnd as [Hnot Hnd]. apply tx_bind_Ok in Hr as (k & s1 & Hrow & Hr).
    apply rotateRow_Ok in Hrow as [R1 T1 O1 D1]; [|done|apply Hv; by left]. apply IH in Hr as [R2 T2 O2 D2]; [|done|].
    + split.
      * intros c' Hne. by rewrite R2, R1.
      * by rewrite T2.
      * intros id' [Hne Hid]%not_elem_of_cons. rewrite O2 by done. apply O1. by intros ->%list_elem_of_singleton.
      * intros id' v' [[= -> ->]|Hin]%elem_of_cons; [|by apply D2]. destruct (D1 id v) as (v' & Hv' & Hs); [by left|].
        exists v'. by rewrite O2.
    + intros id' v' Hin. rewrite O1; [by apply Hv; right|]. intros ->%list_elem_of_singleton. apply Hnot. apply list_elem_of_fmap. by exists (id, v').
Qed.

(** A column done, every other as before. *)
Definition column_done (c : encColumn) (s s' : Secrets) : Prop := forall id, option_Forall2 resealed (col s c !! id) (col s' c !! id).

Lemma rotateColumn_Ok c e s m s' : 1 <= current to <= maxKeyVersion -> rotateColumn from to c e s = Ok (m, s') ->
  column_done c (rows_ s) (rows_ s') /\ (forall c', c' <> c -> col (rows_ s') c' = col (rows_ s) c') /\ telegram (rows_ s') = telegram (rows_ s).
Proof.
  intros Hb Hr. apply tx_bind_Ok in Hr as (l & s1 & Hl & Hr). apply about_Ok, statement_Ok in Hl. injection Hl as El Es.
  assert (Hperm : l ≡ₚ map_to_list (col (rows_ s) c)) by (rewrite <- El; apply range_order_perm).
  assert (Hval : forall id v, (id, v) ∈ l -> col (rows_ s1) c !! id = Some v) by (intros id v; rewrite Hperm, <- Es; by intros ?%elem_of_map_to_list).
  apply rotateRows_Ok in Hr as [R T O D]; [rewrite <- Es in *|done|rewrite Hperm; apply NoDup_fst_map_to_list|done].
  split_and!; [|done|done]. intros id. destruct (col (rows_ s) c !! id) as [v|] eqn:Ev.
  - destruct (D id v) as (v' & -> & Hs); [rewrite Hperm; by apply elem_of_map_to_list|]. by constructor.
  - rewrite O, Ev; [constructor|]. rewrite Hperm. intros ([i v] & -> & Hin)%list_elem_of_fmap. apply elem_of_map_to_list in Hin. cbn in Ev. congruence.
Qed.

Lemma rotateColumns_Ok l r e s r' s' : 1 <= current to <= maxKeyVersion -> NoDup l -> rotateColumns from to l r e s = Ok (r', s') ->
  (forall c, c ∈ l -> column_done c (rows_ s) (rows_ s')) /\ (forall c, c ∉ l -> col (rows_ s') c = col (rows_ s) c) /\ telegram (rows_ s') = telegram (rows_ s).
Proof.
  intros Hb. revert r s. induction l as [|c l IH]; intros r s Hnd Hr; cbn [rotateColumns] in Hr.
  - injection Hr as _ <-. split_and!; [by intros c ?%elem_of_nil|done|done].
  - apply NoDup_cons in Hnd as [Hnot Hnd]. apply tx_bind_Ok in Hr as (n & s1 & Hcol & Hr). apply rotateColumn_Ok in Hcol as (D1 & R1 & T1); [|done].
    apply IH in Hr as (D2 & R2 & T2); [|done]. split_and!.
    + intros c' [->|Hin]%elem_of_cons; [intros id; rewrite R2 by done; apply D1|]. intros id. rewrite <- R1 by (intros ->; done). by apply D2.
    + intros c' [Hne Hin]%not_elem_of_cons. by rewrite R2, R1.
    + by rewrite T2.
Qed.

(** *** The bot token *)

Definition token_done (s s' : Secrets) : Prop :=
  match telegramAlertsBlob s with
  | Ok (Some v) => exists v', telegramAlertsBlob s' = Ok (Some v') /\ resealed v v'
  | Ok None => telegram s' = telegram s
  | Err _ => False
  end.

Lemma member_token v o : member o "bot_token_enc" <> None -> member (with_token v o) "bot_token_enc" = Some (JString v).
Proof.
  induction o as [|[k j] o IH]; [done|]. cbn [member with_token map fst snd]. rewrite (String.eqb_sym k). destruct (String.eqb "bot_token_enc" k); [done|]. exact IH.
Qed.

Fixpoint floats_again (j : json) : floats j = true -> floats (through_any j) = true.
Proof.
  destruct j as [| |t| |l|o]; cbn; try done.
  - destruct (float_text t) as [u|] eqn:E; [|done]. cbn. by rewrite (float_text_again _ _ E).
  - induction l as [|j l IH]; [done|]. cbn. intros [Hj Hl]%andb_true_iff. by rewrite (floats_again j Hj), IH.
  - induction o as [|[k j] o IH]; [done|]. cbn. intros [Hj Hl]%andb_true_iff. by rewrite (floats_again j Hj), IH.
Qed.

Lemma decode_token v raw o : decode_map raw = Ok o -> decode_map (JObject (with_token v o)) = Ok (with_token v o).
Proof.
  intros Hd. assert (Ho : forallb (fun kv => floats kv.2) o = true).
  { destruct raw; try done; [by injection Hd as <-|]. cbn in Hd. destruct (forallb _ _) eqn:E; [|done]. by injection Hd as <-. }
  unfold decode_map. change (floats (JObject (with_token v o))) with (forallb (fun kv => floats kv.2) (with_token v o)).
  assert (forallb (fun kv => floats kv.2) (with_token v o) = true) as ->; [|done].
  clear Hd. induction o as [|[k j] o IH]; [done|]. cbn [forallb snd] in Ho. apply andb_true_iff in Ho as [Hj Ho].
  change (with_token v ((k, j) :: o)) with ((k, if String.eqb k "bot_token_enc" then JString v else through_any j) :: with_token v o).
  cbn [forallb snd]. rewrite (IH Ho), andb_true_r. destruct (String.eqb k _); [done|]. by apply floats_again.
Qed.

Lemma enc_nonempty v : Version v <> 0 -> Std64.EncodeToString v <> EmptyString.
Proof. intros Hv E. pose proof (std64_back v) as Hb. rewrite E in Hb. cbn in Hb. injection Hb as <-. done. Qed.

Lemma rotateTelegram_Ok e s n s' : 1 <= current to <= maxKeyVersion -> rotateTelegramAlerts from to e s = Ok (n, s') ->
  token_done (rows_ s) (rows_ s') /\ blobs (rows_ s') = blobs (rows_ s).
Proof.
  intros Hb Hr. apply tx_bind_Ok in Hr as (s0 & s1 & Hl & Hr). apply about_Ok, statement_Ok in Hl. injection Hl as E0 E1. subst s0.
  apply tx_bind_Ok in Hr as (blob & s2 & Hbl & Hr). apply lift_Ok in Hbl as [Hbl ->]. unfold token_done. rewrite Hbl.
  destruct (telegram (rows_ s)) as [raw|] eqn:Et; [destruct blob as [v|]|]; [|injection Hr as _ <-; by rewrite <- E1|].
  - destruct (Z.eqb_spec (Version v) (current to)) as [Ev|Ev].
    + injection Hr as _ <-. rewrite <- E1. split; [|done]. exists v. split; [done|]. split; [done|by left].
    + apply tx_bind_Ok in Hr as (nb & s3 & Hn & Hr). apply about_Ok, reencrypt_Ok in Hn as [Hn Hs]; [|done].
      apply tx_bind_Ok in Hr as (o & s4 & Ho & Hr). apply lift_Ok in Ho as [Ho ->]. apply tx_bind_Ok in Hr as ([] & s5 & Hu & Hr).
      apply about_Ok, statement_Ok in Hu. injection Hr as _ <-. rewrite Hs, <- E1 in Hu. injection Hu as <-. split; [|done].
      exists nb. split; [|done]. unfold telegramAlertsBlob. cbn [telegram]. rewrite (decode_token _ _ _ Ho). unfold telegramAlertsBlob in Hbl. rewrite Et, Ho in Hbl.
      assert (Hmem : enc_text (with_token (Std64.EncodeToString nb) o) = Std64.EncodeToString nb).
      { unfold enc_text. rewrite member_token; [done|]. intros Hm. unfold enc_text in Hbl. by rewrite Hm in Hbl. }
      assert (Hne : String.eqb (Std64.EncodeToString nb) EmptyString = false).
      { apply String.eqb_neq, enc_nonempty. destruct Hn as [-> _]. lia. }
      by rewrite Hmem, Hne, std64_back.
  - unfold telegramAlertsBlob in Hbl. rewrite Et in Hbl. injection Hbl as <-. injection Hr as _ <-. by rewrite <- E1.
Qed.

(** *** The whole transaction *)

(** Every stored value is at the new version, and what is no sealed value of
    the panel is as it was. *)
Record rotated (s s' : Secrets) : Prop := {
  columns_rotated : forall c, c ∈ rotatableColumns -> column_done c s s';
  token_rotated : token_done s s';
  others_kept : forall c, c ∉ rotatableColumns -> col s' c = col s c
}.

Lemma col_blobs (s s' : Secrets) c : blobs s' = blobs s -> col s' c = col s c.
Proof. unfold col. by intros ->. Qed.

Lemma token_telegram s1 s2 s' : telegram s1 = telegram s2 -> token_done s2 s' -> token_done s1 s'.
Proof. unfold token_done, telegramAlertsBlob. by intros ->. Qed.

Lemma rotation_Ok e s r s' : 1 <= current to <= maxKeyVersion -> rotation from to e s = Ok (r, s') -> rotated (rows_ s) (rows_ s').
Proof.
  intros Hb Hr. apply tx_bind_Ok in Hr as ([] & s1 & Hbegin & Hr). apply statement_Ok in Hbegin. injection Hbegin as E.
  apply tx_bind_Ok in Hr as (r1 & s2 & Hcols & Hr). apply rotateColumns_Ok in Hcols as (D & R & T); [|done|].
  - apply tx_bind_Ok in Hr as (n & s3 & Ht & Hr). apply rotateTelegram_Ok in Ht as [D3 E3]; [|done]. injection Hr as _ <-. rewrite <- E in *. split.
    + intros c Hc id. rewrite (col_blobs _ _ _ E3). by apply D.
    + by apply (token_telegram _ (rows_ s2)).
    + intros c Hc. by rewrite (col_blobs _ _ _ E3), R.
  - by apply (bool_decide_unpack _).
Qed.

Lemma Rotate_Ok e db r db' : 1 <= current to <= maxKeyVersion -> Rotate e from to db = (r, db') ->
  match r with Ok _ => rotated db db' | Err _ => db' = db \/ rotated db db' end.
Proof.
  intros Hb. unfold Rotate. destruct (rotation from to e _) as [[x s]|x] eqn:E; [|intros [= <- <-]; by left].
  apply rotation_Ok in E; [|done]. cbn in E. destruct (commit e); intros [= <- <-]; [done|by left|by right].
Qed.

Lemma pending_none c s s' : column_done c s s' -> pending to c s' = 0.
Proof.
  intros Hd. unfold pending. assert (List.filter (fun kv => negb (Version kv.2 =? current to)) (map_to_list (col s' c)) = []) as ->; [|done].
  assert (Hall : forall kv, kv ∈ map_to_list (col s' c) -> Version kv.2 = current to).
  { intros [id v] Hin%elem_of_map_to_list. specialize (Hd id). rewrite Hin in Hd. inversion Hd as [v0 v1 Hs|]; subst. by destruct Hs. }
  revert Hall. induction (map_to_list (col s' c)) as [|kv l IH]; intros Hall; [done|]. cbn [List.filter]. rewrite Hall by (by left). rewrite Z.eqb_refl. apply IH. intros kv' Hin. apply Hall. by right.
Qed.

Lemma nothing_pending s s' : rotated s s' -> CountPending to s' = Ok no_report.
Proof.
  intros [Hc Ht _]. unfold CountPending. cbn [foldl rotatableColumns].
  rewrite !(fun c Hin => pending_none c s s' (Hc c Hin)) by (apply (bool_decide_unpack _); by vm_compute).
  unfold token_done in Ht. destruct (telegramAlertsBlob s) as [[v|]|] eqn:E; [destruct Ht as (v' & -> & Hs & _)| |done].
  - cbn. by rewrite Hs, Z.eqb_refl.
  - assert (telegramAlertsBlob s' = Ok None) as ->; [|done]. unfold telegramAlertsBlob in *. by rewrite Ht.
Qed.

End Sealing.

(** ** The keys the panel starts with after the edit *)

Lemma trim_right_fix s : Str.trim_right (Str.trim_right s) = Str.trim_right s.
Proof.
  induction s as [|c s IH]; [done|]. cbn [Str.trim_right]. destruct (Str.trim_right s) as [|d t] eqn:E.
  - destruct (Str.is_space c) eqn:Ec; [done|]. cbn. by rewrite Ec.
  - cbn [Str.trim_right] in IH |- *. by rewrite IH.
Qed.

Lemma trim_left_right s : Str.trim_left s = s -> Str.trim_left (Str.trim_right s) = Str.trim_right s.
Proof.
  destruct s as [|c s]; [done|]. cbn [Str.trim_left Str.trim_right]. destruct (Str.is_space c) eqn:Ec.
  - intros E. exfalso. assert (Hl : forall t, (String.length (Str.trim_left t) <= String.length t)%nat).
    { induction t as [|d t IH]; [done|]. cbn. destruct (Str.is_space d); cbn; lia. }
    specialize (Hl s). rewrite E in Hl. cbn in Hl. lia.
  - intros _. destruct (Str.trim_right s); cbn; by rewrite Ec.
Qed.

Lemma trim_left_fix s : Str.trim_left (Str.trim_left s) = Str.trim_left s.
Proof. induction s as [|c s IH]; [done|]. cbn. destruct (Str.is_space c) eqn:Ec; [done|]. cbn. by rewrite Ec. Qed.

Lemma trim_space_fix s : Str.trim_space (Str.trim_space s) = Str.trim_space s.
Proof. unfold Str.trim_space. by rewrite (trim_left_right (Str.trim_left s) (trim_left_fix s)), trim_right_fix. Qed.

Lemma trim_number s : each_byte Json.is_number_char s -> Str.trim_space s = s.
Proof.
  intros Hs. assert (Hns : forall c, Json.is_number_char c = true -> Str.is_space c = false) by (intros c; destruct c as [[] [] [] [] [] [] [] []]; done).
  unfold Str.trim_space. assert (Str.trim_left s = s) as ->.
  { destruct s as [|c s]; [done|]. apply each_cons in Hs as [Hc _]. cbn. by rewrite Hns. }
  induction s as [|c s IH]; [done|]. apply each_cons in Hs as [Hc Hs]. cbn. rewrite IH by done. destruct s; [by rewrite Hns|done].
Qed.

Lemma itoa_inj a b : Dec.min_int64 <= a <= Dec.max_int64 -> Dec.min_int64 <= b <= Dec.max_int64 -> Dec.itoa a = Dec.itoa b -> a = b.
Proof. intros Ha Hb E. pose proof (Json.atoi_itoa a Ha) as Ea. rewrite E, Json.atoi_itoa in Ea by done. by injection Ea. Qed.

Lemma old_key_inj a b : 0 <= a <= maxKeyVersion -> 0 <= b <= maxKeyVersion -> old_key_name a = old_key_name b -> a = b.
Proof. unfold maxKeyVersion. intros Ha Hb E. injection E as E. apply itoa_inj in E; [done|unfold Dec.min_int64, Dec.max_int64; lia..]. Qed.

Lemma old_key_other v : old_key_name v <> "MASTER_KEY"%string /\ old_key_name v <> "MASTER_KEY_VERSION"%string.
Proof. split; [done|]. intros [= E]. change (Dec.itoa v = "ERSION"%string) in E. pose proof (itoa_bytes v) as Hb. by rewrite E in Hb. Qed.

Lemma load_old_err getenv e l : foldl (load_old getenv) (Err e) l = Err e.
Proof. by induction l. Qed.

Lemma load_old_same getenv getenv' l r : (forall v, v ∈ l -> getenv' (old_key_name v) = getenv (old_key_name v)) -> foldl (load_old getenv') r l = foldl (load_old getenv) r l.
Proof.
  revert r. induction l as [|v l IH]; intros r Hl; [done|]. cbn [foldl]. rewrite IH by (intros w Hw; apply Hl; by right).
  f_equal. unfold load_old. by rewrite (Hl v) by (by left).
Qed.

(** No version that was not asked for. *)
Lemma load_old_versions getenv l m m' v : foldl (load_old getenv) (Ok m) l = Ok m' -> is_Some (m' !! v) -> is_Some (m !! v) \/ v ∈ l.
Proof.
  revert m. induction l as [|w l IH]; intros m; cbn [foldl].
  - intros [= ->]. by left.
  - destruct (load_old getenv (Ok m) w) as [m1|] eqn:E; [|by rewrite load_old_err]. intros Hf Hv. destruct (IH _ Hf Hv) as [Hm|Hin]; [|right; by right].
    unfold load_old in E. cbn in E. destruct (String.eqb _ _); [injection E as ->; by left|]. destruct (key32 _); [|done]. injection E as <-.
    destruct (decide (v = w)) as [->|Hne]; [right; by left|]. rewrite lookup_insert_ne in Hm by done. by left.
Qed.

Lemma LoadKeys_Ok getenv cfg : LoadKeys getenv = Ok cfg ->
  key32 (get getenv "MASTER_KEY" EmptyString) = Ok (MasterKey cfg) /\ key32 (get getenv "SESSION_SECRET" EmptyString) = Ok (SessionSecret cfg) /\ 1 <= MasterKeyVersion cfg /\
  foldl (load_old getenv) (Ok ∅) (seqZ 1 (MasterKeyVersion cfg - 1)) = Ok (OldMasterKeys cfg).
Proof.
  unfold LoadKeys. destruct (key32 (get getenv "MASTER_KEY" EmptyString)) as [k|]; [|done]. destruct (key32 _) as [secret|]; [|done]. destruct (Dec.atoi _) as [v|]; [|done]. destruct (Z.ltb_spec v 1); [done|].
  destruct (foldl _ _ _) as [m|] eqn:E; [|done]. by intros [= <-].
Qed.

Lemma key32_nonempty raw k : key32 raw = Ok k -> String.eqb raw EmptyString = false /\ String.length k = 32%nat.
Proof.
  unfold key32. destruct (String.eqb raw EmptyString); [done|]. destruct (Std64.DecodeString raw) as [x|]; [|done]. destruct (Nat.eqb_spec (String.length x) 32); [|done].
  by intros [= <-].
Qed.

Lemma get_text getenv k : get getenv k EmptyString = Str.trim_space (getenv k).
Proof. unfold get. destruct (Str.trim_space (getenv k)) eqn:E; by rewrite ?E. Qed.

Lemma edited_key getenv cfg : edited getenv cfg "MASTER_KEY" = getenv "MASTER_KEY_NEW"%string.
Proof. done. Qed.

Lemma edited_version getenv cfg : edited getenv cfg "MASTER_KEY_VERSION" = Dec.itoa (MasterKeyVersion cfg + 1).
Proof. done. Qed.

Lemma edited_secret getenv cfg : edited getenv cfg "SESSION_SECRET" = getenv "SESSION_SECRET"%string.
Proof. done. Qed.

Lemma edited_old getenv cfg v : edited getenv cfg (old_key_name v) =
  if String.eqb (old_key_name v) (old_key_name (MasterKeyVersion cfg)) then Str.trim_space (getenv "MASTER_KEY"%string) else getenv (old_key_name v).
Proof.
  unfold edited. destruct (old_key_other v) as [H1 H2]. apply String.eqb_neq in H1, H2. by rewrite H1, H2.
Qed.

Lemma edited_loads getenv cfg newKey : LoadKeys getenv = Ok cfg -> MasterKeyVersion cfg < maxKeyVersion -> key32 (Str.trim_space (getenv "MASTER_KEY_NEW"%string)) = Ok newKey ->
  LoadKeys (edited getenv cfg) =
  Ok {| MasterKey := newKey; SessionSecret := SessionSecret cfg; MasterKeyVersion := MasterKeyVersion cfg + 1; OldMasterKeys := <[MasterKeyVersion cfg := MasterKey cfg]> (OldMasterKeys cfg) |}.
Proof.
  intros (Hk & Hsec & Hv & Hold)%LoadKeys_Ok Hmax Hnew. set (v := MasterKeyVersion cfg) in *. unfold maxKeyVersion in Hmax.
  unfold LoadKeys. rewrite !get_text, edited_key, Hnew, edited_secret. rewrite get_text in Hsec. rewrite Hsec. unfold get. rewrite edited_version, (trim_number _ (itoa_bytes _)). fold v. cbv zeta.
  assert (String.eqb (Dec.itoa (v + 1)) EmptyString = false) as ->.
  { apply String.eqb_neq. intros E. pose proof (Json.number_ok_itoa (v + 1)) as Hn. by rewrite E in Hn. }
  rewrite Json.atoi_itoa by (unfold Dec.min_int64, Dec.max_int64; lia). destruct (Z.ltb_spec (v + 1) 1); [lia|].
  replace (v + 1 - 1) with (v - 1 + 1) by lia. rewrite seqZ_app by lia. rewrite foldl_app, (load_old_same getenv _ (seqZ 1 (v - 1))), Hold.
  - replace (1 + (v - 1)) with v by lia. change (seqZ v 1) with [Z.of_nat 0 + v]. replace (Z.of_nat 0 + v) with v by lia. cbn [foldl]. unfold load_old at 1. cbn.
    rewrite edited_old. fold v. rewrite String.eqb_refl. rewrite get_text in Hk. destruct (key32_nonempty _ _ Hk) as [-> _]. by rewrite Hk.
  - intros w Hw%elem_of_seqZ. rewrite edited_old. destruct (String.eqb_spec (old_key_name w) (old_key_name (MasterKeyVersion cfg))) as [E|]; [|done].
    apply old_key_inj in E; unfold maxKeyVersion; fold v in E |- *; lia.
Qed.

(** ** The command *)

Section Kept.
Context `{Aead} `{MapOrder} `{FloatText}.

(** What the first box reads, the second reads. *)
Definition reads_alike (box box' : Box) (v v' : string) : Prop := forall p, Decrypt box v = Ok p -> Decrypt box' v' = Ok p.

Record secrets_kept (box box' : Box) (db db' : Secrets) : Prop := {
  kept_columns : forall c id, c ∈ rotatableColumns -> option_Forall2 (reads_alike box box') (col db c !! id) (col db' c !! id);
  kept_token : match telegramAlertsBlob db, telegramAlertsBlob db' with
               | Ok (Some v), Ok (Some v') => reads_alike box box' v v'
               | Ok None, Ok None => True
               | _, _ => False
               end;
  kept_others : forall c, c ∉ rotatableColumns -> col db' c = col db c
}.

(** The panel that starts on the edited environment reads every value, and
    none is left under an older key. *)
Definition moved (getenv : string -> string) (cfg : Config) (box : Box) (db db' : Secrets) : Prop :=
  exists cfg' box', LoadKeys (edited getenv cfg) = Ok cfg' /\ panel_box cfg' = Ok box' /\ secrets_kept box box' db db' /\ CountPending box' db' = Ok no_report.

Lemma NewBox_Ok cur keys b : NewBox cur keys = Ok b -> b = {| current := cur; aeads := keys |} /\ 1 <= cur <= maxKeyVersion.
Proof.
  unfold NewBox. destruct (Z.ltb_spec cur 1); [done|]. destruct (Z.gtb_spec cur maxKeyVersion); [done|]. cbn [orb].
  destruct (foldl _ _ _); [done|]. destruct (keys !! cur); [|done]. intros [= <-]. split; [done|lia].
Qed.

Lemma resealed_alike from to v v' : aeads from !! current to = None -> resealed from to v v' -> reads_alike from to v v'.
Proof.
  intros Hn [Hv [->|(p & Hp & Hp')]] q Hq; [|congruence]. unfold Decrypt in Hq. by rewrite Hv, Hn in Hq.
Qed.

Lemma rotated_kept from to db db' : aeads from !! current to = None -> rotated from to db db' -> secrets_kept from to db db'.
Proof.
  intros Hn [Hc Ht Ho]. split; [|..|done].
  - intros c id Hin. specialize (Hc c Hin id). inversion Hc; constructor. by apply resealed_alike.
  - unfold token_done in Ht. destruct (telegramAlertsBlob db) as [[v|]|] eqn:E; [destruct Ht as (v' & -> & Hs); by apply resealed_alike| |done].
    unfold telegramAlertsBlob in E |- *. rewrite Ht. by rewrite E.
Qed.

Lemma no_next_key getenv cfg : LoadKeys getenv = Ok cfg -> masterKeys cfg !! (MasterKeyVersion cfg + 1) = None.
Proof.
  intros (_ & _ & _ & Hold)%LoadKeys_Ok. unfold masterKeys. rewrite lookup_insert_ne by lia. apply eq_None_not_Some. intros Hs.
  destruct (load_old_versions _ _ _ _ _ Hold Hs) as [[? Hl]|Hin%elem_of_seqZ]; [by rewrite lookup_empty in Hl|lia].
Qed.

(** C6: [panel keys rotate] loses no secret: whatever fails on the way, a key
    that cannot be read, a statement, the random source, the commit or its
    answer, either the database is as it was, or the lines the command asks for
    give an environment the panel starts on, whose box reads every value the
    old one read to the same plaintext, in the five columns and in the setting
    of the bot token, with no value left under an older key.  When the command
    reports success the second is the case, and a dry run writes nothing. *)
Theorem rotation_keeps_secrets e cfg getenv args lock db r db' box :
  LoadKeys getenv = Ok cfg -> panel_box cfg = Ok box -> keysRotate e cfg getenv args lock db = (r, db') ->
  match r with
  | Ok (ReEncrypted _) => moved getenv cfg box db db'
  | Ok (PendingRows _) => db' = db
  | Err _ => db' = db \/ moved getenv cfg box db db'
  end.
Proof.
  intros Hload Hbox Hr. unfold panel_box in Hbox. unfold keysRotate in Hr. rewrite Hbox in Hr.
  destruct (negb (forallb _ args)); [injection Hr as <- <-; by left|]. destruct lock; [injection Hr as <- <-; by left|]. cbv zeta in Hr.
  destruct (String.eqb (Str.trim_space (getenv "MASTER_KEY_NEW"%string)) EmptyString) eqn:Ene; [injection Hr as <- <-; by left|].
  destruct (Std64.DecodeString _) as [newKey|] eqn:Edec; [|injection Hr as <- <-; by left].
  destruct (negb (String.length newKey =? 32)%nat) eqn:Elen; [injection Hr as <- <-; by left|].
  destruct (String.eqb newKey _); [injection Hr as <- <-; by left|].
  destruct (NewBox (MasterKeyVersion cfg + 1) _) as [to|] eqn:Eto; [|injection Hr as <- <-; by left].
  destruct args; cbn [negb] in Hr; [|by destruct (CountPending to db); injection Hr as <- <-; [|left]].
  destruct (Rotate e box to db) as [r0 db0] eqn:Erot. pose proof (NewBox_Ok _ _ _ Eto) as [Hto Hrange]. pose proof (NewBox_Ok _ _ _ Hbox) as [Hfrom _].
  assert (Hkey : key32 (Str.trim_space (getenv "MASTER_KEY_NEW"%string)) = Ok newKey) by (unfold key32; by rewrite Ene, Edec, Elen).
  assert (Hmoved : rotated box to db db0 -> moved getenv cfg box db db0).
  { intros Hrot. eexists _, to. split_and!; [apply (edited_loads getenv cfg newKey Hload); [lia|done]|exact Eto| |by eapply nothing_pending].
    apply rotated_kept; [|done]. rewrite Hfrom, Hto. by eapply no_next_key. }
  apply Rotate_Ok in Erot; [|by rewrite Hto]. destruct r0; injection Hr as <- <-; [by apply Hmoved|].
  destruct Erot as [Hsame|Hrot]; [by left|right; by apply Hmoved].
Qed.

End Kept.

(** ** Runs *)

Module Runs.

(** A stand-in for the cipher: the key and the version are checked, nothing
    is hidden. *)
Definition plain_open (k n c a : string) : option string :=
  if Str.has_prefix c (k +:+ a) then Some (Str.drop (String.length (k +:+ a)) c) else None.

#[local] Instance plain_aead : Aead.
Proof.
  refine {| Seal := fun k n p a => (k +:+ a) +:+ p; Open := plain_open |}.
  intros k n p a _ _. unfold plain_open. rewrite Str.has_prefix_append. by rewrite Str.drop_length_append.
Defined.
#[local] Instance order : MapOrder := written_order.
#[local] Instance plain_floats : FloatText := {| float_text := Some; float_text_again := fun _ _ _ => eq_refl |}.

Definition key_text (c : ascii) : string := Std64.EncodeToString (string_of_list_ascii (repeat c 32)).
Definition nonces (n : nat) : result string := Ok (string_of_list_ascii (repeat "n"%char NonceSize)).
Definition calm : rotation_env := {| stmt_fault := fun _ => None; rand_read := nonces; commit := Committed |}.
Definition lost : rotation_env := {| stmt_fault := fun _ => None; rand_read := nonces; commit := AnswerLost "conn closed" |}.
Definition broken : rotation_env := {| stmt_fault := fun n => if (n =? 8)%nat then Some "conn closed"%string else None; rand_read := nonces; commit := Committed |}.

(** Version 2, a blank at the ends of MASTER_KEY, the new key in MASTER_KEY_NEW. *)
Definition env_with (new : ascii) (k : string) : string :=
  if String.eqb k "MASTER_KEY" then " " +:+ key_text "b" +:+ " "
  else if String.eqb k "MASTER_KEY_VERSION" then "2"
  else if String.eqb k "MASTER_KEY_V1" then key_text "a"
  else if String.eqb k "MASTER_KEY_NEW" then key_text new
  else if String.eqb k "SESSION_SECRET" then key_text "s"
  else EmptyString.

Definition cfg_ex : Config :=
  {| MasterKey := string_of_list_ascii (repeat "b"%char 32); SessionSecret := string_of_list_ascii (repeat "s"%char 32); MasterKeyVersion := 2; OldMasterKeys := {[1 := string_of_list_ascii (repeat "a"%char 32)]} |}.
Definition box_ex : Box := {| current := 2; aeads := masterKeys cfg_ex |}.
Definition sealed (v : Z) (p : string) : string :=
  match Encrypt {| current := v; aeads := masterKeys cfg_ex |} (string_of_list_ascii (repeat "o"%char NonceSize)) p with Ok s => s | Err _ => EmptyString end.

(** A profile under version 2, two keys of which one is still under version 1,
    and the bot token. *)
Definition db_ex : Secrets := {|
  blobs := {[ ("profiles", "secret_enc")%string := {[ "p1"%string := sealed 2 "cert" ]};
              ("access_keys", "secret_enc")%string := {[ "k1"%string := sealed 1 "first"; "k2"%string := sealed 2 "second" ]} ]};
  telegram := Some (JObject [("enabled", JBool true); ("chat_id", JNumber "42"); ("bot_token_enc", JString (Std64.EncodeToString (sealed 2 "bot")))])
|}%string.

Definition reading (getenv : string -> string) (c : encColumn) (id : string) (db : Secrets) : result string :=
  let? cfg := LoadKeys getenv in
  let? box := panel_box cfg in
  match col db c !! id with Some v => Decrypt box v | None => Err "no row" end.

Definition after (r : result printed * Secrets) : Secrets := r.2.

Example keys_load : LoadKeys (env_with "c") = Ok cfg_ex /\ panel_box cfg_ex = Ok box_ex.
Proof. split; by vm_compute. Qed.

(** One statement fails: what was written before is back. *)
Example broken_undone : keysRotate broken cfg_ex (env_with "c") [] None db_ex = (Err "access_keys.secret_enc id=k2: update: conn closed"%string, db_ex).
Proof. by vm_compute. Qed.

Definition rotated_ex : result printed * Secrets := keysRotate calm cfg_ex (env_with "c") [] None db_ex.

Example rotated_report : rotated_ex.1 = Ok (ReEncrypted {| r_Profiles := 1; r_Keys := 2; TOTPSecrets := 0; TOTPPending := 0; r_Settings := 1; SubLinks := 0 |}).
Proof. by vm_compute. Qed.

Lemma rotation_keeps_secrets_witness :
  moved (env_with "c") cfg_ex box_ex db_ex (after rotated_ex) /\
  reading (edited (env_with "c") cfg_ex) ("access_keys", "secret_enc")%string "k1" (after rotated_ex) = Ok "first"%string.
Proof.
  split; [|by vm_compute].
  exact (rotation_keeps_secrets calm cfg_ex (env_with "c") [] None db_ex rotated_ex.1 rotated_ex.2 box_ex
    ltac:(by vm_compute) ltac:(by vm_compute) ltac:(by vm_compute)).
Defined.

(** The answer of the commit is lost: the command reports an error, every value
    is under the new key, and a second run with the same new key finds
    nothing left to do. *)
Definition lost_ex : result printed * Secrets := keysRotate lost cfg_ex (env_with "c") [] None db_ex.

Example lost_but_done :
  lost_ex.1 = Err "conn closed"%string /\
  reading (env_with "c") ("profiles", "secret_enc")%string "p1" (after lost_ex) = Err "unknown key version 3"%string /\
  keysRotate calm cfg_ex (env_with "c") [] None (after lost_ex) = (Ok (ReEncrypted no_report), after lost_ex).
Proof. split_and!; by vm_compute. Qed.

(** A second run with another new key finds nothing left to do either, and the
    environment it asks for reads nothing. *)
Example second_key_reads_nothing :
  let r := keysRotate calm cfg_ex (env_with "d") [] None (after lost_ex) in
  r = (Ok (ReEncrypted no_report), after lost_ex) /\
  reading (edited (env_with "d") cfg_ex) ("profiles", "secret_enc")%string "p1" (after r) = Err "cipher: message authentication failed"%string.
Proof. split; by vm_compute. Qed.

(** The old line copied with its blanks is no key to [Load]. *)
Example blank_refused :
  LoadKeys (fun k => if String.eqb k (old_key_name 2) then env_with "c" "MASTER_KEY" else edited (env_with "c") cfg_ex k) =
  Err "MASTER_KEY_V2: must be standard base64"%string.
Proof. by vm_compute. Qed.

End Runs.
