(* ===== verification/DecoyCheck.v ===== *)
(** * Checking that the website is served

    internal/agent/decoycheck.go and internal/agent/decoyassets.go: the
    website of a node is asked of telemt's private listener and of the public
    front, with every asset its index refers to, and an HTTP upstream is
    probed.

    A page the outside answers with carries the media type of its
    Content-Type.  The tokenizer of golang.org/x/net/html is the class
    [HtmlTokenizer]. *)

From stdpp Require Import sorting.
From S2P Require Import Prelude Crypto TelemtTypes Reliability Url Node NodeLogic AgentFiles UpdateState TelemtClient TelemtConfig Upstream SiteFiles RelayApply.

Local Open Scope go_scope.

(** A start tag or a self-closing one, with its attributes. *)
Record tag := { tag_name : string; tag_attrs : list (string * string) }.

(** The tags of a document, and the error that ended it unless it is its end. *)
Class HtmlTokenizer := { html_tags : string -> list tag * option error }.

Section Decoy.
Context `{Outside} `{HtmlTokenizer}.
Context (cfg : Config).

(** ** Local assets *)

Definition resource_rels : list string := ["stylesheet"; "icon"; "preload"; "modulepreload"]%string.

(** Whether a link loads something into the page. *)
Definition is_resource (t : tag) : bool :=
  existsb (fun a => String.eqb a.1 "rel" && existsb (fun r => existsb (String.eqb r) resource_rels) (Str.fields (Str.to_lower a.2))) (tag_attrs t).

Definition loads (t : tag) : bool :=
  existsb (String.eqb (tag_name t)) ["script"; "link"; "img"; "source"]%string &&
  (negb (String.eqb (tag_name t) "link") || is_resource t).

(** The local path an attribute refers to; [None] when it refers to none. *)
Definition local_ref (t : tag) (a : string * string) : option (result string) :=
  if negb (String.eqb a.1 "src") && (negb (String.eqb a.1 "href") || negb (String.eqb (tag_name t) "link")) then None
  else
    match Url.Parse a.2 with
    | None => None
    | Some u =>
        if Url.IsAbs u || negb (String.eqb (Url.Host u) EmptyString) || String.eqb (Url.Path u) EmptyString then None
        else Some (safeSitePath (Str.trim_prefix (Url.Path u) "/"))
    end.

Fixpoint add_refs (l : list (result string)) (seen : gset string) : result (gset string) :=
  match l with
  | [] => Ok seen
  | Ok p :: l => add_refs l ({[p]} ∪ seen)
  | Err e :: _ => Err e
  end.

Definition maxAssets : nat := 128.

Definition string_le (a b : string) : Prop := String.leb a b = true.
#[local] Instance string_le_dec : RelDecision string_le.
Proof. intros a b. unfold string_le. apply _. Defined.

Definition localAssets (index : string) : result (list string) :=
  let '(tags, ended) := html_tags index in
  let? seen := add_refs (concat ((fun t => if loads t then omap (local_ref t) (tag_attrs t) else []) <$> tags)) ∅ in
  match ended with
  | Some e => Err e
  | None =>
      if (maxAssets <? size seen)%nat
      then Err "website references more than 128 local assets; asset verification budget exceeded"
      else Ok (merge_sort string_le (elements seen))
  end.

(** ** Requests *)

(** A page, asked before the context ends. *)
Definition fetch (ctx : context) (url host : string) : M (result page) :=
  t ← clock;
  if expired ctx t then mret (Err errDeadline)
  else
    p ← perform (Fetch url host);
    t' ← clock;
    mret (if expired ctx t' then Err errDeadline else p).

(** [io.ReadAll] of an [io.LimitReader]: an error after the limit is not met. *)
Definition read_limited (n : Z) (p : page) : result string :=
  if n <=? Z.of_nat (String.length (pg_body p)) then Ok (limited n (pg_body p))
  else match pg_body_err p with Some e => Err e | None => Ok (pg_body p) end.

Definition length_Z (s : string) : Z := Z.of_nat (String.length s).

(** ** Assets *)

(** The text of the endpoint's URL with another path; an endpoint has neither
    user nor fragment. *)
Definition asset_url (base : Url.URL) (p : string) : string :=
  Url.Scheme base +:+ "://" +:+ Url.escape Url.encodeHost (Url.Host base) +:+ Url.escape Url.encodePath ("/" +:+ p) +:+
  (if Url.ForceQuery base || negb (String.eqb (Url.RawQuery base) EmptyString) then "?" +:+ Url.RawQuery base else EmptyString).

(** [filepath.Ext] *)
Definition extension (p : string) : string :=
  match Net.split_last (Path.Base p) "." with Some (_, after) => "." +:+ after | None => EmptyString end.

Definition mime_error (p media : string) : option error :=
  let ext := Str.to_lower (extension p) in
  if String.eqb ext ".css" && negb (String.eqb media "text/css") then Some ("website stylesheet " +:+ p +:+ " has invalid MIME type")
  else if (String.eqb ext ".js" || String.eqb ext ".mjs") && negb (String.eqb media "text/javascript") && negb (String.eqb media "application/javascript")
  then Some ("website script " +:+ p +:+ " has invalid MIME type") else None.

Definition maxAssetBytes : Z := 16 * 2 ^ 20.

(** The deployed file of an asset. *)
Definition expected_asset (p : string) : M (result string) :=
  let local_ := Path.Join (siteDir cfg) p in
  try info ← wrapped (fun e => "website asset " +:+ p +:+ " is absent: " +:+ e) (stat (Stat local_) local_);
  f ← the_files;
  match info with
  | None => if existsb (below local_) (fst <$> map_to_list f)
            then mret (Err ("website asset " +:+ p +:+ " is not a regular file within the verification limit"))
            else mret (Err ("website asset " +:+ p +:+ " is absent: " +:+ errNotExist "lstat" local_))
  | Some x => if maxAssetBytes <? length_Z (fdata x)
              then mret (Err ("website asset " +:+ p +:+ " is not a regular file within the verification limit"))
              else must_read local_
  end.

Definition verify_asset (ctx : context) (base : Url.URL) (host p : string) : M (result unit) :=
  try expected ← expected_asset p;
  try resp ← wrapped (fun e => "website asset " +:+ p +:+ " did not answer: " +:+ e) (fetch ctx (asset_url base p) host);
  match read_limited (length_Z expected + 1) resp with
  | Err e => mret (Err e)
  | Ok actual =>
      if negb (pg_status resp =? 200) || negb (String.eqb (Sha.hex actual) (Sha.hex expected))
      then mret (Err ("website asset " +:+ p +:+ ": unexpected status or content"))
      else mret (match mime_error p (pg_type resp) with Some e => Err e | None => Ok tt end)
  end.

(** A loop that stops at the first error. *)
Fixpoint each_ok {A} (f : A -> M (result unit)) (l : list A) : M (result unit) :=
  match l with
  | [] => mret (Ok tt)
  | a :: l => try _ ← f a; each_ok f l
  end.

Definition verifyWebsiteAssets (ctx : context) (endpoint host index : string) : M (result unit) :=
  match localAssets index with
  | Err e => mret (Err e)
  | Ok paths =>
      match Url.Parse endpoint with
      | None => mret (Err ("parse " +:+ endpoint))
      | Some base => each_ok (verify_asset ctx base host) paths
      end
  end.

(** ** The website *)

(** The host name of the vhost that serves the website. *)
Definition decoy_host (ctx : context) (managed : string) : M (result string) :=
  try (c, _) ← textual (control ctx GetConfig);
  match managedVhost c managed with
  | Err e => mret (Err e)
  | Ok vhost =>
      let host := sub_string vhost "host" in
      mret (if String.eqb host EmptyString then Err "decoy virtual host is missing" else Ok host)
  end.

Definition verify_endpoint (ctx : context) (host index endpoint : string) : M (result unit) :=
  try resp ← wrapped (fun e => "decoy HTTP/TLS check " +:+ endpoint +:+ ": " +:+ e) (fetch ctx endpoint host);
  match read_limited (length_Z index + 1) resp with
  | Err e => mret (Err e)
  | Ok raw =>
      if negb (pg_status resp =? 200) || negb (String.eqb raw index)
      then mret (Err ("decoy check " +:+ endpoint +:+ ": status " +:+ Dec.itoa (pg_status resp) +:+ " or served index differs from deployed website"))
      else verifyWebsiteAssets ctx endpoint host index
  end.

Definition private_listener : string := "http://127.0.0.1:18080/".
Definition public_front (host : string) : string := "https://" +:+ host +:+ "/".

Definition verifyDecoy (ctx : context) (index managed : string) : M (result unit) :=
  try host ← decoy_host ctx managed;
  each_ok (verify_endpoint ctx host index) [private_listener; public_front host].

(** ** An HTTP upstream *)

Definition probeHTTPWebsite (ctx : context) (endpoint host : string) : M (result unit) :=
  try resp ← fetch ctx endpoint host;
  match read_limited 65536 resp with
  | Err e => mret (Err e)
  | Ok content =>
      mret (if negb (pg_status resp =? 200) then Err ("status " +:+ Dec.itoa (pg_status resp))
            else if String.eqb (Str.trim_space content) EmptyString then Err "empty response" else Ok tt)
  end.

Definition httpOriginHostname (origin : string) : bool :=
  match Url.Parse origin with
  | Some u => match Net.ParseIP (Url.Hostname u) with None => true | Some _ => false end
  | None => false
  end.

Definition probeLiteralHTTPOrigin (ctx : context) (origin : string) : M (result unit) :=
  if httpOriginHostname origin then mret (Ok tt) else probeHTTPWebsite ctx origin EmptyString.

Definition verifyUpstreamDecoy (ctx : context) (origin managed : string) : M (result unit) :=
  try _ ← wrapped (fun e => "origin check " +:+ origin +:+ ": " +:+ e) (probeLiteralHTTPOrigin ctx origin);
  try host ← decoy_host ctx managed;
  wrapped (fun e => "public upstream decoy check: " +:+ e) (probeHTTPWebsite ctx (public_front host) host).

(** What a recovery verifies: the decoy telemt is configured with. *)
Definition verifyConfiguredDecoy (ctx : context) : M (result unit) :=
  try (c, _) ← textual (control ctx GetConfig);
  match telemtVhosts c with
  | Err _ => mret (Err "decoy has no configured virtual host")
  | Ok vhosts =>
      let decoy := sub_object (vhost_at vhosts 0) "decoy" in
      let mode := sub_string decoy "mode" in
      if String.eqb mode "http_upstream" then
        let origin := sub_string decoy "upstream" in
        if String.eqb origin EmptyString then mret (Err "HTTP upstream decoy has no origin")
        else verifyUpstreamDecoy ctx origin EmptyString
      else if String.eqb mode "static_directory" || String.eqb mode EmptyString then
        try index ← must_read (Path.Join (siteDir cfg) "index.html");
        verifyDecoy ctx index EmptyString
      else mret (Err ("unsupported decoy mode " +:+ Str.quote mode))
  end.

End Decoy.
