(* ===== verification/TelemtApply.v ===== *)
(** * Applying a desired state on a telemt node

    internal/agent/telemt.go, telemtcapacity.go and telemtweboptions.go: the
    reconciliations of an apply one after the other, each noting in a
    [telemtRollback] what it changed, the activation of the result by a reload
    or a restart, the checks, and the roll-back.

    A reconciliation takes the roll-back so far and gives the new one back,
    also when it fails.  The log is left out; the answer comes with the error
    that ended the apply.  Log lines apart, a step does what the code does in
    its order.  [routePolicy] is the recovery policy the handler holds. *)

From S2P Require Import Prelude WebPolicy Capabilities TelemtTypes Json Reliability Node NodeLogic AgentFiles TelemtClient UpdateState UpdateJournal TelemtConfig Patches AgentProto Convert Upstream Url Users SiteFiles RelayApply Toml DecoyCheck.

Local Open Scope go_scope.

(** ** What was changed so far *)

Definition rb_with (rb : telemtRollback) (vhosts : option (list json)) (site : option string) (listeners : option object) (addr : bool)
  (mp : option bool) (web : option object) (cfg : option telemtConfigBackup) : telemtRollback :=
  {| created := created rb; prevVhosts := vhosts; siteBackup := site; prevListeners := listeners; publicAddrChanged := addr;
     prevMiddleProxy := mp; prevWebPolicy := web; irreversible := irreversible rb; config := cfg |}.

Definition rb_config (rb : telemtRollback) (b : telemtConfigBackup) : telemtRollback :=
  rb_with rb (prevVhosts rb) (siteBackup rb) (prevListeners rb) (publicAddrChanged rb) (prevMiddleProxy rb) (prevWebPolicy rb) (Some b).
Definition rb_site (rb : telemtRollback) (d : string) : telemtRollback :=
  rb_with rb (prevVhosts rb) (Some d) (prevListeners rb) (publicAddrChanged rb) (prevMiddleProxy rb) (prevWebPolicy rb) (config rb).
Definition rb_listeners (rb : telemtRollback) (undo : object) : telemtRollback :=
  rb_with rb (prevVhosts rb) (siteBackup rb) (Some undo) (publicAddrChanged rb) (prevMiddleProxy rb) (prevWebPolicy rb) (config rb).
Definition rb_middle_proxy (rb : telemtRollback) (b : bool) : telemtRollback :=
  rb_with rb (prevVhosts rb) (siteBackup rb) (prevListeners rb) (publicAddrChanged rb) (Some b) (prevWebPolicy rb) (config rb).
Definition rb_web_policy (rb : telemtRollback) (o : object) : telemtRollback :=
  rb_with rb (prevVhosts rb) (siteBackup rb) (prevListeners rb) (publicAddrChanged rb) (prevMiddleProxy rb) (Some o) (config rb).

(** [if rb.prevVhosts == nil { rb.prevVhosts = prev }] *)
Definition rb_first_vhosts (rb : telemtRollback) (prev : list json) : telemtRollback :=
  match prevVhosts rb with
  | Some _ => rb
  | None => rb_with rb (Some prev) (siteBackup rb) (prevListeners rb) (publicAddrChanged rb) (prevMiddleProxy rb) (prevWebPolicy rb) (config rb)
  end.
Definition rb_addr (rb : telemtRollback) : telemtRollback :=
  rb_with rb (prevVhosts rb) (siteBackup rb) (prevListeners rb) true (prevMiddleProxy rb) (prevWebPolicy rb) (config rb).

(** [{k: v}] *)
Definition obj1 (k : string) (v : json) : object := [(k, v)].
Definition table (k : string) (o : object) : object := obj1 k (JObject o).

Definition telemtWebListenPort : Z := 18080.
Definition DefaultReloadWait : Z := 60 * Tm.second.
Definition capacityVersion : Z * Z * Z := (3, 5, 14).

Definition is_some {A} (o : option A) : bool := match o with Some _ => true | None => false end.

Section Apply.
Context `{Outside} `{O : MapOrder} `{JC : JournalCodec} `{HT : HtmlTokenizer}.
Context (cfg : Config).
Context (routePolicy : Policy).

(** A reconciliation. *)
Definition R (A : Type) : Type := telemtRollback -> M (telemtRollback * result A).

Definition rret {A} (a : result A) : R A := fun rb => mret (rb, a).
Definition rlift {A} (m : M (result A)) : R A := fun rb => a ← m; mret (rb, a).
Definition rnote (f : telemtRollback -> telemtRollback) : R unit := fun rb => mret (f rb, Ok tt).
Definition rbind' {A B} (m : R A) (k : A -> R B) : R B := fun rb =>
  x ← m rb;
  match x with
  | (rb, Ok a) => k a rb
  | (rb, Err e) => mret (rb, Err e)
  end.

Local Notation "'do!' x ← m ; k" := (rbind' m (fun x => k)) (at level 20, x pattern, m at level 100, k at level 200, right associativity).

Definition get_config (ctx : context) : M (result (object * string)) := textual (control ctx GetConfig).
Definition patch_config (ctx : context) (patch : object) (reload : bool) : M (result PatchConfigResult) :=
  textual (control ctx (PatchConfig patch reload)).

(** ** Capacity *)

(** telemt rewrites its configuration when it is patched. *)
Definition readTelemtConfigFile : M (result (string * Z)) :=
  let p := TelemtConfigPath cfg in
  r ← perform (Rewritten p);
  _ ← ((match r with Some x => f ← the_files; set_files (<[p := x]> f) | None => mret tt end) : M unit);
  try info ← stat (Stat p) p;
  match info with
  | None => mret (Err (errNotExist "stat" p))
  | Some x => try raw ← must_read p; mret (Ok (raw, Z.land (fmode x) 511))
  end.

Definition read_config_error (e : error) : error := "read telemt config: " +:+ e.

(** The fields of [web.limits] that differ from a preset. *)
Definition preset_patch (current : object) (preset : Capacity.WebLimits) : object :=
  let defaults := match Capacity.WebCapacityPreset Capacity.WebCapacityStandard with Some p => Capacity.Fields (Capacity.cap_Limits p) | None => [] end in
  omap (fun f => if telemtLimitInt current f.1 (default 0 (snd <$> List.find (fun d => String.eqb d.1 f.1) defaults)) =? f.2
                 then None else Some (f.1, jint f.2)) (Capacity.Fields preset).

Definition want_profiles (req : Pb.ApplyRequest) : Z :=
  if Pb.MaxProfiles req >? 0 then Z.max (Capacity.WebMaxProfiles (Pb.MaxProfiles req)) (Z.of_nat (length (Pb.Profiles req))) else 0.

Definition reconcileTelemtCapacity (ctx : context) (req : Pb.ApplyRequest) : R bool :=
  let capacity := Pb.WebCapacity req in
  let preset := if capacity =? 0 then None else Capacity.WebCapacityPreset capacity in
  if negb (capacity =? 0) && negb (Capacity.ValidWebCapacity capacity)
  then rret (Err ("WEB capacity " +:+ Dec.itoa capacity +:+ " is not one of the presets"))
  else if (capacity =? 0) && (want_profiles req =? 0) then rret (Ok false)
  else
    do! (c, _) ← rlift (get_config ctx);
    let current := telemtWebLimits c in
    let patch := match preset with Some p => preset_patch current (Capacity.cap_Limits p) | None => [] end in
    let presetChanged := negb (length patch =? 0)%nat in
    let patch := if (want_profiles req >? 0) && (telemtLimitInt current "max_profiles" Capacity.TelemtDefaultMaxProfiles <? want_profiles req)
                 then set_member patch "max_profiles" (jint (want_profiles req)) else patch in
    do! (raw, mode) ← rlift (wrapped read_config_error readTelemtConfigFile);
    do! connChanged ← rret (match preset with
                            | Some p => let? have := tomlServerMaxConnections raw in Ok (negb (have =? Capacity.MaxConnections p))
                            | None => Ok false
                            end);
    let patched := negb (length patch =? 0)%nat in
    if negb patched && negb connChanged then rret (Ok false)
    else
      do! _ ← (if presetChanged || connChanged then
                 do! info ← rlift (wrapped (fun e => "verify WEB capacity support: " +:+ e) (system_info ctx));
                 rret (if VersionAtLeast (Version info) capacityVersion then Ok tt else Err "WEB capacity requires Telemt 3.5.14 or newer")
               else rret (Ok tt));
      let backup := {| data := raw; mode := mode |} in
      do! _ ← (if patched then
                 do! _ ← rlift (wrapped (fun e => "web.limits: " +:+ e) (patch_config ctx (table "web" (table "limits" patch)) false));
                 rnote (fun rb => rb_config rb backup)
               else rret (Ok tt));
      do! _ ← (match preset with
               | Some p =>
                   if connChanged then
                     do! (cur, curMode) ← rlift (wrapped read_config_error readTelemtConfigFile);
                     do! next ← rret (setTomlServerMaxConnections cur (Capacity.MaxConnections p));
                     do! _ ← rlift (wrapped (fun e => "write telemt config: " +:+ e) (writeAtomicKeepOwner (TelemtConfigPath cfg) next curMode));
                     rnote (fun rb => rb_config rb backup)
                   else rret (Ok tt)
               | None => rret (Ok tt)
               end);
      rret (Ok true).

(** ** Listeners *)

Definition listeners_error (req : Pb.ApplyRequest) : option error :=
  let wantDomain := Pb.TlsDomain req in
  fail_if (negb (String.eqb wantDomain EmptyString) && negb (validHostname wantDomain)) ("invalid tls domain " +:+ Str.quote wantDomain)
  ;;? (match extraTLSDomains wantDomain (Pb.TlsDomains req) with Err e => Some e | Ok _ => None end)
  ;;? fail_if (Pb.ClassicPort req >? 65535) ("classic port " +:+ Dec.itoa (Pb.ClassicPort req) +:+ " out of range")
  ;;? fail_if (Pb.ClassicPort req =? telemtWebListenPort) ("classic port " +:+ Dec.itoa (Pb.ClassicPort req) +:+ " collides with the WEB listener").

(** The listener side of a configuration. *)
Record listeners_view := {
  lv_Domain : string; lv_Extra : list string; lv_Listeners : list json; lv_Index : option nat; lv_Port : Z; lv_LinkPort : option json
}.

Definition view_listeners (c : object) : listeners_view :=
  let censorship := sub_object c "censorship" in
  let listeners := sub_array (sub_object c "server") "listeners" in
  let idx := telemtFakeTLSListener listeners in
  {| lv_Domain := sub_string censorship "tls_domain"; lv_Extra := stringList (member censorship "tls_domains");
     lv_Listeners := listeners; lv_Index := idx;
     lv_Port := match idx with Some i => default 0 (jsonNumber (member (vhost_at listeners i) "port")) | None => 0 end;
     lv_LinkPort := member (sub_object (sub_object c "general") "links") "public_port" |}.

Definition strings (l : list string) : json := JArray (JString <$> l).

Definition censorship_table (domain extra : bool) (d : string) (l : list string) : object :=
  (if domain then obj1 "tls_domain" (JString d) else []) ++ (if extra then obj1 "tls_domains" (strings l) else []).

Definition link_port_table (v : json) : object := table "general" (table "links" (obj1 "public_port" v)).

(** What puts the listeners of [v] back. *)
Definition undo_listeners (v : listeners_view) (domain extra port : bool) : object :=
  (if domain || extra then table "censorship" (censorship_table domain extra (lv_Domain v) (lv_Extra v)) else []) ++
  (if port then table "server" (obj1 "listeners" (JArray (lv_Listeners v))) ++ match lv_LinkPort v with Some p => link_port_table p | None => [] end
   else []).

(** The requests that change what changed, noted before the first. *)
Definition move_listeners (ctx : context) (v : listeners_view) (wantDomain : string) (wantExtra : list string) (wantPort : Z)
  (domainChanged extraChanged portChanged : bool) : R bool :=
  do! _ ← rnote (fun rb => rb_listeners rb (undo_listeners v domainChanged extraChanged portChanged));
  do! _ ← (if domainChanged || extraChanged then
             do! _ ← rlift (wrapped (fun e => "patch censorship: " +:+ e)
               (patch_config ctx (table "censorship" (censorship_table domainChanged extraChanged wantDomain wantExtra)) false));
             rret (Ok tt)
           else rret (Ok tt));
  match portChanged, lv_Index v with
  | true, Some i =>
      do! _ ← rlift (wrapped (fun e => "patch server.listeners: " +:+ e)
        (patch_config ctx (table "server" (obj1 "listeners" (JArray (set_vhost (lv_Listeners v) i "port" (jint wantPort))))) false));
      do! _ ← (match lv_LinkPort v with
               | Some _ => do! _ ← rlift (wrapped (fun e => "patch general.links.public_port: " +:+ e)
                                    (patch_config ctx (link_port_table (jint wantPort)) false)); rret (Ok tt)
               | None => rret (Ok tt)
               end);
      rret (Ok true)
  | _, _ => rret (Ok true)
  end.

Definition reconcileTelemtListeners (ctx : context) (req : Pb.ApplyRequest) : R bool :=
  let wantDomain := Pb.TlsDomain req in
  let wantPort := Pb.ClassicPort req in
  if String.eqb wantDomain EmptyString && (wantPort =? 0) then rret (Ok false)
  else
    match listeners_error req with
    | Some e => rret (Err e)
    | None =>
        let wantExtra := match extraTLSDomains wantDomain (Pb.TlsDomains req) with Ok l => l | Err _ => [] end in
        do! (c, _) ← rlift (get_config ctx);
        let v := view_listeners c in
        let asked := negb (String.eqb wantDomain EmptyString) in
        let domainChanged := asked && negb (String.eqb wantDomain (lv_Domain v)) in
        let extraChanged := asked && negb (sameStrings wantExtra (lv_Extra v)) in
        let portChanged := negb (wantPort =? 0) && negb (wantPort =? lv_Port v) in
        if negb domainChanged && negb extraChanged && negb portChanged then rret (Ok false)
        else if portChanged && negb (is_some (lv_Index v)) then rret (Err "telemt config has no Fake-TLS listener to move")
        else move_listeners ctx v wantDomain wantExtra wantPort domainChanged extraChanged portChanged
    end.

(** ** The public address *)

Definition reconcileTelemtPublicAddr (ctx : context) (req : Pb.ApplyRequest) : R bool :=
  let wantIP := Pb.PublicIp req in
  if String.eqb wantIP EmptyString then rret (Ok false)
  else
    match telemtPublicAddr wantIP with
    | None => rret (Err ("invalid public ip " +:+ Str.quote wantIP))
    | Some want =>
        do! (c, _) ← rlift (get_config ctx);
        let web := sub_object c "web" in
        let vhosts := sub_array web "vhosts" in
        if (length vhosts =? 0)%nat then rret (Err "telemt config has no web vhost")
        else
          do! i ← rret (webVhostIndex web (Pb.ManagedWebHost req));
          if String.eqb (sub_string (vhost_at vhosts i) "public_addr") want then rret (Ok false)
          else
            do! prev ← rret (copyVhosts vhosts);
            do! _ ← rnote (fun rb => rb_addr (rb_first_vhosts rb prev));
            do! _ ← rlift (wrapped (fun e => "patch web.vhosts.public_addr: " +:+ e)
              (patch_config ctx (vhosts_patch (set_vhost vhosts i "public_addr" (JString want))) false));
            rret (Ok true)
    end.

(** ** The Middle Proxy *)

(** Whether it changed, and whether that takes a restart. *)
Definition reconcileTelemtMiddleProxy (ctx : context) (req : Pb.ApplyRequest) : R (bool * bool) :=
  let want := negb (String.eqb (Pb.AdTag req) EmptyString) in
  if want && (String.eqb (Egress routePolicy) "socks5" || AutomaticFailover routePolicy)
  then rret (Err "sponsor tag conflicts with managed SOCKS/WARP egress")
  else
    do! (c, _) ← rlift (get_config ctx);
    let cur := match member (sub_object c "general") "use_middle_proxy" with Some (JBool b) => b | _ => false end in
    if Bool.eqb cur want then rret (Ok (false, false))
    else
      do! out ← rlift (patch_config ctx (table "general" (obj1 "use_middle_proxy" (JBool want))) true);
      do! _ ← rnote (fun rb => rb_middle_proxy rb cur);
      rret (Ok (true, RestartRequired out || ProcessRestartRequired out)).

(** ** The WEB policy *)

Definition checkWebAdvanced (ctx : context) (p : Policy.WebPolicy) : M (result unit) :=
  if negb (Policy.HasAdvancedOptions p) then mret (Ok tt)
  else
    try info ← wrapped (fun e => "verify advanced WEB support: " +:+ e) (system_info ctx);
    mret (if VersionAtLeast (Version info) capacityVersion then Ok tt else Err "advanced WEB options require Telemt 3.5.14 or newer").

(** What puts the keys of a patch of [web] back. *)
Definition undo_web (web patch : object) : object :=
  (fun e => if String.eqb e.1 "timeouts"
            then (e.1, JObject ((fun t => (t.1, member_or_null (sub_object web "timeouts") t.1)) <$> default [] (as_object (Some e.2))))
            else (e.1, member_or_null web e.1)) <$> patch.

(** The fields telemt wrote but does not use yet. *)
Definition deferred_fields (out : PatchConfigResult) : list string :=
  match DeferredProcessFields out with
  | [] => if ProcessRestartRequired out then ["web policy"%string] else []
  | l => l
  end.

Record web_change := { wc_Changed : bool; wc_Reload : bool; wc_Deferred : list string }.
Definition no_web_change : web_change := {| wc_Changed := false; wc_Reload := false; wc_Deferred := [] |}.

Definition reconcileTelemtWebPolicy (ctx : context) (req : Pb.ApplyRequest) : R web_change :=
  match WebPolicyFromProto (Pb.RWebPolicy req) with
  | None => rret (Ok no_web_change)
  | Some policy =>
      match Policy.Validate policy with
      | Some e => rret (Err ("web policy: " +:+ e))
      | None =>
          do! _ ← rlift (checkWebAdvanced ctx policy);
          do! (c, _) ← rlift (get_config ctx);
          match as_object (member c "web") with
          | None => rret (Err "telemt config has no [web] section; run init-node --engine telemt")
          | Some web =>
              let patch := telemtWebPolicyPatch web policy in
              do! vhosts ← rret (webVhostPolicyPatch web (Pb.ManagedWebHost req) policy);
              let full := patch ++ match vhosts with Some next => obj1 "vhosts" (JArray next) | None => [] end in
              if (length full =? 0)%nat then rret (Ok no_web_change)
              else
                do! _ ← (if is_some vhosts then
                           do! prev ← rret (copyVhosts (sub_array web "vhosts"));
                           rnote (fun rb => rb_first_vhosts rb prev)
                         else rret (Ok tt));
                do! out ← rlift (wrapped (fun e => "patch web policy: " +:+ e) (patch_config ctx (table "web" full) false));
                do! _ ← rnote (fun rb => rb_web_policy rb (undo_web web patch));
                let advanced := is_some (Policy.BasePath policy) || is_some (Policy.DecoyResolve policy) in
                let put_off := negb (length (DeferredProcessFields out) =? 0)%nat || ProcessRestartRequired out in
                if advanced && put_off then rret (Err "WEB vhost changes were not activated")
                else rret (Ok {| wc_Changed := true; wc_Reload := RuntimeReloadRequired out || advanced; wc_Deferred := deferred_fields out |})
          end
      end
  end.

(** ** The website *)

Record telemtDecoyPlan := { pl_files : bundle; pl_upstream : string; pl_resolve : option string; pl_host : string; pl_supplied : bool }.
Definition no_plan : telemtDecoyPlan := {| pl_files := ∅; pl_upstream := EmptyString; pl_resolve := None; pl_host := EmptyString; pl_supplied := false |}.

(** The files of the request; the marker of an upstream keeps its name. *)
Fixpoint plan_files (l : Pb.SiteBundle) (site : bundle) : result bundle :=
  match l with
  | [] => Ok site
  | (path, content) :: l =>
      if String.eqb path UpstreamMarkerPath then plan_files l (<[path := content]> site)
      else
        let? p := safeSitePath path in plan_files l (<[p := content]> site)
  end.

(** How telemt is to resolve the origin: as the request says, or as it does. *)
Definition current_resolve (ctx : context) (req : Pb.ApplyRequest) : M string :=
  cfg ← get_config ctx;
  mret (match cfg with
        | Ok (c, _) =>
            let web := sub_object c "web" in
            match webVhostIndex web (Pb.ManagedWebHost req) with
            | Ok i => if is_string (sub_object (vhost_at (sub_array web "vhosts") i) "decoy") "resolve" "startup" then "startup" else "never"
            | Err _ => "never"
            end
        | Err _ => "never"
        end)%string.

Definition telemtSitePlan (ctx : context) (req : Pb.ApplyRequest) : M (result telemtDecoyPlan) :=
  match Pb.Site req with
  | None => mret (Ok no_plan)
  | Some l =>
      match plan_files l ∅ with
      | Err e => mret (Err e)
      | Ok site =>
          let setting := Pb.RWebPolicy req ≫= Pb.DecoyResolve in
          resolve ← ((match setting with Some r => mret r | None => current_resolve ctx req end) : M string);
          let host := Pb.ManagedWebHost req in
          mret (match UpstreamFromBundle site (Some resolve) with
                | Some (Err e) => Err e
                | Some (Ok upstream) => Ok {| pl_files := ∅; pl_upstream := upstream; pl_resolve := setting; pl_host := host; pl_supplied := true |}
                | None =>
                    if bool_decide (is_Some (site !! "index.html"%string))
                    then Ok {| pl_files := site; pl_upstream := EmptyString; pl_resolve := None; pl_host := host; pl_supplied := true |}
                    else Err "site bundle must contain index.html"
                end)
      end
  end.

Definition is_upstream (plan : telemtDecoyPlan) : bool := negb (String.eqb (pl_upstream plan) EmptyString).

(** The decoy table of the vhost, given the one it has. *)
Definition desired_decoy (plan : telemtDecoyPlan) (current : object) : object :=
  if is_upstream plan then
    let d := if is_string current "mode" "http_upstream" then current else [] in
    let d := set_member (set_member d "mode" (JString "http_upstream")) "upstream" (JString (pl_upstream plan)) in
    match pl_resolve plan with Some r => set_member d "resolve" (JString r) | None => d end
  else [("mode", JString "static_directory"); ("directory", JString (siteDir cfg)); ("index", JString "index.html")]%string.

Definition reconcileTelemtDecoy (ctx : context) (plan : telemtDecoyPlan) : R bool :=
  if negb (pl_supplied plan) then rret (Ok false)
  else
    do! (c, _) ← rlift (get_config ctx);
    let web := sub_object c "web" in
    let vhosts := sub_array web "vhosts" in
    if (length vhosts =? 0)%nat then rret (Err "telemt config has no web vhost")
    else
      do! i ← rret (webVhostIndex web (pl_host plan));
      let current := sub_object (vhost_at vhosts i) "decoy" in
      let desired := desired_decoy plan current in
      if Json.DeepEqual (JObject current) (JObject desired) then rret (Ok false)
      else
        do! prev ← rret (copyVhosts vhosts);
        do! _ ← rnote (fun rb => rb_first_vhosts rb prev);
        do! _ ← rlift (wrapped (fun e => "patch web.vhosts.decoy: " +:+ e)
          (patch_config ctx (vhosts_patch (set_vhost vhosts i "decoy" (JObject desired))) false));
        rret (Ok true).

Definition verifyDesiredDecoy (ctx : context) (plan : telemtDecoyPlan) : M (result unit) :=
  if is_upstream plan then verifyUpstreamDecoy ctx (pl_upstream plan) (pl_host plan)
  else verifyDecoy cfg ctx (default EmptyString (pl_files plan !! "index.html"%string)) (pl_host plan).

(** Deploying the files of a plan, when they differ from the ones served. *)
Definition deploy_site (plan : telemtDecoyPlan) : R bool :=
  if negb (pl_supplied plan) || is_upstream plan then rret (Ok false)
  else
    do! same ← rlift (b ← siteEquals cfg (pl_files plan); mret (Ok b));
    if (same : bool) then rret (Ok false)
    else
      do! backup ← rlift (d ← backup_dir cfg; mret (Ok d));
      do! _ ← rlift (mkdir_all backup);
      do! _ ← rlift (wrapped backup_error (copyDir (siteDir cfg) (Path.Join backup "site")));
      do! _ ← rlift (writeSiteDir cfg (pl_files plan));
      do! _ ← rnote (fun rb => rb_site rb (Path.Join backup "site"));
      rret (Ok true).

(** ** The WEB prefix the running telemt serves *)

Definition webPrefixesPath : string := Path.Join (StateDir cfg) "telemt-web.json".

Definition prefixes_of_json (j : json) : option (gmap string string) :=
  match j with
  | JObject o => json_map as_text (member o "base_paths")
  | JNull => Some ∅
  | _ => None
  end.

Definition decode_prefixes (raw : string) : gmap string string := default ∅ (Json.unmarshal raw ≫= prefixes_of_json).
Definition encode_prefixes (m : gmap string string) : string := Json.marshal (JObject (obj1 "base_paths" (map_json JString m))) +:+ lf.

Definition readWebPrefixes : M (gmap string string) :=
  raw ← must_read webPrefixesPath;
  mret (match raw with Ok raw => decode_prefixes raw | Err _ => ∅ end).

Definition writeWebPrefixes (m : gmap string string) : M (result unit) :=
  try _ ← mkdir_all (StateDir cfg);
  writeAtomic webPrefixesPath (encode_prefixes m) 384.

Definition rememberWebPrefix (host path : string) : M (result unit) :=
  paths ← readWebPrefixes;
  if bool_decide (paths !! host = Some path) then mret (Ok tt) else writeWebPrefixes (<[host := path]> paths).

Definition forgetWebPrefix (host : string) : M (result unit) :=
  paths ← readWebPrefixes;
  if is_some (paths !! host) then writeWebPrefixes (delete host paths) else mret (Ok tt).

(** The base path a vhost is configured with. *)
Definition configured_path (c : object) (host : string) : result string :=
  let? v := managedVhost c host in Ok (sub_string v "base_path").

Definition webPrefixLoaded (ctx : context) (host : string) : M (result bool) :=
  try (c, _) ← get_config ctx;
  match configured_path c host with
  | Err e => mret (Err e)
  | Ok path => paths ← readWebPrefixes; mret (Ok (bool_decide (paths !! host = Some path)))
  end.

(** The base path the request wants for the vhost. *)
Definition wanted_path (req : Pb.ApplyRequest) : option string := Pb.RWebPolicy req ≫= Pb.BasePath.

Definition about_prefix (req : Pb.ApplyRequest) : bool :=
  negb (String.eqb (Pb.ManagedWebHost req) EmptyString) || is_some (wanted_path req).

Definition errRevision : error := "WEB config revision differs from the loaded runtime; retry apply".

(** Only an agent that completed a reload, or whose runtime was verified to
    serve the prefix, may acknowledge it. *)
Definition verifiedWebBasePath (ctx : context) (req : Pb.ApplyRequest) (runtimeRevision : string) : M (result (option string)) :=
  if negb (about_prefix req) then mret (Ok None)
  else
    try (c, revision) ← get_config ctx;
    if negb (String.eqb runtimeRevision EmptyString) && negb (String.eqb revision runtimeRevision) then mret (Err errRevision)
    else
      match configured_path c (Pb.ManagedWebHost req) with
      | Err e => mret (Err e)
      | Ok path =>
          try _ ← ((if String.eqb runtimeRevision EmptyString then
                      paths ← readWebPrefixes;
                      mret (if bool_decide (paths !! Pb.ManagedWebHost req = Some path) then Ok tt else Err errRevision)
                    else mret (Ok tt)) : M (result unit));
          try _ ← ((if negb (String.eqb path EmptyString) then
                      try info ← system_info ctx;
                      mret (if VersionAtLeast (Version info) capacityVersion then Ok tt else Err "path WEB links require Telemt 3.5.14 or newer")
                    else mret (Ok tt)) : M (result unit));
          match Policy.ValidateWebBasePath path with
          | Some e => mret (Err e)
          | None =>
              if match wanted_path req with Some p => negb (String.eqb path p) | None => false end
              then mret (Err "WEB base_path verification failed")
              else
                try _ ← rememberWebPrefix (Pb.ManagedWebHost req) path;
                mret (Ok (Some path))
          end
      end.

(** ** Reloading *)

Definition reloadWait : Z := if ReloadWait cfg >? 0 then ReloadWait cfg else DefaultReloadWait.
Definition reloadPoll : Z := 100 * Tm.millisecond.

(** One look at a reload: its end, or that the wait is over. *)
Definition reload_once (ctx : context) (acc : ReloadAccepted) (deadline : Z) : M (option (result string)) :=
  st ← textual (control ctx (ReloadStatus (ReloadID acc)));
  match st with
  | Err e => mret (Some (Err ("reload status: " +:+ e)))
  | Ok st =>
      if Terminal st then
        mret (Some (if String.eqb (rs_State st) "succeeded" then Ok (ConfigRevision acc)
                    else Err ("reload " +:+ Dec.itoa (ReloadID acc) +:+ " " +:+ rs_State st +:+ ": " +:+ rs_Error st)))
      else
        t ← clock;
        mret (if deadline <? t then
                Some (if String.eqb (rs_State st) "draining" then Ok (ConfigRevision acc)
                      else Err ("reload " +:+ Dec.itoa (ReloadID acc) +:+ " did not finish in time (state " +:+ rs_State st +:+ ")"))
              else None)
  end.

(** The looks that fit before the deadline, and the one after it. *)
Definition reload_fuel : nat := S (S (Z.to_nat (reloadWait / reloadPoll))).

Definition telemtReload (ctx : context) : M (result string) :=
  try acc ← wrapped (fun e => "reload: " +:+ e) (textual (control ctx Reload));
  t ← clock;
  poll reload_fuel ctx reloadPoll (reload_once ctx acc (t + reloadWait)) (fun e => mret (Err e)).

(** ** Before the first change *)

Definition preflight (ctx : context) (req : Pb.ApplyRequest) : M (result (list telemtDesired * telemtDecoyPlan)) :=
  try _ ← (match WebPolicyFromProto (Pb.RWebPolicy req) with
           | None => mret (Ok tt)
           | Some p => match Policy.Validate p with Some e => mret (Err e) | None => checkWebAdvanced ctx p end
           end);
  try _ ← ((if String.eqb (Pb.ManagedWebHost req) EmptyString then mret (Ok tt)
            else try (c, _) ← get_config ctx; mret (let? _ := managedVhost c (Pb.ManagedWebHost req) in Ok tt)) : M (result unit));
  try desired ← (mret (if Pb.ApplyProfiles req then telemtDesiredFrom req else Ok []) : M (result (list telemtDesired)));
  try plan ← telemtSitePlan ctx req;
  try _ ← ((if is_upstream plan then
              wrapped (fun e => "HTTP website origin " +:+ pl_upstream plan +:+ " is not ready: " +:+ e +:+ "; nothing was changed")
                (probeLiteralHTTPOrigin ctx (pl_upstream plan))
            else mret (Ok tt)) : M (result unit));
  mret (Ok (desired, plan)).

(** ** The reconciliations, in their order *)

Record changes := { ch_Changed : bool; ch_Reload : bool; ch_Restart : bool; ch_Deferred : list string }.

Definition reconcile_all (ctx : context) (req : Pb.ApplyRequest) (desired : list telemtDesired) (plan : telemtDecoyPlan) : R changes :=
  do! capacityChanged ← reconcileTelemtCapacity ctx req;
  do! (n, reload) ← (if Pb.ApplyProfiles req then reconcileTelemtUsers cfg ctx desired (Pb.ManagedWebHost req) else rret (Ok (false, false)));
  do! siteChanged ← deploy_site plan;
  do! decoyChanged ← reconcileTelemtDecoy ctx plan;
  do! listenersChanged ← reconcileTelemtListeners ctx req;
  do! addrChanged ← reconcileTelemtPublicAddr ctx req;
  do! (mpChanged, mpRestart) ← reconcileTelemtMiddleProxy ctx req;
  do! web ← reconcileTelemtWebPolicy ctx req;
  let restart := listenersChanged || addrChanged || mpRestart || capacityChanged in
  rret (Ok {| ch_Changed := n || siteChanged || decoyChanged || restart || mpChanged || wc_Changed web;
              ch_Reload := reload || siteChanged || decoyChanged || wc_Reload web;
              ch_Restart := restart; ch_Deferred := wc_Deferred web |}).

(** ** Putting the changes into effect *)

Definition verify_site (ctx : context) (plan : telemtDecoyPlan) : M (result unit) :=
  if pl_supplied plan then verifyDesiredDecoy ctx plan else mret (Ok tt).

(** The revision a reload loaded, or none. *)
Definition reload_if (b : bool) (ctx : context) : M (result string) := if b then telemtReload ctx else mret (Ok EmptyString).

(** Whether telemt was restarted, and the base path it serves. *)
Definition activate (ctx : context) (req : Pb.ApplyRequest) (plan : telemtDecoyPlan) (ch : changes) : M (bool * result (option string)) :=
  loaded ← ((if about_prefix req then webPrefixLoaded ctx (Pb.ManagedWebHost req) else mret (Ok true)) : M (result bool));
  match loaded with
  | Err e => mret (false, Err e)
  | Ok loaded =>
      let prefixReload := negb loaded in
      if negb (ch_Changed ch) then
        r ← (try rev ← reload_if prefixReload ctx;
             try _ ← when prefixReload (waitTelemtReady cfg ctx);
             try _ ← verify_site ctx plan;
             verifiedWebBasePath ctx req rev);
        mret (false, r)
      else if ch_Restart ch then
        r ← restartTelemt cfg ctx;
        match r with
        | Err e => mret (false, Err e)
        | Ok _ =>
            r ← (try rev ← reload_if prefixReload ctx;
                 try _ ← verify_site ctx plan;
                 _ ← ignore (pruneBackups cfg keptBackups);
                 verifiedWebBasePath ctx req rev);
            mret (true, r)
        end
      else
        r ← (try rev ← reload_if (ch_Reload ch || prefixReload) ctx;
             try _ ← waitTelemtReady cfg ctx;
             try _ ← verify_site ctx plan;
             _ ← ignore (pruneBackups cfg keptBackups);
             verifiedWebBasePath ctx req rev);
        mret (false, r)
  end.

(** ** Rolling back *)

(** A step of the roll-back, when there is something to undo: whether all went
    well, and whether something was undone. *)
Definition undo_step {A} (o : option A) (f : A -> M (result unit)) : M (bool * bool) :=
  match o with
  | None => mret (true, false)
  | Some a => r ← f a; mret (succeeded r, succeeded r)
  end.

Definition undo_patch (ctx : context) (patch : object) (reload : bool) : M (result unit) :=
  try _ ← patch_config ctx patch reload; mret (Ok tt).

Fixpoint undo_created (ctx : context) (l : list string) (restored : bool) : M bool :=
  match l with
  | [] => mret restored
  | n :: l => r ← textual (control ctx (DeleteUser n)); undo_created ctx l (restored && succeeded r)
  end.

Definition send_reload (ctx : context) : M (result unit) := try _ ← textual (control ctx Reload); mret (Ok tt).

(** The capacity was changed: the configuration file goes back as a whole. *)
Definition undo_config (ctx : context) (b : telemtConfigBackup) (rb : telemtRollback) : M bool :=
  wrote ← writeAtomicKeepOwner (TelemtConfigPath cfg) (data b) (mode b);
  site ← undo_step (siteBackup rb) (swapSiteDir cfg);
  if succeeded wrote && site.1 then r ← restartTelemt cfg ctx; mret (succeeded r) else mret false.

(** Otherwise each change is undone by the request that undoes it. *)
Definition undo_each (ctx : context) (rb : telemtRollback) : M bool :=
  vhosts ← undo_step (prevVhosts rb) (fun v => undo_patch ctx (vhosts_patch v) false);
  mp ← undo_step (prevMiddleProxy rb) (fun b => undo_patch ctx (table "general" (obj1 "use_middle_proxy" (JBool b))) true);
  web ← undo_step (prevWebPolicy rb) (fun o => undo_patch ctx (table "web" o) false);
  users ← undo_created ctx (created rb) true;
  site ← undo_step (siteBackup rb) (swapSiteDir cfg);
  loaded ← undo_step (siteBackup rb) (fun _ => send_reload ctx);
  listeners ← undo_step (prevListeners rb) (fun o => undo_patch ctx o false);
  let reload := (vhosts.2 || web.2) && negb loaded.2 in
  active ← ((if publicAddrChanged rb || listeners.2 then r ← restartTelemt cfg ctx; mret (succeeded r)
             else if reload then r ← send_reload ctx; mret (succeeded r) else mret true) : M bool);
  mret ((length (irreversible rb) =? 0)%nat && vhosts.1 && mp.1 && web.1 && users && site.1 && loaded.1 && listeners.1 && active).

Definition telemt_rollback (req : Pb.ApplyRequest) (rb : telemtRollback) : M bool :=
  t ← clock;
  let ctx := with_timeout None rollbackTimeout t in
  _ ← ignore (forgetWebPrefix (Pb.ManagedWebHost req));
  match config rb with
  | Some b => undo_config ctx b rb
  | None => undo_each ctx rb
  end.

(** ** The apply *)

Definition telemt_result (ok relay rolled_back : bool) (deferred : list string) (path : option string) : Pb.ApplyResult :=
  {| Pb.Ok_ := ok; Pb.RestartedRelay := relay; Pb.RestartedMtproxy := false; Pb.RolledBack := rolled_back;
     Pb.DeferredFields := deferred; Pb.RestartRequired := negb (length deferred =? 0)%nat; Pb.AppliedWebBasePath := path |}.

Definition applyTelemt (ctx : context) (req : Pb.ApplyRequest) : M (Pb.ApplyResult * option error) :=
  pre ← preflight ctx req;
  match pre with
  | Err e => mret (refused e)
  | Ok (desired, plan) =>
      all ← reconcile_all ctx req desired plan no_rollback;
      match all with
      | (rb, Err e) => restored ← telemt_rollback req rb; mret (telemt_result false false restored [] None, Some e)
      | (rb, Ok ch) =>
          active ← activate ctx req plan ch;
          match active with
          | (relay, Err e) => restored ← telemt_rollback req rb; mret (telemt_result false relay restored [] None, Some e)
          | (relay, Ok path) => mret (telemt_result true relay false (ch_Deferred ch) path, None)
          end
      end
  end.

(** One apply at a time, on either engine, and none during an update. *)
Definition Apply (ctx : context) (req : Pb.ApplyRequest) : M (Pb.ApplyResult * option error) :=
  locked ← try_lock;
  if negb locked then mret (refused "node maintenance is already in progress")
  else
    r ← ((if String.eqb (cfg_Engine cfg) "telemt" then
            journal ← checkUpdateJournal cfg;
            match journal with Err e => mret (refused e) | Ok _ => applyTelemt ctx req end
          else relayApply cfg ctx req) : M (Pb.ApplyResult * option error));
    _ ← set_maintenance false;
    mret r.

End Apply.
