(* ===== verification/Settings.v ===== *)
(** * telemt's settings, and what a patch does to them

    The settings of telemt.toml an apply changes ([setting]), each a value at
    a path of the configuration.

    As an interface: the configuration telemt holds ([conf]), what each answer
    says of it ([configured]).  A value that reads the same is the same
    setting: an absent domain is an empty one. *)

From S2P Require Import Prelude WebPolicy TelemtTypes Json Node NodeLogic AgentFiles TelemtClient UpdateState UpdateJournal Reliability Url Upstream TelemtConfig Patches AgentProto Users UsersState Accounts SiteFiles RelayApply DecoyCheck TelemtApply.

(** ** The settings of an apply *)

Inductive setting :=
| Vhosts | MiddleProxy | Domain | Domains | Listeners | LinkPort | ProfileLimit | WebKey (k : string) | Timeout (t : string).

#[export] Instance setting_dec : EqDecision setting.
Proof. solve_decision. Defined.

Definition web_keys : list string :=
  ["carrier_method"; "conveyor"; "carrier"; "carriers"; "carrier_learning"; "carrier_negotiation_aggressiveness";
   "http_connection_capacity_action"]%string.

Definition path_of (s : setting) : list string :=
  match s with
  | Vhosts => ["web"; "vhosts"]
  | MiddleProxy => ["general"; "use_middle_proxy"]
  | Domain => ["censorship"; "tls_domain"]
  | Domains => ["censorship"; "tls_domains"]
  | Listeners => ["server"; "listeners"]
  | LinkPort => ["general"; "links"; "public_port"]
  | ProfileLimit => ["web"; "limits"; "max_profiles"]
  | WebKey k => ["web"; k]
  | Timeout t => ["web"; "timeouts"; t]
  end%string.

Definition known (s : setting) : Prop := match s with WebKey k => k ∈ web_keys | _ => True end.

(** The value of a setting. *)
Definition value_of (c : object) (s : setting) : json := leaf (JObject c) (path_of s).

(** How the agent reads a value. *)
Definition reading (s : setting) (v : json) : json :=
  match s with
  | Domain => JString (default EmptyString (as_string (Some v)))
  | Domains => strings (stringList (Some v))
  | MiddleProxy => JBool (match v with JBool b => b | _ => false end)
  | _ => v
  end.

Definition reads_same (s : setting) (v w : json) : Prop := reading s v = reading s w.

#[export] Instance reads_same_equivalence s : Equivalence (reads_same s).
Proof. unfold reads_same. split; [intros x|intros x y|intros x y z]; congruence. Qed.

Definition same_settings (c c' : object) : Prop := forall s, known s -> reads_same s (value_of c s) (value_of c' s).

#[export] Instance same_settings_equivalence : Equivalence same_settings.
Proof.
  split.
  - intros c s _. done.
  - intros c d H s Hs. symmetry. auto.
  - intros c d e H1 H2 s Hs. etrans; eauto.
Qed.

Lemma to_lower_twice s : Str.to_lower (Str.to_lower s) = Str.to_lower s.
Proof. induction s as [|c s IH]; [done|]. cbn. rewrite IH. f_equal. by destruct c as [[] [] [] [] [] [] [] []]. Qed.

Lemma stringList_strings l : stringList (Some (strings l)) = Str.to_lower <$> l.
Proof. unfold stringList, strings. cbn. by induction l as [|x l IH]; [|cbn; f_equal]. Qed.

Lemma stringList_lower v : Str.to_lower <$> stringList v = stringList v.
Proof.
  unfold stringList. generalize (default [] (as_array v)). intros l.
  induction l as [|x l IH]; [done|]. destruct x; try done. cbn. by rewrite to_lower_twice, IH.
Qed.

(** What is written back from a reading reads as it did. *)
Lemma reading_twice s v : reads_same s (reading s v) v.
Proof. unfold reads_same. destruct s; try done. cbn [reading]. by rewrite stringList_strings, stringList_lower. Qed.

(** ** What telemt promises of its configuration *)

(** Every setting has exactly the value it had. *)
Definition unchanged (c c' : object) : Prop := forall s, known s -> value_of c' s = value_of c s.

(** Every setting has the value the patch gives it. *)
Definition patched_with (p c c' : object) : Prop :=
  forall s, known s -> value_of c' s = leaf (merge (JObject c) (JObject p)) (path_of s).

Definition set_by {A} (c : call A) (h h' : object) : Prop :=
  match c with PatchConfig p _ => patched_with p h h' | _ => unchanged h h' end.

(** What an answer says of the configuration before and after the question; a
    request that failed may have been carried out when its answer was lost. *)
Definition configured {A} (e : effect A) : A -> object -> object -> Prop :=
  match e in effect A return A -> object -> object -> Prop with
  | Control c => fun a h h' =>
      match a with
      | inl _ => set_by c h h'
      | inr (APIError _ _ _) => unchanged h h'
      | inr (Transport _) => unchanged h h' \/ set_by c h h'
      end
  | _ => fun _ h h' => unchanged h h'
  end.

Class Settings `{Outside} := {
  conf : outside -> object;
  conf_answer : forall A (e : effect A) f o a d o', react e f o = (a, d, o') -> configured e a (conf o) (conf o');
  conf_shown : forall f o c rev d o', react (Control GetConfig) f o = (inl (c, rev), d, o') -> c = conf o
}.

(** ** The parts of an apply that change neither settings nor users

    Files, restarts, reloads, checks of the website: what telemt holds is
    afterwards what it was ([calm]).  The rest of an apply are the requests
    that change something, whose answers say what they did. *)

Local Open Scope go_scope.

(** The questions that change neither settings nor users. *)
Definition steady : questions := fun _ e =>
  match e with
  | Control c => match c with PatchConfig _ _ | CreateUser _ | PatchUser _ _ | DeleteUser _ | ResetQuota _ => False | _ => True end
  | _ => True
  end.

(** A relation between worlds in which every question of [steady] and every
    change of the files and of the agent's own variables is. *)
Class Quiet `{Outside} (R : world -> world -> Prop) := {
  quiet_preorder :: PreOrder R;
  quiet_perform : forall X (e : effect X) w, steady X e -> R w (perform e w).2;
  quiet_silent : forall w w', out w' = out w -> traced w w' -> R w w'
}.

#[export] Instance traced_quiet `{Outside} : Quiet traced.
Proof.
  pose proof plain_traced as H0. split; [|intros; by apply H0|done].
  split; [intros w; apply (plain_refl _ H0)|intros w w1 w2; apply (plain_trans _ H0)].
Qed.

Definition calm `{Outside} (R : world -> world -> Prop) {X} (m : M X) : Prop := forall w, R w (m w).2.

Section Held.
Context `{A : Accounts} `{T : !Settings}.

(** The configuration in a world. *)
Definition settings (w : world) : object := conf (out w).

(** telemt holds what it held. *)
Definition held_still (w w' : world) : Prop := unchanged (settings w) (settings w') /\ acc w' = acc w.

#[export] Instance held_still_quiet : Quiet held_still.
Proof.
  split.
  - split; [intros w; by split|]. intros w w1 w2 [H1 E1] [H2 E2]. split; [|congruence]. intros s Hs. by rewrite H2, H1.
  - intros X e w He. unfold perform. destruct (react e (fs w) (out w)) as [[a d] o] eqn:E. split.
    + apply conf_answer in E. unfold settings. cbn [snd out]. destruct e; try done. destruct c; try done; destruct a as [?|[]]; by try destruct E.
    + apply held_answer in E. unfold acc. cbn [snd out]. destruct e; try done. destruct c; try done; destruct a as [?|[]]; by try destruct E.
  - intros w w' E _. unfold held_still, settings, acc. rewrite E. by split.
Qed.

End Held.

Section Calm.
Context `{Outside} (R : world -> world -> Prop) `{Q : !Quiet R}.

Lemma calm_inv X (m : M X) w a w' : calm R m -> m w = (a, w') -> R w w'.
Proof. intros Hm E. specialize (Hm w). by rewrite E in Hm. Qed.

Lemma calm_bind X Y (m : M X) (k : X -> M Y) : calm R m -> (forall a, calm R (k a)) -> calm R (mbind k m).
Proof.
  intros Hm Hk w. unfold mbind, M_bind. specialize (Hm w). destruct (m w) as [a w']. etrans; [exact Hm|apply Hk].
Qed.

Lemma calm_ret X (a : X) : calm R (mret a).
Proof. intros w. reflexivity. Qed.

Lemma calm_try X Y (m : M (result X)) (k : X -> M (result Y)) : calm R m -> (forall a, calm R (k a)) -> calm R (try_bind m k).
Proof. intros Hm Hk. apply calm_bind; [done|]. intros [a|e]; [apply Hk|apply calm_ret]. Qed.

Lemma calm_wrapped X f (m : M (result X)) : calm R m -> calm R (wrapped f m).
Proof. intros Hm. apply calm_bind; [done|]. intros. apply calm_ret. Qed.

Lemma calm_ignore X (m : M X) : calm R m -> calm R (ignore m).
Proof. intros Hm. apply calm_bind; [done|]. intros. apply calm_ret. Qed.

Lemma calm_or_clean X (m : M (result X)) c : calm R m -> calm R c -> calm R (or_clean m c).
Proof. intros Hm Hc. apply calm_bind; [done|]. intros [a|e]; [apply calm_ret|]. apply calm_bind; [done|]. intros []. apply calm_ret. Qed.

Lemma calm_perform X (e : effect X) : steady X e -> calm R (perform e).
Proof. intros He w. by apply quiet_perform. Qed.

Lemma calm_silent X (m : M X) : (forall w, out (m w).2 = out w) -> (forall w, events (m w).2 = events w) -> (forall w, fs (m w).2 = fs w) -> calm R m.
Proof. intros Ho He Hf w. apply quiet_silent; [done|]. exists []. split; [exact (He w)|exact (Hf w)]. Qed.

Lemma calm_set_files f : calm R (set_files f).
Proof. intros w. apply quiet_silent; [done|]. by exists [Wrote f]. Qed.

End Calm.

#[export] Hint Resolve calm_ret calm_set_files : calm.
#[export] Hint Extern 4 (calm _ (perform _)) => (apply calm_perform; [apply _|exact I]) : calm.
#[export] Hint Extern 4 (calm _ clock) => (apply calm_silent; [apply _|done..]) : calm.
#[export] Hint Extern 4 (calm _ the_files) => (apply calm_silent; [apply _|done..]) : calm.
#[export] Hint Extern 4 (calm _ (sleep_until _)) => (apply calm_silent; [apply _|done..]) : calm.
#[export] Hint Extern 4 (calm _ (set_instance _)) => (apply calm_silent; [apply _|done..]) : calm.

Ltac calm_step :=
  match goal with
  | |- forall _, _ => intro
  | |- calm _ (mbind _ _) => apply calm_bind; [apply _|..]
  | |- calm _ (try_bind _ _) => apply calm_try; [apply _|..]
  | |- calm _ (or_clean _ _) => apply calm_or_clean; [apply _|..]
  | |- calm _ (ignore _) => apply calm_ignore; [apply _|..]
  | |- calm _ (wrapped _ _) => apply calm_wrapped; [apply _|..]
  | |- calm _ (match ?x with _ => _ end) => destruct x
  | |- calm _ ((match ?x with _ => _ end) _) => destruct x; cbv beta
  | |- calm _ ((match ?x with _ => _ end) _ _) => destruct x; cbv beta
  | |- calm _ (let _ := _ in _) => cbv zeta
  end.
Ltac calm := repeat first [calm_step | solve [eauto with calm typeclass_instances]].

Section Parts.
Context `{Outside} (R : world -> world -> Prop) `{Q : !Quiet R} `{O : MapOrder} `{JC : JournalCodec} `{HT : HtmlTokenizer}.
Context (cfg : Config).

(** ** System calls *)

Lemma calm_check op : calm R (check op).
Proof. unfold check. calm. Qed.
Hint Resolve calm_check : calm.
Lemma calm_on_file op name p k : calm R (on_file op name p k).
Proof. unfold on_file. calm. Qed.
Hint Resolve calm_on_file : calm.
Lemma calm_stat op p : calm R (stat op p).
Proof. unfold stat. calm. Qed.
Hint Resolve calm_stat : calm.
Lemma calm_read_file p : calm R (read_file p).
Proof. unfold read_file. calm. Qed.
Hint Resolve calm_read_file : calm.
Lemma calm_must_read p : calm R (must_read p).
Proof. unfold must_read. calm. Qed.
Hint Resolve calm_must_read : calm.
Lemma calm_open_trunc p m : calm R (open_trunc p m).
Proof. unfold open_trunc. calm. Qed.
Hint Resolve calm_open_trunc : calm.
Lemma calm_write p d : calm R (write p d).
Proof. unfold write. calm. Qed.
Hint Resolve calm_write : calm.
Lemma calm_create_temp dir s : calm R (create_temp dir s).
Proof. unfold create_temp. generalize (Z.to_nat 10000). intros n. induction n; cbn [create_temp_try]; calm. Qed.
Hint Resolve calm_create_temp : calm.
Lemma calm_wait ctx d : calm R (wait ctx d).
Proof. unfold wait. calm. Qed.
Hint Resolve calm_wait : calm.
Lemma calm_poll X fuel ctx d (body : M (option X)) ended : calm R body -> (forall e, calm R (ended e)) -> calm R (poll fuel ctx d body ended).
Proof. intros Hb He. induction fuel; cbn [poll]; calm. Qed.

Lemma calm_writeAtomicAs p d mode owner : calm R (writeAtomicAs p d mode owner).
Proof. unfold writeAtomicAs, stage_file, commit_file, remove, rename, chmod, chown. calm. Qed.
Hint Resolve calm_writeAtomicAs : calm.
Lemma calm_writeAtomic p d mode : calm R (writeAtomic p d mode).
Proof. unfold writeAtomic. calm. Qed.
Hint Resolve calm_writeAtomic : calm.

(** ** Requests *)

Lemma calm_control X ctx (c : call X) : steady _ (Control c) -> calm R (control ctx c).
Proof. intros Hc. pose proof (calm_perform R _ (Control c) Hc). unfold control. calm. Qed.
Lemma calm_textual X (m : M (X + apierror)) : calm R m -> calm R (textual m).
Proof. intros. unfold textual. calm. Qed.
Lemma calm_request X ctx (c : call X) : steady _ (Control c) -> calm R (textual (control ctx c)).
Proof. intros. by apply calm_textual, calm_control. Qed.
Lemma calm_system_info ctx : calm R (system_info ctx).
Proof. by apply calm_request. Qed.
Hint Resolve calm_system_info : calm.
Lemma calm_get_config ctx : calm R (get_config ctx).
Proof. by apply calm_request. Qed.
Hint Resolve calm_get_config : calm.
Lemma calm_send_reload ctx : calm R (send_reload ctx).
Proof. pose proof (calm_request _ ctx Reload I). unfold send_reload. calm. Qed.
Hint Resolve calm_send_reload : calm.

Lemma calm_waitTelemtReady ctx : calm R (waitTelemtReady cfg ctx).
Proof.
  pose proof (calm_control _ ctx GetReady I). unfold waitTelemtReady. apply calm_bind; [apply _|calm|]. intros t.
  apply calm_poll; [unfold ready_once; calm|calm].
Qed.
Hint Resolve calm_waitTelemtReady : calm.
Lemma calm_restartTelemt ctx : calm R (restartTelemt cfg ctx).
Proof. unfold restartTelemt. calm. Qed.
Hint Resolve calm_restartTelemt : calm.
Lemma calm_telemtReload ctx : calm R (telemtReload cfg ctx).
Proof.
  pose proof (calm_request _ ctx Reload I). unfold telemtReload. apply calm_try; [apply _|calm|]. intros acc0. apply calm_bind; [apply _|calm|]. intros t.
  pose proof (calm_request _ ctx (ReloadStatus (ReloadID acc0)) I). apply calm_poll; [unfold reload_once; calm|calm].
Qed.
Hint Resolve calm_telemtReload : calm.

(** ** The website *)

Lemma calm_mkdir_all p : calm R (mkdir_all p).
Proof. unfold mkdir_all. calm. Qed.
Hint Resolve calm_mkdir_all : calm.
Lemma calm_write_file p d m : calm R (write_file p d m).
Proof. unfold write_file. calm. Qed.
Hint Resolve calm_write_file : calm.
Lemma calm_remove_all d : calm R (remove_all d).
Proof.
  assert (Hr : forall l, calm R (remove_each l)) by (intros l; induction l; cbn [remove_each]; calm). unfold remove_all. calm.
Qed.
Hint Resolve calm_remove_all : calm.
Lemma calm_copyDir a b : calm R (copyDir a b).
Proof.
  unfold copyDir. apply calm_bind; [apply _|calm|]. intros f. generalize (walk a f). intros l.
  induction l as [|[r|r] l IH]; cbn [copy_entries copy_entry]; calm.
Qed.
Hint Resolve calm_copyDir : calm.
Lemma calm_swapSiteDir d : calm R (swapSiteDir cfg d).
Proof. unfold swapSiteDir, take_place, exchangeDirectories, rename_dir. calm. Qed.
Hint Resolve calm_swapSiteDir : calm.
Lemma calm_writeSiteDir site : calm R (writeSiteDir cfg site).
Proof.
  unfold writeSiteDir. generalize (range_order (map_to_list site)). intros l. cbv zeta. apply calm_bind; [apply _|calm|]. intros _.
  apply calm_try; [apply _| |calm]. induction l as [|[p c] l IH]; cbn [stage_site]; calm.
Qed.
Hint Resolve calm_writeSiteDir : calm.
Lemma calm_siteEquals site : calm R (siteEquals cfg site).
Proof.
  unfold siteEquals, readSite. apply calm_bind; [apply _| |calm]. apply calm_bind; [apply _|calm|]. intros f.
  generalize (walk (siteDir cfg) f), (@nil string), (∅ : bundle). intros l. induction l as [|[r|r] l IH]; intros sk out; cbn [read_entries]; calm.
Qed.
Hint Resolve calm_siteEquals : calm.
Lemma calm_backup_dir : calm R (backup_dir cfg).
Proof. unfold backup_dir, randSuffix. calm. Qed.
Hint Resolve calm_backup_dir : calm.
Lemma calm_pruneBackups n : calm R (pruneBackups cfg n).
Proof.
  unfold pruneBackups. apply calm_bind; [apply _|calm|]. intros f. apply calm_bind; [apply _|calm|]. intros [u|e]; [|calm]. cbv zeta.
  generalize (take (length (backups cfg f) - n) (backups cfg f)), 0%nat, (@None error). intros l.
  induction l as [|d l IH]; intros k e; cbn [remove_backups]; calm.
Qed.
Hint Resolve calm_pruneBackups : calm.

(** ** Checks *)

Lemma calm_each_ok {X} (f : X -> M (result unit)) l : (forall x, calm R (f x)) -> calm R (each_ok f l).
Proof. intros Hf. induction l; cbn [each_ok]; calm. Qed.
Lemma calm_fetch ctx u h : calm R (fetch ctx u h).
Proof. unfold fetch. calm. Qed.
Hint Resolve calm_fetch : calm.
Lemma calm_decoy_host ctx m : calm R (decoy_host ctx m).
Proof. pose proof (calm_request _ ctx GetConfig I). unfold decoy_host. calm. Qed.
Hint Resolve calm_decoy_host : calm.
Lemma calm_verifyDecoy ctx index m : calm R (verifyDecoy cfg ctx index m).
Proof.
  unfold verifyDecoy. apply calm_try; [apply _|calm|]. intros host. apply calm_each_ok. intros e. unfold verify_endpoint, verifyWebsiteAssets.
  apply calm_try; [apply _|calm|]. intros resp. destruct (read_limited _ _); [|calm]. destruct (_ || _); [calm|].
  destruct (localAssets index); [|calm]. destruct (Url.Parse e); [|calm]. apply calm_each_ok. intros p. unfold verify_asset, expected_asset. calm.
Qed.
Hint Resolve calm_verifyDecoy : calm.
Lemma calm_probeLiteralHTTPOrigin ctx o : calm R (probeLiteralHTTPOrigin ctx o).
Proof. unfold probeLiteralHTTPOrigin, probeHTTPWebsite. calm. Qed.
Hint Resolve calm_probeLiteralHTTPOrigin : calm.
Lemma calm_verify_site ctx plan : calm R (verify_site cfg ctx plan).
Proof. unfold verify_site, verifyDesiredDecoy, verifyUpstreamDecoy, probeHTTPWebsite. calm. Qed.
Hint Resolve calm_verify_site : calm.

(** ** The base path *)

Lemma calm_readWebPrefixes : calm R (readWebPrefixes cfg).
Proof. unfold readWebPrefixes. calm. Qed.
Hint Resolve calm_readWebPrefixes : calm.
Lemma calm_rememberWebPrefix h p : calm R (rememberWebPrefix cfg h p).
Proof. unfold rememberWebPrefix, writeWebPrefixes. calm. Qed.
Hint Resolve calm_rememberWebPrefix : calm.
Lemma calm_forgetWebPrefix h : calm R (forgetWebPrefix cfg h).
Proof. unfold forgetWebPrefix, writeWebPrefixes. calm. Qed.
Lemma calm_webPrefixLoaded ctx h : calm R (webPrefixLoaded cfg ctx h).
Proof. unfold webPrefixLoaded. calm. Qed.
Hint Resolve calm_webPrefixLoaded : calm.
Lemma calm_verifiedWebBasePath ctx req rev : calm R (verifiedWebBasePath cfg ctx req rev).
Proof. unfold verifiedWebBasePath. calm. Qed.
Hint Resolve calm_verifiedWebBasePath : calm.

Lemma calm_checkWebAdvanced ctx p : calm R (checkWebAdvanced ctx p).
Proof. unfold checkWebAdvanced. calm. Qed.
Hint Resolve calm_checkWebAdvanced : calm.

Lemma calm_activate ctx req plan ch : calm R (activate cfg ctx req plan ch).
Proof. unfold activate, reload_if, when. calm. Qed.

Lemma calm_preflight ctx req : calm R (preflight ctx req).
Proof. unfold preflight, telemtSitePlan, current_resolve. calm. Qed.

End Parts.

#[export] Hint Resolve calm_system_info calm_get_config calm_send_reload calm_restartTelemt calm_checkWebAdvanced calm_forgetWebPrefix
  calm_siteEquals calm_backup_dir calm_mkdir_all calm_copyDir calm_writeSiteDir calm_swapSiteDir calm_activate calm_preflight : calm.
