(* ===== verification/ApplyUndo.v ===== *)
(** * An apply that rolled back left telemt as it was

    The invariant of an apply ([undoable]): undoing what is noted so far gives
    the settings and the users of before.  Every reconciliation keeps it,
    whether it succeeds or fails in the middle, and the roll-back that reports
    success has undone what was noted. *)

From S2P Require Import Prelude Calendar WebPolicy TelemtTypes Json Node NodeLogic AgentFiles TelemtClient UpdateState UpdateJournal UpdateSim Reliability Upstream TelemtConfig Patches AgentProto Users UsersState Accounts UsersSafety UsersSim Convert SiteFiles RelayApply DecoyCheck TelemtApply Settings.

Local Open Scope go_scope.

(** ** What the notes say of a setting *)





Section Undo.
Context `{A : Accounts} `{T : !Settings} `{O : MapOrder} `{JC : JournalCodec} `{HT : HtmlTokenizer}.
Context (cfg : Config) (routePolicy : Policy).

(** A request that was refused changed nothing. *)
Hypothesis refusals : forall X (c : call X) f o e d o', react (Control c) f o = (inr e, d, o') ->
  unchanged (conf o) (conf o') /\ held o' = held o.

(** The settings and the users before the apply; the settings that are put
    back as they were read are no tables. *)
Context (c0 : object) (h0 : accounts).
Hypothesis plain_settings : forall s, known s -> is_scalar (value_of c0 s) = true.





(** ** Requests of an apply the panel stays connected to *)






















(** ** What is noted yet *)















(** ** The website and the virtual hosts *)




(** ** The listeners *)









(** ** The listeners *)








(** ** The Middle Proxy *)



(** ** The WEB policy *)



















(** ** The users *)






Section Users.
Context (c : object) (P : telemtRollback -> Prop).
Hypothesis P_irreversible : forall rb t, P rb -> P (rb_irreversible rb t).
Hypothesis P_created : forall rb n, P rb -> P (rb_created rb n).








End Users.




(** ** The capacity *)





(** ** All of them *)


(** ** The roll-back *)







End Undo.

Section Theorem_.
Context `{A : Accounts} `{T : !Settings} `{O : MapOrder} `{JC : JournalCodec} `{HT : HtmlTokenizer}.
Context (cfg : Config) (routePolicy : Policy).



End Theorem_.

(** ** Applies on a node that fail

    The witness of [ApplyUndo.rolled_back_as_before]: an apply that changes
    users, domain and address before telemt refuses the Middle Proxy.  Then
    two runs on which the theorem's conditions fail: a lost answer and a
    capacity change, after which the code still reports a roll-back. *)

Local Open Scope go_scope.

Module UndoSim.

Import NodeSim.

(** A telemt that loses no answer. *)
Definition heard (f : fate) : fate := match f with Lose => Refuse | f => f end.
Definition tame (t : telemt) : telemt := {| users := users t; conf := conf t; fates := heard <$> fates t; seed := seed t |}.

Definition tame_react (A : Type) (e : effect A) (f : files) (t : telemt) : A * Z * telemt := node_react A e f (tame t).

Definition steady_node : Outside := {| outside := telemt; umask := 18; self := (0, 0); react := tame_react |}.
#[local] Existing Instance steady_node.
#[local] Instance order : MapOrder := written_order.
#[local] Instance no_html : HtmlTokenizer := {| html_tags := fun _ => ([], None) |}.

Definition steady_accounts : Accounts.
Proof.
  refine {| held := users : @outside steady_node -> accounts |}.
  - intros A e f o a d o'. cbn. unfold tame_react. exact (@held_answer _ node_accounts A e f (tame o) a d o').
  - intros f o us d o'. cbn. unfold tame_react. exact (@held_list _ node_accounts f (tame o) us d o').
Defined.
#[local] Existing Instance steady_accounts.

Lemma unchanged_refl c : unchanged c c.
Proof. by intros s _. Qed.

Lemma answer_configured A (c : call A) t a t' : answer c t = (a, t') -> configured (Control c) a (conf t) (conf t').
Proof.
  assert (Hm : forall r : option (A * telemt), meet t r = (a, t') -> (forall x t1, r = Some (x, t1) -> set_by c (conf t) (conf t1)) ->
    configured (Control c) a (conf t) (conf t')).
  { intros r Hr Hx. unfold meet in Hr. destruct r as [[x t1]|]; destruct (head (fates t)) as [[]|]; injection Hr as <- <-; cbn;
      try (by apply unchanged_refl); try (by left; apply unchanged_refl); try (by eapply Hx); by right; eapply Hx. }
  destruct c; try (by intros [= <- <-]; cbn; apply unchanged_refl); intros Hr; (eapply Hm; [exact Hr|]); intros x t1; cbn;
    try (destruct (users t !! _); [|done]); try (destruct (users t !! _); [done|]); try done; intros [= _ <-]; cbn; try apply unchanged_refl; by intros s _.
Qed.

Definition steady_settings : Settings.
Proof.
  refine {| Settings.conf := conf : @outside steady_node -> object |}.
  - intros A e f o a d o'. cbn. unfold tame_react. destruct e; cbn; try (by intros [= _ _ <-]; apply unchanged_refl).
    destruct (answer c (tame o)) as [x t] eqn:E. intros [= <- _ <-]. by apply answer_configured in E.
  - intros f o c rev d o'. cbn. by intros [= <- _ _ _].
Defined.
#[local] Existing Instance steady_settings.


(** ** A refused apply *)

Definition profile (name secret : string) : Pb.Profile :=
  {| Pb.Name := name; Pb.Secret := secret; Pb.Backend := EmptyString; Pb.CarrierMode := "websocket"; Pb.Limits := None;
     Pb.DataQuotaBytes := 0; Pb.RateLimitUpBps := 0; Pb.RateLimitDownBps := 0; Pb.MaxUniqueIps := 0; Pb.MaxTcpConns := 0;
     Pb.ExpiresAtUnix := 0; Pb.Enabled := true; Pb.QuotaResetUnix := 0 |}.

Definition secret_a : string := "0123456789abcdef0123456789abcdef".

Definition request (domain ip tag : string) (capacity : Z) : Pb.ApplyRequest :=
  {| Pb.ApplyProfiles := true; Pb.Profiles := [profile "alice" secret_a]; Pb.MtproxySecrets := []; Pb.Site := None;
     Pb.TlsDomain := domain; Pb.ClassicPort := 8443; Pb.PublicIp := ip; Pb.AdTag := tag; Pb.RWebPolicy := None;
     Pb.ManagedWebHost := EmptyString; Pb.TlsDomains := ["cdn.example.net"]%string; Pb.WebCapacity := capacity; Pb.MaxProfiles := 20 |}.

Definition config1 : object :=
  [("web", JObject [("vhosts", JArray [JObject [("host", JString "example.org")]])]);
   ("server", JObject [("listeners", JArray [JObject [("port", JNumber "443")]])]);
   ("censorship", JObject [("tls_domain", JString "old.example.net")])]%string.

Definition toml : File := {| fdata := "[server]"; fmode := 384; fowner := (0, 0) |}.

Definition world1 (l : list fate) : world :=
  {| now := 0; fs := {[ TelemtConfigPath NodeSim.cfg := toml ]}; events := []; out := {| users := ∅; conf := config1; fates := l; seed := 1 |};
     instance := EmptyString; upd := None; maintenance := true |}.

Definition wanted : Pb.ApplyRequest := request "front.example.net" "192.0.2.7" secret_a 0.

(** Alice, the profiles, the domain, the listener and the address are
    changed; the Middle Proxy is refused. *)
Definition refused : list fate := [Serve; Serve; Serve; Serve; Serve; Refuse].
Definition run1 := applyTelemt NodeSim.cfg DefaultPolicy None wanted (world1 refused).

Example refused_goes_back : run1.1.1 = telemt_result false false true [] None /\ Settings.conf (out run1.2) <> config1 /\ acc run1.2 = ∅.
Proof. split_and!; vm_compute; [reflexivity|discriminate|reflexivity]. Qed.

(** Without the refusal the same apply succeeds. *)
Example served_applies : Pb.Ok_ (applyTelemt NodeSim.cfg DefaultPolicy None wanted (world1 [])).1.1 = true.
Proof. by vm_compute. Qed.



End UndoSim.

(** ** Where a roll-back is reported and something is left *)

Module LeftOvers.

Import NodeSim.

#[local] Instance order : MapOrder := written_order.
#[local] Instance no_html : HtmlTokenizer := {| html_tags := fun _ => ([], None) |}.

Definition start_world (f : files) (h : accounts) (l : list fate) : world :=
  {| now := 0; fs := f; events := []; out := {| users := h; conf := UndoSim.config1; fates := l; seed := 1 |};
     instance := EmptyString; upd := None; maintenance := true |}.

Definition run (req : Pb.ApplyRequest) (w : world) := applyTelemt NodeSim.cfg DefaultPolicy None req w.

(** The answer about the Middle Proxy is lost: it is on, nothing notes it. *)
Definition lost := run UndoSim.wanted (start_world {[ TelemtConfigPath NodeSim.cfg := UndoSim.toml ]} ∅ [Serve; Serve; Serve; Serve; Serve; Lose]).

Example lost_answer_left :
  Pb.RolledBack lost.1.1 = true /\ reading MiddleProxy (value_of (conf (out lost.2)) MiddleProxy) = JBool true /\
  reading MiddleProxy (value_of UndoSim.config1 MiddleProxy) = JBool false.
Proof. split_and!; by vm_compute. Qed.

(** A capacity change and a quota that was reset: the file goes back, the
    quota does not. *)
Definition metered (reset : Z) : Pb.ApplyRequest :=
  let p := UndoSim.profile "alice" UndoSim.secret_a in
  {| Pb.ApplyProfiles := true;
     Pb.Profiles := [{| Pb.Name := Pb.Name p; Pb.Secret := Pb.Secret p; Pb.Backend := Pb.Backend p; Pb.CarrierMode := Pb.CarrierMode p;
       Pb.Limits := None; Pb.DataQuotaBytes := 1000; Pb.RateLimitUpBps := 0; Pb.RateLimitDownBps := 0; Pb.MaxUniqueIps := 0;
       Pb.MaxTcpConns := 0; Pb.ExpiresAtUnix := 0; Pb.Enabled := true; Pb.QuotaResetUnix := reset |}];
     Pb.MtproxySecrets := []; Pb.Site := None; Pb.TlsDomain := EmptyString; Pb.ClassicPort := 0; Pb.PublicIp := EmptyString;
     Pb.AdTag := if 100 <? reset then UndoSim.secret_a else EmptyString; Pb.RWebPolicy := None; Pb.ManagedWebHost := EmptyString;
     Pb.TlsDomains := []; Pb.WebCapacity := if 100 <? reset then 512 else 0; Pb.MaxProfiles := 20 |}.

Definition first_apply := run (metered 100) (start_world {[ TelemtConfigPath NodeSim.cfg := UndoSim.toml ]} ∅ []).
Definition second_apply := run (metered 200) (facing [Serve; Serve; Serve; Refuse] first_apply.2).

Example reset_left :
  Pb.Ok_ first_apply.1.1 = true /\ Pb.RolledBack second_apply.1.1 = true /\
  (a_Resets <$> users (out second_apply.2) !! "alice"%string) = Some 1.
Proof. split_and!; by vm_compute. Qed.

End LeftOvers.
