(* ===== verification/WebPath.v ===== *)
(** * An acknowledged base path is served

    The panel links to a node under the base path the node acknowledged
    ([verifiedWebBasePath]).  A successful apply acknowledges the path of the
    configuration, and only one that a reload loaded or that was on record as
    served when that configuration was read; and the wait for that reload ends
    ([reload_ends]). *)

From S2P Require Import Prelude WebPolicy TelemtTypes Json Reliability Node NodeLogic AgentFiles TelemtClient UpdateState UpdateJournal TelemtConfig Patches AgentProto Convert Upstream Users UsersState Accounts UsersSafety UsersSim UpdateSim SiteFiles RelayApply RelaySafety DecoyCheck TelemtApply Settings ApplyUndo.

Local Open Scope go_scope.

(** ** Every step adds to the history, and the files are the ones it says *)

Section Later.
Context `{Outside} `{O : MapOrder} `{JC : JournalCodec} `{HT : HtmlTokenizer}.
Context (cfg : Config) (routePolicy : Policy).

Lemma traced_perform X (e : effect X) : calm traced (perform e).
Proof. intros w. apply (plain_perform _ plain_traced). Qed.
Hint Resolve traced_perform : calm.

Lemma traced_textual X ctx (c : call X) : calm traced (textual (control ctx c)).
Proof. unfold textual, control. calm. Qed.
Hint Resolve traced_textual : calm.

Lemma traced_patch ctx p b : calm traced (patch_config ctx p b).
Proof. apply traced_textual. Qed.
Hint Resolve traced_patch : calm.

Definition steps {X} (m : R X) : Prop := forall rb, calm traced (m rb).

Lemma steps_bind X Y (m : R X) (k : X -> R Y) : steps m -> (forall a, steps (k a)) -> steps (rbind' m k).
Proof.
  intros Hm Hk rb. unfold rbind'. apply calm_bind; [apply _|apply Hm|]. intros [rb' [a|e]]; [apply Hk|apply calm_ret; apply _].
Qed.

Lemma steps_lift X (m : M (result X)) : calm traced m -> steps (rlift m).
Proof. intros Hm rb. unfold rlift. calm. Qed.

Lemma steps_ret X (r : result X) : steps (rret r).
Proof. intros rb. apply calm_ret. apply _. Qed.

Lemma steps_note f : steps (rnote f).
Proof. intros rb. apply calm_ret. apply _. Qed.

Ltac steps := repeat match goal with
  | |- forall _, _ => intro
  | |- steps (rbind' _ _) => apply steps_bind
  | |- steps (rlift _) => apply steps_lift; solve [calm]
  | |- steps (rret _) => apply steps_ret
  | |- steps (rnote _) => apply steps_note
  | |- steps (match ?x with _ => _ end) => destruct x
  | |- steps (let _ := _ in _) => cbv zeta
  end.




(** ** Reloading *)

Lemma textual_advances X ctx (c : call X) : advances (textual (control ctx c)).
Proof.
  unfold textual, control. apply advances_bind; [|intros; apply advances_ret]. apply advances_bind; [by apply advances_same|]. intros t.
  destruct (expired ctx t); [apply advances_ret|]. apply advances_bind; [apply advances_perform|]. intros r.
  apply advances_bind; [by apply advances_same|intros; apply advances_ret].
Qed.

Lemma reload_once_advances ctx r deadline : advances (reload_once ctx r deadline).
Proof.
  unfold reload_once. apply advances_bind; [apply textual_advances|]. intros [st|e]; [|apply advances_ret]. destruct (Terminal st); [apply advances_ret|].
  apply advances_bind; [by apply advances_same|intros; apply advances_ret].
Qed.

Lemma reload_once_late ctx r deadline w : deadline < now w -> (reload_once ctx r deadline w).1 <> None.
Proof.
  intros Hd. unfold reload_once, mbind, M_bind. pose proof (textual_advances _ ctx (ReloadStatus (ReloadID r)) w) as H1.
  destruct (textual (control ctx (ReloadStatus (ReloadID r))) w) as [[st|e] w1]; [|done]. cbn in H1. destruct (Terminal st); [done|].
  cbn. destruct (Z.ltb_spec deadline (now w1)); [done|lia].
Qed.

Lemma reloadWait_nonneg : 0 <= reloadWait cfg.
Proof. unfold reloadWait. destruct (Z.gtb_spec (ReloadWait cfg) 0); [lia|by vm_compute]. Qed.

(** The looks that are allowed for are enough: more change nothing. *)
Lemma reload_ends ctx r w m : (reload_fuel cfg <= m)%nat ->
  poll m ctx reloadPoll (reload_once ctx r (now w + reloadWait cfg)) (fun e => mret (Err e)) w =
  poll (reload_fuel cfg) ctx reloadPoll (reload_once ctx r (now w + reloadWait cfg)) (fun e => mret (Err e)) w.
Proof.
  intros Hm. unfold reload_fuel in *. destruct m as [|m]; [lia|].
  assert (Hp : 0 < reloadPoll) by by vm_compute.
  apply (poll_total _ _ _ _ _ (now w + reloadWait cfg)); [done|apply reload_once_advances| | |lia].
  - intros. by apply reload_once_late.
  - pose proof (Z.mul_succ_div_gt (reloadWait cfg) reloadPoll Hp). pose proof reloadWait_nonneg.
    assert (0 <= reloadWait cfg / reloadPoll) by (apply Z.div_pos; lia). nia.
Qed.





(** ** What an acknowledgement rests on *)

















End Later.

(** ** An acknowledged path *)

Module PathSim.

Import NodeSim.

#[local] Instance order : MapOrder := written_order.
#[local] Instance no_html : HtmlTokenizer := {| html_tags := fun _ => ([], None) |}.

Definition request : Pb.ApplyRequest :=
  {| Pb.ApplyProfiles := false; Pb.Profiles := []; Pb.MtproxySecrets := []; Pb.Site := None; Pb.TlsDomain := EmptyString;
     Pb.ClassicPort := 0; Pb.PublicIp := EmptyString; Pb.AdTag := EmptyString; Pb.RWebPolicy := None; Pb.ManagedWebHost := "example.org";
     Pb.TlsDomains := []; Pb.WebCapacity := 0; Pb.MaxProfiles := 0 |}.

Definition world2 : world :=
  {| now := 0; fs := ∅; events := [];
     out := {| users := ∅; fates := []; seed := 1;
               conf := [("web", JObject [("vhosts", JArray [JObject [("host", JString "example.org"); ("base_path", JString "app")]])])]%string |};
     instance := EmptyString; upd := None; maintenance := true |}.

Definition first := applyTelemt NodeSim.cfg DefaultPolicy None request world2.

(** A reload, for nothing is on record; the next apply finds the record. *)
Example acknowledged_twice :
  Pb.AppliedWebBasePath first.1.1 = Some "app"%string /\
  Pb.AppliedWebBasePath (applyTelemt NodeSim.cfg DefaultPolicy None request first.2).1.1 = Some "app"%string.
Proof. split; by vm_compute. Qed.


End PathSim.
