(* ===== verification/KeyInvariants.v ===== *)
(** * What every change of the keys keeps

    Three facts about the tables, kept by every operation of the key service
    that commits: the rows fit together ([wf]), a node never has more profiles
    than it may ([capacity]), and a profile carries the secret, carrier and
    limits of its key ([mirrors]).  And a fourth about each operation: a node
    whose profiles change is marked dirty with a new sequence number in the
    same transaction ([tracks]). *)

From S2P Require Import Prelude DomainTypes Tables Keys.
Import DomainTypes.Types.

Local Open Scope go_scope.

(** ** Transactions that commit *)

Lemma bind_Ok {A B} (m : Tx A) (k : A -> Tx B) s b s' : (m ≫= k) s = Ok (b, s') <-> exists a s1, m s = Ok (a, s1) /\ k a s1 = Ok (b, s').
Proof.
  unfold mbind, Tx_bind. destruct (m s) as [[a s1]|e]; split.
  - intros E. by exists a, s1.
  - by intros (? & ? & [= -> ->] & ?).
  - done.
  - by intros (? & ? & ? & ?).
Qed.

Lemma ret_Ok {A} (a b : A) s s' : (mret a : Tx A) s = Ok (b, s') <-> a = b /\ s = s'.
Proof. unfold mret, Tx_ret. split; [by intros [= -> ->]|by intros [-> ->]]. Qed.

Lemma require_Ok b e s u s' : require b e s = Ok (u, s') <-> b = true /\ s' = s.
Proof. unfold require. destruct b; cbn; [rewrite ret_Ok; destruct u; naive_solver|]. split; [done|by intros [? _]]. Qed.

Lemma read_Ok {A} (f : Store -> A) s a s' : read f s = Ok (a, s') <-> a = f s /\ s' = s.
Proof. unfold read. split; [by intros [= <- <-]|by intros [-> ->]]. Qed.

Lemma modify_Ok f s u s' : modify f s = Ok (u, s') <-> s' = f s.
Proof. unfold modify. destruct u. split; [by intros [= <-]|by intros ->]. Qed.

Lemma drawn_Ok {A} (r : result A) s a s' : drawn r s = Ok (a, s') <-> r = Ok a /\ s' = s.
Proof. unfold drawn. destruct r; split; [by intros [= -> ->]|by intros [[= ->] ->]|done|by intros [? _]]. Qed.

Lemma fail_Ok {A} e s (a : A) s' : fail e s = Ok (a, s') <-> False.
Proof. done. Qed.

Lemma one_Ok {A} (o : option A) s a s' : one o s = Ok (a, s') <-> o = Some a /\ s' = s.
Proof. unfold one. destruct o; cbn; [rewrite ret_Ok; naive_solver|]. split; [done|by intros [? _]]. Qed.

Create HintDb tx discriminated.
#[export] Hint Rewrite @bind_Ok @ret_Ok require_Ok @read_Ok modify_Ok @drawn_Ok @fail_Ok @one_Ok : tx.

(** Open the transactions that committed into their statements. *)
Ltac tx := repeat (autorewrite with tx in *; match goal with
  | H : exists _, _ |- _ => destruct H as [? H]
  | H : _ /\ _ |- _ => destruct H
  end); autorewrite with tx in *; subst.

Lemma GetNode_Ok id s n s' : GetNode id s = Ok (n, s') <-> nodes s !! id = Some n /\ s' = s.
Proof. unfold GetNode. split; [intros ?; by tx|]. intros [? ->]. autorewrite with tx. eexists _, s. autorewrite with tx. eauto. Qed.

Lemma GetKey_Ok id s k s' : GetKey id s = Ok (k, s') <-> keys s !! id = Some k /\ s' = s.
Proof. unfold GetKey. split; [intros ?; by tx|]. intros [? ->]. autorewrite with tx. eexists _, s. autorewrite with tx. eauto. Qed.

Lemma known_key_Ok id s k s' : known_key id s = Ok (k, s') <-> keys s !! id = Some k /\ s' = s.
Proof.
  unfold known_key. autorewrite with tx. split.
  - intros (o & s1 & [-> ->]%read_Ok & E). destruct (keys s !! id); [by apply ret_Ok in E as [-> ->]|done].
  - intros [E ->]. exists (Some k), s. rewrite read_Ok, ret_Ok, E. done.
Qed.

Lemma named_node_Ok id s n s' : named_node id s = Ok (n, s') <-> nodes s !! id = Some n /\ s' = s.
Proof.
  unfold named_node. autorewrite with tx. split.
  - intros (o & s1 & [-> ->]%read_Ok & E). destruct (nodes s !! id); [by apply ret_Ok in E as [-> ->]|done].
  - intros [E ->]. exists (Some n), s. rewrite read_Ok, ret_Ok, E. done.
Qed.

Lemma not_revoked_Ok k s u s' : not_revoked k s = Ok (u, s') <-> k_Status k <> StatusRevoked /\ s' = s.
Proof. unfold not_revoked. autorewrite with tx. by rewrite negb_true_iff, bool_decide_eq_false. Qed.
#[export] Hint Rewrite GetNode_Ok GetKey_Ok known_key_Ok named_node_Ok not_revoked_Ok : tx.

Lemma CreateProfile_Ok `{Jsonb} pid now node key name secret backend carrier limits s i s' :
  CreateProfile pid now node key name secret backend carrier limits s = Ok (i, s') ->
  i = pid /\ profiles s !! pid = None /\ name_taken node name (profiles s) = false /\ is_Some (nodes s !! node) /\
  (forall k, key = Some k -> is_Some (keys s !! k)) /\
  s' = with_profiles s (<[pid := {| p_NodeID := node; p_KeyID := key; p_Name := name; p_SecretEnc := secret; p_Backend := backend; p_CarrierMode := carrier;
              p_Limits := jsonb limits; p_Sync := SyncPending; p_CreatedAt := now |}]> (profiles s)) (bindings s).
Proof.
  unfold CreateProfile. intros ?. tx. rewrite bool_decide_eq_true, negb_true_iff in *. split_and!; try done.
  intros k ->. match goal with E : bool_decide (is_Some (keys _ !! _)) = true |- _ => by apply bool_decide_eq_true in E end.
Qed.

Lemma CreateBinding_Ok key node pid s u s' :
  CreateBinding key node pid s = Ok (u, s') ->
  bindings s !! (key, node) = None /\ s' = with_profiles s (profiles s) (<[(key, node) := pid]> (bindings s)).
Proof. unfold CreateBinding. intros ?. tx. by rewrite bool_decide_eq_true in *. Qed.

Lemma on_key_Ok k f s s' u : on_key k f s = Ok (u, s') <-> s' = with_keys s (alter f k (keys s)).
Proof. apply modify_Ok. Qed.
#[export] Hint Rewrite on_key_Ok : tx.

(** ** What a profile brings to its node *)

Record Content := {
  c_Name : string; c_Secret : string; c_Backend : string; c_Carrier : string; c_Limits : string;
  c_Key : option (string * option Z * bool * bool)
}.

(** Of the key; a status other than revoked makes no difference. *)
Definition view_content (v : KeyView) : string * option Z * bool * bool :=
  (kv_TelemtLimits v, kv_ExpiresAt v, bool_decide (kv_Status v = StatusRevoked), bool_decide (is_Some (kv_DisabledAt v))).

(** Everything of a row that an apply uses. *)
Definition content (p : Profile) (k : option KeyView) : Content :=
  {| c_Name := p_Name p; c_Secret := p_SecretEnc p; c_Backend := p_Backend p; c_Carrier := p_CarrierMode p; c_Limits := p_Limits p;
     c_Key := view_content <$> k |}.

Definition view_of (s : Store) (p : Profile) : option KeyView := k ← p_KeyID p; key_view <$> keys s !! k.

Definition contents (s : Store) (n : string) : gmap string Content :=
  omap (fun p => if on_node n p then Some (content p (view_of s p)) else None) (profiles s).

Lemma contents_lookup s n pid :
  contents s n !! pid = (p ← profiles s !! pid; if on_node n p then Some (content p (view_of s p)) else None).
Proof. unfold contents. by rewrite lookup_omap. Qed.

(** ** The facts *)

(** A node is left alone, or marked dirty under a new number. *)
Definition moved (touched : Prop) (r r' : Node) : Prop :=
  (n_MaxProfiles r' = n_MaxProfiles r /\ n_LastApplyAt r' = n_LastApplyAt r) /\
  ((~ touched /\ n_DirtySeq r' = n_DirtySeq r /\ n_Dirty r' = n_Dirty r) \/ (n_DirtySeq r < n_DirtySeq r' /\ n_Dirty r' = true)).

Definition bumped (B : gset string) (ns ns' : gmap string Node) : Prop :=
  forall n, match ns !! n, ns' !! n with
            | Some r, Some r' => moved (n ∈ B) r r'
            | None, None => True
            | _, _ => False
            end.

Definition tracks (s s' : Store) : Prop :=
  exists B, bumped B (nodes s) (nodes s') /\ forall n, n ∉ B -> contents s' n = contents s n.

(** The limits of a key are as the database keeps them. *)
Definition normal `{Jsonb} (k : AccessKey) : Prop := jsonb (k_Limits k) = k_Limits k /\ jsonb (k_TelemtLimits k) = k_TelemtLimits k.

Record wf `{Jsonb} (s : Store) : Prop := {
  wf_key : forall pid p k, profiles s !! pid = Some p -> p_KeyID p = Some k -> is_Some (keys s !! k) /\ bindings s !! (k, p_NodeID p) = Some pid;
  wf_binding : forall k n pid, bindings s !! (k, n) = Some pid -> exists p, profiles s !! pid = Some p /\ p_KeyID p = Some k /\ p_NodeID p = n;
  wf_node : forall pid p, profiles s !! pid = Some p -> is_Some (nodes s !! p_NodeID p);
  wf_jsonb : forall k key, keys s !! k = Some key -> normal key
}.

Definition count_on (n : string) (m : gmap string Profile) : nat := size (filter (fun kv => on_node n kv.2 = true) m).

Definition capacity (s : Store) : Prop := forall n r, nodes s !! n = Some r -> Z.of_nat (count_on n (profiles s)) <= n_MaxProfiles r.

Definition mirrors (s : Store) : Prop :=
  forall pid p k key, profiles s !! pid = Some p -> p_KeyID p = Some k -> keys s !! k = Some key ->
    p_SecretEnc p = k_SecretEnc key /\ p_CarrierMode p = k_CarrierMode key /\ p_Limits p = k_Limits key.

(** What of a profile stays as it is while only the times and the status of its
    key change. *)
Definition lasting (p : Profile) (v : option KeyView) : string * string * string * string * string * option string :=
  (p_Name p, p_SecretEnc p, p_Backend p, p_CarrierMode p, p_Limits p, kv_TelemtLimits <$> v).

(** A profile that is synced after was synced before, as it is. *)
Definition still (s s' : Store) : Prop :=
  forall pid p', profiles s' !! pid = Some p' -> p_Sync p' = SyncSynced ->
    exists p, profiles s !! pid = Some p /\ p_Sync p = SyncSynced /\ p_NodeID p = p_NodeID p' /\ lasting p (view_of s p) = lasting p' (view_of s' p').

Lemma still_refl s : still s s.
Proof. intros pid p E Es. by exists p. Qed.

Lemma still_trans s1 s2 s3 : still s1 s2 -> still s2 s3 -> still s1 s3.
Proof. intros H1 H2 pid p E Es. destruct (H2 _ _ E Es) as (p2 & E2 & Es2 & <- & <-). by apply H1. Qed.

Lemma moved_refl r : moved False r r.
Proof. split; [done|]. left. split_and!; [by intros []|done..]. Qed.

Lemma moved_trans P Q r1 r2 r3 : moved P r1 r2 -> moved Q r2 r3 -> moved (P \/ Q) r1 r3.
Proof.
  intros [[M1 L1] H1] [[M2 L2] H2]. split; [split; congruence|].
  destruct H1 as [(N1 & E1 & D1)|[? ?]], H2 as [(N2 & E2 & D2)|[? ?]]; [left|right..].
  - split_and!; [tauto|congruence|congruence].
  - split; [lia|done].
  - split; [lia|congruence].
  - split; [lia|done].
Qed.

Lemma bumped_refl ns : bumped ∅ ns ns.
Proof. intros n. destruct (ns !! n); [|done]. destruct (moved_refl n0) as [? [(? & ? & ?)|?]]; (split; [done|]); [left; split_and!; set_solver|by right]. Qed.

Lemma bumped_trans B1 B2 ns1 ns2 ns3 : bumped B1 ns1 ns2 -> bumped B2 ns2 ns3 -> bumped (B1 ∪ B2) ns1 ns3.
Proof.
  intros H1 H2 n. specialize (H1 n). specialize (H2 n). destruct (ns1 !! n), (ns2 !! n), (ns3 !! n); try done.
  destruct (moved_trans _ _ _ _ _ H1 H2) as [? [[? ?]|?]]; (split; [done|]); [left; split; [set_solver|done]|by right].
Qed.

Lemma bumped_dom B ns ns' n : bumped B ns ns' -> is_Some (ns' !! n) <-> is_Some (ns !! n).
Proof. intros H. specialize (H n). destruct (ns !! n), (ns' !! n); naive_solver. Qed.

Lemma tracks_refl s : tracks s s.
Proof. exists ∅. split; [apply bumped_refl|done]. Qed.

Lemma tracks_trans s1 s2 s3 : tracks s1 s2 -> tracks s2 s3 -> tracks s1 s3.
Proof.
  intros (B1 & H1 & C1) (B2 & H2 & C2). exists (B1 ∪ B2). split; [by eapply bumped_trans|].
  intros n Hn. rewrite C2, C1; set_solver.
Qed.

(** ** Marking nodes dirty *)

Lemma SetNodeDirty_bumped now n s s' u : SetNodeDirty now n s = Ok (u, s') ->
  bumped {[n]} (nodes s) (nodes s') /\ s' = with_nodes s (nodes s').
Proof.
  unfold SetNodeDirty. rewrite modify_Ok. intros ->. split; [|done]. cbn. intros i. destruct (decide (i = n)) as [->|].
  - rewrite lookup_alter_eq. destruct (nodes s !! n); [|done]. split; [done|]. right. cbn. lia.
  - rewrite lookup_alter_ne by done. destruct (nodes s !! i); [|done]. split; [done|]. left. split_and!; [set_solver|done..].
Qed.

Lemma each_dirty {A} (f : A -> string) now (l : list A) s s' u : each (fun b => SetNodeDirty now (f b)) l s = Ok (u, s') ->
  bumped (list_to_set (f <$> l)) (nodes s) (nodes s') /\ s' = with_nodes s (nodes s').
Proof.
  revert s. induction l as [|b l IH]; cbn [each fmap list_fmap list_to_set]; intros s E.
  - apply ret_Ok in E as [_ <-]. split; [apply bumped_refl|by destruct s].
  - apply bind_Ok in E as (? & s1 & [B1 E1]%SetNodeDirty_bumped & [B2 E2]%IH).
    split; [by eapply bumped_trans|]. rewrite E2, E1. done.
Qed.

(** The nodes a key is bound to. *)
Definition nodes_of (k : string) (s : Store) : gset string :=
  list_to_set (p_NodeID <$> (map_to_list (filter (fun kv => of_key k kv.2 = true) (profiles s))).*2).

Lemma nodes_of_spec k s n : n ∈ nodes_of k s <-> exists pid p, profiles s !! pid = Some p /\ p_KeyID p = Some k /\ p_NodeID p = n.
Proof.
  unfold nodes_of, of_key. rewrite elem_of_list_to_set, list_elem_of_fmap. split.
  - intros (p & -> & Hp). apply list_elem_of_fmap in Hp as ([pid p'] & -> & Hin). apply elem_of_map_to_list, map_lookup_filter_Some in Hin as [E Hk].
    cbn in *. exists pid, p'. destruct (p_KeyID p'); [|done]. apply String.eqb_eq in Hk as ->. done.
  - intros (pid & p & E & Hk & <-). exists p. split; [done|]. apply list_elem_of_fmap. exists (pid, p). split; [done|].
    apply elem_of_map_to_list, map_lookup_filter_Some. cbn. by rewrite Hk, String.eqb_refl.
Qed.

Lemma dirtyKeyNodes_bumped `{Jsonb} now k s s' u : wf s -> dirtyKeyNodes now k s = Ok (u, s') ->
  bumped (nodes_of k s) (nodes s) (nodes s') /\ s' = with_nodes s (nodes s').
Proof.
  unfold dirtyKeyNodes, ListKeyBindings. intros W E. apply bind_Ok in E as (l & s1 & [-> ->]%read_Ok & E).
  apply (each_dirty fst) in E as [B E]. split; [|done].
  match type of B with bumped ?X _ _ => replace (nodes_of k s) with X; [exact B|] end.
  apply set_eq. intros n. rewrite nodes_of_spec, elem_of_list_to_set, list_elem_of_fmap. split.
  - intros ([n' pid] & -> & Hin). apply list_elem_of_fmap in Hin as ([[k' n''] pid'] & [= -> ->] & Hin).
    apply elem_of_map_to_list, map_lookup_filter_Some in Hin as [Eb [? _]]. cbn in *. subst.
    destruct (wf_binding _ W _ _ _ Eb) as (p & ? & ? & ?). by exists pid', p.
  - intros (pid & p & Ep & Hk & <-). exists (p_NodeID p, pid). split; [done|]. apply list_elem_of_fmap.
    destruct (wf_key _ W _ _ _ Ep Hk) as [_ Eb]. exists ((k, p_NodeID p), pid). split; [done|].
    apply elem_of_map_to_list, map_lookup_filter_Some. split; [done|]. cbn. split_and!; [done|by eapply wf_node|by eexists].
Qed.

(** A node the key is not on keeps its row. *)
Lemma each_dirty_elsewhere {A} (f : A -> string) now (l : list A) s s' u x : each (fun b => SetNodeDirty now (f b)) l s = Ok (u, s') ->
  x ∉ f <$> l -> nodes s' !! x = nodes s !! x.
Proof.
  revert s. induction l as [|b l IH]; cbn [each fmap list_fmap]; intros s E Hx; [by apply ret_Ok in E as [_ <-]|].
  apply bind_Ok in E as (? & s1 & E1 & E). unfold SetNodeDirty in E1. apply modify_Ok in E1 as ->. apply not_elem_of_cons in Hx as [Hne Hx].
  rewrite (IH _ E Hx). cbn. by apply lookup_alter_ne, not_eq_sym.
Qed.

Lemma dirtyKeyNodes_elsewhere `{Jsonb} now k s s' u x : wf s -> dirtyKeyNodes now k s = Ok (u, s') -> x ∉ nodes_of k s ->
  nodes s' !! x = nodes s !! x.
Proof.
  unfold dirtyKeyNodes, ListKeyBindings. intros W E Hx. apply bind_Ok in E as (l & s1 & [-> ->]%read_Ok & E).
  apply (each_dirty_elsewhere fst _ _ _ _ _ x) in E; [done|]. contradict Hx. apply nodes_of_spec.
  apply list_elem_of_fmap in Hx as ([n' pid] & -> & Hin). apply list_elem_of_fmap in Hin as ([[k' n''] pid'] & [= -> ->] & Hin).
  apply elem_of_map_to_list, map_lookup_filter_Some in Hin as [Eb [? _]]. cbn in *. subst.
  destruct (wf_binding _ W _ _ _ Eb) as (p & ? & ? & ?). by exists pid', p.
Qed.

(** ** Changes to one key and its profiles *)

(** The rows of key [k] and of its profiles may change, but not which profiles
    there are, whose they are and where. *)
Record rekeyed `{Jsonb} (k : string) (s s' : Store) : Prop := {
  rk_keys : forall j, j <> k -> keys s' !! j = keys s !! j;
  rk_dom : is_Some (keys s' !! k) <-> is_Some (keys s !! k);
  rk_profiles : forall pid, match profiles s !! pid, profiles s' !! pid with
      | Some p, Some p' => p_KeyID p' = p_KeyID p /\ p_NodeID p' = p_NodeID p /\ (p_KeyID p <> Some k -> p' = p)
      | None, None => True
      | _, _ => False
      end;
  rk_bindings : bindings s' = bindings s;
  rk_jsonb : (forall key, keys s !! k = Some key -> normal key) -> forall key, keys s' !! k = Some key -> normal key
}.

Section Rekeyed.
Context `{J : Jsonb}.

Lemma rekeyed_refl k s : rekeyed k s s.
Proof. split; [done..| |done|done]. intros pid. by destruct (profiles s !! pid). Qed.

Lemma rekeyed_trans k s1 s2 s3 : rekeyed k s1 s2 -> rekeyed k s2 s3 -> rekeyed k s1 s3.
Proof.
  intros [K1 D1 P1 B1 J1] [K2 D2 P2 B2 J2]. split; [| | |congruence|auto].
  - intros j Hj. by rewrite K2, K1.
  - by rewrite D2.
  - intros pid. specialize (P1 pid). specialize (P2 pid). destruct (profiles s1 !! pid), (profiles s2 !! pid), (profiles s3 !! pid); try done.
    destruct P1 as (E1 & E2 & E3), P2 as (F1 & F2 & F3). split_and!; [congruence..|]. intros Hk. rewrite F3, E3 by congruence. done.
Qed.

Lemma rekeyed_back k s s' pid p' : rekeyed k s s' -> profiles s' !! pid = Some p' ->
  exists p, profiles s !! pid = Some p /\ p_KeyID p' = p_KeyID p /\ p_NodeID p' = p_NodeID p /\ (p_KeyID p <> Some k -> p' = p).
Proof. intros R E. pose proof (rk_profiles _ _ _ R pid) as H. rewrite E in H. destruct (profiles s !! pid) as [p|]; [|done]. by exists p. Qed.

Lemma rekeyed_forth k s s' pid p : rekeyed k s s' -> profiles s !! pid = Some p ->
  exists p', profiles s' !! pid = Some p' /\ p_KeyID p' = p_KeyID p /\ p_NodeID p' = p_NodeID p /\ (p_KeyID p <> Some k -> p' = p).
Proof. intros R E. pose proof (rk_profiles _ _ _ R pid) as H. rewrite E in H. destruct (profiles s' !! pid) as [p'|]; [|done]. by exists p'. Qed.

Lemma rekeyed_key k s s' j : rekeyed k s s' -> is_Some (keys s' !! j) <-> is_Some (keys s !! j).
Proof. intros [K D _ _ _]. destruct (decide (j = k)) as [->|]; [done|]. by rewrite K. Qed.

Lemma rekeyed_wf k B s s' : rekeyed k s s' -> bumped B (nodes s) (nodes s') -> wf s -> wf s'.
Proof.
  intros R Hb W. split.
  - intros pid p' j E Hk. destruct (rekeyed_back _ _ _ _ _ R E) as (p & Ep & E1 & E2 & _). rewrite E1 in Hk.
    destruct (wf_key _ W _ _ _ Ep Hk). rewrite (rekeyed_key _ _ _ _ R), (rk_bindings _ _ _ R), E2. done.
  - intros j n pid E. rewrite (rk_bindings _ _ _ R) in E. destruct (wf_binding _ W _ _ _ E) as (p & Ep & Hk & Hn).
    destruct (rekeyed_forth _ _ _ _ _ R Ep) as (p' & Ep' & E1 & E2 & _). exists p'. split_and!; [done|congruence..].
  - intros pid p' E. destruct (rekeyed_back _ _ _ _ _ R E) as (p & Ep & _ & -> & _). rewrite (bumped_dom _ _ _ _ Hb). by eapply wf_node.
  - intros j key E. destruct (decide (j = k)) as [->|Hj].
    + apply (rk_jsonb _ _ _ R); [|done]. intros key'. apply (wf_jsonb _ W).
    + rewrite (rk_keys _ _ _ R) in E by done. by apply (wf_jsonb _ W j).
Qed.

Lemma rekeyed_nodes_of k s s' : rekeyed k s s' -> nodes_of k s' = nodes_of k s.
Proof.
  intros R. apply set_eq. intros n. rewrite !nodes_of_spec. split.
  - intros (pid & p' & E & Hk & <-). destruct (rekeyed_back _ _ _ _ _ R E) as (p & Ep & E1 & E2 & _). exists pid, p. split_and!; [done|congruence..].
  - intros (pid & p & E & Hk & <-). destruct (rekeyed_forth _ _ _ _ _ R E) as (p' & Ep & E1 & E2 & _). exists pid, p'. split_and!; [done|congruence..].
Qed.

Lemma rekeyed_contents k s s' n : rekeyed k s s' -> n ∉ nodes_of k s -> contents s' n = contents s n.
Proof.
  intros R Hn. apply map_eq. intros pid. rewrite !contents_lookup. pose proof (rk_profiles _ _ _ R pid) as H.
  destruct (profiles s !! pid) as [p|] eqn:E, (profiles s' !! pid) as [p'|] eqn:E'; cbn; try done. destruct H as (E1 & E2 & E3).
  unfold on_node. rewrite E2. destruct (String.eqb_spec (p_NodeID p) n) as [<-|]; [|done].
  assert (Hk : p_KeyID p <> Some k). { intros Hk. apply Hn, nodes_of_spec. by exists pid, p. }
  rewrite E3 by done. unfold view_of. destruct (p_KeyID p) as [j|]; [|done]. cbn. rewrite (rk_keys _ _ _ R); [done|congruence].
Qed.

Lemma count_on_ext n (m m' : gmap string Profile) : (forall pid, (on_node n <$> m' !! pid) = (on_node n <$> m !! pid)) -> count_on n m' = count_on n m.
Proof.
  intros H. unfold count_on.
  assert (E : forall q : gmap string Profile, size (filter (fun kv => on_node n kv.2 = true) q) =
    size (filter (fun kv : string * bool => kv.2 = true) (fmap (M := gmap string) (on_node n) q))).
  { intros q. rewrite map_filter_fmap, map_size_fmap. done. }
  rewrite !E. f_equal. f_equal. apply map_eq. intros pid. by rewrite !lookup_fmap.
Qed.

Lemma rekeyed_count k s s' n : rekeyed k s s' -> count_on n (profiles s') = count_on n (profiles s).
Proof.
  intros R. apply count_on_ext. intros pid. pose proof (rk_profiles _ _ _ R pid) as H.
  destruct (profiles s !! pid), (profiles s' !! pid); try done. destruct H as (_ & E & _). cbn. unfold on_node. by rewrite E.
Qed.

Lemma bumped_capacity B s s' : bumped B (nodes s) (nodes s') -> (forall n, (count_on n (profiles s') <= count_on n (profiles s))%nat) -> capacity s -> capacity s'.
Proof.
  intros Hb Hc C n r' E. specialize (Hb n). rewrite E in Hb. destruct (nodes s !! n) as [r|] eqn:Er; [|done].
  destruct Hb as [[-> _] _]. specialize (C n r Er). specialize (Hc n). lia.
Qed.

(** What an operation keeps. *)
Record kept (s s' : Store) : Prop := {
  kept_wf : wf s -> wf s';
  kept_tracks : wf s -> tracks s s';
  kept_capacity : wf s -> capacity s -> capacity s';
  kept_mirrors : wf s -> mirrors s -> mirrors s';
  kept_still : wf s -> still s s'
}.

Lemma kept_refl s : kept s s.
Proof. split; try done; intros _; [apply tracks_refl|apply still_refl]. Qed.

Lemma kept_trans s1 s2 s3 : kept s1 s2 -> kept s2 s3 -> kept s1 s3.
Proof.
  intros [W1 T1 C1 M1 S1] [W2 T2 C2 M2 S2]. split.
  - auto.
  - intros W. eapply tracks_trans; eauto.
  - auto.
  - auto.
  - intros W. eapply still_trans; eauto.
Qed.

(** A change of one key that marks all its nodes dirty. *)
Lemma rekeyed_kept k B s s' : rekeyed k s s' -> bumped B (nodes s) (nodes s') ->
  (nodes_of k s ⊆ B \/ forall n, contents s' n = contents s n) ->
  (wf s -> mirrors s -> mirrors s') -> (wf s -> still s s') -> kept s s'.
Proof.
  intros R Hb Hn Hm Hs. split.
  - by eapply rekeyed_wf.
  - intros _. exists B. split; [done|]. intros n Hn'. destruct Hn as [Hn|Hn]; [|done]. apply (rekeyed_contents k s s'); [done|set_solver].
  - intros _. apply (bumped_capacity B s s'); [done|]. intros n. by rewrite (rekeyed_count k s s').
  - done.
  - done.
Qed.

(** ** The statements *)


Lemma on_key_rekeyed k f s : (forall key, normal key -> normal (f key)) -> rekeyed k s (with_keys s (alter f k (keys s))).
Proof.
  intros Hf. split; cbn; [|by rewrite lookup_alter_is_Some| |done|].
  - intros j Hj. by rewrite lookup_alter_ne.
  - intros pid. by destruct (profiles s !! pid).
  - intros Hn key. rewrite lookup_alter_eq. destruct (keys s !! k); [|done]. intros [= <-]. auto.
Qed.

(** A change of a key that its profiles do not show. *)
Lemma on_key_contents k f s n :
  (forall key, keys s !! k = Some key -> view_content (key_view (f key)) = view_content (key_view key)) ->
  contents (with_keys s (alter f k (keys s))) n = contents s n.
Proof.
  intros Hf. apply map_eq. intros pid. rewrite !contents_lookup. cbn. destruct (profiles s !! pid) as [p|]; [|done]. cbn.
  destruct (on_node n p); [|done]. f_equal. unfold content, view_of. f_equal. destruct (p_KeyID p) as [j|]; [|done]. cbn.
  destruct (decide (j = k)) as [->|]; [|by rewrite lookup_alter_ne]. rewrite lookup_alter_eq. destruct (keys s !! k) eqn:E; [|done]. cbn. f_equal. auto.
Qed.

(** Mirrors are kept where the key keeps what its profiles carry. *)
Lemma on_key_mirrors k f s :
  (forall key, keys s !! k = Some key -> k_SecretEnc (f key) = k_SecretEnc key /\ k_CarrierMode (f key) = k_CarrierMode key /\ k_Limits (f key) = k_Limits key) ->
  mirrors s -> mirrors (with_keys s (alter f k (keys s))).
Proof.
  intros Hf M pid p j key Ep Hj. cbn in *. destruct (decide (j = k)) as [->|].
  - rewrite lookup_alter_eq. destruct (keys s !! k) as [key'|] eqn:E; [|done]. intros [= <-].
    destruct (Hf key' eq_refl) as (-> & -> & ->). by eapply M.
  - rewrite lookup_alter_ne by done. intros E. by eapply M.
Qed.

Lemma mirrors_nodes s ns : mirrors s -> mirrors (with_nodes s ns).
Proof. done. Qed.

(** Marking the nodes of a key dirty after a change that kept its profiles. *)
Lemma dirty_after now k s s1 s' u : wf s -> rekeyed k s s1 -> nodes s1 = nodes s -> dirtyKeyNodes now k s1 = Ok (u, s') ->
  rekeyed k s s' /\ bumped (nodes_of k s) (nodes s) (nodes s') /\ s' = with_nodes s1 (nodes s').
Proof.
  intros W R En E. assert (W1 : wf s1). { eapply rekeyed_wf; [done| |done]. rewrite En. apply bumped_refl. }
  apply dirtyKeyNodes_bumped in E as [Hb E]; [|done]. rewrite (rekeyed_nodes_of _ _ _ R), En in Hb. split; [|by split].
  rewrite E. by destruct R.
Qed.

Lemma dirty_elsewhere now k s s1 s' u x : wf s -> rekeyed k s s1 -> nodes s1 = nodes s -> dirtyKeyNodes now k s1 = Ok (u, s') ->
  x ∉ nodes_of k s -> nodes s' !! x = nodes s !! x.
Proof.
  intros W R En E Hx. assert (W1 : wf s1). { eapply rekeyed_wf; [done| |done]. rewrite En. apply bumped_refl. }
  rewrite <- En. eapply dirtyKeyNodes_elsewhere; [done..|]. by rewrite (rekeyed_nodes_of _ _ _ R).
Qed.

(** The change of a key leaves what its profiles carry. *)
Definition carries_on (s : Store) (k : string) (f : AccessKey -> AccessKey) : Prop :=
  wf s -> forall key, keys s !! k = Some key ->
    k_SecretEnc (f key) = k_SecretEnc key /\ k_CarrierMode (f key) = k_CarrierMode key /\ k_Limits (f key) = k_Limits key /\
    k_TelemtLimits (f key) = k_TelemtLimits key.

Lemma carries_mirrors s k f : wf s -> carries_on s k f -> mirrors s -> mirrors (with_keys s (alter f k (keys s))).
Proof. intros W Hf. apply on_key_mirrors. intros key E. destruct (Hf W key E) as (? & ? & ? & _). done. Qed.

Lemma carries_still s k f : wf s -> carries_on s k f -> still s (with_keys s (alter f k (keys s))).
Proof.
  intros W Hf pid p E Es. exists p. split_and!; [done..|]. unfold lasting. f_equal. unfold view_of. destruct (p_KeyID p) as [j|]; [|done]. cbn.
  destruct (decide (j = k)) as [->|]; [|by rewrite lookup_alter_ne]. rewrite lookup_alter_eq. destruct (keys s !! k) as [key|] eqn:Ek; [|done].
  cbn. f_equal. destruct (Hf W key Ek) as (_ & _ & _ & ->). done.
Qed.

Lemma still_nodes s s' ns : still s s' -> still s (with_nodes s' ns).
Proof. done. Qed.

(** A change of a key followed by marking its nodes. *)
Lemma on_key_dirty_kept now k f s s' u :
  (forall key, normal key -> normal (f key)) -> carries_on s k f ->
  dirtyKeyNodes now k (with_keys s (alter f k (keys s))) = Ok (u, s') -> kept s s'.
Proof.
  intros Hn Hf E.
  assert (H0 : wf s -> kept s s').
  { intros W. destruct (dirty_after now k s _ s' u W (on_key_rekeyed k f s Hn) eq_refl E) as (R & Hb & Es).
    apply (rekeyed_kept k _ s s' R Hb); [by left| |].
    - intros _ M. rewrite Es. by apply mirrors_nodes, carries_mirrors.
    - intros _. rewrite Es. by apply still_nodes, carries_still. }
  split; intros W; apply (H0 W); done.
Qed.

(** A change of a key that nothing shows. *)
Lemma on_key_quiet_kept k f s :
  (forall key, normal key -> normal (f key)) -> carries_on s k f ->
  (wf s -> forall key, keys s !! k = Some key -> view_content (key_view (f key)) = view_content (key_view key)) ->
  kept s (with_keys s (alter f k (keys s))).
Proof.
  intros Hn Hf Hv.
  assert (H0 : wf s -> kept s (with_keys s (alter f k (keys s)))).
  { intros W. apply (rekeyed_kept k ∅).
    - by apply on_key_rekeyed.
    - apply bumped_refl.
    - right. intros n. apply on_key_contents. auto.
    - intros _. by apply carries_mirrors.
    - intros _. by apply carries_still. }
  split; intros W; apply (H0 W); done.
Qed.

End Rekeyed.

(** ** The operations *)

Section Operations.
Context `{O : MapOrder} `{J : Jsonb} `{L : LimitsJson}.

Lemma set_times_normal e d x key : normal key -> normal (set_times e d x key).
Proof. by destruct key. Qed.

Lemma extend_kept now k t s s' u : extend_body now k t s = Ok (u, s') -> kept s s'.
Proof.
  unfold extend_body, SetKeyExpiry. intros H. tx. eapply on_key_dirty_kept; [| |done]; [intros key; apply set_times_normal|done].
Qed.

Lemma expire_kept now k s s' u : expire_body now k s = Ok (u, s') -> kept s s'.
Proof.
  unfold expire_body, SetKeyExpired. intros H. tx. eapply on_key_dirty_kept; [| |done]; [intros key; apply set_times_normal|done].
Qed.

Lemma disable_kept now k b s s' u : disable_body now k b s = Ok (u, s') -> kept s s'.
Proof.
  unfold disable_body, SetKeyDisabled. intros H. tx. destruct (Bool.eqb _ b); tx; [apply kept_refl|].
  eapply on_key_dirty_kept; [| |done]; [intros key; apply set_times_normal|done].
Qed.

Lemma take_slug_kept k slug s s' u : take_slug k slug s = Ok (u, s') -> kept s s'.
Proof.
  unfold take_slug. destruct (SetKeySlug k (Some slug) s) as [[[] s1]|e] eqn:E; [|done]. intros [= _ <-].
  unfold SetKeySlug in E. tx. apply on_key_quiet_kept; [by intros []|done|done].
Qed.

Lemma slug_kept k slug s s' u : slug_body k slug s = Ok (u, s') -> kept s s'.
Proof.
  unfold slug_body. intros H. tx. destruct (String.eqb slug EmptyString); [|by eapply take_slug_kept].
  unfold SetKeySlug in *. tx. apply on_key_quiet_kept; [by intros []|done|done].
Qed.

(** What leaves keys, profiles, bindings and nodes alone. *)
Lemma other_kept s s' : keys s' = keys s -> profiles s' = profiles s -> bindings s' = bindings s -> nodes s' = nodes s -> kept s s'.
Proof.
  intros E1 E2 E3 E4. destruct s as [ks ps bs ns si tk jb al], s' as [ks' ps' bs' ns' si' tk' jb' al']. cbn in *. subst. split.
  - by intros [? ? ? ?].
  - intros _. exists ∅. split; [apply bumped_refl|done].
  - done.
  - done.
  - intros _ pid p E Es. by exists p.
Qed.

Lemma issueSubscriptionTx_kept now d k s s' t : issueSubscriptionTx now d k s = Ok (t, s') -> kept s s'.
Proof. unfold issueSubscriptionTx, RevokeSubscriptionTokensForKey, CreateSubscriptionToken. intros H. tx. by apply other_kept. Qed.

Lemma issue_kept now d k s s' t : issue_body now d k s = Ok (t, s') -> kept s s'.
Proof. unfold issue_body. intros H. tx. by eapply issueSubscriptionTx_kept. Qed.
(** *** Rewriting the profiles of a key *)

Definition ids_of (k : string) (s : Store) : list string := (map_to_list (filter (fun kv => of_key k kv.2 = true) (profiles s))).*1.

Lemma ids_of_spec k s pid : pid ∈ ids_of k s <-> exists p, profiles s !! pid = Some p /\ p_KeyID p = Some k.
Proof.
  unfold ids_of. rewrite list_elem_of_fmap. split.
  - intros ([i p] & -> & Hin). apply elem_of_map_to_list, map_lookup_filter_Some in Hin as [E Hk]. exists p. split; [done|].
    unfold of_key in Hk. cbn in Hk. destruct (p_KeyID p); [|done]. by apply String.eqb_eq in Hk as ->.
  - intros (p & E & Hk). exists (pid, p). split; [done|]. apply elem_of_map_to_list, map_lookup_filter_Some. split; [done|].
    unfold of_key. cbn. by rewrite Hk, String.eqb_refl.
Qed.

Lemma each_profiles f (l : list string) s s' u : (forall p, f (f p) = f p) -> each (fun p => on_profile p f) l s = Ok (u, s') ->
  s' = with_profiles s (profiles s') (bindings s) /\
  forall pid, profiles s' !! pid = (if bool_decide (pid ∈ l) then f else id) <$> profiles s !! pid.
Proof.
  intros Hf. revert s. induction l as [|i l IH]; cbn [each]; intros s E.
  - apply ret_Ok in E as [_ <-]. split; [by destruct s|]. intros pid. rewrite bool_decide_false by set_solver. by rewrite option_fmap_id.
  - apply bind_Ok in E as (? & s1 & ->%modify_Ok & [E1 E2]%IH). split; [by rewrite E1|]. intros pid. rewrite E2. cbn.
    destruct (decide (pid = i)) as [->|Hne].
    + rewrite lookup_alter_eq, (bool_decide_true (i ∈ i :: l)) by set_solver. destruct (profiles s !! i); [|done]. cbn.
      case_bool_decide; cbn; by rewrite ?Hf.
    + rewrite lookup_alter_ne by done. f_equal. destruct (decide (pid ∈ l)).
      * rewrite !bool_decide_true; [done|set_solver..].
      * rewrite !bool_decide_false; [done|set_solver..].
Qed.

Definition mirror (p : Profile) (key : AccessKey) : Prop :=
  p_SecretEnc p = k_SecretEnc key /\ p_CarrierMode p = k_CarrierMode key /\ p_Limits p = k_Limits key.

Lemma rewrite_rekeyed k g f s s2 u :
  (forall key, normal key -> normal (g key)) -> (forall p, p_KeyID (f p) = p_KeyID p /\ p_NodeID (f p) = p_NodeID p) -> (forall p, f (f p) = f p) ->
  each (fun p => on_profile p f) (ids_of k s) (with_keys s (alter g k (keys s))) = Ok (u, s2) ->
  rekeyed k s s2 /\ nodes s2 = nodes s /\ keys s2 = alter g k (keys s) /\
  forall pid, profiles s2 !! pid = (if bool_decide (pid ∈ ids_of k s) then f else id) <$> profiles s !! pid.
Proof.
  intros Hg Hf Hi E. apply (each_profiles f _ _ _ _ Hi) in E as [E1 E2]. cbn in E1, E2.
  assert (Hs : keys s2 = alter g k (keys s) /\ nodes s2 = nodes s /\ bindings s2 = bindings s) by by rewrite E1. clear E1.
  destruct Hs as (Ek & En & Eb). split; [|done]. eapply rekeyed_trans; [apply (on_key_rekeyed k g s Hg)|].
  split; cbn; [by rewrite Ek|by rewrite Ek| |done|by rewrite Ek].
  intros pid. rewrite E2. destruct (profiles s !! pid) as [p|] eqn:Ep; [|done]. cbn. case_bool_decide as Hin; cbn; [|done].
  destruct (Hf p) as [-> ->]. split_and!; [done..|]. intros Hk. apply ids_of_spec in Hin as (p' & Ep' & Hk'). by rewrite Ep in Ep'; simplify_eq.
Qed.

(** The rewritten profiles are pending; the others have other keys. *)
Lemma rewrite_still k g f s s2 : (forall p, p_Sync (f p) = SyncPending) -> keys s2 = alter g k (keys s) ->
  (forall pid, profiles s2 !! pid = (if bool_decide (pid ∈ ids_of k s) then f else id) <$> profiles s !! pid) -> still s s2.
Proof.
  intros Hs Ek Ep pid p' E1 E2. rewrite Ep in E1. destruct (profiles s !! pid) as [p|] eqn:E0; [|done]. injection E1 as <-.
  case_bool_decide as Hin; [by rewrite Hs in E2|]. cbn in E2 |- *. exists p. split_and!; [done..|]. unfold lasting. f_equal.
  unfold view_of. destruct (p_KeyID p) as [j|] eqn:Ej; [|done]. cbn. rewrite Ek, lookup_alter_ne; [done|].
  intros <-. apply Hin, ids_of_spec. by exists p.
Qed.

Lemma rewrite_kept now k g f s s2 s' u u' :
  (forall key, normal key -> normal (g key)) -> (forall p, p_KeyID (f p) = p_KeyID p /\ p_NodeID (f p) = p_NodeID p) -> (forall p, f (f p) = f p) ->
  (forall p key, mirror p key -> mirror (f p) (g key)) -> (forall p, p_Sync (f p) = SyncPending) ->
  each (fun p => on_profile p f) (ids_of k s) (with_keys s (alter g k (keys s))) = Ok (u, s2) ->
  dirtyKeyNodes now k s2 = Ok (u', s') -> kept s s'.
Proof.
  intros Hg Hf Hi Hm Hs E Ed. destruct (rewrite_rekeyed _ _ _ _ _ _ Hg Hf Hi E) as (R & En & Ek & Ep).
  assert (H0 : wf s -> kept s s').
  { intros W. destruct (dirty_after now k s s2 s' u' W R En Ed) as (R' & Hb & Es).
    apply (rekeyed_kept k _ s s' R' Hb); [by left| |intros _; rewrite Es; apply still_nodes; by eapply rewrite_still].
    intros _ M. rewrite Es. apply mirrors_nodes. intros pid p' j key E1 Hj E2. rewrite Ep in E1. rewrite Ek in E2. destruct (profiles s !! pid) as [p|] eqn:E0; [|done].
    injection E1 as <-. case_bool_decide as Hin.
    - apply ids_of_spec in Hin as (p1 & Ep1 & Hk). rewrite E0 in Ep1. injection Ep1 as <-.
      assert (j = k) as ->. { destruct (Hf p). congruence. }
      rewrite lookup_alter_eq in E2. destruct (keys s !! k) as [key0|] eqn:Ek0; [|done]. injection E2 as <-. apply Hm. by eapply M.
    - cbn in Hj |- *. assert (j <> k). { intros ->. apply Hin, ids_of_spec. by exists p. }
      rewrite lookup_alter_ne in E2 by done. by eapply M. }
  split; intros W; apply (H0 W); done.
Qed.

Lemma rotate_kept now d k s s' key : rotate_body now d k s = Ok (key, s') -> kept s s'.
Proof.
  unfold rotate_body, SetKeySecret, ListProfilesByKey, UpdateProfileSecret. intros H. tx.
  match goal with E : each _ _ _ = _ |- _ => eapply rewrite_kept; [| | | | |exact E|eassumption] end.
  - by intros [].
  - by intros [].
  - by intros [].
  - intros p key0 (_ & ? & ?). by destruct p, key0.
  - done.
Qed.

Lemma updated_normal now l o n e c lim t key : normal (updated now l o n e c lim t key).
Proof. split; cbn; apply jsonb_idem. Qed.

Lemma update_kept now k i s s' key : update_body now k i s = Ok (key, s') -> kept s s'.
Proof.
  unfold update_body. intros H. tx.
  destruct (validate_profile_limits _); [by tx|]. destruct (validate_telemt_limits _); [by tx|]. tx.
  unfold UpdateKey in *. tx.
  match goal with E : keys ?q !! k = Some ?o |- kept ?q _ => rename E into Eold; rename o into old; rename q into s end.
  set (g := updated now (up_Label i) (up_OwnerLabel i) (up_Note i) (up_ExpiresAt i) (up_CarrierMode i) (limits_json (up_Limits i)) (telemt_json (up_TelemtLimits i))) in *.
  assert (Hn : forall key, normal key -> normal (g key)) by (intros; apply updated_normal).
  destruct (negb (String.eqb (k_CarrierMode old) _) || _ || _) eqn:Ec.
  - unfold ListProfilesByKey, UpdateProfileSettings in *. tx.
    match goal with E : each _ _ _ = _ |- _ => eapply rewrite_kept; [exact Hn| | | | |exact E|eassumption] end; [by intros []..| |done].
    by intros p key0 (? & _ & _).
  - rewrite !orb_false_iff, !negb_false_iff, !String.eqb_eq in Ec. destruct Ec as [[E1 E2] E3].
    assert (Hc : carries_on s k g).
    { intros W key0 Ek. rewrite Eold in Ek. injection Ek as <-. cbn. destruct (wf_jsonb _ W _ _ Eold) as [Hl Ht]. rewrite <- E2, <- E3. by split_and!. }
    destruct (negb (bool_decide _)) eqn:Et; tx; [by eapply on_key_dirty_kept|].
    apply negb_false_iff, bool_decide_eq_true in Et.
    apply on_key_quiet_kept; [done..|]. intros W key0 Ek. rewrite Eold in Ek. injection Ek as <-.
    unfold view_content. cbn. destruct (wf_jsonb _ W _ _ Eold) as [_ Ht]. by rewrite <- E3, Ht, Et.
Qed.

(** *** Removing profiles *)

(** Some profiles went, with their bindings; the keys of the others are as they
    were. *)
Record removed (B : gset string) (s s' : Store) : Prop := {
  rm_profiles : profiles s' ⊆ profiles s;
  rm_where : forall pid p, profiles s !! pid = Some p -> profiles s' !! pid = None -> p_NodeID p ∈ B;
  rm_keys : forall pid p k, profiles s' !! pid = Some p -> p_KeyID p = Some k -> keys s' !! k = keys s !! k;
  rm_normal : forall k key, keys s' !! k = Some key -> normal key;
  rm_bindings : forall kn pid, bindings s' !! kn = Some pid <-> bindings s !! kn = Some pid /\ is_Some (profiles s' !! pid);
  rm_nodes : bumped B (nodes s) (nodes s')
}.

Lemma removed_kept B s s' : (wf s -> removed B s s') -> kept s s'.
Proof.
  intros H0. split; intros W; destruct (H0 W) as [Hp Hw Hk Hn Hb Hns].
  - split.
    + intros pid p k E Ek. pose proof (lookup_weaken _ _ _ _ E Hp) as E0. destruct (wf_key _ W _ _ _ E0 Ek) as [Hs Eb].
      rewrite (Hk _ _ _ E Ek), Hb. split_and!; [done..|by exists p].
    + intros k n pid [E [p Ep]]%Hb. destruct (wf_binding _ W _ _ _ E) as (p' & Ep' & ? & ?).
      pose proof (lookup_weaken _ _ _ _ Ep Hp). exists p. naive_solver.
    + intros pid p E. rewrite (bumped_dom _ _ _ _ Hns). eapply wf_node; [done|]. by eapply lookup_weaken.
    + done.
  - exists B. split; [done|]. intros n Hn'. apply map_eq. intros pid. rewrite !contents_lookup.
    destruct (profiles s' !! pid) as [p|] eqn:E.
    + rewrite (lookup_weaken _ _ _ _ E Hp). cbn. destruct (on_node n p); [|done]. unfold view_of.
      destruct (p_KeyID p) as [k|] eqn:Ek; [|done]. cbn. by rewrite (Hk _ _ _ E Ek).
    + destruct (profiles s !! pid) as [p|] eqn:E0; [|done]. cbn. unfold on_node.
      destruct (String.eqb_spec (p_NodeID p) n) as [<-|]; [|done]. exfalso. apply Hn'. by eapply Hw.
  - apply (bumped_capacity B s s'); [done|]. intros n. unfold count_on. apply map_subseteq_size. by apply map_filter_subseteq_mono.
  - intros M pid p k key E Ek E2. rewrite (Hk _ _ _ E Ek) in E2. eapply M; [by eapply lookup_weaken|done|done].
  - intros pid p E Es. exists p. split_and!; [by eapply lookup_weaken|done..|]. unfold lasting. f_equal. unfold view_of.
    destruct (p_KeyID p) as [k|] eqn:Ek; [|done]. cbn. by rewrite (Hk _ _ _ E Ek).
Qed.

Lemma drop_lookup keep s pid p : profiles (drop_profiles keep s) !! pid = Some p <-> profiles s !! pid = Some p /\ keep pid p = true.
Proof. unfold drop_profiles. cbn. by rewrite map_lookup_filter_Some. Qed.

Lemma drop_bindings keep s kn pid :
  bindings (drop_profiles keep s) !! kn = Some pid <-> bindings s !! kn = Some pid /\ is_Some (profiles (drop_profiles keep s) !! pid).
Proof. unfold drop_profiles. cbn. by rewrite map_lookup_filter_Some. Qed.

Lemma of_key_true k p : of_key k p = true <-> p_KeyID p = Some k.
Proof. unfold of_key. destruct (p_KeyID p); [|done]. rewrite String.eqb_eq. naive_solver. Qed.

(** The profiles of a key go, its nodes are marked, and the row of the key
    changes or goes. *)
Lemma key_removed k s s1 s' : wf s -> s1 = with_nodes s (nodes s1) -> bumped (nodes_of k s) (nodes s) (nodes s1) ->
  profiles s' = profiles (drop_profiles (fun _ p => negb (of_key k p)) s1) ->
  (forall kn pid, bindings s' !! kn = Some pid <-> bindings (drop_profiles (fun _ p => negb (of_key k p)) s1) !! kn = Some pid) ->
  (forall j, j <> k -> keys s' !! j = keys s !! j) -> (forall key, keys s' !! k = Some key -> normal key) ->
  nodes s' = nodes s1 -> removed (nodes_of k s) s s'.
Proof.
  intros W Es Hb Hp Hbn Hk Hn Hns. assert (Eps : profiles s1 = profiles s) by by rewrite Es.
  assert (Ebs : bindings s1 = bindings s) by by rewrite Es.
  assert (Hl : forall pid p, profiles s' !! pid = Some p <-> profiles s !! pid = Some p /\ p_KeyID p <> Some k).
  { intros pid p. rewrite Hp, drop_lookup, Eps, negb_true_iff, <- not_true_iff_false, of_key_true. done. }
  split.
  - apply map_subseteq_spec. intros pid p [? _]%Hl. done.
  - intros pid p E E'. apply nodes_of_spec. exists pid, p. split_and!; [done| |done].
    destruct (decide (p_KeyID p = Some k)); [done|]. rewrite (proj2 (Hl pid p)) in E' by done. done.
  - intros pid p j [_ Hne]%Hl Ej. apply Hk. congruence.
  - intros j key E. destruct (decide (j = k)) as [->|]; [by apply Hn|]. rewrite Hk in E by done. by apply (wf_jsonb _ W j).
  - intros kn pid. rewrite Hbn, drop_bindings, Ebs. by rewrite Hp.
  - by rewrite Hns.
Qed.

Lemma revoke_kept now k s s' u : revoke_body now k s = Ok (u, s') -> kept s s'.
Proof.
  unfold revoke_body, DeleteProfilesByKey, SetKeyStatus. intros H. tx.
  match goal with |- kept ?q _ => rename q into s end.
  apply (removed_kept (nodes_of k s)). intros W.
  match goal with E : dirtyKeyNodes _ _ _ = Ok (_, ?q) |- _ => apply dirtyKeyNodes_bumped in E as [Hb Es]; [|done]; rename q into s1 end.
  apply (key_removed k s s1); try done.
  - intros j Hj. cbn. rewrite lookup_alter_ne, Es by done. done.
  - intros key. cbn. rewrite lookup_alter_eq, Es. cbn. destruct (keys s !! k) as [key0|] eqn:E0; [|done]. intros [= <-].
    apply (wf_jsonb _ W) in E0. by destruct key0.
Qed.

Lemma delete_kept now k s s' u : delete_body now k s = Ok (u, s') -> kept s s'.
Proof.
  unfold delete_body, DeleteKey. intros H. tx. match goal with |- kept ?q _ => rename q into s end.
  apply (removed_kept (nodes_of k s)). intros W.
  match goal with E : dirtyKeyNodes _ _ _ = Ok (_, ?q) |- _ => apply dirtyKeyNodes_bumped in E as [Hb Es]; [|done]; rename q into s1 end.
  apply (key_removed k s s1); try done.
  - intros [j n] pid. cbn. rewrite map_lookup_filter_Some. split; [by intros [? _]|]. intros E. split; [done|]. cbn. intros ->.
    change (bindings (drop_profiles (fun _ p => negb (of_key k p)) s1) !! (k, n) = Some pid) in E.
    apply drop_bindings in E as [E [p Ep]]. rewrite Es in E. cbn in E. destruct (wf_binding _ W _ _ _ E) as (p0 & Ep0 & Hk & _).
    apply drop_lookup in Ep as [Ep Hne]. rewrite Es in Ep. cbn in Ep. rewrite Ep0 in Ep. injection Ep as <-.
    apply negb_true_iff in Hne. apply of_key_true in Hk. congruence.
  - intros j Hj. cbn. rewrite lookup_delete_ne, Es by done. done.
  - intros key. cbn. by rewrite lookup_delete_eq.
Qed.

Lemma unbind_kept now k n s s' u : unbind_body now k n s = Ok (u, s') -> kept s s'.
Proof.
  unfold unbind_body, ListKeyBindings. intros H. tx.
  destruct (List.find _ _) as [[n' pid]|] eqn:Ef; [|tx; apply kept_refl].
  apply List.find_some in Ef as [Hin Hn]. cbn in Hn. apply String.eqb_eq in Hn as ->.
  apply list_elem_of_In, list_elem_of_fmap in Hin as ([[k' n'] pid'] & [= <- <-] & Hin). apply elem_of_map_to_list, map_lookup_filter_Some in Hin as [Eb [Hk _]].
  cbn in Hk. subst k'. unfold DeleteBinding, DeleteProfile in *. tx. cbn [snd fst] in *.
  match goal with |- kept ?q _ => rename q into s end.
  match goal with E : SetNodeDirty _ _ _ = _ |- _ => apply SetNodeDirty_bumped in E as [Hb Es] end.
  apply (removed_kept {[n]}). intros W. destruct (wf_binding _ W _ _ _ Eb) as (p & Ep & Hk & Hn).
  set (s1 := with_profiles s (profiles s) (delete (k, n) (bindings s))) in *. set (s2 := drop_profiles _ s1) in *.
  assert (Hl : forall i q, profiles s' !! i = Some q <-> profiles s !! i = Some q /\ i <> pid).
  { intros i q. rewrite Es. cbn [profiles with_nodes]. unfold s2. rewrite drop_lookup, negb_true_iff, String.eqb_neq. done. }
  assert (Hks : keys s' = keys s) by by rewrite Es. split.
  - apply map_subseteq_spec. intros i q [? _]%Hl. done.
  - intros i q E E'. destruct (decide (i = pid)) as [->|Hne]; [|by rewrite (proj2 (Hl i q)) in E']. rewrite Ep in E. injection E as <-. set_solver.
  - intros. by rewrite Hks.
  - intros j key. rewrite Hks. apply (wf_jsonb _ W).
  - intros kn i. rewrite Es at 1. cbn [bindings with_nodes]. unfold s2. rewrite drop_bindings. fold s2.
    replace (profiles s2) with (profiles s') by by rewrite Es. cbn [bindings with_profiles s1]. split.
    + intros [[? ?]%lookup_delete_Some ?]. done.
    + intros [E Hi]. split; [|done]. apply lookup_delete_Some. split; [|done]. intros <-. rewrite Eb in E. injection E as <-.
      destruct Hi as [q [_ ?]%Hl]. done.
  - exact Hb.
Qed.

(** *** Adding profiles *)

Lemma count_on_insert n pid p (m : gmap string Profile) : m !! pid = None ->
  count_on n (<[pid := p]> m) = ((if on_node n p then 1 else 0) + count_on n m)%nat.
Proof.
  intros E. unfold count_on. destruct (on_node n p) eqn:Ep.
  - rewrite map_filter_insert_True by done. rewrite map_size_insert_None; [done|]. apply map_lookup_filter_None. by left.
  - rewrite map_filter_insert_False by (cbn; congruence). by rewrite delete_id.
Qed.

(** The store after a binding. *)
Lemma bindTx_Ok now pid k key n s s' u : bindTx now pid k key n s = Ok (u, s') ->
  exists r p, nodes s !! n = Some r /\ is_Some (keys s !! k) /\ Z.of_nat (count_on n (profiles s)) < n_MaxProfiles r /\
  profiles s !! pid = None /\ bindings s !! (k, n) = None /\
  p_KeyID p = Some k /\ p_NodeID p = n /\ p_SecretEnc p = k_SecretEnc key /\ p_CarrierMode p = k_CarrierMode key /\ p_Limits p = jsonb (k_Limits key) /\ p_Sync p = SyncPending /\ p_Name p = Names.ProfileName k /\
  profiles s' = <[pid := p]> (profiles s) /\ bindings s' = <[(k, n) := pid]> (bindings s) /\ bumped {[n]} (nodes s) (nodes s') /\
  keys s' = keys s /\ tokens s' = tokens s.
Proof.
  unfold bindTx, CountNodeProfiles. intros H. tx. fold (count_on n (profiles s)) in *.
  match goal with E : CreateProfile _ _ _ _ _ _ _ _ _ _ = _ |- _ => apply CreateProfile_Ok in E as (-> & Ep & _ & _ & Hk & ->) end.
  match goal with E : CreateBinding _ _ _ _ = _ |- _ => apply CreateBinding_Ok in E as [Eb ->] end.
  match goal with E : SetNodeDirty _ _ _ = _ |- _ => apply SetNodeDirty_bumped in E as [Hb Es] end.
  match goal with E : nodes s !! n = Some ?r |- _ => exists r end.
  exists {| p_NodeID := n; p_KeyID := Some k; p_Name := Names.ProfileName k; p_SecretEnc := k_SecretEnc key; p_Backend := default_backend;
            p_CarrierMode := k_CarrierMode key; p_Limits := jsonb (k_Limits key); p_Sync := SyncPending; p_CreatedAt := now |}.
  rewrite Es. cbn in *. split_and!; try done; [by apply Hk|by apply Z.ltb_lt].
Qed.

Lemma bindTx_kept now pid k key n s s' u : bindTx now pid k key n s = Ok (u, s') ->
  (wf s -> wf s') /\ (wf s -> tracks s s') /\ (wf s -> capacity s -> capacity s') /\
  (keys s !! k = Some key -> wf s -> mirrors s -> mirrors s') /\ keys s' = keys s /\ still s s'.
Proof.
  intros (r & p & Er & Hk & Hc & Ep & Eb & Pk & Pn & Ps & Pc & Pl & Py & _ & Eps & Ebs & Hb & Eks & _)%bindTx_Ok.
  assert (Hnew : forall W : wf s, forall j m i, bindings s !! (j, m) = Some i -> i <> pid).
  { intros W j m i E ->. destruct (wf_binding _ W _ _ _ E) as (q & Eq & _). congruence. }
  split_and!; [| | | |done|].
  - intros W. split.
    + intros i q j E Ej. rewrite Eps in E. rewrite Eks, Ebs. apply lookup_insert_Some in E as [[<- <-]|[Hne E]].
      * rewrite Pk in Ej. injection Ej as <-. rewrite Pn, lookup_insert_eq. done.
      * destruct (wf_key _ W _ _ _ E Ej) as [? E2]. split; [done|]. rewrite lookup_insert_ne; [done|]. intros [= E3 E4]. subst j. rewrite <- E4 in E2. congruence.
    + intros j m i E. rewrite Ebs in E. rewrite Eps. apply lookup_insert_Some in E as [[[= <- <-] <-]|[Hne E]].
      * exists p. by rewrite lookup_insert_eq.
      * destruct (wf_binding _ W _ _ _ E) as (q & Eq & ? & ?). exists q. rewrite lookup_insert_ne; [done|]. apply not_eq_sym. by eapply Hnew.
    + intros i q E. rewrite (bumped_dom _ _ _ _ Hb). rewrite Eps in E. apply lookup_insert_Some in E as [[<- <-]|[Hne E]]; [rewrite Pn; by eexists|].
      by eapply wf_node.
    + intros j key'. rewrite Eks. apply (wf_jsonb _ W).
  - intros W. exists {[n]}. split; [done|]. intros m Hm. apply map_eq. intros i. rewrite !contents_lookup, Eps.
    assert (Hv : forall q, view_of s' q = view_of s q) by (intros q; unfold view_of; by rewrite Eks).
    destruct (decide (i = pid)) as [->|Hne].
    + rewrite lookup_insert_eq, Ep. cbn. unfold on_node. rewrite Pn. destruct (String.eqb_spec n m); [set_solver|done].
    + rewrite lookup_insert_ne by done. destruct (profiles s !! i) as [q|]; [|done]. cbn. by rewrite Hv.
  - intros W C m r' E. rewrite Eps, count_on_insert by done. specialize (Hb m). rewrite E in Hb. destruct (nodes s !! m) as [r0|] eqn:Er0; [|done].
    destruct Hb as [[-> _] _]. pose proof (C m r0 Er0). unfold on_node. destruct (String.eqb_spec (p_NodeID p) m) as [<-|]; [|lia].
    rewrite Pn in *. rewrite Er in Er0. injection Er0 as <-. lia.
  - intros Ekey W M i q j key' E Ej E'. rewrite Eks in E'. rewrite Eps in E. apply lookup_insert_Some in E as [[<- <-]|[Hne E]]; [|by eapply M].
    rewrite Pk in Ej. injection Ej as <-. rewrite Ekey in E'. injection E' as <-. rewrite Ps, Pc, Pl. split_and!; [done..|].
    by apply (wf_jsonb _ W k).
  - intros i q E Es. rewrite Eps in E. apply lookup_insert_Some in E as [[<- <-]|[Hne E]]; [by rewrite Py in Es|].
    exists q. split_and!; [done..|]. unfold view_of. by rewrite Eks.
Qed.

Lemma each_bind_kept now pids k key (ns : list string) s s' u : each (fun n => bindTx now (pids n) k key n) ns s = Ok (u, s') ->
  keys s !! k = Some key -> kept s s' /\ keys s' = keys s.
Proof.
  revert s. induction ns as [|n ns IH]; cbn [each]; intros s E Ek.
  - apply ret_Ok in E as [_ <-]. split; [apply kept_refl|done].
  - apply bind_Ok in E as (? & s1 & (H1 & H2 & H3 & H4 & H5 & H6)%bindTx_kept & E). rewrite <- H5 in Ek.
    destruct (IH _ E Ek) as [Hk Eks]. split; [|congruence]. rewrite H5 in Ek. eapply kept_trans; [|exact Hk]. split; auto.
Qed.

Lemma CreateKey_Ok id key s s' u : CreateKey id key s = Ok (u, s') ->
  keys s !! id = None /\ s' = with_keys s (<[id := stored_key key]> (keys s)).
Proof. unfold CreateKey. intros H. tx. by rewrite bool_decide_eq_true in *. Qed.

Lemma new_key_kept k key s : keys s !! k = None -> normal key -> kept s (with_keys s (<[k := key]> (keys s))).
Proof.
  intros E Hn.
  assert (Hother : wf s -> forall pid p j, profiles s !! pid = Some p -> p_KeyID p = Some j -> j <> k).
  { intros W pid p j Ep Ej ->. destruct (wf_key _ W _ _ _ Ep Ej) as [[? ?] _]. congruence. }
  split; intros W.
  - split; cbn.
    + intros pid p j Ep Ej. destruct (wf_key _ W _ _ _ Ep Ej). split; [|done]. by rewrite lookup_insert_ne by (apply not_eq_sym; eauto).
    + apply (wf_binding _ W).
    + apply (wf_node _ W).
    + intros j key' [[<- <-]|[_ Ej]]%lookup_insert_Some; [done|by apply (wf_jsonb _ W j)].
  - exists ∅. split; [apply bumped_refl|]. intros n _. apply map_eq. intros pid. rewrite !contents_lookup. cbn.
    destruct (profiles s !! pid) as [p|] eqn:Ep; [|done]. cbn. destruct (on_node n p); [|done]. unfold view_of.
    destruct (p_KeyID p) as [j|] eqn:Ej; [|done]. cbn. by rewrite lookup_insert_ne by (apply not_eq_sym; eauto).
  - done.
  - intros M pid p j key' Ep Ej. cbn in *. rewrite lookup_insert_ne by (apply not_eq_sym; eauto). by eapply M.
  - intros pid p Ep Es. exists p. split_and!; [done..|]. unfold lasting. f_equal. unfold view_of. cbn.
    destruct (p_KeyID p) as [j|] eqn:Ej; [|done]. cbn. by rewrite lookup_insert_ne by (apply not_eq_sym; eauto).
Qed.

Lemma stored_normal key : normal (stored_key key).
Proof. split; cbn; apply jsonb_idem. Qed.

Lemma createTx_kept now d i s s' k : createTx now d i s = Ok (k, s') -> kept s s'.
Proof.
  unfold createTx. intros H. tx.
  match goal with E : CreateKey _ _ _ = _ |- _ => apply CreateKey_Ok in E as [En ->] end.
  match goal with E : each _ _ _ = _ |- _ => apply each_bind_kept in E as [Hk _]; [|done] end.
  match goal with E : issueSubscriptionTx _ _ _ _ = _ |- _ => apply issueSubscriptionTx_kept in E end.
  match type of Hk with kept (with_keys _ (<[_ := stored_key ?q]> _)) _ => eapply kept_trans; [exact (new_key_kept _ _ _ En (stored_normal q))|] end. eapply kept_trans; [exact Hk|]. eapply kept_trans; [eassumption|].
  destruct (String.eqb (SubSlug i) EmptyString); [tx; apply kept_refl|by eapply take_slug_kept].
Qed.

Lemma valid_Ok ve s u s' : valid ve s = Ok (u, s') -> ve = [] /\ s' = s.
Proof. unfold valid. intros [E ->]%require_Ok. by apply bool_decide_eq_true in E. Qed.

Lemma create_items_kept now draws check i items s s' ks : create_items now draws check i items s = Ok (ks, s') -> kept s s'.
Proof.
  revert i s ks. induction items as [|item items IH]; cbn [create_items]; intros i s ks H; [tx; apply kept_refl|].
  apply bind_Ok in H as (? & s1 & Hv & H).
  assert (s1 = s) as ->. { destruct check; [by apply valid_Ok in Hv as [_ ->]|by apply ret_Ok in Hv as [_ ->]]. }
  tx. eapply kept_trans; [by eapply createTx_kept|by eapply IH].
Qed.

Lemma create_kept now d i s s' k : create_body now d i s = Ok (k, s') -> kept s s'.
Proof. unfold create_body. intros (? & s1 & [_ ->]%valid_Ok & H)%bind_Ok. by eapply createTx_kept. Qed.

Lemma checkCapacity_Ok ns count s u s' : checkCapacity ns count s = Ok (u, s') ->
  s' = s /\ Forall (fun n => exists r, nodes s !! n = Some r /\ Z.of_nat (count_on n (profiles s)) + count <= n_MaxProfiles r) ns.
Proof.
  unfold checkCapacity. revert u. induction ns as [|n ns IH]; cbn [each]; intros u H; [by tx|].
  apply bind_Ok in H as (? & s1 & H1 & H). apply bind_Ok in H1 as (r & s2 & [Er ->]%named_node_Ok & H1).
  apply bind_Ok in H1 as (c & s2 & [-> ->]%read_Ok & [Hc ->]%require_Ok). destruct (IH _ H) as [-> HF]. split; [done|].
  constructor; [|done]. exists r. split; [done|]. by apply Z.leb_le.
Qed.

Lemma batch_kept now draws i prefix count s s' ks : batch_body now draws i prefix count s = Ok (ks, s') -> kept s s'.
Proof.
  unfold batch_body. intros H. tx.
  match goal with E : checkCapacity _ _ _ = _ |- _ => apply checkCapacity_Ok in E as [-> _] end. by eapply create_items_kept.
Qed.

Lemma import_kept now draws open_ i items s s' ks : import_body now draws open_ i items s = Ok (ks, s') -> kept s s'.
Proof.
  unfold import_body. intros (? & s1 & [_ ->]%require_Ok & H)%bind_Ok. destruct (check_items 0 ∅ items) as [ve seen].
  apply bind_Ok in H as (? & s1 & [_ ->]%valid_Ok & H). apply bind_Ok in H as (? & s1 & Hp & H).
  assert (s1 = s) as ->. { destruct items; [by apply ret_Ok in Hp as [_ ->]|by apply valid_Ok in Hp as [_ ->]]. }
  unfold ListSecretsInUse in H. apply bind_Ok in H as (used & s1 & [_ ->]%read_Ok & H). apply bind_Ok in H as (? & s1 & [_ ->]%valid_Ok & H).
  apply bind_Ok in H as (? & s1 & [-> _]%checkCapacity_Ok & H). by eapply create_items_kept.
Qed.

(** ** Any number of changes *)

(** A transaction that keeps what it should, whether it commits or not. *)
Lemma run_tx_kept {A} fault (m : Tx A) s : (forall a s', m s = Ok (a, s') -> kept s s') -> kept s (run_tx fault m s).2.
Proof. intros H. unfold run_tx. destruct fault; [apply kept_refl|]. destruct (m s) as [[a s']|e] eqn:E; [by eapply H|apply kept_refl]. Qed.

Inductive change :=
| CCreate (d : draw) (i : CreateInput)
| CBatch (draws : nat -> draw) (i : CreateInput) (prefix : string) (count : Z)
| CImport (draws : nat -> draw) (open_ : string -> result string) (i : CreateInput) (items : list ImportItem)
| CBind (pid key : string) (k : AccessKey) (node : string)
| CUnbind (key node : string)
| CRevoke (key : string)
| CRotate (d : draw) (key : string)
| CDelete (key : string)
| CUpdate (key : string) (i : UpdateInput)
| CExtend (key : string) (expires : Z)
| CDisable (key : string) (disabled : bool)
| CExpire (key : string)
| CIssue (d : draw) (key : string)
| CSlug (key slug : string)
| CDirty (node : string).

(** One change at an instant; [fault] is the failure of the database, if any. *)
Definition commit (fault : option error) (now : Z) (c : change) (s : Store) : Store :=
  match c with
  | CCreate d i => (Create fault now d i s).2
  | CBatch draws i prefix count => (CreateBatch fault now draws i prefix count s).2
  | CImport draws open_ i items => (Import fault now draws open_ i items s).2
  | CBind pid key k node => (Bind fault now pid key k node s).2
  | CUnbind key node => (Unbind fault now key node s).2
  | CRevoke key => (Revoke fault now key s).2
  | CRotate d key => (Rotate fault now d key s).2
  | CDelete key => (Delete fault now key s).2
  | CUpdate key i => (Update fault now key i s).2
  | CExtend key expires => (Extend fault now key expires s).2
  | CDisable key disabled => (SetDisabled fault now key disabled s).2
  | CExpire key => (Expire fault now key s).2
  | CIssue d key => (IssueSubscription fault now d key s).2
  | CSlug key slug => (SetSlug fault key slug s).2
  | CDirty node => (run_tx fault (SetNodeDirty now node) s).2
  end.

(** A binding made from the key as it is: nobody changed it since it was
    read. *)
Definition fresh_read (c : change) (s : Store) : Prop :=
  match c with CBind _ key k _ => keys s !! key = Some k | _ => True end.

Lemma commit_kept fault now c s : fresh_read c s -> kept s (commit fault now c s).
Proof.
  intros Hf. destruct c; cbn [commit]; apply run_tx_kept; intros a s' H.
  - by eapply create_kept.
  - by eapply batch_kept.
  - by eapply import_kept.
  - apply bindTx_kept in H as (? & ? & ? & ? & _ & ?). split; auto.
  - by eapply unbind_kept.
  - by eapply revoke_kept.
  - by eapply rotate_kept.
  - by eapply delete_kept.
  - by eapply update_kept.
  - by eapply extend_kept.
  - by eapply disable_kept.
  - by eapply expire_kept.
  - by eapply issue_kept.
  - by eapply slug_kept.
  - apply SetNodeDirty_bumped in H as [Hb Es]. apply (rekeyed_kept EmptyString {[node]}); [|done|right| |].
    + rewrite Es. by destruct (rekeyed_refl EmptyString s).
    + intros n. by rewrite Es.
    + intros _ M. rewrite Es. by apply mirrors_nodes.
    + intros _. rewrite Es. apply still_nodes, still_refl.
Qed.

(** Without the assumption on bindings, all but the mirrors. *)
Lemma commit_tracks fault now c s : wf s ->
  wf (commit fault now c s) /\ tracks s (commit fault now c s) /\ still s (commit fault now c s) /\ (capacity s -> capacity (commit fault now c s)).
Proof.
  intros W. destruct c as [| | |pid key k node| | | | | | | | | | |];
    try (match goal with |- context [commit _ _ ?c _] => destruct (commit_kept fault now c s I); split_and!; auto end).
  cbn [commit]. unfold Bind, run_tx. destruct fault; [split_and!; auto using tracks_refl, still_refl|].
  destruct (bindTx now pid key k node s) as [[u s']|e] eqn:E; [|split_and!; auto using tracks_refl, still_refl].
  apply bindTx_kept in E as (? & ? & ? & _ & _ & ?). split_and!; auto.
Qed.

End Operations.
