(* ===== verification/Apply.v ===== *)
(** * Applying the desired state to a node

    internal/worker/apply.go.  [ApplyNode] reads the node, its profiles and its
    site, files a job, hands the request to the driver and writes down what came
    of it.  Between any two of its statements the rest of the panel may commit
    what it likes, so it is cut where another transaction can fall in: one
    [phase] for what it has read so far, one [advance] for the next statement.

    The writes of the closing transaction become visible together; the
    fingerprints are looked at before them, as the database isolates only
    statements (read committed).

    The driver is a function of the request, the state of the retry schedule is
    in [ApplySchedule], the notification in [Notify]. *)

From S2P Require Import Prelude WebPolicy Incidents Tables Keys Desired.
Import WebPolicy.Policy.

Local Open Scope go_scope.

Record ApplyResult := {
  OK : bool; RestartedRelay : bool; RestartedMTProxy : bool; RolledBack : bool;
  res_Log : string;
  DeferredFields : list string;
  RestartRequired : bool;
  AppliedWebBasePath : option string
}.

Definition ErrOffline : error := "node offline".

(** What the agent has to confirm of the WEB base path. *)
Definition acknowledge (req : ApplyRequest) (res : ApplyResult) : option error :=
  match ar_WebPolicy req with
  | None => None
  | Some p =>
      match AppliedWebBasePath res with
      | None => if HasAdvancedOptions p then Some "agent did not acknowledge effective WEB base_path" else None
      | Some path =>
          if match BasePath p with Some b => negb (String.eqb b path) | None => false end
          then Some "agent acknowledged a different WEB base_path"
          else ValidateWebBasePath path
      end
  end.

Definition apply_error (req : ApplyRequest) (answer : ApplyResult * option error) : option error :=
  match answer.2 with Some e => Some e | None => acknowledge req answer.1 end.

Definition first_line (s : string) : string := (Str.cut s (ascii_of_nat 10)).1.1.

Definition recordDeferred (node : string) (res : ApplyResult) : Tx unit :=
  if bool_decide (DeferredFields res = []) then ResolveAlerts node "config_deferred"
  else InsertAlert node "config_deferred"
         ("telemt persisted but did not activate " +:+ Str.join ", " (DeferredFields res) +:+ "; a restart is required").

(** The closing transactions; [look] is the comparison of the fingerprints. *)
Definition failure_body (node job : string) (res : ApplyResult) (msg : error) (look : Tx (list string)) : Tx unit :=
  let status := if RolledBack res then "rolled_back" else "failed" in
  _ ← FinishApplyJob job status msg (res_Log res);
  unchanged ← look;
  _ ← SetProfilesSyncByIDs unchanged SyncFailed;
  InsertAlertOnce node "apply_failed" (first_line msg).

Definition success_body (now : Z) (node job : string) (des : DesiredState) (res : ApplyResult) (look : Tx (list string)) : Tx unit :=
  _ ← FinishApplyJob job "ok" EmptyString (res_Log res);
  unchanged ← look;
  _ ← SetProfilesSyncByIDs unchanged SyncSynced;
  _ ← (match ar_Site (Req des) with Some _ => SetNodeSiteDeployed node (SiteHash des) | None => mret tt end);
  _ ← (match AppliedWebBasePath res with Some path => SetNodeWebAppliedBasePath node path | None => mret tt end);
  _ ← SetNodeApplied now node (DirtySeq des);
  _ ← ResolveAlerts node "apply_failed";
  _ ← recordDeferred node res;
  ActivatePendingKeysForNode.

(** What an apply has done so far; [Done] holds what [ApplyNode] returns and
    the message a notification is sent with. *)
Inductive phase :=
| Opening
| Opened (n : Node)
| Listed (n : Node) (rows : list ProfileRow)
| Built (des : DesiredState)
| Filed (des : DesiredState) (job : string)
| Pushed (des : DesiredState) (job : string) (res : ApplyResult) (err : option error)
| Looked (des : DesiredState) (job : string) (res : ApplyResult) (err : option error) (unchanged : list string)
| Done (err : option error) (notice : option error).

Record apply_env := {
  e_now : Z;
  e_job : string;
  e_driver : ApplyRequest -> ApplyResult * option error;
  e_fault : option error
}.

Section Apply.
Context `{MapOrder} `{DesiredCodec}.

Definition job_kind (des : DesiredState) : string := match ar_Site (Req des) with Some _ => "both" | None => "profiles" end.

(** A closing transaction that did not come through. *)
Definition unrecorded (err : option error) (fault : error) : phase :=
  match err with Some msg => Done (Some ("apply: " +:+ msg)) None | None => Done (Some fault) None end.

Definition close (e : apply_env) (node : string) (des : DesiredState) (job : string) (res : ApplyResult) (err : option error)
    (look : Tx (list string)) (s : Store) : phase * Store :=
  let body := match err with
    | Some msg => failure_body node job res msg look
    | None => success_body (e_now e) node job des res look
    end in
  match run_tx (e_fault e) body s with
  | (Err f, s) => (unrecorded err f, s)
  | (Ok _, s) => (match err with Some msg => Done (Some ("apply: " +:+ msg)) (Some msg) | None => Done None None end, s)
  end.

(** The next statement. *)
Definition advance (e : apply_env) (node : string) (ph : phase) (s : Store) : phase * Store :=
  let reading {A} (m : Tx A) (k : A -> phase) :=
    match run_tx (e_fault e) m s with (Ok a, s) => (k a, s) | (Err f, s) => (Done (Some f) None, s) end in
  match ph with
  | Opening => reading (GetNode node) Opened
  | Opened n => reading (ListNodeProfilesWithKey node) (Listed n)
  | Listed n rows => reading (site ← GetNodeSite node; drawn (build (e_now e) n rows site)) Built
  | Built des => reading (CreateApplyJob (e_job e) node (job_kind des)) (Filed des)
  | Filed des job => let answer := e_driver e (Req des) in (Pushed des job answer.1 (apply_error (Req des) answer), s)
  | Pushed des job res err =>
      match run_tx (e_fault e) (ProfilesStillAtRevision node (Revisions des)) s with
      | (Ok unchanged, s) => (Looked des job res err unchanged, s)
      | (Err f, s) => (unrecorded err f, s)
      end
  | Looked des job res err unchanged => close e node des job res err (mret unchanged) s
  | Done _ _ => (ph, s)
  end.

(** [k] statements, with what the rest of the panel commits before each. *)
Fixpoint work (k : nat) (env : nat -> apply_env) (world : nat -> Store -> Store) (node : string) (ph : phase) (s : Store) : phase * Store :=
  match k with
  | O => (ph, s)
  | S k => let '(ph, s) := advance (env k) node ph (world k s) in work k env world node ph s
  end.

Definition statements : nat := 7.

(** [ApplyNode]: what it returns, the message of its notification, and the
    tables. *)
Definition ApplyNode (inFlight online : bool) (env : nat -> apply_env) (world : nat -> Store -> Store) (node : string) (s : Store)
    : option error * option error * Store :=
  if inFlight then (Some "apply already in progress", None, s)
  else if negb online then (Some ErrOffline, None, s)
  else match work statements env world node Opening s with
       | (Done err notice, s) => (err, notice, s)
       | (_, s) => (None, None, s)
       end.

End Apply.
