(* ===== verification/ApplySafety.v ===== *)
(** * Applies among the changes of the panel

    The panel changes keys while applies of several nodes are under way, one
    statement after another of each ([step]); a change is one transaction, and
    transactions run one after another.  In every such run a node that was
    applied to and is not marked dirty was last given its present profiles; and
    where no change falls between the comparison of the fingerprints and the
    marking of the profiles ([undisturbed]), a profile that is called synced is
    on its node with the fingerprint it has.  *)

From S2P Require Import Prelude Tables Keys Desired KeyInvariants Apply.

Local Open Scope go_scope.

(** ** The rows of a node *)

Section Rows.
Context `{O : MapOrder}.

Definition rows_of (node : string) (s : Store) : list ProfileRow :=
  fold_right insert_row [] (range_order (map (fun kv => row_of s kv.1 kv.2)
    (map_to_list (filter (fun kv => on_node node kv.2 = true) (profiles s))))).

Lemma ListNodeProfilesWithKey_Ok node s rows s' : ListNodeProfilesWithKey node s = Ok (rows, s') <-> rows = rows_of node s /\ s' = s.
Proof. apply read_Ok. Qed.

Lemma insert_row_perm r l : insert_row r l ≡ₚ r :: l.
Proof. induction l as [|x l IH]; cbn; [done|]. destruct (_ <=? _); [done|]. rewrite IH. apply Permutation_swap. Qed.

Lemma sort_rows_perm l : fold_right insert_row [] l ≡ₚ l.
Proof. induction l as [|r l IH]; cbn; [done|]. by rewrite insert_row_perm, IH. Qed.

Lemma rows_of_perm node s :
  rows_of node s ≡ₚ map (fun kv => row_of s kv.1 kv.2) (map_to_list (filter (fun kv => on_node node kv.2 = true) (profiles s))).
Proof. unfold rows_of. by rewrite sort_rows_perm, range_order_perm. Qed.

Lemma rows_of_elem node s r : r ∈ rows_of node s <-> exists pid p, profiles s !! pid = Some p /\ p_NodeID p = node /\ r = row_of s pid p.
Proof.
  rewrite rows_of_perm, list_elem_of_fmap. unfold on_node. split.
  - intros ([pid p] & -> & Hin). apply elem_of_map_to_list, map_lookup_filter_Some in Hin as [E Hn]. exists pid, p. cbn in Hn. by apply String.eqb_eq in Hn.
  - intros (pid & p & E & <- & ->). exists (pid, p). split; [done|]. apply elem_of_map_to_list, map_lookup_filter_Some. cbn. by rewrite String.eqb_refl.
Qed.

Lemma rows_of_ids node s : NoDup (r_ID <$> rows_of node s).
Proof. rewrite (fmap_Permutation r_ID _ _ (rows_of_perm node s)), <- list_fmap_compose. apply NoDup_fst_map_to_list. Qed.

(** What the rows bring to their node. *)
Definition row_contents (rows : list ProfileRow) : list (string * Content) := (fun r => (r_ID r, content (r_Profile r) (r_Key r))) <$> rows.

Lemma rows_contents node s : row_contents (rows_of node s) ≡ₚ map_to_list (contents s node).
Proof.
  apply NoDup_Permutation.
  - apply (NoDup_fmap_1 fst). unfold row_contents. rewrite <- list_fmap_compose. apply rows_of_ids.
  - apply NoDup_map_to_list.
  - intros [pid c]. rewrite elem_of_map_to_list, contents_lookup. unfold row_contents. rewrite list_elem_of_fmap. split.
    + intros (r & [= -> ->] & (i & p & E & Hn & ->)%rows_of_elem). cbn. rewrite E. cbn. unfold on_node. by rewrite Hn, String.eqb_refl.
    + destruct (profiles s !! pid) as [p|] eqn:E; [|done]. cbn. unfold on_node. destruct (String.eqb_spec (p_NodeID p) node); [|done].
      intros [= <-]. exists (row_of s pid p). split; [done|]. apply rows_of_elem. by exists pid, p.
Qed.

End Rows.

(** ** What is sent depends on what the rows bring *)

Section Sent.
Context `{C : DesiredCodec}.

Definition sent_row (now : Z) (r : ProfileRow) : option SentProfile :=
  match DecryptString (p_SecretEnc (r_Profile r)) with Ok secret => Some (send_profile now r secret) | Err _ => None end.

(** The secrets of the enabled profiles, each once. *)
Fixpoint secrets_after (seen : gset string) (ps : list SentProfile) : list string :=
  match ps with
  | [] => []
  | p :: ps =>
      if sp_Enabled p && negb (bool_decide (sp_Secret p ∈ seen)) then sp_Secret p :: secrets_after ({[sp_Secret p]} ∪ seen) ps
      else secrets_after seen ps
  end.

Lemma send_profiles_Ok now seen rows ps ss :
  send_profiles now seen rows = Ok (ps, ss) <-> mapM (sent_row now) rows = Some ps /\ ss = secrets_after seen ps.
Proof.
  revert seen ps ss. induction rows as [|r rows IH]; cbn; intros seen ps ss.
  { split; [by intros [= <- <-]|by intros [[= <-] ->]]. }
  destruct (DecryptString (p_SecretEnc (r_Profile r))) as [secret|e] eqn:Ed.
  2: { assert (sent_row now r = None) as -> by (unfold sent_row; by rewrite Ed). split; [done|by intros [? _]]. }
  assert (sent_row now r = Some (send_profile now r secret)) as -> by (unfold sent_row; by rewrite Ed). cbn -[bool_decide].
  set (seen' := (if profileEnabled r now && negb (bool_decide (secret ∈ seen)) then {[secret]} ∪ seen else seen)). destruct (send_profiles now seen' rows) as [[ps' ss']|e] eqn:E.
  - apply IH in E as [E ->]. rewrite E. cbn -[bool_decide]. subst seen'. split.
    + intros [= <- <-]. split; [done|]. cbn -[bool_decide]. by destruct (_ && _).
    + intros [[= <-] ->]. cbn -[bool_decide]. by destruct (_ && _).
  - cbn. split; [done|]. intros [Hm ->]. destruct (mapM (sent_row now) rows) as [ps'|] eqn:Em; [|done].
    assert (send_profiles now seen' rows = Ok (ps', secrets_after seen' ps')) by by apply IH. congruence.
Qed.

Lemma secrets_after_elem seen ps x : x ∈ secrets_after seen ps <-> x ∉ seen /\ exists p, p ∈ ps /\ sp_Enabled p = true /\ sp_Secret p = x.
Proof.
  revert seen. induction ps as [|p ps IH]; cbn -[bool_decide]; intros seen; [set_solver|].
  destruct (sp_Enabled p) eqn:Ee; cbn -[bool_decide].
  - destruct (bool_decide (sp_Secret p ∈ seen)) eqn:Es; cbn -[bool_decide].
    + apply bool_decide_eq_true in Es. rewrite IH. set_solver.
    + apply bool_decide_eq_false in Es. rewrite elem_of_cons, IH. destruct (decide (x = sp_Secret p)); set_solver.
  - rewrite IH. split; [set_solver|]. intros (? & q & [->|?]%elem_of_cons & ? & ?); [congruence|]. split; [done|]. by exists q.
Qed.

Lemma secrets_after_nodup seen ps : NoDup (secrets_after seen ps).
Proof.
  revert seen. induction ps as [|p ps IH]; cbn -[bool_decide]; intros seen; [constructor|].
  destruct (_ && _); [|done]. constructor; [|done]. rewrite secrets_after_elem. set_solver.
Qed.

(** The profile a row brings, from what it brings alone. *)
Lemma sent_row_content now r r' : content (r_Profile r) (r_Key r) = content (r_Profile r') (r_Key r') -> sent_row now r = sent_row now r'.
Proof.
  destruct r as [i [? ? ? ? ? ? ? ? ?] k], r' as [i' [? ? ? ? ? ? ? ? ?] k']. unfold content. cbn. intros [= -> -> -> -> -> Ek].
  unfold sent_row. cbn. destruct (DecryptString _); [|done]. f_equal. unfold send_profile. cbn.
  destruct k as [[t e st d]|], k' as [[t' e' st' d']|]; try done. cbn in Ek. injection Ek as -> -> Hst Hd.
  unfold sent_telemt, row_expiry, profileEnabled. cbn. by rewrite Hst, Hd.
Qed.

Lemma mapM_perm {A B} (f : A -> option B) (l l' : list A) ks : l ≡ₚ l' -> mapM f l = Some ks -> exists ks', mapM f l' = Some ks' /\ ks ≡ₚ ks'.
Proof.
  intros Hp. revert ks. induction Hp as [|x l l' Hp IH|x y l|l1 l2 l3 _ IH1 _ IH2]; intros ks H.
  - exists ks. by split.
  - cbn in *. destruct (f x); [|done]. cbn in *. destruct (mapM f l) as [k|] eqn:E; [|done]. cbn in H. injection H as <-.
    destruct (IH _ eq_refl) as (k' & -> & ?). cbn. eexists. split; [done|]. by constructor.
  - cbn in *. destruct (f x), (f y); try done. cbn in *. destruct (mapM f l); [|done]. cbn in *. injection H as <-.
    eexists. split; [done|]. constructor.
  - destruct (IH1 _ H) as (k2 & H2 & P2). destruct (IH2 _ H2) as (k3 & H3 & P3). exists k3. split; [done|]. by etrans.
Qed.

(** What is sent of a content. *)
Definition sent_content (now : Z) (kc : string * Content) : option SentProfile :=
  sent_row now {| r_ID := kc.1;
    r_Profile := {| p_NodeID := EmptyString; p_KeyID := None; p_Name := c_Name kc.2; p_SecretEnc := c_Secret kc.2; p_Backend := c_Backend kc.2;
                    p_CarrierMode := c_Carrier kc.2; p_Limits := c_Limits kc.2; p_Sync := SyncPending; p_CreatedAt := 0 |};
    r_Key := (fun k => {| kv_TelemtLimits := k.1.1.1; kv_ExpiresAt := k.1.1.2; kv_Status := if k.1.2 : bool then StatusRevoked else StatusActive;
                          kv_DisabledAt := if k.2 : bool then Some 0 else None |}) <$> c_Key kc.2 |}.

Lemma sent_contents now rows : mapM (sent_row now) rows = mapM (sent_content now) (row_contents rows).
Proof.
  unfold row_contents. induction rows as [|r rows IH]; [done|]. cbn. rewrite IH. f_equal.
  unfold sent_content. apply sent_row_content. destruct r as [i [] [[t e st d]|]]; unfold content; cbn; [|done].
  do 2 f_equal. unfold view_content. cbn. repeat f_equal; [by destruct st|by destruct d].
Qed.

Lemma filter_split {A} (f : A -> bool) l : List.filter f l ++ List.filter (fun x => negb (f x)) l ≡ₚ l.
Proof. induction l as [|x l IH]; [done|]. cbn. destruct (f x); cbn; [by rewrite IH|]. by rewrite <- Permutation_middle, IH. Qed.

Lemma default_first_perm rows : default_first rows ≡ₚ rows.
Proof. apply filter_split. Qed.

(** Two lists of rows that bring the same have the same sent of them. *)
Lemma send_profiles_perm now rows rows' ps ss :
  row_contents rows ≡ₚ row_contents rows' -> send_profiles now ∅ (default_first rows) = Ok (ps, ss) ->
  exists ps' ss', send_profiles now ∅ (default_first rows') = Ok (ps', ss') /\ ps ≡ₚ ps' /\ ss ≡ₚ ss'.
Proof.
  intros Hp [Hm ->]%send_profiles_Ok. rewrite sent_contents in Hm.
  assert (Hq : row_contents (default_first rows) ≡ₚ row_contents (default_first rows')).
  { unfold row_contents in *. by rewrite !default_first_perm. }
  destruct (mapM_perm _ _ _ _ Hq Hm) as (ps' & Hm' & Hps). exists ps', (secrets_after ∅ ps'). split_and!.
  - apply send_profiles_Ok. by rewrite sent_contents.
  - done.
  - apply NoDup_Permutation; [apply secrets_after_nodup..|]. intros x. rewrite !secrets_after_elem. setoid_rewrite Hps. done.
Qed.

End Sent.

(** ** The statements of an apply *)

Section Statements.
Context `{J : Jsonb}.

(** What [kept] says, but for the sync states. *)
Definition steady (s s' : Store) : Prop :=
  (wf s -> wf s') /\ (wf s -> tracks s s') /\ (wf s -> capacity s -> capacity s') /\ (wf s -> mirrors s -> mirrors s').

Lemma kept_steady s s' : kept s s' <-> steady s s' /\ (wf s -> still s s').
Proof. split; [by intros []; split_and!|]. intros [(? & ? & ? & ?) ?]. by split. Qed.

(** Profiles and keys stay as they are but for sync states and a status that
    is not the revoked one. *)
Lemma resync_steady s s' (g : string -> Profile -> Profile) (h : string -> AccessKey -> AccessKey) :
  bumped ∅ (nodes s) (nodes s') -> bindings s' = bindings s ->
  (forall pid, profiles s' !! pid = g pid <$> profiles s !! pid) -> (forall k, keys s' !! k = h k <$> keys s !! k) ->
  (forall pid p, p_KeyID (g pid p) = p_KeyID p /\ p_NodeID (g pid p) = p_NodeID p /\ (forall v, content (g pid p) v = content p v)) ->
  (forall k key, view_content (key_view (h k key)) = view_content (key_view key) /\ k_SecretEnc (h k key) = k_SecretEnc key /\
     k_CarrierMode (h k key) = k_CarrierMode key /\ k_Limits (h k key) = k_Limits key /\ k_TelemtLimits (h k key) = k_TelemtLimits key) ->
  steady s s'.
Proof.
  intros Hb Eb Hp Hk Hg Hh.
  assert (Hback : forall pid p', profiles s' !! pid = Some p' -> exists p, profiles s !! pid = Some p /\ p' = g pid p).
  { intros pid p' E. rewrite Hp in E. destruct (profiles s !! pid) as [p|]; [|done]. injection E as <-. by exists p. }
  assert (Hkback : forall k key', keys s' !! k = Some key' -> exists key, keys s !! k = Some key /\ key' = h k key).
  { intros k key' E. rewrite Hk in E. destruct (keys s !! k) as [key|]; [|done]. injection E as <-. by exists key. }
  split_and!; intros W.
  - split.
    + intros pid p' k (p & E & ->)%Hback. destruct (Hg pid p) as (-> & -> & _). intros Ek. rewrite Hk, Eb, fmap_is_Some. by apply (wf_key _ W).
    + intros k n pid E. rewrite Eb in E. destruct (wf_binding _ W _ _ _ E) as (p & Ep & ? & ?). exists (g pid p).
      destruct (Hg pid p) as (-> & -> & _). by rewrite Hp, Ep.
    + intros pid p' (p & E & ->)%Hback. destruct (Hg pid p) as (_ & -> & _). rewrite (bumped_dom _ _ _ _ Hb). by eapply wf_node.
    + intros k key' (key & E & ->)%Hkback. destruct (Hh k key) as (_ & _ & _ & El & Et). destruct (wf_jsonb _ W _ _ E).
      split; congruence.
  - exists ∅. split; [done|]. intros n _. apply map_eq. intros pid. rewrite !contents_lookup, Hp.
    destruct (profiles s !! pid) as [p|]; [|done]. cbn. destruct (Hg pid p) as (E1 & E2 & E3). unfold on_node. rewrite E2.
    destruct (String.eqb _ n); [|done]. rewrite E3. f_equal. unfold content, view_of. f_equal. rewrite E1. destruct (p_KeyID p) as [k|]; [|done]. cbn.
    rewrite Hk. destruct (keys s !! k) as [key|]; [|done]. cbn. f_equal. apply Hh.
  - apply (bumped_capacity ∅ s s' Hb). intros n. apply Nat.eq_le_incl, count_on_ext. intros pid. rewrite Hp.
    destruct (profiles s !! pid) as [p|]; [|done]. cbn. unfold on_node. by destruct (Hg pid p) as (_ & -> & _).
  - intros M pid p' k key' (p & Ep & ->)%Hback Ek (key & Ekey & ->)%Hkback. destruct (Hg pid p) as (E1 & _ & E3). rewrite E1 in Ek.
    destruct (Hh k key) as (_ & -> & -> & -> & _). specialize (E3 None). unfold content in E3. injection E3 as _ -> _ -> ->. by eapply M.
Qed.

Lemma with_sync_content st p v : content (with_sync st p) v = content p v.
Proof. by destruct p. Qed.

(** Marking profiles failed leaves fewer synced; marking them synced is looked
    at apart. *)
Lemma SetProfilesSync_spec ids st s u s' : SetProfilesSyncByIDs ids st s = Ok (u, s') ->
  s' = with_profiles s (profiles s') (bindings s) /\
  forall pid, profiles s' !! pid = (if bool_decide (pid ∈ ids) then with_sync st else id) <$> profiles s !! pid.
Proof.
  unfold SetProfilesSyncByIDs. rewrite modify_Ok. intros ->. split; [done|]. intros pid. cbn [profiles with_profiles].
  rewrite map_lookup_imap. destruct (profiles s !! pid) as [p|]; [|done]. cbn -[bool_decide]. by destruct (bool_decide _).
Qed.

Lemma SetProfilesSync_steady ids st s u s' : SetProfilesSyncByIDs ids st s = Ok (u, s') -> steady s s'.
Proof.
  intros [E Hp]%SetProfilesSync_spec. rewrite E in *. cbn [profiles with_profiles] in Hp.
  apply (resync_steady s _ (fun pid => if bool_decide (pid ∈ ids) then with_sync st else id) (fun _ => id)); try done.
  - apply bumped_refl.
  - intros k. cbn. by rewrite option_fmap_id.
  - intros pid p. destruct (bool_decide _); [|done]. split_and!; [done..|]. intros v. apply with_sync_content.
Qed.

Lemma failed_kept ids s u s' : SetProfilesSyncByIDs ids SyncFailed s = Ok (u, s') -> kept s s'.
Proof.
  intros H. apply kept_steady. split; [by eapply SetProfilesSync_steady|intros _].
  revert H. intros [E Hp]%SetProfilesSync_spec pid p' E' Es. rewrite Hp in E'. destruct (profiles s !! pid) as [p|] eqn:Ep; [|done]. injection E' as <-.
  destruct (bool_decide _); [done|]. exists p. rewrite E. done.
Qed.

Lemma activate_kept s u s' : ActivatePendingKeysForNode s = Ok (u, s') -> kept s s'.
Proof.
  unfold ActivatePendingKeysForNode. rewrite modify_Ok. intros ->.
  set (h := fun (id : string) k => if bool_decide (k_Status k = StatusPending) && all_synced id (profiles s) then set_status StatusActive (k_RevokedAt k) k else k).
  assert (Hh : forall k key, view_content (key_view (h k key)) = view_content (key_view key) /\ k_SecretEnc (h k key) = k_SecretEnc key /\
     k_CarrierMode (h k key) = k_CarrierMode key /\ k_Limits (h k key) = k_Limits key /\ k_TelemtLimits (h k key) = k_TelemtLimits key).
  { intros k key. unfold h. destruct (bool_decide (k_Status key = StatusPending)) eqn:Ep; [|done]. cbn. destruct (all_synced _ _); [|done].
    apply bool_decide_eq_true in Ep. unfold view_content. cbn. by rewrite Ep. }
  assert (Hl : forall k, keys (with_keys s (map_imap (fun id k => Some (h id k)) (keys s))) !! k = h k <$> keys s !! k).
  { intros k. cbn [keys with_keys]. rewrite map_lookup_imap. by destruct (keys s !! k). }
  apply kept_steady. split.
  - apply (resync_steady s _ (fun _ => id) h); try done; [apply bumped_refl|]. intros pid. by rewrite option_fmap_id.
  - intros _ pid p E Es. exists p. split_and!; [done..|]. unfold lasting. f_equal. unfold view_of. destruct (p_KeyID p) as [k|]; [|done]. cbn [mbind option_bind].
    rewrite Hl. destruct (keys s !! k) as [key|]; [|done]. cbn. f_equal. symmetry. apply Hh.
Qed.

(** A change of a node row that touches neither its limit nor its marks. *)
Lemma on_node_kept id (f : Node -> Node) s :
  (forall n, n_MaxProfiles (f n) = n_MaxProfiles n /\ n_LastApplyAt (f n) = n_LastApplyAt n /\ n_DirtySeq (f n) = n_DirtySeq n /\ n_Dirty (f n) = n_Dirty n) ->
  kept s (with_nodes s (alter f id (nodes s))).
Proof.
  intros Hf. apply kept_steady. split; [|intros _; apply still_nodes, still_refl].
  apply (resync_steady s _ (fun _ p => p) (fun _ k => k)); try done.
  - intros i. cbn. destruct (decide (i = id)) as [->|].
    + rewrite lookup_alter_eq. destruct (nodes s !! id) as [n|]; [|done]. cbn. destruct (Hf n) as (? & ? & ? & ?). split; [done|]. left. by split_and!; [set_solver|..].
    + rewrite lookup_alter_ne by done. destruct (nodes s !! i); [|done]. split; [done|]. left. by split_and!; [set_solver|..].
  - intros pid. cbn. symmetry. apply option_fmap_id.
  - intros k. cbn. symmetry. apply option_fmap_id.
Qed.

End Statements.

(** ** The panel at work *)

(** The tables, what each apply in flight has done so far, and the request each
    node took last. *)
Record panel := { db : Store; flights : gmap string phase; given : gmap string DesiredState }.

Section Panel.
Context `{O : MapOrder} `{J : Jsonb} `{L : LimitsJson} `{C : DesiredCodec}.

(** The flight of a node does its next statement.  [took]: the node took the
    request it is sent, whatever came back. *)
Definition fly (e : apply_env) (took : bool) (node : string) (ph : phase) (p : panel) : panel :=
  let '(ph', s) := advance e node ph (db p) in
  {| db := s;
     flights := match ph' with Done _ _ => delete node (flights p) | _ => <[node := ph']> (flights p) end;
     given := match ph with Filed des _ => if took then <[node := des]> (given p) else given p | _ => given p end |}.

(** A request that is reported applied was taken. *)
Definition honest (e : apply_env) (took : bool) (ph : phase) : Prop :=
  match ph with Filed des _ => apply_error (Req des) (e_driver e (Req des)) = None -> took = true | _ => True end.

(** What may happen next; [allowed] restricts the changes of the keys.  A panel
    that stops forgets its flights. *)
Inductive step (allowed : panel -> change -> Prop) : panel -> panel -> Prop :=
| step_edit fault now c p : allowed p c ->
    step allowed p {| db := commit fault now c (db p); flights := flights p; given := given p |}
| step_launch node p : flights p !! node = None ->
    step allowed p {| db := db p; flights := <[node := Opening]> (flights p); given := given p |}
| step_fly e took node ph p : flights p !! node = Some ph -> honest e took ph -> step allowed p (fly e took node ph p)
| step_stop p : step allowed p {| db := db p; flights := ∅; given := given p |}.

(** Nodes not applied to yet, and no profile synced. *)
Definition fresh_panel (p : panel) : Prop :=
  wf (db p) /\ flights p = ∅ /\ given p = ∅ /\
  (forall id n, nodes (db p) !! id = Some n -> n_LastApplyAt n = None) /\
  (forall pid q, profiles (db p) !! pid = Some q -> p_Sync q <> SyncSynced).

Definition reachable (allowed : panel -> change -> Prop) (p : panel) : Prop := exists p0, fresh_panel p0 /\ rtc (step allowed) p0 p.

(** *** Flights and the tables *)

(** A request built from these rows. *)
Definition made (des : DesiredState) (rows : list ProfileRow) : Prop := exists now n site, build now n rows site = Ok des.

Definition seq_ok (s : Store) (node : string) (q : Z) : Prop :=
  exists n, nodes s !! node = Some n /\ (q = n_DirtySeq n \/ (q < n_DirtySeq n /\ n_Dirty n = true)).

(** Rows read under the sequence number the node still has are its rows. *)
Definition snap_ok (s : Store) (node : string) (q : Z) (rows : list ProfileRow) : Prop :=
  forall n, nodes s !! node = Some n -> n_DirtySeq n = q -> row_contents rows ≡ₚ map_to_list (contents s node).

Definition built_ok (s : Store) (node : string) (des : DesiredState) : Prop :=
  seq_ok s node (DirtySeq des) /\ exists rows, made des rows /\ snap_ok s node (DirtySeq des) rows.

Definition flight_ok (s : Store) (g : option DesiredState) (node : string) (ph : phase) : Prop :=
  match ph with
  | Opening | Done _ _ => True
  | Opened n => seq_ok s node (n_DirtySeq n)
  | Listed n rows => seq_ok s node (n_DirtySeq n) /\ snap_ok s node (n_DirtySeq n) rows
  | Built des | Filed des _ => built_ok s node des
  | Pushed des _ _ err | Looked des _ _ err _ => built_ok s node des /\ (err = None -> g = Some des)
  end.

(** A node that is not dirty was given its profiles. *)
Definition clean_ok (s : Store) (g : option DesiredState) (node : string) : Prop :=
  forall n, nodes s !! node = Some n -> n_Dirty n = false -> n_LastApplyAt n <> None ->
    exists des rows, g = Some des /\ made des rows /\ row_contents rows ≡ₚ map_to_list (contents s node).

Definition node_ok (s : Store) (fs : gmap string phase) (g : gmap string DesiredState) (node : string) : Prop :=
  clean_ok s (g !! node) node /\ forall ph, fs !! node = Some ph -> flight_ok s (g !! node) node ph.

(** What a change of the tables may do to one node. *)
Definition evolves (node : string) (s s' : Store) : Prop :=
  match nodes s !! node, nodes s' !! node with
  | Some n, Some n' => n_LastApplyAt n' = n_LastApplyAt n /\
      ((n_DirtySeq n' = n_DirtySeq n /\ n_Dirty n' = n_Dirty n /\ contents s' node = contents s node) \/
       (n_DirtySeq n < n_DirtySeq n' /\ n_Dirty n' = true))
  | None, None => True
  | _, _ => False
  end.

Lemma tracks_evolves s s' node : tracks s s' -> evolves node s s'.
Proof.
  intros (B & Hb & Hc). unfold evolves. specialize (Hb node). destruct (nodes s !! node), (nodes s' !! node); try done.
  destruct Hb as [[_ HL] [(Hn & ? & ?)|[? ?]]]; (split; [done|]); [left|by right]. split_and!; [done..|]. by apply Hc.
Qed.

Lemma seq_ok_evolves s s' node q : evolves node s s' -> seq_ok s node q -> seq_ok s' node q.
Proof.
  unfold evolves. intros He (n & E & Hq). rewrite E in He. destruct (nodes s' !! node) as [n'|] eqn:E'; [|done].
  exists n'. split; [done|]. destruct He as [_ [(-> & -> & _)|[? ?]]]; [done|]. right. destruct Hq as [|[? _]]; split; (done || lia).
Qed.

Lemma snap_ok_evolves s s' node q rows : evolves node s s' -> seq_ok s node q -> snap_ok s node q rows -> snap_ok s' node q rows.
Proof.
  unfold evolves. intros He (n & E & Hq) Hs n' E' Hn'. rewrite E, E' in He. destruct He as [_ [(Hseq & _ & ->)|[? _]]].
  - apply (Hs n E). congruence.
  - destruct Hq as [|[? _]]; lia.
Qed.

Lemma built_ok_evolves s s' node des : evolves node s s' -> built_ok s node des -> built_ok s' node des.
Proof. intros He (Hq & rows & Hm & Hs). split; [by eapply seq_ok_evolves|]. exists rows. split; [done|]. by eapply snap_ok_evolves. Qed.

Lemma flight_ok_evolves s s' g node ph : evolves node s s' -> flight_ok s g node ph -> flight_ok s' g node ph.
Proof.
  intros He. destruct ph; cbn; try done; intuition eauto using seq_ok_evolves, snap_ok_evolves, built_ok_evolves.
Qed.

Lemma clean_ok_evolves s s' g node : evolves node s s' -> clean_ok s g node -> clean_ok s' g node.
Proof.
  unfold evolves. intros He Hc n' E' Hd Hl. rewrite E' in He. destruct (nodes s !! node) as [n|] eqn:E; [|done].
  destruct He as [HL [(_ & Hd' & Hcs)|[_ Hd']]]; [|congruence]. rewrite Hcs. apply (Hc n E); congruence.
Qed.

Lemma node_ok_evolves s s' fs g node : evolves node s s' -> node_ok s fs g node -> node_ok s' fs g node.
Proof. intros He [Hc Hf]. split; [by eapply clean_ok_evolves|]. intros ph E. eapply flight_ok_evolves; [done|by apply Hf]. Qed.

(** *** Statements of a flight *)

Lemma run_tx_Ok {A} fault (m : Tx A) s a s' : run_tx fault m s = (Ok a, s') -> m s = Ok (a, s').
Proof. unfold run_tx. destruct fault; [done|]. destruct (m s) as [[b s1]|]; [|done]. by intros [= -> ->]. Qed.

Lemma run_tx_Err {A} fault (m : Tx A) s e s' : run_tx fault m s = (Err e, s') -> s' = s.
Proof. unfold run_tx. destruct fault; [by intros [= _ ->]|]. destruct (m s) as [[b s1]|]; [done|]. by intros [= _ ->]. Qed.

Lemma recordDeferred_kept node res s s' u : recordDeferred node res s = Ok (u, s') -> kept s s'.
Proof. unfold recordDeferred, ResolveAlerts, InsertAlert. destruct (bool_decide _); intros H; tx; by apply other_kept. Qed.

Lemma failure_kept node job res msg ids s s' u : failure_body node job res msg (mret ids) s = Ok (u, s') -> kept s s'.
Proof.
  unfold failure_body, FinishApplyJob, InsertAlertOnce. intros H. tx.
  match goal with E : SetProfilesSyncByIDs _ _ ?a = Ok (_, ?b) |- _ =>
    apply failed_kept in E; apply (kept_trans _ a); [by apply other_kept|]; apply (kept_trans _ b); [done|] end.
  by apply other_kept.
Qed.

(** The closing of an apply that came through: the profiles it carried become
    synced, the node clean if nothing marked it since. *)
Lemma success_Ok now node job des res ids s s' u : success_body now node job des res (mret ids) s = Ok (u, s') ->
  exists s1 s2 s3, kept s s1 /\ profiles s1 = profiles s /\ keys s1 = keys s /\ SetProfilesSyncByIDs ids SyncSynced s1 = Ok (tt, s2) /\ kept s2 s3 /\
    kept (with_nodes s3 (alter (fun n => if n_DirtySeq n =? DirtySeq des then applied now n else n) node (nodes s3))) s'.
Proof.
  unfold success_body, FinishApplyJob, SetNodeApplied, ResolveAlerts. intros H. tx.
  match goal with E : SetProfilesSyncByIDs _ _ ?a = Ok (?u, ?b) |- _ => exists a, b; destruct u end.
  match goal with |- context [kept (with_nodes _ _) _] => idtac end.
  match goal with E : recordDeferred _ _ (with_alerts (with_nodes ?q _) _) = _ |- _ => exists q; apply recordDeferred_kept in E end.
  match goal with E : ActivatePendingKeysForNode _ = _ |- _ => apply activate_kept in E end.
  split_and!; try done.
  - by apply other_kept.
  - match goal with |- kept ?b _ => match goal with
      E1 : match ar_Site _ with Some _ => _ | None => _ end b = Ok (_, ?m), E2 : match AppliedWebBasePath _ with Some _ => _ | None => _ end ?m = Ok (_, _) |- _ =>
      apply (kept_trans _ m); [clear E2|clear E1] end end.
    + unfold SetNodeSiteDeployed in *. destruct (ar_Site _); tx; [by apply other_kept|apply kept_refl].
    + unfold SetNodeWebAppliedBasePath in *. destruct (AppliedWebBasePath _); tx; [by apply on_node_kept|apply kept_refl].
  - match goal with E : kept ?m ?x, E2 : kept ?x s' |- _ => apply (kept_trans _ m); [by apply other_kept|by apply (kept_trans _ x)] end.
Qed.

(** The node called clean under the number the apply was built with. *)
Definition applied_at (now : Z) (node : string) (seq : Z) (s : Store) : Store :=
  with_nodes s (alter (fun n => if n_DirtySeq n =? seq then applied now n else n) node (nodes s)).

Lemma applied_wf now node seq s : wf s -> wf (applied_at now node seq s).
Proof.
  intros [H1 H2 H3 H4]. split; try done. intros pid p E. unfold applied_at. cbn. rewrite lookup_alter_is_Some. by eapply H3.
Qed.

Lemma applied_capacity now node seq s : capacity s -> capacity (applied_at now node seq s).
Proof.
  intros Hc n r. unfold applied_at. cbn. destruct (decide (n = node)) as [->|]; [|rewrite lookup_alter_ne by done; apply Hc].
  rewrite lookup_alter_eq. destruct (nodes s !! node) as [r0|] eqn:E; [|done]. intros [= <-]. specialize (Hc _ _ E). by destruct (_ =? _).
Qed.

Lemma applied_evolves now node seq s other : other <> node -> evolves other s (applied_at now node seq s).
Proof.
  intros Hne. unfold evolves, applied_at. cbn. rewrite lookup_alter_ne by done. destruct (nodes s !! other); [|done]. split; [done|]. by left.
Qed.

(** A flight whose request the node took makes the node clean. *)
Lemma applied_clean now node s des : built_ok s node des -> clean_ok s (Some des) node -> clean_ok (applied_at now node (DirtySeq des) s) (Some des) node.
Proof.
  intros (Hq & rows & Hm & Hs) Hc n. unfold applied_at. cbn. rewrite lookup_alter_eq. destruct (nodes s !! node) as [n0|] eqn:E; [|done].
  cbn. intros [= <-]. destruct (n_DirtySeq n0 =? DirtySeq des) eqn:Eq; [|by apply (Hc n0 E)].
  intros _ _. apply Z.eqb_eq in Eq. exists des, rows. split_and!; [done..|]. by apply (Hs n0).
Qed.

(** What a node took while nothing marked it is what it should have. *)
Lemma taken_clean s g node des : built_ok s node des -> clean_ok s g node -> clean_ok s (Some des) node.
Proof.
  intros ((n & E & Hq) & rows & Hm & Hs) Hc n' E' Hd _. rewrite E in E'. injection E' as <-. exists des, rows. split_and!; [done..|].
  destruct Hq as [|[_ ?]]; [by apply (Hs n)|congruence].
Qed.

Lemma run_tx_kept_or {A} fault (m : Tx A) s r s' : (forall a s1, m s = Ok (a, s1) -> kept s s1) -> run_tx fault m s = (r, s') -> kept s s'.
Proof.
  intros Hm E. destruct r as [a|e]; [|apply run_tx_Err in E as ->; apply kept_refl]. apply run_tx_Ok in E. by eapply Hm.
Qed.

(** Every statement but the closing of a good apply keeps what the changes of
    the keys keep. *)
Lemma advance_kept e node ph s ph' s' : advance e node ph s = (ph', s') ->
  match ph with Looked _ _ _ None _ => False | _ => True end -> kept s s'.
Proof.
  intros E Hph. destruct ph as [|n|n rows|des|des job|des job res err|des job res err ids|]; cbn in E.
  - destruct (run_tx _ _ s) as [[n|f] s1] eqn:Er; injection E as _ <-; eapply run_tx_kept_or; try exact Er; intros a s2 H; tx; apply kept_refl.
  - destruct (run_tx _ _ s) as [[n'|f] s1] eqn:Er; injection E as _ <-; eapply run_tx_kept_or; try exact Er; unfold ListNodeProfilesWithKey; intros a s2 H; tx; apply kept_refl.
  - destruct (run_tx _ _ s) as [[n'|f] s1] eqn:Er; injection E as _ <-; eapply run_tx_kept_or; try exact Er; unfold GetNodeSite; intros a s2 H; tx; apply kept_refl.
  - destruct (run_tx _ _ s) as [[n'|f] s1] eqn:Er; injection E as _ <-; eapply run_tx_kept_or; try exact Er; unfold CreateApplyJob; intros a s2 H; tx; by apply other_kept.
  - injection E as _ <-. apply kept_refl.
  - destruct (run_tx _ _ s) as [[n'|f] s1] eqn:Er; injection E as _ <-; eapply run_tx_kept_or; try exact Er; unfold ProfilesStillAtRevision, ListNodeProfilesWithKey; intros a s2 H; tx; apply kept_refl.
  - destruct err as [msg|]; [|done]. unfold close in E.
    destruct (run_tx _ _ s) as [[n'|f] s1] eqn:Er; injection E as _ <-; eapply run_tx_kept_or; try exact Er; intros a s2 H; by eapply failure_kept.
  - injection E as _ <-. apply kept_refl.
Qed.

Lemma build_Ok now n rows site des : build now n rows site = Ok des ->
  DirtySeq des = n_DirtySeq n /\ send_profiles now ∅ (default_first rows) = Ok (Profiles (Req des), MTProxySecrets (Req des)) /\
  Revisions des = list_to_map (rev (map (fun r => (r_ID r, profileRevision r)) (default_first rows))).
Proof.
  unfold build. destruct (base_request n) as [base|]; [|done]. cbn.
  destruct (send_profiles now ∅ (default_first rows)) as [[ps ss]|] eqn:E; [|done]. cbn.
  destruct (site_to_send site) as [[files hash]|]; [|done]. cbn. by intros [= <-].
Qed.

Lemma seq_ok_here s node n : nodes s !! node = Some n -> seq_ok s node (n_DirtySeq n).
Proof. intros E. exists n. split; [done|by left]. Qed.

(** The request a node holds after the statement. *)
Definition given_after (took : bool) (ph : phase) (g : option DesiredState) : option DesiredState :=
  match ph with Filed des _ => if took then Some des else g | _ => g end.

Lemma close_ok e node des job res ids s g ph' s' : wf s -> built_ok s node des -> clean_ok s (Some des) node -> g = Some des ->
  close e node des job res None (mret ids) s = (ph', s') ->
  wf s' /\ (capacity s -> capacity s') /\ (mirrors s -> mirrors s') /\ clean_ok s' g node /\ (forall other, other <> node -> evolves other s s') /\ (exists x y, ph' = Done x y).
Proof.
  intros W Hb Hc -> E. unfold close in E. destruct (run_tx (e_fault e) _ s) as [[u|f] s1] eqn:Er.
  2: { injection E as <- <-. apply run_tx_Err in Er as ->. split_and!; try done; [|by eexists _, _]. intros other _. apply tracks_evolves, tracks_refl. }
  injection E as <- <-. apply run_tx_Ok, success_Ok in Er as (s2 & s3 & s4 & K1 & _ & _ & Hsync & K3 & K4).
  apply SetProfilesSync_steady in Hsync as (W2 & T2 & C2 & M2). change (with_nodes s4 _) with (applied_at (e_now e) node (DirtySeq des) s4) in K4.
  pose proof (kept_wf _ _ K1 W) as Wa. pose proof (W2 Wa) as Wb. pose proof (kept_wf _ _ K3 Wb) as Wc. pose proof (applied_wf (e_now e) node (DirtySeq des) _ Wc) as Wd.
  assert (Ta : tracks s s4). { eapply tracks_trans; [by apply (kept_tracks _ _ K1)|]. eapply tracks_trans; [by apply T2|by apply (kept_tracks _ _ K3)]. }
  pose proof (kept_tracks _ _ K4 Wd) as Td. split_and!.
  - by apply (kept_wf _ _ K4).
  - intros Hcap. apply (kept_capacity _ _ K4 Wd), applied_capacity, (kept_capacity _ _ K3 Wb), C2, (kept_capacity _ _ K1 W); done.
  - intros Hm. apply (kept_mirrors _ _ K4 Wd), mirrors_nodes, (kept_mirrors _ _ K3 Wb), M2, (kept_mirrors _ _ K1 W); done.
  - eapply clean_ok_evolves; [by apply tracks_evolves|]. apply applied_clean.
    + eapply built_ok_evolves; [by apply tracks_evolves|done].
    + eapply clean_ok_evolves; [by apply tracks_evolves|done].
  - intros other Hne. pose proof (tracks_evolves _ _ other Ta) as E1. pose proof (applied_evolves (e_now e) node (DirtySeq des) s4 other Hne) as E2.
    pose proof (tracks_evolves _ _ other Td) as E3. clear -E1 E2 E3. unfold evolves in *.
    destruct (nodes s !! other), (nodes s4 !! other), (nodes (applied_at _ _ _ s4) !! other), (nodes s1 !! other); try done.
    destruct E1 as [L1 E1], E2 as [L2 E2], E3 as [L3 E3]. split; [congruence|].
    destruct E1 as [(? & ? & ?)|[? ?]], E2 as [(? & ? & ?)|[? ?]], E3 as [(? & ? & ?)|[? ?]];
      solve [left; split_and!; congruence | right; split; [lia|congruence]].
  - by eexists _, _.
Qed.

(** One statement of the flight of a node. *)
Lemma advance_ok e took node ph s g ph' s' : wf s -> clean_ok s g node -> flight_ok s g node ph -> honest e took ph -> advance e node ph s = (ph', s') ->
  wf s' /\ (capacity s -> capacity s') /\ (mirrors s -> mirrors s') /\ (forall other, other <> node -> evolves other s s') /\
  clean_ok s' (given_after took ph g) node /\ flight_ok s' (given_after took ph g) node ph'.
Proof.
  intros W Hc Hf Hh E.
  destruct (match ph with Looked _ _ _ None _ => true | _ => false end) eqn:Hl.
  { destruct ph as [| | | | | |des job res [msg|] ids|]; try done. destruct Hf as [Hb Hg]. specialize (Hg eq_refl). cbn in E. rewrite Hg in Hc.
    destruct (close_ok _ _ _ _ _ _ _ _ _ _ W Hb Hc Hg E) as (? & ? & ? & ? & ? & x & y & ->). split_and!; done. }
  assert (K : kept s s'). { eapply advance_kept; [done|]. by destruct ph as [| | | | | |? ? ? [|] ?|]. }
  assert (Hev : forall n, evolves n s s') by (intros n; by apply tracks_evolves, (kept_tracks _ _ K)).
  split_and!; [by apply (kept_wf _ _ K)|by apply (kept_capacity _ _ K)|by apply (kept_mirrors _ _ K)|auto|..].
  - destruct ph; try by eapply clean_ok_evolves. cbn in Hf |- *. destruct took; [|by eapply clean_ok_evolves]. eapply clean_ok_evolves; [done|]. by eapply taken_clean.
  - assert (Hf' : flight_ok s' g node ph) by by eapply flight_ok_evolves.
    destruct ph as [|n|n rows|des|des job|des job res err|des job res err ids|]; cbn in E; cbn [given_after].
    + destruct (run_tx _ _ s) as [[n|f] s1] eqn:Er; injection E as <- <-; [|done]. apply run_tx_Ok in Er. tx. by apply seq_ok_here.
    + destruct (run_tx _ _ s) as [[rows|f] s1] eqn:Er; injection E as <- <-; [|done]. apply run_tx_Ok, ListNodeProfilesWithKey_Ok in Er as [-> ->].
      split; [done|]. intros n' _ _. apply rows_contents.
    + destruct (run_tx _ _ s) as [[des|f] s1] eqn:Er; injection E as <- <-; [|done]. apply run_tx_Ok in Er. unfold GetNodeSite in Er. tx.
      match goal with Eb : build _ _ _ _ = Ok _ |- _ => pose proof (build_Ok _ _ _ _ _ Eb) as (Hd & _); rename Eb into Ebuild end.
      destruct Hf' as [Hq Hs]. split; rewrite Hd; [done|]. exists rows. split; [by eexists _, _, _|done].
    + destruct (run_tx _ _ s) as [[jid|f] s1] eqn:Er; by injection E as <- <-.
    + injection E as <- <-. destruct Hf' as [Hq Hs]. split; [done|]. intros Hack. by rewrite (Hh Hack).
    + destruct (run_tx _ _ s) as [[u|f] s1] eqn:Er; injection E as <- <-; [done|]. by destruct err.
    + destruct err as [msg|]; [|done]. unfold close in E. destruct (run_tx _ _ s) as [[u|f] s1]; by injection E as <- <-.
    + by injection E as <- <-.
Qed.

(** *** Every reachable panel *)

Definition panel_ok (p : panel) : Prop := wf (db p) /\ forall node, node_ok (db p) (flights p) (given p) node.

(** Where a statement of a flight leaves the flights and what was given. *)
Lemma fly_here e took node ph p ph' s' : advance e node ph (db p) = (ph', s') ->
  db (fly e took node ph p) = s' /\ given (fly e took node ph p) !! node = given_after took ph (given p !! node) /\
  forall ph2, flights (fly e took node ph p) !! node = Some ph2 -> ph2 = ph'.
Proof.
  unfold fly. intros ->. cbn. split_and!; [done| |].
  - destruct ph; cbn; try done. destruct took; [by rewrite lookup_insert_eq|done].
  - intros ph2. destruct ph'; rewrite ?lookup_insert_eq, ?lookup_delete_eq; by intros [= <-].
Qed.

Lemma fly_elsewhere e took node ph p other : other <> node ->
  given (fly e took node ph p) !! other = given p !! other /\ flights (fly e took node ph p) !! other = flights p !! other.
Proof.
  intros Hne. unfold fly. destruct (advance e node ph (db p)) as [ph' s']. cbn. split.
  - destruct ph; try done. destruct took; [by rewrite lookup_insert_ne|done].
  - by destruct ph'; rewrite ?lookup_insert_ne, ?lookup_delete_ne by done.
Qed.

Lemma step_ok allowed p p' : step allowed p p' -> panel_ok p -> panel_ok p'.
Proof.
  intros Hs [W Hn]. destruct Hs as [fault now c p _|node p Hfree|e took node ph p Hph Hh|p].
  - destruct (commit_tracks fault now c (db p) W) as (W' & T & _). split; [done|]. cbn. intros node.
    eapply node_ok_evolves; [by apply tracks_evolves|done].
  - split; [done|]. intros other. cbn. destruct (Hn other) as [Hc Hf]. split; [done|]. intros ph.
    destruct (decide (other = node)) as [->|]; [rewrite lookup_insert_eq; by intros [= <-]|]. rewrite lookup_insert_ne by done. apply Hf.
  - destruct (advance e node ph (db p)) as [ph' s'] eqn:E. destruct (Hn node) as [Hc Hf]. destruct (fly_here _ took _ _ _ _ _ E) as (Ed & Eg & Ef).
    destruct (advance_ok _ took _ _ _ _ _ _ W Hc (Hf _ Hph) Hh E) as (W' & _ & _ & Hev & Hc' & Hf').
    split; [by rewrite Ed|]. rewrite Ed. intros other. destruct (decide (other = node)) as [->|Hne].
    + split; rewrite Eg; [done|]. by intros ph2 ->%Ef.
    + destruct (fly_elsewhere e took node ph p other Hne) as [Eg2 Ef2]. unfold node_ok. rewrite Eg2, Ef2. by apply (node_ok_evolves _ _ _ _ _ (Hev other Hne)).
  - split; [done|]. intros node. destruct (Hn node) as [Hc _]. split; [done|]. intros ph. cbn. by rewrite lookup_empty.
Qed.

Lemma fresh_ok p : fresh_panel p -> panel_ok p.
Proof.
  intros (W & Ef & Eg & Hn & _). split; [done|]. intros node. rewrite Ef, Eg. split.
  - intros n E _ Hl. by destruct (Hl (Hn _ _ E)).
  - intros ph. by rewrite lookup_empty.
Qed.

Lemma reachable_ok allowed p : reachable allowed p -> panel_ok p.
Proof.
  intros (p0 & H0 & Hr). apply fresh_ok in H0. induction Hr as [|p0 p1 p2 Hs _ IH]; [done|]. apply IH. by eapply step_ok.
Qed.

(** *** Synced profiles *)

(** The request carries the profile as it is, up to the times and the status of
    its key. *)
Definition carried (s : Store) (des : DesiredState) (pid : string) (q : Profile) : Prop :=
  exists v, kv_TelemtLimits <$> v = kv_TelemtLimits <$> view_of s q /\
    Revisions des !! pid = Some (profileRevision {| r_ID := pid; r_Profile := q; r_Key := v |}).

Definition synced_on (s : Store) (node pid : string) (q : Profile) : Prop :=
  profiles s !! pid = Some q /\ p_NodeID q = node /\ p_Sync q = SyncSynced.

Definition shown (s : Store) (node : string) (rows : list ProfileRow) : Prop :=
  NoDup (r_ID <$> rows) /\
  forall pid q, synced_on s node pid q -> exists r, r ∈ rows /\ r_ID r = pid /\ lasting (r_Profile r) (r_Key r) = lasting q (view_of s q).

Definition holds (s : Store) (node : string) (des : DesiredState) : Prop := forall pid q, synced_on s node pid q -> carried s des pid q.

(** Of the profiles about to be marked. *)
Definition unchanged_ok (s : Store) (node : string) (des : DesiredState) (ids : list string) : Prop :=
  forall pid q, pid ∈ ids -> profiles s !! pid = Some q -> p_NodeID q = node /\ carried s des pid q.

Definition flight_sync (s : Store) (node : string) (ph : phase) : Prop :=
  match ph with
  | Opening | Opened _ | Done _ _ => True
  | Listed _ rows => shown s node rows
  | Built des | Filed des _ | Pushed des _ _ _ => holds s node des
  | Looked des _ _ _ ids => holds s node des /\ unchanged_ok s node des ids
  end.

Definition node_sync (s : Store) (fs : gmap string phase) (g : gmap string DesiredState) (node : string) : Prop :=
  (forall pid q, synced_on s node pid q -> exists des, g !! node = Some des /\ carried s des pid q) /\
  forall ph, fs !! node = Some ph -> flight_sync s node ph.

Lemma revision_lasting pid q q' v : (forall w, lasting q w = lasting q' w) ->
  profileRevision {| r_ID := pid; r_Profile := q; r_Key := v |} = profileRevision {| r_ID := pid; r_Profile := q'; r_Key := v |}.
Proof.
  intros H. specialize (H None). unfold lasting in H. injection H as E1 E2 E3 E4 E5. unfold profileRevision, revision_input. cbn [r_Profile r_Key].
  by rewrite E1, E2, E3, E4, E5.
Qed.

Lemma carried_lasting s s' des pid q q' : lasting q (view_of s q) = lasting q' (view_of s' q') -> carried s des pid q -> carried s' des pid q'.
Proof.
  intros H (v & Hv & Hr). assert (Hw : forall w, lasting q w = lasting q' w) by (intros w; unfold lasting in *; congruence).
  unfold lasting in H. exists v. split; [congruence|]. by rewrite Hr, (revision_lasting pid q q').
Qed.

(** A change after which only synced profiles that were synced, as they were,
    are left on the node. *)
Definition still_on (node : string) (s s' : Store) : Prop :=
  forall pid q', synced_on s' node pid q' -> exists q, synced_on s node pid q /\ lasting q (view_of s q) = lasting q' (view_of s' q').

Lemma still_still_on node s s' : still s s' -> still_on node s s'.
Proof. intros H pid q' (E & Hn & Hs). destruct (H _ _ E Hs) as (q & ? & ? & ? & ?). exists q. split; [|done]. split_and!; congruence. Qed.

(** The profiles are those there were, as they were but for sync states. *)
Definition settled (s s' : Store) : Prop :=
  forall pid q', profiles s' !! pid = Some q' ->
    exists q, profiles s !! pid = Some q /\ p_NodeID q = p_NodeID q' /\ lasting q (view_of s q) = lasting q' (view_of s' q').

Lemma settled_refl s : settled s s.
Proof. intros pid q E. by exists q. Qed.

Lemma flight_sync_on node s s' ph : still_on node s s' -> (settled s s' \/ match ph with Looked _ _ _ _ _ => False | _ => True end) ->
  flight_sync s node ph -> flight_sync s' node ph.
Proof.
  intros Hs Ht.
  assert (Hh : forall des, holds s node des -> holds s' node des).
  { intros des H pid q' (q & Hq & E)%Hs. apply (carried_lasting s s' _ _ q); [done|]. by apply H. }
  destruct ph as [|n|n rows|des|des job|des job res err|des job res err ids|]; cbn; try done; auto.
  - intros [Hnd H]. split; [done|]. intros pid q' (q & Hq & <-)%Hs. by apply H.
  - intros [H Hu]. split; [auto|]. destruct Ht as [Ht|[]]. intros pid q' Hin (q & E & <- & Hl)%Ht. destruct (Hu _ _ Hin E). split; [done|].
    by apply (carried_lasting s s' _ _ q).
Qed.

Lemma node_sync_on s s' fs g node : still_on node s s' -> (forall ph, fs !! node = Some ph -> settled s s' \/ match ph with Looked _ _ _ _ _ => False | _ => True end) ->
  node_sync s fs g node -> node_sync s' fs g node.
Proof.
  intros Hs Ht [Hc Hf]. split.
  - intros pid q' (q & Hq & E)%Hs. destruct (Hc _ _ Hq) as (des & Hg & Hd). exists des. split; [done|]. by apply (carried_lasting s s' _ _ q).
  - intros ph E. eapply flight_sync_on; [done|by apply Ht|by apply Hf].
Qed.

(** What a closing does to the profiles and keys. *)
Definition resynced (ids : list string) (st : SyncState) (s s' : Store) : Prop :=
  (forall pid, profiles s' !! pid = (if bool_decide (pid ∈ ids) then with_sync st else id) <$> profiles s !! pid) /\
  (forall k, k_TelemtLimits <$> keys s' !! k = k_TelemtLimits <$> keys s !! k).

Lemma failure_resynced node job res msg ids s s' u : failure_body node job res msg (mret ids) s = Ok (u, s') -> resynced ids SyncFailed s s' /\ keys s' = keys s.
Proof.
  unfold failure_body, FinishApplyJob, InsertAlertOnce. intros H. tx.
  match goal with H0 : SetProfilesSyncByIDs _ _ _ = _ |- _ => destruct (SetProfilesSync_spec _ _ _ _ _ H0) as [Es Ep] end.
  cbn [keys profiles with_alerts]. split; [split; [exact Ep|]; intros k|]; rewrite Es; done.
Qed.

Lemma success_resynced now node job des res ids s s' u : success_body now node job des res (mret ids) s = Ok (u, s') ->
  resynced ids SyncSynced s s' /\
  forall k key key', keys s !! k = Some key -> keys s' !! k = Some key' -> k_Status key <> StatusActive -> k_Status key' = StatusActive ->
    all_synced k (profiles s') = true.
Proof.
  unfold success_body, FinishApplyJob, SetNodeApplied, ResolveAlerts, ActivatePendingKeysForNode. intros H. tx.
  match goal with H0 : SetProfilesSyncByIDs _ _ _ = Ok (_, ?b) |- _ => destruct (SetProfilesSync_spec _ _ _ _ _ H0) as [Es Ep]; set (s1 := b) in * end.
  match goal with E1 : match ar_Site _ with Some _ => _ | None => _ end _ = Ok (_, ?m), E2 : match AppliedWebBasePath _ with Some _ => _ | None => _ end ?m = Ok (_, ?n),
    E3 : recordDeferred _ _ _ = Ok (_, ?o) |- _ =>
    assert (HA : profiles m = profiles s1 /\ keys m = keys s1); [clear E2 E3|assert (HB : profiles n = profiles m /\ keys n = keys m);
      [clear E1 E3|assert (HC : profiles o = profiles n /\ keys o = keys n); [clear E1 E2|]]] end.
  - unfold SetNodeSiteDeployed in *. destruct (ar_Site _); by tx.
  - unfold SetNodeWebAppliedBasePath in *. destruct (AppliedWebBasePath _); by tx.
  - unfold recordDeferred, ResolveAlerts, InsertAlert in *. destruct (bool_decide _); by tx.
  - destruct HA as [P1 K1], HB as [P2 K2], HC as [P3 K3].
    assert (Ek : keys s1 = keys s) by by rewrite Es. split; [split|].
    + intros pid. cbn. rewrite P3, P2, P1. apply Ep.
    + intros k. cbn [keys with_keys]. rewrite map_lookup_imap, K3, K2, K1, Ek. destruct (keys s !! k); [|done]. cbn. by destruct (_ && _).
    + intros k key key' E1. cbn [keys with_keys profiles]. rewrite map_lookup_imap, K3, K2, K1, Ek, E1. cbn -[bool_decide].
      intros [= <-]. destruct (bool_decide (k_Status key = StatusPending) && _) eqn:Ea; [|done]. by apply andb_true_iff in Ea as [_ ?].
Qed.

Lemma resynced_lasting ids st s s' pid q : resynced ids st s s' -> lasting (if bool_decide (pid ∈ ids) then with_sync st q else q)
    (view_of s' (if bool_decide (pid ∈ ids) then with_sync st q else q)) = lasting q (view_of s q).
Proof.
  intros [_ Hk].
  assert (Hv : kv_TelemtLimits <$> view_of s' q = kv_TelemtLimits <$> view_of s q).
  { unfold view_of. destruct (p_KeyID q) as [k|]; [|done]. cbn. specialize (Hk k). by destruct (keys s' !! k), (keys s !! k). }
  unfold lasting. destruct (bool_decide _); f_equal; exact Hv.
Qed.

Lemma resynced_settled ids st s s' : resynced ids st s s' -> settled s s'.
Proof.
  intros Hr pid q' E. destruct Hr as [Hp Hk] eqn:Er. rewrite Hp in E. destruct (profiles s !! pid) as [q|] eqn:Eq; [|done]. cbn in E.
  exists q. split; [done|]. pose proof (resynced_lasting ids st s s' pid q Hr) as Hl. destruct (bool_decide _); cbn in E; injection E as <-; by split.
Qed.

(** A node whose profiles were not marked synced. *)
Lemma resynced_still_on ids st s s' node : resynced ids st s s' ->
  (st = SyncSynced -> forall pid q, pid ∈ ids -> profiles s !! pid = Some q -> p_NodeID q <> node) -> still_on node s s'.
Proof.
  intros Hr Hn pid q' (E & En & Es). pose proof Hr as [Hp _]. rewrite Hp in E. destruct (profiles s !! pid) as [q|] eqn:Eq; [|done]. cbn in E.
  pose proof (resynced_lasting ids st s s' pid q Hr) as Hl. destruct (bool_decide (pid ∈ ids)) eqn:Ei; cbn in E; injection E as <-.
  - apply bool_decide_eq_true in Ei. cbn in Es, En. by destruct (Hn Es _ _ Ei Eq).
  - exists q. by split.
Qed.

(** The statements that are not a closing leave profiles and keys alone. *)
Lemma advance_settled e node ph s ph' s' : advance e node ph s = (ph', s') ->
  match ph with Looked _ _ _ _ _ => False | _ => True end -> profiles s' = profiles s /\ keys s' = keys s.
Proof.
  intros E Hph.
  assert (Hrun : forall A (m : Tx A) r s1, (forall a s2, m s = Ok (a, s2) -> profiles s2 = profiles s /\ keys s2 = keys s) ->
    run_tx (e_fault e) m s = (r, s1) -> profiles s1 = profiles s /\ keys s1 = keys s).
  { intros A m r s1 Hm Er. destruct r; [apply run_tx_Ok in Er; by eapply Hm|by apply run_tx_Err in Er as ->]. }
  destruct ph as [|n|n rows|des|des job|des job res err|des job res err ids|]; try done; cbn in E.
  - destruct (run_tx _ _ s) as [[n|f] s1] eqn:Er; injection E as _ <-; eapply Hrun; try exact Er; intros a s2 H; by tx.
  - destruct (run_tx _ _ s) as [[n'|f] s1] eqn:Er; injection E as _ <-; eapply Hrun; try exact Er; unfold ListNodeProfilesWithKey; intros a s2 H; by tx.
  - destruct (run_tx _ _ s) as [[n'|f] s1] eqn:Er; injection E as _ <-; eapply Hrun; try exact Er; unfold GetNodeSite; intros a s2 H; by tx.
  - destruct (run_tx _ _ s) as [[n'|f] s1] eqn:Er; injection E as _ <-; eapply Hrun; try exact Er; unfold CreateApplyJob; intros a s2 H; by tx.
  - by injection E as _ <-.
  - destruct (run_tx _ _ s) as [[n'|f] s1] eqn:Er; injection E as _ <-; eapply Hrun; try exact Er; unfold ProfilesStillAtRevision, ListNodeProfilesWithKey; intros a s2 H; by tx.
  - by injection E as _ <-.
Qed.

Lemma same_tables s s' : profiles s' = profiles s -> keys s' = keys s -> settled s s' /\ forall node, still_on node s s'.
Proof.
  intros Ep Ek. assert (Hv : forall q, view_of s' q = view_of s q) by (intros q; unfold view_of; by rewrite Ek). split.
  - intros pid q E. rewrite Ep in E. exists q. by rewrite Hv.
  - intros node pid q (E & ? & ?). exists q. rewrite Ep in E. rewrite Hv. by split_and!.
Qed.

(** The fingerprints of a request built from these rows. *)
Lemma made_revision des rows r : made des rows -> NoDup (r_ID <$> rows) -> r ∈ rows -> Revisions des !! r_ID r = Some (profileRevision r).
Proof.
  intros (now & n & site & (_ & _ & ->)%build_Ok) Hnd Hin. set (f := fun r => (r_ID r, profileRevision r)).
  assert (Hp : rev (map f (default_first rows)) ≡ₚ f <$> rows).
  { rewrite <- Permutation_rev. apply fmap_Permutation, default_first_perm. }
  apply elem_of_list_to_map_1.
  - rewrite (fmap_Permutation fst _ _ Hp), <- list_fmap_compose. exact Hnd.
  - rewrite Hp. apply list_elem_of_fmap. by exists r.
Qed.

Lemma shown_holds s node rows des : made des rows -> shown s node rows -> holds s node des.
Proof.
  intros Hm [Hnd Hs] pid q Hq. destruct (Hs pid q Hq) as ([i p v] & Hin & <- & Hl). cbn in *. pose proof (made_revision _ _ _ Hm Hnd Hin) as Hr. cbn in Hr.
  exists v. assert (Hw : forall w, lasting p w = lasting q w) by (intros w; unfold lasting in *; congruence).
  unfold lasting in Hl. split; [congruence|]. by rewrite Hr, (revision_lasting i p q).
Qed.

Lemma rows_shown s node : shown s node (rows_of node s).
Proof.
  split; [apply rows_of_ids|]. intros pid q (E & Hn & _). exists (row_of s pid q). split_and!; [|done..]. apply rows_of_elem. by exists pid, q.
Qed.

(** The rows that still have the fingerprint they were sent with. *)
Lemma still_at_revision node des s ids s' : ProfilesStillAtRevision node (Revisions des) s = Ok (ids, s') -> unchanged_ok s node des ids /\ s' = s.
Proof.
  unfold ProfilesStillAtRevision. intros (rows & s1 & [-> ->]%ListNodeProfilesWithKey_Ok & [<- <-]%ret_Ok)%bind_Ok. split; [|done].
  intros pid q (r & -> & Hin)%list_elem_of_fmap E. apply list_elem_of_In, List.filter_In in Hin as [Hin Hr].
  apply list_elem_of_In, rows_of_elem in Hin as (i & p & Ep & <- & ->). cbn in *. rewrite E in Ep. injection Ep as <-. split; [done|].
  exists (view_of s q). split; [done|]. destruct (Revisions des !! i) as [rev|]; [|done]. apply String.eqb_eq in Hr as ->. done.
Qed.

(** One statement of the flight of a node: what is synced after it. *)
Lemma advance_sync e took node ph s fs g ph' s' : wf s -> flight_ok s (g !! node) node ph -> node_sync s fs g node -> fs !! node = Some ph ->
  honest e took ph -> advance e node ph s = (ph', s') ->
  (forall pid q, synced_on s' node pid q -> exists des, given_after took ph (g !! node) = Some des /\ carried s' des pid q) /\
  flight_sync s' node ph' /\ settled s s' /\ (forall other, other <> node -> still_on other s s').
Proof.
  intros W Hok [Hg Hf] Hph Hh E. specialize (Hf _ Hph).
  destruct (match ph with Looked _ _ _ _ _ => true | _ => false end) eqn:Hl.
  - destruct ph as [| | | | | |des job res err ids|]; try done. clear Hl. cbn [given_after]. destruct Hf as [Hholds Hu]. cbn in E. unfold close in E.
    destruct (run_tx (e_fault e) _ s) as [[u|f] s1] eqn:Er.
    2: { injection E as <- <-. apply run_tx_Err in Er as ->. split_and!; [done|by destruct err|apply settled_refl|intros; by apply same_tables]. }
    injection E as <- <-. apply run_tx_Ok in Er. destruct err as [msg|].
    + apply failure_resynced in Er as [Er _]. split_and!; [|done|by eapply resynced_settled|intros; by eapply resynced_still_on].
      apply (node_sync_on s s1 ∅ g node); [by eapply resynced_still_on|intros ph; by rewrite lookup_empty|].
      split; [done|]. intros ph. by rewrite lookup_empty.
    + apply success_resynced in Er as [Er _]. destruct Hok as [_ Hgd]. specialize (Hgd eq_refl).
      split_and!; [|done|by eapply resynced_settled|].
      * intros pid q (Eq & Hn & Hs). exists des. split; [done|]. pose proof Er as [Hp _]. rewrite Hp in Eq.
        destruct (profiles s !! pid) as [q0|] eqn:E0; [|done]. cbn in Eq. pose proof (resynced_lasting _ _ _ _ pid q0 Er) as Hl.
        destruct (bool_decide (pid ∈ ids)) eqn:Ei; cbn in Eq; injection Eq as <-; (eapply carried_lasting; [symmetry; exact Hl|]).
        -- apply bool_decide_eq_true in Ei. by destruct (Hu _ _ Ei E0).
        -- by apply Hholds.
      * intros other Hne. eapply resynced_still_on; [done|]. intros _ pid q Hin E0. destruct (Hu _ _ Hin E0) as [-> _]. by apply not_eq_sym.
  - assert (Ht : profiles s' = profiles s /\ keys s' = keys s). { eapply advance_settled; [done|]. by destruct ph. }
    destruct (same_tables s s' (proj1 Ht) (proj2 Ht)) as [Hset Hstill].
    assert (Hf' : flight_sync s' node ph) by (eapply flight_sync_on; [apply Hstill|by left|done]).
    assert (Hg' : forall pid q, synced_on s' node pid q -> exists des, g !! node = Some des /\ carried s' des pid q).
    { apply (node_sync_on s s' ∅ g node); [apply Hstill|intros ?; by rewrite lookup_empty|]. split; [done|]. intros ?. by rewrite lookup_empty. }
    split_and!; [| |done|by intros].
    + destruct ph; try done. cbn. destruct took; [|done]. intros pid q Hq. eexists. split; [done|]. by apply Hf'.
    + destruct ph as [|n|n rows|des|des job|des job res err| |]; try done; cbn in E.
      * destruct (run_tx _ _ s) as [[n|f] s1] eqn:Er; by injection E as <- <-.
      * destruct (run_tx _ _ s) as [[rows|f] s1] eqn:Er; injection E as <- <-; [|done]. apply run_tx_Ok, ListNodeProfilesWithKey_Ok in Er as [-> ->]. apply rows_shown.
      * destruct (run_tx _ _ s) as [[des|f] s1] eqn:Er; injection E as <- <-; [|done]. apply run_tx_Ok in Er. unfold GetNodeSite in Er. tx.
        apply (shown_holds _ _ rows); [by eexists _, _, _|done].
      * destruct (run_tx _ _ s) as [[jid|f] s1] eqn:Er; by injection E as <- <-.
      * by injection E as <- <-.
      * destruct (run_tx _ _ s) as [[ids|f] s1] eqn:Er; injection E as <- <-; [|by destruct err]. apply run_tx_Ok, still_at_revision in Er as [Hu ->]. by split.
      * by injection E as <- <-.
Qed.

(** No change of a key falls between the comparison of the fingerprints and the
    marking of the profiles. *)
Definition undisturbed (p : panel) (c : change) : Prop :=
  forall node ph, flights p !! node = Some ph -> match ph with Looked _ _ _ _ _ => False | _ => True end.

Definition panel_sync (p : panel) : Prop := forall node, node_sync (db p) (flights p) (given p) node.

Lemma step_sync p p' : step undisturbed p p' -> panel_ok p -> panel_sync p -> panel_sync p'.
Proof.
  intros Hs [W Hn] Hy. destruct Hs as [fault now c p Ha|node p Hfree|e took node ph p Hph Hh|p].
  - destruct (commit_tracks fault now c (db p) W) as (_ & _ & Hst & _). intros node. cbn.
    apply (node_sync_on (db p)); [by apply still_still_on| |apply Hy]. intros ph E. right. by eapply Ha.
  - intros other. destruct (Hy other) as [Hg Hf]. split; [done|]. cbn. intros ph.
    destruct (decide (other = node)) as [->|]; [rewrite lookup_insert_eq; by intros [= <-]|]. rewrite lookup_insert_ne by done. apply Hf.
  - destruct (advance e node ph (db p)) as [ph' s'] eqn:E. destruct (fly_here _ took _ _ _ _ _ E) as (Ed & Eg & Ef).
    destruct (advance_sync e took node ph _ (flights p) (given p) _ _ W (proj2 (Hn node) _ Hph) (Hy node) Hph Hh E) as (Hg & Hf & Hset & Hst).
    unfold panel_sync. rewrite Ed. intros other. destruct (decide (other = node)) as [->|Hne].
    + split; rewrite ?Eg; [done|]. by intros ph2 ->%Ef.
    + destruct (fly_elsewhere e took node ph p other Hne) as [Eg2 Ef2].
      pose proof (node_sync_on _ s' (flights p) (given p) other (Hst other Hne) (fun _ _ => or_introl Hset) (Hy other)) as Hns.
      unfold node_sync in *. by rewrite Eg2, Ef2.
  - intros node. destruct (Hy node) as [Hg _]. split; [done|]. intros ph. cbn. by rewrite lookup_empty.
Qed.

Lemma reachable_sync p : reachable undisturbed p -> panel_ok p /\ panel_sync p.
Proof.
  intros (p0 & H0 & Hr). pose proof (fresh_ok _ H0) as Hok.
  assert (Hy : panel_sync p0).
  { destruct H0 as (_ & Ef & _ & _ & Hns). intros node. split; [intros pid q (E & _ & Es); by destruct (Hns _ _ E)|]. intros ph. by rewrite Ef, lookup_empty. }
  clear H0. induction Hr as [|p0 p1 p2 Hs _ IH]; [done|]. apply IH; [by eapply step_ok|by eapply step_sync].
Qed.

(** What changes and statements keep, a run keeps. *)
Lemma run_keeps (I : Store -> Prop) allowed p0 p : fresh_panel p0 ->
  (I = capacity \/ I = mirrors) ->
  (forall p fault now c, wf (db p) -> allowed p c -> I (db p) -> I (commit fault now c (db p))) ->
  rtc (step allowed) p0 p -> I (db p0) -> I (db p).
Proof.
  intros H0%fresh_ok HI Hc Hr Hi. induction Hr as [p|p0 p1 p2 Hs _ IH]; [done|]. apply IH; [by eapply step_ok|].
  destruct H0 as [W Hn]. destruct Hs as [fault now c p Ha|node p _|e took node ph p Hph Hh|p]; [by apply Hc|done| |done].
  destruct (advance e node ph (db p)) as [ph' s'] eqn:E. destruct (fly_here _ took _ _ _ _ _ E) as (-> & _ & _). destruct (Hn node) as [Hcl Hf].
  destruct (advance_ok _ took _ _ _ _ _ _ W Hcl (Hf _ Hph) Hh E) as (_ & Hcap & Hmir & _). destruct HI as [->| ->]; auto.
Qed.

(** ** What holds in every run *)

(** C1: a node that had a successful apply and is not marked dirty was last given
    exactly the profiles and secrets the tables have for it now: the request it
    took is the one that building it anew, for the same instant, gives, up to the
    order of profiles created together. In every interleaving of changes of the
    keys, statements of applies and restarts of the panel, from tables of which
    nothing was applied yet, where the transactions run one after another and an
    agent reports only an apply it took as successful; a node that was never
    applied to is clean and holds nothing. Transactions that overlap are outside
    it: [ApplySim.deleted_after_listing] is a binding that commits while a key is
    being deleted. *)
Theorem clean_node_current allowed p node n : reachable allowed p ->
  nodes (db p) !! node = Some n -> n_Dirty n = false -> n_LastApplyAt n <> None ->
  exists des now ps ss, given p !! node = Some des /\ send_profiles now ∅ (default_first (rows_of node (db p))) = Ok (ps, ss) /\
    Profiles (Req des) ≡ₚ ps /\ MTProxySecrets (Req des) ≡ₚ ss.
Proof.
  intros [_ Hn]%reachable_ok E Hd Hl. destruct (proj1 (Hn node) n E Hd Hl) as (des & rows & Hg & (now & n0 & site & Hb) & Hp).
  apply build_Ok in Hb as (_ & Hs & _). rewrite <- rows_contents in Hp.
  destruct (send_profiles_perm now _ _ _ _ Hp Hs) as (ps & ss & ? & ? & ?). by exists des, now, ps, ss.
Qed.

(** C12: in a run where no change of a key commits between an apply's comparison
    of the fingerprints and its marking of the profiles, a profile that is called
    synced was in the request its node took last, with the fingerprint of its
    present row up to the times and the status of its key.
    [ApplySim.rotated_while_marking] is a run with such a change, after which it
    does not hold. *)
Theorem synced_serves_current p pid q : reachable undisturbed p ->
  profiles (db p) !! pid = Some q -> p_Sync q = SyncSynced ->
  exists des v, given p !! p_NodeID q = Some des /\ kv_TelemtLimits <$> v = kv_TelemtLimits <$> view_of (db p) q /\
    Revisions des !! pid = Some (profileRevision {| r_ID := pid; r_Profile := q; r_Key := v |}).
Proof.
  intros [_ Hy]%reachable_sync E Hs. destruct (proj1 (Hy (p_NodeID q)) pid q) as (des & Hg & v & Hv & Hr); [done|]. by exists des, v.
Qed.

(** C4: with transactions that run one after another, the tables stay consistent
    whatever the key service, the expiry and any number of applies do, in any
    order and with any failures, from consistent tables of which nothing was
    applied yet: a profile has its key, its node and its binding, the limits are
    as the database keeps them, and, where it was so at the start, no node has
    more profiles than it may. Two bindings whose statements overlap can pass the
    limit of a node ([ApplySim.two_bindings_one_place]). *)
Theorem tables_consistent allowed p0 p : fresh_panel p0 -> capacity (db p0) -> rtc (step allowed) p0 p -> wf (db p) /\ capacity (db p).
Proof.
  intros H0 Hc Hr. split; [apply (reachable_ok allowed); by exists p0|]. apply (run_keeps capacity allowed p0 p); [done|by left| |done..].
  intros q fault now c W _. by apply (commit_tracks fault now c (db q) W).
Qed.

(** C23: as long as every binding is made from the key as it is, every profile
    carries the secret, the carrier and the limits of its key, whatever changes
    and applies run. *)
Theorem profiles_mirror_keys p0 p : fresh_panel p0 -> mirrors (db p0) -> rtc (step (fun p c => fresh_read c (db p))) p0 p -> mirrors (db p).
Proof.
  intros H0 Hm Hr. apply (run_keeps mirrors (fun p c => fresh_read c (db p)) p0 p); [done|by right| |done..].
  intros q fault now c W Hf M. by apply (kept_mirrors _ _ (commit_kept fault now c (db q) Hf)).
Qed.

Lemma all_synced_spec k (m : gmap string Profile) : all_synced k m = true ->
  (exists pid q, m !! pid = Some q /\ p_KeyID q = Some k) /\ forall pid q, m !! pid = Some q -> p_KeyID q = Some k -> p_Sync q = SyncSynced.
Proof.
  unfold all_synced. intros [Hne Ha]%andb_true_iff. apply negb_true_iff, bool_decide_eq_false in Hne.
  assert (Hin : forall q, q ∈ (map_to_list (filter (fun kv => of_key k kv.2 = true) m)).*2 <-> exists pid, m !! pid = Some q /\ p_KeyID q = Some k).
  { intros q. rewrite list_elem_of_fmap. split.
    - intros ([pid q'] & -> & [E Hk]%elem_of_map_to_list%map_lookup_filter_Some). exists pid. cbn in *. by apply of_key_true in Hk.
    - intros (pid & E & Hk). exists (pid, q). split; [done|]. apply elem_of_map_to_list, map_lookup_filter_Some. split; [done|]. by apply of_key_true. }
  split.
  - destruct (map_to_list _).*2 as [|q l] eqn:El in Hne, Hin; [done|]. destruct (proj1 (Hin q)) as (pid & ? & ?); [by left|]. by exists pid, q.
  - intros pid q E Hk. assert (Hq : q ∈ (map_to_list (filter (fun kv => of_key k kv.2 = true) m)).*2) by (apply Hin; by exists pid).
    apply list_elem_of_In in Hq. by apply (proj1 (forallb_forall _ _) Ha), bool_decide_eq_true in Hq.
Qed.

Lemma advance_activates e node ph s ph' s' k key key' : advance e node ph s = (ph', s') -> keys s !! k = Some key -> keys s' !! k = Some key' ->
  k_Status key <> StatusActive -> k_Status key' = StatusActive -> all_synced k (profiles s') = true.
Proof.
  intros E Ek Ek' Hn Ha. destruct (match ph with Looked _ _ _ _ _ => true | _ => false end) eqn:Hl.
  2: { assert (keys s' = keys s) as Es by (eapply advance_settled; [done|]; by destruct ph). congruence. }
  destruct ph as [| | | | | |des job res err ids|]; try done. cbn in E. unfold close in E. destruct (run_tx (e_fault e) _ s) as [[u|f] s1] eqn:Er; injection E as _ <-.
  2: { apply run_tx_Err in Er as ->. congruence. }
  apply run_tx_Ok in Er. destruct err as [msg|]; [apply failure_resynced in Er as [_ Es]; congruence|]. apply success_resynced in Er as [_ Er]. by eapply Er.
Qed.

(** C14: in a run where no change of a key commits between an apply's comparison
    of the fingerprints and its marking of the profiles, a key goes active in an
    apply only when each of its nodes, one at least, was last given the profile
    the key has there. [ApplySim.rotated_while_marking] is a run with such a
    change, after which a key is active although its node was given the secret
    before. *)
Theorem activation_earned p e took node ph k key key' : reachable undisturbed p -> flights p !! node = Some ph -> honest e took ph ->
  keys (db p) !! k = Some key -> k_Status key <> StatusActive ->
  keys (db (fly e took node ph p)) !! k = Some key' -> k_Status key' = StatusActive ->
  (exists pid q, profiles (db (fly e took node ph p)) !! pid = Some q /\ p_KeyID q = Some k) /\
  forall pid q, profiles (db (fly e took node ph p)) !! pid = Some q -> p_KeyID q = Some k ->
    exists des, given (fly e took node ph p) !! p_NodeID q = Some des /\ carried (db (fly e took node ph p)) des pid q.
Proof.
  intros (p0 & H0 & Hr) Hph Hh Ek Hn Ek' Ha. set (p' := fly e took node ph p) in *.
  assert (Hall : all_synced k (profiles (db p')) = true).
  { destruct (advance e node ph (db p)) as [ph' s'] eqn:E. destruct (fly_here _ took _ _ _ _ _ E) as (Ed & _ & _). fold p' in Ed.
    rewrite Ed in *. by eapply advance_activates. }
  destruct (all_synced_spec _ _ Hall) as [Hex Hsy]. split; [done|]. intros pid q E Hk.
  assert (Hreach : reachable undisturbed p').
  { exists p0. split; [done|]. eapply rtc_r; [done|]. by apply step_fly. }
  apply reachable_sync in Hreach as [_ Hy]. apply (Hy (p_NodeID q)). split_and!; [done..|]. by eapply Hsy.
Qed.

End Panel.
