(* ===== verification/KeySafety.v ===== *)
(** * What the operations on keys do

    A new key reaches its nodes ([created_key_desired]); only enabled profiles
    have their secret served ([enabled_secrets]); an import takes all of its
    lines, with secrets nobody has, or none ([import_secrets_unique]); a pass of
    the expiry turns off what is due ([due_keys_expire]). *)

From S2P Require Import Prelude Regex DomainTypes Crypto Tables Keys Desired KeyInvariants Apply ApplySafety.
Import DomainTypes.Types DomainTypes.Names.

Local Open Scope go_scope.

Section KeySafety.
Context `{O : MapOrder} `{J : Jsonb} `{L : LimitsJson} `{C : DesiredCodec}.

(** ** Creating *)

Lemma bumped_dirty B ns ns' n : bumped B ns ns' -> n ∈ B -> is_Some (ns !! n) -> exists r, ns' !! n = Some r /\ n_Dirty r = true.
Proof.
  intros H Hn [r Er]. specialize (H n). rewrite Er in H. destruct (ns' !! n) as [r'|]; [|done]. exists r'. split; [done|].
  by destruct H as [_ [[[] _]|[_ ?]]].
Qed.

Lemma bumped_stays B ns ns' n r : bumped B ns ns' -> ns !! n = Some r -> n_Dirty r = true -> exists r', ns' !! n = Some r' /\ n_Dirty r' = true.
Proof.
  intros H Er Hd. specialize (H n). rewrite Er in H. destruct (ns' !! n) as [r'|]; [|done]. exists r'. split; [done|].
  destruct H as [_ [(_ & _ & ->)|[_ ?]]]; done.
Qed.

(** A profile bound to the key at these nodes. *)
Definition bound (pids : string -> string) (k : string) (key : AccessKey) (s : Store) (n : string) : Prop :=
  (exists p, profiles s !! pids n = Some p /\ p_KeyID p = Some k /\ p_NodeID p = n /\ p_SecretEnc p = k_SecretEnc key /\ p_Name p = ProfileName k) /\
  exists r, nodes s !! n = Some r /\ n_Dirty r = true.

Lemma bindTx_bound now pids k key n s s' u : bindTx now (pids n) k key n s = Ok (u, s') ->
  bound pids k key s' n /\ (forall m, bound pids k key s m -> bound pids k key s' m) /\ keys s' = keys s.
Proof.
  intros (r & p & Er & _ & _ & Ep & _ & Pk & Pn & Ps & _ & _ & _ & Py & Eps & _ & Hb & Eks & _)%bindTx_Ok. split_and!; [| |done].
  - split; [exists p; by rewrite Eps, lookup_insert_eq|]. eapply bumped_dirty; [done|set_solver|by exists r].
  - intros m [(q & Eq & ?) (r' & Er' & Hd)]. split; [|by eapply bumped_stays]. exists q. rewrite Eps, lookup_insert_ne; [done|]. intros E. congruence.
Qed.

Lemma each_bound now pids k key ns s s' u : each (fun n => bindTx now (pids n) k key n) ns s = Ok (u, s') ->
  (forall n, n ∈ ns -> bound pids k key s' n) /\ (forall m, bound pids k key s m -> bound pids k key s' m) /\ keys s' = keys s.
Proof.
  revert s. induction ns as [|n ns IH]; cbn [each]; intros s E.
  - apply ret_Ok in E as [_ <-]. split_and!; [set_solver|done..].
  - apply bind_Ok in E as (? & s1 & (H1 & H2 & H3)%bindTx_bound & (I1 & I2 & I3)%IH). split_and!; [|auto|congruence].
    intros m [->|?]%elem_of_cons; auto.
Qed.

Lemma issue_Ok now d k s s' token : issueSubscriptionTx now d k s = Ok (token, s') ->
  dr_token d = Ok token /\ (exists enc, dr_seal_token d token = Ok enc /\ tokens s' !! HashToken token = Some {| t_KeyID := k; t_Enc := enc; t_RevokedAt := None |}) /\
  keys s' = keys s /\ profiles s' = profiles s /\ nodes s' = nodes s.
Proof.
  unfold issueSubscriptionTx, RevokeSubscriptionTokensForKey, CreateSubscriptionToken. intros H. tx. split_and!; [done| |done..].
  eexists. split; [done|]. cbn. by rewrite lookup_insert_eq.
Qed.

Lemma take_slug_Ok k slug s s' u : take_slug k slug s = Ok (u, s') ->
  profiles s' = profiles s /\ nodes s' = nodes s /\ tokens s' = tokens s /\
  forall j, key_view <$> keys s' !! j = key_view <$> keys s !! j.
Proof.
  unfold take_slug. destruct (SetKeySlug k (Some slug) s) as [[[] s1]|e] eqn:E; [|done]. intros [= _ <-]. unfold SetKeySlug in E. tx.
  split_and!; [done..|]. intros j. cbn. destruct (decide (j = k)) as [->|]; [|by rewrite lookup_alter_ne].
  rewrite lookup_alter_eq. by destruct (keys _ !! k).
Qed.

(** The secret a new key gets. *)
Definition secret_of (d : draw) (i : CreateInput) (secret : string) : Prop :=
  (if String.eqb (Secret i) EmptyString then NewSecretHex (dr_secret d) else Ok (Secret i)) = Ok secret.

Lemma createTx_Ok now d i s s' k : createTx now d i s = Ok (k, s') ->
  k = dr_key d /\ exists secret enc token,
    secret_of d i secret /\ dr_seal d secret = Ok enc /\ dr_token d = Ok token /\ keys s !! k = None /\
    (forall n, n ∈ NodeIDs i -> bound (dr_profile d) k (stored_key (new_key i enc)) s' n) /\
    key_view <$> keys s' !! k = Some (key_view (stored_key (new_key i enc))) /\
    t_KeyID <$> tokens s' !! HashToken token = Some k /\
    (SubSlug i = EmptyString -> keys s' = <[k := stored_key (new_key i enc)]> (keys s)).
Proof.
  unfold createTx. intros H. tx. split; [done|].
  match goal with E : CreateKey _ _ _ = _ |- _ => apply CreateKey_Ok in E as [En ->] end.
  match goal with E : each _ _ _ = _ |- _ => apply each_bound in E as (Hb & _ & Hks) end.
  match goal with E : issueSubscriptionTx _ _ _ _ = _ |- _ => apply issue_Ok in E as (Ht & (te & _ & Etk) & Ek & Ep & Enn) end.
  match goal with E : keys (with_keys _ _) !! _ = Some ?q |- _ => cbn in E; rewrite lookup_insert_eq in E; injection E as <- end.
  match goal with E : (if String.eqb (SubSlug i) _ then _ else _) ?q = _ |- _ =>
    assert (Hs : profiles s' = profiles q /\ nodes s' = nodes q /\ tokens s' = tokens q /\ (forall j, key_view <$> keys s' !! j = key_view <$> keys q !! j) /\
      (SubSlug i = EmptyString -> keys s' = keys q)); [revert E|clear E] end.
  { destruct (String.eqb_spec (SubSlug i) EmptyString); intros E; [by tx|]. by apply take_slug_Ok in E as (? & ? & ? & ?). }
  destruct Hs as (Sp & Sn & St & Sk & Se). eexists _, _, _. split_and!; [eassumption|eassumption|exact Ht|done|..].
  - intros n Hin. destruct (Hb n Hin) as [Hp Hd]. split; [by rewrite Sp, Ep|by rewrite Sn, Enn].
  - rewrite Sk, Ek, Hks. cbn. by rewrite lookup_insert_eq.
  - by rewrite St, Etk.
  - intros Hslug. by rewrite (Se Hslug), Ek, Hks.
Qed.

(** ** What a request has *)

Lemma mapM_elem {A B} (f : A -> option B) l ks y : mapM f l = Some ks -> y ∈ ks <-> exists x, x ∈ l /\ f x = Some y.
Proof.
  intros H%mapM_Some. induction H as [|x z l ks Hx _ IH]; [set_solver|]. rewrite elem_of_cons, IH. split.
  - intros [->|(w & ? & ?)]; [exists x|exists w]; (split; [set_solver|done]).
  - intros (w & [->|?]%elem_of_cons & ?); [left; congruence|right; by exists w].
Qed.

Lemma built_profiles now n rows site des p : build now n rows site = Ok des -> p ∈ Profiles (Req des) <-> exists r, r ∈ rows /\ sent_row now r = Some p.
Proof.
  intros (_ & [Hm _]%send_profiles_Ok & _)%build_Ok. rewrite (mapM_elem _ _ _ _ Hm). by setoid_rewrite default_first_perm.
Qed.

Lemma built_secrets now n rows site des x : build now n rows site = Ok des ->
  x ∈ MTProxySecrets (Req des) <-> exists p, p ∈ Profiles (Req des) /\ sp_Enabled p = true /\ sp_Secret p = x.
Proof. intros (_ & [_ ->]%send_profiles_Ok & _)%build_Ok. rewrite secrets_after_elem. set_solver. Qed.

(** The key is there, neither revoked nor turned off, and not past its expiry;
    a profile without a key always counts. *)
Definition key_enabled (now : Z) (r : ProfileRow) : Prop :=
  forall v, r_Key r = Some v -> kv_Status v <> StatusRevoked /\ kv_DisabledAt v = None /\ forall t, kv_ExpiresAt v = Some t -> now < t.

Lemma profileEnabled_spec r now : profileEnabled r now = true <-> key_enabled now r.
Proof.
  unfold profileEnabled, key_enabled. destruct (r_Key r) as [v|]; [|done].
  destruct (bool_decide (kv_Status v = StatusRevoked)) eqn:Es.
  { apply bool_decide_eq_true in Es. cbn. split; [done|]. intros H. by destruct (H v eq_refl). }
  apply bool_decide_eq_false in Es. destruct (kv_DisabledAt v) eqn:Ed; cbn.
  { split; [done|]. intros H. destruct (H v eq_refl) as (_ & ? & _). congruence. }
  destruct (kv_ExpiresAt v) as [t|] eqn:Ee.
  - rewrite Z.ltb_lt. split.
    + intros Hlt w [= <-]. split_and!; [done..|]. intros t' Et. congruence.
    + intros H. by destruct (H v eq_refl) as (_ & _ & ?); auto.
  - split; [|done]. intros _ w [= <-]. split_and!; [done..|]. congruence.
Qed.

(** The secrets a request gives the classic proxy are, each once, those of
    the profiles without a key and of the profiles whose key is neither revoked
    nor turned off nor past its expiry at the instant of the request. *)
Theorem enabled_secrets now n rows site des : build now n rows site = Ok des ->
  NoDup (MTProxySecrets (Req des)) /\
  forall x, x ∈ MTProxySecrets (Req des) <-> exists r, r ∈ rows /\ DecryptString (p_SecretEnc (r_Profile r)) = Ok x /\ key_enabled now r.
Proof.
  intros Hb. split.
  - apply build_Ok in Hb as (_ & [_ ->]%send_profiles_Ok & _). apply secrets_after_nodup.
  - intros x. rewrite (built_secrets _ _ _ _ _ _ Hb). setoid_rewrite (built_profiles _ _ _ _ _ _ Hb). setoid_rewrite <- profileEnabled_spec. unfold sent_row. split.
    + intros (p & (r & Hin & Hs) & He & <-). exists r. split; [done|]. destruct (DecryptString _); [|done]. by injection Hs as <-.
    + intros (r & Hin & Hd & He). eexists. split; [exists r; split; [done|by rewrite Hd]|]. done.
Qed.

(** C21: a key that was created is on its way to its nodes: each of them is
    marked dirty, and every request built for one of them before the key expires
    has a profile under the name of the key, enabled, with the secret the key was
    made with; its subscription link leads to it. *)
Theorem created_key_desired fault now d i s k s' : (forall x enc, dr_seal d x = Ok enc -> DecryptString enc = Ok x) ->
  Create fault now d i s = (Ok k, s') ->
  (exists token, dr_token d = Ok token /\ t_KeyID <$> tokens s' !! HashToken token = Some k) /\
  exists secret, secret_of d i secret /\ forall n, n ∈ NodeIDs i ->
    (exists r, nodes s' !! n = Some r /\ n_Dirty r = true) /\
    forall at_ node site des, build at_ node (rows_of n s') site = Ok des -> (forall t, ExpiresAt i = Some t -> at_ < t) ->
      exists p, p ∈ Profiles (Req des) /\ sp_Name p = ProfileName k /\ sp_Secret p = secret /\ sp_Enabled p = true /\ secret ∈ MTProxySecrets (Req des).
Proof.
  intros Hseal (? & s1 & [_ ->]%valid_Ok & (-> & secret & enc & token & Hsec & He & Ht & _ & Hb & Hk & Htk & _)%createTx_Ok)%run_tx_Ok%bind_Ok.
  split; [by exists token|]. exists secret. split; [done|]. intros n Hin. destruct (Hb n Hin) as [(p & Ep & Pk & Pn & Ps & Py) Hd]. split; [done|].
  intros at_ node site des Hbuild Hexp. set (r := row_of s' (dr_profile d n) p).
  assert (Hr : r ∈ rows_of n s') by (apply rows_of_elem; by exists (dr_profile d n), p).
  assert (Hv : r_Key r = Some (key_view (stored_key (new_key i enc)))) by (unfold r, row_of; cbn; rewrite Pk; exact Hk).
  assert (Hs : sent_row at_ r = Some (send_profile at_ r secret)).
  { unfold sent_row. cbn [r_Profile r row_of]. rewrite Ps. cbn. by rewrite (Hseal _ _ He). }
  assert (Hen : sp_Enabled (send_profile at_ r secret) = true).
  { cbn. apply profileEnabled_spec. intros v. rewrite Hv. intros [= <-]. cbn. split_and!; [done..|exact Hexp]. }
  exists (send_profile at_ r secret).
  assert (Hp : send_profile at_ r secret ∈ Profiles (Req des)) by (rewrite (built_profiles _ _ _ _ _ _ Hbuild); by exists r).
  split_and!; [done|by cbn|done|done|]. rewrite (built_secrets _ _ _ _ _ _ Hbuild). by eexists.
Qed.

(** ** Importing *)

Definition item_secret (it : ImportItem) : string := (NormalizeSecret (it_Secret it)).1.

(** A list of items without a complaint. *)
Lemma check_items_Ok items : forall i seen seen', check_items i seen items = ([], seen') ->
  Forall (fun it => Str.trim_space (it_Label it) <> EmptyString /\ accepts secretRe (item_secret it) = true) items /\
  NoDup (item_secret <$> items) /\ (forall it, it ∈ items -> seen !! item_secret it = None) /\
  (forall x, is_Some (seen' !! x) <-> is_Some (seen !! x) \/ x ∈ item_secret <$> items).
Proof.
  induction items as [|it items IH]; cbn [check_items]; intros i seen seen' H.
  - injection H as <-. split_and!; [done|constructor|set_solver|]. intros x. set_solver.
  - destruct (NormalizeSecret (it_Secret it)) as [secret ok] eqn:En. assert (Es : item_secret it = secret) by (unfold item_secret; by rewrite En).
    assert (Eok : ok = accepts secretRe secret) by (unfold NormalizeSecret in En; by injection En as <- <-).
    destruct (String.eqb_spec (Str.trim_space (it_Label it)) EmptyString) as [|Hl]; [by destruct (check_items (S i) seen items)|].
    destruct ok; cbn [negb] in H; [|by destruct (check_items (S i) seen items)].
    destruct (seen !! secret) eqn:Ey; [by destruct (check_items (S i) _ items)|].
    destruct (check_items (S i) (<[secret := i]> seen) items) as [rest seen2] eqn:E2. cbn in H. injection H as -> ->.
    destruct (IH _ _ _ E2) as (H1 & H2 & H3 & H4).
    assert (Hn : secret ∉ item_secret <$> items).
    { intros (it' & E' & Hin)%list_elem_of_fmap. specialize (H3 it' Hin). by rewrite <- E', lookup_insert_eq in H3. }
    split_and!.
    + constructor; [|done]. split; [done|]. rewrite Es. congruence.
    + rewrite fmap_cons, Es. by constructor.
    + intros it' [->|Hin]%elem_of_cons; [by rewrite Es|]. specialize (H3 it' Hin). destruct (decide (secret = item_secret it')) as [E'|].
      * rewrite <- E', lookup_insert_eq in H3. done.
      * by rewrite lookup_insert_ne in H3.
    + intros x. rewrite H4, fmap_cons, Es, elem_of_cons. destruct (decide (x = secret)) as [->|].
      * rewrite lookup_insert_eq. split; [intros _; right; by left|intros _; left; by eexists].
      * rewrite lookup_insert_ne by done. tauto.
Qed.

Lemma taken_lines_none open_ seen used enc plain : taken_lines open_ seen used = [] -> enc ∈ used -> open_ enc = Ok plain -> seen !! plain = None.
Proof.
  unfold taken_lines. intros H Hin Ho. destruct (seen !! plain) as [i|] eqn:E; [|done].
  assert (He : forall e, e ∉ (taken_lines open_ seen used)) by (unfold taken_lines; rewrite H; set_solver).
  destruct (He (item_field i, "secret already belongs to another user"%string)). unfold taken_lines. apply list_elem_of_bind.
  exists enc. rewrite Ho, E. split; [set_solver|done].
Qed.

(** The secrets in use. *)
Definition in_use (s : Store) (enc : string) : Prop :=
  (exists k key, keys s !! k = Some key /\ k_Status key <> StatusRevoked /\ k_SecretEnc key = enc) \/
  (exists pid p, profiles s !! pid = Some p /\ p_KeyID p = None /\ p_SecretEnc p = enc).

Lemma ListSecretsInUse_Ok s l s' : ListSecretsInUse s = Ok (l, s') -> s' = s /\ forall enc, enc ∈ l <-> in_use s enc.
Proof.
  unfold ListSecretsInUse. rewrite read_Ok. intros [-> ->]. split; [done|]. intros enc. rewrite elem_of_app. unfold in_use.
  rewrite !list_elem_of_fmap. setoid_rewrite list_elem_of_fmap. split.
  - intros [(key & -> & ([k key'] & -> & [E Hs]%elem_of_map_to_list%map_lookup_filter_Some))|(q & -> & ([pid q'] & -> & [E Hs]%elem_of_map_to_list%map_lookup_filter_Some))].
    + left. by exists k, key'.
    + right. by exists pid, q'.
  - intros [(k & key & E & Hs & <-)|(pid & q & E & Hs & <-)].
    + left. exists key. split; [done|]. exists (k, key). split; [done|]. by apply elem_of_map_to_list, map_lookup_filter_Some.
    + right. exists q. split; [done|]. exists (pid, q). split; [done|]. by apply elem_of_map_to_list, map_lookup_filter_Some.
Qed.

(** The keys made one after another. *)
Lemma create_items_Ok now draws check items : forall i s s' ks, create_items now draws check i items s = Ok (ks, s') ->
  Forall (fun it => SubSlug it = EmptyString) items ->
  (forall k key, keys s !! k = Some key -> keys s' !! k = Some key) /\
  forall j it, items !! j = Some it -> exists secret enc, secret_of (draws (i + j)%nat) it secret /\ dr_seal (draws (i + j)%nat) secret = Ok enc /\
    ks !! j = Some (dr_key (draws (i + j)%nat)) /\ keys s' !! dr_key (draws (i + j)%nat) = Some (stored_key (new_key it enc)).
Proof.
  induction items as [|it items IH]; cbn [create_items]; intros i s s' ks H Hf; [tx; done|].
  apply bind_Ok in H as (? & s1 & Hv & H).
  assert (s1 = s) as ->. { destruct check; [by apply valid_Ok in Hv as [_ ->]|by apply ret_Ok in Hv as [_ ->]]. }
  apply bind_Ok in H as (k & s1 & (-> & secret & enc & _ & Hsec & He & _ & En & _ & _ & _ & Hk)%createTx_Ok & H).
  apply bind_Ok in H as (ks' & s2 & H & [<- ->]%ret_Ok). apply Forall_cons in Hf as [Hf0 Hf]. specialize (Hk Hf0).
  destruct (IH _ _ _ _ H Hf) as [Hkeep Hnew]. split.
  - intros k key E. apply Hkeep. rewrite Hk, lookup_insert_ne; [done|]. intros <-. congruence.
  - intros [|j] it' E; cbn in E.
    + injection E as <-. rewrite Nat.add_0_r. exists secret, enc. split_and!; [done..|]. apply Hkeep. by rewrite Hk, lookup_insert_eq.
    + rewrite Nat.add_succ_r. apply (Hnew j it' E).
Qed.

(** C22: an import that goes through takes every line: the secrets are 32
    hexadecimal digits, no two lines have the same, none opens a key in use, and
    each line has become a key with its name and its secret.  An import that
    does not go through changes nothing. *)
Theorem import_secrets_unique fault now draws open_ i items s r s' : Import fault now draws open_ i items s = (r, s') ->
  match r with
  | Err _ => s' = s
  | Ok ks =>
      Forall (fun it => accepts secretRe (item_secret it) = true) items /\ NoDup (item_secret <$> items) /\
      (forall enc plain, in_use s enc -> open_ enc = Ok plain -> plain ∉ item_secret <$> items) /\
      forall j it, items !! j = Some it -> exists k key, ks !! j = Some k /\ keys s' !! k = Some key /\
        k_Label key = Str.trim_space (it_Label it) /\ dr_seal (draws j) (item_secret it) = Ok (k_SecretEnc key)
  end.
Proof.
  unfold Import. intros H. destruct r as [ks|e]; [apply run_tx_Ok in H|by apply run_tx_Err in H].
  unfold import_body in H. apply bind_Ok in H as (? & s1 & [_ ->]%require_Ok & H). destruct (check_items 0 ∅ items) as [ve seen] eqn:Ec.
  apply bind_Ok in H as (? & s1 & [-> ->]%valid_Ok & H). destruct (check_items_Ok _ _ _ _ Ec) as (H1 & H2 & _ & H4).
  apply bind_Ok in H as (? & s1 & Hp & H).
  assert (s1 = s) as ->. { destruct items; [by apply ret_Ok in Hp as [_ ->]|by apply valid_Ok in Hp as [_ ->]]. }
  apply bind_Ok in H as (used & s1 & [-> Hu]%ListSecretsInUse_Ok & H). apply bind_Ok in H as (? & s1 & [Ht ->]%valid_Ok & H).
  apply bind_Ok in H as (? & s1 & [-> _]%checkCapacity_Ok & H). split_and!; [by eapply Forall_impl; [done|intros it [_ ?]]|done| |].
  - intros enc plain Hin%Hu Ho Hs. pose proof (taken_lines_none _ _ _ _ _ Ht Hin Ho) as E. destruct (proj2 (H4 plain)) as [line El]; [by right|congruence].
  - intros j it E. unfold import_items in H. destruct (create_items_Ok _ _ _ _ _ _ _ _ H) as [_ Hnew].
    { apply Forall_fmap, Forall_true. done. }
    set (it' := with_label i (Str.trim_space (it_Label it)) (Str.trim_space (it_OwnerLabel it)) (item_secret it)).
    destruct (Hnew j it') as (secret & enc & Hsec & He & Ek & Ekey). { change map with (@fmap list _). by rewrite list_lookup_fmap, E. }
    exists (dr_key (draws j)), (stored_key (new_key it' enc)). split_and!; [done..|]. change (k_SecretEnc _) with enc. rewrite <- He. f_equal.
    unfold secret_of in Hsec. change (Secret it') with (item_secret it) in Hsec. destruct (String.eqb_spec (item_secret it) EmptyString) as [E0|]; [|congruence].
    exfalso. apply list_elem_of_lookup_2 in E. rewrite Forall_forall in H1. destruct (H1 it E) as [_ Ha]. rewrite E0 in Ha. by vm_compute in Ha.
Qed.

(** ** Expiring *)

(** Past its expiry, and not marked yet. *)
Definition due (now : Z) (key : AccessKey) : Prop :=
  (k_Status key = StatusPending \/ k_Status key = StatusActive) /\ (exists t, k_ExpiresAt key = Some t /\ t <= now) /\ k_ExpiredAt key = None.

Definition expired_at (now : Z) (key : AccessKey) : AccessKey := set_times (k_ExpiresAt key) (k_DisabledAt key) (Some now) key.

Definition dirty_in (s : Store) (n : string) : Prop := exists r, nodes s !! n = Some r /\ n_Dirty r = true.

Lemma each_dirty_total {A} (f : A -> string) now (l : list A) s : exists s', each (fun b => SetNodeDirty now (f b)) l s = Ok (tt, s').
Proof. revert s. induction l as [|b l IH]; intros s; [by eexists|]. apply (IH (with_nodes s (alter (bump now) (f b) (nodes s)))). Qed.

Lemma Expire_spec fault now k s r s' : wf s -> Expire fault now k s = (r, s') ->
  match fault with
  | Some e => r = Err e /\ s' = s
  | None => r = Ok tt /\ wf s' /\ profiles s' = profiles s /\ keys s' = alter (expired_at now) k (keys s) /\ bumped (nodes_of k s) (nodes s) (nodes s') /\
      forall x, x ∉ nodes_of k s -> nodes s' !! x = nodes s !! x
  end.
Proof.
  intros W H. unfold Expire, run_tx in H. destruct fault as [e|]; [by injection H as <- <-|].
  destruct (expire_body now k s) as [[[] s1]|e] eqn:E; injection H as <- <-.
  - pose proof (expire_kept _ _ _ _ _ E) as K. unfold expire_body, SetKeyExpired in E. tx.
    match goal with E : dirtyKeyNodes _ _ ?s1 = _ |- _ =>
      assert (R : rekeyed k s s1) by (apply (on_key_rekeyed k (expired_at now)); intros key; apply set_times_normal);
      pose proof (fun x => dirty_elsewhere now k s _ _ _ x W R eq_refl E) as He; apply (dirty_after now k s) in E as (_ & Hb & Es); [|done..] end.
    split_and!; [done|by apply (kept_wf _ _ K)|by rewrite Es|by rewrite Es|done|done].
  - exfalso. unfold expire_body, SetKeyExpired, dirtyKeyNodes, ListKeyBindings in E. cbn in E. unfold mbind, Tx_bind in E. cbn in E.
    match type of E with each _ ?l ?q = _ => destruct (each_dirty_total fst now l q) as [s2 E2] end. cbn in E2. congruence.
Qed.

Lemma nodes_of_profiles k s s' : profiles s' = profiles s -> nodes_of k s' = nodes_of k s.
Proof. unfold nodes_of. by intros ->. Qed.

(** One key after another. *)
Lemma expire_all faults now ids : NoDup ids -> forall m s n s', wf s ->
  fold_left (fun '(n, s) id => match Expire (faults id) now id s with (Ok _, s) => (n + 1, s) | (Err _, s) => (n, s) end) ids (m, s) = (n, s') ->
  n = m + Z.of_nat (length (filter (fun id => faults id = None) ids)) /\ profiles s' = profiles s /\
  (forall k, k ∉ ids \/ faults k <> None -> keys s' !! k = keys s !! k) /\
  (forall k, k ∈ ids -> faults k = None -> keys s' !! k = expired_at now <$> keys s !! k /\ forall x, x ∈ nodes_of k s -> dirty_in s' x) /\
  (forall x, dirty_in s x -> dirty_in s' x) /\
  (forall x, (forall k, k ∈ ids -> faults k = None -> x ∉ nodes_of k s) -> nodes s' !! x = nodes s !! x).
Proof.
  induction 1 as [|id ids Hid Hnd IH]; intros m s n s' W H.
  - injection H as <- <-. split_and!; [cbn; lia|done|done|set_solver|done|done].
  - cbn [fold_left] in H. destruct (Expire (faults id) now id s) as [r s1] eqn:E. apply (Expire_spec _ _ _ _ _ _ W) in E. rewrite filter_cons.
    destruct (faults id) as [e|] eqn:Ef.
    + destruct E as [-> ->]. destruct (IH _ _ _ _ W H) as (H1 & H2 & H3 & H4 & H5 & H6). split_and!; [by rewrite decide_False|done| | |done|].
      * intros k [Hk|Hk]; apply H3; [set_solver|by right].
      * intros k [->|Hk]%elem_of_cons Hf; [congruence|auto].
      * intros x Hx. apply H6. intros k Hk. apply Hx. by right.
    + destruct E as (-> & W1 & E2 & E3 & Hb & He). destruct (IH _ _ _ _ W1 H) as (H1 & H2 & H3 & H4 & H5 & H6). rewrite decide_True by done.
      split_and!; [cbn; lia|congruence| | | |].
      * intros k Hk. rewrite H3 by set_solver. rewrite E3, lookup_alter_ne; [done|]. destruct Hk; [set_solver|congruence].
      * intros k [->|Hk]%elem_of_cons Hf.
        -- rewrite H3 by (by left). rewrite E3, lookup_alter_eq. split; [done|]. intros x Hx. apply H5. eapply bumped_dirty; [done..|].
           apply nodes_of_spec in Hx as (pid & p & Ep & _ & <-). by eapply wf_node.
        -- destruct (H4 k Hk Hf) as [-> Hx]. rewrite E3, lookup_alter_ne by set_solver. split; [done|]. by rewrite <- (nodes_of_profiles k s s1).
      * intros x (r & Er & Hd). apply H5. by eapply bumped_stays.
      * intros x Hx. rewrite H6, He; [done|apply Hx; [by left|done]|]. intros k Hk Hf. rewrite (nodes_of_profiles k s s1) by done. apply Hx; [by right|done].
Qed.

Lemma due_ids now s k : k ∈ (map_to_list (filter (fun kv => (k_Status kv.2 = StatusPending \/ k_Status kv.2 = StatusActive) /\
    match k_ExpiresAt kv.2 with Some t => t <=? now | None => false end = true /\ k_ExpiredAt kv.2 = None) (keys s))).*1 <->
  exists key, keys s !! k = Some key /\ due now key.
Proof.
  rewrite list_elem_of_fmap. unfold due. split.
  - intros ([i key] & -> & [E (Hs & Ht & He)]%elem_of_map_to_list%map_lookup_filter_Some). exists key. cbn in *. split_and!; [done..| |done].
    destruct (k_ExpiresAt key) as [t|]; [|done]. exists t. split; [done|]. by apply Z.leb_le.
  - intros (key & E & Hs & (t & Et & Hle) & He). exists (k, key). split; [done|]. apply elem_of_map_to_list, map_lookup_filter_Some. cbn.
    rewrite Et. split_and!; [done..| |done]. by apply Z.leb_le.
Qed.

(** C24: a pass of the expiry marks, each in a transaction of its own, exactly the
    pending and active keys that are past their expiry and not marked yet and
    whose transaction does not fail; those whose transaction fails stay as they
    are, due in the next pass.  The nodes of a key it marks are dirty after it,
    and every other node has the row it had: nothing else is marked, and no
    profile changes. *)
Theorem due_keys_expire faults now s r s' : wf s -> RunOnce true faults now s = (r, s') ->
  (exists n, r = Ok n) /\ profiles s' = profiles s /\
  (forall k key, keys s !! k = Some key ->
    (due now key /\ faults k = None -> keys s' !! k = Some (expired_at now key) /\ forall x, x ∈ nodes_of k s -> dirty_in s' x) /\
    (~ (due now key /\ faults k = None) -> keys s' !! k = Some key)) /\
  forall x, (forall k key, keys s !! k = Some key -> due now key -> faults k = None -> x ∉ nodes_of k s) -> nodes s' !! x = nodes s !! x.
Proof.
  intros W. unfold RunOnce, ListExpiredActiveKeys, read. cbn [negb]. set (ids := (map_to_list _).*1).
  destruct (fold_left _ ids (0, s)) as [n s1] eqn:E. intros [= <- <-].
  apply expire_all in E as (_ & Hp & Hn & Hy & _ & Hx); [|apply NoDup_fst_map_to_list|done]. split_and!; [by eexists|done| |].
  - intros k key Ek. split.
    + intros [Hd Hf]. destruct (Hy k) as [E1 E2]; [apply due_ids; by exists key|done|]. by rewrite E1, Ek.
    + intros Hno. rewrite Hn; [done|]. destruct (decide (faults k = None)) as [Hf|]; [|by right]. left. unfold ids. rewrite due_ids.
      intros (key' & E' & Hd). rewrite Ek in E'. injection E' as <-. tauto.
  - intros x Ho. apply Hx. intros k (key & Ek & Hd)%due_ids Hf. by apply (Ho k key).
Qed.

End KeySafety.
