(* ===== verification/ApplySim.v ===== *)
(** * Keys and applies: runs of a small panel

    One node, one key, and the interleavings that show what the theorems of
    [KeySafety] and [ApplySafety] need their hypotheses for.  The database keeps JSON as it is
    written, sealing is the identity. *)

From S2P Require Import Prelude DomainTypes Crypto Tables Keys Desired KeyInvariants Apply ApplySafety KeySafety.
Import DomainTypes.Types.

Local Open Scope go_scope.

#[local] Instance plain_order : MapOrder := {| range_order := fun A l => l; range_order_perm := fun A l => Permutation_refl l |}.
#[local] Instance plain_jsonb : Jsonb := {| jsonb := fun s => s; jsonb_idem := fun s => eq_refl |}.
#[local] Instance plain_limits : LimitsJson := {| limits_json := fun _ => "{}"; telemt_json := fun _ => "{}" |}.
#[local] Instance plain_codec : DesiredCodec :=
  {| limits_of := fun _ => None; telemt_of := fun _ => None; policy_of := fun _ => None; files_of := fun _ => Err "json";
     decodeB64 := fun s => Ok s; DecryptString := fun s => Ok s |}.

(** *** Moves that can be run *)

Inductive move :=
| MEdit (now : Z) (c : change)
| MLaunch (node : string)
| MFly (e : apply_env) (node : string).

Section Run.
Context (ok : panel -> change -> bool).

(** The panel after a move, and whether the move may be made. *)
Definition do_move (m : move) (p : panel) : panel * bool :=
  match m with
  | MEdit now c => ({| db := commit None now c (db p); flights := flights p; given := given p |}, ok p c)
  | MLaunch node => ({| db := db p; flights := <[node := Opening]> (flights p); given := given p |}, bool_decide (flights p !! node = None))
  | MFly e node => match flights p !! node with Some ph => (fly e true node ph p, true) | None => (p, false) end
  end.

Fixpoint run (ms : list move) (p : panel) : panel * bool :=
  match ms with
  | [] => (p, true)
  | m :: ms => let '(p1, b) := do_move m p in let '(p2, b') := run ms p1 in (p2, b && b')
  end.

Context (allowed : panel -> change -> Prop) (ok_allowed : forall p c, ok p c = true -> allowed p c).

Lemma do_move_step m p : (do_move m p).2 = true -> step allowed p (do_move m p).1.
Proof.
  destruct m as [now c|node|e node]; cbn -[bool_decide commit fly].
  - intros Hb. apply step_edit. by apply ok_allowed.
  - intros Hb%bool_decide_eq_true. by apply step_launch.
  - destruct (flights p !! node) as [ph|] eqn:E; [|done]. intros _. apply step_fly; [done|]. by destruct ph.
Qed.

Lemma run_steps ms p : (run ms p).2 = true -> rtc (step allowed) p (run ms p).1.
Proof.
  revert p. induction ms as [|m ms IH]; intros p; [done|]. cbn [run]. destruct (do_move m p) as [p1 b] eqn:E. specialize (IH p1).
  destruct (run ms p1) as [p2 b'] eqn:E2. cbn. intros [-> Hb']%andb_true_iff. eapply rtc_l; [|by apply IH].
  pose proof (do_move_step m p) as Hs. rewrite E in Hs. by apply Hs.
Qed.

End Run.

(** No comparison of fingerprints waits. *)
Definition no_looked (p : panel) (_ : change) : bool :=
  forallb (fun kv => match kv.2 with Looked _ _ _ _ _ => false | _ => true end) (map_to_list (flights p)).

Lemma no_looked_undisturbed p c : no_looked p c = true -> undisturbed p c.
Proof.
  intros Hb node ph E. apply (proj1 (forallb_forall _ _)) with (x := (node, ph)) in Hb; [by destruct ph|].
  apply list_elem_of_In, elem_of_map_to_list. done.
Qed.

Definition reads_fresh (p : panel) (c : change) : bool := match c with CBind _ _ _ _ => false | _ => true end.

Lemma reads_fresh_read p c : reads_fresh p c = true -> fresh_read c (db p).
Proof. by destruct c. Qed.

Definition anything (_ : panel) (_ : change) : bool := true.

(** *** A panel with one node *)

Definition node1 : Node :=
  {| n_Hostname := "n1.example.org"; n_Engine := "tproxy"; n_TlsDomain := EmptyString; n_TlsDomains := []; n_ClassicPort := 8443; n_PublicIp := EmptyString;
     n_AdTag := EmptyString; n_WebPolicy := "{}"; n_WebCapacity := None; n_WebAppliedBasePath := EmptyString; n_TelemtVersion := EmptyString;
     n_AgentVersion := "2.17.5"; n_MaxProfiles := 1; n_Dirty := false; n_DirtySeq := 0; n_DirtySince := None; n_LastApplyAt := None |}.

Definition store1 : Store :=
  {| keys := ∅; profiles := ∅; bindings := ∅; nodes := {["n1" := node1]}; sites := ∅; tokens := ∅; jobs := ∅; alerts := [] |}.

Definition panel1 : panel := {| db := store1; flights := ∅; given := ∅ |}.

Lemma panel1_fresh : fresh_panel panel1.
Proof.
  split_and!; [|done|done| |].
  - split; cbn; intros *; rewrite ?lookup_empty; done.
  - intros id n. cbn. by intros [_ <-]%lookup_singleton_Some.
  - intros pid q. cbn. by rewrite lookup_empty.
Qed.

Definition input1 : CreateInput :=
  {| Label := "anna"; OwnerLabel := EmptyString; Note := EmptyString; Type_ := KeyPersonal; CarrierMode := "https"; Limits := no_limits;
     InTelemtLimits := no_telemt_limits; ExpiresAt := None; NodeIDs := ["n1"]; CreatedBy := None; SubSlug := EmptyString; Secret := EmptyString |}.

Definition draw1 (byte : string) : draw :=
  {| dr_secret := Ok byte; dr_seal := fun s => Ok s; dr_key := "11111111-2222-4333-8444-555555555555"; dr_profile := fun _ => "p1";
     dr_token := Ok "token"; dr_seal_token := fun s => Ok s |}.

Definition key1 : string := "11111111-2222-4333-8444-555555555555".

Definition fine : ApplyResult :=
  {| OK := true; RestartedRelay := false; RestartedMTProxy := false; RolledBack := false; res_Log := EmptyString; DeferredFields := [];
     RestartRequired := false; AppliedWebBasePath := None |}.

Definition env1 (now : Z) : apply_env := {| e_now := now; e_job := "j" +:+ Dec.itoa now; e_driver := fun _ => (fine, None); e_fault := None |}.

Definition fly1 (now : Z) : move := MFly (env1 now) "n1".

(** The statements of an apply, up to the comparison and with the closing. *)
Definition until_look (now : Z) : list move := MLaunch "n1" :: replicate 6 (fly1 now).
Definition whole (now : Z) : list move := until_look now ++ [fly1 now].

Definition created : list move := [MEdit 1000 (CCreate (draw1 "aaaa") input1)].

(** A key is created and applied. *)
Definition served : panel := (run no_looked (created ++ whole 2000) panel1).1.

Lemma served_reachable : reachable undisturbed served.
Proof. exists panel1. split; [exact panel1_fresh|]. apply run_steps; [exact no_looked_undisturbed|]. vm_compute. reflexivity. Qed.

Example served_state :
  (n_Dirty <$> nodes (db served) !! "n1", p_Sync <$> profiles (db served) !! "p1", k_Status <$> keys (db served) !! key1,
   j_Status <$> jobs (db served) !! "j2000", MTProxySecrets ∘ Req <$> given served !! "n1") =
  (Some false, Some SyncSynced, Some StatusActive, Some "ok", Some ["61616161"]).
Proof. vm_compute. reflexivity. Qed.

Lemma clean_node_current_witness : exists des now ps ss, given served !! "n1" = Some des /\
  send_profiles now ∅ (default_first (rows_of "n1" (db served))) = Ok (ps, ss) /\ Profiles (Req des) ≡ₚ ps /\ MTProxySecrets (Req des) ≡ₚ ss.
Proof.
  destruct (nodes (db served) !! "n1") as [n|] eqn:E; [|vm_compute in E; discriminate].
  assert (Hn : n_Dirty n = false /\ n_LastApplyAt n <> None) by (vm_compute in E; injection E as <-; by split).
  exact (clean_node_current undisturbed served "n1" n served_reachable E (proj1 Hn) (proj2 Hn)).
Defined.

Lemma synced_serves_current_witness : exists q des v, profiles (db served) !! "p1" = Some q /\ given served !! p_NodeID q = Some des /\
  kv_TelemtLimits <$> v = kv_TelemtLimits <$> view_of (db served) q /\
  Revisions des !! "p1" = Some (profileRevision {| r_ID := "p1"; r_Profile := q; r_Key := v |}).
Proof.
  destruct (profiles (db served) !! "p1") as [q|] eqn:E; [|vm_compute in E; discriminate].
  assert (Hs : p_Sync q = SyncSynced) by (vm_compute in E; injection E as <-; reflexivity).
  destruct (synced_serves_current served "p1" q served_reachable E Hs) as (des & v & H). exists q, des, v. exact (conj eq_refl H).
Defined.

(** The panel before the closing of the apply. *)
Definition closing : panel := (run no_looked (created ++ until_look 2000) panel1).1.

Lemma closing_reachable : reachable undisturbed closing.
Proof. exists panel1. split; [exact panel1_fresh|]. apply run_steps; [exact no_looked_undisturbed|]. vm_compute. reflexivity. Qed.

(** The apply that is about to close. *)
Definition last_phase : phase := default Opening (flights closing !! "n1").

Definition key_status (p : panel) : option KeyStatus := k_Status <$> keys (db p) !! key1.

Lemma status_of p st : key_status p = Some st -> exists key, keys (db p) !! key1 = Some key /\ k_Status key = st.
Proof. unfold key_status. destruct (keys (db p) !! key1) as [key|]; [|done]. intros [= <-]. by exists key. Qed.

Lemma activation_earned_witness : key_status closing = Some StatusPending /\ forall pid q, profiles (db (fly (env1 2000) true "n1" last_phase closing)) !! pid = Some q -> p_KeyID q = Some key1 ->
    exists des, given (fly (env1 2000) true "n1" last_phase closing) !! p_NodeID q = Some des /\
      carried (db (fly (env1 2000) true "n1" last_phase closing)) des pid q.
Proof.
  destruct (status_of closing StatusPending) as (key & Ek & Hn); [vm_compute; reflexivity|].
  destruct (status_of (fly (env1 2000) true "n1" last_phase closing) StatusActive) as (key' & Ek' & Ha); [vm_compute; reflexivity|].
  assert (E : flights closing !! "n1" = Some last_phase) by (vm_compute; reflexivity).
  assert (Hh : honest (env1 2000) true last_phase) by (vm_compute; exact I).
  assert (Hn' : k_Status key <> StatusActive) by (rewrite Hn; discriminate).
  split; [vm_compute; reflexivity|].
  exact (proj2 (activation_earned closing (env1 2000) true "n1" last_phase key1 key key' closing_reachable E Hh Ek Hn' Ek' Ha)).
Defined.

Lemma panel1_capacity : capacity (db panel1).
Proof. intros n r. cbn. intros [<- <-]%lookup_singleton_Some. vm_compute. discriminate. Qed.

Lemma tables_consistent_witness : wf (db served) /\ capacity (db served).
Proof.
  apply (tables_consistent undisturbed panel1); [exact panel1_fresh|exact panel1_capacity|]. apply run_steps; [exact no_looked_undisturbed|]. vm_compute. reflexivity.
Defined.

Lemma profiles_mirror_keys_witness : mirrors (db (run reads_fresh (created ++ whole 2000) panel1).1).
Proof.
  apply (profiles_mirror_keys panel1); [exact panel1_fresh|intros pid q k key; cbn; by rewrite lookup_empty|].
  apply run_steps; [exact reads_fresh_read|]. vm_compute. reflexivity.
Defined.

(** *** Operations *)

Definition with_key : Store := (Create None 1000 (draw1 "aaaa") input1 store1).2.

Lemma create1 : Create None 1000 (draw1 "aaaa") input1 store1 = (Ok key1, with_key).
Proof.
  assert (E : (Create None 1000 (draw1 "aaaa") input1 store1).1 = Ok key1) by (vm_compute; reflexivity).
  unfold with_key. by rewrite <- E, <- surjective_pairing.
Qed.

Lemma created_key_desired_witness : exists secret, secret_of (draw1 "aaaa") input1 secret /\ forall n, n ∈ ["n1"] ->
    (exists r, nodes with_key !! n = Some r /\ n_Dirty r = true) /\
    forall at_ node site des, build at_ node (rows_of n with_key) site = Ok des -> (forall t, None = Some t -> at_ < t) ->
      exists p, p ∈ Profiles (Req des) /\ sp_Name p = DomainTypes.Names.ProfileName key1 /\ sp_Secret p = secret /\ sp_Enabled p = true /\
        secret ∈ MTProxySecrets (Req des).
Proof.
  refine (proj2 (created_key_desired None 1000 (draw1 "aaaa") input1 store1 key1 with_key _ create1)).
  intros x enc [= <-]. reflexivity.
Defined.

Lemma enabled_secrets_witness : exists des, build 1500 node1 (rows_of "n1" with_key) None = Ok des /\ NoDup (MTProxySecrets (Req des)) /\
  forall x, x ∈ MTProxySecrets (Req des) <-> exists r, r ∈ rows_of "n1" with_key /\ DecryptString (p_SecretEnc (r_Profile r)) = Ok x /\ key_enabled 1500 r.
Proof.
  destruct (build 1500 node1 (rows_of "n1" with_key) None) as [des|e] eqn:E; [|vm_compute in E; discriminate].
  exists des. split; [exact eq_refl|]. exact (enabled_secrets 1500 node1 (rows_of "n1" with_key) None des E).
Defined.

Definition line (label secret : string) : ImportItem := {| it_Label := label; it_OwnerLabel := EmptyString; it_Secret := secret |}.

Definition two_lines : list ImportItem :=
  [line " boris " "0123456789ABCDEF0123456789abcdef"; line "clara" "fedcba9876543210fedcba9876543210"].

Definition draws1 (j : nat) : draw :=
  let c := Dec.itoa (Z.of_nat j) in
  {| dr_secret := Err "none left"; dr_seal := fun s => Ok s; dr_key := c +:+ "1111111-2222-4333-8444-555555555555"; dr_profile := fun n => n +:+ c;
     dr_token := Ok ("token" +:+ c); dr_seal_token := fun s => Ok s |}.

Definition roomy : Store := with_nodes store1 {["n1" := {| n_Hostname := "n1.example.org"; n_Engine := "tproxy"; n_TlsDomain := EmptyString; n_TlsDomains := [];
  n_ClassicPort := 8443; n_PublicIp := EmptyString; n_AdTag := EmptyString; n_WebPolicy := "{}"; n_WebCapacity := None; n_WebAppliedBasePath := EmptyString;
  n_TelemtVersion := EmptyString; n_AgentVersion := "2.17.5"; n_MaxProfiles := 5; n_Dirty := false; n_DirtySeq := 0; n_DirtySince := None; n_LastApplyAt := None |}]}.

Definition imported : result (list string) * Store := Import None 1000 draws1 (fun s => Ok s) input1 two_lines roomy.

Lemma imported_Ok : exists ks, imported = (Ok ks, imported.2).
Proof.
  destruct imported.1 as [ks|e] eqn:E; [|vm_compute in E; discriminate]. exists ks. by rewrite <- E, <- surjective_pairing.
Qed.

Lemma import_secrets_unique_witness : NoDup (item_secret <$> two_lines) /\
  forall j it, two_lines !! j = Some it -> exists k key, keys imported.2 !! k = Some key /\ k_Label key = Str.trim_space (it_Label it) /\
    Ok (item_secret it) = Ok (k_SecretEnc key).
Proof.
  destruct imported_Ok as [ks E].
  destruct (import_secrets_unique None 1000 draws1 (fun s => Ok s) input1 two_lines roomy _ _ E) as (_ & H1 & _ & H2). split; [exact H1|].
  intros j it Hj. destruct (H2 j it Hj) as (k & key & _ & H). exists k, key. exact H.
Defined.

(** The key once more, to expire at 5000. *)
Definition timed : Store := (Extend None 2000 key1 5000 with_key).2.

Lemma timed_wf : wf timed.
Proof.
  assert (W : wf with_key) by (apply (kept_wf _ _ (commit_kept None 1000 (CCreate (draw1 "aaaa") input1) store1 I)); destruct panel1_fresh; done).
  exact (kept_wf _ _ (commit_kept None 2000 (CExtend key1 5000) with_key I) W).
Qed.

Lemma due_keys_expire_witness : exists s' key, keys timed !! key1 = Some key /\ keys s' !! key1 = Some (expired_at 5000 key).
Proof.
  destruct (RunOnce true (fun _ => None) 5000 timed) as [r s'] eqn:E.
  destruct (due_keys_expire (fun _ => None) 5000 timed r s' timed_wf E) as (_ & _ & H & _).
  destruct (keys timed !! key1) as [key|] eqn:Ek; [|vm_compute in Ek; discriminate]. exists s', key. split; [exact eq_refl|].
  apply (proj1 (H key1 key Ek)). split; [|reflexivity]. vm_compute in Ek. injection Ek as <-.
  split; [left; reflexivity|]. split; [exists 5000; split; [reflexivity|lia]|reflexivity].
Defined.

(** *** What the hypotheses are for *)

(** A secret rotated after the fingerprints were compared and before the
    profiles are marked: profile and key are called synced and active while the
    node was given the secret before. *)
Example rotated_while_marking :
  let p := (run anything (created ++ until_look 2000 ++ [MEdit 3000 (CRotate (draw1 "bbbb") key1); fly1 2000]) panel1).1 in
  (p_SecretEnc <$> profiles (db p) !! "p1", p_Sync <$> profiles (db p) !! "p1", k_Status <$> keys (db p) !! key1, MTProxySecrets ∘ Req <$> given p !! "n1") =
  (Some "62626262", Some SyncSynced, Some StatusActive, Some ["61616161"]).
Proof. vm_compute. reflexivity. Qed.

(** A key rotated between the two reads of [Bind]: the new profile has the
    secret the rotation withdrew, and an apply makes it synced, the key active. *)
Example bound_with_the_old_secret :
  let two := {| db := with_nodes store1 (<["n2" := node1]> (nodes store1)); flights := ∅; given := ∅ |} in
  let p := (run anything (created ++ whole 2000) two).1 in
  match Bind_read key1 (db p) with
  | Ok (k, _) =>
      let p := (run anything ([MEdit 3000 (CRotate (draw1 "bbbb") key1); MEdit 3000 (CBind "p2" key1 k "n2")] ++
                 MLaunch "n2" :: replicate 7 (MFly (env1 4000) "n2") ++ whole 5000) p).1 in
      (k_SecretEnc <$> keys (db p) !! key1, k_Status <$> keys (db p) !! key1, p_SecretEnc <$> profiles (db p) !! "p2", MTProxySecrets ∘ Req <$> given p !! "n2") =
      (Some "62626262", Some StatusActive, Some "61616161", Some ["61616161"])
  | Err _ => False
  end.
Proof. vm_compute. reflexivity. Qed.

(** An apply of a node that is clean, as a trigger that comes after the sweep
    starts one, fails: the profiles are called failed, an alert is open, and the
    node is not marked for another apply. *)
Example failed_and_clean :
  let broken := {| e_now := 3000; e_job := "j3"; e_driver := fun _ => (fine, Some "timeout"); e_fault := None |} in
  let p := (run anything (created ++ whole 2000 ++ MLaunch "n1" :: replicate 7 (MFly broken "n1")) panel1).1 in
  (flights p !! "n1", n_Dirty <$> nodes (db p) !! "n1", p_Sync <$> profiles (db p) !! "p1", Incidents.al_open <$> alerts (db p)) = (None, Some false, Some SyncFailed, [true]).
Proof. vm_compute. reflexivity. Qed.

(** The checks of a binding and its writes. *)
Definition bind_check (node : string) : Tx unit :=
  n ← named_node node;
  count ← CountNodeProfiles node;
  require (count <? n_MaxProfiles n)
    (ErrCapacity +:+ ": " +:+ n_Hostname n +:+ " has " +:+ Dec.itoa count +:+ "/" +:+ Dec.itoa (n_MaxProfiles n) +:+ " profiles").

Definition bind_write (now : Z) (pid key : string) (k : AccessKey) (node : string) : Tx unit :=
  _ ← CreateProfile pid now node (Some key) (DomainTypes.Names.ProfileName key) (k_SecretEnc k) default_backend (k_CarrierMode k) (k_Limits k);
  _ ← CreateBinding key node pid;
  SetNodeDirty now node.

Lemma bindTx_parts now pid key k node s : bindTx now pid key k node s = (_ ← bind_check node; bind_write now pid key k node) s.
Proof.
  unfold bindTx, bind_check. unfold mbind, Tx_bind. destruct (named_node node s) as [[n s1]|]; [|done].
  destruct (CountNodeProfiles node s1) as [[count s2]|]; [|done]. by destruct (require _ _ s2) as [[[] s3]|].
Qed.

(** Two bindings to a node with one place: both count before either writes. *)
Example two_bindings_one_place :
  let k := new_key input1 "61" in
  let s := with_keys store1 {["a00000000000000" := k; "b00000000000000" := k]} in
  match bind_check "n1" s, bind_check "n1" s with
  | Ok _, Ok _ =>
      match (_ ← bind_write 1 "p1" "a00000000000000" k "n1"; bind_write 1 "p2" "b00000000000000" k "n1") s with
      | Ok (_, s) => count_on "n1" (profiles s) = 2%nat /\ n_MaxProfiles <$> nodes s !! "n1" = Some 1
      | Err _ => False
      end
  | _, _ => False
  end.
Proof. vm_compute. split; reflexivity. Qed.

(** A key deleted while it is being bound: the deletion has listed its nodes
    when the binding to [n2] commits and is applied.  Its last statement takes
    the new profile too; [n2] is clean and still holds the secret. *)
Example deleted_after_listing :
  let two := {| db := with_nodes store1 (<["n2" := node1]> (nodes store1)); flights := ∅; given := ∅ |} in
  let p := (run anything (created ++ whole 2000) two).1 in
  match Bind_read key1 (db p), ListKeyBindings key1 (db p) with
  | Ok (k, _), Ok (listed, _) =>
      let p := (run anything (MEdit 3000 (CBind "p2" key1 k "n2") :: MLaunch "n2" :: replicate 7 (MFly (env1 4000) "n2")) p).1 in
      match (_ ← each (fun b => SetNodeDirty 5000 b.1) listed; DeleteKey key1) (db p) with
      | Ok (_, s) =>
          (keys s !! key1, profiles s !! "p2", n_Dirty <$> nodes s !! "n1", n_Dirty <$> nodes s !! "n2", MTProxySecrets ∘ Req <$> given p !! "n2") =
          (None, None, Some true, Some false, Some ["61616161"])
      | Err _ => False
      end
  | _, _ => False
  end.
Proof. vm_compute. reflexivity. Qed.
