(* ===== verification/Delivery.v ===== *)
(** * From the panel's tables to the users of a node

    The request [Desired.build] makes of a node's rows, carried by
    [Convert.apply_request], read by the agent ([Users.telemtDesiredFrom]): the
    users it is told to hold are the profiles of the rows, each with the secret
    the panel has sealed for it, the limits of its key and of its row, the expiry
    of its key, and switched on exactly when the panel counts it as enabled.

    With [UsersSafety.retry_converges] this is the way of a key from the panel
    to telemt. *)

From S2P Require Import Prelude Regex Calendar WebPolicy DomainTypes AgentProto Tables Keys Desired Apply ApplySafety KeySafety Convert Users Accounts UsersSafety.
Import Convert.Int.

Local Open Scope go_scope.

Section Delivery.
Context `{O : MapOrder} `{C : DesiredCodec}.

(** What the key of a row says in telemt's units. *)
Definition limit_of (r : ProfileRow) (f : Types.TelemtLimits -> Z) : Z := match sent_telemt r with Some t => f t | None => 0 end.

Definition told_policy (now : Z) (tag : string) (r : ProfileRow) : telemtPolicy :=
  {| DataQuotaBytes := limit_of r Types.DataQuotaBytes; RateLimitUpBps := limit_of r Types.RateLimitUpBps;
     RateLimitDownBps := limit_of r Types.RateLimitDownBps; MaxUniqueIPs := limit_of r Types.MaxUniqueIPs;
     MaxTCPConns := limit_of r Types.MaxTCPConns;
     Expiration := match row_expiry r with Some t => Rfc3339.Format (unix t) | None => EmptyString end;
     Enabled := profileEnabled r now; AdTag := tag |}.

Definition told_reset (now : Z) (r : ProfileRow) : Z :=
  match quota_reset now (sent_telemt r) with Some t => unix t | None => 0 end.

(** What the row says of the WEB sessions and streams of its user. *)
Definition told_web (r : ProfileRow) : Limits.WebProfileLimits :=
  match sent_limits (p_Limits (r_Profile r)) with
  | Some l => {| Limits.MaxSessions := Types.MaxSessions l; Limits.MaxStreams := Types.MaxStreams l; Limits.MaxStreamsPerSession := Types.MaxStreamsPerSession l |}
  | None => {| Limits.MaxSessions := 0; Limits.MaxStreams := 0; Limits.MaxStreamsPerSession := 0 |}
  end.

(** A user is told as its row has it. *)
Definition told (now : Z) (tag : string) (r : ProfileRow) (u : telemtDesired) : Prop :=
  name u = p_Name (r_Profile r) /\ DecryptString (p_SecretEnc (r_Profile r)) = Ok (secret u) /\
  policy u = told_policy now tag r /\ webLimits u = told_web r /\ quotaReset u = told_reset now r.

(** What the panel accepts of a row, with WEB limits that fit the 32 bits they
    are sent in ([DeliverySim.long_limit_arrives_short] for one that does not). *)
Record row_ok (r : ProfileRow) : Prop := {
  row_name : accepts userRe (p_Name (r_Profile r)) = true;
  row_secret : forall s, DecryptString (p_SecretEnc (r_Profile r)) = Ok s -> accepts hexRe s = true;
  row_limits : forall t, sent_telemt r = Some t -> Types.validate_telemt_limits t = None;
  row_web : forall l, sent_limits (p_Limits (r_Profile r)) = Some l ->
    is_int32 (Types.MaxSessions l) /\ is_int32 (Types.MaxStreams l) /\ is_int32 (Types.MaxStreamsPerSession l);
  row_expires : forall t, row_expiry r = Some t -> unix t <> 0
}.

Definition rows_ok (rows : list ProfileRow) : Prop :=
  rows <> [] /\ Forall row_ok rows /\ NoDup ((fun r => p_Name (r_Profile r)) <$> rows).

(** ** The instants of the quota periods *)

Lemma month_start_pos z : 0 <= z -> 0 <= Cal.month_start z.
Proof.
  intros Hz. pose proof (Cal.month_bounds z) as Hb. destruct (Z_lt_ge_dec (Cal.month_start z) 0) as [H|]; [|lia].
  destruct (Cal.month_const z 0) as [E _]; [lia|]. change (Cal.month_start 0) with 0 in E. lia.
Qed.

Lemma start_range now t s : 0 <= now -> quota_reset now (Some t) = Some s -> - 7 * Tm.day <= s <= now.
Proof.
  intros Hn. unfold quota_reset. destruct (_ >? 0); [|done]. destruct (Tm.is_zero _) eqn:Ez; [done|]. intros [= <-].
  assert (Hd : 0 <= Cal.day_of now) by (apply Z.div_pos; [done|apply Quota.day_pos]).
  pose proof (Quota.day_of_bounds now) as Hb. pose proof Quota.day_pos.
  destruct (String.eqb_spec (Types.DataQuotaPeriod t) Types.QuotaPeriodWeek) as [->|Hw].
  { rewrite Quota.Start_week. pose proof (Quota.monday_bounds (Cal.day_of now)). nia. }
  destruct (String.eqb_spec (Types.DataQuotaPeriod t) Types.QuotaPeriodMonth) as [->|Hm].
  { rewrite Quota.Start_month. pose proof (month_start_pos _ Hd). pose proof (Cal.month_bounds (Cal.day_of now)). nia. }
  exfalso. revert Ez. unfold Quota.Start. destruct (Cal.civil (Cal.day_of now)) as [[y m] d].
  apply String.eqb_neq in Hw, Hm. unfold Types.QuotaPeriodWeek, Types.QuotaPeriodMonth in *. by rewrite Hw, Hm.
Qed.

Lemma reset_range now r : 0 <= now < 2 ^ 63 -> Dec.min_int64 <= told_reset now r <= Dec.max_int64.
Proof.
  intros Hn. unfold told_reset. destruct (sent_telemt r) as [t|]; [|cbn; unfold Dec.min_int64, Dec.max_int64; lia].
  destruct (quota_reset now (Some t)) as [s|] eqn:E; [|unfold Dec.min_int64, Dec.max_int64; lia].
  apply start_range in E; [|lia]. unfold unix, Dec.min_int64, Dec.max_int64. unfold_time.
  Z.to_euclidean_division_equations. lia.
Qed.

(** ** One row *)

Lemma no_quota_no_reset now r : limit_of r Types.DataQuotaBytes <= 0 -> told_reset now r = 0.
Proof.
  unfold limit_of, told_reset, quota_reset. destruct (sent_telemt r) as [t|]; [|done]. intros H.
  destruct (Types.DataQuotaBytes t >? 0) eqn:E; [lia|done].
Qed.

Lemma limit_fits r : row_ok r ->
  is_uint64 (limit_of r Types.DataQuotaBytes) /\ is_uint64 (limit_of r Types.RateLimitUpBps) /\
  is_uint64 (limit_of r Types.RateLimitDownBps) /\ is_uint32 (limit_of r Types.MaxUniqueIPs) /\ is_uint32 (limit_of r Types.MaxTCPConns).
Proof.
  intros R. pose proof (row_limits _ R) as Hl. unfold limit_of. destruct (sent_telemt r) as [t|].
  - destruct (valid_fit t (Hl t eq_refl)) as (? & ? & ? & ? & ? & _). done.
  - unfold is_uint64, is_uint32. lia.
Qed.

Lemma told_row now tag r s : row_ok r -> DecryptString (p_SecretEnc (r_Profile r)) = Ok s ->
  told now tag r (desired_user tag (ProfileToProto (send_profile now r s))).
Proof.
  intros R Hs. destruct (limit_fits r R) as (? & ? & ? & ? & ?).
  assert (Hp : policy (desired_user tag (ProfileToProto (send_profile now r s))) = told_policy now tag r).
  { unfold desired_user, ProfileToProto, send_profile, telemtPolicyFrom, with_tag, told_policy. cbn. fold (limit_of r).
    change (match sent_telemt r with Some t => ?f t | None => 0 end) with (limit_of r f).
    rewrite !uint64_id, !uint32_id by done. f_equal. destruct (row_expiry r) as [t|] eqn:E; [|done].
    destruct (Z.eqb_spec (unix t) 0) as [E0|]; [|done]. by destruct (row_expires _ R t E). }
  assert (Hw : webLimits (desired_user tag (ProfileToProto (send_profile now r s))) = told_web r).
  { unfold desired_user, ProfileToProto, send_profile, told_web. cbn. destruct (sent_limits _) as [l|] eqn:E; [|done].
    destruct (row_web _ R l E) as (? & ? & ?). cbn. by rewrite !int32_id. }
  split_and!; [done|done|done|exact Hw|].
  change (quotaReset (desired_user tag (ProfileToProto (send_profile now r s)))) with
    (if DataQuotaBytes (policy (desired_user tag (ProfileToProto (send_profile now r s)))) >? 0 then told_reset now r else 0).
  rewrite Hp. cbn. destruct (limit_of r Types.DataQuotaBytes >? 0) eqn:E; [done|]. symmetry. apply no_quota_no_reset. lia.
Qed.

(** ** All rows *)

Lemma desired_rows now tag rows : forall seen ps, mapM (sent_row now) rows = Some ps -> Forall row_ok rows ->
  NoDup ((fun r => p_Name (r_Profile r)) <$> rows) -> (forall r, r ∈ rows -> p_Name (r_Profile r) ∉ seen) ->
  exists ds, desired_users tag seen (ProfileToProto <$> ps) = Ok ds /\ Forall2 (told now tag) rows ds.
Proof.
  induction rows as [|r rows IH]; cbn; intros seen ps Hm HF Hnd Hs.
  { injection Hm as <-. by exists []. }
  destruct (sent_row now r) as [p|] eqn:Er; [|done]. cbn in Hm. destruct (mapM (sent_row now) rows) as [ps'|]; [|done]. injection Hm as <-.
  inversion HF as [|? ? R HF']; subst. apply NoDup_cons in Hnd as [Hnot Hnd].
  unfold sent_row in Er. destruct (DecryptString _) as [x|] eqn:Ex; [|done]. injection Er as <-.
  destruct (IH ({[p_Name (r_Profile r)]} ∪ seen) ps' eq_refl HF' Hnd) as (ds & Hds & HF2).
  { intros q Hq. specialize (Hs q). rewrite elem_of_cons in Hs. apply not_elem_of_union. split; [|by auto].
    apply not_elem_of_singleton. intros E. apply Hnot. rewrite <- E. apply list_elem_of_fmap. by exists q. }
  change (fmap ProfileToProto (send_profile now r x :: ps')) with (ProfileToProto (send_profile now r x) :: (ProfileToProto <$> ps')).
  cbn [desired_users]. set (q := ProfileToProto _).
  change (Pb.Name q) with (p_Name (r_Profile r)). change (Pb.Secret q) with x.
  rewrite (row_name _ R), (row_secret _ R _ Ex). cbn [negb]. rewrite bool_decide_false by (apply Hs; left).
  rewrite Hds. cbn [rbind]. eexists. split; [done|]. constructor; [|done]. by apply told_row.
Qed.

Lemma told_formed now tag rows ds : 0 <= now < 2 ^ 63 -> Forall row_ok rows ->
  NoDup ((fun r => p_Name (r_Profile r)) <$> rows) -> Forall2 (told now tag) rows ds -> well_formed ds.
Proof.
  intros Hn HF Hnd H2.
  assert (En : name <$> ds = (fun r => p_Name (r_Profile r)) <$> rows).
  { clear -H2. induction H2 as [|r u rows ds [E _] _ IH]; cbn; [done|]. by rewrite E, IH. }
  assert (Hback : forall u, u ∈ ds -> exists r, row_ok r /\ told now tag r u).
  { intros u [i Hi]%list_elem_of_lookup_1. destruct (Forall2_lookup_r _ _ _ _ _ H2 Hi) as (r & Hr & Ht). exists r. split; [|done].
    rewrite Forall_forall in HF. apply HF. by eapply list_elem_of_lookup_2. }
  split; [by rewrite En| |].
  - intros u (r & R & _ & _ & -> & _)%Hback. destruct (limit_fits r R) as (? & ? & ? & ? & ?).
    unfold Accounts.unsigned, told_policy, is_uint64, is_uint32 in *. cbn -[limit_of].
    lia.
  - intros u (r & R & _ & _ & _ & _ & ->)%Hback. by apply reset_range.
Qed.

Lemma default_first_ok rows : rows_ok rows -> rows_ok (default_first rows).
Proof.
  intros (Hne & HF & Hnd). pose proof (default_first_perm rows) as P. split_and!.
  - intros E. apply Hne. rewrite E in P. by apply Permutation_nil.
  - by rewrite P.
  - by rewrite P.
Qed.

(** C33: worker.desiredState, nodedriver.Gateway.Apply and the agent's
    telemtDesiredFrom: a request built from a node's rows is accepted by the
    agent, and the users it is told to hold are the rows' profiles in order,
    each with the secret sealed in its row, the quota, rate and connection limits
    and the expiry of its key, the WEB sessions and streams of its row, the start
    of its quota period, the node's tag, and switched on exactly when its key is
    neither revoked, turned off nor past its expiry.  For rows whose telemt
    limits the panel accepts and whose WEB limits fit in 32 bits. *)
Theorem panel_reaches_node now n rows site d :
  build now n rows site = Ok d -> rows_ok rows -> 0 <= now < 2 ^ 63 ->
  Desired.AdTag (Req d) = EmptyString \/ accepts hexRe (Desired.AdTag (Req d)) = true ->
  exists ds, telemtDesiredFrom (apply_request (Req d)) = Ok ds /\
    Forall2 (told now (Desired.AdTag (Req d))) (default_first rows) ds /\ well_formed ds.
Proof.
  intros Hb Hok Hn Htag. apply default_first_ok in Hok as (Hne & HF & Hnd).
  apply build_Ok in Hb as (_ & [Hm _]%send_profiles_Ok & _).
  destruct (desired_rows now (Desired.AdTag (Req d)) _ ∅ _ Hm HF Hnd) as (ds & Hds & H2); [set_solver|].
  exists ds. split_and!; [|done|by eapply told_formed].
  unfold telemtDesiredFrom, apply_request. cbn [Pb.Profiles Pb.AdTag]. rewrite Hds. destruct (ProfileToProto <$> Profiles (Req d)) as [|p ps] eqn:Ep.
  { apply fmap_nil_inv in Ep. rewrite Ep in Hm. destruct (default_first rows); [done|]. apply mapM_Some in Hm. inversion Hm. }
  destruct Htag as [->| ->]; cbn; [done|]. by rewrite andb_false_r.
Qed.

End Delivery.

(** ** A node with two rows *)

Module DeliverySim.

#[local] Instance order : MapOrder := written_order.
Definition web_limits (streams : Z) : Types.ProfileLimits :=
  {| Types.MaxSessions := 5; Types.MaxStreams := streams; Types.MaxBackendDialsInFlight := 0; Types.NewSessionsPerMinute := 0;
     Types.NewSessionsBurst := 0; Types.NewStreamsPerMinute := 0; Types.NewStreamsBurst := 0; Types.MaxStreamsPerSession := 3;
     Types.MaxPendingPerSession := 0 |}.

#[local] Instance texts : DesiredCodec :=
  {| limits_of := fun s => if String.eqb s "large" then Some (web_limits (2 ^ 32 + 1)) else if String.eqb s "small" then Some (web_limits 20) else None;
     telemt_of := fun s => if String.eqb s "weekly" then Some {| Types.DataQuotaBytes := 1000000; Types.RateLimitUpBps := 0;
       Types.RateLimitDownBps := 500000; Types.MaxUniqueIPs := 2; Types.MaxTCPConns := 0; Types.DataQuotaPeriod := "week" |} else None;
     policy_of := fun _ => None; files_of := fun _ => Err "json"; decodeB64 := fun s => Ok s; DecryptString := fun s => Ok s |}.

Definition row (id n sec web limits : string) (expires : option Z) : ProfileRow :=
  {| r_ID := id; r_Profile := {| p_NodeID := "n1"; p_KeyID := Some "k1"; p_Name := n; p_SecretEnc := sec; p_Backend := EmptyString;
       p_CarrierMode := "https"; p_Limits := web; p_Sync := SyncPending; p_CreatedAt := 0 |};
     r_Key := Some {| kv_TelemtLimits := limits; kv_ExpiresAt := expires; kv_Status := StatusActive; kv_DisabledAt := None |} |}.

Definition rows : list ProfileRow :=
  [row "p1" "key-1" "0123456789abcdef0123456789abcdef" "small" "weekly" (Some (1767225600 * Tm.second));
   row "p2" "default" "00000000000000000000000000000000" "{}" EmptyString None].

Definition node : Node :=
  {| n_Hostname := "n1.example.org"; n_Engine := "telemt"; n_TlsDomain := "cdn.example.org"; n_TlsDomains := []; n_ClassicPort := 8443;
     n_PublicIp := "192.0.2.7"; n_AdTag := "ffffffffffffffffffffffffffffffff"; n_WebPolicy := EmptyString; n_WebCapacity := None;
     n_WebAppliedBasePath := EmptyString; n_TelemtVersion := "3.5.14"; n_AgentVersion := "2.17.5"; n_MaxProfiles := 10; n_Dirty := true;
     n_DirtySeq := 7; n_DirtySince := None; n_LastApplyAt := None |}.

Definition instant : Z := 1764720000 * Tm.second.

Lemma sample_rows_ok : rows_ok rows.
Proof.
  split_and!; [done| |].
  - apply Forall_cons; split; [|apply Forall_cons; split; [|constructor]]; split.
    + vm_compute. reflexivity.
    + intros s [= <-]. vm_compute. reflexivity.
    + intros t [= <-]. vm_compute. reflexivity.
    + intros l [= <-]. cbn. unfold is_int32. lia.
    + intros t [= <-]. vm_compute. discriminate.
    + vm_compute. reflexivity.
    + intros s [= <-]. vm_compute. reflexivity.
    + intros t Ht. vm_compute in Ht. discriminate.
    + intros t Ht. vm_compute in Ht. discriminate.
    + intros t Ht. vm_compute in Ht. discriminate.
  - apply NoDup_cons; split; [set_solver|]. apply NoDup_singleton.
Qed.

Lemma panel_reaches_node_witness : exists d ds,
  build instant node rows None = Ok d /\  telemtDesiredFrom (apply_request (Req d)) = Ok ds /\
  Forall2 (told instant (Desired.AdTag (Req d))) (default_first rows) ds /\ well_formed ds.
Proof.
  destruct (build instant node rows None) as [d|e] eqn:E; [|exfalso; vm_compute in E; discriminate].
  assert (Ht : Desired.AdTag (Req d) = "ffffffffffffffffffffffffffffffff") by (vm_compute in E; injection E as <-; reflexivity).
  destruct (panel_reaches_node instant node rows None d E sample_rows_ok) as (ds & H).
  - unfold instant. unfold_time. lia.
  - right. rewrite Ht. by vm_compute.
  - exists d, ds. split; [reflexivity|exact H].
Defined.

(** A limit of streams the panel accepts and telemt is told another of. *)
Example long_limit_arrives_short :
  Types.validate_profile_limits (web_limits (2 ^ 32 + 1)) = None /\
  match build instant node [row "p1" "key-1" "0123456789abcdef0123456789abcdef" "large" EmptyString None] None with
  | Ok d => match telemtDesiredFrom (apply_request (Req d)) with Ok ds => (fun u => Limits.MaxStreams (webLimits u)) <$> ds = [1] | Err _ => False end
  | Err _ => False
  end.
Proof. split; vm_compute; done. Qed.

End DeliverySim.
